(* ===== verification/_CoqProject ===== *)
-Q . S2P
Prelude.v
Headers.v
Proc.v
Kernel.v
Extern.v
RqClock.v
Uclamp.v
UclampProofs.v
Prio.v
SchedOK.v
Mm.v
Affinity.v
AffinityProofs.v
Schedule.v
LazyMm.v
ScheduleProofs.v
Sample.v
PrioProofs.v
MyPriority.v
UclampSpec.v
AddrXlate.v
ForkExtern.v
SchedFork.v
Fork.v
ForkProofs.v
ForkSpec.v
ForkSample.v
TgTree.v
Text.v
Cgroup.v
Bandwidth.v
BandwidthSpec.v
CgroupFiles.v
CgroupTree.v
CgroupSample.v
Migrate.v
MigrateProofs.v
Wakeup.v
WakeProofs.v
WakeSample.v
Setscheduler.v
SetschedProofs.v
SetschedSample.v
SchedSyscalls.v
Clone.v
CloneProofs.v
Unshare.v
UnshareProofs.v
CoreSched.v
CoreToggle.v
CoreSchedProofs.v
CorePick.v
CoreSample.v
PreemptMode.v
CpuUtil.v
StackCache.v
DupMmap.v
DupMmapProofs.v
DupMmapSample.v
Tick.v
TickProofs.v
Hotplug.v
HotplugProofs.v
TickSample.v
RqLocks.v
RqLocksProofs.v
TaskPin.v
TaskPinProofs.v
Boot.v
BootProofs.v
BootSample.v
SchedMisc.v
TaskState.v
ProcTree.v
Pids.v
ForkBoot.v
Experiment.v
PhysPrograms.v
TaskReport.v
System.v
