(* ===== verification/Prelude.v ===== *)
(** * Verification of the NCU Linux kernel projects

    The repository holds two course projects on Linux 5.17.7.

    - Project 1 adds the system call my_get_physical_addresses()
      (Project 1/ADDRESSTRANSFORM/addresstransform.c), which walks the page tables
      of the calling process.
    - Project 2 adds a fixed priority to every task: a field of [task_struct]
      (Project 2/sched.h), its initialisation at fork (Project 2/fork.c), its
      application in __schedule() (Project 2/core.c) and the system call that sets it
      (Project 2/my_set_process_priority.c).  The files core.c (the scheduler core)
      and fork.c (process creation) are part of the project as a whole, and so is
      their behaviour.

    This development translates that code to executable definitions and proves what
    makes it correct.  The definitions keep the names of the C functions.

    ** How the parts interact

    A process is made by kernel_clone() (fork.c), which calls copy_process();
    that duplicates the task, calls sched_fork() (core.c) to give it priorities and a
    class, copies or shares the parent's objects (dup_mmap() for the address space)
    and is undone label by label when a step fails.  wake_up_new_task() puts the
    child on a run queue.  From then on the scheduler's entry points act on it:
    __schedule() picks the next task and switches to it, applying its fixed priority;
    try_to_wake_up() queues a sleeping task again; set_user_nice(),
    rt_mutex_setprio() and __sched_setscheduler() change its priority or policy;
    affinity changes and CPU hotplug move it; the ticks account its time.  The cpu
    controller groups tasks and limits their bandwidth and utilization clamps.
    sched_init() builds the state all of this assumes.

    ** The model

    - Shared state.  [Kernel.machine] is the kernel state seen from one CPU: tasks, run
      queues, task groups and address spaces in finite maps from addresses, so that
      pointers alias as in C; [Proc.fork_state] is the part process creation adds.
      Address spaces with their VMAs ([DupMmap]), kernel stacks ([StackCache]) and
      the concurrent models ([RqLocks], [TaskPin]) have states of their own.
    - Effects.  Handlers are programs in the state-and-fault monad [M] of this file; a
      program that dereferences an unknown address or runs out of fuel is [Stuck], so
      a [wp] statement includes that the code returns.  Error codes are values of
      [Headers.cres].
    - Integers are [Z] with the wrap-around of their width written out ([u32],
      [u64], [s32], [s64]) where the C type matters.
    - Code outside the repository is a parameter: constants and inline functions of
      other headers are the class [Headers.Headers]; scheduling classes, clocks,
      credentials, cgroup core and so on are the classes [Extern], [MigrateExtern],
      [SetschedExtern], [ForkExtern], [CloneExtern], [UnshareExtern],
      [CgroupExtern], [CoreExtern], [TickExtern], [HotplugExtern], [BootExtern],
      [StackExtern], [MmapExtern] and [Paging].  What the code relies on is stated by
      a companion class ([ExternOK], [ExternSafe], ...), and every theorem that uses
      one is instantiated in a sample file.
    - Locks.  A handler is one step: what happens under the run-queue and pi locks is
      not interleaved.  RqLocks and TaskPin drop this and prove, for every
      interleaving, that the locks give the exclusion the other files assume.
    - Configuration: x86-64 with CONFIG_SMP, CGROUP_SCHED, FAIR_GROUP_SCHED,
      CFS_BANDWIDTH, UCLAMP_TASK, UCLAMP_TASK_GROUP, NO_HZ_FULL, HOTPLUG_CPU,
      PREEMPT_DYNAMIC, SCHED_DEBUG, DEBUG_PREEMPT, VMAP_STACK; picking is modelled
      without CONFIG_SCHED_CORE in Schedule and with it in CoreSched.

    ** Files

    Foundations: Prelude (this file: integers, record update, monad, program logic,
    tactics and hint databases), Headers, Proc, Kernel (objects and accessors), Extern
    (the interface to the classes, with a first-come first-served instance), SchedOK
    (the invariant [kernel_ok]), Text (decimal text), Sample (a machine to run on).

    The scheduler core, Project 2/core.c:
    - RqClock: update_rq_clock(), resched_curr().
    - Uclamp, UclampProofs, UclampSpec: utilization clamping.
    - Prio, PrioProofs: priorities, weights, enqueue and dequeue, nice, inheritance.
    - Schedule, LazyMm, ScheduleProofs: __schedule() and the context switch.
    - MyPriority: the fixed priority, with my_set_process_priority.c.
    - Affinity, AffinityProofs, Migrate, MigrateProofs: CPU masks, migrate-disable
      sections, the stopper, affine_move_task(), choosing a CPU.
    - Wakeup, WakeProofs, WakeSample: try_to_wake_up(), wake lists, wake queues.
    - Setscheduler, SetschedProofs, SetschedSample, SchedSyscalls: policies and
      parameters, affinity system calls, yielding.
    - TgTree, Cgroup, Bandwidth, BandwidthSpec, CgroupFiles, CgroupTree, CgroupSample:
      task groups, walk_tg_tree_from(), CFS bandwidth, weights and their files.
    - CoreSched, CoreToggle, CoreSchedProofs, CorePick, CoreSample: core scheduling.
    - PreemptMode: sched_dynamic_update(), preemption notifiers.
    - CpuUtil: effective_cpu_util().
    - Tick, TickProofs, Hotplug, HotplugProofs, TickSample: ticks and CPU hotplug.
    - RqLocks, RqLocksProofs: the locks of the run queues.
    - TaskPin, TaskPinProofs: task_rq_lock(), task_call_func().
    - Boot, BootProofs, BootSample: sched_init(), init_idle(), sched_init_smp().
    - SchedMisc: wait_task_inactive() and smaller services.
    - TaskReport: sched_show_task(), show_state_filter(), dump_cpu_task().
    - System: the steps of the scheduler taken together.

    Process creation, Project 2/fork.c:
    - Mm: reference counts of address spaces.
    - SchedFork (core.c), ForkExtern, Fork, ForkProofs, ForkSpec, ForkSample:
      copy_process() with all labels of its error path.
    - Clone, CloneProofs: fork(), vfork(), clone(), clone3(), kernel
      threads, vfork() completion, the limit on threads.
    - Unshare, UnshareProofs: unshare().
    - DupMmap, DupMmapProofs, DupMmapSample: dup_mmap(), the executable file.
    - StackCache: the cache of kernel stacks.
    - ProcTree: walk_process_tree().  ForkBoot: fork_init(), nr_processes(),
      check_mm().  Pids: pidfds, and the identifier helpers of sched.h.

    Project 2/sched.h: Headers (task states and flags), Kernel ([task_struct]),
    TaskState (state words, letters of states, process flags, restartable sequences),
    TaskReport ([Words]: small inline functions on words of a task).

    Project 1: AddrXlate, the page-table walk and the system call.

    The user programs, each a program on the modelled kernel: Experiment
    (Project 2/testProject2.c) and PhysPrograms (Project 1/EXECUTE: multithread.c,
    test1.c, test2.c).

    ** What the theorems show

    - The fixed priority (MyPriority, System): __schedule() returns on every well-formed
      machine and gives the task it switches to its fixed priority; the system call
      accepts 101 to 139; on all machines reachable by scheduler entries, the system
      call, nice values for any task, NUMA placement and whatever leaves priorities and
      current tasks alone (wake-ups among it), every running task has its fixed priority
      in force unless it was given a nice value since a CPU last scheduled it in; no
      context switch leaves a task on a freed address space.
    - The programs (Experiment, PhysPrograms): what testProject2.c measures is measured
      at the priority it prints, whatever the other CPUs do; the tables of
      multithread.c agree between threads on the areas they share, and on their own areas
      only where the addresses are the same.
    - Concurrency (RqLocksProofs, TaskPinProofs): while core scheduling is turned on
      and off, a thread that was given a run queue owns its lock, and there is no
      deadlock; a task locked by task_rq_lock() stays where it is.
    - Boot (BootProofs): sched_init(), and init_idle() and cpu_init() for the other
      CPUs, establish [sched_ok], the invariant of the theorems on scheduling, with
      every fixed priority in force; the operations of the other files preserve
      [kernel_ok] or all of [sched_ok].
    - Wake-ups and CPUs (WakeProofs, MigrateProofs): no wake-up is lost, also of a
      task that is being migrated or still on its CPU, and choosing a CPU ends on one
      the task may use.  What other CPUs do while a wake-up waits is the parameter
      [meanwhile]; that they bring about what it waits for is [MeanwhileOK].
    - Policies (SetschedProofs, PrioProofs): what a request does on every branch and
      what an unprivileged caller cannot do.
    - Process creation (ForkSpec, CloneProofs, UnshareProofs, DupMmapProofs,
      StackCache, ProcTree): failures are undone (but for the two leaks below), a child
      shares what the flags ask for and nothing else, the ways of making a process agree, an address space is copied exactly,
      stacks are never shared, and walking the process tree is the recursion over it.
    - The cpu controller (TgTree, BandwidthSpec, CgroupFiles, CgroupTree): the walk is
      the recursion over the tree; the files refine an abstract specification of
      limits and keep periods, quotas and bursts in range; what is printed is read back;
      the hierarchy stays a tree.
    - Core scheduling (CorePick, CoreToggle), ticks and hotplug (TickProofs,
      HotplugProofs), preemption models (PreemptMode), clamping (UclampSpec): the
      safety of a core-wide selection, the state machine of the remote tick, the
      round trip of taking a CPU out of service, exact clamp buckets.
    - Where the code does something else than it says, a theorem states what it does:
      [ForkSample.fork_leaks_seccomp_filter], [UnshareProofs.unshare_leaks_nsproxy],
      [HotplugProofs.cpu_deactivate_refused],
      [TaskPinProofs.PinDemo.task_call_func_races],
      [AddrXlate.huge_page_mistranslated], [CgroupFiles.cpu_max_roundtrip] (the burst)
      and others in the proof files.

    ** Fuel and bounds

    Recursion that is not structural takes fuel.  The tree walk of the cpu controller
    has twice the number of groups, walk_process_tree() four times the number of
    tasks, both proved enough.  The fallback choice of a CPU has three rounds, and the
    theorem that it ends shows that no fourth is reached.  __sched_setscheduler() has
    two passes, as its policy can only be re-read once with one handler at a time.
    Lists of VMAs are walked with the size of the VMA store, enough by
    [DupMmapProofs]; wake queues with the number of tasks; stealing with the length of
    the core tree; flipping core scheduling with the size of the online mask.  Twenty
    digits print any 64-bit number.  schedule() repeats while a reschedule is
    requested and wait_task_inactive() while the task is active: these take the number
    of rounds as an argument, and the theorems say what happens for every number.

    ** Not modelled

    - Memory ordering weaker than program order; interrupts inside a handler; tracing,
      RCU, perf, lockdep and statistics (recorded as events where the code calls them).
    - The texts of warnings (__might_resched() and the like), the names of tasks and the
      stack traces in reports.
    - Slab caches and boot parameters without effect on the model
      (proc_caches_init(), thread_stack_cache_init(), setup_resched_latency_warn_ms()).
    - CONFIG_RT_GROUP_SCHED and the variants for configurations other than the above,
      most of them empty functions.
    - The declarations of sched.h and the two syscalls.h, which define no behaviour,
      the fields of [task_struct] used only by other subsystems, the makefiles and
      system-call tables.
    - kernel/sched/sched.h, the scheduling classes and every other file of the kernel:
      they are not in the repository, and are parameters. *)
From Stdlib Require Export ZArith Lia.
From stdpp Require Export base gmap sets list strings fin_maps numbers.

#[global] Open Scope Z_scope.

(** * Machine-width integers *)

(** [u32], [u64] reduce modulo the width; [s32], [s64] reinterpret the result
    as two's complement. *)
Definition u32 (z : Z) : Z := z mod 2 ^ 32.
Definition u64 (z : Z) : Z := z mod 2 ^ 64.
Definition s32 (z : Z) : Z := (z + 2 ^ 31) mod 2 ^ 32 - 2 ^ 31.
Definition s64 (z : Z) : Z := (z + 2 ^ 63) mod 2 ^ 64 - 2 ^ 63.

Definition in_u32 (z : Z) : Prop := 0 <= z < 2 ^ 32.
Definition in_u64 (z : Z) : Prop := 0 <= z < 2 ^ 64.
Definition in_s32 (z : Z) : Prop := - 2 ^ 31 <= z < 2 ^ 31.
Definition in_s64 (z : Z) : Prop := - 2 ^ 63 <= z < 2 ^ 63.

Lemma u32_range z : in_u32 (u32 z).
Proof. unfold in_u32, u32. apply Z.mod_pos_bound. lia. Qed.

Lemma u64_range z : in_u64 (u64 z).
Proof. unfold in_u64, u64. apply Z.mod_pos_bound. lia. Qed.

Lemma s64_range z : in_s64 (s64 z).
Proof.
  unfold in_s64, s64.
  pose proof (Z.mod_pos_bound (z + 2 ^ 63) (2 ^ 64)). lia.
Qed.

Lemma u32_small z : in_u32 z -> u32 z = z.
Proof. apply Z.mod_small. Qed.

Lemma u64_small z : in_u64 z -> u64 z = z.
Proof. apply Z.mod_small. Qed.

Lemma s64_small z : in_s64 z -> s64 z = z.
Proof. unfold in_s64, s64. intros. rewrite Z.mod_small; lia. Qed.

Lemma s32_small z : in_s32 z -> s32 z = z.
Proof. unfold in_s32, s32. intros. rewrite Z.mod_small; lia. Qed.

(** C truth values of integers and flag tests. *)
Definition truthy (z : Z) : bool := negb (z =? 0).
Definition has_flag (flags f : Z) : bool := truthy (Z.land flags f).
Definition b2z (b : bool) : Z := if b then 1 else 0.

Lemma truthy_0 : truthy 0 = false.
Proof. reflexivity. Qed.

Lemma truthy_true z : truthy z = true <-> z <> 0.
Proof. unfold truthy. rewrite negb_true_iff, Z.eqb_neq. done. Qed.

Lemma truthy_false z : truthy z = false <-> z = 0.
Proof. unfold truthy. rewrite negb_false_iff, Z.eqb_eq. done. Qed.

Lemma has_flag_lor a f : f <> 0 -> has_flag (Z.lor a f) f = true.
Proof.
  intros Hf. unfold has_flag. rewrite truthy_true. intros H0. apply Hf.
  replace f with (Z.land (Z.lor a f) f); [done|].
  apply Z.bits_inj'. intros n _. rewrite Z.land_spec, Z.lor_spec.
  by destruct (Z.testbit a n), (Z.testbit f n).
Qed.

Lemma has_flag_ldiff a f : has_flag (Z.ldiff a f) f = false.
Proof.
  unfold has_flag. rewrite truthy_false. apply Z.bits_inj'. intros n _.
  rewrite Z.land_spec, Z.ldiff_spec, Z.bits_0. by destruct (Z.testbit a n), (Z.testbit f n).
Qed.

(** * Functional record update

    [r <| f := v |>] is [r] with field [f] set to [v].  A record type supplies
    its eta expansion once; the updater of each field is derived from it. *)
Class Eta (R : Type) := eta : R -> R.
Class Updater {R E : Type} (f : R -> E) := upd : (E -> E) -> R -> R.
Arguments upd {R E} f {_} _ _.

Ltac derive_updater R E f :=
  let inst := constr:(_ : Eta R) in
  let body := eval red in inst in
  let g := fresh "g" in
  let x := fresh "x" in
  intros g x;
  let b := eval cbv beta in (body x) in
  match b with
  | context C [f x] => let b' := context C [g (f x)] in exact b'
  end.

#[global] Hint Extern 1 (@Updater ?R ?E ?f) => derive_updater R E f : typeclass_instances.

Declare Scope record_scope.
Delimit Scope record_scope with rec.
Notation "r <| f := v |>" := (upd f (fun _ => v) r)
  (at level 1, left associativity, f at level 9, v at level 200, format "r <| f  :=  v |>")
  : record_scope.
#[global] Open Scope record_scope.

(** * The state-and-fault monad *)

(** A handler either returns a value in a new state or gets stuck: it hit a
    [BUG()], dereferenced a pointer that is not an object of its type, or ran
    out of the fuel that bounds a loop. *)
Inductive fault : Type :=
| BUG
| EFAULT_PTR
| NOFUEL.

Inductive outcome (S A : Type) : Type :=
| Ret (a : A) (s : S)
| Stuck (f : fault).
Arguments Ret {S A} _ _.
Arguments Stuck {S A} _.

Definition M (S A : Type) : Type := S -> outcome S A.

#[global] Instance M_ret S : MRet (M S) := fun A a s => Ret a s.
#[global] Instance M_bind S : MBind (M S) := fun A B k c s =>
  match c s with
  | Ret a s' => k a s'
  | Stuck f => Stuck f
  end.

Definition get_state {S} : M S S := fun s => Ret s s.
Definition gets {S A} (f : S -> A) : M S A := fun s => Ret (f s) s.
Definition modify {S} (f : S -> S) : M S unit := fun s => Ret tt (f s).
Definition stuck {S A} (f : fault) : M S A := fun _ => Stuck f.
Definition when {S} (b : bool) (c : M S unit) : M S unit := if b then c else mret tt.

Fixpoint mapM_ {S A} (f : A -> M S unit) (l : list A) : M S unit :=
  match l with
  | [] => mret tt
  | x :: l' => f x ;; mapM_ f l'
  end.

(** ** Program logic: weakest preconditions

    [wp] is total: a stuck outcome satisfies no postcondition. *)
Definition wp {S A} (c : M S A) (Q : A -> S -> Prop) (s : S) : Prop :=
  match c s with
  | Ret a s' => Q a s'
  | Stuck _ => False
  end.

Section WpLaws.
Context {S : Type}.

Lemma wp_ret {A} (a : A) Q (s : S) : wp (mret a) Q s <-> Q a s.
Proof. done. Qed.

Lemma wp_bind {A B} (c : M S A) (k : A -> M S B) Q s :
  wp (c ≫= k) Q s <-> wp c (fun a s' => wp (k a) Q s') s.
Proof. unfold wp, mbind, M_bind. by destruct (c s). Qed.

Lemma wp_get_state Q (s : S) : wp get_state Q s <-> Q s s.
Proof. done. Qed.

Lemma wp_gets {A} (f : S -> A) Q s : wp (gets f) Q s <-> Q (f s) s.
Proof. done. Qed.

Lemma wp_modify (f : S -> S) Q s : wp (modify f) Q s <-> Q tt (f s).
Proof. done. Qed.

Lemma wp_if {A} (b : bool) (c1 c2 : M S A) Q s :
  wp (if b then c1 else c2) Q s <-> if b then wp c1 Q s else wp c2 Q s.
Proof. by destruct b. Qed.

Lemma wp_when (b : bool) (c : M S unit) Q s :
  wp (when b c) Q s <-> if b then wp c Q s else Q tt s.
Proof. by destruct b. Qed.

Lemma wp_mono {A} (c : M S A) (Q R : A -> S -> Prop) s :
  wp c Q s -> (forall a s', Q a s' -> R a s') -> wp c R s.
Proof. unfold wp. destruct (c s); eauto. Qed.

Lemma wp_run {A} (c : M S A) Q s :
  wp c Q s <-> exists a s', c s = Ret a s' /\ Q a s'.
Proof.
  unfold wp. split.
  - destruct (c s) as [a s'|]; [eauto | done].
  - by intros (a & s' & -> & ?).
Qed.

Lemma wp_eq {A} (c : M S A) a s s' : wp c (fun b t => b = a /\ t = s') s -> c s = Ret a s'.
Proof. unfold wp. destruct (c s); [by intros [-> ->] | done]. Qed.

Lemma wp_conj {A} (c : M S A) (Q R : A -> S -> Prop) s :
  wp c Q s -> wp c R s -> wp c (fun a s' => Q a s' /\ R a s') s.
Proof. unfold wp. by destruct (c s). Qed.
End WpLaws.

(** ** Preservation of a preorder on states

    [preserves R c]: whenever [c] returns, the final state is related to the
    initial one.  This is how "this call leaves that part of the state alone"
    is stated and composed. *)
Definition preserves {S A} (R : S -> S -> Prop) (c : M S A) : Prop :=
  forall s a s', c s = Ret a s' -> R s s'.

Section Preserves.
Context {S : Type} (R : S -> S -> Prop) `{!PreOrder R}.

Lemma preserves_ret {A} (a : A) : preserves R (mret a).
Proof. intros s ? ? [= -> ->]. reflexivity. Qed.

Lemma preserves_bind {A B} (c : M S A) (k : A -> M S B) :
  preserves R c -> (forall a, preserves R (k a)) -> preserves R (c ≫= k).
Proof.
  intros Hc Hk s b s'. unfold mbind, M_bind.
  destruct (c s) as [a s1|] eqn:E; [intros E2 | done].
  transitivity s1; [by eapply Hc | by eapply Hk].
Qed.

Lemma preserves_get_state : preserves R get_state.
Proof. intros s ? ? [= -> ->]. reflexivity. Qed.

Lemma preserves_gets {A} (f : S -> A) : preserves R (gets f).
Proof. intros s ? ? [= <- <-]. reflexivity. Qed.

Lemma preserves_stuck {A} f : preserves R (@stuck S A f).
Proof. by intros s ? ?. Qed.

Lemma preserves_modify f : (forall s, R s (f s)) -> preserves R (modify f).
Proof. intros H s ? ? [= <- <-]. apply H. Qed.

Lemma preserves_when b c : preserves R c -> preserves R (when b c).
Proof. destruct b; [done|]. intros _. apply preserves_ret. Qed.

Lemma preserves_if {A} (b : bool) (c1 c2 : M S A) :
  preserves R c1 -> preserves R c2 -> preserves R (if b then c1 else c2).
Proof. by destruct b. Qed.

Lemma preserves_mapM_ {A} (f : A -> M S unit) l :
  (forall x, preserves R (f x)) -> preserves R (mapM_ f l).
Proof.
  intros Hf. induction l; simpl; [apply preserves_ret|].
  apply preserves_bind; auto.
Qed.
End Preserves.

(** A call that returns and respects a frame. *)
Lemma wp_call {S A} (R : S -> S -> Prop) (c : M S A) (V Q : A -> S -> Prop) s :
  wp c V s -> preserves R c -> (forall a s', V a s' -> R s s' -> Q a s') -> wp c Q s.
Proof.
  intros Hc HR HQ. apply wp_run in Hc as (a & s' & E & HV). apply wp_run.
  exists a, s'. split; [done|]. apply HQ; [done | by eapply HR].
Qed.

(** A loop keeps an invariant its body keeps. *)
Lemma wp_mapM_inv {S A} (I : S -> Prop) (f : A -> M S unit) l Q s :
  (forall x s', x ∈ l -> I s' -> wp (f x) (fun _ => I) s') -> I s -> (forall s', I s' -> Q tt s') ->
  wp (mapM_ f l) Q s.
Proof.
  revert s. induction l as [|x l IH]; intros s Hf Hs HQ; cbn; [by apply wp_ret, HQ|].
  apply wp_bind. eapply wp_mono; [apply Hf; [apply list_elem_of_here | done]|].
  intros [] s' Hs'. apply IH; [|done..]. intros y s2 Hy. apply Hf. by apply list_elem_of_further.
Qed.

(** The state after a run. *)
Definition after {S A} (c : M S A) (s : S) : S :=
  match c s with Ret _ s' => s' | Stuck _ => s end.

Lemma wp_after {S A} (c : M S A) (Q : S -> Prop) s : wp c (fun _ s' => Q s') s -> Q (after c s).
Proof. unfold wp, after. by destruct (c s). Qed.

Definition returns {S A} (c : M S A) (s : S) : Prop := wp c (fun _ _ => True) s.

Create HintDb preserve.
#[export] Hint Resolve preserves_ret preserves_get_state preserves_gets
  preserves_stuck preserves_when preserves_mapM_ : preserve.
#[export] Hint Extern 1 (PreOrder _) => typeclasses eauto : preserve.

(** [keep] proves a [preserves] goal by following the program text, leaving
    the calls it has no hint for. *)
Ltac keep_step :=
  lazymatch goal with
  | |- forall _, _ => intros
  | |- preserves _ (mbind _ _) => apply preserves_bind; [typeclasses eauto | | ]
  | |- preserves _ (when _ _) => apply preserves_when; [typeclasses eauto | ]
  | |- preserves _ (mapM_ _ _) => apply preserves_mapM_; [typeclasses eauto | ]
  | |- preserves _ (if ?b then _ else _) => destruct b
  | |- preserves _ (match ?x with _ => _ end) => destruct x
  end.

Ltac keep :=
  repeat first [ solve [eauto 3 with preserve] | keep_step ].

(** * Object stores

    Kernel objects of one type live in a finite map from addresses; [NULL] is
    address 0 and holds no object. *)
Class Store (S R : Type) := {
  store : S -> gmap Z R;
  set_store : gmap Z R -> S -> S;
  store_set_store : forall m s, store (set_store m s) = m;
}.

Definition NULL : Z := 0.

Section StoreOps.
Context {S R : Type} `{!Store S R}.

Definition deref (p : Z) : M S R := fun s =>
  match store s !! p with
  | Some r => Ret r s
  | None => Stuck EFAULT_PTR
  end.

Definition rd {E} (p : Z) (f : R -> E) : M S E := r ← deref p; mret (f r).

Definition upd_obj (p : Z) (g : R -> R) : M S unit :=
  r ← deref p; modify (fun s => set_store (<[p := g r]> (store s)) s).

Definition wr {E} (p : Z) (f : R -> E) `{!Updater f} (v : E) : M S unit :=
  upd_obj p (fun r => r <| f := v |>).

Lemma wp_deref p Q (s : S) :
  wp (deref p) Q s <-> exists r, store s !! p = Some r /\ Q r s.
Proof.
  unfold wp, deref. destruct (store s !! p) eqn:E; [|naive_solver].
  split; [eauto|]. by intros (? & [= ->] & ?).
Qed.

Lemma wp_rd {E} p (f : R -> E) Q (s : S) :
  wp (rd p f) Q s <-> exists r, store s !! p = Some r /\ Q (f r) s.
Proof. unfold rd. rewrite wp_bind, wp_deref. done. Qed.

Lemma wp_upd_obj p g Q (s : S) :
  wp (upd_obj p g) Q s <->
  exists r, store s !! p = Some r /\ Q tt (set_store (<[p := g r]> (store s)) s).
Proof. unfold upd_obj. rewrite wp_bind, wp_deref. done. Qed.

Lemma wp_wr {E} p (f : R -> E) `{!Updater f} v Q (s : S) :
  wp (wr p f v) Q s <->
  exists r, store s !! p = Some r /\ Q tt (set_store (<[p := r <| f := v |>]> (store s)) s).
Proof. apply wp_upd_obj. Qed.

Lemma preserves_deref (T : S -> S -> Prop) `{!PreOrder T} p : preserves T (deref p).
Proof.
  intros s r s'. unfold deref. destruct (store s !! p); [|done].
  intros [= <- <-]. reflexivity.
Qed.

Lemma preserves_rd (T : S -> S -> Prop) `{!PreOrder T} {E} p (f : R -> E) :
  preserves T (rd p f).
Proof.
  apply preserves_bind; [done | by apply preserves_deref |].
  intros. by apply preserves_ret.
Qed.

Lemma preserves_upd_obj (T : S -> S -> Prop) `{!PreOrder T} p g :
  (forall s r, store s !! p = Some r -> T s (set_store (<[p := g r]> (store s)) s)) ->
  preserves T (upd_obj p g).
Proof.
  intros H s a s'. unfold upd_obj, mbind, M_bind, deref, modify.
  destruct (store s !! p) eqn:E; [|done]. intros [= <- <-]. by apply H.
Qed.
End StoreOps.

#[export] Hint Resolve preserves_deref preserves_rd : preserve.

Notation "p ⇝ f" := (rd p f) (at level 15, f at level 9, no associativity, format "p  ⇝  f").
Notation "'set!' p ⇝ f := v" := (wr p f v)
  (at level 90, p at level 14, f at level 9, v at level 89).
Notation "'upd!' p ⇝ f := g" := (upd_obj p (upd f g))
  (at level 90, p at level 14, f at level 9, g at level 89).

(** [wp_step] executes one combinator of the program in the goal; an object
    access asks [find_obj] for the object.  [wp_go] runs the program up to the
    next test it cannot decide. *)
Ltac find_obj :=
  cbn;
  first
    [ eassumption
    | rewrite lookup_insert_eq; reflexivity
    | rewrite lookup_insert_ne by congruence; find_obj
    | simplify_map_eq; reflexivity
    | reflexivity ].

Ltac wp_access := eexists; split; [solve [find_obj] | ].

Ltac wp_step :=
  lazymatch goal with
  | |- wp (mbind _ _) _ _ => apply wp_bind
  | |- wp (mret _) _ _ => apply wp_ret
  | |- wp (gets _) _ _ => apply wp_gets
  | |- wp get_state _ _ => apply wp_get_state
  | |- wp (modify _) _ _ => apply wp_modify
  | |- wp (when _ _) _ _ => apply wp_when
  | |- wp (if _ then _ else _) _ _ => apply wp_if
  | |- wp (deref _) _ _ => apply wp_deref; wp_access
  | |- wp (rd _ _) _ _ => apply wp_rd; wp_access
  | |- wp (wr _ _ _) _ _ => apply wp_wr; wp_access
  | |- wp (upd_obj _ _) _ _ => apply wp_upd_obj; wp_access
  end; cbv beta.

Ltac wp_go := repeat wp_step.

(** * Generic lemmas on lists and options *)

Lemma fold_left_app_inv {A B} (P : A -> Prop) (f : A -> B -> A) l a :
  P a -> (forall a b, P a -> P (f a b)) -> P (fold_left f l a).
Proof. intros Ha Hf. revert a Ha. induction l; simpl; auto. Qed.

(** A check of two tables entry by entry. *)
Lemma forallb_zip {A B} (f : A * B -> bool) l k i a b :
  forallb f (zip l k) = true -> l !! i = Some a -> k !! i = Some b -> f (a, b) = true.
Proof.
  intros Hf Ha Hb. rewrite forallb_forall in Hf. apply Hf.
  apply list_elem_of_In, (list_elem_of_lookup_2 _ i). rewrite lookup_zip_with, Ha. cbn. by rewrite Hb.
Qed.

(** * Counting the objects of a store *)
Section Count.
Context {A : Type}.

Definition count_in (f : A -> bool) (m : gmap Z A) : Z :=
  Z.of_nat (length (List.filter f (map_to_list m).*2)).

Lemma filter_perm_length (f : A -> bool) l l' :
  l ≡ₚ l' -> length (List.filter f l) = length (List.filter f l').
Proof. intros HP. induction HP; cbn; repeat case_match; cbn; congruence. Qed.

Lemma count_in_insert f m p a :
  count_in f (<[p := a]> m) = b2z (f a) + count_in f (delete p m).
Proof.
  unfold count_in. rewrite <- insert_delete_eq.
  erewrite filter_perm_length by (apply fmap_Permutation, map_to_list_insert, lookup_delete_eq).
  cbn. destruct (f a); cbn -[Z.of_nat]; lia.
Qed.

Lemma count_in_fresh f m p a : m !! p = None -> count_in f (<[p := a]> m) = b2z (f a) + count_in f m.
Proof. intros Hp. by rewrite count_in_insert, delete_id. Qed.

Lemma count_in_split f m p a :
  m !! p = Some a -> count_in f m = b2z (f a) + count_in f (delete p m).
Proof. intros Hp. rewrite <- (insert_id m p a Hp) at 1. apply count_in_insert. Qed.

Lemma count_in_change f m p a b :
  m !! p = Some a -> count_in f (<[p := b]> m) = count_in f m - b2z (f a) + b2z (f b).
Proof. intros Hp. rewrite count_in_insert, (count_in_split f m p a Hp). lia. Qed.

Lemma count_in_nonneg f m : 0 <= count_in f m.
Proof. unfold count_in. lia. Qed.

Lemma count_in_pos f m p a : m !! p = Some a -> f a = true -> 0 < count_in f m.
Proof.
  intros Hp Hf. rewrite (count_in_split f m p a Hp), Hf. pose proof (count_in_nonneg f (delete p m)).
  cbn. lia.
Qed.

Lemma count_in_false f m : (forall p a, m !! p = Some a -> f a = false) -> count_in f m = 0.
Proof.
  intros Hf. unfold count_in. replace (List.filter f (map_to_list m).*2) with (@nil A); [done|].
  symmetry. assert (Hl : forall a, a ∈ (map_to_list m).*2 -> f a = false).
  { intros a Ha. apply list_elem_of_fmap in Ha as ([p a'] & -> & Ha).
    apply elem_of_map_to_list in Ha. by eapply Hf. }
  revert Hl. generalize ((map_to_list m).*2) as l. induction l as [|a l IH]; intros Hl; cbn; [done|].
  rewrite Hl by apply list_elem_of_here. apply IH. intros. apply Hl. by apply list_elem_of_further.
Qed.

Lemma count_in_fmap {B} (g : B -> A) f (m : gmap Z B) :
  count_in f (g <$> m) = Z.of_nat (length (List.filter (fun b => f (g b)) (map_to_list m).*2)).
Proof.
  unfold count_in. f_equal.
  rewrite map_to_list_fmap.
  generalize (map_to_list m) as l. induction l as [|[p b] l IH]; cbn; [done|].
  destruct (f (g b)); cbn; by rewrite IH.
Qed.
End Count.

Lemma count_in_agree {A B} (g : A -> B) (f : B -> bool) (m m' : gmap Z A) :
  g <$> m = g <$> m' -> count_in (fun a => f (g a)) m = count_in (fun a => f (g a)) m'.
Proof. intros E. unfold count_in at 1 2. by rewrite <- !count_in_fmap, E. Qed.
