(* ===== verification/Headers.v ===== *)
(** Interface to the kernel headers that are not part of the repository, and
    the constants of include/linux/sched.h (Project 2/sched.h), which is.

    The class [Headers] has one field per constant or inline function that
    core.c, fork.c and the two system calls take from a header outside the
    repository; [HeadersOK] lists what those headers document about them.  The
    theorems are proved for every instance; [linux_headers] is the instance
    with the values of an x86-64 build, used to run the definitions. *)
From S2P Require Import Prelude.

(** * Headers outside the repository *)
Class Headers := {
  (** include/linux/sched/prio.h *)
  MAX_NICE : Z; MIN_NICE : Z; NICE_WIDTH : Z;
  MAX_RT_PRIO : Z; MAX_DL_PRIO : Z;
  NICE_TO_PRIO : Z -> Z; PRIO_TO_NICE : Z -> Z;
  nice_to_rlimit : Z -> Z;
  rt_prio : Z -> bool; dl_prio : Z -> bool;
  (** include/uapi/linux/sched.h: policies and sched_attr flags *)
  SCHED_NORMAL : Z; SCHED_FIFO : Z; SCHED_RR : Z; SCHED_BATCH : Z;
  SCHED_IDLE : Z; SCHED_DEADLINE : Z; SCHED_RESET_ON_FORK : Z;
  SCHED_FLAG_RESET_ON_FORK : Z; SCHED_FLAG_KEEP_POLICY : Z;
  SCHED_FLAG_KEEP_PARAMS : Z; SCHED_FLAG_UTIL_CLAMP_MIN : Z;
  SCHED_FLAG_UTIL_CLAMP_MAX : Z; SCHED_FLAG_UTIL_CLAMP : Z;
  SCHED_FLAG_ALL : Z; SCHED_FLAG_SUGOV : Z;
  SCHED_ATTR_SIZE_VER0 : Z; SCHED_ATTR_SIZE_VER1 : Z; SCHED_ATTR_SIZE : Z;
  (** kernel/sched/sched.h *)
  fair_policy : Z -> bool; rt_policy : Z -> bool; dl_policy : Z -> bool;
  idle_policy : Z -> bool; valid_policy : Z -> bool;
  TASK_ON_RQ_QUEUED : Z; TASK_ON_RQ_MIGRATING : Z;
  DEQUEUE_SLEEP : Z; DEQUEUE_SAVE : Z; DEQUEUE_MOVE : Z; DEQUEUE_NOCLOCK : Z;
  ENQUEUE_WAKEUP : Z; ENQUEUE_RESTORE : Z; ENQUEUE_NOCLOCK : Z;
  ENQUEUE_HEAD : Z; ENQUEUE_REPLENISH : Z; ENQUEUE_MIGRATED : Z;
  WF_FORK : Z; WF_TTWU : Z; WF_SYNC : Z; WF_MIGRATED : Z; WF_ON_CPU : Z; WF_EXEC : Z;
  RQCF_REQ_SKIP : Z; RQCF_ACT_SKIP : Z; RQCF_UPDATED : Z;
  WEIGHT_IDLEPRIO : Z; WMULT_IDLEPRIO : Z; scale_load : Z -> Z;
  UCLAMP_BUCKETS : Z; UCLAMP_FLAG_IDLE : Z;
  SCA_CHECK : Z; SCA_MIGRATE_DISABLE : Z; SCA_MIGRATE_ENABLE : Z; SCA_USER : Z;
  MDF_PUSH : Z;
  (** include/linux/preempt.h; the counts without the inverted
      need-resched bit that x86 folds into them *)
  PREEMPT_MASK : Z; PREEMPT_DISABLE_OFFSET : Z; FORK_PREEMPT_COUNT : Z; PREEMPT_DISABLED : Z;
  (** include/linux/log2.h, include/asm/page.h *)
  bits_per : Z -> Z; PAGE_SIZE : Z;
}.

(** What the headers document. *)
Class HeadersOK (H : Headers) : Prop := {
  MAX_NICE_val : MAX_NICE = 19;
  MIN_NICE_val : MIN_NICE = -20;
  NICE_WIDTH_val : NICE_WIDTH = 40;
  MAX_RT_PRIO_val : MAX_RT_PRIO = 100;
  MAX_DL_PRIO_val : MAX_DL_PRIO = 0;
  NICE_TO_PRIO_val : forall n, NICE_TO_PRIO n = n + 120;
  PRIO_TO_NICE_val : forall p, PRIO_TO_NICE p = p - 120;
  nice_to_rlimit_val : forall n, nice_to_rlimit n = 19 - n + 1;
  rt_prio_val : forall p, rt_prio p = (p <? 100);
  dl_prio_val : forall p, dl_prio p = (p <? 0);
  policies_val : [SCHED_NORMAL; SCHED_FIFO; SCHED_RR; SCHED_BATCH; SCHED_IDLE; SCHED_DEADLINE]
    = [0; 1; 2; 3; 5; 6];
  idle_policy_val : forall p, idle_policy p = (p =? 5);
  fair_policy_val : forall p, fair_policy p = ((p =? 0) || (p =? 3))%bool;
  rt_policy_val : forall p, rt_policy p = ((p =? 1) || (p =? 2))%bool;
  dl_policy_val : forall p, dl_policy p = (p =? 6);
  valid_policy_val : forall p, valid_policy p =
    (idle_policy p || fair_policy p || rt_policy p || dl_policy p)%bool;
  reset_on_fork_val : SCHED_RESET_ON_FORK = 0x40000000;
  on_rq_queued_val : TASK_ON_RQ_QUEUED = 1;
  on_rq_migrating_val : TASK_ON_RQ_MIGRATING = 2;
  util_clamp_flags_val :
    SCHED_FLAG_UTIL_CLAMP = Z.lor SCHED_FLAG_UTIL_CLAMP_MIN SCHED_FLAG_UTIL_CLAMP_MAX;
  util_clamp_min_val : SCHED_FLAG_UTIL_CLAMP_MIN = 0x20;
  util_clamp_max_val : SCHED_FLAG_UTIL_CLAMP_MAX = 0x40;
  uclamp_flag_idle_val : UCLAMP_FLAG_IDLE = 1;
  uclamp_buckets_range : 5 <= UCLAMP_BUCKETS <= 20;
  sca_flags_val : [SCA_CHECK; SCA_MIGRATE_DISABLE; SCA_MIGRATE_ENABLE; SCA_USER] = [1; 2; 4; 8];
  preempt_offsets_val :
    [PREEMPT_MASK; PREEMPT_DISABLE_OFFSET; FORK_PREEMPT_COUNT; PREEMPT_DISABLED] = [255; 1; 2; 1];
  bits_per_val : forall n, 0 < n -> bits_per n = Z.log2 n + 1;
}.

(** The values of an x86-64 Linux 5.17 build. *)
Definition linux_headers : Headers := {|
  MAX_NICE := 19; MIN_NICE := -20; NICE_WIDTH := 40;
  MAX_RT_PRIO := 100; MAX_DL_PRIO := 0;
  NICE_TO_PRIO n := n + 120; PRIO_TO_NICE p := p - 120;
  nice_to_rlimit n := 19 - n + 1;
  rt_prio p := p <? 100; dl_prio p := p <? 0;
  SCHED_NORMAL := 0; SCHED_FIFO := 1; SCHED_RR := 2; SCHED_BATCH := 3;
  SCHED_IDLE := 5; SCHED_DEADLINE := 6; SCHED_RESET_ON_FORK := 0x40000000;
  SCHED_FLAG_RESET_ON_FORK := 1; SCHED_FLAG_KEEP_POLICY := 8;
  SCHED_FLAG_KEEP_PARAMS := 0x10; SCHED_FLAG_UTIL_CLAMP_MIN := 0x20;
  SCHED_FLAG_UTIL_CLAMP_MAX := 0x40; SCHED_FLAG_UTIL_CLAMP := 0x60;
  SCHED_FLAG_ALL := 0x7f; SCHED_FLAG_SUGOV := 0x10000000;
  SCHED_ATTR_SIZE_VER0 := 48; SCHED_ATTR_SIZE_VER1 := 56; SCHED_ATTR_SIZE := 56;
  fair_policy p := ((p =? 0) || (p =? 3))%bool;
  rt_policy p := ((p =? 1) || (p =? 2))%bool;
  dl_policy p := (p =? 6); idle_policy p := (p =? 5);
  valid_policy p := ((p =? 5) || ((p =? 0) || (p =? 3)) || ((p =? 1) || (p =? 2)) || (p =? 6))%bool;
  TASK_ON_RQ_QUEUED := 1; TASK_ON_RQ_MIGRATING := 2;
  DEQUEUE_SLEEP := 1; DEQUEUE_SAVE := 2; DEQUEUE_MOVE := 4; DEQUEUE_NOCLOCK := 8;
  ENQUEUE_WAKEUP := 1; ENQUEUE_RESTORE := 2; ENQUEUE_NOCLOCK := 8;
  ENQUEUE_HEAD := 0x10; ENQUEUE_REPLENISH := 0x20; ENQUEUE_MIGRATED := 0x40;
  WF_FORK := 4; WF_TTWU := 8; WF_SYNC := 0x10; WF_MIGRATED := 0x20; WF_ON_CPU := 0x40; WF_EXEC := 2;
  RQCF_REQ_SKIP := 1; RQCF_ACT_SKIP := 2; RQCF_UPDATED := 4;
  WEIGHT_IDLEPRIO := 3; WMULT_IDLEPRIO := 1431655765; scale_load w := w * 1024;
  UCLAMP_BUCKETS := 5; UCLAMP_FLAG_IDLE := 1;
  SCA_CHECK := 1; SCA_MIGRATE_DISABLE := 2; SCA_MIGRATE_ENABLE := 4; SCA_USER := 8; MDF_PUSH := 1;
  PREEMPT_MASK := 255; PREEMPT_DISABLE_OFFSET := 1; FORK_PREEMPT_COUNT := 2; PREEMPT_DISABLED := 1;
  bits_per n := Z.log2 n + 1; PAGE_SIZE := 4096;
|}.

#[export] Instance linux_headers_ok : HeadersOK linux_headers.
Proof. split; try reflexivity; simpl; lia. Qed.

(** * Error numbers *)

(** A C function that returns [-Exxx] on failure is modelled by a result. *)
Inductive errno : Type :=
| EPERM | ESRCH | EINVAL | EFAULT | E2BIG | EBUSY | EAGAIN | ENOMEM | EIO
| EOPNOTSUPP | ENOSYS | EINTR | ENODEV | ERANGE | EACCES | ERESTARTNOINTR
| EXDEV | ENODATA.

#[export] Instance errno_eq_dec : EqDecision errno.
Proof. solve_decision. Defined.

Inductive cres (A : Type) : Type :=
| Ok (a : A)
| Err (e : errno).
Arguments Ok {A} _.
Arguments Err {A} _.

(** * Project 2/sched.h *)

(** Task states (sched.h, "Used in tsk->state"). *)
Definition TASK_RUNNING : Z := (0x0000).
Definition TASK_INTERRUPTIBLE : Z := (0x0001).
Definition TASK_UNINTERRUPTIBLE : Z := (0x0002).
Definition __TASK_STOPPED : Z := (0x0004).
Definition __TASK_TRACED : Z := (0x0008).
Definition EXIT_DEAD : Z := (0x0010).
Definition EXIT_ZOMBIE : Z := (0x0020).
Definition EXIT_TRACE : Z := Z.lor EXIT_ZOMBIE EXIT_DEAD.
Definition TASK_PARKED : Z := (0x0040).
Definition TASK_DEAD : Z := (0x0080).
Definition TASK_WAKEKILL : Z := (0x0100).
Definition TASK_WAKING : Z := (0x0200).
Definition TASK_NOLOAD : Z := (0x0400).
Definition TASK_NEW : Z := (0x0800).
Definition TASK_RTLOCK_WAIT : Z := (0x1000).
Definition TASK_STATE_MAX : Z := (0x2000).
Definition TASK_KILLABLE : Z := Z.lor TASK_WAKEKILL TASK_UNINTERRUPTIBLE.
Definition TASK_STOPPED : Z := Z.lor TASK_WAKEKILL __TASK_STOPPED.
Definition TASK_TRACED : Z := Z.lor TASK_WAKEKILL __TASK_TRACED.
Definition TASK_IDLE : Z := Z.lor TASK_UNINTERRUPTIBLE TASK_NOLOAD.
Definition TASK_NORMAL : Z := Z.lor TASK_INTERRUPTIBLE TASK_UNINTERRUPTIBLE.
Definition TASK_REPORT : Z :=
  fold_left Z.lor [TASK_INTERRUPTIBLE; TASK_UNINTERRUPTIBLE; __TASK_STOPPED;
    __TASK_TRACED; EXIT_DEAD; EXIT_ZOMBIE; TASK_PARKED] TASK_RUNNING.

Definition is_special_task_state (state : Z) : bool :=
  has_flag state (fold_left Z.lor [__TASK_TRACED; TASK_PARKED; TASK_DEAD] __TASK_STOPPED).

(** Per-process flags (the PF_ constants of sched.h). *)
Definition PF_IDLE : Z := (0x00000002).
Definition PF_EXITING : Z := (0x00000004).
Definition PF_IO_WORKER : Z := (0x00000010).
Definition PF_WQ_WORKER : Z := (0x00000020).
Definition PF_FORKNOEXEC : Z := (0x00000040).
Definition PF_SUPERPRIV : Z := (0x00000100).
Definition PF_NPROC_EXCEEDED : Z := (0x00001000).
Definition PF_NOFREEZE : Z := (0x00008000).
Definition PF_FROZEN : Z := (0x00010000).
Definition PF_KTHREAD : Z := (0x00200000).
Definition PF_NO_SETAFFINITY : Z := (0x04000000).

(** Fixed-point capacity scale. *)
Definition SCHED_FIXEDPOINT_SHIFT : Z := 10.
Definition SCHED_FIXEDPOINT_SCALE : Z := Z.shiftl 1 SCHED_FIXEDPOINT_SHIFT.
Definition SCHED_CAPACITY_SHIFT : Z := SCHED_FIXEDPOINT_SHIFT.
Definition SCHED_CAPACITY_SCALE : Z := Z.shiftl 1 SCHED_CAPACITY_SHIFT.
