(* ===== verification/Proc.v ===== *)
(** The objects process creation (fork.c) shares or copies besides the
    scheduler's: filesystem information, file tables, signal handlers, the
    signal state of a thread group, and the process part of [task_struct].

    Resources whose code is outside the repository (credentials, namespaces,
    security blobs, ...) are tokens: [fk_held] lists, per task, those that have
    been acquired and not released. *)
From S2P Require Import Prelude.

Record fs_struct : Type := Mk_fs {
  fs_users : Z;
  fs_in_exec : bool;
}.
#[export] Instance eta_fs : Eta fs_struct := fun x => Mk_fs (fs_users x) (fs_in_exec x).

Record files_struct : Type := Mk_files { files_count : Z }.
#[export] Instance eta_files : Eta files_struct := fun x => Mk_files (files_count x).

Record sighand_struct : Type := Mk_sighand { sh_count : Z }.
#[export] Instance eta_sighand : Eta sighand_struct := fun x => Mk_sighand (sh_count x).

(** [sig_multiprocess] lists the tasks inside copy_process() that collect the
    signals sent to the group. *)
Record signal_struct : Type := Mk_signal {
  sig_nr_threads : Z;
  sig_live : Z;
  sig_sigcnt : Z;
  sig_unkillable : bool;         (* flags & SIGNAL_UNKILLABLE *)
  sig_has_child_subreaper : bool;
  sig_is_child_subreaper : bool;
  sig_oom_score_adj : Z;
  sig_oom_score_adj_min : Z;
  sig_oom_mm : Z;
  sig_curr_target : Z;
  sig_multiprocess : list Z;
  sig_pid_tgid : Z;              (* pids[] *)
  sig_pid_pgid : Z;
  sig_pid_sid : Z;
}.
#[export] Instance eta_signal : Eta signal_struct := fun x =>
  Mk_signal (sig_nr_threads x) (sig_live x) (sig_sigcnt x) (sig_unkillable x)
    (sig_has_child_subreaper x) (sig_is_child_subreaper x) (sig_oom_score_adj x)
    (sig_oom_score_adj_min x) (sig_oom_mm x) (sig_curr_target x) (sig_multiprocess x)
    (sig_pid_tgid x) (sig_pid_pgid x) (sig_pid_sid x).

(** The fields of [task_struct] that fork.c uses and the scheduler does not. *)
Record proc_info : Type := Mk_proc {
  pi_fs : Z;
  pi_files : Z;
  pi_sighand : Z;
  pi_signal : Z;
  pi_tgid : Z;
  pi_group_leader : Z;
  pi_real_parent : Z;
  pi_parent_exec_id : Z;
  pi_self_exec_id : Z;
  pi_exit_signal : Z;
  pi_pdeath_signal : Z;
  pi_clear_child_tid : Z;
  pi_vfork_done : Z;
  pi_thread_pid : Z;
  pi_io_context : Z;
  pi_stack_refcount : Z;
  pi_rcu_users : Z;
  pi_children : list Z;
}.
#[export] Instance eta_proc : Eta proc_info := fun x =>
  Mk_proc (pi_fs x) (pi_files x) (pi_sighand x) (pi_signal x) (pi_tgid x) (pi_group_leader x)
    (pi_real_parent x) (pi_parent_exec_id x) (pi_self_exec_id x) (pi_exit_signal x)
    (pi_pdeath_signal x) (pi_clear_child_tid x) (pi_vfork_done x) (pi_thread_pid x)
    (pi_io_context x) (pi_stack_refcount x) (pi_rcu_users x) (pi_children x).

Definition proc0 : proc_info := Mk_proc 0 0 0 0 0 0 0 0 0 0 0 0 0 0 0 0 0 [].

(** Tokens of the resources a new task acquires. *)
Inductive token : Type :=
| T_stack | T_scs | T_nproc | T_creds | T_delayacct | T_kthread | T_mempolicy | T_perf | T_audit
| T_security | T_semundo | T_namespaces | T_io | T_thread | T_pid | T_pidfd | T_pidfile | T_cgroup
| T_seccomp
(* credentials and namespaces unshare() has made and not yet installed *)
| T_new_cred | T_new_nsproxy.

#[export] Instance token_eq_dec : EqDecision token.
Proof. solve_decision. Defined.

Record fork_state : Type := Mk_fork {
  fk_fs : gmap Z fs_struct;
  fk_files : gmap Z files_struct;
  fk_sighand : gmap Z sighand_struct;
  fk_signal : gmap Z signal_struct;
  fk_nr_threads : Z;
  fk_max_threads : Z;
  fk_total_forks : Z;
  fk_process_counts : Z;
  fk_tasks : list Z;             (* init_task.tasks *)
  fk_held : list (token * Z);
}.
#[export] Instance eta_fork : Eta fork_state := fun x =>
  Mk_fork (fk_fs x) (fk_files x) (fk_sighand x) (fk_signal x) (fk_nr_threads x) (fk_max_threads x)
    (fk_total_forks x) (fk_process_counts x) (fk_tasks x) (fk_held x).

Definition fork0 : fork_state := Mk_fork ∅ ∅ ∅ ∅ 0 0 0 0 [] [].

(** Release one token. *)
Fixpoint remove_token (t : token) (p : Z) (l : list (token * Z)) : list (token * Z) :=
  match l with
  | [] => []
  | (t', p') :: l' =>
      if (bool_decide (t = t') && (p =? p'))%bool then l' else (t', p') :: remove_token t p l'
  end.

Lemma remove_token_head t p l : remove_token t p ((t, p) :: l) = l.
Proof. cbn. by rewrite bool_decide_true, Z.eqb_refl. Qed.
