(* ===== verification/Kernel.v ===== *)
(** The kernel objects the scheduler works on: [task_struct], [rq], task
    groups, and the [machine] that holds them, with the accessors the
    component files share.

    Objects are addressed by integers and live in finite maps, so that two
    pointers to one task alias as they do in the code.  The machine is seen
    from one CPU: [m_this_cpu] executes; other CPUs are visible through their
    run queues.  Lock and unlock operations have no counterpart: one handler
    runs at a time.  Calls into code outside the repository that only touch
    state outside this model (tracing, RCU, perf, lockdep, interrupts) are
    recorded in [m_log] in program order. *)
From stdpp Require Import sorting.
From S2P Require Import Prelude Headers Proc.


(** * Scheduling classes *)

(** The five classes, in the order the linker lays them out, which
    [sched_init] asserts: idle < fair < rt < dl < stop. *)
Inductive sched_class : Type :=
| idle_sched_class
| fair_sched_class
| rt_sched_class
| dl_sched_class
| stop_sched_class.

#[export] Instance sched_class_eq_dec : EqDecision sched_class.
Proof. solve_decision. Defined.

Definition class_rank (c : sched_class) : Z :=
  match c with
  | idle_sched_class => 0
  | fair_sched_class => 1
  | rt_sched_class => 2
  | dl_sched_class => 3
  | stop_sched_class => 4
  end.

(** [for_each_class]: from the highest class down. *)
Definition all_classes : list sched_class :=
  [stop_sched_class; dl_sched_class; rt_sched_class; fair_sched_class; idle_sched_class].

Definition class_eqb (a b : sched_class) : bool := class_rank a =? class_rank b.

Lemma class_eqb_eq a b : class_eqb a b = true <-> a = b.
Proof. destruct a, b; cbv; split; congruence. Qed.

(** * Utilization clamps (sched.h) *)
Inductive uclamp_id : Type := UCLAMP_MIN | UCLAMP_MAX.

#[export] Instance uclamp_id_eq_dec : EqDecision uclamp_id.
Proof. solve_decision. Defined.

Definition is_UCLAMP_MIN (id : uclamp_id) : bool :=
  match id with UCLAMP_MIN => true | UCLAMP_MAX => false end.
Definition is_UCLAMP_MAX (id : uclamp_id) : bool := negb (is_UCLAMP_MIN id).

Record uclamp_se : Type := Mk_uclamp_se {
  uc_value : Z;
  uc_bucket_id : Z;
  uc_active : bool;
  uc_user_defined : bool;
}.
#[export] Instance eta_uclamp_se : Eta uclamp_se := fun u =>
  Mk_uclamp_se (uc_value u) (uc_bucket_id u) (uc_active u) (uc_user_defined u).

Record uclamp_bucket : Type := Mk_uclamp_bucket {
  bk_value : Z;
  bk_tasks : Z;
}.
#[export] Instance eta_uclamp_bucket : Eta uclamp_bucket := fun b =>
  Mk_uclamp_bucket (bk_value b) (bk_tasks b).

Record uclamp_rq : Type := Mk_uclamp_rq {
  ur_value : Z;
  ur_bucket : list uclamp_bucket;
}.
#[export] Instance eta_uclamp_rq : Eta uclamp_rq := fun u =>
  Mk_uclamp_rq (ur_value u) (ur_bucket u).

(** An array indexed by [UCLAMP_MIN] and [UCLAMP_MAX]. *)
Record per_clamp (A : Type) : Type := PerClamp { pc_min : A; pc_max : A }.
Arguments PerClamp {A} _ _.
Arguments pc_min {A} _.
Arguments pc_max {A} _.

Definition pc_get {A} (id : uclamp_id) (c : per_clamp A) : A :=
  match id with UCLAMP_MIN => pc_min c | UCLAMP_MAX => pc_max c end.
Definition pc_set {A} (id : uclamp_id) (v : A) (c : per_clamp A) : per_clamp A :=
  match id with
  | UCLAMP_MIN => PerClamp v (pc_max c)
  | UCLAMP_MAX => PerClamp (pc_min c) v
  end.

Lemma pc_get_set_eq {A} id (v : A) c : pc_get id (pc_set id v c) = v.
Proof. by destruct id. Qed.

Lemma pc_get_set_ne {A} id id' (v : A) c : id <> id' -> pc_get id (pc_set id' v c) = pc_get id c.
Proof. by destruct id, id'. Qed.

(** * Tasks *)

(** The deadline parameters core.c reads ([struct sched_dl_entity]); [dl_pi_se]
    is the task whose parameters are inherited. *)
Record sched_dl_entity : Type := Mk_dl {
  dl_deadline : Z;
  dl_runtime : Z;
  dl_period : Z;
  dl_flags : Z;
  dl_pi_se : Z;
}.
#[export] Instance eta_dl : Eta sched_dl_entity := fun d =>
  Mk_dl (dl_deadline d) (dl_runtime d) (dl_period d) (dl_flags d) (dl_pi_se d).

(** [struct sched_entity]: the fields core.c touches. *)
Record sched_entity : Type := Mk_se {
  se_weight : Z;
  se_inv_weight : Z;
  se_on_rq : Z;
  se_exec_start : Z;
  se_sum_exec_runtime : Z;
  se_prev_sum_exec_runtime : Z;
  se_nr_migrations : Z;
  se_vruntime : Z;
}.
#[export] Instance eta_se : Eta sched_entity := fun s =>
  Mk_se (se_weight s) (se_inv_weight s) (se_on_rq s) (se_exec_start s)
    (se_sum_exec_runtime s) (se_prev_sum_exec_runtime s) (se_nr_migrations s) (se_vruntime s).

(** A [const struct cpumask *]: the address of the task's own [cpus_mask], the
    constant mask of one CPU, or some other mask, by value. *)
Inductive maskp : Type :=
| own_mask
| cpumask_of (cpu : Z)
| mask_at (s : gset Z).

(** [struct task_struct] (Project 2/sched.h), the scheduler's view. *)
Record task_struct : Type := Mk_task {
  ts_state : Z;                  (* __state *)
  ts_flags : Z;
  ts_ti_flags : Z;               (* thread_info.flags *)
  ts_on_cpu : Z;
  ts_on_rq : Z;
  ts_cpu : Z;
  ts_wake_cpu : Z;
  ts_recent_used_cpu : Z;
  ts_prio : Z;
  ts_static_prio : Z;
  ts_normal_prio : Z;
  ts_rt_priority : Z;
  ts_my_fixed_priority : Z;
  ts_se : sched_entity;
  ts_rt_timeout : Z;
  ts_dl : sched_dl_entity;
  ts_class : sched_class;        (* sched_class *)
  ts_policy : Z;
  ts_core_cookie : Z;
  ts_task_group : Z;             (* sched_task_group *)
  ts_uclamp_req : per_clamp uclamp_se;
  ts_uclamp : per_clamp uclamp_se;
  ts_nr_cpus_allowed : Z;
  ts_cpus_mask : gset Z;
  ts_cpus_ptr : maskp;
  ts_user_cpus_ptr : option (gset Z);
  ts_migration_pending : Z;
  ts_migration_disabled : Z;
  ts_sched_reset_on_fork : bool;
  ts_sched_contributes_to_load : bool;
  ts_in_iowait : bool;
  ts_mm : Z;
  ts_active_mm : Z;
  ts_nvcsw : Z;
  ts_nivcsw : Z;
  ts_pi_top_task : Z;
  ts_pi_blocked_on : Z;
  ts_usage : Z;
  ts_pid : Z;
  ts_uid : Z;
  ts_euid : Z;
  ts_migration_flags : Z;
  ts_set_child_tid : Z;
  ts_proc : proc_info;
  ts_sched_remote_wakeup : bool;
  ts_wake_q_next : Z;   (* wake_q.next *)
}.
#[export] Instance eta_task : Eta task_struct := fun t =>
  Mk_task (ts_state t) (ts_flags t) (ts_ti_flags t) (ts_on_cpu t) (ts_on_rq t) (ts_cpu t)
    (ts_wake_cpu t) (ts_recent_used_cpu t) (ts_prio t) (ts_static_prio t) (ts_normal_prio t)
    (ts_rt_priority t) (ts_my_fixed_priority t) (ts_se t) (ts_rt_timeout t) (ts_dl t)
    (ts_class t) (ts_policy t) (ts_core_cookie t) (ts_task_group t) (ts_uclamp_req t)
    (ts_uclamp t) (ts_nr_cpus_allowed t) (ts_cpus_mask t) (ts_cpus_ptr t) (ts_user_cpus_ptr t)
    (ts_migration_pending t) (ts_migration_disabled t) (ts_sched_reset_on_fork t)
    (ts_sched_contributes_to_load t) (ts_in_iowait t) (ts_mm t) (ts_active_mm t) (ts_nvcsw t)
    (ts_nivcsw t) (ts_pi_top_task t) (ts_pi_blocked_on t) (ts_usage t) (ts_pid t) (ts_uid t)
    (ts_euid t) (ts_migration_flags t) (ts_set_child_tid t) (ts_proc t)
    (ts_sched_remote_wakeup t) (ts_wake_q_next t).

(** * Run queues *)

(** Balance callbacks are named by the function they run. *)
Inductive callback : Type :=
| balance_push_cb
| class_cb (c : sched_class) (n : Z)
| core_balance_cb.

Record rq : Type := Mk_rq {
  rq_cpu : Z;
  rq_nr_running : Z;
  rq_h_nr_running : Z;           (* cfs.h_nr_running *)
  rq_curr : Z;
  rq_idle : Z;
  rq_stop : Z;
  rq_prev_mm : Z;
  rq_clock : Z;
  rq_clock_task : Z;
  rq_clock_update_flags : Z;
  rq_prev_irq_time : Z;
  rq_prev_steal_time_rq : Z;
  rq_nr_switches : Z;
  rq_nr_uninterruptible : Z;
  rq_nr_iowait : Z;
  rq_nr_pinned : Z;
  rq_ttwu_pending : Z;
  rq_last_seen_need_resched_ns : Z;
  rq_uclamp : per_clamp uclamp_rq;
  rq_uclamp_flags : Z;
  rq_balance_callback : list callback;
  rq_span : gset Z;              (* rd->span *)
  rq_dl_bw : Z;                  (* rd->dl_bw.bw *)
  rq_queue : list Z;             (* the classes' private queues; core.c never reads it *)
  rq_idle_stamp : Z;
  rq_avg_idle : Z;
  rq_max_idle_balance_cost : Z;
  rq_wake_stamp : Z;
  rq_wake_avg_idle : Z;
  rq_push_busy : bool;
  rq_wake_list : list Z;   (* the wake-ups on the CPU call_single_queue *)
}.
#[export] Instance eta_rq : Eta rq := fun r =>
  Mk_rq (rq_cpu r) (rq_nr_running r) (rq_h_nr_running r) (rq_curr r) (rq_idle r) (rq_stop r)
    (rq_prev_mm r) (rq_clock r) (rq_clock_task r) (rq_clock_update_flags r) (rq_prev_irq_time r)
    (rq_prev_steal_time_rq r) (rq_nr_switches r) (rq_nr_uninterruptible r) (rq_nr_iowait r)
    (rq_nr_pinned r) (rq_ttwu_pending r) (rq_last_seen_need_resched_ns r) (rq_uclamp r)
    (rq_uclamp_flags r) (rq_balance_callback r) (rq_span r) (rq_dl_bw r) (rq_queue r)
    (rq_idle_stamp r) (rq_avg_idle r) (rq_max_idle_balance_cost r) (rq_wake_stamp r)
    (rq_wake_avg_idle r) (rq_push_busy r) (rq_wake_list r).

(** * Task groups: the clamp values and the hierarchy *)
Record task_group : Type := Mk_tg {
  tg_uclamp_req : per_clamp uclamp_se;
  tg_uclamp : per_clamp uclamp_se;
  tg_uclamp_pct : per_clamp Z;
  tg_autogroup : bool;
  tg_rt_runtime : Z;
  tg_parent : Z;
  tg_children : list Z;
  tg_tasks : list Z;             (* the tasks css_task_iter_next() returns *)
  tg_shares : Z;
  tg_idle : Z;
  tg_cfs_rq : list Z;   (* indexed by CPU *)
}.
#[export] Instance eta_tg : Eta task_group := fun g =>
  Mk_tg (tg_uclamp_req g) (tg_uclamp g) (tg_uclamp_pct g) (tg_autogroup g) (tg_rt_runtime g)
    (tg_parent g) (tg_children g) (tg_tasks g) (tg_shares g) (tg_idle g) (tg_cfs_rq g).

(** * Bandwidth control of task groups (kernel/sched/sched.h)

    The [struct cfs_bandwidth] embedded in a task group is addressed by the
    group; the fair class changes both records while tasks run. *)
Record cfs_bandwidth : Type := Mk_bw {
  bw_period : Z;
  bw_quota : Z;
  bw_burst : Z;
  bw_runtime : Z;
  bw_hierarchical_quota : Z;
  bw_nr_periods : Z;
  bw_nr_throttled : Z;
  bw_nr_burst : Z;
  bw_throttled_time : Z;
  bw_burst_time : Z;
}.
#[export] Instance eta_bw : Eta cfs_bandwidth := fun b =>
  Mk_bw (bw_period b) (bw_quota b) (bw_burst b) (bw_runtime b) (bw_hierarchical_quota b)
    (bw_nr_periods b) (bw_nr_throttled b) (bw_nr_burst b) (bw_throttled_time b) (bw_burst_time b).

Record cfs_rq : Type := Mk_cfs_rq {
  cfs_cpu : Z;                   (* the CPU of cfs_rq->rq *)
  cfs_runtime_enabled : Z;
  cfs_runtime_remaining : Z;
  cfs_throttled : Z;
}.
#[export] Instance eta_cfs_rq : Eta cfs_rq := fun c =>
  Mk_cfs_rq (cfs_cpu c) (cfs_runtime_enabled c) (cfs_runtime_remaining c) (cfs_throttled c).

(** * Affinity changes in progress (core.c, [struct set_affinity_pending]) *)
Record set_affinity_pending : Type := Mk_pending {
  ap_refs : Z;
  ap_stop_pending : bool;
  ap_done : bool;                (* the completion has been signalled *)
  ap_arg_task : Z;
  ap_arg_dest_cpu : Z;
  ap_arg_pending : Z;
}.
#[export] Instance eta_pending : Eta set_affinity_pending := fun a =>
  Mk_pending (ap_refs a) (ap_stop_pending a) (ap_done a) (ap_arg_task a) (ap_arg_dest_cpu a)
    (ap_arg_pending a).

(** * Address spaces: the reference counts of [struct mm_struct] *)
Record mm_struct : Type := Mk_mm {
  mm_users : Z;
  mm_count : Z;
}.
#[export] Instance eta_mm : Eta mm_struct := fun x =>
  Mk_mm (mm_users x) (mm_count x).

(** * Cores and hotplug: the fields of [struct rq] for core scheduling and for CPUs
    that come and go.  [cr_core] is the CPU whose run queue holds the state the
    siblings share, [cr_tree] the tasks of the core tree from left to right. *)
Record core_rq : Type := Mk_core_rq {
  cr_core : Z;
  cr_enabled : bool;
  cr_pick : Z;
  cr_sched_seq : Z;
  cr_task_seq : Z;
  cr_pick_seq : Z;
  cr_cookie : Z;
  cr_fi_count : Z;               (* core_forceidle_* *)
  cr_fi_seq : Z;
  cr_fi_occupation : Z;
  cr_fi_start : Z;
  cr_tree : list Z;
  cr_online : bool;
  cr_rd : bool;                  (* rd is set *)
  cr_rd_online : bool;           (* the CPU's bit in rd->online *)
  cr_calc_load_update : Z;
}.
#[export] Instance eta_core_rq : Eta core_rq := fun c =>
  Mk_core_rq (cr_core c) (cr_enabled c) (cr_pick c) (cr_sched_seq c) (cr_task_seq c) (cr_pick_seq c)
    (cr_cookie c) (cr_fi_count c) (cr_fi_seq c) (cr_fi_occupation c) (cr_fi_start c) (cr_tree c)
    (cr_online c) (cr_rd c) (cr_rd_online c) (cr_calc_load_update c).

Record smt_state : Type := Mk_smt {
  sm_rqs : gmap Z core_rq;
  sm_occupation : gmap Z Z;      (* core_occupation of the tasks *)
  sm_core_count : Z;             (* sched_core_count *)
  sm_core_on : bool;             (* static key __sched_core_enabled *)
  sm_core_work : bool;           (* the work of sched_core_put() is pending *)
  sm_smt_present : Z;            (* static key sched_smt_present *)
  sm_frozen : Z;                 (* num_cpus_frozen *)
  sm_numa_masks : gset Z;        (* the CPUs in the NUMA domain masks *)
  sm_calc_load_tasks : Z;
}.
#[export] Instance eta_smt : Eta smt_state := fun s =>
  Mk_smt (sm_rqs s) (sm_occupation s) (sm_core_count s) (sm_core_on s) (sm_core_work s)
    (sm_smt_present s) (sm_frozen s) (sm_numa_masks s) (sm_calc_load_tasks s).

Definition smt0 : smt_state := Mk_smt ∅ ∅ 0 false false 0 0 ∅ 0.

(** * Ticks

    The timers of a CPU, what the tick keeps for it, and the remote tick of a
    CPU in full dynticks mode. *)
Record tick_rq : Type := Mk_tick_rq {
  tk_hrtick_active : bool;       (* hrtick_timer is queued *)
  tk_hrtick_expires : Z;
  tk_hrtick_time : Z;
  tk_ticks_without_resched : Z;
  tk_idle_balance : bool;
  tk_nohz_idle_balance : Z;
  tk_nohz_flags : Z;
  tk_dl_nr_running : Z;          (* dl.dl_nr_running *)
  tk_rt_nr_running : Z;          (* rt.rt_nr_running *)
  tk_rr_nr_running : Z;          (* rt.rr_nr_running *)
  tk_work_cpu : Z;               (* struct tick_work *)
  tk_work_state : Z;
  tk_work_queued : Z;            (* how often the work is on the work queue *)
}.
#[export] Instance eta_tick_rq : Eta tick_rq := fun t =>
  Mk_tick_rq (tk_hrtick_active t) (tk_hrtick_expires t) (tk_hrtick_time t) (tk_ticks_without_resched t)
    (tk_idle_balance t) (tk_nohz_idle_balance t) (tk_nohz_flags t) (tk_dl_nr_running t) (tk_rt_nr_running t)
    (tk_rr_nr_running t) (tk_work_cpu t) (tk_work_state t) (tk_work_queued t).

Record tick_state : Type := Mk_tick {
  ti_cpus : gmap Z tick_rq;
  ti_work_alloc : bool;          (* tick_work_cpu is allocated *)
  ti_warned_once : bool;
  ti_latency_warn_ms : Z;        (* sysctl_resched_latency_warn_ms *)
}.
#[export] Instance eta_tick : Eta tick_state := fun t =>
  Mk_tick (ti_cpus t) (ti_work_alloc t) (ti_warned_once t) (ti_latency_warn_ms t).

Definition tick0 : tick_state := Mk_tick ∅ true false 100.

(** * The machine *)

Inductive event : Type := Ev (name : string) (args : list Z).

Record machine : Type := Mk_machine {
  m_tasks : gmap Z task_struct;
  m_rqs : gmap Z rq;
  m_tgs : gmap Z task_group;
  m_root_task_group : Z;
  m_this_cpu : Z;
  m_current : Z;
  m_preempt_count : Z;
  m_preempt_need_resched : bool;
  m_uclamp_default : per_clamp uclamp_se;
  m_uclamp_util_min : Z;         (* sysctl_sched_uclamp_util_min *)
  m_uclamp_util_max : Z;         (* sysctl_sched_uclamp_util_max *)
  m_uclamp_util_min_rt_default : Z;
  m_uclamp_used : bool;          (* static key sched_uclamp_used *)
  m_log : list event;
  m_mms : gmap Z mm_struct;
  m_init_mm : Z;
  m_cpu_possible : gset Z;
  m_cpu_online : gset Z;
  m_cpu_active : gset Z;
  m_cpu_dying : gset Z;
  m_fork : fork_state;
  m_cfs_bw : gmap Z cfs_bandwidth;
  m_cfs_rqs : gmap Z cfs_rq;
  m_task_groups : list Z;   (* the list task_groups *)
  m_pendings : gmap Z set_affinity_pending;
  m_smt : smt_state;
  m_tick : tick_state;
}.
#[export] Instance eta_machine : Eta machine := fun m =>
  Mk_machine (m_tasks m) (m_rqs m) (m_tgs m) (m_root_task_group m) (m_this_cpu m) (m_current m)
    (m_preempt_count m) (m_preempt_need_resched m) (m_uclamp_default m) (m_uclamp_util_min m)
    (m_uclamp_util_max m) (m_uclamp_util_min_rt_default m) (m_uclamp_used m) (m_log m) (m_mms m)
    (m_init_mm m) (m_cpu_possible m) (m_cpu_online m) (m_cpu_active m) (m_cpu_dying m)
    (m_fork m) (m_cfs_bw m) (m_cfs_rqs m) (m_task_groups m) (m_pendings m) (m_smt m)
    (m_tick m).

#[export] Program Instance task_store : Store machine task_struct :=
  {| store := m_tasks; set_store ts m := m <| m_tasks := ts |> |}.
Next Obligation. done. Qed.
#[export] Program Instance rq_store : Store machine rq :=
  {| store := m_rqs; set_store rs m := m <| m_rqs := rs |> |}.
Next Obligation. done. Qed.
#[export] Program Instance tg_store : Store machine task_group :=
  {| store := m_tgs; set_store gs m := m <| m_tgs := gs |> |}.
Next Obligation. done. Qed.

#[export] Program Instance mm_store : Store machine mm_struct :=
  {| store := m_mms; set_store xs m := m <| m_mms := xs |> |}.
Next Obligation. done. Qed.

#[export] Program Instance fs_store : Store machine fs_struct :=
  {| store m := fk_fs (m_fork m); set_store x m := m <| m_fork := (m_fork m) <| fk_fs := x |> |> |}.
Next Obligation. done. Qed.
#[export] Program Instance files_store : Store machine files_struct :=
  {| store m := fk_files (m_fork m); set_store x m := m <| m_fork := (m_fork m) <| fk_files := x |> |> |}.
Next Obligation. done. Qed.
#[export] Program Instance sighand_store : Store machine sighand_struct :=
  {| store m := fk_sighand (m_fork m); set_store x m := m <| m_fork := (m_fork m) <| fk_sighand := x |> |> |}.
Next Obligation. done. Qed.
#[export] Program Instance signal_store : Store machine signal_struct :=
  {| store m := fk_signal (m_fork m); set_store x m := m <| m_fork := (m_fork m) <| fk_signal := x |> |> |}.
Next Obligation. done. Qed.

#[export] Program Instance bw_store : Store machine cfs_bandwidth :=
  {| store := m_cfs_bw; set_store x m := m <| m_cfs_bw := x |> |}.
Next Obligation. done. Qed.
#[export] Program Instance cfs_rq_store : Store machine cfs_rq :=
  {| store := m_cfs_rqs; set_store x m := m <| m_cfs_rqs := x |> |}.
Next Obligation. done. Qed.
#[export] Program Instance pending_store : Store machine set_affinity_pending :=
  {| store := m_pendings; set_store x m := m <| m_pendings := x |> |}.
Next Obligation. done. Qed.
#[export] Program Instance core_store : Store machine core_rq :=
  {| store m := sm_rqs (m_smt m); set_store x m := m <| m_smt := (m_smt m) <| sm_rqs := x |> |> |}.
Next Obligation. done. Qed.
#[export] Program Instance tick_store : Store machine tick_rq :=
  {| store m := ti_cpus (m_tick m); set_store x m := m <| m_tick := (m_tick m) <| ti_cpus := x |> |> |}.
Next Obligation. done. Qed.

Abbreviation K := (M machine).

(** The CPUs of a mask in the order of [for_each_cpu]. *)
Definition for_each_cpu (s : gset Z) : list Z := merge_sort Z.le (elements s).

Lemma elem_of_for_each_cpu s c : c ∈ for_each_cpu s <-> c ∈ s.
Proof. unfold for_each_cpu. by rewrite merge_sort_Permutation, elem_of_elements. Qed.

(** Calls whose effect is outside the model. *)
Definition emit (name : string) (args : list Z) : K unit :=
  modify (fun m => m <| m_log := m_log m ++ [Ev name args] |>).

Definition setg {E} (f : machine -> E) `{!Updater f} (v : E) : K unit :=
  modify (fun m => m <| f := v |>).

(** Free an object: its address no longer holds one. *)
Definition free_obj {R} `{!Store machine R} (p : Z) : K unit :=
  modify (fun m => set_store (delete p (store m)) m).

Lemma wp_emit n a Q m : wp (emit n a) Q m <-> Q tt (m <| m_log := m_log m ++ [Ev n a] |>).
Proof. done. Qed.

Lemma wp_setg {E} (f : machine -> E) `{!Updater f} v Q m : wp (setg f v) Q m <-> Q tt (m <| f := v |>).
Proof. done. Qed.

Lemma wp_free_obj {R} `{!Store machine R} p Q m :
  wp (free_obj (R := R) p) Q m <-> Q tt (set_store (delete p (store m)) m).
Proof. done. Qed.

(** [kgo] runs a kernel program up to the next undecided test or call. *)
Ltac kstep :=
  lazymatch goal with
  | |- wp (emit _ _) _ _ => apply wp_emit; cbv beta
  | |- wp (setg _ _) _ _ => apply wp_setg; cbv beta
  | |- wp (free_obj _) _ _ => apply wp_free_obj; cbv beta
  | _ => wp_step
  end.
Ltac kgo := repeat kstep.

(** Decide a test on constants. *)
Ltac const_if :=
  match goal with
  | |- if ?c then _ else _ =>
      let v := eval vm_compute in c in
      match v with true => change c with true | false => change c with false end; cbv iota
  end.

(** Calls of [emit] when the log does not matter. *)
Lemma wp_emit_any {A} n a (k : unit -> K A) Q m :
  (forall l, wp (k tt) Q (m <| m_log := l |>)) -> wp (emit n a ≫= k) Q m.
Proof. intros Hk. apply wp_bind, wp_emit, Hk. Qed.

Lemma wp_emit_more {A} n a (k : unit -> K A) Q m l0 :
  (forall l, wp (k tt) Q (m <| m_log := l |>)) -> wp (emit n a ≫= k) Q (m <| m_log := l0 |>).
Proof. intros Hk. apply wp_bind, wp_emit, Hk. Qed.

Ltac skip_emit :=
  lazymatch goal with
  | |- wp (emit _ _ ≫= _) _ (upd m_log (fun _ => ?l) ?m) => apply (wp_emit_more _ _ _ _ m l); intros ?
  | |- wp (emit _ _ ≫= _) _ _ => apply wp_emit_any; intros ?
  end; cbv beta.

(** ** One task in focus

    [focus p t l m] is [m] with task [p] set to [t] and log [l]: a handler that
    works on one task goes through such machines. *)
Definition focus (p : Z) (t : task_struct) (l : list event) (m : machine) : machine :=
  m <| m_tasks := <[p := t]> (m_tasks m) |> <| m_log := l |>.

Lemma focus_id p t m : m_tasks m !! p = Some t -> m = focus p t (m_log m) m.
Proof. intros Ht. unfold focus. rewrite insert_id by done. by destruct m. Qed.

Lemma wp_focus_upd p g t l (Q : unit -> machine -> Prop) m :
  Q tt (focus p (g t) l m) -> wp (upd_obj p g) Q (focus p t l m).
Proof.
  intros HQ. apply wp_upd_obj. exists t. split; [cbn; apply lookup_insert_eq|].
  unfold focus in *. cbn in *. by rewrite insert_insert_eq.
Qed.

Lemma wp_focus_deref p t l (Q : task_struct -> machine -> Prop) m :
  Q t (focus p t l m) -> wp (deref p) Q (focus p t l m).
Proof. intros HQ. apply wp_deref. exists t. split; [cbn; apply lookup_insert_eq | done]. Qed.

Lemma wp_focus_emit n a p t l (Q : unit -> machine -> Prop) m :
  (forall l', Q tt (focus p t l' m)) -> wp (emit n a) Q (focus p t l m).
Proof. intros HQ. apply wp_emit, HQ. Qed.

Lemma wp_focus_other {E} c tc (f : task_struct -> E) p t l (Q : E -> machine -> Prop) m :
  m_tasks m !! c = Some tc -> c <> p -> Q (f tc) (focus p t l m) -> wp (c ⇝ f) Q (focus p t l m).
Proof.
  intros Hc Hn HQ. apply wp_rd. exists tc. split; [cbn; by rewrite lookup_insert_ne | done].
Qed.

(** [fstep] executes one operation on the task in focus. *)
Ltac fstep :=
  lazymatch goal with
  | |- wp (mbind _ _) _ _ => apply wp_bind
  | |- wp (mret _) _ _ => apply wp_ret
  | |- wp (gets _) _ _ => apply wp_gets
  | |- wp (rd ?p _) _ (focus ?p _ _ _) => unfold rd; apply wp_bind, wp_focus_deref, wp_ret
  | |- wp (deref ?p) _ (focus ?p _ _ _) => apply wp_focus_deref
  | |- wp (upd_obj ?p _) _ (focus ?p _ _ _) => apply wp_focus_upd
  | |- wp (wr ?p _ _) _ (focus ?p _ _ _) => apply wp_focus_upd
  | |- wp (emit _ _) _ (focus _ _ _ _) => apply wp_focus_emit; intros ?
  | |- wp (when _ _) _ _ => apply wp_when
  | |- wp (if _ then _ else _) _ _ => apply wp_if
  end; cbv beta.
