(* ===== verification/Extern.v ===== *)
(** The code core.c calls that is outside the repository: the scheduling
    classes (kernel/sched/{fair,rt,deadline,stop_task,idle}.c), clocks,
    credentials, security hooks, rt-mutexes and user-memory access.

    [Extern] has one operation per call; [ExternOK] states what core.c relies
    on: a class operation changes only class-private state ([class_frame]), and
    the idle class always has a task to run.  [Demo] is a small instance, a
    first-come first-served class per CPU, that satisfies it. *)
From S2P Require Import Prelude Headers Kernel.

(** [struct sched_attr] and [struct sched_param] (include/uapi/linux/sched/types.h):
    the fields core.c reads and writes. *)
Record sched_attr : Type := Mk_attr {
  sa_size : Z;
  sa_policy : Z;
  sa_flags : Z;
  sa_nice : Z;
  sa_priority : Z;
  sa_runtime : Z;
  sa_deadline : Z;
  sa_period : Z;
  sa_util_min : Z;
  sa_util_max : Z;
}.
#[export] Instance eta_attr : Eta sched_attr := fun a =>
  Mk_attr (sa_size a) (sa_policy a) (sa_flags a) (sa_nice a) (sa_priority a) (sa_runtime a)
    (sa_deadline a) (sa_period a) (sa_util_min a) (sa_util_max a).

(** [struct sched_attr attr = {}] *)
Definition attr0 : sched_attr := Mk_attr 0 0 0 0 0 0 0 0 0 0.

(** pick_next_task_fair() may ask the caller to start over. *)
Definition RETRY_TASK : Z := -1.

Class Extern := {
  (** struct sched_class; a missing method is an operation that does nothing,
      and [has_*] tells whether the pointer is set *)
  cl_enqueue_task : sched_class -> Z -> Z -> Z -> K unit;
  cl_dequeue_task : sched_class -> Z -> Z -> Z -> K unit;
  cl_check_preempt_curr : sched_class -> Z -> Z -> Z -> K unit;
  cl_pick_next_task : sched_class -> Z -> K Z;
  cl_put_prev_task : sched_class -> Z -> Z -> K unit;
  cl_set_next_task : sched_class -> Z -> Z -> bool -> K unit;
  cl_balance : sched_class -> Z -> Z -> K bool;
  cl_switched_from : sched_class -> Z -> Z -> K unit;
  cl_switched_to : sched_class -> Z -> Z -> K unit;
  cl_prio_changed : sched_class -> Z -> Z -> Z -> K unit;
  cl_task_dead : sched_class -> Z -> K unit;
  cl_task_fork : sched_class -> Z -> K unit;
  has_task_fork : sched_class -> bool;
  (** what set_cpus_allowed() of a class does besides the common part *)
  cl_set_cpus_allowed_priv : sched_class -> Z -> gset Z -> Z -> K unit;
  has_switched_from : sched_class -> bool;
  has_task_dead : sched_class -> bool;
  uclamp_enabled : sched_class -> bool;
  pick_next_task_fair : Z -> Z -> K Z;
  reweight_task : Z -> Z -> K unit;
  run_callback : callback -> Z -> K unit;
  (** time *)
  sched_clock_cpu : Z -> K Z;
  irq_time_read : Z -> K Z;
  paravirt_steal_clock : Z -> K Z;
  paravirt_steal_rq_enabled : bool;
  (** credentials, limits, security *)
  capable_sys_nice : K bool;
  rlimit_nice : Z -> K Z;
  rlimit_rtprio : Z -> K Z;
  security_task_setnice : Z -> Z -> K (cres unit);
  security_task_setscheduler : Z -> K (cres unit);
  security_task_getscheduler : Z -> K (cres unit);
  (** rt-mutexes, deadline admission, signals, pids *)
  rt_mutex_get_top_task : Z -> K Z;
  rt_mutex_adjust_pi : Z -> K unit;
  dl_entity_preempt : sched_dl_entity -> sched_dl_entity -> bool;
  checkparam_dl : sched_attr -> bool;
  dl_param_changed : Z -> sched_attr -> K bool;
  setparam_dl : Z -> sched_attr -> K unit;
  getparam_dl : Z -> sched_attr -> K sched_attr;
  sched_dl_overflow : Z -> Z -> sched_attr -> K bool;
  rt_bandwidth_enabled : K bool;
  dl_bandwidth_enabled : K bool;
  in_interrupt : K bool;
  signal_pending_state : Z -> Z -> K bool;
  find_task_by_vpid : Z -> K Z;
  (** kernel/sched/sched.h: the fields __set_task_cpu() writes *)
  task_set_cpu : Z -> task_struct -> task_struct;
  (** include/linux/blkdev.h: the task has queued I/O *)
  blk_needs_flush_plug : task_struct -> bool;
  oops_in_progress : bool;
  panic_on_warn : bool;
  (** scheduler features (features.h), thread_info flags *)
  sched_feat : string -> bool;
  TIF_NEED_RESCHED_bit : Z;
  TIF_POLLING_NRFLAG_bit : Z;
}.

(** * What a class operation may change

    [task_quiet] and [rq_quiet] erase the fields a class owns: the scheduling
    entities, the thread flags and the queues.  A balancing operation may also
    move tasks between run queues, through core.c's own enqueue and dequeue;
    [task_attrs] and [rq_attrs] erase what that changes.  What is left is
    written by core.c only. *)
Definition se0 : sched_entity := Mk_se 0 0 0 0 0 0 0 0.
Definition dl0 : sched_dl_entity := Mk_dl 0 0 0 0 0.

Definition task_quiet (t : task_struct) : task_struct :=
  t <| ts_se := se0 |> <| ts_dl := dl0 |> <| ts_rt_timeout := 0 |> <| ts_ti_flags := 0 |>.

(** Enqueueing and dequeueing also change the clamp accounting. *)
Definition no_clamps (t : task_struct) : task_struct :=
  t <| ts_uclamp := PerClamp (Mk_uclamp_se 0 0 false false) (Mk_uclamp_se 0 0 false false) |>.
Definition task_queue (t : task_struct) : task_struct := no_clamps (task_quiet t).

(** Balancing also moves tasks between CPUs. *)
Definition no_place (t : task_struct) : task_struct :=
  t <| ts_on_rq := 0 |> <| ts_cpu := 0 |> <| ts_wake_cpu := 0 |> <| ts_recent_used_cpu := 0 |>.
Definition task_attrs (t : task_struct) : task_struct := no_place (task_queue t).

Definition rq_attrs (r : rq) :=
  (rq_cpu r, rq_curr r, rq_idle r, rq_stop r, rq_prev_mm r, rq_nr_switches r, rq_wake_list r, rq_ttwu_pending r).
Definition rq_quiet (r : rq) := (rq_attrs r, rq_uclamp r, rq_uclamp_flags r, rq_nr_uninterruptible r, rq_nr_iowait r).

Definition globals (m : machine) :=
  (m_this_cpu m, m_current m, m_root_task_group m, m_preempt_count m, m_tgs m, m_mms m, m_init_mm m,
   m_uclamp_default m, m_uclamp_used m, m_fork m, (m_cpu_online m, m_cpu_active m, m_cpu_dying m), m_pendings m,
   m_uclamp_util_min_rt_default m).

(** [frame pt pr pg]: the two machines have the same objects, and agree on the
    part [pt] of every task, [pr] of every run queue and [pg] of the rest. *)
Section Frame.
Context {A B C : Type} (pt : task_struct -> A) (pr : rq -> B) (pg : machine -> C).

Definition frame (m m' : machine) : Prop :=
  pt <$> m_tasks m = pt <$> m_tasks m' /\
  pr <$> m_rqs m = pr <$> m_rqs m' /\
  pg m = pg m'.

#[export] Instance frame_equiv : Equivalence frame.
Proof.
  split.
  - by intros m.
  - intros m m' (?&?&?). by repeat split.
  - intros m1 m2 m3 (?&?&?) (?&?&?). repeat split; congruence.
Qed.

Lemma fmap_lookup_agree {E F} (f : E -> F) (x y : gmap Z E) p v :
  f <$> x = f <$> y -> x !! p = Some v -> exists v', y !! p = Some v' /\ f v = f v'.
Proof.
  intros Hxy Hp. apply (f_equal (fun g => g !! p)) in Hxy.
  rewrite !lookup_fmap, Hp in Hxy. simpl in Hxy.
  destruct (y !! p) as [v'|] eqn:E1; simpl in Hxy; [|congruence].
  exists v'. split; [done | congruence].
Qed.

Lemma frame_task m m' p t :
  frame m m' -> m_tasks m !! p = Some t -> exists t', m_tasks m' !! p = Some t' /\ pt t = pt t'.
Proof. intros (Ht & _ & _). by apply fmap_lookup_agree. Qed.

Lemma frame_rq m m' c r :
  frame m m' -> m_rqs m !! c = Some r -> exists r', m_rqs m' !! c = Some r' /\ pr r = pr r'.
Proof. intros (_ & Hr & _). by apply fmap_lookup_agree. Qed.

(** An update of an object outside the framed part. *)
Lemma frame_set_task m p t t' :
  m_tasks m !! p = Some t -> pt t' = pt t ->
  (forall x, pg (m <| m_tasks := x |>) = pg m) ->
  frame m (m <| m_tasks := <[p := t']> (m_tasks m) |>).
Proof.
  intros Hp Ha Hg. repeat split; [|done]. cbn. rewrite fmap_insert, Ha.
  rewrite insert_id; [done|]. by rewrite lookup_fmap, Hp.
Qed.

Lemma frame_set_rq m c r r' :
  m_rqs m !! c = Some r -> pr r' = pr r ->
  (forall x, pg (m <| m_rqs := x |>) = pg m) ->
  frame m (m <| m_rqs := <[c := r']> (m_rqs m) |>).
Proof.
  intros Hp Ha Hg. repeat split; [|done]. cbn. rewrite fmap_insert, Ha.
  rewrite insert_id; [done|]. by rewrite lookup_fmap, Hp.
Qed.

Lemma frame_emit n a :
  (forall m x, pg (m <| m_log := x |>) = pg m) -> preserves frame (emit n a).
Proof. intros Hg. apply preserves_modify. intros m. repeat split. by rewrite Hg. Qed.

Lemma frame_setg {E} (f : machine -> E) `{!Updater f} v :
  (forall m, frame m (m <| f := v |>)) -> preserves frame (setg f v).
Proof. intros Hf. by apply preserves_modify. Qed.

Lemma frame_upd_rq r g :
  (forall x, pr (g x) = pr x) -> (forall m x, pg (m <| m_rqs := x |>) = pg m) ->
  preserves frame (upd_obj r g).
Proof. intros Hg Hpg. apply preserves_upd_obj; [typeclasses eauto|]. intros. by apply frame_set_rq with r0. Qed.

Lemma frame_upd_task p g :
  (forall x, pt (g x) = pt x) -> (forall m x, pg (m <| m_tasks := x |>) = pg m) ->
  preserves frame (upd_obj p g).
Proof. intros Hg Hpg. apply preserves_upd_obj; [typeclasses eauto|]. intros. by apply frame_set_task with r. Qed.
End Frame.

(** A frame implies every coarser one. *)
Lemma frame_weaken {A B C A' B' C'} (pt : task_struct -> A) (pr : rq -> B) (pg : machine -> C)
  (pt' : task_struct -> A') (pr' : rq -> B') (pg' : machine -> C') m m' :
  (forall t t', pt t = pt t' -> pt' t = pt' t') ->
  (forall r r', pr r = pr r' -> pr' r = pr' r') ->
  (pg m = pg m' -> pg' m = pg' m') ->
  frame pt pr pg m m' -> frame pt' pr' pg' m m'.
Proof.
  intros Ht Hr Hg (Et & Er & Eg). split; [|split; [|auto]]; apply map_eq; intros i.
  - rewrite !lookup_fmap. apply (f_equal (fun g => g !! i)) in Et. rewrite !lookup_fmap in Et.
    destruct (m_tasks m !! i), (m_tasks m' !! i); simpl in *; try congruence. f_equal. apply Ht. congruence.
  - rewrite !lookup_fmap. apply (f_equal (fun g => g !! i)) in Er. rewrite !lookup_fmap in Er.
    destruct (m_rqs m !! i), (m_rqs m' !! i); simpl in *; try congruence. f_equal. apply Hr. congruence.
Qed.

Abbreviation quiet_frame := (frame task_quiet rq_quiet globals).
Abbreviation class_frame := (frame task_attrs rq_attrs globals).

Lemma quiet_class_frame m m' : quiet_frame m m' -> class_frame m m'.
Proof.
  apply frame_weaken; [| |done].
  - intros t t' E. exact (f_equal (fun x => no_place (no_clamps x)) E).
  - intros r r' E. unfold rq_quiet in E. congruence.
Qed.

Lemma quiet_preserves {A} (c : K A) : preserves quiet_frame c -> preserves class_frame c.
Proof. intros Hc m a m' E. apply quiet_class_frame. by eapply Hc. Qed.

(** [framed] closes the frame goals of updates that do not touch the framed
    part, once [keep] has followed the program text. *)
Ltac framed :=
  keep;
  first
    [ by apply frame_emit
    | by apply frame_upd_rq
    | by apply frame_upd_task
    | apply frame_setg; by intros ?
    | idtac ].

Lemma quiet_frame_emit n a : preserves quiet_frame (emit n a).
Proof. by apply frame_emit. Qed.
#[export] Hint Resolve quiet_frame_emit : preserve.
#[export] Hint Extern 2 (preserves (frame task_attrs _ _) _) =>
  apply quiet_preserves; solve [eauto 2 with preserve] : preserve.

(** * What core.c relies on: frames *)
Class ExternOK (X : Extern) : Prop := {
  enqueue_frame c r p f : preserves quiet_frame (cl_enqueue_task c r p f);
  dequeue_frame c r p f : preserves quiet_frame (cl_dequeue_task c r p f);
  check_preempt_frame c r p f : preserves quiet_frame (cl_check_preempt_curr c r p f);
  pick_frame c r : preserves quiet_frame (cl_pick_next_task c r);
  put_prev_frame c r p : preserves quiet_frame (cl_put_prev_task c r p);
  set_next_frame c r p b : preserves quiet_frame (cl_set_next_task c r p b);
  switched_from_frame c r p : preserves quiet_frame (cl_switched_from c r p);
  switched_to_frame c r p : preserves quiet_frame (cl_switched_to c r p);
  prio_changed_frame c r p o : preserves quiet_frame (cl_prio_changed c r p o);
  task_dead_frame c p : preserves quiet_frame (cl_task_dead c p);
  task_fork_frame c p : preserves quiet_frame (cl_task_fork c p);
  task_set_cpu_val cpu t : task_set_cpu cpu t = t <| ts_cpu := cpu |> <| ts_wake_cpu := cpu |>;
  set_cpus_allowed_frame c p k f : preserves quiet_frame (cl_set_cpus_allowed_priv c p k f);
  reweight_frame p prio : preserves quiet_frame (reweight_task p prio);
  clock_frame c : preserves quiet_frame (sched_clock_cpu c);
  irq_time_frame c : preserves quiet_frame (irq_time_read c);
  steal_frame c : preserves quiet_frame (paravirt_steal_clock c);
  signal_frame s p : preserves quiet_frame (signal_pending_state s p);
  top_task_frame p : preserves quiet_frame (rt_mutex_get_top_task p);
  balance_frame c r p : preserves class_frame (cl_balance c r p);
  pick_fair_frame r p : preserves class_frame (pick_next_task_fair r p);
  callback_frame b r : preserves class_frame (run_callback b r);
}.

#[export] Hint Resolve enqueue_frame dequeue_frame check_preempt_frame pick_frame put_prev_frame
  set_next_frame balance_frame switched_from_frame switched_to_frame prio_changed_frame
  task_dead_frame task_fork_frame set_cpus_allowed_frame pick_fair_frame reweight_frame callback_frame clock_frame irq_time_frame
  steal_frame signal_frame top_task_frame : preserve.

(** * A first-come first-served instance *)
Module Demo.
Section Ops.
Context {H : Headers}.

Definition enqueue (_ : sched_class) (r p _ : Z) : K unit :=
  q ← r ⇝ rq_queue; set! r ⇝ rq_queue := q ++ [p] ;;
  n ← r ⇝ rq_nr_running; set! r ⇝ rq_nr_running := n + 1.

Definition dequeue (_ : sched_class) (r p _ : Z) : K unit :=
  q ← r ⇝ rq_queue; set! r ⇝ rq_queue := List.filter (fun x => negb (x =? p)) q ;;
  n ← r ⇝ rq_nr_running; set! r ⇝ rq_nr_running := n - 1.

(** The first queued task of the class on this CPU; the idle class runs
    [rq->idle]. *)
Definition pick (c : sched_class) (r : Z) : K Z :=
  q ← r ⇝ rq_queue;
  idle ← r ⇝ rq_idle;
  m ← get_state;
  let of_class x := match m_tasks m !! x with
                    | Some t => (class_eqb (ts_class t) c && (ts_cpu t =? r))%bool
                    | None => false
                    end in
  mret (match List.find of_class q with
        | Some p => p
        | None => if class_eqb c idle_sched_class then idle else NULL
        end).

(** A task that is put back goes behind its peers. *)
Definition put_prev (_ : sched_class) (r p : Z) : K unit :=
  q ← r ⇝ rq_queue;
  when (existsb (Z.eqb p) q)
    (set! r ⇝ rq_queue := List.filter (fun x => negb (x =? p)) q ++ [p]).

Definition by_pid (pid : Z) : K Z :=
  m ← get_state; mret (match m_tasks m !! pid with Some _ => pid | None => NULL end).

(** The donor of a boost, if it is still there. *)
Definition top_task (p : Z) : K Z :=
  q ← p ⇝ ts_pi_top_task;
  m ← get_state;
  mret (match m_tasks m !! q with Some _ => q | None => NULL end).

Definition reweight (p prio : Z) : K unit :=
  upd! p ⇝ ts_se := fun s => s <| se_weight := prio |>.

Definition extern : Extern := {|
  cl_enqueue_task := enqueue; cl_dequeue_task := dequeue;
  cl_check_preempt_curr _ _ _ _ := mret tt;
  cl_pick_next_task := pick; cl_put_prev_task := put_prev;
  cl_set_next_task _ _ _ _ := mret tt; cl_balance _ _ _ := mret false;
  cl_switched_from _ _ _ := mret tt; cl_switched_to _ _ _ := mret tt;
  cl_prio_changed _ _ _ _ := mret tt; cl_task_dead _ _ := mret tt;
  cl_task_fork _ _ := mret tt; has_task_fork _ := true;
  task_set_cpu cpu t := t <| ts_cpu := cpu |> <| ts_wake_cpu := cpu |>;
  cl_set_cpus_allowed_priv _ _ _ _ := mret tt;
  has_switched_from _ := true; has_task_dead c := class_eqb c dl_sched_class;
  uclamp_enabled c := orb (class_eqb c fair_sched_class) (class_eqb c rt_sched_class);
  pick_next_task_fair r p := put_prev fair_sched_class r p ;; pick fair_sched_class r;
  reweight_task := reweight; run_callback _ _ := mret tt;
  sched_clock_cpu _ := mret 1000; irq_time_read _ := mret 0;
  paravirt_steal_clock _ := mret 0; paravirt_steal_rq_enabled := false;
  capable_sys_nice := mret false; rlimit_nice _ := mret 0; rlimit_rtprio _ := mret 0;
  security_task_setnice _ _ := mret (Ok tt); security_task_setscheduler _ := mret (Ok tt);
  security_task_getscheduler _ := mret (Ok tt);
  rt_mutex_get_top_task := top_task; rt_mutex_adjust_pi _ := mret tt;
  dl_entity_preempt a b := dl_deadline a <? dl_deadline b;
  checkparam_dl _ := true; dl_param_changed _ _ := mret true; setparam_dl _ _ := mret tt;
  blk_needs_flush_plug _ := false;
  getparam_dl _ a := mret a; sched_dl_overflow _ _ _ := mret false;
  rt_bandwidth_enabled := mret true; dl_bandwidth_enabled := mret true;
  in_interrupt := mret false; signal_pending_state _ _ := mret false;
  find_task_by_vpid := by_pid; oops_in_progress := false; panic_on_warn := false;
  sched_feat _ := false; TIF_NEED_RESCHED_bit := 3; TIF_POLLING_NRFLAG_bit := 21;
|}.

Lemma demo_put_prev_frame c r p : preserves quiet_frame (put_prev c r p).
Proof. unfold put_prev. framed. Qed.

Lemma demo_pick_frame c r : preserves quiet_frame (pick c r).
Proof. unfold pick. keep. Qed.

#[local] Hint Resolve demo_put_prev_frame demo_pick_frame : preserve.

#[export] Instance extern_ok : ExternOK extern.
Proof. split; intros; simpl; unfold enqueue, dequeue, reweight, top_task; framed. Qed.
End Ops.
End Demo.

#[export] Existing Instance Demo.extern_ok.
