(* ===== verification/RqClock.v ===== *)
(** Run-queue clocks and rescheduling requests: update_rq_clock(),
    resched_curr() and the thread flags they use (core.c), with
    CONFIG_IRQ_TIME_ACCOUNTING, CONFIG_PARAVIRT_TIME_ACCOUNTING and
    CONFIG_SCHED_DEBUG. *)
From S2P Require Import Prelude Headers Kernel Extern.

Section RqClock.
Context {H : Headers} {X : Extern}.

(** ** Thread flags (sched.h and core.c) *)
Definition _TIF_NEED_RESCHED : Z := Z.shiftl 1 TIF_NEED_RESCHED_bit.
Definition _TIF_POLLING_NRFLAG : Z := Z.shiftl 1 TIF_POLLING_NRFLAG_bit.

Definition test_tsk_need_resched (t : task_struct) : bool :=
  has_flag (ts_ti_flags t) _TIF_NEED_RESCHED.

Definition set_tsk_need_resched (p : Z) : K unit :=
  upd! p ⇝ ts_ti_flags := fun f => Z.lor f _TIF_NEED_RESCHED.

Definition clear_tsk_need_resched (p : Z) : K unit :=
  upd! p ⇝ ts_ti_flags := fun f => Z.ldiff f _TIF_NEED_RESCHED.

(** The compare-and-swap loop of [fetch_or] succeeds at once when no other CPU
    writes the word. *)
Definition set_nr_and_not_polling (p : Z) : K bool :=
  old ← p ⇝ ts_ti_flags;
  set! p ⇝ ts_ti_flags := Z.lor old _TIF_NEED_RESCHED ;;
  mret (negb (has_flag old _TIF_POLLING_NRFLAG)).

Definition set_nr_if_polling (p : Z) : K bool :=
  val ← p ⇝ ts_ti_flags;
  if negb (has_flag val _TIF_POLLING_NRFLAG) then mret false
  else if has_flag val _TIF_NEED_RESCHED then mret true
  else
    set! p ⇝ ts_ti_flags := Z.lor val _TIF_NEED_RESCHED ;;
    mret true.

Definition resched_curr (r : Z) : K unit :=
  curr ← r ⇝ rq_curr;
  t ← deref (R := task_struct) curr;
  if test_tsk_need_resched t then mret tt
  else
    cpu ← r ⇝ rq_cpu;
    this ← gets m_this_cpu;
    if cpu =? this then
      set_tsk_need_resched curr ;;
      setg m_preempt_need_resched true
    else
      b ← set_nr_and_not_polling curr;
      if (b : bool) then emit "smp_send_reschedule" [cpu]
      else emit "trace_sched_wake_idle_without_ipi" [cpu].

(** ** The clock *)
Definition update_rq_clock_task (r : Z) (delta : Z) : K unit :=
  cpu ← r ⇝ rq_cpu;
  irq ← irq_time_read cpu;
  prev ← r ⇝ rq_prev_irq_time;
  let irq_delta := s64 (irq - prev) in
  let irq_delta := if delta <? irq_delta then delta else irq_delta in
  set! r ⇝ rq_prev_irq_time := u64 (prev + irq_delta) ;;
  let delta := delta - irq_delta in
  sd ← (if paravirt_steal_rq_enabled then
          st ← paravirt_steal_clock cpu;
          prev ← r ⇝ rq_prev_steal_time_rq;
          let steal := s64 (st - prev) in
          let steal := if delta <? steal then delta else steal in
          set! r ⇝ rq_prev_steal_time_rq := u64 (prev + steal) ;;
          mret (steal, delta - steal)
        else mret (0, delta));
  let '(steal, delta) := sd in
  upd! r ⇝ rq_clock_task := (fun c => u64 (c + delta)) ;;
  when (truthy (irq_delta + steal) && sched_feat "NONTASK_CAPACITY")
    (emit "update_irq_load_avg" [r; irq_delta + steal]) ;;
  emit "update_rq_clock_pelt" [r; delta].

Definition update_rq_clock (r : Z) : K unit :=
  flags ← r ⇝ rq_clock_update_flags;
  if has_flag flags RQCF_ACT_SKIP then mret tt
  else
    when (sched_feat "WARN_DOUBLE_CLOCK" && has_flag flags RQCF_UPDATED)
      (emit "SCHED_WARN_ON" []) ;;
    set! r ⇝ rq_clock_update_flags := Z.lor flags RQCF_UPDATED ;;
    cpu ← r ⇝ rq_cpu;
    now ← sched_clock_cpu cpu;
    clock ← r ⇝ rq_clock;
    let delta := s64 (now - clock) in
    if delta <? 0 then mret tt
    else
      set! r ⇝ rq_clock := u64 (clock + delta) ;;
      update_rq_clock_task r delta.

(** ** Frames *)
Context {XOK : ExternOK X}.

Lemma frame_clear_resched p : preserves quiet_frame (clear_tsk_need_resched p).
Proof. unfold clear_tsk_need_resched. framed. Qed.

Lemma frame_resched_curr r : preserves quiet_frame (resched_curr r).
Proof. unfold resched_curr, set_nr_and_not_polling, set_tsk_need_resched. framed. Qed.

Lemma frame_update_rq_clock_task r d : preserves quiet_frame (update_rq_clock_task r d).
Proof. unfold update_rq_clock_task. framed. Qed.

Lemma frame_update_rq_clock r : preserves quiet_frame (update_rq_clock r).
Proof. unfold update_rq_clock. framed. apply frame_update_rq_clock_task. Qed.
End RqClock.

#[export] Hint Resolve frame_clear_resched frame_resched_curr frame_update_rq_clock : preserve.

(** * Properties *)
Section Properties.
Context {H : Headers} {X : Extern}.

(** The time stamps a run-queue clock update reads on CPU [c]. *)
Definition clocks_read (c now irq steal : Z) : Prop :=
  (forall m, sched_clock_cpu c m = Ret now m) /\
  (forall m, irq_time_read c m = Ret irq m) /\
  (forall m, paravirt_steal_clock c m = Ret steal m).

Lemma wp_det {A} (c : K A) a Q m : (forall m, c m = Ret a m) -> Q a m -> wp c Q m.
Proof. intros Hc HQ. unfold wp. by rewrite Hc. Qed.

(** The stamps fit their fields and have not run backwards since the last
    update; [delta] more nanoseconds do not wrap the task clock. *)
Definition stamps_ok (q : rq) (delta irq steal : Z) : Prop :=
  0 <= rq_prev_irq_time q <= irq /\ irq < 2 ^ 63 /\
  0 <= rq_prev_steal_time_rq q <= steal /\ steal < 2 ^ 63 /\
  0 <= rq_clock_task q /\ 0 <= delta < 2 ^ 63 /\ rq_clock_task q + delta < 2 ^ 64.

(** Every nanosecond of [delta] is charged once: to interrupts, to the
    hypervisor or to the tasks. *)
Definition delta_charged (q q' : rq) (delta : Z) : Prop :=
  rq_clock_task q <= rq_clock_task q' /\
  rq_prev_irq_time q <= rq_prev_irq_time q' /\
  rq_prev_steal_time_rq q <= rq_prev_steal_time_rq q' /\
  (rq_clock_task q' - rq_clock_task q) + (rq_prev_irq_time q' - rq_prev_irq_time q)
    + (rq_prev_steal_time_rq q' - rq_prev_steal_time_rq q) = delta.

Lemma wp_update_rq_clock_task r q delta now irq steal m :
  m_rqs m !! r = Some q -> clocks_read (rq_cpu q) now irq steal -> stamps_ok q delta irq steal ->
  wp (update_rq_clock_task r delta)
     (fun _ m' => exists q', m_rqs m' !! r = Some q' /\ rq_clock q' = rq_clock q /\
  delta_charged q q' delta) m.
Proof.
  intros Hr (_ & Hirq & Hst) Hs. unfold stamps_ok in Hs.
  unfold update_rq_clock_task. wp_go. eapply wp_det; [done|]. cbv beta. wp_go.
  rewrite (s64_small (irq - _)) by (unfold in_s64; lia).
  case_match; [|].
  - wp_go. eapply wp_det; [done|]. cbv beta. wp_go. cbn.
    rewrite (s64_small (steal - _)) by (unfold in_s64; lia).
    case_match; wp_go; cbn; (eexists; split; [by rewrite lookup_insert_eq|]); cbn;
      (split; [done|]); unfold delta_charged; cbn;
      rewrite !u64_small by (unfold in_u64; repeat case_match; lia);
      repeat case_match; lia.
  - wp_go. case_match; wp_go; cbn; (eexists; split; [by rewrite lookup_insert_eq|]); cbn;
      (split; [done|]); unfold delta_charged; cbn;
      rewrite !u64_small by (unfold in_u64; repeat case_match; lia);
      repeat case_match; lia.
Qed.

(** The run-queue clock takes the later of its value and the CPU clock, so it
    never runs backwards, and the time that passed is conserved: it is split
    exactly between tasks, interrupts and steal time. *)
Theorem update_rq_clock_conserves_time r q now irq steal m :
  m_rqs m !! r = Some q ->
  has_flag (rq_clock_update_flags q) RQCF_ACT_SKIP = false ->
  clocks_read (rq_cpu q) now irq steal ->
  0 <= rq_clock q < 2 ^ 63 -> 0 <= now < 2 ^ 63 ->
  stamps_ok q (Z.max 0 (now - rq_clock q)) irq steal ->
  wp (update_rq_clock r)
     (fun _ m' => exists q', m_rqs m' !! r = Some q' /\
  rq_clock q' = Z.max (rq_clock q) now /\
  delta_charged q q' (rq_clock q' - rq_clock q)) m.
Proof.
  intros Hr Hskip Hck Hc Hn Hs. unfold update_rq_clock. wp_go. rewrite Hskip. wp_go.
  assert (forall m1, m_rqs m1 !! r = Some q ->
    wp (set! r ⇝ rq_clock_update_flags := Z.lor (rq_clock_update_flags q) RQCF_UPDATED ;;
        cpu ← r ⇝ rq_cpu; now ← sched_clock_cpu cpu; clock ← r ⇝ rq_clock;
        let delta := s64 (now - clock) in
        if delta <? 0 then mret tt
        else set! r ⇝ rq_clock := u64 (clock + delta) ;; update_rq_clock_task r delta)
     (fun _ m' => exists q', m_rqs m' !! r = Some q' /\
  rq_clock q' = Z.max (rq_clock q) now /\
  delta_charged q q' (rq_clock q' - rq_clock q)) m1) as Hmain.
  { intros m1 Hr1. wp_go. eapply wp_det; [apply Hck|]. cbv beta. wp_go. cbn.
    rewrite s64_small by (unfold in_s64; lia).
    case_match eqn:E; wp_go.
    - cbn. eexists; split; [by rewrite lookup_insert_eq|]. cbn.
      split; [lia|]. unfold delta_charged; cbn; lia.
    - eapply wp_mono; [eapply wp_update_rq_clock_task|].
      + cbn. by rewrite lookup_insert_eq.
      + cbn. exact Hck.
      + unfold stamps_ok in *; cbn. lia.
      + intros _ m' (q' & ? & Hclk & Hd). exists q'. cbn in *.
        rewrite u64_small in Hclk by (unfold in_u64; lia).
        split; [done|]. split; [lia|].
        replace (rq_clock q' - rq_clock q) with (now - rq_clock q) by lia. exact Hd. }
  case_match; [apply wp_modify|]; by apply Hmain.
Qed.
End Properties.
