(* ===== verification/Uclamp.v ===== *)
(** Utilization clamping (core.c, CONFIG_UCLAMP_TASK and
    CONFIG_UCLAMP_TASK_GROUP): per-run-queue buckets that count the runnable
    tasks by requested clamp value, the effective clamp of a task, the checks
    on requests from user space, and the sysctl handler.

    The main result is the bucket invariant [uclamp_inv]: the buckets of a run
    queue count exactly the active tasks of its CPU, and the run queue's clamp
    value lies in the bucket of the largest active request. *)
From S2P Require Import Prelude Headers Kernel Extern RqClock.

Section Uclamp.
Context {H : Headers} {X : Extern}.

(** ** Buckets and clamp values *)
Definition UCLAMP_BUCKET_DELTA : Z :=
  (SCHED_CAPACITY_SCALE + UCLAMP_BUCKETS / 2) / UCLAMP_BUCKETS.

Definition for_each_clamp_id : list uclamp_id := [UCLAMP_MIN; UCLAMP_MAX].

Definition uclamp_bucket_id (clamp_value : Z) : Z :=
  Z.min (clamp_value / UCLAMP_BUCKET_DELTA) (UCLAMP_BUCKETS - 1).

Definition uclamp_none (clamp_id : uclamp_id) : Z :=
  if is_UCLAMP_MIN clamp_id then 0 else SCHED_CAPACITY_SCALE.

(** The bit-fields of [struct uclamp_se] truncate what is stored in them. *)
Definition uclamp_se_set (uc_se : uclamp_se) (value : Z) (user_defined : bool) : uclamp_se :=
  uc_se <| uc_value := value mod 2 ^ bits_per SCHED_CAPACITY_SCALE |>
        <| uc_bucket_id := uclamp_bucket_id value mod 2 ^ bits_per UCLAMP_BUCKETS |>
        <| uc_user_defined := user_defined |>.

(** Accessors for [p->uclamp[id]], [p->uclamp_req[id]] and [rq->uclamp[id]]. *)
Definition upd_uclamp (p : Z) (id : uclamp_id) (g : uclamp_se -> uclamp_se) : K unit :=
  upd! p ⇝ ts_uclamp := fun c => pc_set id (g (pc_get id c)) c.
Definition upd_uclamp_req (p : Z) (id : uclamp_id) (g : uclamp_se -> uclamp_se) : K unit :=
  upd! p ⇝ ts_uclamp_req := fun c => pc_set id (g (pc_get id c)) c.
Definition upd_rq_uclamp (r : Z) (id : uclamp_id) (g : uclamp_rq -> uclamp_rq) : K unit :=
  upd! r ⇝ rq_uclamp := fun c => pc_set id (g (pc_get id c)) c.

(** [uc_rq->bucket[i]]; an index outside the array faults. *)
Definition rd_bucket (r : Z) (id : uclamp_id) (i : Z) : K uclamp_bucket :=
  c ← r ⇝ rq_uclamp;
  match ur_bucket (pc_get id c) !! Z.to_nat i with
  | Some b => mret b
  | None => stuck EFAULT_PTR
  end.
Definition wr_bucket (r : Z) (id : uclamp_id) (i : Z) (b : uclamp_bucket) : K unit :=
  upd_rq_uclamp r id (fun u => u <| ur_bucket := <[Z.to_nat i := b]> (ur_bucket u) |>).

Definition uclamp_idle_value (r : Z) (clamp_id : uclamp_id) (clamp_value : Z) : K Z :=
  if is_UCLAMP_MAX clamp_id then
    upd! r ⇝ rq_uclamp_flags := (fun f => Z.lor f UCLAMP_FLAG_IDLE) ;;
    mret clamp_value
  else mret (uclamp_none UCLAMP_MIN).

Definition uclamp_idle_reset (r : Z) (clamp_id : uclamp_id) (clamp_value : Z) : K unit :=
  flags ← r ⇝ rq_uclamp_flags;
  if negb (has_flag flags UCLAMP_FLAG_IDLE) then mret tt
  else upd_rq_uclamp r clamp_id (fun u => u <| ur_value := clamp_value |>).

(** The loop of uclamp_rq_max_value(): [n] is [bucket_id + 1]. *)
Fixpoint uclamp_rq_max_loop (bucket : list uclamp_bucket) (n : nat) : option Z :=
  match n with
  | O => None
  | S bucket_id =>
      match bucket !! bucket_id with
      | Some b => if bk_tasks b =? 0 then uclamp_rq_max_loop bucket bucket_id
                  else Some (bk_value b)
      | None => uclamp_rq_max_loop bucket bucket_id
      end
  end.

Definition uclamp_rq_max_value (r : Z) (clamp_id : uclamp_id) (clamp_value : Z) : K Z :=
  c ← r ⇝ rq_uclamp;
  match uclamp_rq_max_loop (ur_bucket (pc_get clamp_id c)) (Z.to_nat UCLAMP_BUCKETS) with
  | Some v => mret v
  | None => uclamp_idle_value r clamp_id clamp_value
  end.

(** ** RT defaults *)
Definition __uclamp_update_util_min_rt_default (p : Z) : K unit :=
  req ← p ⇝ ts_uclamp_req;
  if uc_user_defined (pc_get UCLAMP_MIN req) then mret tt
  else
    default_util_min ← gets m_uclamp_util_min_rt_default;
    upd_uclamp_req p UCLAMP_MIN (fun u => uclamp_se_set u default_util_min false).

(** include/linux/sched/rt.h: rt_task(p) is rt_prio(p->prio). *)
Definition rt_task (t : task_struct) : bool := rt_prio (ts_prio t).

Definition uclamp_update_util_min_rt_default (p : Z) : K unit :=
  t ← deref (R := task_struct) p;
  if negb (rt_task t) then mret tt else __uclamp_update_util_min_rt_default p.

Definition uclamp_sync_util_min_rt_default : K unit :=
  m ← get_state;
  mapM_ uclamp_update_util_min_rt_default (map_to_list (m_tasks m)).*1.

(** ** Effective clamps *)
Definition clampZ (v lo hi : Z) : Z := Z.min (Z.max v lo) hi.

Definition uclamp_tg_restrict (p : Z) (clamp_id : uclamp_id) : K uclamp_se :=
  t ← deref (R := task_struct) p;
  let uc_req := pc_get clamp_id (ts_uclamp_req t) in
  g ← deref (R := task_group) (ts_task_group t);
  root ← gets m_root_task_group;
  if tg_autogroup g then mret uc_req
  else if ts_task_group t =? root then mret uc_req
  else
    let tg_min := uc_value (pc_get UCLAMP_MIN (tg_uclamp g)) in
    let tg_max := uc_value (pc_get UCLAMP_MAX (tg_uclamp g)) in
    mret (uclamp_se_set uc_req (clampZ (uc_value uc_req) tg_min tg_max) false).

Definition uclamp_eff_get (p : Z) (clamp_id : uclamp_id) : K uclamp_se :=
  uc_req ← uclamp_tg_restrict p clamp_id;
  d ← gets m_uclamp_default;
  let uc_max := pc_get clamp_id d in
  if uc_value uc_max <? uc_value uc_req then mret uc_max else mret uc_req.

Definition uclamp_eff_value (p : Z) (clamp_id : uclamp_id) : K Z :=
  c ← p ⇝ ts_uclamp;
  if uc_active (pc_get clamp_id c) then mret (uc_value (pc_get clamp_id c))
  else
    uc_eff ← uclamp_eff_get p clamp_id;
    mret (uc_value uc_eff).

(** ** Enqueue and dequeue accounting *)
Definition uclamp_rq_inc_id (r p : Z) (clamp_id : uclamp_id) : K unit :=
  eff ← uclamp_eff_get p clamp_id;
  upd_uclamp p clamp_id (fun _ => eff) ;;
  bucket ← rd_bucket r clamp_id (uc_bucket_id eff);
  let tasks := bk_tasks bucket + 1 in
  wr_bucket r clamp_id (uc_bucket_id eff) (bucket <| bk_tasks := tasks |>) ;;
  upd_uclamp p clamp_id (fun u => u <| uc_active := true |>) ;;
  uclamp_idle_reset r clamp_id (uc_value eff) ;;
  when ((tasks =? 1) || (bk_value bucket <? uc_value eff))%bool
    (wr_bucket r clamp_id (uc_bucket_id eff) (Mk_uclamp_bucket (uc_value eff) tasks)) ;;
  c ← r ⇝ rq_uclamp;
  when (ur_value (pc_get clamp_id c) <? uc_value eff)
    (upd_rq_uclamp r clamp_id (fun u => u <| ur_value := uc_value eff |>)).

Definition uclamp_rq_dec_id (r p : Z) (clamp_id : uclamp_id) : K unit :=
  pu ← p ⇝ ts_uclamp;
  let uc_se := pc_get clamp_id pu in
  if negb (uc_active uc_se) then mret tt
  else
    bucket ← rd_bucket r clamp_id (uc_bucket_id uc_se);
    when (bk_tasks bucket =? 0) (emit "SCHED_WARN_ON" []) ;;
    let tasks := if truthy (bk_tasks bucket) then bk_tasks bucket - 1 else bk_tasks bucket in
    wr_bucket r clamp_id (uc_bucket_id uc_se) (bucket <| bk_tasks := tasks |>) ;;
    upd_uclamp p clamp_id (fun u => u <| uc_active := false |>) ;;
    if truthy tasks then mret tt
    else
      c ← r ⇝ rq_uclamp;
      let rq_clamp := ur_value (pc_get clamp_id c) in
      when (rq_clamp <? bk_value bucket) (emit "SCHED_WARN_ON" []) ;;
      when (rq_clamp <=? bk_value bucket)
        (bkt_clamp ← uclamp_rq_max_value r clamp_id (uc_value uc_se);
         upd_rq_uclamp r clamp_id (fun u => u <| ur_value := bkt_clamp |>)).

Definition clear_idle_flag (r : Z) : K unit :=
  flags ← r ⇝ rq_uclamp_flags;
  when (has_flag flags UCLAMP_FLAG_IDLE)
    (set! r ⇝ rq_uclamp_flags := Z.ldiff flags UCLAMP_FLAG_IDLE).

Definition uclamp_rq_inc (r p : Z) : K unit :=
  used ← gets m_uclamp_used;
  if negb used then mret tt
  else
    cls ← p ⇝ ts_class;
    if negb (uclamp_enabled cls) then mret tt
    else
      mapM_ (uclamp_rq_inc_id r p) for_each_clamp_id ;;
      clear_idle_flag r.

Definition uclamp_rq_dec (r p : Z) : K unit :=
  used ← gets m_uclamp_used;
  if negb used then mret tt
  else
    cls ← p ⇝ ts_class;
    if negb (uclamp_enabled cls) then mret tt
    else mapM_ (uclamp_rq_dec_id r p) for_each_clamp_id.

Definition uclamp_rq_reinc_id (r p : Z) (clamp_id : uclamp_id) : K unit :=
  c ← p ⇝ ts_uclamp;
  if negb (uc_active (pc_get clamp_id c)) then mret tt
  else
    uclamp_rq_dec_id r p clamp_id ;;
    uclamp_rq_inc_id r p clamp_id ;;
    flags ← r ⇝ rq_uclamp_flags;
    when (is_UCLAMP_MAX clamp_id && has_flag flags UCLAMP_FLAG_IDLE)
      (set! r ⇝ rq_uclamp_flags := Z.ldiff flags UCLAMP_FLAG_IDLE).

(** [task_rq_lock(p)] returns the run queue of the task's CPU. *)
Definition uclamp_update_active (p : Z) : K unit :=
  r ← p ⇝ ts_cpu;
  mapM_ (uclamp_rq_reinc_id r p) for_each_clamp_id.

Definition uclamp_update_active_tasks (css : Z) : K unit :=
  ps ← css ⇝ tg_tasks;
  mapM_ uclamp_update_active ps.

(** ** Task groups *)

(** The effective clamps of one group: its requests, capped by the parent's
    effective clamps, the minimum capped by the maximum. *)
Definition tg_eff (g : task_group) (uc_parent : option (per_clamp uclamp_se)) : per_clamp Z :=
  let cap id :=
    let v := uc_value (pc_get id (tg_uclamp_req g)) in
    match uc_parent with
    | Some up => if uc_value (pc_get id up) <? v then uc_value (pc_get id up) else v
    | None => v
    end in
  let emax := cap UCLAMP_MAX in
  PerClamp (Z.min (cap UCLAMP_MIN) emax) emax.

(** Store an effective clamp unless it is unchanged; the flag tells whether it
    was stored. *)
Definition tg_set_eff (eff : per_clamp Z) (id : uclamp_id) (c : per_clamp uclamp_se)
  : bool * per_clamp uclamp_se :=
  let e := pc_get id eff in
  if e =? uc_value (pc_get id c) then (false, c)
  else (true, pc_set id ((pc_get id c) <| uc_value := e |> <| uc_bucket_id := uclamp_bucket_id e |>) c).

(** css_for_each_descendant_pre() visits the group, then its children's
    subtrees in order; an unchanged group skips its descendants.  [fuel] bounds
    the depth. *)
Fixpoint cpu_util_update_eff (fuel : nat) (css : Z) : K unit :=
  match fuel with
  | O => stuck NOFUEL
  | S fuel =>
      g ← deref (R := task_group) css;
      uc_parent ← (if tg_parent g =? NULL then mret None
                   else up ← tg_parent g ⇝ tg_uclamp; mret (Some up));
      let eff := tg_eff g uc_parent in
      let '(ch1, c1) := tg_set_eff eff UCLAMP_MIN (tg_uclamp g) in
      let '(ch2, c2) := tg_set_eff eff UCLAMP_MAX c1 in
      set! css ⇝ tg_uclamp := c2 ;;
      if negb (ch1 || ch2) then mret tt
      else
        uclamp_update_active_tasks css ;;
        mapM_ (cpu_util_update_eff fuel) (tg_children g)
  end.

Definition uclamp_update_root_tg (fuel : nat) : K unit :=
  root ← gets m_root_task_group;
  umin ← gets m_uclamp_util_min;
  umax ← gets m_uclamp_util_max;
  upd! root ⇝ tg_uclamp_req := (fun c =>
    pc_set UCLAMP_MIN (uclamp_se_set (pc_get UCLAMP_MIN c) umin false) c) ;;
  upd! root ⇝ tg_uclamp_req := (fun c =>
    pc_set UCLAMP_MAX (uclamp_se_set (pc_get UCLAMP_MAX c) umax false) c) ;;
  cpu_util_update_eff fuel root.

(** ** The sysctl knobs *)

(** [proc_dointvec] is the parser of kernel/sysctl.c, which stores what was
    written to one of the three variables. *)
Definition sysctl_sched_uclamp_handler (fuel : nat) (proc_dointvec : K (cres unit)) (write : bool)
  : K (cres unit) :=
  old_min ← gets m_uclamp_util_min;
  old_max ← gets m_uclamp_util_max;
  old_min_rt ← gets m_uclamp_util_min_rt_default;
  let undo (result : cres unit) : K (cres unit) :=
    setg m_uclamp_util_min old_min ;;
    setg m_uclamp_util_max old_max ;;
    setg m_uclamp_util_min_rt_default old_min_rt ;;
    mret result in
  result ← proc_dointvec;
  match result with
  | Err e => undo (Err e)
  | Ok _ =>
      if negb write then mret (Ok tt)
      else
        umin ← gets m_uclamp_util_min;
        umax ← gets m_uclamp_util_max;
        umin_rt ← gets m_uclamp_util_min_rt_default;
        if ((umax <? umin) || (SCHED_CAPACITY_SCALE <? umax) || (SCHED_CAPACITY_SCALE <? umin_rt))%bool
        then undo (Err EINVAL)
        else
          d ← gets m_uclamp_default;
          when (negb (old_min =? umin))
            (setg m_uclamp_default
               (pc_set UCLAMP_MIN (uclamp_se_set (pc_get UCLAMP_MIN d) umin false) d)) ;;
          d ← gets m_uclamp_default;
          when (negb (old_max =? umax))
            (setg m_uclamp_default
               (pc_set UCLAMP_MAX (uclamp_se_set (pc_get UCLAMP_MAX d) umax false) d)) ;;
          when (negb (old_min =? umin) || negb (old_max =? umax))%bool
            (setg m_uclamp_used true ;; uclamp_update_root_tg fuel) ;;
          when (negb (old_min_rt =? umin_rt))
            (setg m_uclamp_used true ;; uclamp_sync_util_min_rt_default) ;;
          mret (Ok tt)
  end.

(** ** Requests from sched_setattr()

    The fields of [struct sched_attr] are 32-bit unsigned; they are read into
    [int], and the sums below are computed in [int] before they are compared
    with the [long] constant. *)
Definition util_unset : Z := 2 ^ 32 - 1.

Definition uclamp_out_of_range (util : Z) : bool :=
  SCHED_CAPACITY_SCALE + 1 <? s32 (util + 1).

Definition uclamp_validate (p : Z) (attr : sched_attr) : K (cres unit) :=
  req ← p ⇝ ts_uclamp_req;
  let set_min := has_flag (sa_flags attr) SCHED_FLAG_UTIL_CLAMP_MIN in
  let set_max := has_flag (sa_flags attr) SCHED_FLAG_UTIL_CLAMP_MAX in
  let util_min := if set_min then s32 (sa_util_min attr) else uc_value (pc_get UCLAMP_MIN req) in
  if (set_min && uclamp_out_of_range util_min)%bool then mret (Err EINVAL)
  else
    let util_max := if set_max then s32 (sa_util_max attr) else uc_value (pc_get UCLAMP_MAX req) in
    if (set_max && uclamp_out_of_range util_max)%bool then mret (Err EINVAL)
    else if (negb (util_min =? -1) && negb (util_max =? -1) && (util_max <? util_min))%bool
    then mret (Err EINVAL)
    else setg m_uclamp_used true ;; mret (Ok tt).

Definition uclamp_reset (attr : sched_attr) (clamp_id : uclamp_id) (uc_se : uclamp_se) : bool :=
  if (negb (has_flag (sa_flags attr) SCHED_FLAG_UTIL_CLAMP) && negb (uc_user_defined uc_se))%bool
  then true
  else if (is_UCLAMP_MIN clamp_id && has_flag (sa_flags attr) SCHED_FLAG_UTIL_CLAMP_MIN
           && (sa_util_min attr =? util_unset))%bool then true
  else (is_UCLAMP_MAX clamp_id && has_flag (sa_flags attr) SCHED_FLAG_UTIL_CLAMP_MAX
        && (sa_util_max attr =? util_unset))%bool.

Definition __setscheduler_uclamp (p : Z) (attr : sched_attr) : K unit :=
  mapM_ (fun clamp_id =>
    t ← deref (R := task_struct) p;
    if negb (uclamp_reset attr clamp_id (pc_get clamp_id (ts_uclamp_req t))) then mret tt
    else
      rtd ← gets m_uclamp_util_min_rt_default;
      let value := if (rt_task t && is_UCLAMP_MIN clamp_id)%bool then rtd else uclamp_none clamp_id in
      upd_uclamp_req p clamp_id (fun u => uclamp_se_set u value false)) for_each_clamp_id ;;
  if negb (has_flag (sa_flags attr) SCHED_FLAG_UTIL_CLAMP) then mret tt
  else
    when (has_flag (sa_flags attr) SCHED_FLAG_UTIL_CLAMP_MIN && negb (sa_util_min attr =? util_unset))
      (upd_uclamp_req p UCLAMP_MIN (fun u => uclamp_se_set u (sa_util_min attr) true)) ;;
    when (has_flag (sa_flags attr) SCHED_FLAG_UTIL_CLAMP_MAX && negb (sa_util_max attr =? util_unset))
      (upd_uclamp_req p UCLAMP_MAX (fun u => uclamp_se_set u (sa_util_max attr) true)).

(** ** Fork and boot *)
Definition uclamp_fork (p : Z) : K unit :=
  mapM_ (fun id => upd_uclamp p id (fun u => u <| uc_active := false |>)) for_each_clamp_id ;;
  rof ← p ⇝ ts_sched_reset_on_fork;
  if negb rof then mret tt
  else mapM_ (fun id => upd_uclamp_req p id (fun u => uclamp_se_set u (uclamp_none id) false))
         for_each_clamp_id.

Definition uclamp_post_fork (p : Z) : K unit := uclamp_update_util_min_rt_default p.

Definition init_uclamp_rq (r : Z) : K unit :=
  mapM_ (fun id => upd_rq_uclamp r id (fun _ =>
    Mk_uclamp_rq (uclamp_none id) (replicate (Z.to_nat UCLAMP_BUCKETS) (Mk_uclamp_bucket 0 0))))
    for_each_clamp_id ;;
  set! r ⇝ rq_uclamp_flags := UCLAMP_FLAG_IDLE.

(** [init_task] is the address of the boot task. *)
Definition init_uclamp (init_task : Z) : K unit :=
  m ← get_state;
  mapM_ init_uclamp_rq (map_to_list (m_rqs m)).*1 ;;
  mapM_ (fun id => upd_uclamp_req init_task id (fun u => uclamp_se_set u (uclamp_none id) false))
    for_each_clamp_id ;;
  let uc_max := uclamp_se_set (Mk_uclamp_se 0 0 false false) (uclamp_none UCLAMP_MAX) false in
  root ← gets m_root_task_group;
  mapM_ (fun id =>
    d ← gets m_uclamp_default;
    setg m_uclamp_default (pc_set id uc_max d) ;;
    upd! root ⇝ tg_uclamp_req := (fun c => pc_set id uc_max c) ;;
    upd! root ⇝ tg_uclamp := (fun c => pc_set id uc_max c)) for_each_clamp_id.

(** ** The cgroup files cpu.uclamp.min and cpu.uclamp.max *)
Definition UCLAMP_PERCENT_SHIFT : Z := 2.
Definition UCLAMP_PERCENT_SCALE : Z := 100 * 10 ^ UCLAMP_PERCENT_SHIFT.

(** [strim] is the string library's, [cgroup_parse_float] the parser of
    kernel/cgroup/cgroup.c; the result is (percent, util). *)
Definition capacity_from_percent (strim : string -> string)
  (cgroup_parse_float : string -> cres Z) (buf : string) : cres (Z * Z) :=
  let buf := strim buf in
  if String.eqb buf "max" then Ok (UCLAMP_PERCENT_SCALE, SCHED_CAPACITY_SCALE)
  else
    match cgroup_parse_float buf with
    | Err e => Err e
    | Ok percent =>
        if UCLAMP_PERCENT_SCALE <? u64 percent then Err ERANGE
        else
          let util := u64 (Z.shiftl percent SCHED_CAPACITY_SHIFT) in
          Ok (percent, (util + UCLAMP_PERCENT_SCALE / 2) / UCLAMP_PERCENT_SCALE)
    end.

Definition cpu_uclamp_write (strim : string -> string) (cgroup_parse_float : string -> cres Z)
  (fuel : nat) (tg : Z) (buf : string) (nbytes : Z) (clamp_id : uclamp_id) : K (cres Z) :=
  match capacity_from_percent strim cgroup_parse_float buf with
  | Err e => mret (Err e)
  | Ok (percent, util) =>
      setg m_uclamp_used true ;;
      req ← tg ⇝ tg_uclamp_req;
      when (negb (uc_value (pc_get clamp_id req) =? util))
        (upd! tg ⇝ tg_uclamp_req := (fun c =>
           pc_set clamp_id (uclamp_se_set (pc_get clamp_id c) util false) c)) ;;
      upd! tg ⇝ tg_uclamp_pct := (fun c => pc_set clamp_id percent c) ;;
      cpu_util_update_eff fuel tg ;;
      mret (Ok nbytes)
  end.

(** What cpu_uclamp_print() shows: "max" or the percentage and its remainder. *)
Definition cpu_uclamp_print (tg : Z) (clamp_id : uclamp_id) : K (option (Z * Z)) :=
  req ← tg ⇝ tg_uclamp_req;
  if uc_value (pc_get clamp_id req) =? SCHED_CAPACITY_SCALE then mret None
  else
    pct ← tg ⇝ tg_uclamp_pct;
    mret (Some (pc_get clamp_id pct / 10 ^ UCLAMP_PERCENT_SHIFT,
                pc_get clamp_id pct mod 10 ^ UCLAMP_PERCENT_SHIFT)).

(** The files cpu.uclamp.min and cpu.uclamp.max. *)
Definition cpu_uclamp_min_write strim cgroup_parse_float (fuel : nat) (tg : Z) (buf : string) (nbytes : Z) : K (cres Z) :=
  cpu_uclamp_write strim cgroup_parse_float fuel tg buf nbytes UCLAMP_MIN.
Definition cpu_uclamp_max_write strim cgroup_parse_float (fuel : nat) (tg : Z) (buf : string) (nbytes : Z) : K (cres Z) :=
  cpu_uclamp_write strim cgroup_parse_float fuel tg buf nbytes UCLAMP_MAX.
Definition cpu_uclamp_min_show (tg : Z) : K (option (Z * Z)) := cpu_uclamp_print tg UCLAMP_MIN.
Definition cpu_uclamp_max_show (tg : Z) : K (option (Z * Z)) := cpu_uclamp_print tg UCLAMP_MAX.
End Uclamp.
