(* ===== verification/UclampProofs.v ===== *)
(** Proofs about utilization clamping: the arithmetic of the buckets, the
    bucket invariant of a run queue and its preservation by enqueue and
    dequeue, the effective clamp, and the request checks. *)
From S2P Require Import Prelude Headers Kernel Extern RqClock Uclamp.

(** * Bucket arithmetic *)
Section Buckets.
Context {H : Headers} {HOK : HeadersOK H}.

Lemma capacity_scale : SCHED_CAPACITY_SCALE = 1024.
Proof. reflexivity. Qed.

Lemma bucket_delta_bounds : 1 <= UCLAMP_BUCKET_DELTA.
Proof.
  unfold UCLAMP_BUCKET_DELTA. rewrite capacity_scale. pose proof uclamp_buckets_range.
  apply Z.div_le_lower_bound; [lia|]. pose proof (Z.div_pos UCLAMP_BUCKETS 2). lia.
Qed.

Lemma bucket_id_range v : 0 <= v -> 0 <= uclamp_bucket_id v < UCLAMP_BUCKETS.
Proof.
  intros Hv. unfold uclamp_bucket_id. pose proof uclamp_buckets_range. pose proof bucket_delta_bounds.
  pose proof (Z.div_pos v UCLAMP_BUCKET_DELTA). lia.
Qed.

Lemma bucket_id_mono v w : v <= w -> uclamp_bucket_id v <= uclamp_bucket_id w.
Proof.
  intros. unfold uclamp_bucket_id. pose proof bucket_delta_bounds.
  pose proof (Z.div_le_mono v w UCLAMP_BUCKET_DELTA). lia.
Qed.

Lemma bucket_id_lt v w : uclamp_bucket_id v < uclamp_bucket_id w -> v < w.
Proof.
  intros Hlt. destruct (Z.lt_ge_cases v w) as [|Hge]; [done|].
  apply bucket_id_mono in Hge. lia.
Qed.

(** A clamp whose value is a capacity and whose bucket is the value's. *)
Definition wf_se (u : uclamp_se) : Prop :=
  0 <= uc_value u <= SCHED_CAPACITY_SCALE /\ uc_bucket_id u = uclamp_bucket_id (uc_value u).

Lemma bits_value : 2 ^ bits_per SCHED_CAPACITY_SCALE = 2048.
Proof. rewrite bits_per_val; [reflexivity | rewrite capacity_scale; lia]. Qed.

Lemma bits_bucket : UCLAMP_BUCKETS < 2 ^ bits_per UCLAMP_BUCKETS.
Proof.
  pose proof uclamp_buckets_range. rewrite bits_per_val by lia.
  rewrite Z.add_1_r. apply Z.log2_spec. lia.
Qed.

Lemma wf_se_set u v b : 0 <= v <= SCHED_CAPACITY_SCALE -> wf_se (uclamp_se_set u v b).
Proof.
  rewrite capacity_scale. intros Hv. unfold wf_se, uclamp_se_set; cbn [uc_value uc_bucket_id upd].
  pose proof (bucket_id_range v). pose proof bits_bucket.
  rewrite bits_value, capacity_scale, (Z.mod_small v), Z.mod_small by lia. lia.
Qed.

Lemma wf_bucket_range u : wf_se u -> 0 <= uc_bucket_id u < UCLAMP_BUCKETS.
Proof. intros [Hv ->]. apply bucket_id_range. lia. Qed.
End Buckets.

(** * One clamp index of one run queue *)
Section OneClamp.
Context {H : Headers} {HOK : HeadersOK H}.

(** Number of clamps of [L] in bucket [i]. *)
Definition in_bucket (i : nat) (u : uclamp_se) : bool := uc_bucket_id u =? Z.of_nat i.
Definition count_bucket (L : list uclamp_se) (i : nat) : Z :=
  Z.of_nat (length (List.filter (in_bucket i) L)).

Definition bucket_ok (L : list uclamp_se) (i : nat) (b : uclamp_bucket) : Prop :=
  bk_tasks b = count_bucket L i /\
  (0 < bk_tasks b -> uclamp_bucket_id (bk_value b) = Z.of_nat i) /\
  (forall u, u ∈ L -> uc_bucket_id u = Z.of_nat i -> uc_value u <= bk_value b).

(** The buckets count the active clamps [L], and the aggregated value is that
    of the highest non-empty bucket. *)
Definition clamp_inv (L : list uclamp_se) (u : uclamp_rq) : Prop :=
  length (ur_bucket u) = Z.to_nat UCLAMP_BUCKETS /\
  Forall wf_se L /\
  (forall i b, ur_bucket u !! i = Some b -> bucket_ok L i b) /\
  (L <> [] -> exists i b, ur_bucket u !! i = Some b /\ 0 < bk_tasks b /\ ur_value u = bk_value b) /\
  (forall i b, ur_bucket u !! i = Some b -> 0 < bk_tasks b -> bk_value b <= ur_value u).

Lemma count_bucket_perm L L' i : L ≡ₚ L' -> count_bucket L i = count_bucket L' i.
Proof.
  intros HP. unfold count_bucket. induction HP; cbn; repeat case_match; cbn; try lia; congruence.
Qed.

Lemma count_bucket_cons u L i :
  count_bucket (u :: L) i = b2z (in_bucket i u) + count_bucket L i.
Proof. unfold count_bucket; cbn. destruct (in_bucket i u); cbn; lia. Qed.

Lemma count_bucket_pos L i : 0 <= count_bucket L i.
Proof. unfold count_bucket. lia. Qed.

Lemma count_bucket_zero L i u :
  count_bucket L i = 0 -> u ∈ L -> uc_bucket_id u = Z.of_nat i -> False.
Proof.
  intros H0 Hu Hi. unfold count_bucket in H0.
  assert (In u (List.filter (in_bucket i) L)) as Hin.
  { apply filter_In. split; [by apply list_elem_of_In|]. unfold in_bucket. lia. }
  destruct (List.filter _ L); [done | cbn in H0; lia].
Qed.

#[export] Instance bucket_ok_proper :
  Proper ((≡ₚ) ==> (=) ==> (=) ==> iff) bucket_ok.
Proof.
  intros L L' HL i ? <- b ? <-. unfold bucket_ok. rewrite (count_bucket_perm _ _ i HL).
  setoid_rewrite HL. done.
Qed.

#[export] Instance clamp_inv_proper : Proper ((≡ₚ) ==> (=) ==> iff) clamp_inv.
Proof.
  assert (forall L L' u, L ≡ₚ L' -> clamp_inv L u -> clamp_inv L' u) as Himp.
  { intros L L' u HL (Hlen & Hwf & Hbk & Hex & Hmax). split; [done|].
    split; [by rewrite <- HL|]. split; [by intros; rewrite <- HL; auto|].
    split; [|done]. intros Hne. apply Hex. intros ->. by apply Permutation_nil_l in HL. }
  intros L L' HL u ? <-. split; by apply Himp.
Qed.

(** The effect of an enqueue on one clamp index. *)
Definition bucket_inc (b : uclamp_bucket) (v : Z) : uclamp_bucket :=
  let n := bk_tasks b + 1 in
  Mk_uclamp_bucket (if ((n =? 1) || (bk_value b <? v))%bool then v else bk_value b) n.

Definition clamp_inc (idle : bool) (u : uclamp_rq) (b : uclamp_bucket) (se : uclamp_se) : uclamp_rq :=
  Mk_uclamp_rq (Z.max (if idle then uc_value se else ur_value u) (uc_value se))
    (<[Z.to_nat (uc_bucket_id se) := bucket_inc b (uc_value se)]> (ur_bucket u)).

Lemma bucket_exists u se :
  length (ur_bucket u) = Z.to_nat UCLAMP_BUCKETS -> wf_se se ->
  exists b, ur_bucket u !! Z.to_nat (uc_bucket_id se) = Some b.
Proof.
  intros Hlen Hwf. apply wf_bucket_range in Hwf. apply lookup_lt_is_Some_2. lia.
Qed.

(** The bucket that gains a task, and the others. *)
Lemma bucket_inc_ok L i b se :
  bucket_ok L i b -> uc_bucket_id se = Z.of_nat i -> wf_se se ->
  bucket_ok (se :: L) i (bucket_inc b (uc_value se)).
Proof.
  intros (Hcnt & Hval & Hle) Hi [Hv Hid]. pose proof (count_bucket_pos L i).
  unfold bucket_ok, bucket_inc; cbn. rewrite count_bucket_cons. unfold in_bucket at 1.
  replace (uc_bucket_id se =? Z.of_nat i) with true by lia. cbn [b2z].
  split; [lia|]. split.
  - intros _. case_match; [lia|]. apply Hval. lia.
  - intros w Hw Hwi. apply elem_of_cons in Hw as [->|Hw]; [case_match; lia|].
    specialize (Hle w Hw Hwi). case_match; [|lia].
    destruct (Z.eq_dec (bk_tasks b) 0) as [E|]; [|lia].
    exfalso. eapply (count_bucket_zero L i w); [lia|done|done].
Qed.

Lemma bucket_other_ok L i b se :
  uc_bucket_id se <> Z.of_nat i -> bucket_ok (se :: L) i b <-> bucket_ok L i b.
Proof.
  intros Hi. unfold bucket_ok. rewrite count_bucket_cons. unfold in_bucket at 1.
  replace (uc_bucket_id se =? Z.of_nat i) with false by lia. cbn [b2z].
  setoid_rewrite elem_of_cons. naive_solver.
Qed.

Lemma bucket_ok_nil i b : bucket_ok [] i b -> bk_tasks b = 0.
Proof. intros (-> & _). done. Qed.

(** When no clamp is active the aggregate is either about to be reset or a
    lower bound of every request. *)
Lemma clamp_inc_inv idle L u b se :
  clamp_inv L u -> wf_se se ->
  ur_bucket u !! Z.to_nat (uc_bucket_id se) = Some b ->
  (idle = true -> L = []) -> (L = [] -> idle = false -> ur_value u = 0) ->
  clamp_inv (se :: L) (clamp_inc idle u b se).
Proof.
  intros (Hlen & Hwf & Hbk & Hex & Hmax) Hse Hb Hidle Hempty.
  pose proof (wf_bucket_range se Hse) as Hrange. pose proof Hse as [Hv Hid].
  set (i := Z.to_nat (uc_bucket_id se)) in *.
  assert (Hi : uc_bucket_id se = Z.of_nat i) by (subst i; lia).
  assert (Hlt : (i < length (ur_bucket u))%nat) by (by eapply lookup_lt_Some).
  pose proof (Hbk i b Hb) as Hbi. pose proof (bucket_inc_ok L i b se Hbi Hi Hse) as Hbi'.
  pose proof (proj1 Hbi) as Hcnt. pose proof (count_bucket_pos L i).
  assert (Hnil : idle = true -> forall j bj, ur_bucket u !! j = Some bj -> bk_tasks bj = 0).
  { intros Hd j bj Hj. apply (bucket_ok_nil j). rewrite <- (Hidle Hd). by apply Hbk. }
  assert (Hbound : forall j bj, ur_bucket u !! j = Some bj -> 0 < bk_tasks bj ->
    bk_value bj <= (if idle then uc_value se else ur_value u)).
  { intros j bj Hj Hp. destruct idle; [|by eapply Hmax]. rewrite (Hnil eq_refl j bj Hj) in Hp. lia. }
  split; [by cbn; rewrite length_insert|]. split; [by constructor|]. split; [|split].
  - intros j b'. cbn. rewrite list_lookup_insert. case_decide as Hj.
    + destruct Hj as [<- _]. intros [= <-]. exact Hbi'.
    + intros Hj'. apply bucket_other_ok; [|by apply Hbk].
      intros Heq. apply Hj. split; [lia|]. lia.
  - intros _. cbn [ur_value ur_bucket clamp_inc].
    destruct (decide (ur_value u <= uc_value se \/ idle = true)) as [Hc|Hc].
    + exists i, (bucket_inc b (uc_value se)). rewrite list_lookup_insert_eq by done.
      split; [done|]. cbn. split; [lia|].
      specialize (Hbound i b Hb). destruct idle; cbv iota in Hbound |- *; case_match; lia.
    + destruct idle; [naive_solver|]. destruct L as [|w L]; [rewrite Hempty in Hc by done; lia|].
      destruct (Hex ltac:(done)) as (j & bj & Hj & Hpos & Hvj).
      destruct (decide (j = i)) as [->|Hne].
      * exists i, (bucket_inc b (uc_value se)). rewrite list_lookup_insert_eq by done.
        split; [done|]. assert (bj = b) as -> by congruence. cbn. split; [lia|].
        replace ((bk_tasks b + 1 =? 1) || (bk_value b <? uc_value se))%bool with false by lia. lia.
      * exists j, bj. rewrite list_lookup_insert_ne by done. split_and!; [done|done|lia].
  - intros j b'. cbn. rewrite list_lookup_insert. case_decide as Hj.
    + destruct Hj as [<- _]. intros [= <-] _. cbn.
      specialize (Hbound i b Hb). destruct idle; cbv iota in Hbound |- *; case_match; lia.
    + intros Hj' Hpos. specialize (Hbound j b' Hj' Hpos). lia.
Qed.

(** The effect of a dequeue on one clamp index; the flag tells that no
    runnable task is left and the idle value is used. *)
Definition bucket_dec (b : uclamp_bucket) : uclamp_bucket := b <| bk_tasks := bk_tasks b - 1 |>.

Lemma max_loop_spec bk n :
  (n <= length bk)%nat ->
  match uclamp_rq_max_loop bk n with
  | Some v => exists i b, (i < n)%nat /\ bk !! i = Some b /\ bk_tasks b <> 0 /\ v = bk_value b /\
                forall j bj, (i < j < n)%nat -> bk !! j = Some bj -> bk_tasks bj = 0
  | None => forall j bj, (j < n)%nat -> bk !! j = Some bj -> bk_tasks bj = 0
  end.
Proof.
  induction n as [|n IH]; intros Hn; cbn; [intros; lia|].
  destruct (lookup_lt_is_Some_2 bk n) as [b Hb]; [lia|]. rewrite Hb.
  specialize (IH ltac:(lia)). destruct (bk_tasks b =? 0) eqn:E.
  - destruct (uclamp_rq_max_loop bk n) as [v|].
    + destruct IH as (i & bi & Hi & Hbi & Hnz & -> & Habove). exists i, bi.
      split_and!; [lia|done|done|done|]. intros j bj Hj Hbj.
      destruct (decide (j = n)) as [->|]; [|apply (Habove j); [lia|done]].
      assert (bj = b) as -> by congruence. lia.
    + intros j bj Hj Hbj. destruct (decide (j = n)) as [->|]; [|apply (IH j); [lia|done]].
      assert (bj = b) as -> by congruence. lia.
  - exists n, b. split_and!; [lia|done|lia|done|]. intros; lia.
Qed.

Lemma bucket_dec_ok L i b se :
  bucket_ok (se :: L) i b -> uc_bucket_id se = Z.of_nat i -> bucket_ok L i (bucket_dec b).
Proof.
  intros (Hcnt & Hval & Hle) Hi. rewrite count_bucket_cons in Hcnt. unfold in_bucket at 1 in Hcnt.
  replace (uc_bucket_id se =? Z.of_nat i) with true in Hcnt by lia. cbn [b2z] in Hcnt.
  unfold bucket_ok, bucket_dec; cbn. split; [lia|]. split; [intros; apply Hval; lia|].
  intros w Hw Hwi. apply Hle; [by apply elem_of_cons; right | done].
Qed.

(** The buckets after a dequeue, whatever the aggregate. *)
Definition buckets_ok (L : list uclamp_se) (bks : list uclamp_bucket) : Prop :=
  length bks = Z.to_nat UCLAMP_BUCKETS /\ (forall i b, bks !! i = Some b -> bucket_ok L i b).

Lemma buckets_dec_ok L bks b se :
  buckets_ok (se :: L) bks -> wf_se se -> bks !! Z.to_nat (uc_bucket_id se) = Some b ->
  buckets_ok L (<[Z.to_nat (uc_bucket_id se) := bucket_dec b]> bks).
Proof.
  intros [Hlen Hbk] Hse Hb. pose proof (wf_bucket_range se Hse). split; [by rewrite length_insert|].
  intros j b'. rewrite list_lookup_insert. case_decide as Hj.
  - destruct Hj as [<- _]. intros [= <-]. eapply bucket_dec_ok; [by apply Hbk | lia].
  - intros Hj'. apply (bucket_other_ok L j b' se); [|by apply Hbk].
    apply lookup_lt_Some in Hb. intros Heq. apply Hj. split; lia.
Qed.

(** The value uclamp_rq_max_value() finds is the aggregate of the buckets. *)
Lemma max_loop_inv L bks v :
  buckets_ok L bks -> Forall wf_se L ->
  uclamp_rq_max_loop bks (Z.to_nat UCLAMP_BUCKETS) = Some v ->
  clamp_inv L (Mk_uclamp_rq v bks).
Proof.
  intros [Hlen Hbk] Hwf Hloop.
  pose proof (max_loop_spec bks (Z.to_nat UCLAMP_BUCKETS) ltac:(lia)) as Hs. rewrite Hloop in Hs.
  destruct Hs as (i & b & Hi & Hb & Hnz & -> & Habove).
  assert (Hpos : forall j bj, bks !! j = Some bj -> 0 <= bk_tasks bj).
  { intros j bj Hj. rewrite (proj1 (Hbk j bj Hj)). apply count_bucket_pos. }
  do 3 (split; [done|]). split.
  - intros _. exists i, b. specialize (Hpos i b Hb). split_and!; [done|lia|done].
  - intros j bj Hj Hp. cbn in *. destruct (decide (i < j)%nat) as [Hlt|Hge].
    { apply lookup_lt_Some in Hj as Hjl. rewrite (Habove j bj) in Hp by (done || lia). lia. }
    destruct (decide (i = j)) as [->|Hne]; [assert (bj = b) as -> by congruence; lia|].
    apply Z.lt_le_incl, bucket_id_lt. specialize (Hpos i b Hb).
    rewrite (proj1 (proj2 (Hbk j bj Hj)) Hp), (proj1 (proj2 (Hbk i b Hb)) ltac:(lia)). lia.
Qed.

Lemma max_loop_some L bks v :
  buckets_ok L bks -> uclamp_rq_max_loop bks (Z.to_nat UCLAMP_BUCKETS) = Some v -> L <> [].
Proof.
  intros [Hlen Hbk] Hloop ->.
  pose proof (max_loop_spec bks (Z.to_nat UCLAMP_BUCKETS) ltac:(lia)) as Hs. rewrite Hloop in Hs.
  destruct Hs as (i & b & _ & Hb & Hnz & _). by rewrite (bucket_ok_nil i b (Hbk i b Hb)) in Hnz.
Qed.

Lemma max_loop_none L bks :
  buckets_ok L bks -> Forall wf_se L ->
  uclamp_rq_max_loop bks (Z.to_nat UCLAMP_BUCKETS) = None -> L = [].
Proof.
  intros [Hlen Hbk] Hwf Hloop.
  pose proof (max_loop_spec bks (Z.to_nat UCLAMP_BUCKETS) ltac:(lia)) as Hs. rewrite Hloop in Hs.
  destruct L as [|se L]; [done|]. apply Forall_cons_iff in Hwf as [Hse _].
  pose proof (wf_bucket_range se Hse).
  destruct (lookup_lt_is_Some_2 bks (Z.to_nat (uc_bucket_id se))) as [b Hb]; [lia|].
  exfalso. apply (count_bucket_zero (se :: L) (Z.to_nat (uc_bucket_id se)) se).
  - rewrite <- (proj1 (Hbk _ b Hb)). apply (Hs (Z.to_nat (uc_bucket_id se))); [lia|done].
  - by apply elem_of_cons; left.
  - lia.
Qed.

Lemma clamp_inv_buckets L u : clamp_inv L u -> buckets_ok L (ur_bucket u).
Proof. intros (? & _ & ? & _). done. Qed.

(** Without active tasks the buckets are empty and any aggregate will do. *)
Lemma clamp_inv_nil bks v : buckets_ok [] bks -> clamp_inv [] (Mk_uclamp_rq v bks).
Proof.
  intros [Hlen Hbk]. split_and!; try done.
  intros i b Hb Hp. cbn in *. rewrite (bucket_ok_nil i b (Hbk i b Hb)) in Hp. lia.
Qed.

(** When the aggregate does not come from the bucket that lost its last task,
    or that bucket keeps a task, the aggregate stays right. *)
Lemma clamp_dec_keep L u b se :
  clamp_inv (se :: L) u -> ur_bucket u !! Z.to_nat (uc_bucket_id se) = Some b ->
  bk_tasks b <> 1 \/ bk_value b < ur_value u ->
  clamp_inv L (u <| ur_bucket := <[Z.to_nat (uc_bucket_id se) := bucket_dec b]> (ur_bucket u) |>).
Proof.
  intros Hinv Hb Hkeep. pose proof (clamp_inv_buckets _ _ Hinv) as Hbks.
  destruct Hinv as (Hlen & Hwf & Hbk & Hex & Hmax).
  apply Forall_cons_iff in Hwf as [Hse Hwf].
  destruct (buckets_dec_ok L _ b se Hbks Hse Hb) as [Hlen' Hbk'].
  pose proof (Hbk _ b Hb) as (Hcnt & _). pose proof (count_bucket_pos (se :: L) (Z.to_nat (uc_bucket_id se))).
  do 3 (split; [done|]). split.
  - intros _. destruct (Hex ltac:(done)) as (j & bj & Hj & Hpos & Hvj).
    destruct (decide (j = Z.to_nat (uc_bucket_id se))) as [->|Hne].
    + assert (bj = b) as -> by congruence. exists (Z.to_nat (uc_bucket_id se)), (bucket_dec b). cbn.
      rewrite list_lookup_insert_eq by (by apply (lookup_lt_Some _ _ _ Hb)). split_and!; [done|lia|done].
    + exists j, bj. cbn. rewrite list_lookup_insert_ne by done. done.
  - intros j b'. cbn. rewrite list_lookup_insert. case_decide as Hj.
    + destruct Hj as [<- _]. intros [= <-] Hp. cbn in *. apply (Hmax _ b Hb). lia.
    + intros Hj'. exact (Hmax j b' Hj').
Qed.

Lemma clamp_dec_nonempty L u b se :
  clamp_inv (se :: L) u -> ur_bucket u !! Z.to_nat (uc_bucket_id se) = Some b ->
  bk_tasks b <> 1 \/ bk_value b < ur_value u -> L <> [].
Proof.
  intros (Hlen & Hwf & Hbk & Hex & Hmax) Hb Hk ->. apply Forall_cons_iff in Hwf as [Hse _].
  pose proof (wf_bucket_range se Hse).
  assert (Hone : forall j bj, ur_bucket u !! j = Some bj -> bk_tasks bj = b2z (in_bucket j se)).
  { intros j bj Hj. rewrite (proj1 (Hbk j bj Hj)), count_bucket_cons. unfold count_bucket; cbn. lia. }
  destruct Hk as [Hk|Hk].
  - rewrite (Hone _ b Hb) in Hk. unfold in_bucket in Hk. rewrite Z2Nat.id, Z.eqb_refl in Hk by lia. done.
  - destruct (Hex ltac:(done)) as (j & bj & Hj & Hpos & Hv). rewrite (Hone j bj Hj) in Hpos.
    unfold in_bucket in Hpos. destruct (uc_bucket_id se =? Z.of_nat j) eqn:E; cbn in Hpos; [|lia].
    assert (j = Z.to_nat (uc_bucket_id se)) as -> by lia. assert (bj = b) as -> by congruence. lia.
Qed.

Lemma clamp_dec_tasks L u b se :
  clamp_inv (se :: L) u -> ur_bucket u !! Z.to_nat (uc_bucket_id se) = Some b ->
  0 < bk_tasks b /\ bk_value b <= ur_value u.
Proof.
  intros (Hlen & Hwf & Hbk & Hex & Hmax) Hb. apply Forall_cons_iff in Hwf as [Hse Hwf].
  destruct (Hbk _ b Hb) as (Hcnt & _). pose proof (wf_bucket_range se Hse).
  pose proof (count_bucket_pos L (Z.to_nat (uc_bucket_id se))).
  rewrite count_bucket_cons in Hcnt. unfold in_bucket at 1 in Hcnt.
  rewrite Z2Nat.id, Z.eqb_refl in Hcnt by lia. cbn [b2z] in Hcnt. split; [lia|]. apply (Hmax _ b Hb). lia.
Qed.

(** The aggregate is an upper bound of every active request, in the bucket of
    the largest one. *)
Lemma clamp_inv_aggregate L u :
  clamp_inv L u -> L <> [] ->
  (forall se, se ∈ L -> uc_value se <= ur_value u) /\
  exists se, se ∈ L /\ uc_bucket_id se = uclamp_bucket_id (ur_value u).
Proof.
  intros (Hlen & Hwf & Hbk & Hex & Hmax) Hne.
  assert (Hse_wf : forall se, se ∈ L -> wf_se se)
    by (intros se Hse; eapply Forall_forall; [exact Hwf | by apply list_elem_of_In]).
  split.
  - intros se Hse. pose proof (wf_bucket_range se (Hse_wf se Hse)).
    destruct (bucket_exists u se Hlen (Hse_wf se Hse)) as [b Hb].
    destruct (Hbk _ b Hb) as (Hcnt & _ & Hle).
    transitivity (bk_value b); [apply Hle; [done|lia]|]. apply (Hmax _ b Hb).
    pose proof (count_bucket_pos L (Z.to_nat (uc_bucket_id se))).
    destruct (Z.eq_dec (bk_tasks b) 0) as [E|]; [|lia]. exfalso.
    eapply count_bucket_zero; [by rewrite <- Hcnt|done|lia].
  - destruct (Hex Hne) as (i & b & Hb & Hpos & ->). destruct (Hbk i b Hb) as (Hcnt & Hid & _).
    rewrite (Hid Hpos). unfold count_bucket in Hcnt.
    destruct (List.filter (in_bucket i) L) as [|se l] eqn:E; [cbn in Hcnt; lia|].
    assert (In se (List.filter (in_bucket i) L)) as [Hin Hse]%filter_In by (rewrite E; by left).
    exists se. split; [by apply list_elem_of_In|]. unfold in_bucket in Hse. lia.
Qed.
End OneClamp.

(** * The machine-level invariant *)
Section Machine.
Context {H : Headers} {X : Extern} {HOK : HeadersOK H}.

(** The active clamps of the tasks of CPU [c]. *)
Definition contrib (c : Z) (id : uclamp_id) (t : task_struct) : list uclamp_se :=
  if ((ts_cpu t =? c) && uc_active (pc_get id (ts_uclamp t)))%bool
  then [pc_get id (ts_uclamp t)] else [].

Definition active_clamps (ts : gmap Z task_struct) (c : Z) (id : uclamp_id) : list uclamp_se :=
  flat_map (fun pt => contrib c id pt.2) (map_to_list ts).

Lemma active_insert ts c id p t :
  active_clamps (<[p := t]> ts) c id ≡ₚ contrib c id t ++ active_clamps (delete p ts) c id.
Proof.
  unfold active_clamps. rewrite <- insert_delete_eq.
  rewrite map_to_list_insert by (by rewrite lookup_delete_eq). done.
Qed.

Lemma active_split ts c id p t :
  ts !! p = Some t ->
  active_clamps ts c id ≡ₚ contrib c id t ++ active_clamps (delete p ts) c id.
Proof. intros Hp. rewrite <- (insert_id ts p t Hp) at 1. apply active_insert. Qed.

Lemma active_same ts c id p t t' :
  ts !! p = Some t -> contrib c id t' = contrib c id t ->
  active_clamps (<[p := t']> ts) c id ≡ₚ active_clamps ts c id.
Proof. intros Hp Hc. rewrite active_insert, Hc. symmetry. by apply active_split. Qed.

(** The idle flag of a run queue. *)
Definition uclamp_idle (q : rq) : bool := has_flag (rq_uclamp_flags q) UCLAMP_FLAG_IDLE.

(** A run queue's clamps agree with the active clamps [L] of its tasks.  The
    idle flag is set exactly when the maximum clamp has no active task. *)
Definition rq_clamps_ok (L : uclamp_id -> list uclamp_se) (q : rq) : Prop :=
  (forall id, clamp_inv (L id) (pc_get id (rq_uclamp q))) /\
  (L UCLAMP_MIN = [] -> uclamp_idle q = false -> ur_value (pc_get UCLAMP_MIN (rq_uclamp q)) = 0) /\
  (L UCLAMP_MAX = [] <-> uclamp_idle q = true).

(** A task is accounted in both clamp indexes or in neither. *)
Definition paired (t : task_struct) : Prop :=
  uc_active (pc_get UCLAMP_MIN (ts_uclamp t)) = uc_active (pc_get UCLAMP_MAX (ts_uclamp t)).

Definition uclamp_inv (m : machine) : Prop :=
  (forall c q, m_rqs m !! c = Some q -> rq_clamps_ok (active_clamps (m_tasks m) c) q) /\
  (forall p t, m_tasks m !! p = Some t -> paired t).

Lemma paired_contrib c t : paired t -> (contrib c UCLAMP_MIN t = [] <-> contrib c UCLAMP_MAX t = []).
Proof.
  unfold paired, contrib. intros Hp. cbn in *. destruct (ts_cpu t =? c), (uc_active _), (uc_active _); done.
Qed.

Lemma active_nil ts c :
  (forall p t, ts !! p = Some t -> paired t) ->
  active_clamps ts c UCLAMP_MIN = [] <-> active_clamps ts c UCLAMP_MAX = [].
Proof.
  intros Hp. unfold active_clamps.
  assert (forall l, (forall x, In x l -> ts !! x.1 = Some x.2) ->
    flat_map (fun pt => contrib c UCLAMP_MIN pt.2) l = [] <->
    flat_map (fun pt => contrib c UCLAMP_MAX pt.2) l = []) as Haux.
  { induction l as [|x l IH]; [done|]. intros Hl. cbn. rewrite !app_nil.
    rewrite IH by (intros; apply Hl; by right).
    rewrite (paired_contrib c x.2); [done|]. apply (Hp x.1). apply Hl. by left. }
  apply Haux. intros [p t] Hin. apply list_elem_of_In, elem_of_map_to_list in Hin. done.
Qed.

Lemma pc_set_set {A} id (v w : A) c : pc_set id v (pc_set id w c) = pc_set id v c.
Proof. by destruct id. Qed.

Lemma pc_set_get {A} id (c : per_clamp A) : pc_set id (pc_get id c) c = c.
Proof. by destruct id, c. Qed.

(** ** One clamp index as a small machine

    [at_clamp] is the machine in which the clamp [id] of task [p] is [s], that
    of run queue [r] is [u] and the run queue's clamp flags are [f].  The
    accounting code moves between such states. *)
Section AtClamp.
Context (m : machine) (r p : Z) (q : rq) (t : task_struct) (id : uclamp_id).

Definition clamp_task (s : uclamp_se) : task_struct := t <| ts_uclamp := pc_set id s (ts_uclamp t) |>.
Definition clamp_rq (u : uclamp_rq) (f : Z) : rq :=
  q <| rq_uclamp := pc_set id u (rq_uclamp q) |> <| rq_uclamp_flags := f |>.
Definition at_clamp (u : uclamp_rq) (f : Z) (s : uclamp_se) (l : list event) : machine :=
  m <| m_tasks := <[p := clamp_task s]> (m_tasks m) |>
    <| m_rqs := <[r := clamp_rq u f]> (m_rqs m) |> <| m_log := l |>.

Lemma at_clamp_start :
  m_tasks m !! p = Some t -> m_rqs m !! r = Some q ->
  m = at_clamp (pc_get id (rq_uclamp q)) (rq_uclamp_flags q) (pc_get id (ts_uclamp t)) (m_log m).
Proof.
  intros Hp Hr. unfold at_clamp, clamp_task, clamp_rq. rewrite !pc_set_get.
  replace (t <| ts_uclamp := ts_uclamp t |>) with t by (by destruct t).
  replace (q <| rq_uclamp := rq_uclamp q |> <| rq_uclamp_flags := rq_uclamp_flags q |>) with q
    by (by destruct q).
  rewrite !insert_id by done. by destruct m.
Qed.

Context (Q : unit -> machine -> Prop).

Lemma wp_upd_uclamp g u f s l :
  Q tt (at_clamp u f (g s) l) -> wp (upd_uclamp p id g) Q (at_clamp u f s l).
Proof.
  intros HQ. unfold upd_uclamp. kgo. refine (eq_ind _ (Q tt) HQ _ _).
  unfold at_clamp, clamp_task, upd; cbn. by rewrite insert_insert_eq, pc_get_set_eq, pc_set_set.
Qed.

Lemma wp_upd_rq_uclamp g u f s l :
  Q tt (at_clamp (g u) f s l) -> wp (upd_rq_uclamp r id g) Q (at_clamp u f s l).
Proof.
  intros HQ. unfold upd_rq_uclamp. kgo. refine (eq_ind _ (Q tt) HQ _ _).
  unfold at_clamp, clamp_rq, upd; cbn. by rewrite insert_insert_eq, pc_get_set_eq, pc_set_set.
Qed.

Lemma wp_clamp_rq_flags g u f s l :
  Q tt (at_clamp u (g f) s l) -> wp (upd! r ⇝ rq_uclamp_flags := g) Q (at_clamp u f s l).
Proof.
  intros HQ. kgo. refine (eq_ind _ (Q tt) HQ _ _).
  unfold at_clamp, clamp_rq, upd; cbn. by rewrite insert_insert_eq.
Qed.

Lemma wp_clamp_emit n a u f s l :
  Q tt (at_clamp u f s (l ++ [Ev n a])) -> wp (emit n a) Q (at_clamp u f s l).
Proof. done. Qed.
End AtClamp.

Lemma wp_rd_clamp_rq m r p q t id u f s l {E} (g : rq -> E) Q :
  Q (g (clamp_rq q id u f)) (at_clamp m r p q t id u f s l) ->
  wp (r ⇝ g) Q (at_clamp m r p q t id u f s l).
Proof. intros HQ. unfold at_clamp in *. kgo. exact HQ. Qed.

Lemma wp_rd_clamp_task m r p q t id u f s l {E} (g : task_struct -> E) Q :
  Q (g (clamp_task t id s)) (at_clamp m r p q t id u f s l) ->
  wp (p ⇝ g) Q (at_clamp m r p q t id u f s l).
Proof. intros HQ. unfold at_clamp in *. kgo. exact HQ. Qed.

Lemma wp_rd_bucket m r p q t id u f s l i b Q :
  ur_bucket u !! Z.to_nat i = Some b ->
  Q b (at_clamp m r p q t id u f s l) -> wp (rd_bucket r id i) Q (at_clamp m r p q t id u f s l).
Proof.
  intros Hb HQ. unfold rd_bucket. apply wp_bind, wp_rd_clamp_rq. cbn.
  rewrite pc_get_set_eq, Hb. exact HQ.
Qed.

Lemma wp_wr_bucket m r p q t id u f s l i b (Q : unit -> machine -> Prop) :
  Q tt (at_clamp m r p q t id (u <| ur_bucket := <[Z.to_nat i := b]> (ur_bucket u) |>) f s l) ->
  wp (wr_bucket r id i b) Q (at_clamp m r p q t id u f s l).
Proof. intros HQ. by apply wp_upd_rq_uclamp. Qed.

Ltac clamp_step :=
  lazymatch goal with
  | |- wp (mbind _ _) _ _ => apply wp_bind
  | |- wp (mret _) _ _ => apply wp_ret
  | |- wp (upd_uclamp _ _ _) _ _ => apply wp_upd_uclamp
  | |- wp (upd_rq_uclamp _ _ _) _ _ => apply wp_upd_rq_uclamp
  | |- wp (wr_bucket _ _ _ _) _ _ => apply wp_wr_bucket
  | |- wp (rd_bucket _ _ _) _ _ => eapply wp_rd_bucket; [eassumption|]
  | |- wp (emit _ _) _ _ => apply wp_clamp_emit
  | |- wp (when ?b _) _ _ => apply wp_when; destruct b eqn:?
  | |- wp (if ?b then _ else _) _ _ => destruct b eqn:?
  | |- wp (rd _ _) _ _ => apply wp_rd_clamp_rq; cbn; rewrite ?pc_get_set_eq
  | |- wp (upd_obj _ _) _ _ => apply wp_clamp_rq_flags
  end; cbv beta.

(** Enqueue: the clamp becomes the effective one, and the buckets gain it. *)
Lemma wp_uclamp_rq_inc_id r p id m q t b eff (Q : unit -> machine -> Prop) :
  m_tasks m !! p = Some t -> m_rqs m !! r = Some q ->
  uclamp_eff_get p id m = Ret eff m ->
  ur_bucket (pc_get id (rq_uclamp q)) !! Z.to_nat (uc_bucket_id eff) = Some b ->
  Q tt (at_clamp m r p q t id (clamp_inc (uclamp_idle q) (pc_get id (rq_uclamp q)) b eff)
          (rq_uclamp_flags q) (eff <| uc_active := true |>) (m_log m)) ->
  wp (uclamp_rq_inc_id r p id) Q m.
Proof.
  intros Hp Hr Heff Hb HQ. unfold uclamp_rq_inc_id, uclamp_idle_reset.
  apply wp_bind. unfold wp at 1. rewrite Heff. cbv beta. clear Heff.
  rewrite (at_clamp_start m r p q t id Hp Hr).
  unfold uclamp_idle, clamp_inc, bucket_inc in HQ. set (u := pc_get id (rq_uclamp q)) in *.
  repeat clamp_step; cbn in *; refine (eq_ind _ (Q tt) HQ _ _); f_equal;
    destruct (has_flag (rq_uclamp_flags q) UCLAMP_FLAG_IDLE); try done;
    unfold upd; cbn; rewrite ?list_insert_insert_eq; f_equal; lia.
Qed.

Lemma uclamp_inc_id_spec r p id m q t eff L :
  m_tasks m !! p = Some t -> m_rqs m !! r = Some q ->
  uclamp_eff_get p id m = Ret eff m -> wf_se eff ->
  clamp_inv L (pc_get id (rq_uclamp q)) ->
  (uclamp_idle q = true -> L = []) ->
  (L = [] -> uclamp_idle q = false -> ur_value (pc_get id (rq_uclamp q)) = 0) ->
  wp (uclamp_rq_inc_id r p id)
     (fun _ m' => exists u', clamp_inv (eff <| uc_active := true |> :: L) u' /\
        m' = at_clamp m r p q t id u' (rq_uclamp_flags q) (eff <| uc_active := true |>) (m_log m)) m.
Proof.
  intros Hp Hr Heff Hwf Hinv Hidle Hempty.
  destruct (bucket_exists (pc_get id (rq_uclamp q)) eff (proj1 Hinv) Hwf) as [b Hb].
  eapply wp_uclamp_rq_inc_id; [done..|]. eexists. split; [|done].
  pose (eff' := eff <| uc_active := true |>).
  exact (clamp_inc_inv (uclamp_idle q) L _ b eff' Hinv Hwf Hb Hidle Hempty).
Qed.

(** The new aggregate when a bucket has lost its last task. *)
Lemma wp_uclamp_rq_max_value m r p q t id u f s l v L (Q : Z -> machine -> Prop) :
  buckets_ok L (ur_bucket u) -> Forall wf_se L ->
  (forall w f', f' = (if (is_UCLAMP_MAX id && bool_decide (L = []))%bool
                      then Z.lor f UCLAMP_FLAG_IDLE else f) ->
     clamp_inv L (u <| ur_value := w |>) -> (L = [] -> id = UCLAMP_MIN -> w = 0) ->
     Q w (at_clamp m r p q t id u f' s l)) ->
  wp (uclamp_rq_max_value r id v) Q (at_clamp m r p q t id u f s l).
Proof.
  intros Hbks Hwf HQ. unfold uclamp_rq_max_value. apply wp_bind, wp_rd_clamp_rq. cbn.
  rewrite pc_get_set_eq. destruct (uclamp_rq_max_loop _ _) as [w|] eqn:E.
  - apply wp_ret. pose proof (max_loop_inv L _ w Hbks Hwf E) as Hinv.
    pose proof (max_loop_some L _ w Hbks E).
    apply HQ; [by rewrite bool_decide_eq_false_2, andb_false_r by done | done | done].
  - pose proof (max_loop_none L _ Hbks Hwf E) as ->.
    assert (forall w, clamp_inv [] (u <| ur_value := w |>)) by (intros; by apply clamp_inv_nil).
    unfold uclamp_idle_value. destruct id; cbn [is_UCLAMP_MAX is_UCLAMP_MIN negb].
    + apply wp_ret. by apply HQ.
    + apply wp_bind, wp_clamp_rq_flags. by apply HQ.
Qed.

(** The state a dequeue leaves the clamp index in. *)
Definition dec_result (id : uclamp_id) (L : list uclamp_se) (f : Z) (u' : uclamp_rq) (f' : Z) : Prop :=
  clamp_inv L u' /\
  (L = [] -> id = UCLAMP_MIN -> ur_value u' = 0) /\
  f' = if (is_UCLAMP_MAX id && bool_decide (L = []))%bool then Z.lor f UCLAMP_FLAG_IDLE else f.

Lemma uclamp_dec_id_spec r p id m q t L :
  let se := pc_get id (ts_uclamp t) in
  m_tasks m !! p = Some t -> m_rqs m !! r = Some q -> uc_active se = true ->
  clamp_inv (se :: L) (pc_get id (rq_uclamp q)) ->
  wp (uclamp_rq_dec_id r p id)
     (fun _ m' => exists u' f', dec_result id L (rq_uclamp_flags q) u' f' /\
        m' = at_clamp m r p q t id u' f' (se <| uc_active := false |>) (m_log m)) m.
Proof.
  intros se Hp Hr Hact Hinv. unfold uclamp_rq_dec_id.
  rewrite (at_clamp_start m r p q t id Hp Hr) at 1. fold se.
  set (u := pc_get id (rq_uclamp q)) in *. set (l := m_log m).
  apply wp_bind, wp_rd_clamp_task. cbn. rewrite pc_get_set_eq, Hact. cbn [negb].
  pose proof (clamp_inv_buckets _ _ Hinv) as Hbks.
  pose proof (proj1 (proj2 Hinv)) as Hwf. apply Forall_cons_iff in Hwf as [Hse Hwf].
  destruct (bucket_exists u se (proj1 Hinv) Hse) as [b Hb].
  destruct (clamp_dec_tasks L u b se Hinv Hb) as [Hpos Hval].
  pose proof (buckets_dec_ok L _ b se Hbks Hse Hb) as Hbks'.
  apply wp_bind, (wp_rd_bucket _ _ _ _ _ _ _ _ _ _ _ _ _ Hb).
  replace (bk_tasks b =? 0) with false by lia.
  replace (truthy (bk_tasks b)) with true by (symmetry; apply truthy_true; lia).
  change (b <| bk_tasks := bk_tasks b - 1 |>) with (bucket_dec b).
  assert (Hkeep : bk_tasks b <> 1 \/ bk_value b < ur_value u ->
    dec_result id L (rq_uclamp_flags q)
      (u <| ur_bucket := <[Z.to_nat (uc_bucket_id se) := bucket_dec b]> (ur_bucket u) |>)
      (rq_uclamp_flags q)).
  { intros Hk. pose proof (clamp_dec_nonempty L u b se Hinv Hb Hk).
    split_and!; [by apply clamp_dec_keep | done |].
    by rewrite bool_decide_eq_false_2, andb_false_r by done. }
  repeat (clamp_step; try discriminate); try (cbn in *; lia).
  - do 2 eexists. split; [|done]. apply Hkeep. left. apply truthy_true in Heqb1. lia.
  - eapply wp_uclamp_rq_max_value; [exact Hbks' | exact Hwf |].
    intros w f' Hf Hinv' Hmin. clamp_step. do 2 eexists. split; [|done]. by split_and!.
  - do 2 eexists. split; [|done]. apply Hkeep. right. cbn in *. lia.
Qed.

(** ** From one run queue to the machine *)
Lemma rq_clamps_ok_perm L L' q :
  (forall id, L id ≡ₚ L' id) -> rq_clamps_ok L q -> rq_clamps_ok L' q.
Proof.
  intros HL (Hinv & Hmin & Hmax).
  assert (Hnil : forall id, L id = [] <-> L' id = []).
  { intros id. specialize (HL id). split; intros E; rewrite E in HL;
      [by apply Permutation_nil_l in HL | by apply Permutation_nil_r in HL]. }
  split; [|by rewrite <- !Hnil]. intros id. by rewrite <- (HL id).
Qed.

(** The clamps of the other tasks of run queue [r]. *)
Definition rest (m : machine) (p r : Z) (id : uclamp_id) : list uclamp_se :=
  active_clamps (delete p (m_tasks m)) r id.

Lemma uclamp_inv_split m p t r q :
  uclamp_inv m -> m_tasks m !! p = Some t -> m_rqs m !! r = Some q ->
  rq_clamps_ok (fun id => contrib r id t ++ rest m p r id) q /\ paired t /\
  (rest m p r UCLAMP_MIN = [] <-> rest m p r UCLAMP_MAX = []).
Proof.
  intros [Hrq Hpair] Hp Hr. split; [|split; [by eapply Hpair|]].
  - eapply rq_clamps_ok_perm; [|by apply Hrq]. intros id. by apply active_split.
  - apply active_nil. intros p' t' Hp'. apply lookup_delete_Some in Hp' as [_ Hp'].
    by eapply Hpair.
Qed.

Lemma uclamp_inv_join m m' p t t' r q q' :
  uclamp_inv m -> m_tasks m !! p = Some t -> m_rqs m !! r = Some q ->
  ts_cpu t = r -> ts_cpu t' = r ->
  m_tasks m' = <[p := t']> (m_tasks m) -> m_rqs m' = <[r := q']> (m_rqs m) ->
  rq_clamps_ok (fun id => contrib r id t' ++ rest m p r id) q' -> paired t' ->
  uclamp_inv m'.
Proof.
  intros [Hrq Hpair] Hp Hr Hc Hc' Hts Hrs Hok Hpt. split.
  - intros c qc. rewrite Hrs, Hts, lookup_insert. case_decide as E.
    + subst c. intros [= <-]. eapply rq_clamps_ok_perm; [|exact Hok].
      intros id. symmetry. apply active_insert.
    + intros Hqc. eapply rq_clamps_ok_perm; [|by apply Hrq]. intros id. symmetry.
      apply (active_same _ c id p t); [done|]. unfold contrib.
      rewrite Hc, Hc'. by replace (r =? c) with false by lia.
  - intros p' tp. rewrite Hts, lookup_insert. case_decide; [by intros [= <-]|]. by eauto.
Qed.

Lemma contrib_active r id t :
  ts_cpu t = r -> uc_active (pc_get id (ts_uclamp t)) = true ->
  contrib r id t = [pc_get id (ts_uclamp t)].
Proof. intros <- Ha. unfold contrib. by rewrite Z.eqb_refl, Ha. Qed.

Lemma contrib_inactive r id t :
  uc_active (pc_get id (ts_uclamp t)) = false -> contrib r id t = [].
Proof. intros Ha. unfold contrib. by rewrite Ha, andb_false_r. Qed.

Lemma at_clamp_tasks m r p q t id u f s l :
  m_tasks (at_clamp m r p q t id u f s l) = <[p := clamp_task t id s]> (m_tasks m).
Proof. done. Qed.

Lemma at_clamp_rqs m r p q t id u f s l :
  m_rqs (at_clamp m r p q t id u f s l) = <[r := clamp_rq q id u f]> (m_rqs m).
Proof. done. Qed.

(** The tasks of [m'] are those of [m] but for the clamps of [p], whose active
    bit is now [b]. *)
Definition accounted (m : machine) (p : Z) (t : task_struct) (b : bool) (m' : machine) : Prop :=
  exists u, m_tasks m' = <[p := t <| ts_uclamp := u |>]> (m_tasks m) /\ uc_active (pc_get UCLAMP_MIN u) = b.

Lemma accounted_same m p t : m_tasks m !! p = Some t ->
  accounted m p t (uc_active (pc_get UCLAMP_MIN (ts_uclamp t))) m.
Proof. intros Hp. exists (ts_uclamp t). split; [|done]. symmetry. apply insert_id. by destruct t. Qed.

(** Dequeueing an accounted task. *)
Lemma uclamp_dec_active_inv m r p q t :
  uclamp_inv m -> m_tasks m !! p = Some t -> m_rqs m !! r = Some q -> ts_cpu t = r ->
  uc_active (pc_get UCLAMP_MIN (ts_uclamp t)) = true ->
  wp (mapM_ (uclamp_rq_dec_id r p) for_each_clamp_id)
     (fun _ m' => uclamp_inv m' /\ accounted m p t false m') m.
Proof.
  intros Hinv Hp Hr Hc Hamin.
  destruct (uclamp_inv_split m p t r q Hinv Hp Hr) as ((Hci & _ & Hidle) & Hpair & _).
  assert (Hamax : uc_active (pc_get UCLAMP_MAX (ts_uclamp t)) = true) by (by rewrite <- Hpair).
  pose proof (Hci UCLAMP_MIN) as Hmin. pose proof (Hci UCLAMP_MAX) as Hmax. cbv beta in *.
  rewrite contrib_active in Hmin, Hmax, Hidle by done. cbn [mapM_ for_each_clamp_id].
  apply wp_bind. eapply wp_mono; [by eapply uclamp_dec_id_spec|].
  intros _ m1 (u1 & f1 & (Hi1 & Hz1 & Hf1) & ->). cbn in Hf1. subst f1.
  apply wp_bind. eapply wp_mono.
  { eapply (uclamp_dec_id_spec r p UCLAMP_MAX); [by rewrite at_clamp_tasks, lookup_insert_eq
      | by rewrite at_clamp_rqs, lookup_insert_eq | exact Hamax | exact Hmax]. }
  intros _ m2 (u2 & f2 & (Hi2 & _ & Hf2) & ->). apply wp_ret. split.
  2:{ eexists. split; [rewrite !at_clamp_tasks; apply insert_insert_eq | done]. }
  eapply (uclamp_inv_join m _ p t _ r q); [done..| | | | |].
  3:{ rewrite at_clamp_rqs, at_clamp_rqs. apply insert_insert_eq. }
  2:{ rewrite at_clamp_tasks, at_clamp_tasks. apply insert_insert_eq. }
  - exact Hc.
  - apply (rq_clamps_ok_perm (rest m p r)).
    { intros id. by rewrite contrib_inactive by (by destruct id). }
    split; [|split].
    + by intros [].
    + intros Hr0 _. by apply Hz1.
    + cbn -[Z.lor]. unfold uclamp_idle; cbn -[Z.lor]. rewrite Hf2. cbn -[Z.lor].
      case_bool_decide as E; cbn -[Z.lor].
      * split; [intros _|by intros _]. apply has_flag_lor. rewrite uclamp_flag_idle_val. done.
      * split; [done|]. intros Hf. destruct Hidle as [_ Hd]. by specialize (Hd Hf).
  - done.
Qed.

(** ** Effective clamps *)

(** The effective clamp as a function of what uclamp_eff_get() reads. *)
Definition restrict_of (root : Z) (g : task_group) (t : task_struct) (id : uclamp_id) : uclamp_se :=
  let uc_req := pc_get id (ts_uclamp_req t) in
  if (tg_autogroup g || (ts_task_group t =? root))%bool then uc_req
  else uclamp_se_set uc_req
         (clampZ (uc_value uc_req) (uc_value (pc_get UCLAMP_MIN (tg_uclamp g)))
            (uc_value (pc_get UCLAMP_MAX (tg_uclamp g)))) false.

Definition eff_of (d : per_clamp uclamp_se) (root : Z) (g : task_group) (t : task_struct)
  (id : uclamp_id) : uclamp_se :=
  let uc_req := restrict_of root g t id in
  if uc_value (pc_get id d) <? uc_value uc_req then pc_get id d else uc_req.

Lemma uclamp_eff_get_eq m p t g id :
  m_tasks m !! p = Some t -> m_tgs m !! ts_task_group t = Some g ->
  uclamp_eff_get p id m = Ret (eff_of (m_uclamp_default m) (m_root_task_group m) g t id) m.
Proof.
  intros Hp Hg.
  assert (wp (uclamp_eff_get p id) (fun e m' => m' = m /\
    e = eff_of (m_uclamp_default m) (m_root_task_group m) g t id) m) as Hwp.
  { unfold uclamp_eff_get, uclamp_tg_restrict, eff_of, restrict_of. kgo.
    destruct (tg_autogroup g), (ts_task_group t =? m_root_task_group m); cbn; kgo;
      repeat case_match; kgo; done. }
  apply wp_run in Hwp as (e & m' & -> & -> & ->). done.
Qed.

(** The requests, the group clamps and the system defaults are well formed. *)
Definition clamps_wf (m : machine) : Prop :=
  (forall p t id, m_tasks m !! p = Some t -> wf_se (pc_get id (ts_uclamp_req t))) /\
  (forall a g id, m_tgs m !! a = Some g -> wf_se (pc_get id (tg_uclamp g))) /\
  (forall id, wf_se (pc_get id (m_uclamp_default m))).

Lemma eff_of_wf m p t g id :
  clamps_wf m -> m_tasks m !! p = Some t -> m_tgs m !! ts_task_group t = Some g ->
  wf_se (eff_of (m_uclamp_default m) (m_root_task_group m) g t id).
Proof.
  intros (Hreq & Htg & Hd) Hp Hg. unfold eff_of, restrict_of.
  pose proof (Hreq p t id Hp). pose proof (Htg _ g UCLAMP_MIN Hg) as [].
  pose proof (Htg _ g UCLAMP_MAX Hg) as [].
  repeat case_match; try done. apply wf_se_set. unfold clampZ. lia.
Qed.

(** A run queue that has gained the clamps [e] of a task. *)
Lemma uclamp_inv_enqueued m m' p t t' r q q' (e : uclamp_id -> uclamp_se) :
  uclamp_inv m -> m_tasks m !! p = Some t -> m_rqs m !! r = Some q -> ts_cpu t = r ->
  m_tasks m' = <[p := t']> (m_tasks m) -> m_rqs m' = <[r := q']> (m_rqs m) ->
  ts_cpu t' = r -> (forall id, contrib r id t' = [e id]) -> paired t' ->
  (forall id, clamp_inv (e id :: rest m p r id) (pc_get id (rq_uclamp q'))) ->
  uclamp_idle q' = false -> uclamp_inv m'.
Proof.
  intros Hinv Hp Hr Hc Hts Hrs Hc' Hcon Hpair Hci Hidle.
  eapply (uclamp_inv_join m m' p t t' r q q'); try done.
  split; [|split].
  - intros id. rewrite Hcon. apply Hci.
  - by rewrite Hcon.
  - rewrite Hcon, Hidle. done.
Qed.

(** Enqueueing a task that is not accounted. *)
Lemma uclamp_inc_both_inv m r p q t g :
  uclamp_inv m -> clamps_wf m ->
  m_tasks m !! p = Some t -> m_rqs m !! r = Some q -> m_tgs m !! ts_task_group t = Some g ->
  ts_cpu t = r -> uc_active (pc_get UCLAMP_MIN (ts_uclamp t)) = false ->
  wp (mapM_ (uclamp_rq_inc_id r p) for_each_clamp_id ;; clear_idle_flag r)
     (fun _ m' => uclamp_inv m' /\ accounted m p t true m') m.
Proof.
  intros Hinv Hwf Hp Hr Hg Hc Hamin.
  destruct (uclamp_inv_split m p t r q Hinv Hp Hr) as ((Hci & Hz & Hidle) & Hpair & Hnil).
  assert (Hamax : uc_active (pc_get UCLAMP_MAX (ts_uclamp t)) = false) by (by rewrite <- Hpair).
  pose proof (Hci UCLAMP_MIN) as Hmin. pose proof (Hci UCLAMP_MAX) as Hmax. cbv beta in *.
  rewrite contrib_inactive in Hmin, Hmax, Hidle, Hz by done. cbn [app] in *.
  pose (e := eff_of (m_uclamp_default m) (m_root_task_group m) g t).
  assert (Hew : forall id, wf_se (e id)) by (intros; by eapply eff_of_wf).
  pose (e' := fun id => (e id) <| uc_active := true |>).
  cbn [mapM_ for_each_clamp_id]. apply wp_bind, wp_bind. eapply wp_mono.
  { eapply (uclamp_inc_id_spec r p UCLAMP_MIN m q t (e UCLAMP_MIN) _ Hp Hr);
      [by apply uclamp_eff_get_eq | done | exact Hmin | by rewrite Hnil, Hidle | exact Hz]. }
  intros _ m1 (u1 & Hi1 & ->). apply wp_bind. eapply wp_mono.
  { eapply (uclamp_inc_id_spec r p UCLAMP_MAX _ _ _ (e UCLAMP_MAX));
      [by rewrite at_clamp_tasks, lookup_insert_eq | by rewrite at_clamp_rqs, lookup_insert_eq
      | etransitivity; [eapply (uclamp_eff_get_eq _ p _ g UCLAMP_MAX);
          [by rewrite at_clamp_tasks, lookup_insert_eq | exact Hg] | reflexivity]
      | done | exact Hmax | exact (proj2 Hidle)
      | intros E Hf; change (uclamp_idle q = false) in Hf; pose proof (proj1 Hidle E); congruence]. }
  intros _ m2 (u2 & Hi2 & ->). apply wp_ret. unfold clear_idle_flag.
  apply wp_bind, wp_rd_clamp_rq, wp_when. cbn [rq_uclamp_flags clamp_rq upd].
  destruct (has_flag _ _) eqn:Hfl.
  1: apply (wp_clamp_rq_flags _ _ _ _ _ _ _ (fun _ => _)).
  all: split; [|eexists; split; [rewrite !at_clamp_tasks; apply insert_insert_eq | done]].
  all: eapply (uclamp_inv_enqueued m _ p t _ r q _ e' Hinv Hp Hr Hc);
    [rewrite !at_clamp_tasks; apply insert_insert_eq
    | rewrite !at_clamp_rqs; apply insert_insert_eq | exact Hc
    | intros []; by rewrite contrib_active | done
    | intros []; [exact Hi1 | exact Hi2] | ].
  - apply has_flag_ldiff.
  - exact Hfl.
Qed.

(** ** Enqueue and dequeue *)

(** Whether uclamp_rq_inc() and uclamp_rq_dec() account the task at all. *)
Definition uclamp_acts (m : machine) (t : task_struct) : bool :=
  (m_uclamp_used m && uclamp_enabled (ts_class t))%bool.

Lemma wp_uclamp_rq_inc m r p q t g :
  uclamp_inv m -> clamps_wf m ->
  m_tasks m !! p = Some t -> m_rqs m !! r = Some q -> m_tgs m !! ts_task_group t = Some g ->
  ts_cpu t = r -> uc_active (pc_get UCLAMP_MIN (ts_uclamp t)) = false ->
  wp (uclamp_rq_inc r p) (fun _ m' => uclamp_inv m' /\ accounted m p t (uclamp_acts m t) m') m.
Proof.
  intros Hinv Hwf Hp Hr Hg Hc Ha. unfold uclamp_rq_inc, uclamp_acts. kgo.
  pose proof (accounted_same m p t Hp) as Hsame. rewrite Ha in Hsame.
  destruct (m_uclamp_used m); cbn [negb andb]; kgo; [|done].
  destruct (uclamp_enabled _); cbn [negb]; [|by kgo].
  by eapply uclamp_inc_both_inv.
Qed.

Lemma wp_uclamp_rq_dec m r p q t :
  uclamp_inv m -> m_tasks m !! p = Some t -> m_rqs m !! r = Some q -> ts_cpu t = r ->
  wp (uclamp_rq_dec r p) (fun _ m' => uclamp_inv m' /\
    accounted m p t (negb (uclamp_acts m t) && uc_active (pc_get UCLAMP_MIN (ts_uclamp t))) m') m.
Proof.
  intros Hinv Hp Hr Hc. unfold uclamp_rq_dec, uclamp_acts. kgo.
  pose proof (accounted_same m p t Hp) as Hsame.
  destruct (m_uclamp_used m); cbn [negb andb]; kgo; [|done].
  destruct (uclamp_enabled _); cbn [negb andb]; [|by kgo].
  destruct (uc_active (pc_get UCLAMP_MIN (ts_uclamp t))) eqn:Ha; [by eapply uclamp_dec_active_inv|].
  assert (Ha' : uc_active (pc_get UCLAMP_MAX (ts_uclamp t)) = false).
  { destruct Hinv as [_ Hpair]. by rewrite <- (Hpair p t Hp). }
  cbn [mapM_ for_each_clamp_id]. unfold uclamp_rq_dec_id. kgo. rewrite Ha. cbn [negb]. kgo.
  rewrite Ha'. cbn [negb]. by kgo.
Qed.
End Machine.
