(* ===== verification/Prio.v ===== *)
(** Priorities (core.c): the kernel priority order used for core scheduling,
    static, normal and effective priorities, load weights, moving a task on and
    off its run queue, nice values and priority inheritance. *)
From S2P Require Import Prelude Headers Kernel Extern RqClock Uclamp.

(** * The weight tables *)
Definition sched_prio_to_weight : list Z :=
  [ 88761; 71755; 56483; 46273; 36291;
    29154; 23254; 18705; 14949; 11916;
    9548; 7620; 6100; 4904; 3906;
    3121; 2501; 1991; 1586; 1277;
    1024; 820; 655; 526; 423;
    335; 272; 215; 172; 137;
    110; 87; 70; 56; 45;
    36; 29; 23; 18; 15 ].

Definition sched_prio_to_wmult : list Z :=
  [ 48388; 59856; 76040; 92818; 118348;
    147320; 184698; 229616; 287308; 360437;
    449829; 563644; 704093; 875809; 1099582;
    1376151; 1717300; 2157191; 2708050; 3363326;
    4194304; 5237765; 6557202; 8165337; 10153587;
    12820798; 15790321; 19976592; 24970740; 31350126;
    39045157; 49367440; 61356676; 76695844; 95443717;
    119304647; 148102320; 186737708; 238609294; 286331153 ].

(** An access outside the table faults. *)
Definition table_get {S} (tbl : list Z) (i : Z) : M S Z :=
  if i <? 0 then stuck EFAULT_PTR
  else match tbl !! Z.to_nat i with
       | Some v => mret v
       | None => stuck EFAULT_PTR
       end.

Section Prio.
Context {H : Headers} {X : Extern}.

(** * Priority order (core scheduling) *)
Definition __task_prio (p : task_struct) : Z :=
  if class_eqb (ts_class p) stop_sched_class then -2
  else if rt_prio (ts_prio p) then ts_prio p
  else if class_eqb (ts_class p) idle_sched_class then MAX_RT_PRIO + NICE_WIDTH
  else MAX_RT_PRIO + MAX_NICE.

(** include/linux/sched/deadline.h: dl_time_before(a, b) is (s64)(a - b) < 0. *)
Definition dl_time_before (a b : Z) : bool := s64 (a - b) <? 0.

(** [cfs_prio_less] is fair.c's comparison of two fair tasks. *)
Definition prio_less (cfs_prio_less : task_struct -> task_struct -> bool -> bool)
  (a b : task_struct) (in_fi : bool) : bool :=
  let pa := __task_prio a in
  let pb := __task_prio b in
  if - pa <? - pb then true
  else if - pb <? - pa then false
  else if pa =? -1 then negb (dl_time_before (dl_deadline (ts_dl a)) (dl_deadline (ts_dl b)))
  else if pa =? MAX_RT_PRIO + MAX_NICE then cfs_prio_less a b in_fi
  else false.

Definition __sched_core_less (cfs_prio_less : task_struct -> task_struct -> bool -> bool)
  (core_forceidle_count : Z) (a b : task_struct) : bool :=
  if ts_core_cookie a <? ts_core_cookie b then true
  else if ts_core_cookie b <? ts_core_cookie a then false
  else prio_less cfs_prio_less b a (truthy core_forceidle_count).

(** * Normal and effective priority *)
Definition __normal_prio (policy rt_prio nice : Z) : Z :=
  if dl_policy policy then MAX_DL_PRIO - 1
  else if rt_policy policy then MAX_RT_PRIO - 1 - rt_prio
  else NICE_TO_PRIO nice.

Definition normal_prio (p : task_struct) : Z :=
  __normal_prio (ts_policy p) (ts_rt_priority p) (PRIO_TO_NICE (ts_static_prio p)).

Definition effective_prio (p : Z) : K Z :=
  t ← deref (R := task_struct) p;
  set! p ⇝ ts_normal_prio := normal_prio t ;;
  if negb (rt_prio (ts_prio t)) then p ⇝ ts_normal_prio else p ⇝ ts_prio.

(** include/linux/sched.h: task_nice(); kernel/sched/sched.h: the policy tests. *)
Definition task_nice (p : task_struct) : Z := PRIO_TO_NICE (ts_static_prio p).
Definition task_has_idle_policy (p : task_struct) : bool := idle_policy (ts_policy p).
Definition task_has_rt_policy (p : task_struct) : bool := rt_policy (ts_policy p).
Definition task_has_dl_policy (p : task_struct) : bool := dl_policy (ts_policy p).
Definition dl_task (p : task_struct) : bool := dl_prio (ts_prio p).
Definition task_on_rq_queued (p : task_struct) : bool := ts_on_rq p =? TASK_ON_RQ_QUEUED.
Definition task_on_rq_migrating (p : task_struct) : bool := ts_on_rq p =? TASK_ON_RQ_MIGRATING.

Definition task_prio (p : task_struct) : Z := ts_prio p - MAX_RT_PRIO.

Definition task_curr (p : Z) : K bool :=
  c ← p ⇝ ts_cpu;
  curr ← c ⇝ rq_curr;
  mret (curr =? p).

Definition idle_cpu (cpu : Z) : K Z :=
  r ← deref (R := rq) cpu;
  if negb (rq_curr r =? rq_idle r) then mret 0
  else if truthy (rq_nr_running r) then mret 0
  else if truthy (rq_ttwu_pending r) then mret 0
  else mret 1.

(** * Load weight *)
Definition set_load_weight (p : Z) (update_load : bool) : K unit :=
  t ← deref (R := task_struct) p;
  let prio := ts_static_prio t - MAX_RT_PRIO in
  if task_has_idle_policy t then
    upd! p ⇝ ts_se := (fun s => s <| se_weight := scale_load WEIGHT_IDLEPRIO |>
                                  <| se_inv_weight := WMULT_IDLEPRIO |>)
  else if (update_load && class_eqb (ts_class t) fair_sched_class)%bool then
    reweight_task p prio
  else
    w ← table_get sched_prio_to_weight prio;
    iw ← table_get sched_prio_to_wmult prio;
    upd! p ⇝ ts_se := (fun s => s <| se_weight := scale_load w |> <| se_inv_weight := iw |>).

(** * Queueing (with CONFIG_SCHED_CORE unset) *)
Definition enqueue_task (r p flags : Z) : K unit :=
  when (negb (has_flag flags ENQUEUE_NOCLOCK)) (update_rq_clock r) ;;
  when (negb (has_flag flags ENQUEUE_RESTORE))
    (emit "sched_info_enqueue" [r; p] ;; emit "psi_enqueue" [p; Z.land flags ENQUEUE_WAKEUP]) ;;
  uclamp_rq_inc r p ;;
  c ← p ⇝ ts_class;
  cl_enqueue_task c r p flags.

Definition dequeue_task (r p flags : Z) : K unit :=
  when (negb (has_flag flags DEQUEUE_NOCLOCK)) (update_rq_clock r) ;;
  when (negb (has_flag flags DEQUEUE_SAVE))
    (emit "sched_info_dequeue" [r; p] ;; emit "psi_dequeue" [p; Z.land flags DEQUEUE_SLEEP]) ;;
  uclamp_rq_dec r p ;;
  c ← p ⇝ ts_class;
  cl_dequeue_task c r p flags.

Definition activate_task (r p flags : Z) : K unit :=
  enqueue_task r p flags ;;
  set! p ⇝ ts_on_rq := TASK_ON_RQ_QUEUED.

Definition deactivate_task (r p flags : Z) : K unit :=
  set! p ⇝ ts_on_rq := (if has_flag flags DEQUEUE_SLEEP then 0 else TASK_ON_RQ_MIGRATING) ;;
  dequeue_task r p flags.

(** kernel/sched/sched.h: put_prev_task() and set_next_task() call the class of
    the task. *)
Definition put_prev_task (r p : Z) : K unit := c ← p ⇝ ts_class; cl_put_prev_task c r p.
Definition set_next_task (r p : Z) : K unit := c ← p ⇝ ts_class; cl_set_next_task c r p false.

Definition check_class_changed (r p : Z) (prev_class : sched_class) (oldprio : Z) : K unit :=
  t ← deref (R := task_struct) p;
  if negb (class_eqb prev_class (ts_class t)) then
    when (has_switched_from prev_class) (cl_switched_from prev_class r p) ;;
    c ← p ⇝ ts_class;
    cl_switched_to c r p
  else when (negb (oldprio =? ts_prio t) || dl_task t) (cl_prio_changed (ts_class t) r p oldprio).

(** kernel/sched/sched.h: rq_clock_skip_update() requests that the next clock
    update be skipped. *)
Definition rq_clock_skip_update (r : Z) : K unit :=
  upd! r ⇝ rq_clock_update_flags := fun f => Z.lor f RQCF_REQ_SKIP.

Definition check_preempt_curr (r p flags : Z) : K unit :=
  curr ← r ⇝ rq_curr;
  pc ← p ⇝ ts_class;
  cc ← curr ⇝ ts_class;
  (if class_eqb pc cc then cl_check_preempt_curr cc r p flags
   else when (class_rank cc <? class_rank pc) (resched_curr r)) ;;
  curr ← r ⇝ rq_curr;
  t ← deref (R := task_struct) curr;
  when (task_on_rq_queued t && test_tsk_need_resched t) (rq_clock_skip_update r).

(** * Balance callbacks *)
Definition do_balance_callbacks (r : Z) (head : list callback) : K unit :=
  mapM_ (fun func => run_callback func r) head.

Definition splice_balance_callbacks (r : Z) : K (list callback) :=
  head ← r ⇝ rq_balance_callback;
  when (match head with [] => false | _ => true end) (set! r ⇝ rq_balance_callback := []) ;;
  mret head.

Definition __balance_callbacks (r : Z) : K unit :=
  head ← splice_balance_callbacks r;
  do_balance_callbacks r head.

Definition balance_callbacks (r : Z) (head : list callback) : K unit :=
  match head with
  | [] => mret tt
  | _ => do_balance_callbacks r head
  end.

(** * Setting the priority and the class *)
Definition __setscheduler_prio (p prio : Z) : K unit :=
  (if dl_prio prio then set! p ⇝ ts_class := dl_sched_class
   else if rt_prio prio then set! p ⇝ ts_class := rt_sched_class
   else set! p ⇝ ts_class := fair_sched_class) ;;
  set! p ⇝ ts_prio := prio.

Definition __rt_effective_prio (pi_task prio : Z) : K Z :=
  if pi_task =? NULL then mret prio
  else pp ← pi_task ⇝ ts_prio; mret (Z.min prio pp).

Definition rt_effective_prio (p prio : Z) : K Z :=
  pi_task ← rt_mutex_get_top_task p;
  __rt_effective_prio pi_task prio.

(** [p->dl.pi_se] points to the entity whose parameters are inherited; the
    task's own entity is named by the task's address. *)
Definition set_pi_se (p v : Z) : K unit :=
  upd! p ⇝ ts_dl := fun d => d <| dl_pi_se := v |>.

(** The boosting conditions of rt_mutex_setprio(); the result is the queue
    flag.  [pi_task] is only dereferenced where the code does. *)
Definition rt_mutex_boost (p pi_task prio oldprio queue_flag : Z) : K Z :=
  t ← deref (R := task_struct) p;
  if dl_prio prio then
    boost ← (if negb (dl_prio (ts_normal_prio t)) then mret true
             else if pi_task =? NULL then mret false
             else pt ← deref (R := task_struct) pi_task;
                  mret (dl_prio (ts_prio pt) && dl_entity_preempt (ts_dl pt) (ts_dl t))%bool);
    if (boost : bool) then
      d ← pi_task ⇝ ts_dl;
      set_pi_se p (dl_pi_se d) ;;
      mret (Z.lor queue_flag ENQUEUE_REPLENISH)
    else set_pi_se p p ;; mret queue_flag
  else if rt_prio prio then
    when (dl_prio oldprio) (set_pi_se p p) ;;
    mret (if oldprio <? prio then Z.lor queue_flag ENQUEUE_HEAD else queue_flag)
  else
    when (dl_prio oldprio) (set_pi_se p p) ;;
    when (rt_prio oldprio) (set! p ⇝ ts_rt_timeout := 0) ;;
    mret queue_flag.

(** kernel/sched/sched.h: task_current(rq, p) is rq->curr == p. *)
Definition task_current (r p : Z) : K bool := curr ← r ⇝ rq_curr; mret (curr =? p).

Definition rt_mutex_setprio (p pi_task : Z) : K unit :=
  t ← deref (R := task_struct) p;
  prio ← __rt_effective_prio pi_task (ts_normal_prio t);
  if ((ts_pi_top_task t =? pi_task) && (prio =? ts_prio t) && negb (dl_prio prio))%bool then mret tt
  else
    let r := ts_cpu t in
    update_rq_clock r ;;
    set! p ⇝ ts_pi_top_task := pi_task ;;
    t ← deref (R := task_struct) p;
    q ← deref (R := rq) r;
    (if ((prio =? ts_prio t) && negb (dl_prio prio))%bool then mret tt
     else if p =? rq_idle q then
       when (negb (p =? rq_curr q)) (emit "WARN_ON" []) ;;
       when (truthy (ts_pi_blocked_on t)) (emit "WARN_ON" [])
     else
       emit "trace_sched_pi_setprio" [p; pi_task] ;;
       let oldprio := ts_prio t in
       let queue_flag := Z.lor (Z.lor DEQUEUE_SAVE DEQUEUE_MOVE) DEQUEUE_NOCLOCK in
       let queue_flag := if oldprio =? prio then Z.ldiff queue_flag DEQUEUE_MOVE else queue_flag in
       let prev_class := ts_class t in
       let queued := task_on_rq_queued t in
       running ← task_current r p;
       when queued (dequeue_task r p queue_flag) ;;
       when running (put_prev_task r p) ;;
       queue_flag ← rt_mutex_boost p pi_task prio oldprio queue_flag;
       __setscheduler_prio p prio ;;
       when queued (enqueue_task r p queue_flag) ;;
       when running (set_next_task r p) ;;
       check_class_changed r p prev_class oldprio) ;;
    emit "preempt_disable" [] ;;
    __balance_callbacks r ;;
    emit "preempt_enable" [].

(** * Nice values *)
Definition set_user_nice (p nice : Z) : K unit :=
  t ← deref (R := task_struct) p;
  if ((task_nice t =? nice) || (nice <? MIN_NICE) || (MAX_NICE <? nice))%bool then mret tt
  else
    let r := ts_cpu t in
    update_rq_clock r ;;
    t ← deref (R := task_struct) p;
    if (task_has_dl_policy t || task_has_rt_policy t)%bool then
      set! p ⇝ ts_static_prio := NICE_TO_PRIO nice
    else
      let queued := task_on_rq_queued t in
      running ← task_current r p;
      when queued (dequeue_task r p (Z.lor DEQUEUE_SAVE DEQUEUE_NOCLOCK)) ;;
      when running (put_prev_task r p) ;;
      set! p ⇝ ts_static_prio := NICE_TO_PRIO nice ;;
      set_load_weight p true ;;
      old_prio ← p ⇝ ts_prio;
      np ← effective_prio p;
      set! p ⇝ ts_prio := np ;;
      when queued (enqueue_task r p (Z.lor ENQUEUE_RESTORE ENQUEUE_NOCLOCK)) ;;
      when running (set_next_task r p) ;;
      c ← p ⇝ ts_class;
      cl_prio_changed c r p old_prio.

Definition can_nice (p nice : Z) : K bool :=
  let nice_rlim := nice_to_rlimit nice in
  lim ← rlimit_nice p;
  if nice_rlim <=? lim then mret true else capable_sys_nice.

Definition sys_nice (increment : Z) : K (cres unit) :=
  current ← gets m_current;
  t ← deref (R := task_struct) current;
  let increment := clampZ increment (- NICE_WIDTH) NICE_WIDTH in
  let nice := task_nice t + increment in
  let nice := clampZ nice MIN_NICE MAX_NICE in
  ok ← (if increment <? 0 then can_nice current nice else mret true);
  if negb ok then mret (Err EPERM)
  else
    retval ← security_task_setnice current nice;
    match retval with
    | Err e => mret (Err e)
    | Ok _ => set_user_nice current nice ;; mret (Ok tt)
    end.
End Prio.
