(* ===== verification/SchedOK.v ===== *)
(** The well-formedness invariant of the scheduler's objects and the part of
    the contract between core.c and the code outside the repository that is
    about returning: the operations of the classes return on a well-formed
    machine, and the idle class always has a task to run.

    [kernel_ok] is preserved by every operation of core.c that is modelled
    here; the [wp_] lemmas state it together with the frame of the operation. *)
From S2P Require Import Prelude Headers Kernel Extern RqClock Uclamp UclampProofs Prio.

Section KernelOK.
Context {H : Headers} {X : Extern}.

(** [p] is a task whose run queue is that of CPU [c]. *)
Definition task_on (m : machine) (c p : Z) : Prop :=
  exists t, m_tasks m !! p = Some t /\ ts_cpu t = c.

Record kernel_ok (m : machine) : Prop := Mk_kernel_ok {
  ok_null : m_tasks m !! NULL = None;
  ok_rqs : forall c q, m_rqs m !! c = Some q ->
    rq_cpu q = c /\ task_on m c (rq_curr q) /\ task_on m c (rq_idle q);
  ok_tasks : forall p t, m_tasks m !! p = Some t ->
    is_Some (m_rqs m !! ts_cpu t) /\ is_Some (m_tgs m !! ts_task_group t);
  ok_this : is_Some (m_rqs m !! m_this_cpu m);
  ok_uclamp : uclamp_inv m;
  ok_clamps : clamps_wf m;
  ok_active : forall p t, m_tasks m !! p = Some t ->
    uc_active (pc_get UCLAMP_MIN (ts_uclamp t)) = true -> uclamp_enabled (ts_class t) = true;
}.

(** ** The part of the machine [kernel_ok] depends on *)
Definition task_okp (t : task_struct) :=
  (ts_cpu t, ts_task_group t, ts_uclamp t, ts_uclamp_req t, ts_class t).
Definition rq_okp (q : rq) := (rq_cpu q, rq_curr q, rq_idle q, rq_uclamp q, rq_uclamp_flags q).
Definition globals_okp (m : machine) := (m_this_cpu m, m_tgs m, m_uclamp_default m).

Abbreviation ok_frame := (frame task_okp rq_okp globals_okp).

Lemma quiet_ok_frame m m' : quiet_frame m m' -> ok_frame m m'.
Proof.
  apply frame_weaken.
  - intros t t' E. exact (f_equal task_okp E).
  - intros q q' E. unfold rq_okp. unfold rq_quiet, rq_attrs in E. congruence.
  - unfold globals, globals_okp. congruence.
Qed.

Lemma active_fmap ts ts' c id :
  task_okp <$> ts = task_okp <$> ts' -> active_clamps ts c id ≡ₚ active_clamps ts' c id.
Proof.
  intros E. unfold active_clamps.
  set (k := fun x : Z * Z * per_clamp uclamp_se * per_clamp uclamp_se * sched_class =>
    let '(cpu, _, u, _, _) := x in
    if ((cpu =? c) && uc_active (pc_get id u))%bool then [pc_get id u] else []).
  assert (Hk : forall l : gmap Z task_struct,
    flat_map (fun pt => contrib c id pt.2) (map_to_list l) ≡ₚ
    flat_map (fun px => k px.2) (map_to_list (task_okp <$> l))).
  { intros l. rewrite map_to_list_fmap. generalize (map_to_list l) as ll.
    induction ll as [|[? ?] ll IH]; [done|]. cbn in *. by rewrite IH. }
  by rewrite !Hk, E.
Qed.

Lemma uclamp_inv_frame m m' : ok_frame m m' -> uclamp_inv m -> uclamp_inv m'.
Proof.
  intros F [Hrq Hp]. pose proof (F) as (Ft & _ & _).
  assert (F' : ok_frame m' m) by (by symmetry). split.
  - intros c q' Hq'. destruct (frame_rq _ _ _ _ _ _ _ F' Hq') as (q & Hq & E).
    eapply rq_clamps_ok_perm; [intros id; by apply active_fmap|].
    specialize (Hrq c q Hq). unfold rq_okp in E. unfold rq_clamps_ok, uclamp_idle in *.
    assert (rq_uclamp q' = rq_uclamp q) as -> by congruence.
    assert (rq_uclamp_flags q' = rq_uclamp_flags q) as -> by congruence. done.
  - intros p t' Ht'. destruct (frame_task _ _ _ _ _ _ _ F' Ht') as (t & Ht & E).
    unfold paired. unfold task_okp in E. assert (ts_uclamp t' = ts_uclamp t) as -> by congruence.
    by eapply Hp.
Qed.

Lemma clamps_wf_frame m m' : ok_frame m m' -> clamps_wf m -> clamps_wf m'.
Proof.
  intros F (Hreq & Htg & Hd). assert (F' : ok_frame m' m) by (by symmetry).
  assert (Hg : globals_okp m' = globals_okp m) by apply F'. unfold globals_okp in Hg. split; [|split].
  - intros p t' id Ht'. destruct (frame_task _ _ _ _ _ _ _ F' Ht') as (t & Ht & E).
    unfold task_okp in E. assert (ts_uclamp_req t' = ts_uclamp_req t) as -> by congruence. by eapply Hreq.
  - intros a g id. assert (m_tgs m' = m_tgs m) as -> by congruence. apply Htg.
  - intros id. assert (m_uclamp_default m' = m_uclamp_default m) as -> by congruence. apply Hd.
Qed.

Lemma task_on_frame m m' c p : ok_frame m m' -> task_on m c p -> task_on m' c p.
Proof.
  intros F (t & Ht & Hc). destruct (frame_task _ _ _ _ _ _ _ F Ht) as (t' & Ht' & E).
  exists t'. unfold task_okp in E. split; [done | congruence].
Qed.

Lemma kernel_ok_frame m m' : ok_frame m m' -> kernel_ok m -> kernel_ok m'.
Proof.
  intros F [Hn Hr Ht Hth Hu Hc Ha]. assert (F' : ok_frame m' m) by (by symmetry).
  assert (Hg : globals_okp m' = globals_okp m) by apply F'. unfold globals_okp in Hg.
  assert (Hrq : forall c, is_Some (m_rqs m !! c) -> is_Some (m_rqs m' !! c)).
  { intros c [q Hq]. destruct (frame_rq _ _ _ _ _ _ _ F Hq) as (q' & ? & _). by eexists. }
  split; [| | | | by eapply uclamp_inv_frame | by eapply clamps_wf_frame |].
  - destruct (m_tasks m' !! NULL) eqn:E; [|done].
    destruct (frame_task _ _ _ _ _ _ _ F' E) as (? & ? & _). congruence.
  - intros c q' Hq'. destruct (frame_rq _ _ _ _ _ _ _ F' Hq') as (q & Hq & E).
    destruct (Hr c q Hq) as (Hcpu & Hcurr & Hidle). unfold rq_okp in E.
    assert (rq_curr q' = rq_curr q) as -> by congruence.
    assert (rq_idle q' = rq_idle q) as -> by congruence.
    split; [congruence|]. split; by eapply task_on_frame.
  - intros p t' Ht'. destruct (frame_task _ _ _ _ _ _ _ F' Ht') as (t & Htt & E).
    destruct (Ht p t Htt) as [Hcpu Htg]. unfold task_okp in E.
    assert (ts_cpu t' = ts_cpu t) as -> by congruence.
    assert (ts_task_group t' = ts_task_group t) as -> by congruence.
    assert (m_tgs m' = m_tgs m) as -> by congruence. auto.
  - assert (m_this_cpu m' = m_this_cpu m) as -> by congruence. auto.
  - intros p t' Ht'. destruct (frame_task _ _ _ _ _ _ _ F' Ht') as (t & Htt & E). unfold task_okp in E.
    assert (ts_class t' = ts_class t) as -> by congruence.
    assert (ts_uclamp t' = ts_uclamp t) as -> by congruence. by eapply Ha.
Qed.
End KernelOK.

Abbreviation ok_frame := (frame task_okp rq_okp globals_okp).

(** ** What enqueueing and dequeueing may change besides: the clamp accounting *)
Abbreviation queue_frame := (frame task_queue rq_attrs globals).

Lemma quiet_queue_frame m m' : quiet_frame m m' -> queue_frame m m'.
Proof.
  apply frame_weaken; [| |done].
  - intros t t' E. exact (f_equal no_clamps E).
  - intros r r' E. unfold rq_quiet in E. congruence.
Qed.

Lemma queue_class_frame m m' : queue_frame m m' -> class_frame m m'.
Proof.
  apply frame_weaken; [|done|done]. intros t t' E. exact (f_equal no_place E).
Qed.

Lemma quiet_queue_preserves {A} (c : K A) : preserves quiet_frame c -> preserves queue_frame c.
Proof. intros Hc m a m' E. apply quiet_queue_frame. by eapply Hc. Qed.

Lemma queue_preserves {A} (c : K A) : preserves queue_frame c -> preserves class_frame c.
Proof. intros Hc m a m' E. apply queue_class_frame. by eapply Hc. Qed.

#[export] Hint Extern 2 (preserves (frame task_queue _ _) _) =>
  apply quiet_queue_preserves; solve [eauto 2 with preserve] : preserve.
#[export] Hint Extern 3 (preserves (frame task_attrs _ _) _) =>
  apply queue_preserves; solve [eauto 2 with preserve] : preserve.

(** * What core.c relies on: operations return *)
Definition live (m : machine) (r p : Z) : Prop :=
  is_Some (m_rqs m !! r) /\ is_Some (m_tasks m !! p).

Section Safe.
Context {H : Headers}.

Class ExternSafe (X : Extern) : Prop := {
  enqueue_returns c r p f m : kernel_ok m -> live m r p -> returns (cl_enqueue_task c r p f) m;
  dequeue_returns c r p f m : kernel_ok m -> live m r p -> returns (cl_dequeue_task c r p f) m;
  check_preempt_returns c r p f m : kernel_ok m -> live m r p -> returns (cl_check_preempt_curr c r p f) m;
  put_prev_returns c r p m : kernel_ok m -> live m r p -> returns (cl_put_prev_task c r p) m;
  set_next_returns c r p b m : kernel_ok m -> live m r p -> returns (cl_set_next_task c r p b) m;
  switched_from_returns c r p m : kernel_ok m -> live m r p -> returns (cl_switched_from c r p) m;
  switched_to_returns c r p m : kernel_ok m -> live m r p -> returns (cl_switched_to c r p) m;
  prio_changed_returns c r p o m : kernel_ok m -> live m r p -> returns (cl_prio_changed c r p o) m;
  task_dead_returns c p m : kernel_ok m -> is_Some (m_tasks m !! p) -> returns (cl_task_dead c p) m;
  set_cpus_allowed_returns c p k f m :
    kernel_ok m -> is_Some (m_tasks m !! p) -> returns (cl_set_cpus_allowed_priv c p k f) m;
  reweight_returns p prio m : kernel_ok m -> is_Some (m_tasks m !! p) -> returns (reweight_task p prio) m;
  clock_returns c m : kernel_ok m -> returns (sched_clock_cpu c) m;
  irq_time_returns c m : kernel_ok m -> returns (irq_time_read c) m;
  steal_returns c m : kernel_ok m -> returns (paravirt_steal_clock c) m;
  signal_returns s p m : kernel_ok m -> is_Some (m_tasks m !! p) -> returns (signal_pending_state s p) m;
  top_task_returns p m : kernel_ok m -> is_Some (m_tasks m !! p) -> returns (rt_mutex_get_top_task p) m;
  pick_returns c r m : kernel_ok m -> is_Some (m_rqs m !! r) ->
    wp (cl_pick_next_task c r) (fun p m' => p = NULL \/ task_on m' r p) m;
  pick_idle r m : kernel_ok m -> is_Some (m_rqs m !! r) ->
    wp (cl_pick_next_task idle_sched_class r) (fun p _ => p <> NULL) m;
  balance_safe c r p m : kernel_ok m -> live m r p ->
    wp (cl_balance c r p) (fun _ m' => kernel_ok m') m;
  pick_fair_safe r p m : kernel_ok m -> live m r p ->
    wp (pick_next_task_fair r p)
       (fun q m' => kernel_ok m' /\ (q = RETRY_TASK \/ q = NULL \/ task_on m' r q)) m;
  callback_safe b r m : kernel_ok m -> is_Some (m_rqs m !! r) ->
    wp (run_callback b r) (fun _ m' => kernel_ok m') m;
}.
End Safe.

(** * Operations on a well-formed machine *)
Section Rules.
Context {H : Headers} {X : Extern} {HOK : HeadersOK H} {XOK : ExternOK X} {XS : ExternSafe X}.

Lemma kernel_ok_quiet m m' : quiet_frame m m' -> kernel_ok m -> kernel_ok m'.
Proof. intros F. apply kernel_ok_frame. by apply quiet_ok_frame. Qed.

Lemma wp_quiet {A} (c : K A) m Q :
  kernel_ok m -> returns c m -> preserves quiet_frame c ->
  (forall a m', kernel_ok m' -> quiet_frame m m' -> Q a m') -> wp c Q m.
Proof.
  intros Hok Hr Hp HQ. eapply wp_call; [exact Hr | exact Hp |].
  intros a m' _ F. apply HQ; [by eapply kernel_ok_quiet | done].
Qed.

Lemma live_frame {A B C} (pt : task_struct -> A) (pr : rq -> B) (pg : machine -> C) m m' r p :
  frame pt pr pg m m' -> live m r p -> live m' r p.
Proof.
  intros F [[q Hq] [t Ht]].
  destruct (frame_rq _ _ _ _ _ _ _ F Hq) as (? & ? & _).
  destruct (frame_task _ _ _ _ _ _ _ F Ht) as (? & ? & _). by split; eexists.
Qed.

Lemma task_on_live m r p : kernel_ok m -> task_on m r p -> live m r p.
Proof.
  intros Hok (t & Ht & <-). destruct (ok_tasks m Hok p t Ht). split; [done | by eexists].
Qed.

(** Core.c's own writes outside what [kernel_ok] depends on. *)
Lemma kernel_ok_task m p t t' :
  kernel_ok m -> m_tasks m !! p = Some t -> task_okp t' = task_okp t ->
  kernel_ok (m <| m_tasks := <[p := t']> (m_tasks m) |>).
Proof. intros Hok Ht E. eapply kernel_ok_frame; [by apply frame_set_task with t | done]. Qed.

Lemma kernel_ok_rq m r q q' :
  kernel_ok m -> m_rqs m !! r = Some q -> rq_okp q' = rq_okp q ->
  kernel_ok (m <| m_rqs := <[r := q']> (m_rqs m) |>).
Proof. intros Hok Hq E. eapply kernel_ok_frame; [by apply frame_set_rq with q | done]. Qed.

Lemma quiet_upd_rq_returns r g m Q :
  kernel_ok m -> is_Some (m_rqs m !! r) -> (forall x, rq_quiet (g x) = rq_quiet x) ->
  (forall m', kernel_ok m' -> quiet_frame m m' -> Q tt m') -> wp (upd_obj (R := rq) r g) Q m.
Proof.
  intros Hok [q Hq] Hg HQ. apply wp_upd_obj. exists q. split; [done|].
  assert (F : quiet_frame m (m <| m_rqs := <[r := g q]> (m_rqs m) |>))
    by (apply frame_set_rq with q; [done | by rewrite Hg | done]).
  apply HQ; [by eapply kernel_ok_quiet | done].
Qed.

(** ** Clocks *)
Lemma clock_task_returns r d m :
  kernel_ok m -> is_Some (m_rqs m !! r) -> returns (update_rq_clock_task r d) m.
Proof.
  intros Hok [q Hq]. unfold returns, update_rq_clock_task. wp_go.
  apply wp_quiet; [done | by apply irq_time_returns | auto with preserve |].
  intros irq m1 Hok1 F1. destruct (frame_rq _ _ _ _ _ _ _ F1 Hq) as (q1 & Hq1 & _). wp_go.
  assert (Hend : forall b n1 a1 n2 a2 m2,
    if (b : bool) then wp (emit n1 a1) (fun _ => wp (emit n2 a2) (fun _ _ => True)) m2
    else wp (emit n2 a2) (fun _ _ => True) m2) by (by intros []).
  destruct paravirt_steal_rq_enabled; wp_go; [|apply Hend].
  assert (Hok2 : kernel_ok (m1 <| m_rqs := <[r := q1 <| rq_prev_irq_time := u64 (rq_prev_irq_time q1 +
    (if d <? s64 (irq - rq_prev_irq_time q1) then d else s64 (irq - rq_prev_irq_time q1))) |> ]> (m_rqs m1) |>))
    by (by eapply kernel_ok_rq; [| exact Hq1 |]).
  apply wp_quiet; [exact Hok2 | by apply steal_returns | auto with preserve |].
  intros st m2 Hok3 F2. eapply frame_rq in F2; [|cbn; apply lookup_insert_eq].
  destruct F2 as (q2 & Hq2 & _). wp_go. apply Hend.
Qed.

Lemma clock_update_returns r m :
  kernel_ok m -> is_Some (m_rqs m !! r) -> returns (update_rq_clock r) m.
Proof.
  intros Hok [q Hq]. unfold returns, update_rq_clock. wp_go.
  case_match; wp_go; [done|].
  assert (Hmain : forall m1, kernel_ok m1 -> m_rqs m1 !! r = Some q ->
    returns (set! r ⇝ rq_clock_update_flags := Z.lor (rq_clock_update_flags q) RQCF_UPDATED ;;
        cpu ← r ⇝ rq_cpu; now ← sched_clock_cpu cpu; clock ← r ⇝ rq_clock;
        let delta := s64 (now - clock) in
        if delta <? 0 then mret tt
        else set! r ⇝ rq_clock := u64 (clock + delta) ;; update_rq_clock_task r delta) m1).
  { intros m1 Hok1 Hq1. unfold returns. wp_go.
    assert (Hok2 : kernel_ok (m1 <| m_rqs := <[r := q <| rq_clock_update_flags :=
      Z.lor (rq_clock_update_flags q) RQCF_UPDATED |> ]> (m_rqs m1) |>))
      by (by eapply kernel_ok_rq; [| exact Hq1 |]).
    apply wp_quiet; [exact Hok2 | by apply clock_returns | auto with preserve |].
    intros now m3 Hok3 F3. eapply frame_rq in F3; [|cbn; apply lookup_insert_eq].
    destruct F3 as (q3 & Hq3 & _). wp_go. case_match; wp_go; [done|].
    apply clock_task_returns; [by eapply kernel_ok_rq; [| exact Hq3 |]|].
    cbn. rewrite lookup_insert_eq. by eexists. }
  case_match; [|by apply Hmain]. apply wp_emit. apply Hmain; [|done].
  by eapply kernel_ok_frame; [|exact Hok].
Qed.

Lemma wp_update_rq_clock r m Q :
  kernel_ok m -> is_Some (m_rqs m !! r) ->
  (forall m', kernel_ok m' -> quiet_frame m m' -> Q tt m') -> wp (update_rq_clock r) Q m.
Proof.
  intros Hok Hr HQ. apply wp_quiet; [done | by apply clock_update_returns | auto with preserve |].
  intros []. apply HQ.
Qed.

(** ** Clamp accounting *)
Lemma frame_uclamp_dec_id r p id : preserves queue_frame (uclamp_rq_dec_id r p id).
Proof.
  unfold uclamp_rq_dec_id, rd_bucket, wr_bucket, upd_uclamp, upd_rq_uclamp,
    uclamp_rq_max_value, uclamp_idle_value. framed.
Qed.

Lemma frame_uclamp_inc_id r p id : preserves queue_frame (uclamp_rq_inc_id r p id).
Proof.
  unfold uclamp_rq_inc_id, uclamp_eff_get, uclamp_tg_restrict, rd_bucket, wr_bucket, upd_uclamp,
    upd_rq_uclamp, uclamp_idle_reset. framed.
Qed.

#[local] Hint Resolve frame_uclamp_dec_id frame_uclamp_inc_id : preserve.

Lemma frame_uclamp_rq_dec r p : preserves queue_frame (uclamp_rq_dec r p).
Proof. unfold uclamp_rq_dec. keep. Qed.

Lemma frame_uclamp_rq_inc r p : preserves queue_frame (uclamp_rq_inc r p).
Proof. unfold uclamp_rq_inc, clear_idle_flag. framed. Qed.

(** After a change of the clamp accounting of [p] the machine is well formed
    if the buckets are and [p] is only accounted when its class asks for it. *)
Lemma kernel_ok_accounted m p t b m' :
  kernel_ok m -> m_tasks m !! p = Some t -> queue_frame m m' -> uclamp_inv m' ->
  accounted m p t b m' -> (b = true -> uclamp_enabled (ts_class t) = true) -> kernel_ok m'.
Proof.
  intros [Hn Hr Ht Hth _ Hc Ha] Hp F Hu (u & Hts & Hb) Hen.
  assert (Hlook : forall p' t', m_tasks m' !! p' = Some t' -> exists t0,
    m_tasks m !! p' = Some t0 /\ task_okp (t0 <| ts_uclamp := ts_uclamp t' |>) = task_okp t').
  { intros p' t'. rewrite Hts, lookup_insert. case_decide as E.
    - subst p'. intros [= <-]. by exists t.
    - intros Hp'. exists t'. split; [done|]. by destruct t'. }
  assert (Hon : forall c p', task_on m c p' -> task_on m' c p').
  { intros c p' (t0 & Ht0 & Hc0). unfold task_on. rewrite Hts, lookup_insert. case_decide as E.
    - subst p'. eexists; split; [done|]. cbn. congruence.
    - by exists t0. }
  assert (Hg : globals m' = globals m) by (symmetry; apply F). unfold globals in Hg.
  assert (Etg : m_tgs m' = m_tgs m) by congruence.
  assert (Hrq : forall c, is_Some (m_rqs m !! c) -> is_Some (m_rqs m' !! c)).
  { intros c [q Hq]. destruct (frame_rq _ _ _ _ _ _ _ F Hq) as (q' & ? & _). by eexists. }
  split.
  - rewrite Hts, lookup_insert_ne; [done|]. intros ->. congruence.
  - intros c q' Hq'. assert (F' : queue_frame m' m) by (by symmetry).
    destruct (frame_rq _ _ _ _ _ _ _ F' Hq') as (q & Hq & E). unfold rq_attrs in E.
    destruct (Hr c q Hq) as (? & ? & ?).
    assert (rq_curr q' = rq_curr q) as -> by congruence.
    assert (rq_idle q' = rq_idle q) as -> by congruence. split; [congruence | auto].
  - intros p' t' Hp'. destruct (Hlook p' t' Hp') as (t0 & Ht0 & E). unfold task_okp in E; cbn in E.
    destruct (Ht p' t0 Ht0). rewrite Etg.
    assert (ts_cpu t' = ts_cpu t0) as -> by congruence.
    assert (ts_task_group t' = ts_task_group t0) as -> by congruence. auto.
  - assert (m_this_cpu m' = m_this_cpu m) as -> by congruence. auto.
  - done.
  - destruct Hc as (Hreq & Htg & Hd). split; [|split].
    + intros p' t' id Hp'. destruct (Hlook p' t' Hp') as (t0 & Ht0 & E). unfold task_okp in E; cbn in E.
      assert (ts_uclamp_req t' = ts_uclamp_req t0) as -> by congruence. by eapply Hreq.
    + rewrite Etg. apply Htg.
    + assert (m_uclamp_default m' = m_uclamp_default m) as -> by congruence. apply Hd.
  - intros p' t'. rewrite Hts, lookup_insert. case_decide as E; [|by apply Ha].
    intros [= <-]. cbn. intros Hact. apply Hen. by rewrite <- Hb.
Qed.

(** [p] is not accounted in the buckets of its run queue. *)
Definition clamp_off (m : machine) (p : Z) : Prop :=
  m_uclamp_used m = true ->
  forall t, m_tasks m !! p = Some t -> uc_active (pc_get UCLAMP_MIN (ts_uclamp t)) = false.

Lemma clamp_off_quiet m m' p : quiet_frame m m' -> clamp_off m p -> clamp_off m' p.
Proof.
  intros F Hoff Hu t' Ht'. assert (F' : quiet_frame m' m) by (by symmetry).
  destruct (frame_task _ _ _ _ _ _ _ F' Ht') as (t & Ht & E).
  assert (Eu : ts_uclamp t' = ts_uclamp t) by exact (f_equal ts_uclamp E). rewrite Eu.
  apply Hoff; [|done]. assert (Eg : globals m' = globals m) by apply F'. unfold globals in Eg. congruence.
Qed.

Lemma wp_uclamp_dec r p m Q :
  kernel_ok m -> task_on m r p ->
  (forall m', kernel_ok m' -> queue_frame m m' -> clamp_off m' p -> Q tt m') ->
  wp (uclamp_rq_dec r p) Q m.
Proof.
  intros Hok (t & Ht & Hc) HQ. destruct (ok_tasks m Hok p t Ht) as [[q Hq] _]. rewrite Hc in Hq.
  eapply wp_call; [eapply wp_uclamp_rq_dec; [apply Hok | done..] | apply frame_uclamp_rq_dec |].
  intros [] m' (Hinv & Hacc) F.
  assert (Hen : forall b, (negb (uclamp_acts m t) && b)%bool = true -> m_uclamp_used m = true ->
    uclamp_enabled (ts_class t) = false).
  { unfold uclamp_acts. intros b Hb Hu. rewrite Hu in Hb. by destruct (uclamp_enabled (ts_class t)). }
  apply HQ; [|done|].
  - eapply kernel_ok_accounted; [done.. |]. intros Hb. apply andb_prop in Hb as [_ Hb].
    by apply (ok_active m Hok p t).
  - intros Hu t' Ht'. destruct Hacc as (u & Hts & Hb).
    rewrite Hts, lookup_insert_eq in Ht'. injection Ht' as <-. cbn in *. rewrite Hb.
    assert (Eg : globals m = globals m') by apply F. unfold globals in Eg.
    apply not_true_is_false. intros Htrue. pose proof (Hen _ Htrue ltac:(congruence)).
    apply andb_prop in Htrue as [_ Hact]. pose proof (ok_active m Hok p t Ht Hact). congruence.
Qed.

Lemma wp_uclamp_inc r p m Q :
  kernel_ok m -> task_on m r p -> clamp_off m p ->
  (forall m', kernel_ok m' -> queue_frame m m' -> Q tt m') -> wp (uclamp_rq_inc r p) Q m.
Proof.
  intros Hok (t & Ht & Hc) Hoff HQ. destruct (m_uclamp_used m) eqn:Hu.
  2:{ unfold uclamp_rq_inc. kgo. rewrite Hu. cbn. by apply HQ. }
  destruct (ok_tasks m Hok p t Ht) as [[q Hq] [g Hg]]. rewrite Hc in Hq.
  eapply wp_call; [eapply wp_uclamp_rq_inc; [apply Hok | apply Hok | done.. | by apply Hoff]
    | apply frame_uclamp_rq_inc |].
  intros [] m' (Hinv & Hacc) F. apply HQ; [|done].
  eapply kernel_ok_accounted; [done..|]. unfold uclamp_acts. by intros [_ ?]%andb_prop.
Qed.

(** ** Queueing *)
Lemma task_on_queue m m' r p : queue_frame m m' -> task_on m r p -> task_on m' r p.
Proof.
  intros F (t & Ht & Hc). destruct (frame_task _ _ _ _ _ _ _ F Ht) as (t' & Ht' & E).
  exists t'. split; [done|]. pose proof (f_equal ts_cpu E) as E'. cbn in E'. congruence.
Qed.

Lemma task_on_quiet m m' r p : quiet_frame m m' -> task_on m r p -> task_on m' r p.
Proof. intros F. apply task_on_queue. by apply quiet_queue_frame. Qed.

Lemma wp_emit_quiet n a m Q :
  kernel_ok m -> (forall m', kernel_ok m' -> quiet_frame m m' -> Q tt m') -> wp (emit n a) Q m.
Proof. intros Hok HQ. apply wp_quiet; [done | done | auto with preserve |]. intros []. apply HQ. Qed.

(** The optional clock update and accounting calls at the head of both. *)
Lemma wp_queue_head (b1 b2 : bool) r n1 a1 n2 a2 {A} (k : K A) m Q :
  kernel_ok m -> is_Some (m_rqs m !! r) ->
  (forall m', kernel_ok m' -> quiet_frame m m' -> wp k Q m') ->
  wp (when b1 (update_rq_clock r) ;; when b2 (emit n1 a1 ;; emit n2 a2) ;; k) Q m.
Proof.
  intros Hok Hr HQ. apply wp_bind, wp_when.
  assert (Hk : forall m', kernel_ok m' -> quiet_frame m m' ->
    wp (when b2 (emit n1 a1 ;; emit n2 a2) ;; k) Q m').
  { intros m' Hok' F. apply wp_bind, wp_when. destruct b2; [|by apply HQ].
    apply wp_bind, wp_emit_quiet; [done|]. intros m1 Hok1 F1. apply wp_emit_quiet; [done|].
    intros m2 Hok2 F2. apply HQ; [done|]. by do 2 (etransitivity; [eassumption|]). }
  destruct b1; [by apply wp_update_rq_clock | by apply Hk].
Qed.

Lemma wp_dequeue_task r p flags m Q :
  kernel_ok m -> task_on m r p ->
  (forall m', kernel_ok m' -> queue_frame m m' -> clamp_off m' p -> Q tt m') ->
  wp (dequeue_task r p flags) Q m.
Proof.
  intros Hok Hon HQ. unfold dequeue_task.
  apply wp_queue_head; [done | by apply (task_on_live m r p) |]. intros m1 Hok1 F1.
  pose proof (task_on_quiet _ _ _ _ F1 Hon) as Hon1.
  apply wp_bind, wp_uclamp_dec; [done..|]. intros m2 Hok2 F2 Hoff.
  pose proof (task_on_queue _ _ _ _ F2 Hon1) as Hon2. destruct (Hon2) as (t & Ht & _). wp_go.
  apply wp_quiet; [done | by apply dequeue_returns, task_on_live | auto with preserve |].
  intros [] m3 Hok3 F3. apply HQ; [done | | by eapply clamp_off_quiet].
  etransitivity; [by apply quiet_queue_frame | etransitivity; [exact F2 | by apply quiet_queue_frame]].
Qed.

Lemma wp_enqueue_task r p flags m Q :
  kernel_ok m -> task_on m r p -> clamp_off m p ->
  (forall m', kernel_ok m' -> queue_frame m m' -> Q tt m') -> wp (enqueue_task r p flags) Q m.
Proof.
  intros Hok Hon Hoff HQ. unfold enqueue_task.
  apply wp_queue_head; [done | by apply (task_on_live m r p) |]. intros m1 Hok1 F1.
  pose proof (task_on_quiet _ _ _ _ F1 Hon) as Hon1. pose proof (clamp_off_quiet _ _ _ F1 Hoff) as Hoff1.
  apply wp_bind, wp_uclamp_inc; [done..|]. intros m2 Hok2 F2.
  pose proof (task_on_queue _ _ _ _ F2 Hon1) as Hon2. destruct (Hon2) as (t & Ht & _). wp_go.
  apply wp_quiet; [done | by apply enqueue_returns, task_on_live | auto with preserve |].
  intros [] m3 Hok3 F3. apply HQ; [done|].
  etransitivity; [by apply quiet_queue_frame | etransitivity; [exact F2 | by apply quiet_queue_frame]].
Qed.

Lemma wp_put_prev_task r p m Q :
  kernel_ok m -> live m r p ->
  (forall m', kernel_ok m' -> quiet_frame m m' -> Q tt m') -> wp (put_prev_task r p) Q m.
Proof.
  intros Hok Hl HQ. unfold put_prev_task. destruct (Hl) as [_ [t Ht]]. wp_go.
  apply wp_quiet; [done | by apply put_prev_returns | auto with preserve |]. intros []. apply HQ.
Qed.

Lemma wp_set_next_task r p m Q :
  kernel_ok m -> live m r p ->
  (forall m', kernel_ok m' -> quiet_frame m m' -> Q tt m') -> wp (set_next_task r p) Q m.
Proof.
  intros Hok Hl HQ. unfold set_next_task. destruct (Hl) as [_ [t Ht]]. wp_go.
  apply wp_quiet; [done | by apply set_next_returns | auto with preserve |]. intros []. apply HQ.
Qed.

(** Take the task off its queue and its CPU where needed, and back. *)
Lemma wp_unqueue (queued running : bool) r p f {A} (k : K A) m Q :
  kernel_ok m -> task_on m r p ->
  (forall m1, kernel_ok m1 -> queue_frame m m1 -> task_on m1 r p ->
    (queued = true -> clamp_off m1 p) -> wp k Q m1) ->
  wp (when queued (dequeue_task r p f) ;; when running (put_prev_task r p) ;; k) Q m.
Proof.
  intros Hok Hon Hk. apply wp_bind, wp_when.
  assert (Hmain : forall m0, kernel_ok m0 -> queue_frame m m0 -> (queued = true -> clamp_off m0 p) ->
    wp (when running (put_prev_task r p) ;; k) Q m0).
  { intros m0 Hok0 F0 Hoff0. pose proof (task_on_queue _ _ _ _ F0 Hon) as Hon0.
    apply wp_bind, wp_when. destruct running; [|by apply Hk].
    apply wp_put_prev_task; [done | by apply task_on_live |]. intros m1 Hok1 F1.
    apply Hk; [done | etransitivity; [exact F0 | by apply quiet_queue_frame] | by eapply task_on_quiet |].
    intros Hq. eapply clamp_off_quiet; [exact F1 | auto]. }
  destruct queued; [|by apply Hmain].
  apply wp_dequeue_task; [done | done |]. intros. by apply Hmain.
Qed.

Lemma wp_queue_back (queued running : bool) r p f {A} (k : K A) m Q :
  kernel_ok m -> task_on m r p -> (queued = true -> clamp_off m p) ->
  (forall m1, kernel_ok m1 -> queue_frame m m1 -> task_on m1 r p -> wp k Q m1) ->
  wp (when queued (enqueue_task r p f) ;; when running (set_next_task r p) ;; k) Q m.
Proof.
  intros Hok Hon Hoff Hk. apply wp_bind, wp_when.
  assert (Hmain : forall m0, kernel_ok m0 -> queue_frame m m0 ->
    wp (when running (set_next_task r p) ;; k) Q m0).
  { intros m0 Hok0 F0. pose proof (task_on_queue _ _ _ _ F0 Hon) as Hon0.
    apply wp_bind, wp_when. destruct running; [|by apply Hk].
    apply wp_set_next_task; [done | by apply task_on_live |]. intros m1 Hok1 F1.
    apply Hk; [done | etransitivity; [exact F0 | by apply quiet_queue_frame] | by eapply task_on_quiet]. }
  destruct queued; [|by apply Hmain].
  apply wp_enqueue_task; [done | done | auto |]. intros. by apply Hmain.
Qed.

Lemma wp_deactivate_task r p flags m Q :
  kernel_ok m -> task_on m r p ->
  (forall m', kernel_ok m' -> class_frame m m' -> task_on m' r p -> clamp_off m' p -> Q tt m') ->
  wp (deactivate_task r p flags) Q m.
Proof.
  intros Hok Hon HQ. unfold deactivate_task. destruct (Hon) as (t & Ht & Hc). wp_go.
  set (v := if has_flag flags DEQUEUE_SLEEP then 0 else TASK_ON_RQ_MIGRATING).
  pose (m1 := m <| m_tasks := <[p := t <| ts_on_rq := v |>]> (m_tasks m) |>).
  assert (Hok1 : kernel_ok m1) by (by eapply kernel_ok_task; [| exact Ht |]).
  assert (F1 : class_frame m m1) by (by apply frame_set_task with t).
  assert (Hon1 : task_on m1 r p) by (eexists; split; [apply lookup_insert_eq | done]).
  apply (wp_dequeue_task r p flags m1); [done | done |]. intros m2 Hok2 F2 Hoff.
  apply HQ; [done | | by eapply task_on_queue | done].
  etransitivity; [exact F1 | by apply queue_class_frame].
Qed.

(** ** Balance callbacks *)
Lemma wp_run_callbacks r head m (Q : unit -> machine -> Prop) :
  kernel_ok m -> is_Some (m_rqs m !! r) ->
  (forall m', kernel_ok m' -> class_frame m m' -> Q tt m') -> wp (do_balance_callbacks r head) Q m.
Proof.
  unfold do_balance_callbacks. revert m.
  induction head as [|func head IH]; intros m Hok Hr HQ; cbn; [by apply wp_ret, HQ|].
  apply wp_bind. eapply wp_call; [by apply callback_safe | auto with preserve |].
  intros [] m1 Hok1 F1. apply IH; [done | |].
  - destruct Hr as [q Hq]. destruct (frame_rq _ _ _ _ _ _ _ F1 Hq) as (? & ? & _). by eexists.
  - intros m2 Hok2 F2. apply HQ; [done|]. by etransitivity.
Qed.

Lemma wp_balance_callbacks r m Q :
  kernel_ok m -> is_Some (m_rqs m !! r) ->
  (forall m', kernel_ok m' -> class_frame m m' -> Q tt m') -> wp (__balance_callbacks r) Q m.
Proof.
  intros Hok [q Hq] HQ. unfold __balance_callbacks, splice_balance_callbacks. wp_go.
  destruct (rq_balance_callback q) eqn:E; wp_go.
  - apply wp_run_callbacks; [done | by eexists | done].
  - pose (m1 := m <| m_rqs := <[r := q <| rq_balance_callback := [] |>]> (m_rqs m) |>).
    assert (F1 : class_frame m m1) by (by apply frame_set_rq with q).
    apply (wp_run_callbacks r _ m1); [by eapply kernel_ok_rq; [| exact Hq |] | |].
    + cbn. rewrite lookup_insert_eq. by eexists.
    + intros m' Hok' F'. apply HQ; [done | by etransitivity].
Qed.
End Rules.

(** * The first-come first-served instance is safe *)
Section DemoSafe.
Context {H : Headers}.

Lemma quiet_kernel_ok {X : Extern} m m' : quiet_frame m m' -> kernel_ok m -> kernel_ok m'.
Proof. intros F. apply kernel_ok_frame. by apply quiet_ok_frame. Qed.

Lemma demo_pick_spec c r m :
  kernel_ok (X := Demo.extern) m -> is_Some (m_rqs m !! r) ->
  wp (Demo.pick c r)
     (fun p m' => (p = NULL /\ c <> idle_sched_class) \/ (p <> NULL /\ task_on m' r p)) m.
Proof.
  intros Hok [q Hq]. unfold Demo.pick. wp_go.
  assert (Hnn : forall p, task_on m r p -> p <> NULL).
  { intros p (t & Ht & _) ->. rewrite (ok_null m Hok) in Ht. done. }
  case_match eqn:E.
  - right. apply find_some in E as [_ E]. case_match eqn:Ht; [|done].
    apply andb_prop in E as [_ E]. assert (Hon : task_on m r z) by (eexists; split; [done | lia]).
    split; [by apply Hnn | done].
  - destruct (class_eqb c idle_sched_class) eqn:Ec.
    + right. destruct (ok_rqs m Hok r q Hq) as (_ & _ & Hi). split; [by apply Hnn | done].
    + left. split; [done|]. intros ->. by cbv in Ec.
Qed.

Lemma demo_put_prev_returns c r p m : is_Some (m_rqs m !! r) -> returns (Demo.put_prev c r p) m.
Proof. intros [q Hq]. unfold returns, Demo.put_prev. wp_go. case_match; by wp_go. Qed.

#[export] Instance demo_safe : ExternSafe Demo.extern.
Proof.
  split; intros; cbn; try (by apply wp_ret);
    try match goal with Hl : live _ _ _ |- _ => destruct Hl as [[??] [??]] end;
    try match goal with Hl : is_Some (m_tasks _ !! _) |- _ => destruct Hl as [??] end;
    try (by (unfold returns, Demo.enqueue, Demo.dequeue, Demo.reweight, Demo.top_task; wp_go)).
  - apply demo_put_prev_returns. by eexists.
  - eapply wp_mono; [by apply demo_pick_spec|]. cbn. naive_solver.
  - eapply wp_mono; [by apply demo_pick_spec|]. cbn. naive_solver.
  - apply wp_bind. eapply wp_call; [apply demo_put_prev_returns; by eexists | apply Demo.demo_put_prev_frame |].
    intros [] m1 _ F1. assert (kernel_ok m1) by (by eapply quiet_kernel_ok).
    eapply wp_call; [apply demo_pick_spec; [done|] | apply Demo.demo_pick_frame |].
    + by eapply frame_rq in F1 as (? & ? & _); [eexists|].
    + intros p' m' Hp F2. split; [by eapply quiet_kernel_ok|]. naive_solver.
Qed.
End DemoSafe.
