(* ===== verification/Mm.v ===== *)
(** The reference counts of address spaces (fork.c): [mm_users] counts the
    tasks that run in the address space, [mm_count] the references to the
    structure itself, of which all users together hold one and every kernel
    thread that borrows the address space lazily holds another. *)
From S2P Require Import Prelude Headers Kernel.

(** include/linux/sched/mm.h *)
Definition mmgrab (mm : Z) : K unit := upd! mm ⇝ mm_count := fun c => c + 1.
Definition mmget (mm : Z) : K unit := upd! mm ⇝ mm_users := fun c => c + 1.

(** The debugging checks of check_mm() concern counters that are not modelled. *)
Definition __mmdrop (mm : Z) : K unit :=
  init_mm ← gets m_init_mm;
  if mm =? init_mm then stuck BUG
  else
    current ← gets m_current;
    t ← deref (R := task_struct) current;
    when (mm =? ts_mm t) (emit "WARN_ON_ONCE" [mm]) ;;
    when (mm =? ts_active_mm t) (emit "WARN_ON_ONCE" [mm]) ;;
    emit "mm_free_pgd" [mm] ;;
    emit "destroy_context" [mm] ;;
    emit "mmu_notifier_subscriptions_destroy" [mm] ;;
    emit "check_mm" [mm] ;;
    emit "put_user_ns" [mm] ;;
    free_obj (R := mm_struct) mm.

(** include/linux/sched/mm.h: mmdrop(); mmdrop_sched() is the same without
    CONFIG_PREEMPT_RT. *)
Definition mmdrop (mm : Z) : K unit :=
  upd! mm ⇝ mm_count := (fun c => c - 1) ;;
  c ← mm ⇝ mm_count;
  when (c =? 0) (__mmdrop mm).

Definition mmdrop_async (mm : Z) : K unit :=
  upd! mm ⇝ mm_count := (fun c => c - 1) ;;
  c ← mm ⇝ mm_count;
  when (c =? 0) (emit "schedule_work(mmdrop_async_fn)" [mm]).

Definition __mmput (mm : Z) : K unit :=
  u ← mm ⇝ mm_users;
  if truthy u then stuck BUG
  else
    emit "uprobe_clear_state" [mm] ;;
    emit "exit_aio" [mm] ;;
    emit "ksm_exit" [mm] ;;
    emit "khugepaged_exit" [mm] ;;
    emit "exit_mmap" [mm] ;;
    emit "mm_put_huge_zero_page" [mm] ;;
    emit "set_mm_exe_file" [mm; NULL] ;;
    emit "mmlist_del" [mm] ;;
    emit "module_put" [mm] ;;
    mmdrop mm.

Definition mmput (mm : Z) : K unit :=
  upd! mm ⇝ mm_users := (fun c => c - 1) ;;
  c ← mm ⇝ mm_users;
  when (c =? 0) (__mmput mm).

Definition mmput_async (mm : Z) : K unit :=
  upd! mm ⇝ mm_users := (fun c => c - 1) ;;
  c ← mm ⇝ mm_users;
  when (c =? 0) (emit "schedule_work(mmput_async_fn)" [mm]).
