(* ===== verification/Affinity.v ===== *)
(** CPU affinity (core.c): changing the mask of a task, the migrate-disable
    sections that pin a task to its CPU, and the test whether a task may run on
    a CPU. *)
From S2P Require Import Prelude Headers Kernel Extern RqClock Uclamp Prio.

Section Affinity.
Context {H : Headers} {X : Extern}.

(** The set a mask pointer of task [t] denotes. *)
Definition mask_set (t : task_struct) (k : maskp) : gset Z :=
  match k with
  | own_mask => ts_cpus_mask t
  | cpumask_of c => {[ c ]}
  | mask_at s => s
  end.

Definition cpus_allowed (t : task_struct) : gset Z := mask_set t (ts_cpus_ptr t).

Definition maskp_is_own (k : maskp) : bool :=
  match k with own_mask => true | _ => false end.

Definition set_cpus_allowed_common (p : Z) (new_mask : maskp) (flags : Z) : K unit :=
  if has_flag flags (Z.lor SCA_MIGRATE_ENABLE SCA_MIGRATE_DISABLE) then
    set! p ⇝ ts_cpus_ptr := new_mask
  else
    t ← deref (R := task_struct) p;
    set! p ⇝ ts_cpus_mask := mask_set t new_mask ;;
    set! p ⇝ ts_nr_cpus_allowed := Z.of_nat (size (mask_set t new_mask)).

(** Every class does the common part; what it does besides is its own. *)
Definition cl_set_cpus_allowed (c : sched_class) (p : Z) (new_mask : maskp) (flags : Z) : K unit :=
  t ← deref (R := task_struct) p;
  cl_set_cpus_allowed_priv c p (mask_set t new_mask) flags ;;
  set_cpus_allowed_common p new_mask flags.

Definition __do_set_cpus_allowed (p : Z) (new_mask : maskp) (flags : Z) : K unit :=
  t ← deref (R := task_struct) p;
  let r := ts_cpu t in
  when (has_flag flags SCA_MIGRATE_DISABLE && negb (truthy (ts_on_cpu t))) (emit "SCHED_WARN_ON" []) ;;
  let queued := task_on_rq_queued t in
  running ← task_current r p;
  when queued (dequeue_task r p (Z.lor DEQUEUE_SAVE DEQUEUE_NOCLOCK)) ;;
  when running (put_prev_task r p) ;;
  (c ← p ⇝ ts_class; cl_set_cpus_allowed c p new_mask flags) ;;
  when queued (enqueue_task r p (Z.lor ENQUEUE_RESTORE ENQUEUE_NOCLOCK)) ;;
  when running (set_next_task r p).

Definition do_set_cpus_allowed (p : Z) (new_mask : maskp) : K unit :=
  __do_set_cpus_allowed p new_mask 0.

(** A task leaving its CPU inside a migrate-disable section is pinned there. *)
Definition migrate_disable_switch (r p : Z) : K unit :=
  t ← deref (R := task_struct) p;
  if negb (truthy (ts_migration_disabled t)) then mret tt
  else if negb (maskp_is_own (ts_cpus_ptr t)) then mret tt
  else
    cpu ← r ⇝ rq_cpu;
    __do_set_cpus_allowed p (cpumask_of cpu) SCA_MIGRATE_DISABLE.
End Affinity.
