(* ===== verification/AffinityProofs.v ===== *)
(** Changing the CPU mask of a task: the operations return on a well-formed
    machine, touch nothing but the mask of that task, and leave it as asked. *)
From S2P Require Import Prelude Headers Kernel Extern RqClock Uclamp UclampProofs Prio SchedOK.
From S2P Require Import Affinity.

(** The three fields of a task's affinity. *)
Definition task_affinity (t : task_struct) := (ts_cpus_mask t, ts_cpus_ptr t, ts_nr_cpus_allowed t).

(** Everything a class may not change, without the affinity. *)
Definition no_affinity (t : task_struct) : task_struct :=
  t <| ts_cpus_mask := ∅ |> <| ts_cpus_ptr := own_mask |> <| ts_nr_cpus_allowed := 0 |>.
Definition task_aff (t : task_struct) : task_struct := no_affinity (task_attrs t).
Abbreviation aff_frame := (frame task_aff rq_attrs globals).

Lemma class_aff_frame m m' : class_frame m m' -> aff_frame m m'.
Proof. apply frame_weaken; [|done|done]. intros t t' E. exact (f_equal no_affinity E). Qed.

(** Only the affinity of tasks may differ. *)
Definition task_masked (t : task_struct) : task_struct := no_affinity (task_quiet t).
Abbreviation mask_frame := (frame task_masked rq_quiet globals).

Lemma mask_aff_frame m m' : mask_frame m m' -> aff_frame m m'.
Proof.
  apply frame_weaken; [| |done].
  - intros t t' E. exact (f_equal (fun x => no_affinity (task_attrs x)) E).
  - intros q q' E. unfold rq_quiet in E. congruence.
Qed.

Lemma quiet_mask_frame m m' : quiet_frame m m' -> mask_frame m m'.
Proof. apply frame_weaken; [|done|done]. intros t t' E. exact (f_equal no_affinity E). Qed.

Section AffinityProofs.
Context {H : Headers} {X : Extern} {HOK : HeadersOK H} {XOK : ExternOK X} {XS : ExternSafe X}.

(** The affinity of [t] after set_cpus_allowed_common(). *)
Definition affinity_after (t : task_struct) (new_mask : maskp) (flags : Z) :=
  if has_flag flags (Z.lor SCA_MIGRATE_ENABLE SCA_MIGRATE_DISABLE)
  then (ts_cpus_mask t, new_mask, ts_nr_cpus_allowed t)
  else (mask_set t new_mask, ts_cpus_ptr t, Z.of_nat (size (mask_set t new_mask))).

(** The affinity of [p] in a machine. *)
Definition affinity_is (m : machine) (p : Z) a : Prop :=
  exists t, m_tasks m !! p = Some t /\ task_affinity t = a.

Lemma affinity_is_frame m m' p a : class_frame m m' -> affinity_is m p a -> affinity_is m' p a.
Proof.
  intros F (t & Ht & E). destruct (frame_task _ _ _ _ _ _ _ F Ht) as (t' & Ht' & E').
  exists t'. split; [done|]. rewrite <- E. symmetry. exact (f_equal task_affinity E').
Qed.

Lemma wp_set_cpus_allowed_common p k f m t (Q : unit -> machine -> Prop) :
  m_tasks m !! p = Some t ->
  (forall t', task_affinity t' = affinity_after t k f ->
    t <| ts_cpus_mask := ts_cpus_mask t' |> <| ts_cpus_ptr := ts_cpus_ptr t' |>
      <| ts_nr_cpus_allowed := ts_nr_cpus_allowed t' |> = t' ->
    Q tt (m <| m_tasks := <[p := t']> (m_tasks m) |>)) ->
  wp (set_cpus_allowed_common p k f) Q m.
Proof.
  intros Ht HQ. unfold set_cpus_allowed_common, affinity_after in *. destruct (has_flag _ _).
  - wp_go. apply HQ; [done | by destruct t].
  - wp_go.
    pose (t' := t <| ts_cpus_mask := mask_set t k |>
      <| ts_nr_cpus_allowed := Z.of_nat (size (mask_set t k)) |>).
    assert (HQ' := HQ t' eq_refl). specialize (HQ' ltac:(by destruct t)).
    match goal with |- Q tt ?M => replace M with (m <| m_tasks := <[p := t']> (m_tasks m) |>); [done|] end.
    cbn. by rewrite insert_insert_eq.
Qed.

Lemma affinity_after_same t1 t k f :
  task_affinity t1 = task_affinity t -> affinity_after t1 k f = affinity_after t k f.
Proof.
  intros E. unfold affinity_after, mask_set, task_affinity in *.
  assert (ts_cpus_mask t1 = ts_cpus_mask t) as -> by congruence.
  assert (ts_cpus_ptr t1 = ts_cpus_ptr t) as -> by congruence.
  by assert (ts_nr_cpus_allowed t1 = ts_nr_cpus_allowed t) as -> by congruence.
Qed.

(** The class changes the mask. *)
Lemma wp_cl_set_cpus_allowed c p k f m t (Q : unit -> machine -> Prop) :
  kernel_ok m -> m_tasks m !! p = Some t ->
  (forall m', kernel_ok m' -> mask_frame m m' -> ok_frame m m' ->
    m_uclamp_used m' = m_uclamp_used m ->
    affinity_is m' p (affinity_after t k f) -> Q tt m') ->
  wp (cl_set_cpus_allowed c p k f) Q m.
Proof.
  intros Hok Ht HQ. unfold cl_set_cpus_allowed. wp_go.
  apply wp_quiet; [done | apply set_cpus_allowed_returns; [done | by eexists] | auto with preserve |].
  intros _ m1 Hok1 F1. destruct (frame_task _ _ _ _ _ _ _ F1 Ht) as (t1 & Ht1 & E1).
  eapply wp_set_cpus_allowed_common; [exact Ht1|]. intros t2 Ea E2.
  pose (m2 := m1 <| m_tasks := <[p := t2]> (m_tasks m1) |>).
  assert (F2 : ok_frame m1 m2) by (apply frame_set_task with t1; [done | by rewrite <- E2 | done]).
  assert (Fa2 : mask_frame m1 m2) by (apply frame_set_task with t1; [done | by rewrite <- E2 | done]).
  apply (HQ m2).
  - by eapply kernel_ok_frame.
  - etransitivity; [by apply quiet_mask_frame | done].
  - etransitivity; [by apply quiet_ok_frame | done].
  - assert (Eg : globals m1 = globals m) by (symmetry; apply F1). unfold globals in Eg. cbn. congruence.
  - exists t2. split; [apply lookup_insert_eq|]. rewrite Ea. apply affinity_after_same.
    exact (eq_sym (f_equal task_affinity E1)).
Qed.

Lemma clamp_off_ok m m' p :
  ok_frame m m' -> m_uclamp_used m' = m_uclamp_used m -> clamp_off m p -> clamp_off m' p.
Proof.
  intros F Eu Hoff Hu t' Ht'. assert (F' : ok_frame m' m) by (by symmetry).
  destruct (frame_task _ _ _ _ _ _ _ F' Ht') as (t & Ht & E). unfold task_okp in E.
  assert (ts_uclamp t' = ts_uclamp t) as -> by congruence. apply Hoff; [congruence | done].
Qed.

(** Dequeue and put the task when it is queued or running, run [c], undo. *)
Lemma wp_requeue (queued running : bool) r p f1 f2 (c : K unit) m (Q : unit -> machine -> Prop) :
  kernel_ok m -> task_on m r p ->
  (forall m1 Q1, kernel_ok m1 -> queue_frame m m1 -> task_on m1 r p ->
    (forall m2, kernel_ok m2 -> task_on m2 r p -> (clamp_off m1 p -> clamp_off m2 p) ->
      (forall m3, kernel_ok m3 -> queue_frame m2 m3 -> Q tt m3) -> Q1 tt m2) -> wp c Q1 m1) ->
  wp (when queued (dequeue_task r p f1) ;; when running (put_prev_task r p) ;; c ;;
      when queued (enqueue_task r p f2) ;; when running (set_next_task r p)) Q m.
Proof.
  intros Hok Hon Hc. apply wp_unqueue; [done | done |]. intros m1 Hok1 F1 Hon1 Hoff1.
  apply wp_bind, Hc; [done..|]. intros m2 Hok2 Hon2 Hoff2 HQ.
  apply wp_bind, wp_when.
  assert (Hlast : forall m3, kernel_ok m3 -> queue_frame m2 m3 -> wp (when running (set_next_task r p)) Q m3).
  { intros m3 Hok3 F3. apply wp_when. destruct running; [|by apply HQ].
    apply wp_set_next_task; [done | apply task_on_live; [done | by eapply task_on_queue] |].
    intros m4 Hok4 F4. apply HQ; [done|]. etransitivity; [exact F3 | by apply quiet_queue_frame]. }
  destruct queued; [|by apply Hlast]. apply wp_enqueue_task; [done | done | auto | done].
Qed.

Lemma wp_do_set_cpus_allowed p k f m t (Q : unit -> machine -> Prop) :
  kernel_ok m -> m_tasks m !! p = Some t ->
  (forall m', kernel_ok m' -> aff_frame m m' -> affinity_is m' p (affinity_after t k f) -> Q tt m') ->
  wp (__do_set_cpus_allowed p k f) Q m.
Proof.
  intros Hok Ht HQ. unfold __do_set_cpus_allowed, task_current.
  destruct (ok_tasks m Hok p t Ht) as [[q Hq] _]. wp_go.
  assert (Hmain : forall m0, kernel_ok m0 -> class_frame m m0 -> m_tasks m0 !! p = Some t ->
    m_rqs m0 !! ts_cpu t = Some q ->
    wp (running ← (curr ← ts_cpu t ⇝ rq_curr; mret (curr =? p));
        when (task_on_rq_queued t) (dequeue_task (ts_cpu t) p (Z.lor DEQUEUE_SAVE DEQUEUE_NOCLOCK)) ;;
        when running (put_prev_task (ts_cpu t) p) ;;
        (c ← p ⇝ ts_class; cl_set_cpus_allowed c p k f) ;;
        when (task_on_rq_queued t) (enqueue_task (ts_cpu t) p (Z.lor ENQUEUE_RESTORE ENQUEUE_NOCLOCK)) ;;
        when running (set_next_task (ts_cpu t) p)) Q m0).
  { intros m0 Hok0 F0 Ht0 Hq0. do 4 wp_step. apply wp_requeue; [done | by exists t |].
    intros m1 Q1 Hok1 F1 Hon1 HQ1. destruct (frame_task _ _ _ _ _ _ _ F1 Ht0) as (t1 & Ht1 & E1).
    wp_go. eapply wp_cl_set_cpus_allowed; [done | exact Ht1 |]. intros m2 Hok2 F2 Fo2 Eu Haff.
    apply HQ1; [done | by eapply task_on_frame | by apply clamp_off_ok |].
    intros m3 Hok3 F3. apply HQ; [done| |].
    - etransitivity; [apply class_aff_frame, F0|]. etransitivity; [apply class_aff_frame, queue_class_frame, F1|].
      etransitivity; [by apply mask_aff_frame | by apply class_aff_frame, queue_class_frame].
    - eapply affinity_is_frame; [by apply queue_class_frame|].
      rewrite <- (affinity_after_same t1 t); [done|]. exact (eq_sym (f_equal task_affinity E1)). }
  case_match; [|by apply Hmain]. apply wp_emit, Hmain; [|done..].
  by eapply kernel_ok_frame; [|exact Hok].
Qed.
End AffinityProofs.
