(* ===== verification/Schedule.v ===== *)
(** The main scheduler (core.c): preemption counts, picking the next task, the
    context switch and __schedule(), with the repository's change that gives
    the task switched to its fixed priority; schedule() and the other entry
    points; and the system call my_set_process_priority().

    The handlers describe what a CPU does.  After the register switch the CPU
    runs the incoming task, which resumes in the frame in which it called
    __schedule(); [m_current] is the task the CPU executes.  Interrupts and
    statistics are calls of [emit].  The configuration is CONFIG_SMP,
    CONFIG_DEBUG_PREEMPT and CONFIG_SCHED_DEBUG without CONFIG_SCHED_CORE and
    CONFIG_PREEMPT_RT. *)
From S2P Require Import Prelude Headers Kernel Extern RqClock Uclamp Prio Mm Affinity.

Section Schedule.
Context {H : Headers} {X : Extern}.

(** * Preemption counts *)
Definition preempt_latency_start (val : Z) : K unit :=
  c ← gets m_preempt_count;
  when (c =? val) (emit "trace_preempt_off" [val]).

Definition preempt_count_add (val : Z) : K unit :=
  c ← gets m_preempt_count;
  if c <? 0 then emit "DEBUG_LOCKS_WARN_ON" []
  else
    setg m_preempt_count (c + val) ;;
    when (PREEMPT_MASK - 10 <=? Z.land (c + val) PREEMPT_MASK) (emit "DEBUG_LOCKS_WARN_ON" []) ;;
    preempt_latency_start val.

Definition preempt_latency_stop (val : Z) : K unit :=
  c ← gets m_preempt_count;
  when (c =? val) (emit "trace_preempt_on" [val]).

Definition preempt_count_sub (val : Z) : K unit :=
  c ← gets m_preempt_count;
  if c <? val then emit "DEBUG_LOCKS_WARN_ON" []
  else if ((val <? PREEMPT_MASK) && negb (truthy (Z.land c PREEMPT_MASK)))%bool
  then emit "DEBUG_LOCKS_WARN_ON" []
  else
    preempt_latency_stop val ;;
    setg m_preempt_count (c - val).

(** include/linux/preempt.h *)
Definition preempt_disable : K unit := preempt_count_add 1.
Definition sched_preempt_enable_no_resched : K unit := preempt_count_sub 1.
(** kernel/sched/sched.h: taking the run-queue lock disables preemption. *)
Definition rq_lock : K unit := preempt_count_add 1.
Definition raw_spin_rq_unlock_irq : K unit := preempt_count_sub 1.

(** * Debugging checks *)
Definition __schedule_bug (prev : Z) : K unit :=
  if oops_in_progress then mret tt
  else
    emit "printk: BUG: scheduling while atomic" [prev] ;;
    emit "debug_show_held_locks" [prev] ;;
    emit "print_modules" [] ;;
    if panic_on_warn then stuck BUG
    else emit "dump_stack" [] ;; emit "add_taint" [].

(** The preemption count must be that of one preempt_disable(). *)
Definition schedule_debug (prev : Z) (preempt : bool) : K unit :=
  c ← gets m_preempt_count;
  when (negb (c =? PREEMPT_DISABLE_OFFSET))
    (__schedule_bug prev ;; setg m_preempt_count PREEMPT_DISABLED) ;;
  emit "rcu_sleep_check" [] ;;
  emit "profile_hit" [] ;;
  emit "schedstat_inc(sched_count)" [].

(** * Picking the next task *)

(** for_class_range(class, from, &idle_sched_class): from the class of [prev]
    down to the one above idle. *)
Definition class_range (from : sched_class) : list sched_class :=
  List.filter (fun c => (class_rank c <=? class_rank from) && (class_rank idle_sched_class <? class_rank c))%bool
    all_classes.

Fixpoint balance_pass (r prev : Z) (classes : list sched_class) : K unit :=
  match classes with
  | [] => mret tt
  | class :: classes =>
      b ← cl_balance class r prev;
      if (b : bool) then mret tt else balance_pass r prev classes
  end.

Definition put_prev_task_balance (r prev : Z) : K unit :=
  c ← prev ⇝ ts_class;
  balance_pass r prev (class_range c) ;;
  put_prev_task r prev.

(** The idle class should always have a runnable task. *)
Fixpoint pick_first (r : Z) (classes : list sched_class) : K Z :=
  match classes with
  | [] => stuck BUG
  | class :: classes =>
      p ← cl_pick_next_task class r;
      if negb (p =? NULL) then mret p else pick_first r classes
  end.

Definition pick_restart (r prev : Z) : K Z :=
  put_prev_task_balance r prev ;;
  pick_first r all_classes.

Definition __pick_next_task (r prev : Z) : K Z :=
  c ← prev ⇝ ts_class;
  q ← deref (R := rq) r;
  if ((class_rank c <=? class_rank fair_sched_class) && (rq_nr_running q =? rq_h_nr_running q))%bool then
    p ← pick_next_task_fair r prev;
    if p =? RETRY_TASK then pick_restart r prev
    else if p =? NULL then
      put_prev_task r prev ;;
      cl_pick_next_task idle_sched_class r
    else mret p
  else pick_restart r prev.

Definition pick_next_task (r prev : Z) : K Z := __pick_next_task r prev.

(** * The context switch *)
Definition prepare_task (next : Z) : K unit := set! next ⇝ ts_on_cpu := 1.
Definition finish_task (prev : Z) : K unit := set! prev ⇝ ts_on_cpu := 0.

Definition prepare_lock_switch (r next : Z) : K unit := emit "rq_unpin_lock" [r].

Definition finish_lock_switch (r : Z) : K unit :=
  __balance_callbacks r ;;
  raw_spin_rq_unlock_irq.

Definition prepare_task_switch (r prev next : Z) : K unit :=
  emit "kcov_prepare_switch" [prev] ;;
  emit "sched_info_switch" [r; prev; next] ;;
  emit "perf_event_task_sched_out" [prev; next] ;;
  emit "rseq_preempt" [prev] ;;
  emit "fire_sched_out_preempt_notifiers" [prev; next] ;;
  emit "kmap_local_sched_out" [] ;;
  prepare_task next.

Definition finish_task_switch (prev : Z) : K Z :=
  r ← gets m_this_cpu;
  mm ← r ⇝ rq_prev_mm;
  c ← gets m_preempt_count;
  when (negb (c =? 2 * PREEMPT_DISABLE_OFFSET))
    (emit "WARN_ONCE: corrupted preempt_count" [c] ;; setg m_preempt_count FORK_PREEMPT_COUNT) ;;
  set! r ⇝ rq_prev_mm := NULL ;;
  prev_state ← prev ⇝ ts_state;
  emit "vtime_task_switch" [prev] ;;
  emit "perf_event_task_sched_in" [prev] ;;
  finish_task prev ;;
  emit "tick_nohz_task_switch" [] ;;
  finish_lock_switch r ;;
  emit "kcov_finish_switch" [] ;;
  emit "kmap_local_sched_in" [] ;;
  emit "fire_sched_in_preempt_notifiers" [] ;;
  when (negb (mm =? NULL))
    (emit "membarrier_mm_sync_core_before_usermode" [mm] ;; mmdrop mm) ;;
  when (prev_state =? TASK_DEAD)
    (c ← prev ⇝ ts_class;
     when (has_task_dead c) (cl_task_dead c prev) ;;
     emit "put_task_stack" [prev] ;;
     emit "put_task_struct_rcu_user" [prev]) ;;
  mret r.

(** A freshly forked task starts here; preempt_enable() does not reschedule
    without CONFIG_PREEMPTION. *)
Definition schedule_tail (prev : Z) : K unit :=
  finish_task_switch prev ;;
  preempt_count_sub 1 ;;
  current ← gets m_current;
  tid ← current ⇝ ts_set_child_tid;
  when (negb (tid =? NULL)) (emit "put_user(task_pid_vnr)" [current; tid]) ;;
  emit "calculate_sigpending" [].

(** The address-space part of context_switch(). *)
Definition switch_mm_lazy (r prev next : Z) : K unit :=
  n ← deref (R := task_struct) next;
  p ← deref (R := task_struct) prev;
  if ts_mm n =? NULL then
    emit "enter_lazy_tlb" [ts_active_mm p; next] ;;
    set! next ⇝ ts_active_mm := ts_active_mm p ;;
    if negb (ts_mm p =? NULL) then mmgrab (ts_active_mm p)
    else set! prev ⇝ ts_active_mm := NULL
  else
    emit "membarrier_switch_mm" [r; ts_active_mm p; ts_mm n] ;;
    emit "switch_mm_irqs_off" [ts_active_mm p; ts_mm n; next] ;;
    when (ts_mm p =? NULL)
      (set! r ⇝ rq_prev_mm := ts_active_mm p ;;
       set! prev ⇝ ts_active_mm := NULL).

Definition clear_skip_flags (r : Z) : K unit :=
  upd! r ⇝ rq_clock_update_flags := fun f => Z.ldiff f (Z.lor RQCF_ACT_SKIP RQCF_REQ_SKIP).

(** switch_to(): from here on the CPU executes [next]. *)
Definition switch_to (prev next : Z) : K unit :=
  emit "switch_to" [prev; next] ;;
  setg m_current next.

Definition context_switch (r prev next : Z) : K Z :=
  prepare_task_switch r prev next ;;
  emit "arch_start_context_switch" [prev] ;;
  switch_mm_lazy r prev next ;;
  clear_skip_flags r ;;
  prepare_lock_switch r next ;;
  switch_to prev next ;;
  finish_task_switch prev.

(** * __schedule() *)
Definition SM_NONE : Z := (0x0).
Definition SM_PREEMPT : Z := (0x1).
Definition SM_RTLOCK_WAIT : Z := (0x2).
Definition SM_MASK_PREEMPT : Z := (0xffffffff).

(** The blocking branch: unless a signal is pending, the task leaves the run
    queue. *)
Definition schedule_block (r prev prev_state : Z) : K unit :=
  pending ← signal_pending_state prev_state prev;
  if (pending : bool) then set! prev ⇝ ts_state := TASK_RUNNING
  else
    flags ← prev ⇝ ts_flags;
    let contributes := (has_flag prev_state TASK_UNINTERRUPTIBLE
                        && negb (has_flag prev_state TASK_NOLOAD)
                        && negb (has_flag flags PF_FROZEN))%bool in
    set! prev ⇝ ts_sched_contributes_to_load := contributes ;;
    when contributes (upd! r ⇝ rq_nr_uninterruptible := fun n => u32 (n + 1)) ;;
    deactivate_task r prev (Z.lor DEQUEUE_SLEEP DEQUEUE_NOCLOCK) ;;
    iow ← prev ⇝ ts_in_iowait;
    when iow
      (upd! r ⇝ rq_nr_iowait := (fun n => n + 1) ;;
       emit "delayacct_blkio_start" []).

(** The repository's change: the task switched to takes its fixed priority. *)
Definition fixed_prio_valid (f : Z) : bool := ((101 <=? f) && (f <=? 139))%bool.

Definition apply_fixed_priority (next : Z) : K unit :=
  t ← deref (R := task_struct) next;
  when (negb (ts_static_prio t =? 0) && fixed_prio_valid (ts_my_fixed_priority t))
    (set! next ⇝ ts_static_prio := ts_my_fixed_priority t).

(** [switch_count] points to [nvcsw] when the task blocks, else to [nivcsw]. *)
Definition count_switch (prev : Z) (voluntary : bool) : K unit :=
  if voluntary then upd! prev ⇝ ts_nvcsw := fun n => u64 (n + 1)
  else upd! prev ⇝ ts_nivcsw := fun n => u64 (n + 1).

(** The end of __schedule(): switch, or stay with the same task. *)
Definition schedule_finish (r prev next : Z) (voluntary : bool) : K unit :=
  if negb (prev =? next) then
    upd! r ⇝ rq_nr_switches := (fun n => u64 (n + 1)) ;;
    set! r ⇝ rq_curr := next ;;
    count_switch prev voluntary ;;
    migrate_disable_switch r prev ;;
    emit "psi_sched_switch" [prev; next] ;;
    emit "trace_sched_switch" [prev; next] ;;
    context_switch r prev next ;;
    mret tt
  else
    clear_skip_flags r ;;
    emit "rq_unpin_lock" [r] ;;
    __balance_callbacks r ;;
    raw_spin_rq_unlock_irq.

Definition __schedule (sched_mode : Z) : K unit :=
  r ← gets m_this_cpu;
  prev ← r ⇝ rq_curr;
  schedule_debug prev (truthy sched_mode) ;;
  when (sched_feat "HRTICK" || sched_feat "HRTICK_DL") (emit "hrtick_clear" [r]) ;;
  emit "local_irq_disable" [] ;;
  emit "rcu_note_context_switch" [] ;;
  rq_lock ;;
  upd! r ⇝ rq_clock_update_flags := (fun f => u32 (Z.shiftl f 1)) ;;
  update_rq_clock r ;;
  prev_state ← prev ⇝ ts_state;
  let voluntary := (negb (has_flag sched_mode SM_MASK_PREEMPT) && truthy prev_state)%bool in
  when voluntary (schedule_block r prev prev_state) ;;
  next ← pick_next_task r prev;
  clear_tsk_need_resched prev ;;
  setg m_preempt_need_resched false ;;
  apply_fixed_priority next ;;
  set! r ⇝ rq_last_seen_need_resched_ns := 0 ;;
  schedule_finish r prev next voluntary.

(** The task never runs again: reaching the BUG() is a fault. *)
Definition do_task_dead : K unit :=
  current ← gets m_current;
  set! current ⇝ ts_state := TASK_DEAD ;;
  upd! current ⇝ ts_flags := (fun f => Z.lor f PF_NOFREEZE) ;;
  __schedule SM_NONE ;;
  current' ← gets m_current;
  if current' =? current then stuck BUG else mret tt.

(** * schedule() and its variants *)

(** sched.h and sched/rt.h: task_is_running(), tsk_is_pi_blocked(). *)
Definition task_is_running (t : task_struct) : bool := ts_state t =? TASK_RUNNING.
Definition tsk_is_pi_blocked (t : task_struct) : bool := truthy (ts_pi_blocked_on t).

Definition sched_submit_work (tsk : Z) : K unit :=
  t ← deref (R := task_struct) tsk;
  if task_is_running t then mret tt
  else
    let task_flags := ts_flags t in
    when (has_flag task_flags (Z.lor PF_WQ_WORKER PF_IO_WORKER))
      (if has_flag task_flags PF_WQ_WORKER then emit "wq_worker_sleeping" [tsk]
       else emit "io_wq_worker_sleeping" [tsk]) ;;
    if tsk_is_pi_blocked t then mret tt
    else when (blk_needs_flush_plug t) (emit "blk_flush_plug" [tsk]).

Definition sched_update_worker (tsk : Z) : K unit :=
  t ← deref (R := task_struct) tsk;
  when (has_flag (ts_flags t) (Z.lor PF_WQ_WORKER PF_IO_WORKER))
    (if has_flag (ts_flags t) PF_WQ_WORKER then emit "wq_worker_running" [tsk]
     else emit "io_wq_worker_running" [tsk]).

Definition need_resched : K bool :=
  current ← gets m_current;
  t ← deref (R := task_struct) current;
  mret (test_tsk_need_resched t).

(** do { body } while (need_resched()) *)
Fixpoint while_need_resched (fuel : nat) (body : K unit) : K unit :=
  match fuel with
  | O => stuck NOFUEL
  | S fuel =>
      body ;;
      b ← need_resched;
      if (b : bool) then while_need_resched fuel body else mret tt
  end.

(** The task that returns from schedule() is the one the CPU runs at the end;
    its frame holds itself as [tsk]. *)
Definition schedule (fuel : nat) : K unit :=
  tsk ← gets m_current;
  sched_submit_work tsk ;;
  while_need_resched fuel
    (preempt_disable ;; __schedule SM_NONE ;; sched_preempt_enable_no_resched) ;;
  tsk ← gets m_current;
  sched_update_worker tsk.

Definition schedule_idle (fuel : nat) : K unit :=
  current ← gets m_current;
  s ← current ⇝ ts_state;
  when (truthy s) (emit "WARN_ON_ONCE" []) ;;
  while_need_resched fuel (__schedule SM_NONE).

Definition schedule_user (fuel : nat) : K unit :=
  emit "exception_enter" [] ;;
  schedule fuel ;;
  emit "exception_exit" [].

Definition schedule_preempt_disabled (fuel : nat) : K unit :=
  sched_preempt_enable_no_resched ;;
  schedule fuel ;;
  preempt_disable.

Definition schedule_rtlock (fuel : nat) : K unit :=
  while_need_resched fuel
    (preempt_disable ;; __schedule SM_RTLOCK_WAIT ;; sched_preempt_enable_no_resched).

(** The notrace variants bypass preempt_count_add() and preempt_count_sub(). *)
Definition preempt_schedule_common (fuel : nat) : K unit :=
  while_need_resched fuel
    (c ← gets m_preempt_count;
     setg m_preempt_count (c + 1) ;;
     preempt_latency_start 1 ;;
     __schedule SM_PREEMPT ;;
     preempt_latency_stop 1 ;;
     c ← gets m_preempt_count;
     setg m_preempt_count (c - 1)).

(** preemptible(): the count is zero and interrupts are enabled. *)
Definition preemptible (irqs_disabled : bool) : K bool :=
  c ← gets m_preempt_count;
  mret ((c =? 0) && negb irqs_disabled)%bool.

Definition preempt_schedule (irqs_disabled : bool) (fuel : nat) : K unit :=
  ok ← preemptible irqs_disabled;
  if negb ok then mret tt else preempt_schedule_common fuel.

Definition preempt_schedule_notrace (irqs_disabled : bool) (fuel : nat) : K unit :=
  ok ← preemptible irqs_disabled;
  if negb ok then mret tt
  else
    while_need_resched fuel
      (c ← gets m_preempt_count;
       setg m_preempt_count (c + 1) ;;
       preempt_latency_start 1 ;;
       emit "exception_enter" [] ;;
       __schedule SM_PREEMPT ;;
       emit "exception_exit" [] ;;
       preempt_latency_stop 1 ;;
       c ← gets m_preempt_count;
       setg m_preempt_count (c - 1)).

Definition preempt_schedule_irq (irqs_disabled : bool) (fuel : nat) : K unit :=
  c ← gets m_preempt_count;
  if (truthy c || negb irqs_disabled)%bool then stuck BUG
  else
    emit "exception_enter" [] ;;
    while_need_resched fuel
      (preempt_disable ;;
       emit "local_irq_enable" [] ;;
       __schedule SM_PREEMPT ;;
       emit "local_irq_disable" [] ;;
       sched_preempt_enable_no_resched) ;;
    emit "exception_exit" [].

(** * my_set_process_priority() *)

(** A system call either returns to user space or is suspended because the CPU
    switched to another task; its tail then runs when the task is back. *)
Inductive syscall_result : Type :=
| returned (z : Z)
| suspended.

Definition my_set_process_priority_tail (task : Z) : K syscall_result :=
  t ← deref (R := task_struct) task;
  emit "printk: priority set"
    [ts_pid t; ts_my_fixed_priority t; ts_static_prio t; task_nice t; se_vruntime (ts_se t)] ;;
  mret (returned 1).

Definition my_set_process_priority (fuel : nat) (priority : Z) : K syscall_result :=
  task ← gets m_current;
  if ((priority <? 101) || (139 <? priority))%bool then mret (returned 0)
  else
    set! task ⇝ ts_my_fixed_priority := priority ;;
    schedule fuel ;;
    now ← gets m_current;
    if now =? task then my_set_process_priority_tail task
    else mret suspended.
End Schedule.
