(* ===== verification/LazyMm.v ===== *)
(** Lazily borrowed address spaces: a kernel thread has no address space of its
    own and runs in that of the task it was switched from, on which it holds a
    reference.  The invariant [mm_inv] says that every borrowed address space
    is counted, so that none is freed while a CPU still uses it. *)
From S2P Require Import Prelude Headers Kernel Extern RqClock Uclamp UclampProofs Prio SchedOK.
From S2P Require Import Mm Affinity Schedule.

(** ** The references to an address space *)

(** [t] is a kernel thread that borrows [a]. *)
Definition borrows (a : Z) (t : task_struct) : bool := ((ts_mm t =? NULL) && (ts_active_mm t =? a))%bool.
(** A CPU that has left a kernel thread still holds its reference on [a]. *)
Definition parked (a : Z) (q : rq) : bool := rq_prev_mm q =? a.

(** The references on [a]: borrowers, parked references and the one in hand,
    which finish_task_switch() has read from the run queue. *)
Definition mm_refs (hand : Z) (m : machine) (a : Z) : Z :=
  count_in (borrows a) (m_tasks m) + count_in (parked a) (m_rqs m) + b2z (hand =? a).

(** [runs p]: task [p] is running on some CPU. *)
Record mm_inv (runs : Z -> Prop) (hand : Z) (m : machine) : Prop := Mk_mm_inv {
  mm_user : forall p t, m_tasks m !! p = Some t -> ts_mm t <> NULL ->
    ts_active_mm t = ts_mm t /\ exists x, m_mms m !! ts_mm t = Some x /\ 0 < mm_users x;
  mm_lazy : forall p t, m_tasks m !! p = Some t -> ts_mm t = NULL ->
    (runs p -> ts_active_mm t <> NULL) /\ (~ runs p -> ts_active_mm t = NULL);
  mm_exist : forall a, a <> NULL -> 0 < mm_refs hand m a -> is_Some (m_mms m !! a);
  mm_counted : forall a x, m_mms m !! a = Some x -> a <> NULL ->
    mm_refs hand m a + b2z (0 <? mm_users x) <= mm_count x;
  mm_init : exists x, m_mms m !! m_init_mm m = Some x /\ 0 < mm_users x /\ m_init_mm m <> NULL;
}.

(** ** The part of the machine the invariant depends on *)
Definition task_mmp (t : task_struct) := (ts_mm t, ts_active_mm t).
Definition globals_mmp (m : machine) := (m_mms m, m_init_mm m).
Abbreviation mm_frame := (frame task_mmp rq_prev_mm globals_mmp).

Lemma class_mm_frame m m' : class_frame m m' -> mm_frame m m'.
Proof.
  apply frame_weaken.
  - intros t t' E. exact (f_equal task_mmp E).
  - intros q q' E. unfold rq_attrs in E. congruence.
  - unfold globals, globals_mmp. congruence.
Qed.

Lemma mm_refs_frame hand m m' a : mm_frame m m' -> mm_refs hand m a = mm_refs hand m' a.
Proof.
  intros (Ft & Fr & _). unfold mm_refs. f_equal. f_equal.
  - exact (count_in_agree task_mmp (fun x => ((x.1 =? NULL) && (x.2 =? a))%bool) _ _ Ft).
  - exact (count_in_agree rq_prev_mm (fun x => x =? a) _ _ Fr).
Qed.

Lemma mm_inv_frame runs hand m m' : mm_frame m m' -> mm_inv runs hand m -> mm_inv runs hand m'.
Proof.
  intros F [Hu Hl He Hc Hi]. assert (F' : mm_frame m' m) by (by symmetry).
  assert (Hg : globals_mmp m' = globals_mmp m) by apply F'. unfold globals_mmp in Hg.
  assert (Em : m_mms m' = m_mms m) by congruence. assert (Ei : m_init_mm m' = m_init_mm m) by congruence.
  split; rewrite ?Em, ?Ei.
  - intros p t' Ht'. destruct (frame_task _ _ _ _ _ _ _ F' Ht') as (t & Ht & E). unfold task_mmp in E.
    assert (ts_mm t' = ts_mm t) as -> by congruence.
    assert (ts_active_mm t' = ts_active_mm t) as -> by congruence. by apply (Hu p).
  - intros p t' Ht'. destruct (frame_task _ _ _ _ _ _ _ F' Ht') as (t & Ht & E). unfold task_mmp in E.
    assert (ts_mm t' = ts_mm t) as -> by congruence.
    assert (ts_active_mm t' = ts_active_mm t) as -> by congruence. by apply (Hl p).
  - intros a. rewrite (mm_refs_frame hand m' m a F'). apply He.
  - intros a x. rewrite (mm_refs_frame hand m' m a F'). apply Hc.
  - done.
Qed.

Lemma mm_inv_runs runs runs' hand m :
  (forall p, is_Some (m_tasks m !! p) -> runs p <-> runs' p) -> mm_inv runs hand m -> mm_inv runs' hand m.
Proof.
  intros HR [Hu Hl He Hc Hi]. split; [done| |done|done|done].
  intros p t Ht. rewrite <- (HR p) by (by eexists). by apply (Hl p).
Qed.

Lemma mm_refs_nonneg hand m a : 0 <= mm_refs hand m a.
Proof.
  unfold mm_refs. pose proof (count_in_nonneg (borrows a) (m_tasks m)).
  pose proof (count_in_nonneg (parked a) (m_rqs m)). destruct (hand =? a); cbn; lia.
Qed.

(** A running task has an address space, which is counted. *)
Lemma mm_active runs m p t :
  mm_inv runs NULL m -> m_tasks m !! p = Some t -> runs p ->
  ts_active_mm t <> NULL /\ is_Some (m_mms m !! ts_active_mm t).
Proof.
  intros [Hu Hl He Hc Hi] Ht Hr. destruct (decide (ts_mm t = NULL)) as [E|E].
  - destruct (Hl p t Ht E) as [Ha _]. split; [auto|]. apply He; [auto|]. unfold mm_refs.
    pose proof (count_in_nonneg (parked (ts_active_mm t)) (m_rqs m)).
    assert (0 < count_in (borrows (ts_active_mm t)) (m_tasks m)).
    { apply (count_in_pos _ _ p t Ht). unfold borrows. by rewrite E, !Z.eqb_refl. }
    destruct (NULL =? _); cbn; lia.
  - destruct (Hu p t Ht E) as (-> & x & Hx & _). split; [done | by eexists].
Qed.

(** ** The address-space part of a context switch *)

(** What the switch may change: the active address spaces, the parked
    reference and the counts. *)
Definition task_switch (t : task_struct) : task_struct := t <| ts_active_mm := NULL |>.
Definition rq_switch (q : rq) : rq := q <| rq_prev_mm := NULL |>.
Definition globals_switch (m : machine) :=
  (m_this_cpu m, m_current m, m_root_task_group m, m_preempt_count m, m_tgs m, m_init_mm m,
   m_uclamp_default m, m_uclamp_used m).
Abbreviation switch_frame := (frame task_switch rq_switch globals_switch).

Lemma frame_switch_mm_lazy r prev next : preserves switch_frame (switch_mm_lazy r prev next).
Proof.
  unfold switch_mm_lazy, mmgrab. framed.
  apply preserves_upd_obj; [typeclasses eauto|]. by intros s x Hx.
Qed.

(** Run queues other than [r] are untouched. *)
Definition same_rqs_but (r : Z) (m m' : machine) : Prop := forall k, k <> r -> m_rqs m' !! k = m_rqs m !! k.

#[export] Instance same_rqs_but_preorder r : PreOrder (same_rqs_but r).
Proof. split; [by intros m k | intros m1 m2 m3 E1 E2 k Hk; by rewrite E2, E1]. Qed.

Lemma switch_mm_lazy_rqs r prev next : preserves (same_rqs_but r) (switch_mm_lazy r prev next).
Proof.
  unfold switch_mm_lazy, mmgrab. keep;
    first [ by apply preserves_modify
          | apply preserves_upd_obj; [typeclasses eauto|]; intros s x Hx k Hk; cbn; try done;
            by rewrite lookup_insert_ne by done ].
Qed.

Section Switch.
Context {H : Headers} {X : Extern}.
Context (runs : Z -> Prop) (r prev next : Z) (m : machine) (pt nt : task_struct) (q : rq).
Context (Hinv : mm_inv runs NULL m) (Hp : m_tasks m !! prev = Some pt) (Hn : m_tasks m !! next = Some nt).
Context (Hr : m_rqs m !! r = Some q) (Hpn : prev <> next).
Context (Hrp : runs prev) (Hrn : ~ runs next) (Hq0 : rq_prev_mm q = NULL).

Definition runs_after (p : Z) : Prop := (runs p /\ p <> prev) \/ p = next.

Lemma runs_after_other p : p <> prev -> p <> next -> runs_after p <-> runs p.
Proof. unfold runs_after. naive_solver. Qed.

(** The cases of the switch share this step: the tasks other than [prev] and
    [next] are untouched, and so are the references on other address spaces. *)
Lemma mm_inv_switch m' pt' nt' :
  (forall p, p <> prev -> p <> next -> m_tasks m' !! p = m_tasks m !! p) ->
  m_tasks m' !! prev = Some pt' -> m_tasks m' !! next = Some nt' ->
  ts_mm pt' = ts_mm pt -> ts_mm nt' = ts_mm nt ->
  (ts_mm pt <> NULL -> ts_active_mm pt' = ts_active_mm pt) ->
  (ts_mm pt = NULL -> ts_active_mm pt' = NULL) ->
  (ts_mm nt <> NULL -> ts_active_mm nt' = ts_active_mm nt) ->
  (ts_mm nt = NULL -> ts_active_mm nt' <> NULL) ->
  m_init_mm m' = m_init_mm m ->
  (forall a, a <> NULL -> exists d, mm_refs NULL m' a = mm_refs NULL m a + d /\
    (m_mms m' !! a = (fun x => x <| mm_count := mm_count x + d |>) <$> m_mms m !! a) /\
    (d <> 0 -> is_Some (m_mms m !! a))) ->
  mm_inv runs_after NULL m'.
Proof.
  intros Ho Hp' Hn' Emp Emn Hup Hlp Hun Hln Ei Hd. pose proof Hinv as [Hu Hl He Hc Hi].
  assert (Huser : forall a, a <> NULL -> (exists x, m_mms m !! a = Some x /\ 0 < mm_users x) ->
    exists x, m_mms m' !! a = Some x /\ 0 < mm_users x).
  { intros a Ha (x & Hx & Hux). destruct (Hd a Ha) as (d & _ & Hm & _). rewrite Hm, Hx. cbn.
    eexists. split; [done|]. done. }
  split.
  - intros p t Ht Hmm. destruct (decide (p = prev)) as [->|Hne1]; [|destruct (decide (p = next)) as [->|Hne2]].
    + assert (t = pt') as -> by congruence. destruct (Hu prev pt Hp) as (Ea & Hx); [congruence|].
      rewrite Emp in *. split; [rewrite Hup by done; congruence | by apply Huser].
    + assert (t = nt') as -> by congruence. destruct (Hu next nt Hn) as (Ea & Hx); [congruence|].
      rewrite Emn in *. split; [rewrite Hun by done; congruence | by apply Huser].
    + rewrite Ho in Ht by done. destruct (Hu p t Ht Hmm) as (Ea & Hx). split; [done | by apply Huser].
  - intros p t Ht Hmm. destruct (decide (p = prev)) as [->|Hne1]; [|destruct (decide (p = next)) as [->|Hne2]].
    + assert (t = pt') as -> by congruence. split; [|by intros _; apply Hlp; congruence].
      unfold runs_after. naive_solver.
    + assert (t = nt') as -> by congruence. split; [by intros _; apply Hln; congruence|].
      intros []. by right.
    + rewrite Ho in Ht by done. rewrite runs_after_other by done. by apply (Hl p).
  - intros a Ha Hpos. destruct (Hd a Ha) as (d & Hrefs & Hm & Hex). rewrite Hm, fmap_is_Some.
    destruct (decide (d = 0)) as [->|]; [apply He; [done|lia] | by apply Hex].
  - intros a x Hx Ha. destruct (Hd a Ha) as (d & Hrefs & Hm & Hex). rewrite Hm in Hx.
    destruct (m_mms m !! a) as [y|] eqn:Ey; cbn in Hx; [|done]. injection Hx as <-. cbn.
    pose proof (Hc a y Ey Ha). lia.
  - rewrite Ei. destruct Hi as (x & Hx & Hux & Hnn). destruct (Huser (m_init_mm m)) as (x' & ? & ?); eauto.
Qed.

(** [prev] owns an active address space, which [next] may borrow. *)
Lemma prev_active : ts_active_mm pt <> NULL /\ is_Some (m_mms m !! ts_active_mm pt).
Proof. exact (mm_active runs m prev pt Hinv Hp Hrp). Qed.

Lemma next_idle : ts_mm nt = NULL -> ts_active_mm nt = NULL.
Proof. intros E. by apply (mm_lazy _ _ _ Hinv next nt Hn E). Qed.

Lemma mm_count_same (x : option mm_struct) : x = (fun x => x <| mm_count := mm_count x + 0 |>) <$> x.
Proof. destruct x as [[u c]|]; cbn; [|done]. by rewrite Z.add_0_r. Qed.

(** The number of borrowers and of parked references after an update. *)
Lemma borrows_change ts p t t' a :
  ts !! p = Some t ->
  count_in (borrows a) (<[p := t']> ts) = count_in (borrows a) ts - b2z (borrows a t) + b2z (borrows a t').
Proof. apply count_in_change. Qed.

Lemma parked_change rs c x x' a :
  rs !! c = Some x ->
  count_in (parked a) (<[c := x']> rs) = count_in (parked a) rs - b2z (parked a x) + b2z (parked a x').
Proof. apply count_in_change. Qed.

(** Decide the tests of [borrows] and [parked]. *)
Ltac ref_tests :=
  unfold borrows, parked, NULL in *; cbn [ts_mm ts_active_mm rq_prev_mm upd];
  repeat match goal with |- context [?x =? ?y] => destruct (Z.eqb_spec x y) end;
  cbn; try lia; try congruence.

Lemma switch_kernel_kernel l :
  ts_mm nt = NULL -> ts_mm pt = NULL ->
  mm_inv runs_after NULL (m <| m_log := l |>
    <| m_tasks := <[prev := pt <| ts_active_mm := NULL |>]>
                    (<[next := nt <| ts_active_mm := ts_active_mm pt |>]> (m_tasks m)) |>).
Proof.
  intros En Ep. destruct prev_active as [Ha [x Hx]]. pose proof (next_idle En) as Hni.
  eapply mm_inv_switch; [| apply lookup_insert_eq
    | cbn; rewrite lookup_insert_ne by done; apply lookup_insert_eq | done..|].
  - intros p ? ?. cbn. by rewrite !lookup_insert_ne by done.
  - intros b Hb. exists 0. split; [|split; [apply mm_count_same | done]]. unfold mm_refs. cbn.
    rewrite (borrows_change _ prev pt), (borrows_change _ next nt)
      by (try done; by rewrite lookup_insert_ne by done).
    ref_tests.
Qed.

Lemma switch_user_kernel l x :
  ts_mm nt = NULL -> ts_mm pt <> NULL -> m_mms m !! ts_active_mm pt = Some x ->
  mm_inv runs_after NULL (m <| m_log := l |>
    <| m_tasks := <[next := nt <| ts_active_mm := ts_active_mm pt |>]> (m_tasks m) |>
    <| m_mms := <[ts_active_mm pt := x <| mm_count := mm_count x + 1 |>]> (m_mms m) |>).
Proof.
  intros En Ep Hx. destruct prev_active as [Ha _]. pose proof (next_idle En) as Hni.
  eapply mm_inv_switch; [| cbn; rewrite lookup_insert_ne by done; exact Hp | apply lookup_insert_eq | done..|].
  - intros p ? ?. cbn. by rewrite !lookup_insert_ne by done.
  - intros b Hb. exists (b2z (ts_active_mm pt =? b)). split; [|split].
    + unfold mm_refs. cbn. rewrite (borrows_change _ next nt) by done. ref_tests.
    + cbn. destruct (Z.eqb_spec (ts_active_mm pt) b) as [<-|Hne].
      * by rewrite lookup_insert_eq, Hx.
      * rewrite lookup_insert_ne by done. apply mm_count_same.
    + destruct (Z.eqb_spec (ts_active_mm pt) b) as [<-|Hne]; [by eexists | done].
Qed.

Lemma switch_kernel_user l :
  ts_mm nt <> NULL -> ts_mm pt = NULL ->
  mm_inv runs_after NULL (m <| m_log := l |>
    <| m_rqs := <[r := q <| rq_prev_mm := ts_active_mm pt |>]> (m_rqs m) |>
    <| m_tasks := <[prev := pt <| ts_active_mm := NULL |>]> (m_tasks m) |>).
Proof.
  intros En Ep. destruct prev_active as [Ha [x Hx]].
  eapply mm_inv_switch; [| apply lookup_insert_eq | cbn; rewrite lookup_insert_ne by done; exact Hn | done..|].
  - intros p ? ?. cbn. by rewrite !lookup_insert_ne by done.
  - intros b Hb. exists 0. split; [|split; [apply mm_count_same | done]]. unfold mm_refs. cbn.
    rewrite (borrows_change _ prev pt), (parked_change _ r q) by done. ref_tests.
Qed.

Lemma switch_user_user l : ts_mm nt <> NULL -> ts_mm pt <> NULL -> mm_inv runs_after NULL (m <| m_log := l |>).
Proof.
  intros En Ep. eapply mm_inv_switch; [done | exact Hp | exact Hn | done..|].
  intros b Hb. exists 0. split; [rewrite Z.add_0_r; done | split; [apply mm_count_same | done]].
Qed.

Lemma wp_switch_mm_lazy (Q : unit -> machine -> Prop) :
  (forall m', mm_inv runs_after NULL m' -> switch_frame m m' -> Q tt m') ->
  wp (switch_mm_lazy r prev next) Q m.
Proof.
  intros HQ. eapply (wp_call switch_frame _ (fun _ m' => mm_inv runs_after NULL m'));
    [| apply frame_switch_mm_lazy | intros []; auto].
  destruct prev_active as [Ha [x Hx]]. unfold switch_mm_lazy, mmgrab. wp_go.
  destruct (Z.eqb_spec (ts_mm nt) NULL) as [En|En], (Z.eqb_spec (ts_mm pt) NULL) as [Ep|Ep];
    cbn [negb]; kgo.
  - by apply switch_kernel_kernel.
  - by apply switch_user_kernel.
  - by apply switch_kernel_user.
  - by apply switch_user_user.
Qed.
End Switch.

(** ** Dropping a reference *)
Lemma mm_refs_hand hand m a : a <> NULL -> mm_refs hand m a = mm_refs NULL m a + b2z (hand =? a).
Proof. intros Ha. unfold mm_refs. destruct (Z.eqb_spec NULL a); [done|]. cbn. lia. Qed.

Lemma mm_refs_objs hand m m' a :
  m_tasks m' = m_tasks m -> m_rqs m' = m_rqs m -> mm_refs hand m' a = mm_refs hand m a.
Proof. unfold mm_refs. by intros -> ->. Qed.

(** What dropping a reference may change: the address spaces and the log. *)
Abbreviation drop_frame := (frame (fun t : task_struct => t) (fun q : rq => q) globals_switch).

Lemma frame_mmdrop mm : preserves drop_frame (mmdrop mm).
Proof.
  unfold mmdrop, __mmdrop, free_obj. framed; first
    [ apply preserves_upd_obj; [typeclasses eauto|]; by intros s x Hx
    | by apply preserves_modify ].
Qed.

Lemma wp___mmdrop mm m (Q : unit -> machine -> Prop) :
  mm <> m_init_mm m -> is_Some (m_tasks m !! m_current m) ->
  (forall l, Q tt (m <| m_log := l |> <| m_mms := delete mm (m_mms m) |>)) -> wp (__mmdrop mm) Q m.
Proof.
  intros Hni [t Ht] HQ. unfold __mmdrop. kgo. destruct (Z.eqb_spec mm (m_init_mm m)); [done|]. kgo.
  destruct (mm =? ts_mm t); kgo; destruct (mm =? ts_active_mm t); kgo; apply HQ.
Qed.

Section Drop.
Context (runs : Z -> Prop) (mm : Z) (m : machine).
Context (Hinv : mm_inv runs mm m) (Hmm : mm <> NULL).

Lemma mmdrop_exists : exists x, m_mms m !! mm = Some x /\ 0 < mm_count x /\
  mm_refs NULL m mm + b2z (0 <? mm_users x) <= mm_count x - 1.
Proof.
  pose proof (mm_refs_hand mm m mm Hmm) as Hr. rewrite Z.eqb_refl in Hr. cbn in Hr.
  pose proof (mm_refs_nonneg NULL m mm).
  destruct (mm_exist _ _ _ Hinv mm Hmm) as [x Hx]; [lia|]. exists x. split; [done|].
  pose proof (mm_counted _ _ _ Hinv mm x Hx Hmm). destruct (0 <? mm_users x); cbn in *; lia.
Qed.

Lemma mmdrop_inv m' :
  m_tasks m' = m_tasks m -> m_rqs m' = m_rqs m -> m_init_mm m' = m_init_mm m ->
  (exists x, m_mms m !! mm = Some x /\
    (m_mms m' = <[mm := x <| mm_count := mm_count x - 1 |>]> (m_mms m) \/
     (mm_count x = 1 /\ m_mms m' = delete mm (m_mms m)))) ->
  mm_inv runs NULL m'.
Proof.
  intros Et Er Ei (x & Hx & Hms). destruct Hinv as [Hu Hl He Hc Hi].
  destruct mmdrop_exists as (y & Hy & Hpos & Hle). assert (y = x) as -> by congruence.
  assert (Hother : forall a, a <> mm -> m_mms m' !! a = m_mms m !! a).
  { intros a Ha. destruct Hms as [-> | [_ ->]];
      [by rewrite lookup_insert_ne by done | by rewrite lookup_delete_ne by done]. }
  assert (Huser : forall a, (exists z, m_mms m !! a = Some z /\ 0 < mm_users z) ->
    exists z, m_mms m' !! a = Some z /\ 0 < mm_users z).
  { intros a (z & Hz & Huz). destruct (decide (a = mm)) as [->|Hne]; [|rewrite Hother; eauto].
    assert (z = x) as -> by congruence. destruct Hms as [-> | [Hone _]].
    - eexists. split; [apply lookup_insert_eq | done].
    - pose proof (mm_refs_nonneg NULL m mm). replace (0 <? mm_users x) with true in Hle by lia. cbn in Hle. lia. }
  assert (Hrefs : forall a, a <> NULL -> mm_refs NULL m' a = mm_refs mm m a - b2z (mm =? a)).
  { intros a Ha. rewrite (mm_refs_objs NULL m m' a Et Er), (mm_refs_hand mm m a Ha). lia. }
  split; rewrite ?Et, ?Ei.
  - intros p t Ht Hn. destruct (Hu p t Ht Hn) as [? ?]. split; [done | by apply Huser].
  - done.
  - intros a Ha Hp. rewrite Hrefs in Hp by done. destruct (decide (a = mm)) as [->|Hne].
    + destruct Hms as [-> | [Hone _]]; [rewrite lookup_insert_eq; by eexists|].
      pose proof (mm_refs_hand mm m mm Ha) as E. destruct (0 <? mm_users x); cbn in Hle; lia.
    + rewrite Hother by done. apply He; [done|]. destruct (Z.eqb_spec mm a); [done|]. cbn in Hp. lia.
  - intros a z Hz Ha. rewrite Hrefs by done. destruct (decide (a = mm)) as [->|Hne].
    + destruct Hms as [E | [_ E]]; rewrite E in Hz; [|by rewrite lookup_delete_eq in Hz].
      rewrite lookup_insert_eq in Hz. injection Hz as <-. cbn.
      pose proof (mm_refs_hand mm m mm Ha) as E'. rewrite E'. lia.
    + rewrite Hother in Hz by done. pose proof (Hc a z Hz Ha). destruct (Z.eqb_spec mm a); [done|]. cbn. lia.
  - destruct Hi as (z & Hz & Hzu & Hzn). destruct (Huser (m_init_mm m)) as (z' & ? & ?); eauto.
Qed.

(** A dropped address space is freed only when nobody uses it, and dropping
    the reference in hand never faults. *)
Lemma wp_mmdrop (Q : unit -> machine -> Prop) :
  is_Some (m_tasks m !! m_current m) ->
  (forall m', mm_inv runs NULL m' -> drop_frame m m' -> Q tt m') -> wp (mmdrop mm) Q m.
Proof.
  intros [t Ht] HQ. eapply (wp_call drop_frame _ (fun _ m' => mm_inv runs NULL m'));
    [| apply frame_mmdrop | intros []; auto].
  destruct mmdrop_exists as (x & Hx & Hpos & Hle). unfold mmdrop. wp_go. cbn [mm_count upd].
  destruct (Z.eqb_spec (mm_count x - 1) 0) as [E|E].
  2:{ apply mmdrop_inv; [done..|]. exists x. split; [done | by left]. }
  assert (Hni : mm <> m_init_mm m).
  { intros ->. destruct (mm_init _ _ _ Hinv) as (z & Hz & Hu & _). assert (z = x) as -> by congruence.
    pose proof (mm_refs_nonneg NULL m (m_init_mm m)). replace (0 <? mm_users x) with true in Hle by lia.
    cbn in Hle. lia. }
  apply wp___mmdrop; [done | by eexists |]. intros l. apply mmdrop_inv; [done..|].
  exists x. split; [done|]. right. split; [lia|]. cbn. apply delete_insert_eq.
Qed.
End Drop.
