(* ===== verification/ScheduleProofs.v ===== *)
(** Correctness of the scheduler core: __schedule() returns on every
    well-formed machine, runs a task of its CPU afterwards, applies the fixed
    priority of the task switched to and changes no other priority, and never
    lets a lazily borrowed address space be freed. *)
From S2P Require Import Prelude Headers Kernel Extern RqClock Uclamp UclampProofs Prio SchedOK.
From S2P Require Import Mm Affinity AffinityProofs Schedule LazyMm.

Section Pick.
Context {H : Headers} {X : Extern} {HOK : HeadersOK H} {XOK : ExternOK X} {XS : ExternSafe X}.

Lemma rq_live_frame {A B C} (pt : task_struct -> A) (pr : rq -> B) (pg : machine -> C) m m' r :
  frame pt pr pg m m' -> is_Some (m_rqs m !! r) -> is_Some (m_rqs m' !! r).
Proof. intros F [q Hq]. destruct (frame_rq _ _ _ _ _ _ _ F Hq) as (? & ? & _). by eexists. Qed.

Lemma wp_balance_pass r prev classes m (Q : unit -> machine -> Prop) :
  kernel_ok m -> live m r prev ->
  (forall m', kernel_ok m' -> class_frame m m' -> Q tt m') -> wp (balance_pass r prev classes) Q m.
Proof.
  revert m. induction classes as [|c cs IH]; intros m Hok Hl HQ; cbn; [by apply wp_ret, HQ|].
  apply wp_bind. eapply wp_call; [by apply balance_safe | auto with preserve |].
  intros b m1 Hok1 F1. destruct b; [by apply wp_ret, HQ|].
  apply IH; [done | by eapply live_frame |]. intros m2 Hok2 F2. apply HQ; [done | by etransitivity].
Qed.

Lemma wp_pick_idle r m (Q : Z -> machine -> Prop) :
  kernel_ok m -> is_Some (m_rqs m !! r) ->
  (forall p m', kernel_ok m' -> class_frame m m' -> task_on m' r p -> p <> NULL -> Q p m') ->
  wp (cl_pick_next_task idle_sched_class r) Q m.
Proof.
  intros Hok Hr HQ.
  eapply wp_call; [apply wp_conj; [by apply pick_returns | by apply pick_idle] | apply pick_frame |].
  intros p m1 [Hp Hne] F1.
  apply HQ; [by eapply kernel_ok_quiet | by apply quiet_class_frame | by destruct Hp | done].
Qed.

(** The classes are asked from the highest down; idle, the last, answers. *)
Lemma wp_pick_first r pre m (Q : Z -> machine -> Prop) :
  kernel_ok m -> is_Some (m_rqs m !! r) ->
  (forall p m', kernel_ok m' -> class_frame m m' -> task_on m' r p -> Q p m') ->
  wp (pick_first r (pre ++ [idle_sched_class])) Q m.
Proof.
  revert m. induction pre as [|c cs IH]; intros m Hok Hr HQ; cbn; apply wp_bind.
  - apply wp_pick_idle; [done | done |]. intros p m1 Hok1 F1 Hp Hne.
    replace (p =? NULL) with false by (unfold NULL in *; lia). cbn. by apply wp_ret, HQ.
  - eapply wp_call; [by apply pick_returns | apply pick_frame |]. intros p m1 Hp F1.
    assert (kernel_ok m1) by (by eapply kernel_ok_quiet).
    destruct (p =? NULL) eqn:E; cbn.
    + apply IH; [done | by eapply rq_live_frame |]. intros p' m2 Hok2 F2. apply HQ; [done|].
      etransitivity; [by apply quiet_class_frame | done].
    + apply wp_ret, HQ; [done | by apply quiet_class_frame |]. destruct Hp; [unfold NULL in *; lia | done].
Qed.

Lemma wp_pick_restart r prev m (Q : Z -> machine -> Prop) :
  kernel_ok m -> live m r prev ->
  (forall p m', kernel_ok m' -> class_frame m m' -> task_on m' r p -> Q p m') ->
  wp (pick_restart r prev) Q m.
Proof.
  intros Hok Hl HQ. unfold pick_restart, put_prev_task_balance. destruct (Hl) as [_ [t Ht]]. wp_go.
  apply wp_balance_pass; [done | done |]. intros m1 Hok1 F1.
  apply wp_put_prev_task; [done | by eapply live_frame |]. intros m2 Hok2 F2.
  assert (F12 : class_frame m m2) by (etransitivity; [exact F1 | by apply quiet_class_frame]).
  apply (wp_pick_first r [stop_sched_class; dl_sched_class; rt_sched_class; fair_sched_class]);
    [done | eapply rq_live_frame; [exact F12 | apply Hl] |].
  intros p m3 Hok3 F3. apply HQ; [done | by etransitivity].
Qed.

Lemma wp_pick_next_task r prev m (Q : Z -> machine -> Prop) :
  kernel_ok m -> live m r prev ->
  (forall p m', kernel_ok m' -> class_frame m m' -> task_on m' r p -> Q p m') ->
  wp (pick_next_task r prev) Q m.
Proof.
  intros Hok Hl HQ. unfold pick_next_task, __pick_next_task. destruct (Hl) as [[q Hq] [t Ht]]. wp_go.
  case_match; [|by apply wp_pick_restart]. apply wp_bind.
  eapply wp_call; [by apply pick_fair_safe | auto with preserve |]. intros p m1 [Hok1 Hp] F1.
  assert (Hl1 : live m1 r prev) by (by eapply live_frame).
  destruct (p =? RETRY_TASK) eqn:E1.
  { apply wp_pick_restart; [done | done |]. intros p' m2 Hok2 F2. apply HQ; [done | by etransitivity]. }
  destruct (p =? NULL) eqn:E2.
  - apply wp_bind, wp_put_prev_task; [done | done |]. intros m2 Hok2 F2.
    assert (F12 : class_frame m m2) by (etransitivity; [exact F1 | by apply quiet_class_frame]).
    apply wp_pick_idle; [done | eapply rq_live_frame; [exact F12 | apply Hl] |].
    intros p' m3 Hok3 F3 Hp' _. apply HQ; [done | by etransitivity | done].
  - apply wp_ret, HQ; [done | done |]. destruct Hp as [?|[?|?]]; [lia | unfold NULL in *; lia | done].
Qed.
End Pick.

(** * The invariant between two scheduler entries *)
Definition running (m : machine) (p : Z) : Prop :=
  exists c q, m_rqs m !! c = Some q /\ rq_curr q = p.

Section Invariant.
Context {H : Headers} {X : Extern} {HOK : HeadersOK H}.

Record sched_ok (m : machine) : Prop := Mk_sched_ok {
  so_kernel : kernel_ok m;
  so_mm : mm_inv (running m) NULL m;
  so_parked : forall c q, m_rqs m !! c = Some q -> rq_prev_mm q = NULL;
  so_current : exists q, m_rqs m !! m_this_cpu m = Some q /\ rq_curr q = m_current m;
}.

(** The priorities of a task. *)
Definition prio_attrs (t : task_struct) :=
  (ts_prio t, ts_normal_prio t, ts_rt_priority t, ts_my_fixed_priority t, ts_policy t, ts_class t).

(** Up to the switch, a scheduler entry changes none of these. *)
Definition task_head (t : task_struct) := (prio_attrs t, ts_static_prio t, task_mmp t).
Definition rq_head (q : rq) := (rq_cpu q, rq_curr q, rq_idle q, rq_prev_mm q).
Definition globals_head (m : machine) := (m_this_cpu m, m_current m, globals_mmp m).
Abbreviation head_frame := (frame task_head rq_head globals_head).

Lemma class_head_frame m m' : class_frame m m' -> head_frame m m'.
Proof.
  apply frame_weaken.
  - intros t t' E. exact (f_equal task_head E).
  - intros q q' E. unfold rq_attrs in E. unfold rq_head. congruence.
  - unfold globals, globals_head, globals_mmp. congruence.
Qed.

Lemma head_mm_frame m m' : head_frame m m' -> mm_frame m m'.
Proof.
  apply frame_weaken.
  - intros t t' E. unfold task_head in E. congruence.
  - intros q q' E. unfold rq_head in E. congruence.
  - unfold globals_head. congruence.
Qed.

(** [sched_ok] does not depend on the priorities. *)
Abbreviation so_frame := (frame task_mmp rq_head globals_head).

Lemma head_so_frame m m' : head_frame m m' -> so_frame m m'.
Proof. apply frame_weaken; unfold task_head; congruence. Qed.

Lemma running_so m m' p : so_frame m m' -> running m p -> running m' p.
Proof.
  intros F (c & q & Hq & E). destruct (frame_rq _ _ _ _ _ _ _ F Hq) as (q' & Hq' & E').
  exists c, q'. unfold rq_head in E'. split; [done | congruence].
Qed.

Lemma sched_ok_so m m' : so_frame m m' -> kernel_ok m' -> sched_ok m -> sched_ok m'.
Proof.
  intros F Hok' [Hok Hmm Hp (q & Hq & Hc)]. assert (F' : so_frame m' m) by (by symmetry). split.
  - done.
  - eapply mm_inv_runs.
    2:{ eapply mm_inv_frame; [|exact Hmm]. revert F. apply frame_weaken;
          unfold rq_head, globals_head; congruence. }
    intros p _. split; by apply running_so.
  - intros c q' Hq'. destruct (frame_rq _ _ _ _ _ _ _ F' Hq') as (q0 & Hq0 & E). unfold rq_head in E.
    rewrite <- (Hp c q0 Hq0). congruence.
  - destruct (frame_rq _ _ _ _ _ _ _ F Hq) as (q' & Hq' & E). unfold rq_head in E.
    assert (Eg : globals_head m = globals_head m') by apply F. unfold globals_head in Eg.
    exists q'. split; [congruence | congruence].
Qed.

Lemma sched_ok_head m m' : head_frame m m' -> kernel_ok m' -> sched_ok m -> sched_ok m'.
Proof. intros F. apply sched_ok_so. by apply head_so_frame. Qed.

(** A CPU's current task runs nowhere else, and a task of this CPU that is not
    current is not running. *)
Lemma running_cpu m p t : kernel_ok m -> m_tasks m !! p = Some t -> running m p ->
  exists q, m_rqs m !! ts_cpu t = Some q /\ rq_curr q = p.
Proof.
  intros Hok Ht (c & q & Hq & E). destruct (ok_rqs m Hok c q Hq) as (_ & (t' & Ht' & Hc) & _).
  exists q. split; [|done]. assert (t' = t) by congruence. congruence.
Qed.

Lemma not_running m r q p : kernel_ok m -> m_rqs m !! r = Some q -> rq_curr q <> p -> task_on m r p ->
  ~ running m p.
Proof.
  intros Hok Hq Hne (t & Ht & Hc) Hrun. destruct (running_cpu m p t Hok Ht Hrun) as (q' & Hq' & E). congruence.
Qed.

Lemma kernel_ok_curr m r q next :
  kernel_ok m -> m_rqs m !! r = Some q -> task_on m r next ->
  kernel_ok (m <| m_rqs := <[r := q <| rq_curr := next |>]> (m_rqs m) |>).
Proof.
  intros [Hn Hr Ht Hth Hu Hc Ha] Hq Hon.
  pose (m' := m <| m_rqs := <[r := q <| rq_curr := next |>]> (m_rqs m) |>).
  assert (Hlook : forall c q', m_rqs m' !! c = Some q' -> exists q0, m_rqs m !! c = Some q0 /\
    rq_cpu q' = rq_cpu q0 /\ rq_idle q' = rq_idle q0 /\ rq_uclamp q' = rq_uclamp q0 /\
    rq_uclamp_flags q' = rq_uclamp_flags q0 /\ (rq_curr q' = rq_curr q0 \/ (c = r /\ rq_curr q' = next))).
  { intros c q'. cbn. rewrite lookup_insert. case_decide as E.
    - subst c. intros [= <-]. exists q. cbn. tauto.
    - intros Hq'. exists q'. tauto. }
  assert (Hrq : forall c, is_Some (m_rqs m !! c) -> is_Some (m_rqs m' !! c)).
  { intros c Hc'. cbn. rewrite lookup_insert. by case_decide. }
  split; [done| | | by apply Hrq | |done|done].
  - intros c q' Hq'. destruct (Hlook c q' Hq') as (q0 & Hq0 & -> & -> & _ & _ & E).
    destruct (Hr c q0 Hq0) as (? & ? & ?). split; [done|]. split; [|done]. destruct E as [->|[-> ->]]; done.
  - intros p t Hp. destruct (Ht p t Hp). split; [by apply Hrq | done].
  - destruct Hu as [Hu1 Hu2]. split; [|done]. intros c q' Hq'.
    destruct (Hlook c q' Hq') as (q0 & Hq0 & _ & _ & E1 & E2 & _). specialize (Hu1 c q0 Hq0).
    unfold rq_clamps_ok, uclamp_idle in *. rewrite E1, E2. exact Hu1.
Qed.
End Invariant.

Abbreviation head_frame := (frame task_head rq_head globals_head).
Abbreviation so_frame := (frame task_mmp rq_head globals_head).

(** * The switch *)
Section Tail.
Context {H : Headers} {X : Extern} {HOK : HeadersOK H} {XOK : ExternOK X} {XS : ExternSafe X}.
(** The task the CPU executes. *)
Context {cur : Z}.

(** What the last part of a scheduler entry leaves alone. *)
Definition task_tail (t : task_struct) := (prio_attrs t, ts_static_prio t).
Definition rq_tail (q : rq) := (rq_cpu q, rq_curr q, rq_idle q).
Abbreviation tail_frame := (frame task_tail rq_tail m_this_cpu).

Lemma class_tail_frame m m' : class_frame m m' -> tail_frame m m'.
Proof.
  apply frame_weaken.
  - intros t t' E. exact (f_equal task_tail E).
  - intros q q' E. unfold rq_attrs in E. unfold rq_tail. congruence.
  - unfold globals. congruence.
Qed.

(** The state inside the switch: [runs] are the running tasks, [hand] the
    address space to be dropped, [c] the preemption count. *)
Record mid (runs : Z -> Prop) (hand c : Z) (m : machine) : Prop := Mk_mid {
  mid_kernel : kernel_ok m;
  mid_mm : mm_inv runs hand m;
  mid_count : m_preempt_count m = c;
  mid_current : m_current m = cur;
  mid_alive : is_Some (m_tasks m !! cur);
}.

(** Core.c's writes outside all of this. *)
Definition task_midp (t : task_struct) := (task_okp t, task_mmp t, task_tail t).
Definition rq_midp (q : rq) := (rq_okp q, rq_prev_mm q).
Definition globals_midp (m : machine) :=
  (globals_okp m, globals_mmp m, m_preempt_count m, m_current m).
Abbreviation mid_frame := (frame task_midp rq_midp globals_midp).

Lemma mid_frame_mid runs hand c m m' : mid_frame m m' -> mid runs hand c m -> mid runs hand c m'.
Proof.
  intros F [Hok Hmm Hc Hcur [t Ht]]. assert (Eg : globals_midp m = globals_midp m') by apply F.
  unfold globals_midp in Eg.
  assert (Fo : ok_frame m m') by (revert F; apply frame_weaken; unfold task_midp, rq_midp; congruence).
  assert (Fm : mm_frame m m') by (revert F; apply frame_weaken; unfold task_midp, rq_midp; congruence).
  split; [by eapply kernel_ok_frame | by eapply mm_inv_frame | congruence | congruence |].
  destruct (frame_task _ _ _ _ _ _ _ F Ht) as (t' & Ht' & _). by exists t'.
Qed.

Lemma mid_frame_tail m m' : mid_frame m m' -> tail_frame m m'.
Proof.
  apply frame_weaken; unfold task_midp, rq_midp, rq_okp, rq_tail, globals_midp, globals_okp; congruence.
Qed.

Lemma class_mid runs hand c m m' :
  class_frame m m' -> kernel_ok m' -> mid runs hand c m -> mid runs hand c m'.
Proof.
  intros F Hok' [Hok Hmm Hc Hcur [t Ht]]. assert (Eg : globals m = globals m') by apply F. unfold globals in Eg.
  split; [done | eapply mm_inv_frame; [by apply class_mm_frame | done] | congruence | congruence |].
  destruct (frame_task _ _ _ _ _ _ _ F Ht) as (t' & Ht' & _). by exists t'.
Qed.

(** Programs that stay inside [mid_frame]. *)
Lemma wp_mid {A} (c : K A) runs hand n m (Q : A -> machine -> Prop) :
  mid runs hand n m -> returns c m -> preserves mid_frame c ->
  (forall a m', mid runs hand n m' -> mid_frame m m' -> Q a m') -> wp c Q m.
Proof.
  intros Hm Hr Hp HQ. eapply wp_call; [exact Hr | exact Hp |].
  intros a m' _ F. apply HQ; [by eapply mid_frame_mid | done].
Qed.

Lemma mid_frame_emit n a : preserves mid_frame (emit n a).
Proof. by apply frame_emit. Qed.

Lemma wp_mid_emit n a runs hand c m (Q : unit -> machine -> Prop) :
  mid runs hand c m -> (forall m', mid runs hand c m' -> mid_frame m m' -> Q tt m') -> wp (emit n a) Q m.
Proof. intros Hm HQ. eapply wp_mid; [exact Hm | done | apply mid_frame_emit |]. intros []. apply HQ. Qed.

(** The state inside the switch, relative to the machine [base] in which the
    new task became current; only the run queues in [ex] may hold a parked
    reference. *)
Record at_tail (base : machine) (runs : Z -> Prop) (hand c : Z) (ex : Z -> Prop) (m : machine) : Prop := Mk_at_tail {
  at_mid : mid runs hand c m;
  at_frame : tail_frame base m;
  at_parked : forall k q, m_rqs m !! k = Some q -> ~ ex k -> rq_prev_mm q = NULL;
}.

Lemma parked_frame {A C} (pt : task_struct -> A) (pr : rq -> Z) (pg : machine -> C) (ex : Z -> Prop) m m' :
  frame pt pr pg m m' ->
  (forall k q, m_rqs m !! k = Some q -> ~ ex k -> pr q = NULL) ->
  (forall k q, m_rqs m' !! k = Some q -> ~ ex k -> pr q = NULL).
Proof.
  intros F Hp k q' Hq' Hx. assert (F' : frame pt pr pg m' m) by (by symmetry).
  destruct (frame_rq _ _ _ _ _ _ _ F' Hq') as (q & Hq & E). rewrite E. by eapply Hp.
Qed.

Lemma at_tail_mid base runs hand c ex m m' :
  mid_frame m m' -> at_tail base runs hand c ex m -> at_tail base runs hand c ex m'.
Proof.
  intros F [Hm Hf Hp]. split; [by eapply mid_frame_mid | etransitivity; [exact Hf | by apply mid_frame_tail] |].
  eapply parked_frame; [|exact Hp].
  apply (frame_weaken _ _ _ task_mmp rq_prev_mm globals_mmp) in F; [exact F | ..];
    unfold task_midp, rq_midp, globals_midp; congruence.
Qed.

Lemma at_tail_class base runs hand c ex m m' :
  class_frame m m' -> kernel_ok m' -> at_tail base runs hand c ex m -> at_tail base runs hand c ex m'.
Proof.
  intros F Hok [Hm Hf Hp]. split; [by eapply class_mid | etransitivity; [exact Hf | by apply class_tail_frame] |].
  eapply parked_frame; [by apply class_mm_frame | exact Hp].
Qed.

Lemma wp_at_emit n a base runs hand c ex m (Q : unit -> machine -> Prop) :
  at_tail base runs hand c ex m -> (forall m', at_tail base runs hand c ex m' -> Q tt m') -> wp (emit n a) Q m.
Proof.
  intros Hm HQ. apply wp_emit, HQ. eapply at_tail_mid; [|exact Hm]. done.
Qed.

Lemma wp_at_upd_task p g base runs hand c ex m (Q : unit -> machine -> Prop) :
  at_tail base runs hand c ex m -> is_Some (m_tasks base !! p) -> (forall t, task_midp (g t) = task_midp t) ->
  (forall m', at_tail base runs hand c ex m' -> Q tt m') -> wp (upd_obj (R := task_struct) p g) Q m.
Proof.
  intros Hm [t0 Ht0] Hg HQ. destruct (frame_task _ _ _ _ _ _ _ (at_frame _ _ _ _ _ _ Hm) Ht0) as (t & Ht & _).
  apply wp_upd_obj. exists t. split; [done|]. apply HQ. eapply at_tail_mid; [|exact Hm].
  by apply frame_set_task with t; [| apply Hg |].
Qed.

Lemma wp_at_upd_rq r g base runs hand c ex m (Q : unit -> machine -> Prop) :
  at_tail base runs hand c ex m -> is_Some (m_rqs base !! r) -> (forall q, rq_midp (g q) = rq_midp q) ->
  (forall m', at_tail base runs hand c ex m' -> Q tt m') -> wp (upd_obj (R := rq) r g) Q m.
Proof.
  intros Hm [q0 Hq0] Hg HQ. destruct (frame_rq _ _ _ _ _ _ _ (at_frame _ _ _ _ _ _ Hm) Hq0) as (q & Hq & _).
  apply wp_upd_obj. exists q. split; [done|]. apply HQ. eapply at_tail_mid; [|exact Hm].
  by apply frame_set_rq with q; [| apply Hg |].
Qed.

(** Preemption counts: the run-queue lock is released. *)
Lemma wp_at_unlock base runs hand ex m (Q : unit -> machine -> Prop) :
  at_tail base runs hand 2 ex m -> (forall m', at_tail base runs hand 1 ex m' -> Q tt m') ->
  wp raw_spin_rq_unlock_irq Q m.
Proof.
  intros [[Hok Hmm Hc Hcur Hal] Hf Hp] HQ. pose proof preempt_offsets_val as E. injection E as Em _ _ _.
  unfold raw_spin_rq_unlock_irq, preempt_count_sub, preempt_latency_stop. kgo. rewrite Hc, Em. cbn.
  change (negb (truthy (Z.land 2 255))) with false. kgo. rewrite Hc. cbn. kgo. apply HQ. split; [|done|done].
  split; [by eapply kernel_ok_frame; [|exact Hok] | by eapply mm_inv_frame; [|exact Hmm] | done..].
Qed.

(** Taking the parked reference in hand. *)
Lemma wp_at_unpark r q base runs c m (Q : unit -> machine -> Prop) :
  at_tail base runs NULL c (fun k => k = r) m -> m_rqs m !! r = Some q ->
  (forall m', at_tail base runs (rq_prev_mm q) c (fun _ => False) m' -> Q tt m') ->
  wp (set! r ⇝ rq_prev_mm := NULL) Q m.
Proof.
  intros [[Hok Hmm Hc Hcur Hal] Hf Hp] Hq HQ. wp_go. apply HQ.
  pose (m' := m <| m_rqs := <[r := q <| rq_prev_mm := NULL |>]> (m_rqs m) |>).
  change (at_tail base runs (rq_prev_mm q) c (fun _ => False) m').
  assert (Hrefs : forall a, a <> NULL -> mm_refs (rq_prev_mm q) m' a = mm_refs NULL m a).
  { intros a Ha. unfold mm_refs. cbn. rewrite (parked_change _ r q) by done. unfold parked. cbn.
    destruct (Z.eqb_spec NULL a); [done|]. cbn. lia. }
  split.
  - split; [by eapply kernel_ok_rq; [| exact Hq |] | | done..].
    destruct Hmm as [Hu Hl He Hct Hi]. split; [done | done | | | done].
    + intros a Ha. rewrite Hrefs by done. by apply He.
    + intros a x Hx Ha. rewrite Hrefs by done. by apply Hct.
  - etransitivity; [exact Hf|]. by apply frame_set_rq with q.
  - intros k q'. cbn. rewrite lookup_insert. case_decide; [by intros [= <-]|]. intros Hq' _. by apply (Hp k).
Qed.

Lemma wp_at_mmdrop mm base runs c ex m (Q : unit -> machine -> Prop) :
  at_tail base runs mm c ex m ->
  (forall m', at_tail base runs NULL c ex m' -> Q tt m') ->
  wp (when (negb (mm =? NULL)) (emit "membarrier_mm_sync_core_before_usermode" [mm] ;; mmdrop mm)) Q m.
Proof.
  intros Hat HQ. apply wp_when. destruct (Z.eqb_spec mm NULL) as [->|Hne]; cbn [negb]; [by apply HQ|].
  apply wp_bind. eapply wp_at_emit; [exact Hat|]. intros m1 [[Hok Hmm Hc Hcur Hal] Hf Hp].
  eapply wp_mmdrop; [exact Hmm | exact Hne | by rewrite Hcur |]. intros m2 Hmm2 F2. apply HQ.
  assert (Eg : globals_switch m1 = globals_switch m2) by apply F2. unfold globals_switch in Eg.
  split.
  - split; [|done|congruence|congruence|].
    + eapply kernel_ok_frame; [|exact Hok]. revert F2. apply frame_weaken; [congruence | congruence |].
      unfold globals_switch, globals_okp. congruence.
    + destruct Hal as [t Ht]. destruct (frame_task _ _ _ _ _ _ _ F2 Ht) as (t' & Ht' & _). by exists t'.
  - etransitivity; [exact Hf|]. revert F2. apply frame_weaken; [congruence | congruence |].
    unfold globals_switch. congruence.
  - assert (F3 : frame (fun t : task_struct => t) rq_prev_mm globals_switch m1 m2)
      by (revert F2; apply frame_weaken; congruence).
    eapply parked_frame; [exact F3 | exact Hp].
Qed.

Ltac at_emit :=
  apply wp_bind;
  match goal with Hat : at_tail _ _ _ _ _ ?m |- wp (emit _ _) _ ?m =>
    eapply wp_at_emit; [exact Hat|]; clear dependent m; intros ?m ?Hat end.

Lemma at_tail_task base runs hand c ex m p :
  at_tail base runs hand c ex m -> is_Some (m_tasks base !! p) -> exists t, m_tasks m !! p = Some t.
Proof. intros Hat [t0 Ht0]. destruct (frame_task _ _ _ _ _ _ _ (at_frame _ _ _ _ _ _ Hat) Ht0) as (t & ? & _). eauto. Qed.

Lemma wp_finish_task_switch prev base runs m r (Q : Z -> machine -> Prop) :
  at_tail base runs NULL 2 (fun k => k = r) m -> m_this_cpu base = r ->
  is_Some (m_rqs base !! r) -> is_Some (m_tasks base !! prev) ->
  (forall m', at_tail base runs NULL 1 (fun _ => False) m' -> Q r m') ->
  wp (finish_task_switch prev) Q m.
Proof.
  intros Hat Er [q0 Hq0] Hp HQ. pose proof preempt_offsets_val as E. injection E as _ Eo _ _.
  assert (Em : m_this_cpu m = r) by (rewrite <- Er; symmetry; apply Hat).
  destruct (frame_rq _ _ _ _ _ _ _ (at_frame _ _ _ _ _ _ Hat) Hq0) as (q & Hq & _).
  unfold finish_task_switch. kgo. rewrite Em. kgo.
  rewrite (mid_count _ _ _ _ (at_mid _ _ _ _ _ _ Hat)), Eo. cbn -[emit mmdrop]. apply wp_bind.
  eapply wp_at_unpark; [exact Hat | exact Hq |]. clear dependent m. intros m Hat.
  set (mm := rq_prev_mm q) in *. clearbody mm.
  destruct (at_tail_task _ _ _ _ _ _ _ Hat Hp) as [t Ht]. apply wp_bind, wp_rd. exists t. split; [done|].
  set (prev_state := ts_state t). clearbody prev_state. clear Ht t. do 2 at_emit.
  unfold finish_task. apply wp_bind. eapply wp_at_upd_task; [exact Hat | done | done |].
  clear dependent m. intros m Hat. at_emit.
  unfold finish_lock_switch. apply wp_bind, wp_bind, wp_balance_callbacks; [apply Hat | |].
  { destruct (frame_rq _ _ _ _ _ _ _ (at_frame _ _ _ _ _ _ Hat) Hq0) as (q' & ? & _). by eexists. }
  intros m1 Hok1 F1. apply (at_tail_class _ _ _ _ _ _ _ F1 Hok1) in Hat. clear dependent m.
  eapply wp_at_unlock; [exact Hat|]. clear dependent m1. intros m Hat. do 3 at_emit.
  apply wp_bind. eapply wp_at_mmdrop; [exact Hat|]. clear dependent m. intros m Hat.
  apply wp_bind, wp_when. destruct (prev_state =? TASK_DEAD); [|by apply wp_ret, HQ].
  destruct (at_tail_task _ _ _ _ _ _ _ Hat Hp) as [t Ht]. wp_go.
  assert (Hend : forall m', at_tail base runs NULL 1 (fun _ => False) m' ->
    wp (emit "put_task_stack" [prev] ;; emit "put_task_struct_rcu_user" [prev]) (fun _ => wp (mret r) Q) m').
  { intros m' Hat'. kgo. apply HQ. eapply at_tail_mid; [|exact Hat']. done. }
  destruct (has_task_dead _); [|by apply Hend].
  apply wp_quiet; [apply Hat | apply task_dead_returns; [apply Hat | by eexists] | auto with preserve |].
  intros _ m1 Hok1 F1. apply Hend. eapply at_tail_class; [by apply quiet_class_frame | done | done].
Qed.
End Tail.

Ltac at_emit :=
  apply wp_bind;
  match goal with Hat : at_tail _ _ _ _ _ ?m |- wp (emit _ _) _ ?m =>
    eapply wp_at_emit; [exact Hat|]; clear dependent m; intros ?m ?Hat end.

Abbreviation tail_frame := (frame task_tail rq_tail m_this_cpu).

Section Switching.
Context {H : Headers} {X : Extern} {HOK : HeadersOK H} {XOK : ExternOK X} {XS : ExternSafe X}.

Lemma wp_context_switch cur r prev next base runs m (Q : Z -> machine -> Prop) :
  at_tail (cur := cur) base runs NULL 2 (fun _ => False) m -> m_this_cpu base = r ->
  is_Some (m_rqs base !! r) -> is_Some (m_tasks base !! prev) -> is_Some (m_tasks base !! next) ->
  prev <> next -> runs prev -> ~ runs next ->
  (forall m', at_tail (cur := next) base (runs_after runs prev next) NULL 1 (fun _ => False) m' -> Q r m') ->
  wp (context_switch r prev next) Q m.
Proof.
  intros Hat Er Hr Hp Hn Hne Hrp Hrn HQ. unfold context_switch, prepare_task_switch.
  apply wp_bind. do 6 at_emit. unfold prepare_task.
  eapply wp_at_upd_task; [exact Hat | done | done |]. clear dependent m. intros m Hat. at_emit.
  destruct Hr as [q0 Hq0].
  destruct (frame_rq _ _ _ _ _ _ _ (at_frame _ _ _ _ _ _ Hat) Hq0) as (q & Hq & _).
  destruct (at_tail_task _ _ _ _ _ _ _ Hat Hp) as [pt Hpt].
  destruct (at_tail_task _ _ _ _ _ _ _ Hat Hn) as [nt Hnt].
  apply wp_bind. eapply (wp_call (same_rqs_but r) _
    (fun _ m' => mm_inv (runs_after runs prev next) NULL m' /\ switch_frame m m')).
  { eapply wp_switch_mm_lazy; [apply Hat | exact Hpt | exact Hnt | exact Hq | done..| | done].
    apply (at_parked _ _ _ _ _ _ Hat r q Hq). auto. }
  { apply switch_mm_lazy_rqs. }
  intros _ m1 [Hmm1 F1] Hothers.
  assert (Eg : globals_switch m = globals_switch m1) by apply F1. unfold globals_switch in Eg.
  assert (Hat1 : at_tail (cur := cur) base (runs_after runs prev next) NULL 2 (fun k => k = r) m1).
  { destruct Hat as [[Hok Hmm Hc Hcur [tc Htc]] Hf Hpk]. split; [split; [|done|congruence|congruence|]| |].
    - eapply kernel_ok_frame; [|exact Hok]. revert F1. apply frame_weaken.
      + intros t t' E. exact (f_equal task_okp E).
      + intros x x' E. exact (f_equal rq_okp E).
      + unfold globals_switch, globals_okp. congruence.
    - destruct (frame_task _ _ _ _ _ _ _ F1 Htc) as (t' & Ht' & _). by exists t'.
    - etransitivity; [exact Hf|]. revert F1. apply frame_weaken.
      + intros t t' E. exact (f_equal task_tail E).
      + intros x x' E. exact (f_equal rq_tail E).
      + unfold globals_switch. congruence.
    - intros k qk Hqk Hk. rewrite Hothers in Hqk by done. eapply Hpk; [exact Hqk | auto]. }
  clear dependent m. clear Hmm1. rename m1 into m, Hat1 into Hat.
  unfold clear_skip_flags. apply wp_bind. eapply wp_at_upd_rq; [exact Hat | by eexists | done |].
  clear dependent m. intros m Hat. unfold prepare_lock_switch, switch_to. at_emit.
  apply wp_bind. at_emit. apply wp_setg.
  assert (Hat' : at_tail (cur := next) base (runs_after runs prev next) NULL 2 (fun k => k = r)
    (m <| m_current := next |>)).
  { destruct (at_tail_task _ _ _ _ _ _ _ Hat Hn) as [nt' Hnt'].
    destruct Hat as [[Hok Hmm Hc Hcur _] Hf Hpk].
    split; [split; [by eapply kernel_ok_frame; [|exact Hok] | by eapply mm_inv_frame; [|exact Hmm]
      | done | done | by eexists] | | done].
    etransitivity; [exact Hf|]. done. }
  eapply wp_finish_task_switch; [exact Hat' | done | by eexists | done | done].
Qed.

Lemma at_tail_aff cur base runs hand c ex m m' :
  aff_frame m m' -> kernel_ok m' -> at_tail (cur := cur) base runs hand c ex m ->
  at_tail (cur := cur) base runs hand c ex m'.
Proof.
  intros F Hok' [[Hok Hmm Hc Hcur [t Ht]] Hf Hp]. assert (Eg : globals m = globals m') by apply F.
  unfold globals in Eg.
  assert (Fm : mm_frame m m').
  { revert F. apply frame_weaken.
    - intros x x' E. exact (f_equal task_mmp E).
    - unfold rq_attrs. congruence.
    - unfold globals_mmp. congruence. }
  split; [split; [done | by eapply mm_inv_frame | congruence | congruence |] | |].
  - destruct (frame_task _ _ _ _ _ _ _ F Ht) as (t' & Ht' & _). by exists t'.
  - etransitivity; [exact Hf|]. revert F. apply frame_weaken.
    + intros x x' E. exact (f_equal task_tail E).
    + unfold rq_attrs, rq_tail. congruence.
    + congruence.
  - eapply parked_frame; [exact Fm | exact Hp].
Qed.

Lemma wp_at_migrate_disable cur r p base runs hand c ex m (Q : unit -> machine -> Prop) :
  at_tail (cur := cur) base runs hand c ex m -> is_Some (m_rqs base !! r) -> is_Some (m_tasks base !! p) ->
  (forall m', at_tail (cur := cur) base runs hand c ex m' -> Q tt m') ->
  wp (migrate_disable_switch r p) Q m.
Proof.
  intros Hat [q0 Hq0] Hp HQ. unfold migrate_disable_switch.
  destruct (at_tail_task _ _ _ _ _ _ _ Hat Hp) as [t Ht].
  destruct (frame_rq _ _ _ _ _ _ _ (at_frame _ _ _ _ _ _ Hat) Hq0) as (q & Hq & _). wp_go.
  case_match; [by apply wp_ret, HQ|]. case_match; [by apply wp_ret, HQ|]. wp_go.
  eapply wp_do_set_cpus_allowed; [apply Hat | exact Ht |]. intros m' Hok' F' _.
  apply HQ. by eapply at_tail_aff.
Qed.

(** The running tasks once [next] has replaced [prev] on CPU [r]. *)
Lemma running_switched m r q prev next m' :
  kernel_ok m -> m_rqs m !! r = Some q -> rq_curr q = prev ->
  (forall k qk, m_rqs m' !! k = Some qk -> exists q0, m_rqs m !! k = Some q0 /\
    rq_curr qk = if decide (k = r) then next else rq_curr q0) ->
  (forall k, is_Some (m_rqs m !! k) -> is_Some (m_rqs m' !! k)) ->
  forall p, runs_after (running m) prev next p <-> running m' p.
Proof.
  intros Hok Hq Hc Hback Hfwd p. unfold runs_after. split.
  - intros [[(k & qk & Hk & <-) Hne] | ->].
    + destruct (Hfwd k) as [q' Hq']; [by eexists|]. exists k, q'. split; [done|].
      destruct (Hback k q' Hq') as (q0 & Hq0 & E). case_decide; [congruence|]. congruence.
    + destruct (Hfwd r) as [q' Hq']; [by eexists|]. exists r, q'. split; [done|].
      destruct (Hback r q' Hq') as (q0 & Hq0 & E). by case_decide.
  - intros (k & qk & Hk & E). destruct (Hback k qk Hk) as (q0 & Hq0 & E'). case_decide as Ek; [right; congruence|].
    left. split; [exists k, q0; split; [done | congruence]|]. intros ->.
    destruct (ok_rqs m Hok k q0 Hq0) as (_ & (t & Ht & Hct) & _).
    destruct (ok_rqs m Hok r q Hq) as (_ & (t' & Ht' & Hct') & _).
    assert (rq_curr q = rq_curr q0) as E2 by congruence. rewrite E2 in Ht'. congruence.
Qed.

(** What a whole scheduler entry leaves alone. *)
Definition rq_sched (q : rq) := (rq_cpu q, rq_idle q).
Abbreviation sched_frame := (frame task_tail rq_sched m_this_cpu).

(** CPUs other than [r] keep their current task. *)
Definition other_cpus (r : Z) (m m' : machine) : Prop :=
  forall k q', m_rqs m' !! k = Some q' -> k <> r -> exists q, m_rqs m !! k = Some q /\ rq_curr q' = rq_curr q.

Lemma other_cpus_trans r m1 m2 m3 : other_cpus r m1 m2 -> other_cpus r m2 m3 -> other_cpus r m1 m3.
Proof.
  intros H1 H2 k q3 Hq3 Hk. destruct (H2 k q3 Hq3 Hk) as (q2 & Hq2 & E2).
  destruct (H1 k q2 Hq2 Hk) as (q1 & Hq1 & E1). exists q1. split; [done | congruence].
Qed.

Lemma tail_other_cpus r m m' : tail_frame m m' -> other_cpus r m m'.
Proof.
  intros F k q' Hq' _. assert (F' : tail_frame m' m) by (by symmetry).
  destruct (frame_rq _ _ _ _ _ _ _ F' Hq') as (q & Hq & E). exists q. unfold rq_tail in E.
  split; [done | congruence].
Qed.

Lemma head_other_cpus r m m' : head_frame m m' -> other_cpus r m m'.
Proof.
  intros F. apply tail_other_cpus. revert F.
  apply frame_weaken; unfold task_head, task_tail, rq_head, rq_tail, globals_head; congruence.
Qed.

Lemma tail_sched_frame m m' : tail_frame m m' -> sched_frame m m'.
Proof. apply frame_weaken; unfold rq_tail, rq_sched; congruence. Qed.

Lemma schedule_switched m r q prev next m1 m' :
  sched_ok m -> m_this_cpu m = r -> m_rqs m !! r = Some q -> rq_curr q = prev -> task_on m r next ->
  m1 = m <| m_rqs := <[r := q <| rq_nr_switches := u64 (rq_nr_switches q + 1) |> <| rq_curr := next |>]> (m_rqs m) |> ->
  at_tail (cur := next) m1 (runs_after (running m) prev next) NULL 1 (fun _ => False) m' ->
  sched_ok m' /\ m_preempt_count m' = 1 /\ m_current m' = next /\ sched_frame m m' /\ other_cpus r m m'.
Proof.
  intros [Hok Hmm Hpk Hcur] Er Hq Hc Hon Em1 [[Hok' Hmm' Hc' Hcur' Hal'] Hf Hpk'].
  assert (Eth : m_this_cpu m' = r) by (rewrite <- Er; transitivity (m_this_cpu m1); [symmetry; apply Hf | by subst m1]).
  assert (Hback : forall k qk, m_rqs m' !! k = Some qk -> exists q0, m_rqs m !! k = Some q0 /\
    rq_curr qk = if decide (k = r) then next else rq_curr q0).
  { intros k qk Hqk. assert (Hf' : tail_frame m' m1) by (by symmetry).
    destruct (frame_rq _ _ _ _ _ _ _ Hf' Hqk) as (q1 & Hq1 & E). unfold rq_tail in E. subst m1. cbn in Hq1.
    rewrite lookup_insert in Hq1. destruct (decide (r = k)) as [->|Hne].
    - injection Hq1 as <-. exists q. split; [done|]. rewrite decide_True by done. cbn in E. congruence.
    - exists q1. split; [done|]. rewrite decide_False by done. congruence. }
  split; [|split; [done|split; [done|split]]].
  3:{ intros k qk Hqk Hk. destruct (Hback k qk Hqk) as (q0 & Hq0 & E). rewrite decide_False in E by done. eauto. }
  - split; [done| |intros k qk Hqk; apply (Hpk' k qk Hqk); auto|].
    + eapply mm_inv_runs; [|exact Hmm']. intros p _. eapply running_switched; [exact Hok | exact Hq | exact Hc | exact Hback |].
      intros k [q0 Hq0]. eapply rq_live_frame; [exact Hf|]. subst m1. cbn. rewrite lookup_insert.
      by case_decide; eexists.
    + assert (Hlive : is_Some (m_rqs m' !! r)).
      { eapply rq_live_frame; [exact Hf|]. subst m1. cbn. rewrite lookup_insert_eq. by eexists. }
      destruct Hlive as [q' Hq']. exists q'. rewrite Eth. split; [done|].
      destruct (Hback r q' Hq') as (? & _ & E). rewrite decide_True in E by done. congruence.
  - etransitivity; [|by apply tail_sched_frame]. subst m1. by apply frame_set_rq with q.
Qed.

Lemma wp_schedule_finish r q prev next v m (Q : unit -> machine -> Prop) :
  sched_ok m -> m_this_cpu m = r -> m_preempt_count m = 2 -> m_rqs m !! r = Some q -> rq_curr q = prev ->
  task_on m r next ->
  (forall m', sched_ok m' -> m_preempt_count m' = 1 -> m_current m' = next -> sched_frame m m' ->
    other_cpus r m m' -> Q tt m') ->
  wp (schedule_finish r prev next v) Q m.
Proof.
  intros Hso Er Hpc Hq Hc Hon HQ. destruct (Hso) as [Hok Hmm Hpk (qc & Hqc & Hcur)].
  assert (Hprev : is_Some (m_tasks m !! prev)).
  { destruct (ok_rqs m Hok r q Hq) as (_ & (t & Ht & _) & _). exists t. congruence. }
  assert (Ecur : m_current m = prev) by congruence.
  unfold schedule_finish. destruct (Z.eqb_spec prev next) as [E|E]; cbn [negb].
  - assert (Hat : at_tail (cur := prev) m (running m) NULL 2 (fun _ => False) m).
    { split; [split; try done | done | by intros k qk ?; eauto]. }
    unfold clear_skip_flags. apply wp_bind. eapply wp_at_upd_rq; [exact Hat | by eexists | done |].
    clear Hat. intros m1 Hat. apply wp_bind. eapply wp_at_emit; [exact Hat|]. clear dependent m1. intros m1 Hat.
    apply wp_bind, wp_balance_callbacks; [apply Hat | eapply rq_live_frame; [apply Hat | by eexists] |].
    intros m2 Hok2 F2. apply (at_tail_class _ _ _ _ _ _ _ F2 Hok2) in Hat.
    eapply wp_at_unlock; [exact Hat|]. clear dependent m1 m2.
    intros m' [[Hok' Hmm' Hc' Hcur' Hal'] Hf Hpk']. apply HQ; [|done|congruence|by apply tail_sched_frame|by apply tail_other_cpus].
    assert (Hrun : forall p, running m p <-> running m' p).
    { intros p. assert (Hf' : tail_frame m' m) by (by symmetry).
      split; intros (k & qk & Hqk & Ek); [destruct (frame_rq _ _ _ _ _ _ _ Hf Hqk) as (q' & Hq' & Eq)
        | destruct (frame_rq _ _ _ _ _ _ _ Hf' Hqk) as (q' & Hq' & Eq)];
        exists k, q'; unfold rq_tail in Eq; (split; [done | congruence]). }
    split; [done | by eapply mm_inv_runs; [|exact Hmm'] | intros k qk Hqk; apply (Hpk' k qk Hqk); auto |].
    destruct (frame_rq _ _ _ _ _ _ _ Hf Hqc) as (q' & Hq' & Eq). unfold rq_tail in Eq.
    exists q'. assert (m_this_cpu m' = m_this_cpu m) as -> by (symmetry; apply Hf). split; [done | congruence].
  - wp_go.
    pose (m1 := m <| m_rqs := <[r := q <| rq_nr_switches := u64 (rq_nr_switches q + 1) |> <| rq_curr := next |>]> (m_rqs m) |>).
    match goal with |- wp _ _ ?M => replace M with m1 by (cbn; by rewrite insert_insert_eq) end.
    assert (Hq' : m_rqs m !! r = Some q) by done.
    assert (Hok1 : kernel_ok m1).
    { pose (m0 := m <| m_rqs := <[r := q <| rq_nr_switches := u64 (rq_nr_switches q + 1) |>]> (m_rqs m) |>).
      assert (Hok0 : kernel_ok m0) by (by eapply kernel_ok_rq; [| exact Hq |]).
      pose proof (kernel_ok_curr m0 r _ next Hok0 (lookup_insert_eq _ _ _) Hon) as Hk.
      revert Hk. cbn. by rewrite insert_insert_eq. }
    assert (Hr1 : is_Some (m_rqs m1 !! r)) by (cbn; rewrite lookup_insert_eq; by eexists).
    assert (Hn1 : is_Some (m_tasks m1 !! next)) by (destruct Hon as (t & ? & _); by eexists).
    assert (Hat : at_tail (cur := prev) m1 (running m) NULL 2 (fun _ => False) m1).
    { split; [split; try done | done |].
      - eapply mm_inv_frame; [|exact Hmm]. by apply frame_set_rq with q.
      - intros k qk. cbn. rewrite lookup_insert. case_decide; [intros [= <-] _; cbn; by eapply Hpk|].
        intros ? _. by eapply Hpk. }
    assert (Hnrun : ~ running m next) by (eapply not_running; [exact Hok | exact Hq | congruence | done]).
    assert (Hrun : running m prev) by (by exists r, q).
    assert (Hbase : forall m', at_tail (cur := next) m1 (runs_after (running m) prev next) NULL 1
      (fun _ => False) m' -> Q tt m').
    { intros m' Hat'. destruct (schedule_switched m r q prev next m1 m') as (? & ? & ? & ? & ?); [done..|]. by apply HQ. }
    clear HQ. rename Hbase into HQ. assert (Em1 : m_this_cpu m1 = m_this_cpu m) by done. clearbody m1.
    assert (Hp1 : is_Some (m_tasks m1 !! prev)) by apply Hat.
    assert (Hth : m_this_cpu m1 = r) by congruence.
    assert (Hcs : wp (count_switch prev v) (fun _ m' => at_tail (cur := prev) m1 (running m) NULL 2 (fun _ => False) m') m1).
    { unfold count_switch. destruct v; (eapply wp_at_upd_task; [exact Hat | done | done | done]). }
    eapply wp_mono; [exact Hcs|]. clear Hat Hcs. intros [] m2 Hat. apply wp_bind.
    eapply wp_at_migrate_disable; [exact Hat | done | done |]. clear dependent m2. intros m2 Hat.
    do 2 at_emit. apply wp_bind. eapply wp_context_switch; [exact Hat | done..|].
    intros m' Hat'. apply wp_ret. by apply HQ.
Qed.
End Switching.

Abbreviation sched_frame := (frame task_tail rq_sched m_this_cpu).

(** * __schedule() *)
Section Main.
Context {H : Headers} {X : Extern} {HOK : HeadersOK H} {XOK : ExternOK X} {XS : ExternSafe X}.

(** The state before the switch, relative to the entry. *)
Record at_head (base : machine) (c : Z) (m : machine) : Prop := Mk_at_head {
  ah_kernel : kernel_ok m;
  ah_frame : head_frame base m;
  ah_count : m_preempt_count m = c;
}.

Lemma at_head_class base c m m' : class_frame m m' -> kernel_ok m' -> at_head base c m -> at_head base c m'.
Proof.
  intros F Hok [_ Hf Hc]. assert (Eg : globals m = globals m') by apply F. unfold globals in Eg.
  split; [done | etransitivity; [exact Hf | by apply class_head_frame] | congruence].
Qed.

Lemma wp_ah_emit n a base c m (Q : unit -> machine -> Prop) :
  at_head base c m -> (forall m', at_head base c m' -> Q tt m') -> wp (emit n a) Q m.
Proof.
  intros [Hok Hf Hc] HQ. apply wp_emit, HQ. split; [by eapply kernel_ok_frame; [|exact Hok] | | done].
  by etransitivity; [exact Hf|].
Qed.

Lemma wp_ah_upd_task p g base c m (Q : unit -> machine -> Prop) :
  at_head base c m -> is_Some (m_tasks base !! p) ->
  (forall t, task_okp (g t) = task_okp t) -> (forall t, task_head (g t) = task_head t) ->
  (forall m', at_head base c m' -> Q tt m') -> wp (upd_obj (R := task_struct) p g) Q m.
Proof.
  intros [Hok Hf Hc] [t0 Ht0] Ho Hg HQ. destruct (frame_task _ _ _ _ _ _ _ Hf Ht0) as (t & Ht & _).
  apply wp_upd_obj. exists t. split; [done|]. apply HQ.
  split; [by eapply kernel_ok_task; [|exact Ht|] | | done].
  etransitivity; [exact Hf|]. by apply frame_set_task with t; [| apply Hg |].
Qed.

Lemma wp_ah_upd_rq r g base c m (Q : unit -> machine -> Prop) :
  at_head base c m -> is_Some (m_rqs base !! r) ->
  (forall q, rq_okp (g q) = rq_okp q) -> (forall q, rq_head (g q) = rq_head q) ->
  (forall m', at_head base c m' -> Q tt m') -> wp (upd_obj (R := rq) r g) Q m.
Proof.
  intros [Hok Hf Hc] [q0 Hq0] Ho Hg HQ. destruct (frame_rq _ _ _ _ _ _ _ Hf Hq0) as (q & Hq & _).
  apply wp_upd_obj. exists q. split; [done|]. apply HQ.
  split; [by eapply kernel_ok_rq; [|exact Hq|] | | done].
  etransitivity; [exact Hf|]. by apply frame_set_rq with q; [| apply Hg |].
Qed.

Ltac ah_emit :=
  apply wp_bind;
  match goal with Hah : at_head _ _ ?m |- wp (emit _ _) _ ?m =>
    eapply wp_ah_emit; [exact Hah|]; clear dependent m; intros ?m ?Hah end.

Lemma ah_task base c m p : at_head base c m -> is_Some (m_tasks base !! p) -> exists t, m_tasks m !! p = Some t.
Proof. intros Hah [t0 Ht0]. destruct (frame_task _ _ _ _ _ _ _ (ah_frame _ _ _ Hah) Ht0) as (t & ? & _). eauto. Qed.

Lemma ah_rq base c m r : at_head base c m -> is_Some (m_rqs base !! r) -> exists q, m_rqs m !! r = Some q.
Proof. intros Hah [t0 Ht0]. destruct (frame_rq _ _ _ _ _ _ _ (ah_frame _ _ _ Hah) Ht0) as (t & ? & _). eauto. Qed.

Lemma wp_schedule_debug prev b base m (Q : unit -> machine -> Prop) :
  at_head base 1 m -> (forall m', at_head base 1 m' -> Q tt m') -> wp (schedule_debug prev b) Q m.
Proof.
  intros Hah HQ. pose proof preempt_offsets_val as E. injection E as _ Eo _ _.
  unfold schedule_debug. apply wp_bind, wp_gets. rewrite (ah_count _ _ _ Hah), Eo.
  apply wp_bind, wp_when. cbn [negb Z.eqb Pos.eqb]. do 2 ah_emit. by eapply wp_ah_emit.
Qed.

Lemma wp_rq_lock base m (Q : unit -> machine -> Prop) :
  at_head base 1 m -> (forall m', at_head base 2 m' -> Q tt m') -> wp rq_lock Q m.
Proof.
  intros [Hok Hf Hc] HQ. pose proof preempt_offsets_val as E. injection E as Em _ _ _.
  unfold rq_lock, preempt_count_add, preempt_latency_start. kgo. rewrite Hc, Em.
  change (1 <? 0) with false. cbn iota. kgo. change (255 - 10 <=? Z.land (1 + 1) 255) with false. cbn iota. kgo.
  cbn [m_preempt_count upd]. change (1 + 1 =? 1) with false. cbn iota.
  apply HQ. split; [by eapply kernel_ok_frame; [|exact Hok] | | done]. by etransitivity; [exact Hf|].
Qed.

Lemma ah_curr base c m r q0 : at_head base c m -> m_rqs base !! r = Some q0 -> task_on m r (rq_curr q0).
Proof.
  intros Hah Hq0. destruct (frame_rq _ _ _ _ _ _ _ (ah_frame _ _ _ Hah) Hq0) as (q & Hq & E).
  unfold rq_head in E. destruct (ok_rqs m (ah_kernel _ _ _ Hah) r q Hq) as (_ & Hon & _). congruence.
Qed.

Lemma wp_schedule_block r q0 prev st base m (Q : unit -> machine -> Prop) :
  at_head base 2 m -> m_rqs base !! r = Some q0 -> rq_curr q0 = prev -> is_Some (m_tasks base !! prev) ->
  (forall m', at_head base 2 m' -> Q tt m') -> wp (schedule_block r prev st) Q m.
Proof.
  intros Hah Hq0 Hc Hp HQ. unfold schedule_block. apply wp_bind.
  destruct (ah_task _ _ _ _ Hah Hp) as [t Ht].
  apply wp_quiet; [apply Hah | apply signal_returns; [apply Hah | by eexists] | auto with preserve |].
  intros pending m1 Hok1 F1. apply (at_head_class _ _ _ _ (quiet_class_frame _ _ F1) Hok1) in Hah.
  clear dependent m. rename m1 into m. destruct pending.
  { eapply wp_ah_upd_task; [exact Hah | done..]. }
  destruct (ah_task _ _ _ _ Hah Hp) as [t1 Ht1]. apply wp_bind, wp_rd. exists t1. split; [done|].
  set (flags := ts_flags t1). clearbody flags. clear Ht1 t1.
  set (contributes := (_ && _ && _)%bool). clearbody contributes.
  apply wp_bind. eapply wp_ah_upd_task; [exact Hah | done..|]. clear dependent m. intros m Hah.
  assert (Hrest : forall m1, at_head base 2 m1 ->
    wp (deactivate_task r prev (Z.lor DEQUEUE_SLEEP DEQUEUE_NOCLOCK) ;;
        iow ← prev ⇝ ts_in_iowait;
        when iow (upd! r ⇝ rq_nr_iowait := (fun n => n + 1) ;; emit "delayacct_blkio_start" [])) Q m1).
  { clear dependent m. intros m Hah. pose proof (ah_curr _ _ _ _ _ Hah Hq0) as Hon. rewrite Hc in Hon.
    apply wp_bind, wp_deactivate_task; [apply Hah | done |]. intros m1 Hok1 F1 _ _.
    apply (at_head_class _ _ _ _ F1 Hok1) in Hah. clear dependent m.
    destruct (ah_task _ _ _ _ Hah Hp) as [t1 Ht1]. apply wp_bind, wp_rd. exists t1. split; [done|].
    apply wp_when. destruct (ts_in_iowait t1); [|by apply HQ].
    apply wp_bind. eapply wp_ah_upd_rq; [exact Hah | by eexists | done..|]. clear Ht1 t1 Hah.
    intros m2 Hah. by eapply wp_ah_emit. }
  apply wp_bind, wp_when. destruct contributes; [|by apply Hrest].
  eapply wp_ah_upd_rq; [exact Hah | by eexists | done..].
Qed.

(** The static priority of the task switched to. *)
Definition fixed_static (t : task_struct) : Z :=
  if (negb (ts_static_prio t =? 0) && fixed_prio_valid (ts_my_fixed_priority t))%bool
  then ts_my_fixed_priority t else ts_static_prio t.

(** The effect of a scheduler entry on the priorities of all tasks: the task
    that runs afterwards has its fixed priority applied, everything else is as
    before. *)
Definition prios_after (m m' : machine) : Prop :=
  (forall p, is_Some (m_tasks m' !! p) -> is_Some (m_tasks m !! p)) /\
  forall p t, m_tasks m !! p = Some t -> exists t', m_tasks m' !! p = Some t' /\
    prio_attrs t' = prio_attrs t /\
    ts_static_prio t' = if p =? m_current m' then fixed_static t else ts_static_prio t.

Lemma wp_apply_fixed next m t (Q : unit -> machine -> Prop) :
  m_tasks m !! next = Some t ->
  Q tt (m <| m_tasks := <[next := t <| ts_static_prio := fixed_static t |>]> (m_tasks m) |>) ->
  wp (apply_fixed_priority next) Q m.
Proof.
  intros Ht HQ. unfold apply_fixed_priority, fixed_static in *. wp_go. destruct (_ && _)%bool; wp_go; [done|].
  revert HQ. rewrite insert_id by (rewrite Ht; by destruct t). by destruct m.
Qed.

(** From the choice of [next] to the end. *)
Lemma wp_schedule_chosen r q prev next v base m (Q : unit -> machine -> Prop) :
  sched_ok base -> m_this_cpu base = r -> m_rqs base !! r = Some q -> rq_curr q = prev ->
  at_head base 2 m -> task_on m r next ->
  (forall m', sched_ok m' -> m_preempt_count m' = 1 -> m_this_cpu m' = r -> prios_after base m' ->
    other_cpus r base m' -> Q tt m') ->
  wp (clear_tsk_need_resched prev ;; setg m_preempt_need_resched false ;; apply_fixed_priority next ;;
      set! r ⇝ rq_last_seen_need_resched_ns := 0 ;; schedule_finish r prev next v) Q m.
Proof.
  intros Hso Er Hq Hc Hah Hon HQ.
  pose proof (ah_curr _ _ _ _ _ Hah Hq) as (pt & Hpt & _). rewrite Hc in Hpt.
  unfold clear_tsk_need_resched. apply wp_bind, wp_upd_obj. exists pt. split; [done|].
  pose (m1 := m <| m_tasks := <[prev := upd ts_ti_flags (fun f => Z.ldiff f _TIF_NEED_RESCHED) pt]> (m_tasks m) |>
                <| m_preempt_need_resched := false |>).
  apply wp_bind, wp_setg.
  assert (F1 : quiet_frame m m1).
  { etransitivity; [apply (frame_set_task _ _ _ m prev pt (upd ts_ti_flags (fun f => Z.ldiff f _TIF_NEED_RESCHED) pt));
      [exact Hpt | reflexivity | done] | done]. }
  assert (Hok1 : kernel_ok m1) by (eapply kernel_ok_quiet; [exact F1 | apply Hah]).
  apply (at_head_class _ _ _ _ (quiet_class_frame _ _ F1) Hok1) in Hah.
  apply (task_on_quiet _ _ _ _ F1) in Hon. change (wp (apply_fixed_priority next ;;
      set! r ⇝ rq_last_seen_need_resched_ns := 0 ;; schedule_finish r prev next v) Q m1).
  clearbody m1. clear F1 Hpt pt. destruct (Hon) as (t & Ht & Hct).
  apply wp_bind. eapply wp_apply_fixed; [exact Ht|].
  pose (m2 := m1 <| m_tasks := <[next := t <| ts_static_prio := fixed_static t |>]> (m_tasks m1) |>).
  assert (Hso2 : sched_ok m2).
  { eapply sched_ok_so with (m := m1).
    - by apply frame_set_task with t.
    - by eapply kernel_ok_task; [| exact Ht |].
    - by eapply sched_ok_head; [apply Hah | |]. }
  destruct (ah_rq _ _ _ r Hah) as [q1 Hq1]; [by eexists|].
  assert (Ec1 : rq_curr q1 = prev).
  { destruct (frame_rq _ _ _ _ _ _ _ (ah_frame _ _ _ Hah) Hq) as (q1' & Hq1' & E). unfold rq_head in E. congruence. }
  apply wp_bind, wp_wr. exists q1. split; [done|].
  pose (m3 := m2 <| m_rqs := <[r := q1 <| rq_last_seen_need_resched_ns := 0 |>]> (m_rqs m2) |>).
  assert (Hso3 : sched_ok m3).
  { eapply sched_ok_so; [by apply frame_set_rq with q1 | | exact Hso2]. eapply kernel_ok_rq; [apply Hso2 | exact Hq1 | done]. }
  assert (Eth : globals_head base = globals_head m1) by apply Hah. unfold globals_head in Eth.
  apply (wp_schedule_finish r (q1 <| rq_last_seen_need_resched_ns := 0 |>) prev next v m3);
    [done | cbn; congruence | apply Hah | apply lookup_insert_eq | done
    | eexists; split; [apply lookup_insert_eq | done] |].
  intros m' Hso' Hpc' Hcur' F' Ho'.
  apply HQ; [done | done | rewrite <- Er; transitivity (m_this_cpu m3); [symmetry; apply F' | cbn; congruence] | |].
  2:{ apply (other_cpus_trans r base m1 m'); [apply head_other_cpus, Hah|].
      apply (other_cpus_trans r m1 m3 m'); [|done]. intros k qk. cbn. intros Hqk Hk.
      rewrite lookup_insert_ne in Hqk by done. eauto. }
  split.
  { intros p [t' Ht']. assert (F3 : sched_frame m' m3) by (by symmetry).
    destruct (frame_task _ _ _ _ _ _ _ F3 Ht') as (t3 & Ht3 & _). cbn in Ht3.
    assert (Hm1 : is_Some (m_tasks m1 !! p)).
    { rewrite lookup_insert in Ht3. case_decide; [subst; by eexists | by eexists]. }
    destruct Hm1 as [t1 Ht1]. assert (F1 : head_frame m1 base) by (symmetry; apply Hah).
    destruct (frame_task _ _ _ _ _ _ _ F1 Ht1) as (t0 & Ht0 & _). by eexists. }
  intros p tp Htp. destruct (frame_task _ _ _ _ _ _ _ (ah_frame _ _ _ Hah) Htp) as (t1 & Ht1 & E1).
  assert (Hm3 : m_tasks m3 !! p = Some (if p =? next then t <| ts_static_prio := fixed_static t |> else t1)).
  { cbn. destruct (Z.eqb_spec p next) as [->|Hne]; [apply lookup_insert_eq | by rewrite lookup_insert_ne by done]. }
  destruct (frame_task _ _ _ _ _ _ _ F' Hm3) as (t' & Ht' & E'). exists t'. split; [done|].
  rewrite Hcur'. unfold task_head, task_tail in *. destruct (Z.eqb_spec p next) as [->|Hne].
  - assert (t = t1) as -> by congruence. cbn in E'. unfold prio_attrs, fixed_static in *. cbn in E'.
    split; [congruence|]. assert (ts_static_prio tp = ts_static_prio t1) as -> by congruence.
    assert (ts_my_fixed_priority tp = ts_my_fixed_priority t1) as -> by congruence. congruence.
  - split; congruence.
Qed.

Lemma wp___schedule mode m (Q : unit -> machine -> Prop) :
  sched_ok m -> m_preempt_count m = 1 ->
  (forall m', sched_ok m' -> m_preempt_count m' = 1 -> m_this_cpu m' = m_this_cpu m ->
    prios_after m m' -> other_cpus (m_this_cpu m) m m' -> Q tt m') ->
  wp (__schedule mode) Q m.
Proof.
  intros Hso Hpc HQ. destruct (so_current m Hso) as (q & Hq & Hcur).
  assert (Hp : is_Some (m_tasks m !! rq_curr q)).
  { destruct (ok_rqs m (so_kernel m Hso) _ q Hq) as (_ & (t & Ht & _) & _). by exists t. }
  assert (Hah : at_head m 1 m) by (split; [apply Hso | done | done]).
  unfold __schedule. wp_go. set (r := m_this_cpu m) in *. set (prev := rq_curr q) in *.
  assert (Hl : forall c m', at_head m c m' -> live m' r prev).
  { intros c m' Hah'. destruct (ah_task _ _ _ _ Hah' Hp). destruct (ah_rq _ _ _ r Hah'); [by eexists|].
    by split; eexists. }
  eapply wp_schedule_debug; [exact Hah|]. clear Hah. intros m1 Hah.
  apply wp_bind. eapply wp_mono with (Q := fun _ m' => at_head m 1 m').
  { apply wp_when. destruct (_ || _)%bool; [by eapply wp_ah_emit | done]. }
  clear dependent m1. intros [] m1 Hah. do 2 ah_emit.
  apply wp_bind. eapply wp_rq_lock; [exact Hah|]. clear Hah. intros m5 Hah.
  apply wp_bind. eapply wp_ah_upd_rq; [exact Hah | by eexists | done..|]. clear dependent m5. intros m5 Hah.
  apply wp_bind, wp_update_rq_clock; [apply Hah | by apply (Hl _ _ Hah) |]. intros m2 Hok2 F2.
  apply (at_head_class _ _ _ _ (quiet_class_frame _ _ F2) Hok2) in Hah. clear dependent m5.
  destruct (ah_task _ _ _ _ Hah Hp) as [t Ht]. apply wp_bind, wp_rd. exists t. split; [done|].
  set (v := (_ && _)%bool). clearbody v. apply wp_bind.
  eapply wp_mono with (Q := fun _ m' => at_head m 2 m').
  { apply wp_when. destruct v; [by eapply wp_schedule_block | done]. }
  clear Ht. clear dependent m2. intros [] m2 Hah.
  apply wp_bind, wp_pick_next_task; [apply Hah | by eapply Hl |]. intros next m3 Hok3 F3 Hon.
  apply (at_head_class _ _ _ _ F3 Hok3) in Hah.
  by eapply wp_schedule_chosen; [exact Hso | reflexivity | exact Hq | reflexivity | exact Hah | exact Hon |].
Qed.
End Main.
