(* ===== verification/Sample.v ===== *)
(** A small concrete machine on which the definitions are run: two CPUs, their
    idle tasks, two user tasks in one address space and a kernel thread. *)
From S2P Require Import Prelude Headers Proc Kernel Extern RqClock Uclamp UclampProofs Prio.
From S2P Require Import SchedOK.
From S2P Require Import Mm Affinity AffinityProofs Schedule LazyMm ScheduleProofs.

#[local] Existing Instance linux_headers.
#[local] Existing Instance Demo.extern.

Definition clamp_none : per_clamp uclamp_se :=
  PerClamp (uclamp_se_set (Mk_uclamp_se 0 0 false false) 0 false)
           (uclamp_se_set (Mk_uclamp_se 0 0 false false) 1024 false).

(** A fair task of nice 0 on CPU 0, not queued. *)
Definition task0 : task_struct :=
  Mk_task 0 0 0 0 0 0 0 0 120 120 120 0 0 se0 0 dl0 fair_sched_class 0 0 100 clamp_none clamp_none 2
    {[0; 1]} own_mask None 0 0 false false false NULL NULL 0 0 NULL NULL 1 0 1000 1000 0 NULL proc0 false NULL.

Definition idle_task (cpu mm : Z) : task_struct :=
  task0 <| ts_cpu := cpu |> <| ts_class := idle_sched_class |> <| ts_prio := 120 |> <| ts_active_mm := mm |>
        <| ts_on_rq := 1 |> <| ts_on_cpu := b2z (negb (mm =? NULL)) |>.

(** A user task of CPU 0, runnable. *)
Definition user_task (pid : Z) : task_struct :=
  task0 <| ts_mm := 50 |> <| ts_active_mm := 50 |> <| ts_on_rq := 1 |> <| ts_pid := pid |>.

Definition empty_clamps : per_clamp uclamp_rq :=
  PerClamp (Mk_uclamp_rq 0 (replicate 5 (Mk_uclamp_bucket 0 0)))
           (Mk_uclamp_rq 1024 (replicate 5 (Mk_uclamp_bucket 0 0))).

Definition rq0 (cpu curr idle : Z) (queue : list Z) : rq :=
  Mk_rq cpu (Z.of_nat (length queue)) (Z.of_nat (length queue)) curr idle NULL NULL 500 500 0 0 0 0 0 0 0 0 0
    empty_clamps 1 [] {[0; 1]} 0 queue 0 0 0 0 0 false [].

Definition tg0 : task_group := Mk_tg clamp_none clamp_none (PerClamp 0 10000) false 0 NULL [] [] 1048576 0 [].

(** CPU 0 runs task 11; task 12 waits; CPU 1 is idle; task 13 is a kernel thread
    asleep on CPU 0. *)
Definition machine0 : machine :=
  Mk_machine
    (<[10 := idle_task 0 NULL]> (<[11 := (user_task 11) <| ts_on_cpu := 1 |>]> (<[12 := user_task 12]>
      (<[13 := task0 <| ts_state := TASK_INTERRUPTIBLE |> <| ts_flags := PF_KTHREAD |>]>
      (<[14 := idle_task 1 60]> ∅)))))
    (<[0 := rq0 0 11 10 [11; 12]]> (<[1 := rq0 1 14 14 []]> ∅))
    (<[100 := tg0]> ∅) 100 0 11 0 false clamp_none 0 1024 1024 false []
    (<[50 := Mk_mm 2 1]> (<[60 := Mk_mm 1 3]> ∅)) 60 {[0; 1]} {[0; 1]} {[0; 1]} ∅ fork0 ∅ ∅ [100] ∅ smt0 tick0.

(** ** The machine is well formed *)

(** Case analysis on which object of a concrete store an address names. *)
Ltac which_obj Hp :=
  cbn in Hp;
  repeat (apply lookup_insert_Some in Hp as [[<- <-] | [_ Hp]]);
  try (by rewrite lookup_empty in Hp).

Lemma clamp_none_wf id : wf_se (pc_get id clamp_none).
Proof. destruct id; (split; [split; vm_compute; discriminate | reflexivity]). Qed.

(** Run queues without accounted tasks are consistent. *)
Lemma uclamp_inv_idle m :
  (forall p t, m_tasks m !! p = Some t -> ts_uclamp t = clamp_none) ->
  (forall c q, m_rqs m !! c = Some q -> rq_uclamp q = empty_clamps /\ rq_uclamp_flags q = 1) ->
  uclamp_inv m.
Proof.
  intros Ht Hq. split.
  - intros c q Hc. destruct (Hq c q Hc) as [Eu Ef].
    assert (Hnil : forall id, active_clamps (m_tasks m) c id = []).
    { intros id. unfold active_clamps.
      assert (Hl : forall x, x ∈ map_to_list (m_tasks m) -> ts_uclamp x.2 = clamp_none).
      { intros [p t] Hx. apply elem_of_map_to_list in Hx. by eapply Ht. }
      induction (map_to_list (m_tasks m)) as [|x l IH]; [done|]. cbn. rewrite IH
        by (intros; apply Hl; by apply list_elem_of_further).
      unfold contrib. rewrite (Hl x) by apply list_elem_of_here. destruct id; cbn; by rewrite andb_false_r. }
    apply (rq_clamps_ok_perm (fun _ => [])); [intros id; by rewrite Hnil|].
    unfold rq_clamps_ok, uclamp_idle. rewrite Eu, Ef. split; [|done].
    assert (Hb : buckets_ok [] (replicate 5 (Mk_uclamp_bucket 0 0))).
    { split; [done|]. intros i b Hb. apply lookup_replicate in Hb as [-> _]. split; [done|].
      split; [cbn; lia|]. intros u Hu. by apply not_elem_of_nil in Hu. }
    intros []; by apply clamp_inv_nil.
  - intros p t Hp. unfold paired. by rewrite (Ht p t Hp).
Qed.

Lemma kernel_ok0 : kernel_ok machine0.
Proof.
  split.
  - reflexivity.
  - intros c q Hq. which_obj Hq; (split; [done|]); split; eexists; (split; [reflexivity | done]).
  - intros p t Hp. which_obj Hp; by split; eexists.
  - by eexists.
  - apply uclamp_inv_idle; [intros p t Hp; by which_obj Hp | intros c q Hq; by which_obj Hq].
  - split; [|split].
    + intros p t id Hp. which_obj Hp; apply clamp_none_wf.
    + intros a g id Hg. which_obj Hg. apply clamp_none_wf.
    + intros id. apply clamp_none_wf.
  - intros p t Hp. by which_obj Hp.
Qed.

(** The idle task of CPU 1 borrows the boot address space; nobody borrows
    another. *)
Lemma mm_refs0 a : a <> NULL -> mm_refs NULL machine0 a = b2z (60 =? a).
Proof.
  intros Ha. unfold mm_refs, NULL in *. cbn [m_tasks m_rqs machine0].
  rewrite !count_in_fresh by reflexivity. unfold borrows, parked.
  destruct a; [done | |]; cbn; change (count_in _ ∅) with 0; lia.
Qed.

Lemma sched_ok0 : sched_ok machine0.
Proof.
  split.
  - apply kernel_ok0.
  - split.
    + intros p t Hp. which_obj Hp; cbn; try done; (split; [done | eexists; split; [reflexivity | cbn; lia]]).
    + intros p t Hp. which_obj Hp; cbn; try done; intros _; split; try done.
      * intros (c & q & Hq & E). by which_obj Hq.
      * intros (c & q & Hq & E). by which_obj Hq.
      * intros Hn. destruct Hn. exists 1, (rq0 1 14 14 []). done.
    + intros a Ha. rewrite mm_refs0 by done. destruct (Z.eqb_spec 60 a) as [<-|]; cbn; [by eexists | lia].
    + intros a x Hx Ha. rewrite mm_refs0 by done. which_obj Hx; cbn; lia.
    + eexists. split; [reflexivity | cbn; done].
  - intros c q Hq. by which_obj Hq.
  - eexists. split; [reflexivity | done].
Qed.

(** ** Clocks *)
Lemma update_rq_clock_conserves_time_witness :
  exists q, m_rqs machine0 !! 0 = Some q /\
  wp (update_rq_clock 0) (fun _ m' => exists q', m_rqs m' !! 0 = Some q' /\
    rq_clock q' = Z.max (rq_clock q) 1000 /\ delta_charged q q' (rq_clock q' - rq_clock q)) machine0.
Proof.
  exists (rq0 0 11 10 [11; 12]). split; [reflexivity|].
  apply (update_rq_clock_conserves_time 0 _ 1000 0 0); cbn; try done; try lia.
Defined.
