(* ===== verification/PrioProofs.v ===== *)
(** Correctness of the priority computations: the weight tables, normal
    priorities and classes, the core-scheduling order, set_user_nice() and
    nice(). *)
From S2P Require Import Prelude Headers Kernel Extern RqClock Uclamp UclampProofs Prio SchedOK.
From S2P Require Import AffinityProofs ScheduleProofs Sample.

(** * The weight tables *)

(** The load-weight tables are consistent for every nice level: the 40
    precalculated inverses are 2^32 divided by the weight, off by less than one,
    and one nice level changes the weight by a factor between 1.2 and 1.28
    (nominally 1.25). *)
Theorem weight_tables_consistent :
  length sched_prio_to_weight = 40%nat /\ length sched_prio_to_wmult = 40%nat /\
  (forall i w v, sched_prio_to_weight !! i = Some w -> sched_prio_to_wmult !! i = Some v ->
    Z.abs (v * w - 2 ^ 32) < w) /\
  (forall i w w', sched_prio_to_weight !! i = Some w -> sched_prio_to_weight !! S i = Some w' ->
    120 * w' <= 100 * w <= 128 * w').
Proof.
  split_and!; [reflexivity | reflexivity | |].
  - intros i w v Hw Hv. apply Z.ltb_lt.
    refine (forallb_zip (fun p => Z.abs (p.2 * p.1 - 2 ^ 32) <? p.1) _ _ i w v _ Hw Hv).
    vm_compute. reflexivity.
  - intros i w w' Hw Hw'. rewrite <- lookup_tail in Hw'.
    assert (E := forallb_zip (fun p => (120 * p.2 <=? 100 * p.1) && (100 * p.1 <=? 128 * p.2))%bool
      sched_prio_to_weight (tail sched_prio_to_weight) i w w' ltac:(vm_compute; reflexivity) Hw Hw').
    cbn -[Z.mul] in E. lia.
Qed.

(** * Normal priorities *)
Section Normal.
Context {H : Headers} {X : Extern} {HOK : HeadersOK H}.

(** The class a policy belongs to. *)
Definition class_of_policy (policy : Z) : sched_class :=
  if dl_policy policy then dl_sched_class
  else if rt_policy policy then rt_sched_class else fair_sched_class.

(** Parameters sched_setscheduler() accepts. *)
Definition params_ok (policy rt_priority nice : Z) : Prop :=
  valid_policy policy = true /\ (rt_policy policy = true -> 1 <= rt_priority <= 99) /\ -20 <= nice <= 19.

Lemma normal_prio_classes policy rtp nice :
  params_ok policy rtp nice ->
  let prio := __normal_prio policy rtp nice in
  match class_of_policy policy with
  | dl_sched_class => prio = -1
  | rt_sched_class => 0 <= prio <= 98
  | _ => prio = 120 + nice
  end.
Proof.
  intros (Hv & Hrt & Hn). unfold __normal_prio, class_of_policy.
  rewrite MAX_DL_PRIO_val, MAX_RT_PRIO_val, NICE_TO_PRIO_val.
  destruct (dl_policy policy); [done|]. destruct (rt_policy policy); [|lia].
  specialize (Hrt eq_refl). lia.
Qed.

(** The priority computed from valid parameters lies in the range of the
    policy's class, and __setscheduler_prio() with that priority puts the task
    in that class: priority -1 is deadline, 0..98 real-time, 100..139 fair. *)
Theorem setscheduler_prio_class p t rtp nice m :
  m_tasks m !! p = Some t -> params_ok (ts_policy t) rtp nice ->
  let prio := __normal_prio (ts_policy t) rtp nice in
  wp (__setscheduler_prio p prio)
     (fun _ m' => exists t', m_tasks m' !! p = Some t' /\ ts_prio t' = prio /\
        ts_class t' = class_of_policy (ts_policy t) /\ -1 <= prio <= 139 /\
        t' = t <| ts_class := ts_class t' |> <| ts_prio := ts_prio t' |>) m.
Proof.
  intros Ht Hok prio. pose proof (normal_prio_classes _ _ _ Hok) as Hp. cbv zeta in Hp. fold prio in Hp.
  destruct Hok as (_ & _ & Hn).
  assert (Hsel : (if dl_prio prio then dl_sched_class else if rt_prio prio then rt_sched_class
    else fair_sched_class) = class_of_policy (ts_policy t) /\ -1 <= prio <= 139).
  { rewrite dl_prio_val, rt_prio_val. unfold class_of_policy in *.
    destruct (dl_policy _); [rewrite Hp; done|]. destruct (rt_policy _).
    - replace (prio <? 0) with false by lia. replace (prio <? 100) with true by lia. split; [done | lia].
    - replace (prio <? 0) with false by lia. replace (prio <? 100) with false by lia. split; [done | lia]. }
  clear Hp. clearbody prio. unfold __setscheduler_prio. destruct Hsel as [Hsel Hr].
  destruct (dl_prio prio), (rt_prio prio); wp_go; rewrite <- Hsel; cbn;
    rewrite insert_insert_eq; (eexists; split; [apply lookup_insert_eq|]); done.
Qed.
End Normal.

Lemma setscheduler_prio_class_witness :
  exists t, m_tasks machine0 !! 11 = Some t /\
  wp (__setscheduler_prio (H := linux_headers) 11 (__normal_prio (H := linux_headers) (ts_policy t) 0 5))
     (fun _ m' => exists t', m_tasks m' !! 11 = Some t' /\ ts_prio t' = __normal_prio (H := linux_headers) (ts_policy t) 0 5 /\
        ts_class t' = class_of_policy (H := linux_headers) (ts_policy t) /\
        -1 <= __normal_prio (H := linux_headers) (ts_policy t) 0 5 <= 139 /\
        t' = t <| ts_class := ts_class t' |> <| ts_prio := ts_prio t' |>) machine0.
Proof.
  eexists. split; [reflexivity|].
  apply (setscheduler_prio_class (H := linux_headers)); [reflexivity|].
  split; [reflexivity|]. split; [discriminate | lia].
Defined.

(** * set_user_nice() *)
Section Nice.
Context {H : Headers} {X : Extern} {HOK : HeadersOK H} {XOK : ExternOK X} {XS : ExternSafe X}.

Definition set_task (p : Z) (t : task_struct) (m : machine) : machine :=
  m <| m_tasks := <[p := t]> (m_tasks m) |>.

(** [m'] is [m] with task [p] replaced by [u], up to what the classes own. *)
Definition now_is (m : machine) (p : Z) (u : task_struct) (m' : machine) : Prop :=
  class_frame (set_task p u m) m'.

Lemma now_is_refl m p t : m_tasks m !! p = Some t -> now_is m p t m.
Proof. intros Ht. unfold now_is, set_task. rewrite insert_id by done. by destruct m. Qed.

Lemma now_is_class m p u m1 m2 : now_is m p u m1 -> class_frame m1 m2 -> now_is m p u m2.
Proof. unfold now_is. intros. by etransitivity. Qed.

Lemma now_is_lookup m p u m' : now_is m p u m' ->
  exists t', m_tasks m' !! p = Some t' /\ task_attrs u = task_attrs t'.
Proof. intros F. eapply frame_task; [exact F | apply lookup_insert_eq]. Qed.

Lemma now_is_other m p u m' p' t : now_is m p u m' -> p' <> p -> m_tasks m !! p' = Some t ->
  exists t', m_tasks m' !! p' = Some t' /\ task_attrs t = task_attrs t'.
Proof. intros F Hne Ht. eapply frame_task; [exact F|]. cbn. by rewrite lookup_insert_ne by done. Qed.

Lemma now_is_set m p u m1 u' u1' :
  now_is m p u m1 -> task_attrs u' = task_attrs u1' -> now_is m p u' (set_task p u1' m1).
Proof.
  intros (Ft & Fr & Fg) E. split; [|done]. cbn in *. rewrite !fmap_insert, E.
  rewrite fmap_insert in Ft. rewrite <- Ft. by rewrite insert_insert_eq.
Qed.

(** Updates outside what [kernel_ok] depends on. *)
Lemma wp_now_upd p (g : task_struct -> task_struct) m u m1 (Q : unit -> machine -> Prop) :
  kernel_ok m1 -> now_is m p u m1 -> (forall t, task_okp (g t) = task_okp t) ->
  (forall t t', task_attrs t = task_attrs t' -> task_attrs (g t) = task_attrs (g t')) ->
  (forall m2, kernel_ok m2 -> ok_frame m1 m2 -> m_uclamp_used m2 = m_uclamp_used m1 ->
    now_is m p (g u) m2 -> Q tt m2) -> wp (upd_obj (R := task_struct) p g) Q m1.
Proof.
  intros Hok Hn Ho Hg HQ. destruct (now_is_lookup _ _ _ _ Hn) as (t1 & Ht1 & E1).
  apply wp_upd_obj. exists t1. split; [done|]. apply (HQ (set_task p (g t1) m1)).
  - eapply kernel_ok_task; [done | exact Ht1 | apply Ho].
  - apply frame_set_task with t1; [done | apply Ho | done].
  - done.
  - eapply now_is_set; [exact Hn|]. by apply Hg.
Qed.

(** The state around an update of [p]: well formed, with [p] replaced by [u],
    and [p] not accounted in the clamp buckets if [off]. *)
Record at_upd (m : machine) (r p : Z) (u : task_struct) (off : Prop) (m' : machine) : Prop := Mk_at_upd {
  au_kernel : kernel_ok m';
  au_now : now_is m p u m';
  au_on : task_on m' r p;
  au_off : off -> clamp_off m' p;
}.

Lemma au_task m r p u off m' : at_upd m r p u off m' ->
  exists t', m_tasks m' !! p = Some t' /\ task_attrs u = task_attrs t'.
Proof. intros []. by eapply now_is_lookup. Qed.

Lemma wp_au_upd p (g : task_struct -> task_struct) m r u off m1 (Q : unit -> machine -> Prop) :
  at_upd m r p u off m1 -> (forall t, task_okp (g t) = task_okp t) ->
  (forall t t', task_attrs t = task_attrs t' -> task_attrs (g t) = task_attrs (g t')) ->
  (forall m2, at_upd m r p (g u) off m2 -> Q tt m2) -> wp (upd_obj (R := task_struct) p g) Q m1.
Proof.
  intros [Hok Hn Hon Hoff] Ho Hg HQ. eapply wp_now_upd; [done | exact Hn | done | done |].
  intros m2 Hok2 F2 Eu Hn2. apply HQ. split; [done | done | by eapply task_on_frame |].
  intros Hq. eapply clamp_off_ok; [exact F2 | done | auto].
Qed.

Lemma au_quiet m r p u off m1 m2 : quiet_frame m1 m2 -> at_upd m r p u off m1 -> at_upd m r p u off m2.
Proof.
  intros F [Hok Hn Hon Hoff].
  split; [by eapply kernel_ok_quiet | eapply now_is_class; [exact Hn | by apply quiet_class_frame]
    | by eapply task_on_quiet |]. intros Hq. eapply clamp_off_quiet; [exact F | auto].
Qed.

Lemma wp_au_quiet {A} (c : K A) m r p u off m1 (Q : A -> machine -> Prop) :
  at_upd m r p u off m1 -> returns c m1 -> preserves quiet_frame c ->
  (forall a m2, at_upd m r p u off m2 -> Q a m2) -> wp c Q m1.
Proof.
  intros Hau Hr Hp HQ. eapply wp_call; [exact Hr | exact Hp |].
  intros a m2 _ F. apply HQ. by eapply au_quiet.
Qed.

Lemma wp_au_unqueue (queued running : bool) f m r p u m1 {A} (k : K A) Q :
  at_upd m r p u False m1 -> (forall m2, at_upd m r p u (queued = true) m2 -> wp k Q m2) ->
  wp (when queued (dequeue_task r p f) ;; when running (put_prev_task r p) ;; k) Q m1.
Proof.
  intros [Hok Hn Hon _] Hk. apply wp_unqueue; [done | done |]. intros m2 Hok2 F2 Hon2 Hoff2. apply Hk.
  split; [done | eapply now_is_class; [exact Hn | by apply queue_class_frame] | done | done].
Qed.

Lemma wp_au_queue_back (queued running : bool) f m r p u m1 {A} (k : K A) Q :
  at_upd m r p u (queued = true) m1 -> (forall m2, at_upd m r p u False m2 -> wp k Q m2) ->
  wp (when queued (enqueue_task r p f) ;; when running (set_next_task r p) ;; k) Q m1.
Proof.
  intros [Hok Hn Hon Hoff] Hk. apply wp_queue_back; [done | done | done |]. intros m2 Hok2 F2 Hon2. apply Hk.
  split; [done | eapply now_is_class; [exact Hn | by apply queue_class_frame] | done | done].
Qed.

Lemma wp_table_get {S} tbl i v (Q : Z -> S -> Prop) s :
  0 <= i -> tbl !! Z.to_nat i = Some v -> Q v s -> wp (table_get tbl i) Q s.
Proof. intros Hi Hv HQ. unfold table_get. replace (i <? 0) with false by lia. by rewrite Hv. Qed.

(** An attribute [f] of a task that the classes do not own. *)
Lemma attr_eq {E} (f : task_struct -> E) (u t : task_struct) :
  (forall x, f (task_attrs x) = f x) -> task_attrs u = task_attrs t -> f u = f t.
Proof. intros Hf E1. by rewrite <- (Hf u), E1, (Hf t). Qed.

Lemma wp_set_load_weight p b m r u off m1 (Q : unit -> machine -> Prop) :
  at_upd m r p u off m1 -> 100 <= ts_static_prio u <= 139 ->
  (forall m2, at_upd m r p u off m2 -> Q tt m2) -> wp (set_load_weight p b) Q m1.
Proof.
  intros Hau Hs HQ. destruct (au_task _ _ _ _ _ _ Hau) as (t & Ht & E).
  assert (Es : ts_static_prio u = ts_static_prio t) by (by apply attr_eq).
  unfold set_load_weight. wp_go. rewrite MAX_RT_PRIO_val, <- Es.
  assert (Hq : forall g, (forall t, task_quiet (g t) = task_quiet t) ->
    wp (upd_obj (R := task_struct) p g) Q m1).
  { intros g Hg. eapply wp_au_quiet; [exact Hau | by apply wp_upd_obj; eauto | | intros []; apply HQ].
    by apply frame_upd_task. }
  case_match; [by apply Hq|]. case_match.
  - eapply wp_au_quiet; [exact Hau | apply reweight_returns; [apply Hau | by eexists] | auto with preserve | intros []; apply HQ].
  - assert (Hlen : (Z.to_nat (ts_static_prio u - 100) < 40)%nat) by lia.
    destruct (lookup_lt_is_Some_2 sched_prio_to_weight (Z.to_nat (ts_static_prio u - 100)) Hlen) as [w Hw].
    destruct (lookup_lt_is_Some_2 sched_prio_to_wmult (Z.to_nat (ts_static_prio u - 100)) Hlen) as [v Hv].
    apply wp_bind. eapply wp_table_get; [lia | exact Hw |].
    apply wp_bind. eapply wp_table_get; [lia | exact Hv |]. by apply Hq.
Qed.

(** The task after its nice value was set. *)
Definition nice_task (t : task_struct) (nice : Z) : task_struct :=
  let t1 := t <| ts_static_prio := NICE_TO_PRIO nice |> in
  if (task_has_dl_policy t || task_has_rt_policy t)%bool then t1
  else t1 <| ts_normal_prio := NICE_TO_PRIO nice |>
          <| ts_prio := if rt_prio (ts_prio t) then ts_prio t else NICE_TO_PRIO nice |>.

Lemma nice_normal t nice :
  (task_has_dl_policy t || task_has_rt_policy t)%bool = false ->
  normal_prio (t <| ts_static_prio := NICE_TO_PRIO nice |>) = NICE_TO_PRIO nice.
Proof.
  intros Hp. apply orb_false_iff in Hp as [Hd Hr]. unfold normal_prio, __normal_prio. cbn.
  unfold task_has_dl_policy, task_has_rt_policy in *. rewrite Hd, Hr, PRIO_TO_NICE_val, NICE_TO_PRIO_val, NICE_TO_PRIO_val. lia.
Qed.

(** The whole of set_user_nice() on a nice value that changes something. *)
Lemma wp_set_user_nice p nice m t (Q : unit -> machine -> Prop) :
  kernel_ok m -> m_tasks m !! p = Some t -> task_nice t <> nice -> -20 <= nice <= 19 ->
  (forall m', kernel_ok m' -> now_is m p (nice_task t nice) m' -> Q tt m') ->
  wp (set_user_nice p nice) Q m.
Proof.
  intros Hok Ht Hne Hn HQ. unfold set_user_nice. wp_go. rewrite MIN_NICE_val, MAX_NICE_val.
  replace ((task_nice t =? nice) || (nice <? -20) || (19 <? nice))%bool with false by lia.
  destruct (ok_tasks m Hok p t Ht) as [[q Hq] _].
  apply wp_bind, wp_update_rq_clock; [done | by eexists |]. intros m1 Hok1 F1.
  assert (Hau : at_upd m (ts_cpu t) p t False m1).
  { split; [done | eapply now_is_class; [by apply now_is_refl | by apply quiet_class_frame]
      | eapply task_on_quiet; [exact F1 | by exists t] | done]. }
  destruct (frame_task _ _ _ _ _ _ _ F1 Ht) as (t1 & Ht1 & E1). wp_go.
  assert (Epol : (task_has_dl_policy t1 || task_has_rt_policy t1)%bool =
    (task_has_dl_policy t || task_has_rt_policy t)%bool).
  { unfold task_has_dl_policy, task_has_rt_policy. by rewrite (f_equal ts_policy E1 : ts_policy t = ts_policy t1). }
  rewrite Epol. destruct (task_has_dl_policy t || task_has_rt_policy t)%bool eqn:Hpol.
  { eapply wp_au_upd; [exact Hau | done | |].
    - intros x x' E. exact (f_equal (fun y => y <| ts_static_prio := NICE_TO_PRIO nice |>) E).
    - intros m2 Hau2. apply HQ; [apply Hau2|]. unfold nice_task. rewrite Hpol. apply Hau2. }
  destruct (frame_rq _ _ _ _ _ _ _ F1 Hq) as (q1 & Hq1 & _). unfold task_current.
  do 4 wp_step. apply wp_au_unqueue with (m := m) (u := t); [done|].
  set (queued := task_on_rq_queued t1). set (running := rq_curr q1 =? p). clearbody queued running.
  clear Epol E1. clear dependent m1 t1 q1. intros m1 Hau.
  apply wp_bind. eapply wp_au_upd; [exact Hau | done | |].
  { intros x x' E. exact (f_equal (fun y => y <| ts_static_prio := NICE_TO_PRIO nice |>) E). }
  clear dependent m1. intros m1 Hau. apply wp_bind. eapply wp_set_load_weight; [exact Hau | cbn; rewrite NICE_TO_PRIO_val; lia |].
  clear dependent m1. intros m1 Hau. destruct (au_task _ _ _ _ _ _ Hau) as (t1 & Ht1 & E1).
  assert (Ep : ts_prio t1 = ts_prio t) by (symmetry; by apply (attr_eq ts_prio _ _ (fun _ => eq_refl) E1)).
  assert (En : normal_prio t1 = NICE_TO_PRIO nice).
  { rewrite <- (nice_normal t nice Hpol). symmetry. by apply (attr_eq normal_prio _ _ (fun _ => eq_refl) E1). }
  apply wp_bind, wp_rd. exists t1. split; [done|]. rewrite Ep. unfold effective_prio.
  apply wp_bind, wp_bind, wp_deref. exists t1. split; [done|]. rewrite En, Ep.
  apply wp_bind. eapply wp_au_upd; [exact Hau | done | |].
  { intros x x' E. exact (f_equal (fun y => y <| ts_normal_prio := NICE_TO_PRIO nice |>) E). }
  clear Ht1 E1 Ep En t1. clear dependent m1. intros m1 Hau. destruct (au_task _ _ _ _ _ _ Hau) as (t1 & Ht1 & E1).
  set (np := if rt_prio (ts_prio t) then ts_prio t else NICE_TO_PRIO nice).
  assert (Hnp : wp (if negb (rt_prio (ts_prio t)) then p ⇝ ts_normal_prio else p ⇝ ts_prio)
    (fun a m2 => a = np /\ m2 = m1) m1).
  { unfold np. destruct (rt_prio (ts_prio t)); cbn [negb]; wp_go; (split; [|done]); symmetry.
    - by apply (attr_eq ts_prio _ _ (fun _ => eq_refl) E1).
    - by apply (attr_eq ts_normal_prio _ _ (fun _ => eq_refl) E1). }
  eapply wp_mono; [exact Hnp|]. intros ? ? [-> ->]. clear Hnp Ht1 E1 t1.
  apply wp_bind. eapply wp_au_upd; [exact Hau | done | |].
  { intros x x' E. exact (f_equal (fun y => y <| ts_prio := np |>) E). }
  clear dependent m1. intros m1 Hau. apply wp_au_queue_back with (m := m) (u := nice_task t nice).
  { unfold nice_task. rewrite Hpol. exact Hau. }
  clear dependent m1. intros m1 Hau. destruct (au_task _ _ _ _ _ _ Hau) as (t1 & Ht1 & E1). wp_go.
  eapply wp_au_quiet; [exact Hau | apply prio_changed_returns; [apply Hau | apply task_on_live; apply Hau]
    | auto with preserve |]. intros [] m2 Hau2. apply HQ; apply Hau2.
Qed.

End Nice.

Section NiceSpec.
Context {H : Headers} {X : Extern} {HOK : HeadersOK H} {XOK : ExternOK X} {XS : ExternSafe X}.

(** C39: set_user_nice() returns on every well-formed machine.  A value that is
    out of range or already set changes nothing; otherwise the static priority
    becomes 120 + nice, for a fair task the normal priority too, and the
    effective priority unless the task is boosted to a real-time priority.
    No other task's attributes change. *)
Theorem set_user_nice_spec p nice m t :
  kernel_ok m -> m_tasks m !! p = Some t ->
  wp (set_user_nice p nice)
     (fun _ m' => kernel_ok m' /\
        (if ((task_nice t =? nice) || (nice <? -20) || (19 <? nice))%bool then m' = m
         else now_is m p (nice_task t nice) m')) m.
Proof.
  intros Hok Ht. destruct ((task_nice t =? nice) || (nice <? -20) || (19 <? nice))%bool eqn:E.
  - unfold set_user_nice. wp_go. rewrite MIN_NICE_val, MAX_NICE_val, E. by apply wp_ret.
  - eapply wp_set_user_nice; [done | done | lia | lia | done].
Qed.
End NiceSpec.

Lemma set_user_nice_spec_witness :
  exists t, m_tasks machine0 !! 12 = Some t /\
  wp (set_user_nice (H := linux_headers) (X := Demo.extern) 12 7)
     (fun _ m' => kernel_ok (H := linux_headers) (X := Demo.extern) m' /\
        (if ((task_nice (H := linux_headers) t =? 7) || (7 <? -20) || (19 <? 7))%bool then m' = machine0
         else now_is machine0 12 (nice_task (H := linux_headers) t 7) m')) machine0.
Proof.
  eexists. split; [reflexivity|].
  apply (set_user_nice_spec (H := linux_headers) (X := Demo.extern)); [apply kernel_ok0 | reflexivity].
Defined.

(** * The core-scheduling order *)
Section Order.
Context {H : Headers} {X : Extern} {HOK : HeadersOK H}.
Context (cfs_prio_less : task_struct -> task_struct -> bool -> bool).

(** Two deadlines less than half the clock's range apart. *)
Definition deadlines_close (a b : task_struct) : Prop :=
  Z.abs (dl_deadline (ts_dl a) - dl_deadline (ts_dl b)) < 2 ^ 63.

Lemma prio_less_iff a b fi :
  deadlines_close a b ->
  prio_less cfs_prio_less a b fi = true <->
  __task_prio b < __task_prio a \/
  (__task_prio a = __task_prio b /\
   ((__task_prio a = -1 /\ dl_deadline (ts_dl b) <= dl_deadline (ts_dl a)) \/
    (__task_prio a = 119 /\ cfs_prio_less a b fi = true))).
Proof.
  intros Hd. unfold prio_less, dl_time_before. rewrite MAX_RT_PRIO_val, MAX_NICE_val.
  unfold deadlines_close in Hd. rewrite s64_small by (unfold in_s64; lia).
  change (100 + 19) with 119.
  destruct (- __task_prio a <? - __task_prio b) eqn:E1; [split; [left; lia | done]|].
  destruct (- __task_prio b <? - __task_prio a) eqn:E2; [split; [done|]; intros [?|[? _]]; lia|].
  assert (__task_prio a = __task_prio b) by lia.
  destruct (__task_prio a =? -1) eqn:E3.
  - rewrite negb_true_iff, Z.ltb_ge. split; [intros; right; split; [done|left; lia]|].
    intros [?|[_ [[_ ?]|[? _]]]]; lia.
  - destruct (__task_prio a =? 119) eqn:E4.
    + split; [intros; right; split; [done|right; split; [lia|done]]|]. intros [?|[_ [[? _]|[_ ?]]]]; [lia..|done].
    + split; [done|]. intros [?|[_ [[? _]|[? _]]]]; lia.
Qed.

(** prio_less() orders tasks by kernel priority, deadline tasks by
    deadline and fair tasks by the fair class: it is transitive, and two tasks
    are each less than the other only when they are deadline tasks with equal
    deadlines. *)
Theorem prio_less_order a b c fi :
  (forall x y z, cfs_prio_less x y fi = true -> cfs_prio_less y z fi = true -> cfs_prio_less x z fi = true) ->
  (forall x y, cfs_prio_less x y fi = true -> cfs_prio_less y x fi = false) ->
  deadlines_close a b -> deadlines_close b c -> deadlines_close a c ->
  (prio_less cfs_prio_less a b fi = true -> prio_less cfs_prio_less b c fi = true ->
   prio_less cfs_prio_less a c fi = true) /\
  (prio_less cfs_prio_less a b fi = true -> prio_less cfs_prio_less b a fi = true ->
   __task_prio a = -1 /\ __task_prio b = -1 /\ dl_deadline (ts_dl a) = dl_deadline (ts_dl b)).
Proof.
  intros Htr Has Hab Hbc Hac. assert (Hba : deadlines_close b a) by (unfold deadlines_close in *; lia).
  rewrite !prio_less_iff by done. split.
  - intros [?|[? [[? ?]|[? ?]]]] [?|[? [[? ?]|[? ?]]]]; try (left; lia); try lia;
      right; (split; [lia|]); first [left; lia | right; split; [lia | eauto]].
  - intros [?|[? [[? ?]|[? E1]]]] [?|[? [[? ?]|[? E2]]]]; try lia. rewrite (Has a b E1) in E2. done.
Qed.
End Order.

Lemma prio_less_order_witness :
  let cfs := fun a b (_ : bool) => se_vruntime (ts_se b) <? se_vruntime (ts_se a) in
  let a := task0 in let b := task0 <| ts_class := idle_sched_class |> in let c := task0 <| ts_prio := 10 |> in
  (prio_less (H := linux_headers) cfs a c false = true) /\
  ((prio_less (H := linux_headers) cfs b a false = true -> prio_less (H := linux_headers) cfs a c false = true ->
    prio_less (H := linux_headers) cfs b c false = true) /\
   (prio_less (H := linux_headers) cfs b a false = true -> prio_less (H := linux_headers) cfs a b false = true ->
    __task_prio (H := linux_headers) b = -1 /\ __task_prio (H := linux_headers) a = -1 /\
    dl_deadline (ts_dl b) = dl_deadline (ts_dl a))).
Proof.
  intros cfs a b c. split; [reflexivity|].
  apply (prio_less_order (H := linux_headers) cfs b a c false); unfold deadlines_close; cbn; try lia.
  - unfold cfs. intros x y z. rewrite !Z.ltb_lt. lia.
  - unfold cfs. intros x y. rewrite Z.ltb_lt, Z.ltb_ge. lia.
Defined.
