(* ===== verification/MyPriority.v ===== *)
(** The repository's change to the scheduler: the field my_fixed_priority, its
    application in __schedule() and the system call that sets it.  The
    theorems say what the change achieves, what it leaves alone, and how it
    composes with nice() and with several CPUs. *)
From S2P Require Import Prelude Headers Kernel Extern RqClock Uclamp UclampProofs Prio SchedOK.
From S2P Require Import Mm Affinity AffinityProofs Schedule LazyMm ScheduleProofs Sample.
From S2P Require Import PrioProofs.

Section MyPriority.
Context {H : Headers} {X : Extern} {HOK : HeadersOK H} {XOK : ExternOK X} {XS : ExternSafe X}.

(** The fixed priority of [p] is in force: it is its static priority. *)
Definition in_force (m : machine) (p : Z) : Prop :=
  forall t, m_tasks m !! p = Some t -> ts_static_prio t <> 0 ->
    fixed_prio_valid (ts_my_fixed_priority t) = true -> ts_static_prio t = ts_my_fixed_priority t.

Lemma prios_after_in_force m m' : prios_after m m' -> in_force m' (m_current m').
Proof.
  intros [Hdom Hp] t' Ht' Hs Hf. destruct (Hdom (m_current m')) as [t Ht]; [by eexists|].
  destruct (Hp _ t Ht) as (t'' & Ht'' & Ea & Es). assert (t'' = t') as -> by congruence.
  rewrite Z.eqb_refl in Es. unfold prio_attrs in Ea.
  assert (ts_my_fixed_priority t' = ts_my_fixed_priority t) as Ef by congruence.
  rewrite Ef in *. unfold fixed_static in Es. rewrite Hf, andb_true_r in Es.
  destruct (ts_static_prio t =? 0) eqn:E0; cbn in Es; [|done]. rewrite Es in Hs. lia.
Qed.

(** C1: Every scheduler entry, in any mode and from any well-formed state,
    returns with the machine well formed and the preemption count as it was;
    the task that runs afterwards has its fixed priority (if one in 101..139 is
    set) as its static priority.  No other static priority changes, and the
    effective and normal priority, the policy and the class of every task,
    including the one switched to, stay as they were. *)
Theorem schedule_applies_fixed_priority mode m :
  sched_ok m -> m_preempt_count m = 1 ->
  wp (__schedule mode)
     (fun _ m' => sched_ok m' /\ m_preempt_count m' = 1 /\ in_force m' (m_current m') /\ prios_after m m') m.
Proof.
  intros Hso Hpc. apply wp___schedule; [done | done |]. intros m' Hso' Hpc' _ Hp _.
  split_and!; [done | done | by eapply prios_after_in_force | done].
Qed.

(** C5: Lazy address spaces are safe: after a scheduler entry every running
    task has an active address space that exists and is referenced, so no
    address space is freed while a CPU still runs on it. *)
Theorem schedule_keeps_address_spaces mode m :
  sched_ok m -> m_preempt_count m = 1 ->
  wp (__schedule mode)
     (fun _ m' => forall p t, running m' p -> m_tasks m' !! p = Some t ->
        exists x, m_mms m' !! ts_active_mm t = Some x /\ 0 < mm_count x) m.
Proof.
  intros Hso Hpc. apply wp___schedule; [done | done |]. intros m' Hso' _ _ _ _ p t Hr Ht.
  destruct (mm_active _ m' p t (so_mm m' Hso') Ht Hr) as [Hn [x Hx]]. exists x. split; [done|].
  pose proof (mm_counted _ _ _ (so_mm m' Hso') _ x Hx Hn) as Hle.
  pose proof (mm_refs_nonneg NULL m' (ts_active_mm t)).
  destruct (decide (ts_mm t = NULL)) as [E|E].
  - assert (0 < mm_refs NULL m' (ts_active_mm t)); [|destruct (0 <? mm_users x); cbn in Hle; lia].
    unfold mm_refs. pose proof (count_in_nonneg (parked (ts_active_mm t)) (m_rqs m')).
    assert (0 < count_in (borrows (ts_active_mm t)) (m_tasks m')).
    { apply (count_in_pos _ _ p t Ht). unfold borrows. by rewrite E, !Z.eqb_refl. }
    destruct (NULL =? _); cbn; lia.
  - destruct (mm_user _ _ _ (so_mm m' Hso') p t Ht E) as (Ea & y & Hy & Hu).
    rewrite Ea, Hy in Hx. injection Hx as <-. replace (0 <? mm_users y) with true in Hle by lia. cbn in Hle. lia.
Qed.

(** * The system call *)

(** schedule()'s loop body settles: afterwards no reschedule is requested. *)
Definition settles (m : machine) : Prop :=
  wp (preempt_disable ;; __schedule SM_NONE ;; sched_preempt_enable_no_resched)
     (fun _ m' => wp need_resched (fun b _ => b = false) m') m.

Lemma sched_ok_count m c : sched_ok m -> sched_ok (m <| m_preempt_count := c |>).
Proof. intros Hso. eapply sched_ok_so; [|by eapply kernel_ok_frame; [|apply Hso]|exact Hso]. done. Qed.

Lemma sched_ok_log m l : sched_ok m -> sched_ok (m <| m_log := l |>).
Proof. intros Hso. eapply sched_ok_so; [|by eapply kernel_ok_frame; [|apply Hso]|exact Hso]. done. Qed.

Lemma wp_preempt_disable m (Q : unit -> machine -> Prop) :
  m_preempt_count m = 0 -> (forall l, Q tt (m <| m_preempt_count := 1 |> <| m_log := l |>)) ->
  wp preempt_disable Q m.
Proof.
  intros Hc HQ. pose proof preempt_offsets_val as E. injection E as Em _ _ _.
  unfold preempt_disable, preempt_count_add, preempt_latency_start. kgo. rewrite Hc, Em.
  change (0 <? 0) with false. cbn iota. kgo. change (255 - 10 <=? Z.land (0 + 1) 255) with false. cbn iota. kgo.
  apply HQ.
Qed.

Lemma wp_preempt_enable m (Q : unit -> machine -> Prop) :
  m_preempt_count m = 1 -> (forall l, Q tt (m <| m_log := l |> <| m_preempt_count := 0 |>)) ->
  wp sched_preempt_enable_no_resched Q m.
Proof.
  intros Hc HQ. pose proof preempt_offsets_val as E. injection E as Em _ _ _.
  unfold sched_preempt_enable_no_resched, preempt_count_sub, preempt_latency_stop. kgo. rewrite Hc, Em.
  change (1 <? 1) with false. change ((1 <? 255) && negb (truthy (Z.land 1 255)))%bool with false. cbn iota.
  kgo. rewrite Hc. change (1 =? 1) with true. cbn iota. kgo. apply HQ.
Qed.

(** One iteration of the loop in schedule(). *)
Lemma wp_schedule_body m (Q : unit -> machine -> Prop) :
  sched_ok m -> m_preempt_count m = 0 ->
  (forall m', sched_ok m' -> m_preempt_count m' = 0 -> m_this_cpu m' = m_this_cpu m ->
    prios_after m m' -> other_cpus (m_this_cpu m) m m' -> Q tt m') ->
  wp (preempt_disable ;; __schedule SM_NONE ;; sched_preempt_enable_no_resched) Q m.
Proof.
  intros Hso Hc HQ. apply wp_bind, wp_preempt_disable; [done|]. intros l. apply wp_bind, wp___schedule.
  - apply sched_ok_log, sched_ok_count, Hso.
  - done.
  - intros m' Hso' Hc' Hth Hp Ho. apply wp_preempt_enable; [done|]. intros l'. apply HQ; [|done..].
    apply sched_ok_count, sched_ok_log, Hso'.
Qed.

Lemma wp_sched_submit_work tsk m (Q : unit -> machine -> Prop) :
  is_Some (m_tasks m !! tsk) -> (forall l, Q tt (m <| m_log := l |>)) -> wp (sched_submit_work tsk) Q m.
Proof.
  intros [t Ht] HQ. assert (HQ0 : Q tt m) by (specialize (HQ (m_log m)); by destruct m).
  unfold sched_submit_work. wp_go. case_match; [done|]. kgo.
  repeat case_match; kgo; try (case_match; kgo); try done; apply HQ.
Qed.

Lemma wp_sched_update_worker tsk m (Q : unit -> machine -> Prop) :
  is_Some (m_tasks m !! tsk) -> (forall l, Q tt (m <| m_log := l |>)) -> wp (sched_update_worker tsk) Q m.
Proof.
  intros [t Ht] HQ. assert (HQ0 : Q tt m) by (specialize (HQ (m_log m)); by destruct m).
  unfold sched_update_worker. wp_go. repeat case_match; kgo; try done; apply HQ.
Qed.

Lemma current_alive m : sched_ok m -> is_Some (m_tasks m !! m_current m).
Proof.
  intros Hso. destruct (so_current m Hso) as (q & Hq & <-).
  destruct (ok_rqs m (so_kernel m Hso) _ q Hq) as (_ & (t & Ht & _) & _). by exists t.
Qed.

(** schedule() with one iteration of fuel, when the loop settles. *)
Lemma wp_schedule fuel m (Q : unit -> machine -> Prop) :
  sched_ok m -> m_preempt_count m = 0 -> (0 < fuel)%nat -> (forall l, settles (m <| m_log := l |>)) ->
  (forall m', sched_ok m' -> m_preempt_count m' = 0 -> m_this_cpu m' = m_this_cpu m ->
    prios_after m m' -> other_cpus (m_this_cpu m) m m' -> Q tt m') ->
  wp (schedule fuel) Q m.
Proof.
  intros Hso Hc Hfuel Hset HQ. unfold schedule. apply wp_bind, wp_gets, wp_bind.
  apply wp_sched_submit_work; [by apply current_alive|]. intros l.
  destruct fuel as [|fuel]; [lia|]. cbn [while_need_resched]. apply wp_bind, wp_bind.
  pose (m1 := m <| m_log := l |>).
  assert (Hbody : wp (preempt_disable ;; __schedule SM_NONE ;; sched_preempt_enable_no_resched)
    (fun _ m' => (sched_ok m' /\ m_preempt_count m' = 0 /\ m_this_cpu m' = m_this_cpu m /\
       prios_after m m' /\ other_cpus (m_this_cpu m) m m') /\
       wp need_resched (fun b _ => b = false) m') m1).
  { apply wp_conj; [|apply Hset]. apply wp_schedule_body; [by apply sched_ok_log | done |]. done. }
  eapply wp_mono; [exact Hbody|]. intros _ m2 [(Hso2 & Hc2 & Hth2 & Hp2 & Ho2) Hnr].
  destruct (current_alive m2 Hso2) as [t Ht]. unfold need_resched in *.
  apply wp_bind, wp_gets, wp_bind, wp_deref in Hnr as (t' & Ht' & Hnr).
  change (m_tasks m2 !! m_current m2 = Some t') in Ht'. assert (t' = t) as -> by congruence. apply wp_ret in Hnr. wp_go. rewrite Hnr. wp_go.
  apply wp_sched_update_worker; [by eexists|]. intros l'. apply HQ; [by apply sched_ok_log | done..].
Qed.

(** What the system call promises to the task that called it. *)
Definition set_priority_result (m : machine) (t : task_struct) (priority : Z)
  (res : syscall_result) (m' : machine) : Prop :=
  sched_ok m' /\ m_preempt_count m' = 0 /\
  exists t', m_tasks m' !! m_current m = Some t' /\ ts_my_fixed_priority t' = priority /\
    ts_prio t' = ts_prio t /\ ts_normal_prio t' = ts_normal_prio t /\
    ts_policy t' = ts_policy t /\ ts_class t' = ts_class t /\
    match res with
    | returned z => z = 1 /\ m_current m' = m_current m /\
        ts_static_prio t' = (if ts_static_prio t =? 0 then 0 else priority)
    | suspended => m_current m' <> m_current m /\ ts_static_prio t' = ts_static_prio t
    end.

Lemma set_fixed_sched_ok m p t v :
  sched_ok m -> m_tasks m !! p = Some t -> sched_ok (set_task p (t <| ts_my_fixed_priority := v |>) m).
Proof.
  intros Hso Ht. eapply sched_ok_so; [by apply frame_set_task with t | | exact Hso].
  eapply kernel_ok_task; [apply Hso | exact Ht | done].
Qed.

(** C2: my_set_process_priority() rejects a priority outside 101..139 with 0
    and no effect.  A valid one is recorded in the calling task; if the task is
    still the current one after the rescheduling, the call returns 1 with that
    static priority, otherwise the task is suspended with the request pending.
    In either case the effective and the normal priority, the policy and the
    class of the task are unchanged. *)
Theorem my_set_process_priority_spec fuel priority m t :
  sched_ok m -> m_preempt_count m = 0 -> m_tasks m !! m_current m = Some t -> (0 < fuel)%nat ->
  (forall l, settles ((set_task (m_current m) (t <| ts_my_fixed_priority := priority |>) m) <| m_log := l |>)) ->
  wp (my_set_process_priority fuel priority)
     (fun res m' => if fixed_prio_valid priority then set_priority_result m t priority res m'
                    else res = returned 0 /\ m' = m) m.
Proof.
  intros Hso Hc Ht Hfuel Hset. unfold my_set_process_priority. wp_go.
  replace ((priority <? 101) || (139 <? priority))%bool with (negb (fixed_prio_valid priority))
    by (unfold fixed_prio_valid; lia).
  destruct (fixed_prio_valid priority) eqn:Hv; cbn [negb]; [|by apply wp_ret]. wp_go.
  pose (m1 := set_task (m_current m) (t <| ts_my_fixed_priority := priority |>) m).
  apply (wp_schedule fuel m1); [by apply set_fixed_sched_ok | done | done | done |].
  intros m2 Hso2 Hc2 _ [_ Hp2] _.
  destruct (Hp2 (m_current m) (t <| ts_my_fixed_priority := priority |>)) as (t2 & Ht2 & Ea & Es);
    [apply lookup_insert_eq|].
  unfold prio_attrs, fixed_static in *. cbn in Ea, Es. rewrite Hv, andb_true_r in Es. wp_go.
  destruct (m_current m2 =? m_current m) eqn:Ecur.
  - assert (E2 : m_current m2 = m_current m) by lia. unfold my_set_process_priority_tail. kgo.
    split; [by apply sched_ok_log|]. split; [done|]. exists t2. rewrite E2, Z.eqb_refl in Es.
    split_and!; try done; try congruence. destruct (ts_static_prio t =? 0) eqn:E0; cbn in Es; [lia | done].
  - apply wp_ret. split; [done|]. split; [done|]. exists t2.
    replace (m_current m =? m_current m2) with false in Es by lia. split_and!; try done; try congruence. lia.
Qed.
End MyPriority.

Lemma my_set_process_priority_spec_witness :
  exists t, m_tasks machine0 !! m_current machine0 = Some t /\
  wp (my_set_process_priority (H := linux_headers) (X := Demo.extern) 1 130)
     (fun res m' => if fixed_prio_valid 130
        then set_priority_result (H := linux_headers) (X := Demo.extern) machine0 t 130 res m'
        else res = returned 0 /\ m' = machine0) machine0.
Proof.
  eexists. split; [reflexivity|].
  apply (my_set_process_priority_spec (H := linux_headers) (X := Demo.extern));
    [apply sched_ok0 | reflexivity | reflexivity | lia |].
  intros l. vm_compute. reflexivity.
Defined.

(** * All CPUs *)
Section Reach.
Context {H : Headers} {X : Extern} {HOK : HeadersOK H} {XOK : ExternOK X} {XS : ExternSafe X}.

(** CPU [c] executes its current task with preemption count [n]. *)
Definition enter (c n : Z) (m : machine) : machine :=
  m <| m_this_cpu := c |>
    <| m_current := match m_rqs m !! c with Some q => rq_curr q | None => NULL end |>
    <| m_preempt_count := n |>.

(** The steps of the machine: a CPU enters the scheduler, a task calls
    my_set_process_priority(), or code outside this model (interrupts, load
    balancing) changes what it owns. *)
Inductive cpu_step : machine -> machine -> Prop :=
| step_schedule c mode m m' :
    is_Some (m_rqs m !! c) -> __schedule mode (enter c 1 m) = Ret tt m' -> cpu_step m m'
| step_set_priority c fuel priority res m m' :
    is_Some (m_rqs m !! c) -> my_set_process_priority fuel priority (enter c 0 m) = Ret res m' ->
    cpu_step m m'
| step_env m m' : class_frame m m' -> kernel_ok m' -> cpu_step m m'.

(** Every running task has its fixed priority in force. *)
Definition all_in_force (m : machine) : Prop := forall p, running m p -> in_force m p.

(** What any number of scheduler entries on CPU [r] may do. *)
Record sched_rel (r : Z) (m m' : machine) : Prop := Mk_sched_rel {
  sr_ok : sched_ok m';
  sr_this : m_this_cpu m' = r;
  sr_current : in_force m' (m_current m');
  sr_others : other_cpus r m m';
  sr_dom : forall p, is_Some (m_tasks m' !! p) -> is_Some (m_tasks m !! p);
  sr_prios : forall p t, m_tasks m !! p = Some t -> exists t', m_tasks m' !! p = Some t' /\
    prio_attrs t' = prio_attrs t /\ (ts_static_prio t' = ts_static_prio t \/ ts_static_prio t' = fixed_static t);
}.

Lemma prios_sched_rel r m m' :
  sched_ok m' -> m_this_cpu m' = r -> prios_after m m' -> other_cpus r m m' -> sched_rel r m m'.
Proof.
  intros Hso Hth Hp Ho. split; [done | done | by eapply prios_after_in_force | done | apply Hp |].
  intros p t Ht. destruct Hp as [_ Hp]. destruct (Hp p t Ht) as (t' & Ht' & Ea & Es).
  exists t'. split_and!; [done | done |]. case_match; tauto.
Qed.

Lemma sched_rel_trans r m1 m2 m3 : sched_rel r m1 m2 -> sched_rel r m2 m3 -> sched_rel r m1 m3.
Proof.
  intros [Ho1 Ht1 Hc1 Hx1 Hd1 Hp1] [Ho2 Ht2 Hc2 Hx2 Hd2 Hp2].
  split; [done | done | done | by eapply other_cpus_trans | auto |].
  intros p t Ht. destruct (Hp1 p t Ht) as (t' & Ht' & Ea & Es).
  destruct (Hp2 p t' Ht') as (t'' & Ht'' & Ea' & Es'). exists t''. split_and!; [done | congruence |].
  unfold fixed_static, prio_attrs in *.
  assert (Ef : ts_my_fixed_priority t' = ts_my_fixed_priority t) by congruence. rewrite Ef in Es'.
  destruct Es as [Es|Es], Es' as [Es'|Es']; rewrite Es' ; try (by left); try (by right); rewrite Es;
    repeat case_match; first [by left | by right].
Qed.

(** The task that runs on CPU [r] is in force, those of the other CPUs stay so. *)
Lemma sched_rel_in_force_at r m m' p :
  sched_rel r m m' -> running m' p ->
  (forall k q, m_rqs m !! k = Some q -> k <> r -> rq_curr q = p -> in_force m p) -> in_force m' p.
Proof.
  intros [Hso Hth Hc Hx Hd Hp] (k & q' & Hq' & <-) Hall.
  destruct (decide (k = r)) as [->|Hne].
  - destruct (so_current m' Hso) as (q & Hq & Hcur). rewrite Hth in Hq.
    assert (q' = q) as -> by congruence. by rewrite Hcur.
  - destruct (Hx k q' Hq' Hne) as (q & Hq & Ecur). rewrite Ecur in *. pose proof (Hall k q Hq Hne eq_refl) as Hf.
    intros t' Ht' Hs Hv. destruct (Hd (rq_curr q)) as [t Ht]; [by eexists|].
    destruct (Hp _ t Ht) as (t'' & Ht'' & Ea & Es). assert (t'' = t') as -> by congruence.
    unfold prio_attrs in Ea. assert (Ef : ts_my_fixed_priority t' = ts_my_fixed_priority t) by congruence.
    rewrite Ef in *. specialize (Hf t Ht). unfold fixed_static in Es. rewrite Hv, andb_true_r in Es.
    destruct (ts_static_prio t =? 0) eqn:E0; cbn in Es.
    + destruct Es as [Es|Es]; rewrite Es in Hs; lia.
    + destruct Es as [-> | ->]; [apply Hf; [lia | done] | done].
Qed.

(** Running tasks stay in force on every CPU. *)
Lemma sched_rel_in_force r m m' :
  sched_rel r m m' -> (forall k q, m_rqs m !! k = Some q -> k <> r -> in_force m (rq_curr q)) -> all_in_force m'.
Proof. intros Hrel Hall p Hr. eapply sched_rel_in_force_at; [exact Hrel | done |]. intros k q Hq Hk <-. by apply (Hall k). Qed.

Lemma enter_sched_ok c n m : is_Some (m_rqs m !! c) -> sched_ok m -> sched_ok (enter c n m).
Proof.
  intros [q Hq] [[Hn Hr Ht Hth Hu Hcw Ha] Hmm Hpk Hcur]. split.
  - by split.
  - destruct Hmm. by split.
  - done.
  - exists q. cbn. rewrite Hq. done.
Qed.

(** No other CPU runs the current task. *)
Lemma enter_current_ne c k q m :
  sched_ok m -> is_Some (m_rqs m !! c) -> m_rqs m !! k = Some q -> k <> c -> m_current (enter c 0 m) <> rq_curr q.
Proof.
  intros Hso [qc Hqc] Hq Hk Heq. cbn in Heq. rewrite Hqc in Heq.
  destruct (ok_rqs m (so_kernel m Hso) c qc Hqc) as (_ & (t1 & Ht1 & Hc1) & _).
  destruct (ok_rqs m (so_kernel m Hso) k q Hq) as (_ & (t2 & Ht2 & Hc2) & _). rewrite Heq in Ht1. congruence.
Qed.

(** The loop of schedule(), whenever it returns. *)
Lemma schedule_loop_rel fuel m m' :
  sched_ok m -> m_preempt_count m = 0 ->
  while_need_resched fuel (preempt_disable ;; __schedule SM_NONE ;; sched_preempt_enable_no_resched) m = Ret tt m' ->
  sched_rel (m_this_cpu m) m m'.
Proof.
  revert m. induction fuel as [|fuel IH]; intros m Hso Hc; [done|]. cbn [while_need_resched].
  set (body := preempt_disable ;; _). unfold mbind at 1, M_bind at 1.
  assert (Hb : wp body (fun _ m1 => sched_ok m1 /\ m_preempt_count m1 = 0 /\ sched_rel (m_this_cpu m) m m1) m).
  { apply wp_schedule_body; [done | done |]. intros m1 Hso1 Hc1 Hth1 Hp1 Ho1. split_and!; [done | done |].
    by apply prios_sched_rel. }
  apply wp_run in Hb as ([] & m1 & -> & Hso1 & Hc1 & Hrel). unfold mbind at 1, M_bind at 1.
  destruct (need_resched m1) as [b m2|] eqn:En; [|done].
  assert (m2 = m1) as ->.
  { unfold need_resched, mbind, M_bind, gets, deref in En. destruct (store m1 !! m_current m1); [|done]. by injection En as _ <-. }
  destruct b.
  - intros E. eapply sched_rel_trans; [exact Hrel|]. rewrite <- (sr_this _ _ _ Hrel). by apply IH.
  - by intros [= <-].
Qed.

Lemma set_priority_rel fuel priority res m m' :
  sched_ok m -> m_preempt_count m = 0 -> my_set_process_priority fuel priority m = Ret res m' ->
  (fixed_prio_valid priority = false /\ res = returned 0 /\ m' = m) \/
  (fixed_prio_valid priority = true /\ (res = returned 1 \/ res = suspended) /\
   exists t l, m_tasks m !! m_current m = Some t /\
    sched_rel (m_this_cpu m) (set_task (m_current m) (t <| ts_my_fixed_priority := priority |>) m)
      (m' <| m_log := l |>)).
Proof.
  intros Hso Hc E. destruct (current_alive m Hso) as [t Ht].
  destruct ((priority <? 101) || (139 <? priority))%bool eqn:Hv.
  { left. unfold my_set_process_priority, mbind, M_bind, gets in E. rewrite Hv in E. injection E as <- <-.
    split; [unfold fixed_prio_valid; lia | done]. }
  right. split; [unfold fixed_prio_valid; lia|].
  enough (Hend : (res = returned 1 \/ res = suspended) /\ exists l,
    sched_rel (m_this_cpu m) (set_task (m_current m) (t <| ts_my_fixed_priority := priority |>) m) (m' <| m_log := l |>)).
  { destruct Hend as [Hr [l Hl]]. split; [done|]. by exists t, l. }
  pose (m1 := set_task (m_current m) (t <| ts_my_fixed_priority := priority |>) m).
  assert (Hso1 : sched_ok m1) by (by apply set_fixed_sched_ok).
  assert (Hsch : forall m2, schedule fuel m1 = Ret tt m2 -> exists l, sched_rel (m_this_cpu m) m1 (m2 <| m_log := l |>)).
  { intros m2. unfold schedule, mbind at 1, M_bind at 1, gets at 1. unfold mbind at 1, M_bind at 1.
    assert (Hs : wp (sched_submit_work (m_current m1)) (fun _ s => exists l, s = m1 <| m_log := l |>) m1).
    { apply wp_sched_submit_work; [by apply current_alive | eauto]. }
    apply wp_run in Hs as ([] & ? & -> & l & ->). unfold mbind at 1, M_bind at 1.
    destruct (while_need_resched _ _ _) as [[] m3|] eqn:Ew; [|done].
    apply schedule_loop_rel in Ew; [|by apply sched_ok_log | done].
    unfold mbind at 1, M_bind at 1, gets at 1. intros E2.
    assert (Hu : wp (sched_update_worker (m_current m3)) (fun _ s => exists l', s = m3 <| m_log := l' |>) m3).
    { apply wp_sched_update_worker; [apply current_alive, Ew | eauto]. }
    apply wp_run in Hu as ([] & ? & E3 & l' & ->). rewrite E3 in E2. injection E2 as <-.
    exists (m_log m3). change (sched_rel (m_this_cpu m) m1 (m3 <| m_log := m_log m3 |>)).
    replace (m3 <| m_log := m_log m3 |>) with m3 by (by destruct m3). destruct Ew. by split. }
  unfold my_set_process_priority in E. unfold mbind at 1, M_bind at 1, gets at 1 in E. rewrite Hv in E.
  unfold mbind at 1, M_bind at 1 in E. unfold wr, upd_obj in E. unfold mbind at 1, M_bind at 1, deref in E.
  change (store m) with (m_tasks m) in E. rewrite Ht in E. cbn [modify] in E. unfold modify in E.
  change (set_store _ m) with m1 in E. unfold mbind at 1, M_bind at 1 in E.
  destruct (schedule fuel m1) as [[] m2|] eqn:Es; [|done].
  destruct (Hsch m2 eq_refl) as [l Hrel]. unfold mbind at 1, M_bind at 1, gets in E.
  destruct (m_current m2 =? m_current m).
  - unfold my_set_process_priority_tail, mbind, M_bind, deref, emit, modify, mret, M_ret in E.
    destruct (store m2 !! m_current m); [|done]. injection E as <- <-. split; [by left|]. exists l. exact Hrel.
  - injection E as <- <-. split; [by right|]. eauto.
Qed.

Lemma sched_ok_of_log m l : sched_ok (m <| m_log := l |>) -> sched_ok m.
Proof. intros Hso. apply (sched_ok_log _ (m_log m)) in Hso. by destruct m. Qed.

Lemma cpu_step_preserves m m' : cpu_step m m' -> sched_ok m /\ all_in_force m -> sched_ok m' /\ all_in_force m'.
Proof.
  intros Hstep [Hso Hall]. destruct Hstep as [c mode m m' Hc E | c fuel priority res m m' Hc E | m m' F Hok].
  - pose proof (enter_sched_ok c 1 m Hc Hso) as Hso1.
    assert (Hs : wp (__schedule mode) (fun _ m1 => sched_rel c (enter c 1 m) m1) (enter c 1 m)).
    { apply wp___schedule; [done | done |]. intros m1 Hso1' _ Hth Hp Ho. by apply prios_sched_rel. }
    apply wp_run in Hs as (? & m1 & E1 & Hrel). rewrite E in E1. injection E1 as <- <-. split; [apply Hrel|].
    eapply sched_rel_in_force; [exact Hrel|]. intros k q Hq _. apply (Hall (rq_curr q)). by exists k, q.
  - pose proof (enter_sched_ok c 0 m Hc Hso) as Hso1.
    destruct (set_priority_rel _ _ _ _ _ Hso1 eq_refl E) as [(_ & _ & ->) | (_ & _ & t & l & Ht & Hrel)].
    { split; [done|]. exact Hall. }
    split; [eapply sched_ok_of_log, sr_ok; exact Hrel|].
    assert (Hres : all_in_force (m' <| m_log := l |>)); [|exact Hres].
    eapply sched_rel_in_force; [exact Hrel|]. intros k q Hq Hk tk. cbn in Hq.
    assert (Hrun : running m (rq_curr q)) by (by exists k, q).
    intros Htk. apply (Hall (rq_curr q) Hrun tk). cbn in Htk.
    rewrite lookup_insert_ne in Htk; [done|]. by apply (enter_current_ne c k q m Hso Hc).
  - assert (F' : head_frame m m') by (by apply class_head_frame).
    split; [by eapply sched_ok_head|]. intros p Hr t' Ht'.
    assert (F'' : head_frame m' m) by (by symmetry).
    destruct (frame_task _ _ _ _ _ _ _ F'' Ht') as (t & Ht & Et). unfold task_head, prio_attrs in Et.
    assert (Hf : in_force m p) by (apply Hall; eapply running_so; [apply head_so_frame; exact F'' | done]).
    specialize (Hf t Ht). assert (ts_static_prio t' = ts_static_prio t) as -> by congruence.
    assert (ts_my_fixed_priority t' = ts_my_fixed_priority t) as -> by congruence. done.
Qed.

(** On every machine reachable from a well-formed one in which no running
    task violates it, by scheduler entries and my_set_process_priority() calls
    on any CPU in any order, every running task of every CPU has its fixed
    priority in force, and the machine stays well formed. *)
Theorem fixed_priority_reachable m m' :
  sched_ok m -> all_in_force m -> rtc cpu_step m m' -> sched_ok m' /\ all_in_force m'.
Proof.
  intros Hso Hall Hsteps. induction Hsteps as [m|m m1 m' Hs _ IH]; [done|].
  destruct (cpu_step_preserves m m1 Hs) as [? ?]; [done | by apply IH].
Qed.

(** The fixed priority wins over nice(): after set_user_nice() has changed
    the static priority of a task with a fixed priority, the next scheduler
    entry that runs the task puts the fixed priority back, while the effective
    priority that nice() computed stays. *)
Theorem nice_undone_by_schedule p nice mode m t :
  sched_ok m -> m_preempt_count m = 1 -> m_tasks m !! p = Some t -> task_nice t <> nice -> -20 <= nice <= 19 ->
  fixed_prio_valid (ts_my_fixed_priority t) = true ->
  wp (set_user_nice p nice ;; __schedule mode)
     (fun _ m' => m_current m' = p -> exists t', m_tasks m' !! p = Some t' /\
        ts_static_prio t' = ts_my_fixed_priority t /\ ts_prio t' = ts_prio (nice_task t nice)) m.
Proof.
  intros Hso Hpc Ht Hne Hn Hf. apply wp_bind. eapply wp_set_user_nice; [apply Hso | exact Ht | done | done |].
  intros m1 Hok1 Hnow. destruct (now_is_lookup _ _ _ _ Hnow) as (t1 & Ht1 & E1).
  assert (Fso : so_frame m m1).
  { etransitivity; [|apply head_so_frame, class_head_frame; exact Hnow].
    apply frame_set_task with t; [done | | done]. unfold nice_task. by destruct (_ || _)%bool. }
  assert (Hso1 : sched_ok m1) by (by eapply sched_ok_so).
  assert (Hpc1 : m_preempt_count m1 = 1).
  { rewrite <- Hpc. symmetry. assert (Eg : globals (set_task p (nice_task t nice) m) = globals m1) by apply Hnow.
    unfold globals in Eg. cbn in Eg. congruence. }
  apply wp___schedule; [done | done |]. intros m' _ _ _ [_ Hp] _ Hcur.
  destruct (Hp p t1 Ht1) as (t' & Ht' & Ea & Es). exists t'. split; [done|].
  assert (Es1 : ts_static_prio t1 = NICE_TO_PRIO nice).
  { rewrite <- (attr_eq ts_static_prio _ _ (fun _ => eq_refl) E1). unfold nice_task. by destruct (_ || _)%bool. }
  assert (Ef1 : ts_my_fixed_priority t1 = ts_my_fixed_priority t).
  { rewrite <- (attr_eq ts_my_fixed_priority _ _ (fun _ => eq_refl) E1). unfold nice_task. by destruct (_ || _)%bool. }
  rewrite Hcur, Z.eqb_refl in Es. unfold fixed_static in Es. rewrite Ef1, Es1, Hf, NICE_TO_PRIO_val in Es.
  replace (nice + 120 =? 0) with false in Es by lia. split; [done|].
  unfold prio_attrs in Ea. rewrite (attr_eq ts_prio _ _ (fun _ => eq_refl) E1). congruence.
Qed.
End Reach.

(** * The theorems at a concrete machine *)
Section Witnesses.
#[local] Existing Instance linux_headers.
#[local] Existing Instance Demo.extern.

(** The machine in the middle of a scheduler entry, with a fixed priority. *)
Definition machine1 : machine :=
  machine0 <| m_preempt_count := 1 |>
    <| m_tasks := <[12 := (user_task 12) <| ts_my_fixed_priority := 105 |>]> (m_tasks machine0) |>.

Lemma sched_ok1 : sched_ok machine1.
Proof.
  eapply (sched_ok_so machine0); [| | apply sched_ok0].
  - split; [vm_compute; reflexivity | done].
  - eapply kernel_ok_frame; [|apply kernel_ok0]. split; [vm_compute; reflexivity | done].
Qed.

(** The round-robin class switches from task 11 to task 12, whose static
    priority becomes 105. *)
Example schedule_switches :
  m_current (after (__schedule SM_NONE) machine1) = 12 /\
  ts_static_prio <$> (m_tasks (after (__schedule SM_NONE) machine1) !! 12) = Some 105 /\
  ts_prio <$> (m_tasks (after (__schedule SM_NONE) machine1) !! 12) = Some 120.
Proof. vm_compute. done. Qed.

Lemma schedule_applies_fixed_priority_witness :
  m_preempt_count machine1 = 1 /\
  wp (__schedule SM_NONE) (fun _ m' => sched_ok m' /\ m_preempt_count m' = 1 /\
    in_force m' (m_current m') /\ prios_after machine1 m') machine1.
Proof. split; [reflexivity|]. apply schedule_applies_fixed_priority; [apply sched_ok1 | reflexivity]. Defined.

Lemma schedule_keeps_address_spaces_witness :
  m_preempt_count machine1 = 1 /\
  wp (__schedule SM_PREEMPT) (fun _ m' => forall p t, running m' p -> m_tasks m' !! p = Some t ->
    exists x, m_mms m' !! ts_active_mm t = Some x /\ 0 < mm_count x) machine1.
Proof. split; [reflexivity|]. apply schedule_keeps_address_spaces; [apply sched_ok1 | reflexivity]. Defined.

Lemma fixed_priority_reachable_witness :
  cpu_step machine1 (after (__schedule SM_NONE) (enter 0 1 machine1)) /\
  sched_ok (after (__schedule SM_NONE) (enter 0 1 machine1)) /\
  all_in_force (after (__schedule SM_NONE) (enter 0 1 machine1)).
Proof.
  assert (Hs : cpu_step machine1 (after (__schedule SM_NONE) (enter 0 1 machine1))).
  { apply (step_schedule 0 SM_NONE); [by eexists | vm_compute; reflexivity]. }
  split; [exact Hs|]. apply (fixed_priority_reachable machine1); [apply sched_ok1 | | by apply rtc_once].
  intros p (c & q & Hq & <-) t Ht. which_obj Hq; vm_compute in Ht; injection Ht as <-; discriminate.
Defined.

Lemma nice_undone_by_schedule_witness :
  exists t, m_tasks machine1 !! 12 = Some t /\
  wp (set_user_nice 12 5 ;; __schedule SM_NONE)
     (fun _ m' => m_current m' = 12 -> exists t', m_tasks m' !! 12 = Some t' /\
        ts_static_prio t' = ts_my_fixed_priority t /\ ts_prio t' = ts_prio (nice_task t 5)) machine1.
Proof.
  eexists. split; [reflexivity|].
  apply nice_undone_by_schedule; [apply sched_ok1 | reflexivity | reflexivity | discriminate | lia | reflexivity].
Defined.
End Witnesses.
