(* ===== verification/UclampSpec.v ===== *)
(** What utilization clamping promises: enqueueing and dequeueing keep the
    buckets exact, the run queue's clamp is the largest active request up to
    bucket granularity, effective clamps respect the system default and the
    task group, and the checks on user requests. *)
From S2P Require Import Prelude Headers Kernel Extern RqClock Uclamp UclampProofs Prio SchedOK.
From S2P Require Import Mm Affinity Schedule LazyMm ScheduleProofs Sample.

Section UclampSpec.
Context {H : Headers} {X : Extern} {HOK : HeadersOK H} {XOK : ExternOK X} {XS : ExternSafe X}.

(** C31: Enqueueing a task that is not accounted, and dequeueing a task, return
    and keep the bucket counts of every run queue exact: each bucket counts the
    active tasks whose clamp falls in it; nothing but the clamp accounting of
    the task and its run queue changes. *)
Theorem uclamp_accounting r p m :
  kernel_ok m -> task_on m r p ->
  (clamp_off m p -> wp (uclamp_rq_inc r p) (fun _ m' => kernel_ok m' /\ queue_frame m m') m) /\
  wp (uclamp_rq_dec r p) (fun _ m' => kernel_ok m' /\ queue_frame m m' /\ clamp_off m' p) m.
Proof. intros Hok Hon. split; [intros Hoff; by apply wp_uclamp_inc | by apply wp_uclamp_dec]. Qed.

(** On a well-formed machine the clamp value a run queue aggregates is at
    least every active clamp of the tasks on its CPU, and it lies in the bucket
    of one of them. *)
Theorem uclamp_aggregate_max m c q id :
  kernel_ok m -> m_rqs m !! c = Some q -> active_clamps (m_tasks m) c id <> [] ->
  (forall p t, m_tasks m !! p = Some t -> ts_cpu t = c -> uc_active (pc_get id (ts_uclamp t)) = true ->
    uc_value (pc_get id (ts_uclamp t)) <= ur_value (pc_get id (rq_uclamp q))) /\
  exists p t, m_tasks m !! p = Some t /\ ts_cpu t = c /\ uc_active (pc_get id (ts_uclamp t)) = true /\
    uc_bucket_id (pc_get id (ts_uclamp t)) = uclamp_bucket_id (ur_value (pc_get id (rq_uclamp q))).
Proof.
  intros Hok Hq Hne. destruct (ok_uclamp m Hok) as [Hrq _]. destruct (Hrq c q Hq) as (Hci & _ & _).
  destruct (clamp_inv_aggregate _ _ (Hci id) Hne) as [Hle (se & Hse & Hb)].
  assert (Hin : forall se, se ∈ active_clamps (m_tasks m) c id <-> exists p t, m_tasks m !! p = Some t /\
    ts_cpu t = c /\ uc_active (pc_get id (ts_uclamp t)) = true /\ se = pc_get id (ts_uclamp t)).
  { intros s. unfold active_clamps. rewrite list_elem_of_In, in_flat_map. split.
    - intros ([p t] & Hpt & Hs). apply list_elem_of_In, elem_of_map_to_list in Hpt. cbn in Hs.
      unfold contrib in Hs. destruct (_ && _)%bool eqn:E; [|done]. apply andb_prop in E as [E1 E2].
      destruct Hs as [<-|[]]. exists p, t. split_and!; [done | lia | done | done].
    - intros (p & t & Hpt & Hc & Ha & ->). exists (p, t). split; [by apply list_elem_of_In, elem_of_map_to_list|].
      cbn. unfold contrib. rewrite Hc, Z.eqb_refl, Ha. by left. }
  split.
  - intros p t Ht Hc Ha. apply Hle, Hin. by exists p, t.
  - apply Hin in Hse as (p & t & Ht & Hc & Ha & ->). by exists p, t.
Qed.

(** * Effective clamps *)

(** The effective clamp of a task is well formed (at most 1024, with the
    bucket its value belongs to), never above the system default, and for a
    task in an ordinary group within the group's limits unless the system
    default is lower. *)
Theorem uclamp_eff_bounds m p t g id :
  kernel_ok m -> m_tasks m !! p = Some t -> m_tgs m !! ts_task_group t = Some g ->
  wp (uclamp_eff_get p id) (fun eff m' => m' = m /\ wf_se eff /\
    uc_value eff <= uc_value (pc_get id (m_uclamp_default m)) /\
    (tg_autogroup g = false -> ts_task_group t <> m_root_task_group m ->
     uc_value (pc_get UCLAMP_MIN (tg_uclamp g)) <= uc_value (pc_get UCLAMP_MAX (tg_uclamp g)) ->
     uc_value eff <= uc_value (pc_get UCLAMP_MAX (tg_uclamp g)) /\
     Z.min (uc_value (pc_get UCLAMP_MIN (tg_uclamp g))) (uc_value (pc_get id (m_uclamp_default m)))
       <= uc_value eff)) m.
Proof.
  intros Hok Ht Hg. unfold wp. rewrite (uclamp_eff_get_eq m p t g id Ht Hg).
  split; [done|]. split; [by eapply eff_of_wf; [apply Hok|..]|].
  destruct (ok_clamps m Hok) as (_ & Htg & _).
  assert (Hset : forall u v b, 0 <= v <= 1024 -> uc_value (uclamp_se_set u v b) = v).
  { intros u v b Hv. unfold uclamp_se_set. cbn [uc_value upd]. rewrite bits_value. apply Z.mod_small. lia. }
  pose proof (Htg _ g UCLAMP_MIN Hg) as [Hmin _]. pose proof (Htg _ g UCLAMP_MAX Hg) as [Hmax _].
  rewrite capacity_scale in Hmin, Hmax.
  assert (Hrv : tg_autogroup g = false -> ts_task_group t <> m_root_task_group m ->
    uc_value (restrict_of (m_root_task_group m) g t id) =
    clampZ (uc_value (pc_get id (ts_uclamp_req t))) (uc_value (pc_get UCLAMP_MIN (tg_uclamp g)))
      (uc_value (pc_get UCLAMP_MAX (tg_uclamp g)))).
  { intros Ha Hr. unfold restrict_of. rewrite Ha. destruct (Z.eqb_spec (ts_task_group t) (m_root_task_group m)); [done|].
    cbn [orb]. apply Hset. unfold clampZ. lia. }
  unfold eff_of. destruct (_ <? _) eqn:E; (split; [lia|]); intros Ha Hr Hle; rewrite (Hrv Ha Hr) in *;
    unfold clampZ in *; lia.
Qed.

(** * Requests *)

(** uclamp_validate() on a request for the minimum clamp alone: it accepts
    "unset" (-1), a value up to the task's current maximum and at most 1024, and
    also every value of 2^31 or more, because the range check is signed. *)
Theorem uclamp_validate_min p attr m t :
  m_tasks m !! p = Some t -> sa_flags attr = SCHED_FLAG_UTIL_CLAMP_MIN -> in_u32 (sa_util_min attr) ->
  0 <= uc_value (pc_get UCLAMP_MAX (ts_uclamp_req t)) <= 1024 ->
  wp (uclamp_validate p attr) (fun res m' =>
    if ((sa_util_min attr <=? uc_value (pc_get UCLAMP_MAX (ts_uclamp_req t))) || (2 ^ 31 <=? sa_util_min attr))%bool
    then res = Ok tt /\ m' = m <| m_uclamp_used := true |>
    else res = Err EINVAL /\ m' = m) m.
Proof.
  intros Ht Hf Hr Hm. unfold uclamp_validate. wp_go. rewrite Hf, util_clamp_min_val, util_clamp_max_val.
  change (has_flag 32 32) with true. change (has_flag 32 64) with false. cbn [andb].
  set (v := sa_util_min attr) in *. set (umax := uc_value (pc_get UCLAMP_MAX (ts_uclamp_req t))) in *.
  unfold in_u32 in Hr. unfold uclamp_out_of_range. rewrite capacity_scale.
  destruct (2 ^ 31 <=? v) eqn:Hbig.
  - assert (Ev : s32 v = v - 2 ^ 32).
    { unfold s32. replace (v + 2 ^ 31) with (v - 2 ^ 31 + 1 * 2 ^ 32) by lia. rewrite Z.mod_add, Z.mod_small by lia. lia. }
    rewrite Ev, orb_true_r. rewrite (s32_small (v - 2 ^ 32 + 1)) by (unfold in_s32; lia).
    replace (1024 + 1 <? v - 2 ^ 32 + 1) with false by lia. cbn [negb].
    replace (umax <? v - 2 ^ 32) with false by lia. rewrite andb_false_r. kgo. done.
  - rewrite (s32_small v) by (unfold in_s32; lia). rewrite orb_false_r.
    destruct (decide (v = 2 ^ 31 - 1)) as [E|E].
    + rewrite E. change (s32 (2 ^ 31 - 1 + 1)) with (- 2 ^ 31). change (1024 + 1 <? - 2 ^ 31) with false.
      cbn iota. replace (umax <? 2 ^ 31 - 1) with true by lia. replace (umax =? -1) with false by lia.
      replace (2 ^ 31 - 1 <=? umax) with false by lia. by wp_go.
    + rewrite (s32_small (v + 1)) by (unfold in_s32; lia).
      destruct (1024 + 1 <? v + 1) eqn:E1; [replace (v <=? umax) with false by lia; by wp_go|].
      replace (v =? -1) with false by lia. replace (umax =? -1) with false by lia. cbn [negb andb].
      destruct (umax <? v) eqn:E2; [replace (v <=? umax) with false by lia; by wp_go|].
      replace (v <=? umax) with true by lia. kgo. done.
Qed.

(** * The sysctl knobs *)

(** The values written are acceptable. *)
Definition sysctl_values_ok (m : machine) : bool :=
  ((m_uclamp_util_min m <=? m_uclamp_util_max m) && (m_uclamp_util_max m <=? 1024) &&
   (m_uclamp_util_min_rt_default m <=? 1024))%bool.

(** A write to the clamp sysctls that cannot be parsed, or whose values are
    out of order or above 1024, fails with the parser's error or EINVAL and
    leaves the three variables exactly as they were before the write. *)
Theorem sysctl_uclamp_rejects fuel (proc_dointvec : K (cres unit)) m r m1 :
  proc_dointvec m = Ret r m1 -> sysctl_values_ok m1 = false \/ r <> Ok tt ->
  wp (sysctl_sched_uclamp_handler fuel proc_dointvec true) (fun res m' =>
    res = match r with Err e => Err e | Ok _ => Err EINVAL end /\
    m_uclamp_util_min m' = m_uclamp_util_min m /\ m_uclamp_util_max m' = m_uclamp_util_max m /\
    m_uclamp_util_min_rt_default m' = m_uclamp_util_min_rt_default m /\
    m_uclamp_default m' = m_uclamp_default m1 /\ m_tasks m' = m_tasks m1) m.
Proof.
  intros E Hbad. unfold sysctl_sched_uclamp_handler. kgo. unfold wp at 1. rewrite E.
  destruct r as [[]|e].
  - destruct Hbad as [Hv|]; [|done]. cbn [negb]. kgo.
    replace ((m_uclamp_util_max m1 <? m_uclamp_util_min m1) || (SCHED_CAPACITY_SCALE <? m_uclamp_util_max m1)
      || (SCHED_CAPACITY_SCALE <? m_uclamp_util_min_rt_default m1))%bool with true
      by (unfold sysctl_values_ok in Hv; rewrite capacity_scale; lia).
    kgo. done.
  - kgo. done.
Qed.
End UclampSpec.

(** * The theorems at a concrete machine *)
Section Witnesses.
#[local] Existing Instance linux_headers.
#[local] Existing Instance Demo.extern.

(** [machine0] with clamping in use. *)
Definition machine_uc : machine := machine0 <| m_uclamp_used := true |>.

Lemma kernel_ok_uc : kernel_ok machine_uc.
Proof. eapply kernel_ok_frame; [|apply kernel_ok0]. done. Qed.

Lemma clamp_off_uc p : clamp_off machine_uc p.
Proof. intros _ t Ht. by which_obj Ht. Qed.

Lemma uclamp_accounting_witness :
  task_on machine_uc 0 12 /\
  ((clamp_off machine_uc 12 -> wp (uclamp_rq_inc 0 12) (fun _ m' => kernel_ok m' /\ queue_frame machine_uc m') machine_uc) /\
   wp (uclamp_rq_dec 0 12) (fun _ m' => kernel_ok m' /\ queue_frame machine_uc m' /\ clamp_off m' 12) machine_uc).
Proof.
  assert (Hon : task_on machine_uc 0 12) by (eexists; split; reflexivity).
  split; [exact Hon|]. apply uclamp_accounting; [apply kernel_ok_uc | exact Hon].
Defined.

(** Task 12 asks for a maximum of 700 and is enqueued. *)
Definition machine_700 : machine :=
  machine_uc <| m_tasks := <[12 := (user_task 12) <| ts_uclamp_req :=
    pc_set UCLAMP_MAX (uclamp_se_set (Mk_uclamp_se 0 0 false false) 700 true) clamp_none |>]> (m_tasks machine_uc) |>.

Lemma kernel_ok_700 : kernel_ok (after (uclamp_rq_inc 0 12) machine_700).
Proof.
  apply wp_after. destruct kernel_ok_uc as [Hn Hr Ht Hth Hu Hc Ha].
  assert (Hok : kernel_ok machine_700).
  { split.
    - reflexivity.
    - intros c q Hq. which_obj Hq; (split; [done|]); split; eexists; (split; [reflexivity | done]).
    - intros p t Hp. which_obj Hp; by split; eexists.
    - by eexists.
    - apply uclamp_inv_idle; [intros p t Hp; by which_obj Hp | intros c q Hq; by which_obj Hq].
    - split; [|split].
      + intros p t id Hp. which_obj Hp; try apply clamp_none_wf.
        destruct id; (split; [split; vm_compute; discriminate | reflexivity]).
      + intros a g id Hg. which_obj Hg. apply clamp_none_wf.
      + intros id. apply clamp_none_wf.
    - intros p t Hp. by which_obj Hp. }
  apply wp_uclamp_inc; [done | eexists; split; reflexivity | | done].
  intros _ t Ht'. vm_compute in Ht'. injection Ht' as <-. reflexivity.
Qed.

Lemma uclamp_aggregate_max_witness :
  exists q, m_rqs (after (uclamp_rq_inc 0 12) machine_700) !! 0 = Some q /\
  ur_value (pc_get UCLAMP_MAX (rq_uclamp q)) = 700 /\
  ((forall p t, m_tasks (after (uclamp_rq_inc 0 12) machine_700) !! p = Some t -> ts_cpu t = 0 ->
     uc_active (pc_get UCLAMP_MAX (ts_uclamp t)) = true ->
     uc_value (pc_get UCLAMP_MAX (ts_uclamp t)) <= ur_value (pc_get UCLAMP_MAX (rq_uclamp q))) /\
   exists p t, m_tasks (after (uclamp_rq_inc 0 12) machine_700) !! p = Some t /\ ts_cpu t = 0 /\
     uc_active (pc_get UCLAMP_MAX (ts_uclamp t)) = true /\
     uc_bucket_id (pc_get UCLAMP_MAX (ts_uclamp t)) = uclamp_bucket_id (ur_value (pc_get UCLAMP_MAX (rq_uclamp q)))).
Proof.
  eexists. split; [vm_compute; reflexivity|]. split; [reflexivity|].
  apply uclamp_aggregate_max; [apply kernel_ok_700 | vm_compute; reflexivity | vm_compute; discriminate].
Defined.

Lemma uclamp_eff_bounds_witness :
  let t := (user_task 11) <| ts_on_cpu := 1 |> in
  m_tasks machine_uc !! 11 = Some t /\
  wp (uclamp_eff_get 11 UCLAMP_MAX) (fun eff m' => m' = machine_uc /\ wf_se eff /\
    uc_value eff <= uc_value (pc_get UCLAMP_MAX (m_uclamp_default machine_uc)) /\
    (tg_autogroup tg0 = false -> ts_task_group t <> m_root_task_group machine_uc ->
     uc_value (pc_get UCLAMP_MIN (tg_uclamp tg0)) <= uc_value (pc_get UCLAMP_MAX (tg_uclamp tg0)) ->
     uc_value eff <= uc_value (pc_get UCLAMP_MAX (tg_uclamp tg0)) /\
     Z.min (uc_value (pc_get UCLAMP_MIN (tg_uclamp tg0))) (uc_value (pc_get UCLAMP_MAX (m_uclamp_default machine_uc)))
       <= uc_value eff)) machine_uc.
Proof.
  intros t. split; [reflexivity|].
  exact (uclamp_eff_bounds machine_uc 11 t tg0 UCLAMP_MAX kernel_ok_uc eq_refl eq_refl).
Defined.

(** A request of 2^32 - 2043 passes the check. *)
Lemma uclamp_validate_min_witness :
  let t := user_task 12 in
  let attr := attr0 <| sa_flags := 32 |> <| sa_util_min := 2 ^ 32 - 2043 |> in
  m_tasks machine0 !! 12 = Some t /\
  wp (uclamp_validate 12 attr) (fun res m' =>
    if ((sa_util_min attr <=? uc_value (pc_get UCLAMP_MAX (ts_uclamp_req t))) || (2 ^ 31 <=? sa_util_min attr))%bool
    then res = Ok tt /\ m' = machine0 <| m_uclamp_used := true |>
    else res = Err EINVAL /\ m' = machine0) machine0.
Proof.
  intros t attr. split; [reflexivity|].
  refine (uclamp_validate_min 12 attr machine0 t eq_refl eq_refl _ _).
  - unfold in_u32. cbn. lia.
  - vm_compute. split; discriminate.
Defined.

(** Stored, it becomes the value 5 in the bucket of the largest values. *)
Example huge_request_misplaced :
  uc_value (uclamp_se_set (Mk_uclamp_se 0 0 false false) (2 ^ 32 - 2043) true) = 5 /\
  uc_bucket_id (uclamp_se_set (Mk_uclamp_se 0 0 false false) (2 ^ 32 - 2043) true) = 4 /\
  uclamp_bucket_id 5 = 0.
Proof. vm_compute. done. Qed.

Lemma sysctl_uclamp_rejects_witness :
  let write : K (cres unit) := setg m_uclamp_util_min 2000 ;; mret (Ok tt) in
  wp (sysctl_sched_uclamp_handler 3 write true) (fun res m' =>
    res = Err EINVAL /\
    m_uclamp_util_min m' = m_uclamp_util_min machine0 /\ m_uclamp_util_max m' = m_uclamp_util_max machine0 /\
    m_uclamp_util_min_rt_default m' = m_uclamp_util_min_rt_default machine0 /\
    m_uclamp_default m' = m_uclamp_default (machine0 <| m_uclamp_util_min := 2000 |>) /\
    m_tasks m' = m_tasks (machine0 <| m_uclamp_util_min := 2000 |>)) machine0.
Proof.
  intros write. refine (sysctl_uclamp_rejects 3 write machine0 (Ok tt) _ eq_refl _). by left.
Defined.
End Witnesses.
