(* ===== verification/AddrXlate.v ===== *)
(** Project 1: the system call my_get_physical_addresses() and its page-table
    walk ADDRESS_TRANSFORM() (addresstransform.c).

    The page-table accessors are code of the architecture: the class [Paging]
    has one operation per accessor, [PagingOK] what <asm/pgtable.h> documents
    about them for 4 KB pages, and [x86] an executable instance, the five-level
    tables of x86-64.  [mmu_translate] is the translation the hardware makes
    with those tables, the reference the walk is compared with. *)
From S2P Require Import Prelude.

(** * State *)

(** [ps_mem] is physical memory, page tables included, and [ps_user] the user
    memory the system call reads and writes, both by the address of an 8-byte
    word; an address without a word cannot be accessed. *)
Record pstate : Type := Mk_pstate {
  ps_mm : Z;
  ps_mem : gmap Z Z;
  ps_user : gmap Z Z;
  ps_log : list (string * list Z);
}.
#[export] Instance eta_pstate : Eta pstate := fun s =>
  Mk_pstate (ps_mm s) (ps_mem s) (ps_user s) (ps_log s).

Abbreviation P := (M pstate).

Definition printk (msg : string) (args : list Z) : P unit :=
  modify (fun s => s <| ps_log := ps_log s ++ [(msg, args)] |>).

(** Read the entry a page-table pointer points to. *)
Definition entry (ptr : Z) : P Z := fun s =>
  match ps_mem s !! ptr with
  | Some v => Ret v s
  | None => Stuck EFAULT_PTR
  end.

(** * The architecture's accessors *)
Class Paging := {
  pgd_offset : Z -> Z -> Z;           (** mm, address *)
  p4d_offset : Z -> Z -> Z -> Z;      (** pointer, its entry, address *)
  pud_offset : Z -> Z -> Z -> Z;
  pmd_offset : Z -> Z -> Z -> Z;
  pte_offset_map : Z -> Z -> Z -> Z;
  pgd_none : Z -> bool; p4d_none : Z -> bool; pud_none : Z -> bool;
  pmd_none : Z -> bool; pte_none : Z -> bool;
  pgd_index : Z -> Z; p4d_index : Z -> Z; pud_index : Z -> Z; pmd_index : Z -> Z; pte_index : Z -> Z;
  pte_page : Z -> Z;                  (** struct page of an entry *)
  page_to_phys : Z -> Z;
  PAGE_SHIFT : Z;
}.

(** PAGE_MASK is ~((1 << PAGE_SHIFT) - 1), a 64-bit constant. *)
Definition PAGE_MASK `{Paging} : Z := u64 (Z.lnot (Z.shiftl 1 PAGE_SHIFT - 1)).

Class PagingOK (A : Paging) : Prop := {
  PAGE_SHIFT_val : PAGE_SHIFT = 12;
  page_aligned pte : (page_to_phys (pte_page pte)) mod 4096 = 0;
  page_range pte : 0 <= page_to_phys (pte_page pte) < 2 ^ 64;
}.

Section Walk.
Context {A : Paging}.

(** The last level: from the page-table entry to the address. *)
Definition finish_walk (virtual_address pte : Z) : P Z :=
  let result_page := pte_page pte in
  let page_address := page_to_phys result_page in
  let page_offset := Z.land virtual_address (u64 (Z.lnot PAGE_MASK)) in
  let physical_address := Z.lor page_address page_offset in
  printk "page_address, page_offset" [page_address; page_offset] ;;
  printk "virtual_address, physical_address" [virtual_address; physical_address] ;;
  mret physical_address.

Definition ADDRESS_TRANSFORM (virtual_address : Z) : P Z :=
  mm ← gets ps_mm;
  let pgd := pgd_offset mm virtual_address in
  pgd_v ← entry pgd;
  printk "pgd_value, pgd_index" [pgd_v; pgd_index virtual_address] ;;
  if pgd_none pgd_v then printk "map error: page global directory (pgd)" [] ;; mret 0
  else
  let p4d := p4d_offset pgd pgd_v virtual_address in
  p4d_v ← entry p4d;
  printk "p4d_value, p4d_index" [p4d_v; p4d_index virtual_address] ;;
  if p4d_none p4d_v then printk "map error: page p4 directory (p4d)" [] ;; mret 0
  else
  let pud := pud_offset p4d p4d_v virtual_address in
  pud_v ← entry pud;
  printk "pud_value, pud_index" [pud_v; pud_index virtual_address] ;;
  if pud_none pud_v then printk "map error: page upper directory (pud)" [] ;; mret 0
  else
  let pmd := pmd_offset pud pud_v virtual_address in
  pmd_v ← entry pmd;
  printk "pmd_value, pmd_index" [pmd_v; pmd_index virtual_address] ;;
  if pmd_none pmd_v then printk "map error: page middle directory (pmd)" [] ;; mret 0
  else
  let pte := pte_offset_map pmd pmd_v virtual_address in
  pte_v ← entry pte;
  printk "pte_value, ptd_index" [pte_v; pte_index virtual_address] ;;
  if pte_none pte_v then printk "map error: page table entry (pte)" [] ;; mret 0
  else finish_walk virtual_address pte_v.

(** * The system call *)

(** copy_from_user() of [n] words: it copies until the first word that is not
    mapped, fills the rest with zeroes and returns the number of bytes left. *)
Fixpoint copy_from_user (user : gmap Z Z) (from : Z) (n : nat) : list Z * Z :=
  match n with
  | O => ([], 0)
  | S n' => match user !! from with
            | Some v => let '(l, bytes) := copy_from_user user (from + 8) n' in (v :: l, bytes)
            | None => (replicate n 0, 8 * Z.of_nat n)
            end
  end.

(** copy_to_user() writes until the first word that is not mapped. *)
Fixpoint copy_to_user (user : gmap Z Z) (to : Z) (l : list Z) : gmap Z Z * Z :=
  match l with
  | [] => (user, 0)
  | v :: l' => match user !! to with
               | Some _ => copy_to_user (<[to := v]> user) (to + 8) l'
               | None => (user, 8 * Z.of_nat (length l))
               end
  end.

Fixpoint transform_all (l : list Z) (i : Z) : P (list Z) :=
  match l with
  | [] => mret []
  | v :: l' =>
      printk "i" [i] ;;
      p ← ADDRESS_TRANSFORM v;
      ps ← transform_all l' (i + 1);
      mret (p :: ps)
  end.

(** The two arrays of [virtual_address_length] longs are on the kernel stack: a
    negative length is undefined behaviour, and arrays larger than the room
    left there run into the guard page.  [length_slot] is the address of the
    argument [physical_address_length], the destination of the last copy; the
    results of the copies are not used. *)
Definition my_get_physical_addresses (stack_room length_slot : Z)
  (initial virtual_address_length result physical_address_length : Z) : P Z :=
  if ((virtual_address_length <? 0) || (stack_room <? 16 * virtual_address_length))%bool
  then stuck EFAULT_PTR
  else
    user ← gets ps_user;
    let '(virtual_address, _) := copy_from_user user initial (Z.to_nat virtual_address_length) in
    printk "virtual_address_length" [virtual_address_length] ;;
    physical_address ← transform_all virtual_address 0;
    user ← gets ps_user;
    modify (fun s => s <| ps_user := (copy_to_user user result physical_address).1 |>) ;;
    user ← gets ps_user;
    modify (fun s => s <| ps_user := (copy_to_user user length_slot [virtual_address_length]).1 |>) ;;
    mret 0.
End Walk.

(** * The x86-64 tables *)

(** Bit fields of a virtual address and of an entry.  Table memory is addressed
    by physical address; an entry holds the frame in bits 12..51, the present
    bit 0 and, in a middle or upper directory, the page-size bit 7. *)
Definition level_index (shift va : Z) : Z := Z.land (Z.shiftr va shift) 511.
Definition frame_of (e : Z) : Z := Z.shiftl (Z.land (Z.shiftr e 12) (2 ^ 40 - 1)) 12.
Definition present (e : Z) : bool := Z.testbit e 0.
Definition huge (e : Z) : bool := Z.testbit e 7.

(** [mm] is the physical address of the top-level table.  An entry is "none"
    when it is zero. *)
#[export] Instance x86 : Paging := {|
  pgd_offset mm va := mm + 8 * level_index 48 va;
  p4d_offset _ e va := frame_of e + 8 * level_index 39 va;
  pud_offset _ e va := frame_of e + 8 * level_index 30 va;
  pmd_offset _ e va := frame_of e + 8 * level_index 21 va;
  pte_offset_map _ e va := frame_of e + 8 * level_index 12 va;
  pgd_none e := e =? 0; p4d_none e := e =? 0; pud_none e := e =? 0; pmd_none e := e =? 0; pte_none e := e =? 0;
  pgd_index := level_index 48; p4d_index := level_index 39; pud_index := level_index 30;
  pmd_index := level_index 21; pte_index := level_index 12;
  pte_page e := Z.shiftr (frame_of e) 12; page_to_phys pg := Z.shiftl pg 12; PAGE_SHIFT := 12;
|}.

(** What the hardware does: walk the five levels through present entries, stop
    at a huge page in the upper or middle directory, fault otherwise. *)
Definition mmu_step (mem : gmap Z Z) (table shift va : Z) : option Z :=
  e ← mem !! (table + 8 * level_index shift va);
  if present e then Some e else None.

Definition mmu_translate (mem : gmap Z Z) (mm va : Z) : option Z :=
  pgd ← mmu_step mem mm 48 va;
  p4d ← mmu_step mem (frame_of pgd) 39 va;
  pud ← mmu_step mem (frame_of p4d) 30 va;
  if huge pud then Some (Z.lor (frame_of pud) (Z.land va (2 ^ 30 - 1)))
  else
    pmd ← mmu_step mem (frame_of pud) 21 va;
    if huge pmd then Some (Z.lor (frame_of pmd) (Z.land va (2 ^ 21 - 1)))
    else
      pte ← mmu_step mem (frame_of pmd) 12 va;
      Some (Z.lor (frame_of pte) (Z.land va (2 ^ 12 - 1))).

(** The hardware maps [va] with a 4 KB page. *)
Definition mapped_4k (mem : gmap Z Z) (mm va : Z) : Prop :=
  exists pgd p4d pud pmd pte,
    mmu_step mem mm 48 va = Some pgd /\ mmu_step mem (frame_of pgd) 39 va = Some p4d /\
    mmu_step mem (frame_of p4d) 30 va = Some pud /\ huge pud = false /\
    mmu_step mem (frame_of pud) 21 va = Some pmd /\ huge pmd = false /\
    mmu_step mem (frame_of pmd) 12 va = Some pte.

(** * The walk *)

(** Memory, address space and user memory are only read. *)
Definition same_memory (s s' : pstate) : Prop :=
  ps_mm s' = ps_mm s /\ ps_mem s' = ps_mem s /\ ps_user s' = ps_user s.

#[export] Instance same_memory_preorder : PreOrder same_memory.
Proof. split; [done | intros ? ? ? (?&?&?) (?&?&?); repeat split; congruence]. Qed.

Lemma preserves_printk n a : preserves same_memory (printk n a).
Proof. by apply preserves_modify. Qed.

Lemma preserves_entry p : preserves same_memory (entry p).
Proof. intros s v s'. unfold entry. case_match; [|done]. by intros [= <- <-]. Qed.

#[export] Hint Resolve preserves_printk preserves_entry : preserve.

Lemma wp_printk n a Q s : wp (printk n a) Q s <-> Q tt (s <| ps_log := ps_log s ++ [(n, a)] |>).
Proof. done. Qed.

Lemma wp_entry p v Q s : ps_mem s !! p = Some v -> Q v s -> wp (entry p) Q s.
Proof. intros E HQ. unfold wp, entry. by rewrite E. Qed.

Lemma preserves_walk `{A : Paging} va : preserves same_memory (ADDRESS_TRANSFORM va).
Proof. unfold ADDRESS_TRANSFORM, finish_walk. keep. Qed.

(** Where a walk ends: the entry found at the last level, or a level without
    one. *)
Inductive walk_end : Type := no_entry | found (pte : Z).

Definition descend `{A : Paging} (mem : gmap Z Z) (ptr : Z) (none : Z -> bool)
  (k : Z -> option walk_end) : option walk_end :=
  e ← mem !! ptr; if none e then Some no_entry else k e.

Definition walk `{A : Paging} (mem : gmap Z Z) (mm va : Z) : option walk_end :=
  let pgd := pgd_offset mm va in
  descend mem pgd pgd_none (fun pgd_v =>
  let p4d := p4d_offset pgd pgd_v va in
  descend mem p4d p4d_none (fun p4d_v =>
  let pud := pud_offset p4d p4d_v va in
  descend mem pud pud_none (fun pud_v =>
  let pmd := pmd_offset pud pud_v va in
  descend mem pmd pmd_none (fun pmd_v =>
  descend mem (pte_offset_map pmd pmd_v va) pte_none (fun pte => Some (found pte)))))).

Definition walk_addr `{A : Paging} (va : Z) (e : walk_end) : Z :=
  match e with
  | no_entry => 0
  | found pte => Z.lor (page_to_phys (pte_page pte)) (Z.land va (u64 (Z.lnot PAGE_MASK)))
  end.

(** One level of the walk. *)
Lemma descend_run `{A : Paging} ptr none n l msg k k' s va :
  (forall e s1, same_memory s s1 -> none e = false ->
    exists s', k e s1 = match k' e with Some w => Ret (walk_addr va w) s' | None => Stuck EFAULT_PTR end) ->
  exists s', (e ← entry ptr; printk n (l e) ;; if none e then printk msg [] ;; mret 0 else k e) s
    = match descend (ps_mem s) ptr none k' with
      | Some w => Ret (walk_addr va w) s' | None => Stuck EFAULT_PTR end.
Proof.
  intros Hk. unfold descend, entry, mbind, M_bind, option_bind. destruct (ps_mem s !! ptr) as [e|]; [cbn | by exists s].
  destruct (none e) eqn:N; [by eexists | by apply Hk].
Qed.

Lemma walk_run `{A : Paging} va s :
  exists s', ADDRESS_TRANSFORM va s =
    match walk (ps_mem s) (ps_mm s) va with
    | Some w => Ret (walk_addr va w) s' | None => Stuck EFAULT_PTR end.
Proof.
  unfold ADDRESS_TRANSFORM, walk.
  apply descend_run. intros e1 s1 (_ & E1 & _) _. rewrite <- E1.
  apply descend_run. intros e2 s2 (_ & E2 & _) _. rewrite <- E2.
  apply descend_run. intros e3 s3 (_ & E3 & _) _. rewrite <- E3.
  apply descend_run. intros e4 s4 (_ & E4 & _) _. rewrite <- E4.
  apply descend_run. intros e5 s5 _ _. by eexists.
Qed.

(** ** Frames and offsets *)
Lemma page_offset_mask `{A : Paging, !PagingOK A} va : Z.land va (u64 (Z.lnot PAGE_MASK)) = va mod 4096.
Proof.
  unfold PAGE_MASK. rewrite PAGE_SHIFT_val. change (u64 (Z.lnot _)) with (Z.ones 12).
  by rewrite Z.land_ones by lia.
Qed.

Lemma lor_aligned a k : a mod 4096 = 0 -> 0 <= k < 4096 -> Z.lor a k = a + k.
Proof.
  intros Ha Hk. rewrite <- Z.lxor_lor; [symmetry; apply Z.add_nocarry_lxor|];
    apply Z.bits_inj'; intros n Hn; rewrite Z.land_spec, Z.bits_0;
    (destruct (Z_lt_le_dec n 12) as [L|L];
     [ replace (Z.testbit a n) with (Z.testbit (a mod 2 ^ 12) n) by (by apply Z.mod_pow2_bits_low);
       change (2 ^ 12) with 4096; by rewrite Ha, Z.bits_0
     | replace k with (k mod 2 ^ 12) by (apply Z.mod_small; lia);
       rewrite Z.mod_pow2_bits_high by lia; apply andb_false_r ]).
Qed.

Lemma walk_addr_found `{A : Paging, !PagingOK A} va pte :
  walk_addr va (found pte) = page_to_phys (pte_page pte) + va mod 4096.
Proof.
  cbn. rewrite page_offset_mask. apply lor_aligned; [apply page_aligned|].
  apply Z.mod_pos_bound. lia.
Qed.

Lemma frame_of_div e : frame_of e = (e / 4096) mod 2 ^ 40 * 4096.
Proof.
  unfold frame_of. change (2 ^ 40 - 1) with (Z.ones 40).
  by rewrite Z.land_ones, Z.shiftr_div_pow2, Z.shiftl_mul_pow2 by lia.
Qed.

Lemma frame_of_bounds e : 0 <= frame_of e <= 2 ^ 52 - 4096.
Proof.
  rewrite frame_of_div. pose proof (Z.mod_pos_bound (e / 4096) (2 ^ 40)). lia.
Qed.

Lemma x86_frame e : page_to_phys (pte_page e) = frame_of e.
Proof.
  cbn. rewrite frame_of_div, Z.shiftr_div_pow2, Z.shiftl_mul_pow2 by lia. change (2 ^ 12) with 4096.
  by rewrite Z.div_mul by lia.
Qed.

#[export] Instance x86_ok : PagingOK x86.
Proof.
  split; [done | intros e; rewrite x86_frame ..].
  - rewrite frame_of_div. apply Z_mod_mult.
  - pose proof (frame_of_bounds e). lia.
Qed.

(** Addresses of one page have the same index at every level. *)
Lemma level_index_page shift va va' :
  12 <= shift -> va / 4096 = va' / 4096 -> level_index shift va = level_index shift va'.
Proof.
  intros Hs E. unfold level_index. f_equal. rewrite !Z.shiftr_div_pow2 by lia.
  replace (2 ^ shift) with (4096 * 2 ^ (shift - 12))
    by (change 4096 with (2 ^ 12); rewrite <- Z.pow_add_r by lia; f_equal; lia).
  rewrite <- !Z.div_div by lia. by rewrite E.
Qed.

Lemma walk_page mem mm va va' : va / 4096 = va' / 4096 -> walk mem mm va = walk mem mm va'.
Proof.
  intros E. unfold walk, pgd_offset, p4d_offset, pud_offset, pmd_offset, pte_offset_map, x86.
  by rewrite !(level_index_page _ va va') by lia.
Qed.

(** A present entry is not "none". *)
Lemma descend_mmu mem table shift va e k :
  mmu_step mem table shift va = Some e ->
  descend mem (table + 8 * level_index shift va) (fun e => e =? 0) k = k e /\ present e = true.
Proof.
  unfold mmu_step, descend, mbind, option_bind. destruct (mem !! _) as [x|]; [|done].
  destruct (present x) eqn:Px; [|done]. intros [= <-]. split; [|done].
  destruct (x =? 0) eqn:Z0; [|done]. apply Z.eqb_eq in Z0. by subst x.
Qed.

Lemma walk_mapped mem mm va :
  mapped_4k mem mm va ->
  exists pte, walk mem mm va = Some (found pte) /\
    mmu_translate mem mm va = Some (frame_of pte + va mod 4096).
Proof.
  intros (pgd & p4d & pud & pmd & pte & E1 & E2 & E3 & H3 & E4 & H4 & E5). exists pte.
  unfold walk, mmu_translate, pgd_offset, p4d_offset, pud_offset, pmd_offset, pte_offset_map,
    pgd_none, p4d_none, pud_none, pmd_none, pte_none, x86, mbind, option_bind.
  rewrite (proj1 (descend_mmu _ _ _ _ _ _ E1)), (proj1 (descend_mmu _ _ _ _ _ _ E2)),
    (proj1 (descend_mmu _ _ _ _ _ _ E3)), (proj1 (descend_mmu _ _ _ _ _ _ E4)),
    (proj1 (descend_mmu _ _ _ _ _ _ E5)), E1, E2, E3, H3, E4, H4, E5.
  split; [done|]. f_equal. change (2 ^ 12 - 1) with (Z.ones 12). rewrite Z.land_ones by lia.
  apply lor_aligned; [rewrite frame_of_div; apply Z_mod_mult | apply Z.mod_pos_bound; lia].
Qed.

(** * Properties *)

(** C17: For every address the hardware maps with a 4 KB page, the walk returns
    the physical address the hardware uses: it agrees with [mmu_translate], has
    the offset of the virtual address, and only reads memory. *)
Theorem address_transform_mmu s va :
  mapped_4k (ps_mem s) (ps_mm s) va ->
  wp (ADDRESS_TRANSFORM va)
    (fun pa s' => mmu_translate (ps_mem s) (ps_mm s) va = Some pa /\
                  pa mod 4096 = va mod 4096 /\ same_memory s s') s.
Proof.
  intros (pte & W & T)%walk_mapped. destruct (walk_run va s) as (s' & R). rewrite W in R.
  apply wp_run. exists (walk_addr va (found pte)), s'. split; [done|].
  rewrite walk_addr_found, x86_frame. split; [done|]. split; [|by eapply preserves_walk].
  rewrite frame_of_div, Z.add_comm, Z_mod_plus_full. by rewrite Zmod_mod.
Qed.

(** Two addresses of one page have the same outcome: both walks fault, or
    both report no mapping (0), or the physical addresses are as far apart as
    the virtual ones.  This is what makes two threads that share a page see
    the same physical address for the same variable. *)
Theorem address_transform_same_page s va va' :
  va / 4096 = va' / 4096 ->
  match ADDRESS_TRANSFORM va s, ADDRESS_TRANSFORM va' s with
  | Ret p _, Ret p' _ => (p = 0 /\ p' = 0) \/ p' - p = va' - va
  | Stuck _, Stuck _ => walk (ps_mem s) (ps_mm s) va = None
  | _, _ => False
  end.
Proof.
  intros E. destruct (walk_run va s) as (s1 & ->), (walk_run va' s) as (s2 & ->).
  rewrite <- (walk_page _ _ va va' E). destruct (walk _ _ va) as [[|pte]|]; [by left | right | done].
  rewrite !walk_addr_found. pose proof (Z.div_mod va 4096). pose proof (Z.div_mod va' 4096). lia.
Qed.

(** ** The user's arrays *)
Definition user_array (u : gmap Z Z) (base : Z) (l : list Z) : Prop :=
  forall i v, l !! i = Some v -> u !! (base + 8 * Z.of_nat i) = Some v.

Definition user_room (u : gmap Z Z) (base : Z) (n : nat) : Prop :=
  forall i, (i < n)%nat -> is_Some (u !! (base + 8 * Z.of_nat i)).

(** The addresses outside the array keep their contents. *)
Definition outside (base : Z) (n : nat) (u u' : gmap Z Z) : Prop :=
  forall a, (forall i, (i < n)%nat -> a <> base + 8 * Z.of_nat i) -> u' !! a = u !! a.

Lemma word_succ base i : base + 8 + 8 * Z.of_nat i = base + 8 * Z.of_nat (S i).
Proof. lia. Qed.

Lemma copy_from_user_array u base l : user_array u base l -> copy_from_user u base (length l) = (l, 0).
Proof.
  revert base. induction l as [|v l IH]; intros base Hl; [done|]. cbn.
  pose proof (Hl 0%nat v eq_refl) as H0. replace (base + 8 * Z.of_nat 0) with base in H0 by lia.
  rewrite H0, IH; [done|]. intros i w Hw. rewrite word_succ. by apply Hl.
Qed.

Lemma copy_to_user_room u base l :
  user_room u base (length l) ->
  user_array (copy_to_user u base l).1 base l /\ outside base (length l) u (copy_to_user u base l).1.
Proof.
  revert u base. induction l as [|v l IH]; intros u base Hr; [done|]. cbn.
  destruct (Hr 0%nat ltac:(cbn; lia)) as [x Hx]. replace (base + 8 * Z.of_nat 0) with base in Hx by lia.
  rewrite Hx. destruct (IH (<[base:=v]> u) (base + 8)) as [Ha Ho].
  { intros i Hi. rewrite word_succ, lookup_insert_ne by lia. apply Hr. cbn. lia. }
  split.
  - intros [|i] w Hw; [|rewrite <- word_succ; by apply Ha].
    injection Hw as <-. rewrite Ho by lia. replace (base + 8 * Z.of_nat 0) with base by lia.
    apply lookup_insert_eq.
  - intros a Hn. rewrite Ho.
    + apply lookup_insert_ne. intros <-. apply (Hn 0%nat); [cbn|]; lia.
    + intros i Hi. rewrite word_succ. apply Hn. cbn. lia.
Qed.

Lemma wp_transform_all l ws i Q s :
  Forall2 (fun va w => walk (ps_mem s) (ps_mm s) va = Some w) l ws ->
  (forall s', same_memory s s' -> Q (zip_with walk_addr l ws) s') -> wp (transform_all l i) Q s.
Proof.
  revert ws i Q s. induction l as [|va l IH]; intros ws i Q s HF HQ.
  - inversion HF; subst. by apply HQ.
  - apply Forall2_cons_inv_l in HF as (w & ws' & Hw & HF & ->). cbn.
    apply wp_bind, wp_printk, wp_bind. set (s0 := s <| ps_log := _ |>).
    destruct (walk_run va s0) as (s1 & R). change (walk (ps_mem s0) (ps_mm s0) va) with (walk (ps_mem s) (ps_mm s) va) in R.
    rewrite Hw in R. apply wp_run. exists (walk_addr va w), s1. split; [done|].
    apply preserves_walk in R. assert (S1 : same_memory s s1) by done. destruct S1 as (E1 & E2 & E3).
    apply wp_bind, (IH ws'). { rewrite E1, E2. exact HF. } intros s2 (F1 & F2 & F3). apply wp_ret, HQ.
    repeat split; congruence.
Qed.

Lemma wp_my_get_physical_addresses s stack slot initial result len l ws :
  16 * Z.of_nat (length l) <= stack -> ps_user s !! slot = None ->
  user_array (ps_user s) initial l -> user_room (ps_user s) result (length l) ->
  Forall2 (fun va w => walk (ps_mem s) (ps_mm s) va = Some w) l ws ->
  wp (my_get_physical_addresses stack slot initial (Z.of_nat (length l)) result len)
    (fun r s' => r = 0 /\ user_array (ps_user s') result (zip_with walk_addr l ws) /\
                 outside result (length l) (ps_user s) (ps_user s') /\
                 ps_mem s' = ps_mem s /\ ps_mm s' = ps_mm s) s.
Proof.
  intros Hstack Hslot Hin Hout HF. unfold my_get_physical_addresses.
  replace (Z.of_nat (length l) <? 0) with false by lia. replace (stack <? _) with false by lia. cbn [orb].
  wp_step. wp_step. rewrite Nat2Z.id, copy_from_user_array by done.
  apply wp_bind, wp_printk, wp_bind, (wp_transform_all l ws); [done|]. intros s' (E1 & E2 & E3).
  assert (Lz : length (zip_with walk_addr l ws) = length l)
    by (rewrite length_zip_with; apply Forall2_length in HF; lia).
  destruct (copy_to_user_room (ps_user s) result (zip_with walk_addr l ws)) as [Ha Ho]; [by rewrite Lz|].
  rewrite Lz in Ho. wp_go. cbn. rewrite E3. cbn.
  rewrite (Ho slot); [by rewrite Hslot|]. intros i Hi ->. by destruct (Hout i Hi) as [? ?]; congruence.
Qed.

(** C18: The system call on an array of [n] addresses with room for [n] results
    returns 0 and stores, for every address in order, what the walk gives; no
    other word of user memory changes, in particular not a length. *)
Theorem my_get_physical_addresses_spec s stack slot initial result len l ws :
  let n := Z.of_nat (length l) in
  16 * n <= stack -> ps_user s !! slot = None ->
  user_array (ps_user s) initial l -> user_room (ps_user s) result (length l) ->
  Forall2 (fun va w => walk (ps_mem s) (ps_mm s) va = Some w) l ws ->
  wp (my_get_physical_addresses stack slot initial n result len)
    (fun r s' => r = 0 /\ user_array (ps_user s') result (zip_with walk_addr l ws) /\
                 outside result (length l) (ps_user s) (ps_user s') /\
                 ps_mem s' = ps_mem s) s.
Proof.
  intros n Hstack Hslot Hin Hout HF.
  eapply wp_mono; [by apply (wp_my_get_physical_addresses s stack slot initial result len l ws)|].
  by intros r s' (? & ? & ? & ? & _).
Qed.

(** The system call never reports an error: with no readable source and no
    writable destination it still returns 0, having translated zeroes, and
    leaves user memory as it was. *)
Theorem my_get_physical_addresses_no_error s stack slot initial result len n w :
  0 < n -> 16 * n <= stack -> ps_user s !! slot = None ->
  ps_user s !! initial = None -> ps_user s !! result = None ->
  walk (ps_mem s) (ps_mm s) 0 = Some w ->
  wp (my_get_physical_addresses stack slot initial n result len)
    (fun r s' => r = 0 /\ ps_user s' = ps_user s) s.
Proof.
  intros Hn Hstack Hslot Hin Hout HW. unfold my_get_physical_addresses.
  replace (n <? 0) with false by lia. replace (stack <? 16 * n) with false by lia. cbn [orb].
  wp_step. wp_step. destruct (Z.to_nat n) as [|k] eqn:Ek; [lia|]. cbn [copy_from_user]. rewrite Hin.
  apply wp_bind, wp_printk, wp_bind, (wp_transform_all _ (replicate (S k) w)).
  { apply Forall2_replicate. done. }
  intros s' (E1 & E2 & E3). rewrite zip_with_replicate by (by rewrite length_replicate).
  wp_go. cbn. rewrite E3. cbn in *. rewrite Hout. cbn. by rewrite Hslot.
Qed.

(** * A sample address space

    Top table at 0x1000, one table per level at 0x2000 .. 0x5000.  Page 0x7000
    maps to frame 0x9000 and page 0x8000 to frame 0xa000; the middle directory
    also maps the 2 MB from 0x200000 to the huge page at 0x40000000, whose first
    word holds user data. *)
Definition sample_mem : gmap Z Z := list_to_map
  [(4096, 8192 + 1); (8192, 12288 + 1); (12288, 16384 + 1); (16384, 20480 + 1);
   (20480 + 8 * 7, 36864 + 1); (20480 + 8 * 8, 40960 + 1); (20480, 0);
   (16384 + 8, 2 ^ 30 + 128 + 1); (2 ^ 30, 12345 * 4096 + 1); (4096 + 8, 0)].

Definition sample_user : gmap Z Z := list_to_map
  [(100000, 28672 + 16); (100008, 32768 + 24); (200000, 1); (200008, 2); (300000, 2)].

Definition sample_ps : pstate := Mk_pstate 4096 sample_mem sample_user [].

Lemma sample_mapped : mapped_4k sample_mem 4096 28688.
Proof.
  exists 8193, 12289, 16385, 20481, 36865. repeat split; vm_compute; reflexivity.
Defined.

Lemma address_transform_mmu_witness :
  wp (ADDRESS_TRANSFORM 28688)
    (fun pa s' => mmu_translate sample_mem 4096 28688 = Some pa /\
                  pa mod 4096 = 28688 mod 4096 /\ same_memory sample_ps s') sample_ps.
Proof. exact (address_transform_mmu sample_ps 28688 sample_mapped). Defined.

Lemma address_transform_same_page_witness :
  match ADDRESS_TRANSFORM 28688 sample_ps, ADDRESS_TRANSFORM 28700 sample_ps with
  | Ret p _, Ret p' _ => (p = 0 /\ p' = 0) \/ p' - p = 28700 - 28688
  | Stuck _, Stuck _ => walk sample_mem 4096 28688 = None
  | _, _ => False
  end.
Proof. exact (address_transform_same_page sample_ps 28688 28700 eq_refl). Defined.

Lemma my_get_physical_addresses_spec_witness :
  wp (my_get_physical_addresses 8192 (-8) 100000 2 200000 300000)
    (fun r s' => r = 0 /\ user_array (ps_user s') 200000 [36880; 40984] /\
                 outside 200000 2 (ps_user sample_ps) (ps_user s') /\
                 ps_mem s' = ps_mem sample_ps) sample_ps.
Proof.
  refine (my_get_physical_addresses_spec sample_ps 8192 (-8) 100000 200000 300000
    [28688; 32792] [found 36865; found 40961] _ _ _ _ _).
  - vm_compute. congruence.
  - reflexivity.
  - intros [|[|i]] v Hv; [injection Hv as <-; reflexivity .. | by destruct i].
  - intros [|[|i]] Hi; [eexists; reflexivity .. | cbn in Hi; lia].
  - repeat constructor.
Defined.

Lemma my_get_physical_addresses_no_error_witness :
  wp (my_get_physical_addresses 8192 (-8) 7 3 9 300000)
    (fun r s' => r = 0 /\ ps_user s' = ps_user sample_ps) sample_ps.
Proof.
  refine (my_get_physical_addresses_no_error sample_ps 8192 (-8) 7 9 300000 3 no_entry _ _ _ _ _ _);
    [lia | lia | reflexivity ..].
Defined.

(** The walk has no test for a huge page: for an address in one, it takes
    the first words of the page for page-table entries and returns an address
    made from the user's data, not the one the hardware uses. *)
Theorem huge_page_mistranslated :
  mmu_translate sample_mem 4096 2097152 = Some (2 ^ 30) /\
  wp (ADDRESS_TRANSFORM 2097152) (fun pa _ => pa = 12345 * 4096) sample_ps.
Proof. split; vm_compute; reflexivity. Qed.
