(* ===== verification/ForkExtern.v ===== *)
(** What process creation (fork.c) takes from outside the repository: the
    CLONE flags of include/uapi/linux/sched.h, and the calls into other
    subsystems.

    A call that acquires a resource for the new task is given by its result,
    a function of the machine, so that every pattern of failures is covered;
    on success the tokens of the call are held for the task until they are
    released.  [ForkExternOK] states what the filesystem code documents about
    sharing and copying [fs_struct] and [files_struct]. *)
From S2P Require Import Prelude Headers Proc Kernel Extern.

Class ForkHeaders := {
  CSIGNAL : Z; CLONE_VM : Z; CLONE_FS : Z; CLONE_FILES : Z; CLONE_SIGHAND : Z; CLONE_PIDFD : Z;
  CLONE_PTRACE : Z; CLONE_VFORK : Z; CLONE_PARENT : Z; CLONE_THREAD : Z; CLONE_NEWNS : Z;
  CLONE_SYSVSEM : Z; CLONE_SETTLS : Z; CLONE_PARENT_SETTID : Z; CLONE_CHILD_CLEARTID : Z;
  CLONE_DETACHED : Z; CLONE_UNTRACED : Z; CLONE_CHILD_SETTID : Z; CLONE_NEWCGROUP : Z;
  CLONE_NEWUTS : Z; CLONE_NEWIPC : Z; CLONE_NEWUSER : Z; CLONE_NEWPID : Z; CLONE_NEWNET : Z;
  CLONE_IO : Z; CLONE_CLEAR_SIGHAND : Z; CLONE_INTO_CGROUP : Z; CLONE_NEWTIME : Z;
  CLONE_LEGACY_FLAGS : Z;
  CLONE_ARGS_SIZE_VER0 : Z; CLONE_ARGS_SIZE_VER2 : Z;
  MAX_PID_NS_LEVEL : Z; SIGCHLD : Z; valid_signal : Z -> bool;
  PTRACE_EVENT_FORK : Z; PTRACE_EVENT_VFORK : Z; PTRACE_EVENT_CLONE : Z; PTRACE_EVENT_VFORK_DONE : Z;
  NUMA_NO_NODE : Z;
  init_struct_pid : Z;
}.

Class ForkHeadersOK (FH : ForkHeaders) : Prop := {
  csignal_val : CSIGNAL = 0xff;
  clone_flags_val :
    [CLONE_VM; CLONE_FS; CLONE_FILES; CLONE_SIGHAND; CLONE_PIDFD; CLONE_PTRACE; CLONE_VFORK; CLONE_PARENT;
     CLONE_THREAD; CLONE_NEWNS; CLONE_SYSVSEM; CLONE_SETTLS; CLONE_PARENT_SETTID; CLONE_CHILD_CLEARTID;
     CLONE_DETACHED; CLONE_UNTRACED; CLONE_CHILD_SETTID; CLONE_NEWCGROUP; CLONE_NEWUTS; CLONE_NEWIPC;
     CLONE_NEWUSER; CLONE_NEWPID; CLONE_NEWNET; CLONE_IO; CLONE_CLEAR_SIGHAND; CLONE_INTO_CGROUP]
    = (fun i => 2 ^ Z.of_nat i) <$> seq 8 26;
  clone_newtime_val : CLONE_NEWTIME = 0x80;
  clone_legacy_val : CLONE_LEGACY_FLAGS = 0xffffffff;
  clone_args_sizes : [CLONE_ARGS_SIZE_VER0; CLONE_ARGS_SIZE_VER2] = [64; 88];
  sigchld_val : SIGCHLD = 17;
  max_pid_ns_level_val : MAX_PID_NS_LEVEL = 32;
  valid_signal_val : forall s, valid_signal s = (s <=? 64);
}.

Definition linux_fork_headers : ForkHeaders := {|
  CSIGNAL := 0xff; CLONE_VM := 0x100; CLONE_FS := 0x200; CLONE_FILES := 0x400; CLONE_SIGHAND := 0x800;
  CLONE_PIDFD := 0x1000; CLONE_PTRACE := 0x2000; CLONE_VFORK := 0x4000; CLONE_PARENT := 0x8000;
  CLONE_THREAD := 0x10000; CLONE_NEWNS := 0x20000; CLONE_SYSVSEM := 0x40000; CLONE_SETTLS := 0x80000;
  CLONE_PARENT_SETTID := 0x100000; CLONE_CHILD_CLEARTID := 0x200000; CLONE_DETACHED := 0x400000;
  CLONE_UNTRACED := 0x800000; CLONE_CHILD_SETTID := 0x1000000; CLONE_NEWCGROUP := 0x2000000;
  CLONE_NEWUTS := 0x4000000; CLONE_NEWIPC := 0x8000000; CLONE_NEWUSER := 0x10000000;
  CLONE_NEWPID := 0x20000000; CLONE_NEWNET := 0x40000000; CLONE_IO := 0x80000000;
  CLONE_CLEAR_SIGHAND := 0x100000000; CLONE_INTO_CGROUP := 0x200000000; CLONE_NEWTIME := 0x80;
  CLONE_LEGACY_FLAGS := 0xffffffff; CLONE_ARGS_SIZE_VER0 := 64; CLONE_ARGS_SIZE_VER2 := 88;
  MAX_PID_NS_LEVEL := 32; SIGCHLD := 17; valid_signal s := s <=? 64;
  PTRACE_EVENT_FORK := 1; PTRACE_EVENT_VFORK := 2; PTRACE_EVENT_CLONE := 3; PTRACE_EVENT_VFORK_DONE := 5;
  NUMA_NO_NODE := -1; init_struct_pid := 7;
|}.

#[export] Instance linux_fork_headers_ok : ForkHeadersOK linux_fork_headers.
Proof. split; try reflexivity. Qed.

(** * Calls *)

(** Calls that acquire something for the new task, or fail. *)
Inductive fork_call : Type :=
| alloc_thread_stack_node | memcg_charge_kernel_stack | scs_prepare | copy_creds | set_kthread_struct
| mpol_dup | perf_event_init_task | audit_alloc | security_task_alloc | copy_semundo | copy_namespaces
| copy_thread (clone_flags stack stack_size tls : Z) | alloc_pid (set_tid set_tid_size : Z)
| get_unused_fd_flags | anon_inode_getfile | put_user_pidfd (pidfd : Z) | cgroup_can_fork (clone_flags cgroup : Z)
| mm_alloc_pgd | init_new_context | dup_mmap | try_module_get.

(** The tokens a call acquires; copy_creds() also counts the process of the
    user.  Objects of the address space go with its [mm_struct]. *)
Definition tokens_of (c : fork_call) : list token :=
  match c with
  | alloc_thread_stack_node => [T_stack] | scs_prepare => [T_scs]
  | copy_creds => [T_nproc; T_creds] | set_kthread_struct => [T_kthread]
  | mpol_dup => [T_mempolicy] | perf_event_init_task => [T_perf] | audit_alloc => [T_audit]
  | security_task_alloc => [T_security] | copy_semundo => [T_semundo]
  | copy_namespaces => [T_namespaces] | copy_thread _ _ _ _ => [T_thread] | alloc_pid _ _ => [T_pid]
  | get_unused_fd_flags => [T_pidfd] | anon_inode_getfile => [T_pidfile]
  | cgroup_can_fork _ _ => [T_cgroup]
  | memcg_charge_kernel_stack | put_user_pidfd _ | mm_alloc_pgd | init_new_context | dup_mmap
  | try_module_get => []
  end.

(** Questions asked of other subsystems. *)
Inductive fork_query : Type :=
| task_sigpending | fatal_signal_pending | nproc_overlimit (p : Z) | nproc_exempt (p : Z)
| other_pid_ns | other_time_ns | pid_ns_adding (pid : Z) | is_child_reaper (pid : Z)
| task_no_new_privs | ptrace_event_enabled (trace : Z).

Class ForkExtern := {
  fork_result : fork_call -> Z -> machine -> cres Z;
  fork_ask : fork_query -> machine -> bool;
  (** the slab caches: NULL or the address of a new object *)
  kmem_alloc : string -> machine -> Z;
  (** copy_io(): the io_context the new task gets, or NULL *)
  copy_io_result : Z -> Z -> machine -> cres Z;
  pid_nr : Z -> Z;
  task_pgrp : Z -> Z; task_session : Z -> Z;
  (** deadline.c: __dl_clear_params() *)
  dl_clear_params : sched_dl_entity -> sched_dl_entity;
  (** the task group of kargs->cset, and autogroup_task_group() *)
  cset_task_group : machine -> Z;
  autogroup_task_group : Z -> Z -> Z;
  dup_user_cpus_alloc : machine -> bool;
  (** fs/fs_struct.c, fs/file.c *)
  copy_fs_struct : Z -> K Z;
  exit_fs : Z -> K unit;
  dup_fd : Z -> K (cres Z);
  exit_files : Z -> K unit;
}.

Section Tokens.
Context {F : ForkExtern}.

Definition hold (l : list token) (p : Z) : K unit :=
  modify (fun m => m <| m_fork := (m_fork m) <| fk_held := ((fun t => (t, p)) <$> l) ++ fk_held (m_fork m) |> |>).

Definition release (t : token) (p : Z) : K unit :=
  modify (fun m => m <| m_fork := (m_fork m) <| fk_held := remove_token t p (fk_held (m_fork m)) |> |>).

(** A call for task [p]. *)
Definition call (c : fork_call) (p : Z) : K (cres Z) :=
  r ← gets (fork_result c p);
  match r with
  | Ok v => hold (tokens_of c) p ;; mret (Ok v)
  | Err e => mret (Err e)
  end.

Definition ask (q : fork_query) : K bool := gets (fork_ask q).
End Tokens.

(** Drop one reference to an object. *)
Definition put_fs (a : Z) (x : fs_struct) (m : gmap Z fs_struct) : gmap Z fs_struct :=
  if fs_users x =? 1 then delete a m else <[a := x <| fs_users := fs_users x - 1 |>]> m.
Definition put_files (a : Z) (x : files_struct) (m : gmap Z files_struct) : gmap Z files_struct :=
  if files_count x =? 1 then delete a m else <[a := x <| files_count := files_count x - 1 |>]> m.

(** An address that is no object of the machine. *)
Definition unused (a : Z) (m : machine) : Prop :=
  a <> NULL /\ m_tasks m !! a = None /\ m_mms m !! a = None /\ fk_fs (m_fork m) !! a = None /\
  fk_files (m_fork m) !! a = None /\ fk_sighand (m_fork m) !! a = None /\ fk_signal (m_fork m) !! a = None.

Class ForkExternOK (F : ForkExtern) : Prop := {
  kmem_alloc_ok n m : kmem_alloc n m = NULL \/ unused (kmem_alloc n m) m;
  copy_fs_struct_ok a m : exists b,
    (b = NULL /\ copy_fs_struct a m = Ret NULL m) \/
    (unused b m /\
     copy_fs_struct a m = Ret b (set_store (<[b := Mk_fs 1 false]> (fk_fs (m_fork m))) m));
  dup_fd_ok a m :
    (exists e, dup_fd a m = Ret (Err e) m) \/
    (exists b, unused b m /\
     dup_fd a m = Ret (Ok b) (set_store (<[b := Mk_files 1]> (fk_files (m_fork m))) m));
  exit_fs_ok p t x m :
    m_tasks m !! p = Some t -> fk_fs (m_fork m) !! pi_fs (ts_proc t) = Some x ->
    exit_fs p m = Ret tt (set_store (<[p := t <| ts_proc := (ts_proc t) <| pi_fs := NULL |> |>]> (m_tasks m))
                     (set_store (put_fs (pi_fs (ts_proc t)) x (fk_fs (m_fork m))) m));
  exit_files_ok p t x m :
    m_tasks m !! p = Some t -> pi_files (ts_proc t) <> NULL -> fk_files (m_fork m) !! pi_files (ts_proc t) = Some x ->
    exit_files p m = Ret tt (set_store (<[p := t <| ts_proc := (ts_proc t) <| pi_files := NULL |> |>]> (m_tasks m))
                        (set_store (put_files (pi_files (ts_proc t)) x (fk_files (m_fork m))) m));
  exit_files_null p t m :
    m_tasks m !! p = Some t -> pi_files (ts_proc t) = NULL -> exit_files p m = Ret tt m;
  dl_clear_params_flags d : dl_flags (dl_clear_params d) = 0;
}.

(** alloc_pid() never returns the boot task's pid, and a class can set up a new
    task whose CPU has a run queue. *)
Class ForkSafe (X : Extern) (FH : ForkHeaders) (F : ForkExtern) : Prop := {
  alloc_pid_fresh st n p m v : fork_result (alloc_pid st n) p m = Ok v -> v <> init_struct_pid;
  task_fork_returns c p t m : m_tasks m !! p = Some t -> is_Some (m_rqs m !! ts_cpu t) ->
    returns (cl_task_fork c p) m;
}.

(** * An instance

    Every call succeeds but for [fatal], which tells whether a fatal signal is
    pending; new objects get the address after the largest one in use. *)
Module DemoFork.
Definition max_key {A} (m : gmap Z A) : Z := fold_right Z.max 0 (map_to_list m).*1.

Lemma max_key_fresh {A} (m : gmap Z A) a : max_key m < a -> m !! a = None.
Proof.
  intros Ha. apply eq_None_not_Some. intros [x Hx]. apply elem_of_map_to_list in Hx.
  unfold max_key in Ha. assert (Hle : a <= fold_right Z.max 0 (map_to_list m).*1); [|lia].
  clear Ha. induction (map_to_list m) as [|[k y] l IH]; [by apply not_elem_of_nil in Hx|].
  cbn. apply elem_of_cons in Hx as [[= <- <-]|Hx]; [lia|]. specialize (IH Hx). lia.
Qed.

Lemma max_key_nonneg {A} (m : gmap Z A) : 0 <= max_key m.
Proof. unfold max_key. induction (map_to_list m).*1; cbn; lia. Qed.

Definition new_addr (m : machine) : Z :=
  1 + fold_right Z.max 0 [max_key (m_tasks m); max_key (m_mms m); max_key (fk_fs (m_fork m));
    max_key (fk_files (m_fork m)); max_key (fk_sighand (m_fork m)); max_key (fk_signal (m_fork m))].

Lemma new_addr_unused m : unused (new_addr m) m.
Proof.
  unfold new_addr. cbn. pose proof (max_key_nonneg (m_tasks m)). unfold unused, NULL.
  split_and!; [lia | apply max_key_fresh; lia ..].
Qed.

Definition drop_task_fs (p : Z) : K unit :=
  x ← p ⇝ ts_proc;
  f ← deref (R := fs_struct) (pi_fs x);
  modify (fun m => set_store (put_fs (pi_fs x) f (fk_fs (m_fork m))) m) ;;
  upd! p ⇝ ts_proc := fun y => y <| pi_fs := NULL |>.

Definition drop_task_files (p : Z) : K unit :=
  x ← p ⇝ ts_proc;
  if pi_files x =? NULL then mret tt
  else
    f ← deref (R := files_struct) (pi_files x);
    modify (fun m => set_store (put_files (pi_files x) f (fk_files (m_fork m))) m) ;;
    upd! p ⇝ ts_proc := fun y => y <| pi_files := NULL |>.

Definition fork_extern (fatal : bool) : ForkExtern := {|
  fork_result c _ _ := Ok (match c with alloc_pid _ _ => 300 | get_unused_fd_flags => 3 | _ => 0 end);
  fork_ask q _ := match q with fatal_signal_pending => fatal | pid_ns_adding _ => true | _ => false end;
  kmem_alloc _ m := new_addr m;
  copy_io_result _ _ _ := Ok NULL;
  pid_nr pid := pid; task_pgrp _ := NULL; task_session _ := NULL;
  dl_clear_params _ := dl0;
  cset_task_group := m_root_task_group; autogroup_task_group _ tg := tg; dup_user_cpus_alloc _ := true;
  copy_fs_struct _ := fun m => Ret (new_addr m) (set_store (<[new_addr m := Mk_fs 1 false]> (fk_fs (m_fork m))) m);
  exit_fs := drop_task_fs;
  dup_fd _ := fun m => Ret (Ok (new_addr m)) (set_store (<[new_addr m := Mk_files 1]> (fk_files (m_fork m))) m);
  exit_files := drop_task_files;
|}.

#[export] Instance fork_extern_ok fatal : ForkExternOK (fork_extern fatal).
Proof.
  split; cbn.
  - intros _ m. right. apply new_addr_unused.
  - intros _ m. exists (new_addr m). right. split; [apply new_addr_unused | done].
  - intros _ m. right. exists (new_addr m). split; [apply new_addr_unused | done].
  - intros p t x m Ht Hx. unfold drop_task_fs. apply wp_eq. by kgo.
  - intros p t x m Ht Hn Hx. unfold drop_task_files. apply wp_eq. kgo.
    replace (pi_files (ts_proc t) =? NULL) with false by (unfold NULL in *; lia). by kgo.
  - intros p t m Ht E. unfold drop_task_files. apply wp_eq. kgo. rewrite E. by kgo.
  - done.
Qed.

#[export] Instance fork_safe {H : Headers} fatal : ForkSafe Demo.extern linux_fork_headers (fork_extern fatal).
Proof. split; cbn; [congruence | done]. Qed.
End DemoFork.

#[export] Existing Instance DemoFork.fork_extern_ok.
#[export] Existing Instance DemoFork.fork_safe.
