(* ===== verification/SchedFork.v ===== *)
(** The scheduler's part of creating a task (core.c): __sched_fork(),
    sched_fork(), sched_cgroup_fork() and sched_post_fork(). *)
From S2P Require Import Prelude Headers Proc Kernel Extern Uclamp Prio ForkExtern.

Section SchedFork.
Context {H : Headers} {X : Extern} {F : ForkExtern}.

(** Timers, statistics and list nodes of the entities are not modelled. *)
Definition __sched_fork (clone_flags p : Z) : K unit :=
  set! p ⇝ ts_on_rq := 0 ;;
  upd! p ⇝ ts_se := (fun s => s <| se_on_rq := 0 |> <| se_exec_start := 0 |> <| se_sum_exec_runtime := 0 |>
    <| se_prev_sum_exec_runtime := 0 |> <| se_nr_migrations := 0 |> <| se_vruntime := 0 |>) ;;
  upd! p ⇝ ts_dl := dl_clear_params ;;
  set! p ⇝ ts_rt_timeout := 0 ;;
  emit "init_numa_balancing" [clone_flags; p] ;;
  set! p ⇝ ts_migration_pending := NULL.

(** The task falls back to the default policy and nice value. *)
Definition sched_fork_reset (p : Z) : K unit :=
  t ← deref (R := task_struct) p;
  (if (task_has_dl_policy t || task_has_rt_policy t)%bool then
     set! p ⇝ ts_policy := SCHED_NORMAL ;;
     set! p ⇝ ts_static_prio := NICE_TO_PRIO 0 ;;
     set! p ⇝ ts_rt_priority := 0
   else when (PRIO_TO_NICE (ts_static_prio t) <? 0)
     (set! p ⇝ ts_static_prio := NICE_TO_PRIO 0)) ;;
  s ← p ⇝ ts_static_prio;
  set! p ⇝ ts_normal_prio := s ;;
  set! p ⇝ ts_prio := s ;;
  set_load_weight p false ;;
  set! p ⇝ ts_sched_reset_on_fork := false.

Definition sched_fork (clone_flags p : Z) : K (cres unit) :=
  __sched_fork clone_flags p ;;
  set! p ⇝ ts_state := TASK_NEW ;;
  current ← gets m_current;
  np ← current ⇝ ts_normal_prio;
  set! p ⇝ ts_prio := np ;;
  uclamp_fork p ;;
  rof ← p ⇝ ts_sched_reset_on_fork;
  when rof (sched_fork_reset p) ;;
  prio ← p ⇝ ts_prio;
  if dl_prio prio then mret (Err EAGAIN)
  else
    set! p ⇝ ts_class := (if rt_prio prio then rt_sched_class else fair_sched_class) ;;
    emit "init_entity_runnable_average" [p] ;;
    set! p ⇝ ts_on_cpu := 0 ;;
    emit "init_task_preempt_count" [p] ;;
    mret (Ok tt).

Definition sched_cgroup_fork (p : Z) : K unit :=
  tg ← gets cset_task_group;
  set! p ⇝ ts_task_group := autogroup_task_group p tg ;;
  emit "rseq_migrate" [p] ;;
  cpu ← gets m_this_cpu;
  upd_obj p (task_set_cpu cpu) ;;
  c ← p ⇝ ts_class;
  when (has_task_fork c) (cl_task_fork c p).

Definition sched_post_fork (p : Z) : K unit := uclamp_post_fork p.
End SchedFork.

(** * What a new task starts with *)
Section Spec.
Context {H : Headers} {HOK : HeadersOK H} {X : Extern} {F : ForkExtern}.

(** With SCHED_RESET_ON_FORK a real-time or deadline task becomes a normal task
    of nice 0, and a negative nice value is dropped. *)
Definition is_rtdl (t : task_struct) : bool := (task_has_dl_policy t || task_has_rt_policy t)%bool.
Definition fork_policy (t : task_struct) : Z :=
  if (ts_sched_reset_on_fork t && is_rtdl t)%bool then SCHED_NORMAL else ts_policy t.
Definition fork_rt_priority (t : task_struct) : Z :=
  if (ts_sched_reset_on_fork t && is_rtdl t)%bool then 0 else ts_rt_priority t.
Definition fork_static_prio (t : task_struct) : Z :=
  if ts_sched_reset_on_fork t then if is_rtdl t then 120 else Z.max 120 (ts_static_prio t)
  else ts_static_prio t.

(** [tc] is the forking task: its normal priority, not its boosted one, counts. *)
Definition fork_prio (t tc : task_struct) : Z :=
  if ts_sched_reset_on_fork t then fork_static_prio t else ts_normal_prio tc.
Definition fork_normal_prio (t : task_struct) : Z :=
  if ts_sched_reset_on_fork t then fork_static_prio t else ts_normal_prio t.

(** What sched_fork() makes of the new task [t]. *)
Record sched_forked (t tc t' : task_struct) : Prop := Mk_sched_forked {
  sf_state : ts_state t' = TASK_NEW;
  sf_on_rq : ts_on_rq t' = 0;
  sf_prio : ts_prio t' = fork_prio t tc;
  sf_static : ts_static_prio t' = fork_static_prio t;
  sf_normal : ts_normal_prio t' = fork_normal_prio t;
  sf_rt : ts_rt_priority t' = fork_rt_priority t;
  sf_policy : ts_policy t' = fork_policy t;
  sf_reset : ts_sched_reset_on_fork t' = false;
  sf_vruntime : se_vruntime (ts_se t') = 0;
  sf_clamps : forall id, uc_active (pc_get id (ts_uclamp t')) = false;
  sf_fixed : ts_my_fixed_priority t' = ts_my_fixed_priority t;
  sf_proc : ts_proc t' = ts_proc t;
  sf_pid : ts_pid t' = ts_pid t;
  sf_mm : ts_mm t' = ts_mm t;
  sf_flags : ts_flags t' = ts_flags t;
}.

Lemma table_get_ok {S} (tbl : list Z) i (Q : Z -> S -> Prop) (s : S) :
  0 <= i < Z.of_nat (length tbl) -> (forall v, Q v s) -> wp (table_get tbl i) Q s.
Proof.
  intros Hi HQ. unfold table_get. replace (i <? 0) with false by lia.
  destruct (lookup_lt_is_Some_2 tbl (Z.to_nat i)) as [v ->]; [lia | apply HQ].
Qed.

(** The weight of a task with a valid nice value can be looked up; only the
    scheduling entity changes. *)
Lemma wp_focus_weight p t l Q m :
  100 <= ts_static_prio t < 140 ->
  (forall s, se_vruntime s = se_vruntime (ts_se t) -> Q tt (focus p (t <| ts_se := s |>) l m)) ->
  wp (set_load_weight p false) Q (focus p t l m).
Proof.
  intros Hp HQ. unfold set_load_weight. do 3 fstep. destruct (task_has_idle_policy t).
  - fstep. by apply HQ.
  - cbn [andb]. rewrite MAX_RT_PRIO_val. fstep. apply table_get_ok; [cbn; lia|]. intros w.
    fstep. apply table_get_ok; [cbn; lia|]. intros iw. fstep. by apply HQ.
Qed.

(** What uclamp_fork() does to the task in focus: no clamp is accounted. *)
Lemma wp_focus_uclamp_fork p t l (Q : unit -> machine -> Prop) m :
  (forall u r, (forall id, uc_active (pc_get id u) = false) ->
     Q tt (focus p (t <| ts_uclamp := u |> <| ts_uclamp_req := r |>) l m)) ->
  wp (uclamp_fork p) Q (focus p t l m).
Proof.
  intros HQ. unfold uclamp_fork, for_each_clamp_id, upd_uclamp, upd_uclamp_req. cbn [mapM_].
  repeat fstep. destruct (negb _); repeat fstep.
  - assert (HQ1 := HQ (PerClamp ((pc_min (ts_uclamp t)) <| uc_active := false |>)
      ((pc_max (ts_uclamp t)) <| uc_active := false |>)) (ts_uclamp_req t)).
    destruct t. apply HQ1. by intros [].
  - apply (HQ (PerClamp ((pc_min (ts_uclamp t)) <| uc_active := false |>)
      ((pc_max (ts_uclamp t)) <| uc_active := false |>)) _). by intros [].
Qed.

(** The reset branch. *)
Lemma wp_focus_reset p t l (Q : unit -> machine -> Prop) m :
  100 <= ts_static_prio t < 140 -> ts_sched_reset_on_fork t = true ->
  (forall s, se_vruntime s = se_vruntime (ts_se t) ->
    Q tt (focus p (t <| ts_policy := fork_policy t |> <| ts_static_prio := fork_static_prio t |>
      <| ts_rt_priority := fork_rt_priority t |> <| ts_normal_prio := fork_static_prio t |>
      <| ts_prio := fork_static_prio t |> <| ts_se := s |> <| ts_sched_reset_on_fork := false |>) l m)) ->
  wp (sched_fork_reset p) Q (focus p t l m).
Proof.
  intros Hp Hr HQ. unfold sched_fork_reset. fstep. fstep. fstep.
  unfold fork_policy, fork_static_prio, fork_rt_priority in HQ. rewrite Hr in HQ.
  change (task_has_dl_policy t || task_has_rt_policy t)%bool with (is_rtdl t).
  destruct (is_rtdl t).
  - repeat fstep. rewrite NICE_TO_PRIO_val. apply wp_focus_weight; [cbn; lia|].
    intros s Hs. fstep. by apply HQ.
  - rewrite PRIO_TO_NICE_val. repeat fstep. destruct (ts_static_prio t - 120 <? 0) eqn:En.
    + repeat fstep. rewrite NICE_TO_PRIO_val. apply wp_focus_weight; [cbn; lia|]. intros s Hs. fstep.
      replace (Z.max 120 (ts_static_prio t)) with (0 + 120) in HQ by lia. specialize (HQ s Hs).
      by destruct t.
    + repeat fstep. apply wp_focus_weight; [cbn; lia|]. intros s Hs. fstep.
      replace (Z.max 120 (ts_static_prio t)) with (ts_static_prio t) in HQ by lia. specialize (HQ s Hs).
      by destruct t.
Qed.

(** sched_fork() sets up the new task: it is marked new and is on no run
    queue, it takes the normal, never the boosted, priority of its parent, a
    parent that asked for it gives a child without real-time policy and with
    no negative nice value, no clamp is accounted, and the class follows from
    the priority; a task that would be a deadline task is refused.  The fixed
    priority is still that of the parent.  Nothing else changes. *)
Theorem sched_fork_spec flags p t cur tc m :
  m_tasks m !! p = Some t -> m_current m = cur -> m_tasks m !! cur = Some tc -> cur <> p ->
  100 <= ts_static_prio t < 140 ->
  wp (sched_fork flags p)
    (fun r m' => exists t' l, m' = focus p t' l m /\ sched_forked t tc t' /\
       if fork_prio t tc <? 0 then r = Err EAGAIN
       else r = Ok tt /\ ts_on_cpu t' = 0 /\
         ts_class t' = if fork_prio t tc <? 100 then rt_sched_class else fair_sched_class) m.
Proof.
  intros Ht Hc Htc Hne Hp. rewrite (focus_id p t m Ht) at 1. unfold sched_fork, __sched_fork. repeat fstep.
  change (m_current (focus p _ _ m)) with (m_current m). rewrite Hc. apply (wp_focus_other cur tc); [done..|].
  repeat fstep. apply wp_focus_uclamp_fork. intros u q Hu. do 4 fstep.
  match goal with |- context [focus p ?T _ m] => set (t1 := T) end.
  change (ts_sched_reset_on_fork t1) with (ts_sched_reset_on_fork t).
  assert (Hprio : forall t2, sched_forked t tc t2 -> forall l2, wp
    (prio ← p ⇝ ts_prio;
     if dl_prio prio then mret (Err EAGAIN)
     else
       set! p ⇝ ts_class := (if rt_prio prio then rt_sched_class else fair_sched_class) ;;
       emit "init_entity_runnable_average" [p] ;;
       set! p ⇝ ts_on_cpu := 0 ;;
       emit "init_task_preempt_count" [p] ;;
       mret (Ok tt))
    (fun r m' => exists t' l, m' = focus p t' l m /\ sched_forked t tc t' /\
       if fork_prio t tc <? 0 then r = Err EAGAIN
       else r = Ok tt /\ ts_on_cpu t' = 0 /\
         ts_class t' = if fork_prio t tc <? 100 then rt_sched_class else fair_sched_class) (focus p t2 l2 m)).
  { intros t2 H2 l2. repeat fstep. rewrite (sf_prio _ _ _ H2), dl_prio_val, rt_prio_val.
    destruct (fork_prio t tc <? 0); repeat fstep; eexists _, _; (split; [reflexivity|]); [by split|].
    split; [destruct H2; by split | done]. }
  destruct (ts_sched_reset_on_fork t) eqn:Er.
  - apply wp_focus_reset; [done | done |]. intros s Hs. apply Hprio.
    split; try done; cbn; unfold fork_prio, fork_normal_prio; by rewrite Er.
  - apply Hprio. split; try done; cbn; unfold fork_prio, fork_normal_prio, fork_static_prio, fork_policy, fork_rt_priority; by rewrite Er.
Qed.
End Spec.
