(* ===== verification/Fork.v ===== *)
(** Process creation (fork.c): duplicating a task, the copy_*() helpers, and
    copy_process() with the labels of its error path.  The C function is cut at
    its comments into stages, in order; a stage that fails has run the labels
    it jumps to.

    Times, statistics, list heads and architecture state set up on the way are
    not modelled or are calls of [emit]. *)
From S2P Require Import Prelude Headers Proc Kernel Extern RqClock Uclamp Prio Mm Affinity.
From S2P Require Import ForkExtern SchedFork.

(** struct kernel_clone_args *)
Record kernel_clone_args : Type := Mk_kargs {
  ka_flags : Z;
  ka_pidfd : Z;
  ka_child_tid : Z;
  ka_parent_tid : Z;
  ka_exit_signal : Z;
  ka_stack : Z;
  ka_stack_size : Z;
  ka_tls : Z;
  ka_set_tid : Z;
  ka_set_tid_size : Z;
  ka_cgroup : Z;
  ka_io_thread : bool;
}.
#[export] Instance eta_kargs : Eta kernel_clone_args := fun x =>
  Mk_kargs (ka_flags x) (ka_pidfd x) (ka_child_tid x) (ka_parent_tid x) (ka_exit_signal x) (ka_stack x)
    (ka_stack_size x) (ka_tls x) (ka_set_tid x) (ka_set_tid_size x) (ka_cgroup x) (ka_io_thread x).

(** [try x := c goto l; k]: jump to the label [l] when [c] fails;
    [pass x := c; k]: return the error of a stage that has cleaned up. *)
Definition or_goto {A B} (c : K (cres A)) (l : errno -> K (cres B)) (k : A -> K (cres B)) : K (cres B) :=
  r ← c; match r with Ok a => k a | Err e => l e end.

Notation "'try' x := c 'goto' l ; k" := (or_goto c l (fun x => k))
  (at level 100, x name, c at level 90, l at level 90, k at level 200, right associativity,
   format "'[v' 'try'  x  :=  c  'goto'  l ;  '/' k ']'").
Notation "'pass' x := c ; k" := (or_goto c (fun e => mret (Err e)) (fun x => k))
  (at level 100, x name, c at level 90, k at level 200, right associativity,
   format "'[v' 'pass'  x  :=  c ;  '/' k ']'").

(** Both flags are set. *)
Definition both_flags (flags a b : Z) : bool := Z.land flags (Z.lor a b) =? Z.lor a b.

Section Fork.
Context {H : Headers} {X : Extern} {FH : ForkHeaders} {F : ForkExtern}.

Definition setp (p : Z) (g : proc_info -> proc_info) : K unit := upd_obj p (upd ts_proc g).
Definition proc (p : Z) : K proc_info := p ⇝ ts_proc.

(** * Tasks and their stacks *)
Definition free_thread_stack (tsk : Z) : K unit := release T_stack tsk.
Definition free_task_struct (tsk : Z) : K unit := free_obj (R := task_struct) tsk.

Definition release_task_stack (tsk : Z) : K unit :=
  s ← tsk ⇝ ts_state;
  if negb (s =? TASK_DEAD) then emit "WARN_ON" [tsk]
  else
    emit "account_kernel_stack" [tsk; -1] ;;
    free_thread_stack tsk.

Definition put_task_stack (tsk : Z) : K unit :=
  setp tsk (upd pi_stack_refcount (fun n => n - 1)) ;;
  x ← proc tsk;
  when (pi_stack_refcount x =? 0) (release_task_stack tsk).

Definition free_task (tsk : Z) : K unit :=
  set! tsk ⇝ ts_user_cpus_ptr := None ;;
  release T_scs tsk ;;
  x ← proc tsk;
  when (negb (pi_stack_refcount x =? 0)) (emit "WARN_ON_ONCE" [tsk]) ;;
  emit "rt_mutex_debug_task_free" [tsk] ;;
  emit "ftrace_graph_exit_task" [tsk] ;;
  emit "arch_release_task_struct" [tsk] ;;
  flags ← tsk ⇝ ts_flags;
  when (has_flag flags PF_KTHREAD) (release T_kthread tsk) ;;
  free_task_struct tsk.

(** The RCU callback of CONFIG_MEMCG runs free_task() after a grace period. *)
Definition delayed_free_task (tsk : Z) : K unit := free_task tsk.

(** core.c: when the copy of the mask cannot be allocated, the task has none. *)
Definition dup_user_cpus_ptr (dst src : Z) : K (cres unit) :=
  u ← src ⇝ ts_user_cpus_ptr;
  match u with
  | None => mret (Ok tt)
  | Some mask =>
      ok ← gets dup_user_cpus_alloc;
      if (ok : bool) then set! dst ⇝ ts_user_cpus_ptr := Some mask ;; mret (Ok tt)
      else set! dst ⇝ ts_user_cpus_ptr := None ;; mret (Err ENOMEM)
  end.

(** *dst = *src *)
Definition arch_dup_task_struct (dst src : Z) : K unit :=
  t ← deref (R := task_struct) src;
  modify (fun m => m <| m_tasks := <[dst := t]> (m_tasks m) |>).

Definition dup_task_struct (orig node : Z) : K Z :=
  tsk ← gets (kmem_alloc "task_struct");
  if tsk =? NULL then mret NULL
  else
    let free_tsk := free_task_struct tsk ;; mret NULL in
    let free_stack := free_thread_stack tsk ;; free_tsk in
    r ← call alloc_thread_stack_node tsk;
    match r with
    | Err _ => free_tsk
    | Ok _ =>
        r ← call memcg_charge_kernel_stack tsk;
        match r with
        | Err _ => free_stack
        | Ok _ =>
            arch_dup_task_struct tsk orig ;;
            setp tsk (fun x => x <| pi_stack_refcount := 1 |>) ;;
            r ← call scs_prepare tsk;
            match r with
            | Err _ => free_stack
            | Ok _ =>
                emit "setup_thread_stack" [tsk; orig] ;;
                clear_tsk_need_resched tsk ;;
                cp ← orig ⇝ ts_cpus_ptr;
                when (maskp_is_own cp) (set! tsk ⇝ ts_cpus_ptr := own_mask) ;;
                dup_user_cpus_ptr tsk orig ;;
                setp tsk (fun x => x <| pi_rcu_users := 2 |>) ;;
                set! tsk ⇝ ts_usage := 1 ;;
                set! tsk ⇝ ts_wake_q_next := NULL ;;
                emit "account_kernel_stack" [tsk; 1] ;;
                mret tsk
            end
        end
    end.

(** * Address spaces *)
Definition free_mm (mm : Z) : K unit := free_obj (R := mm_struct) mm.

(** The object is initialised with one user, which holds the one reference. *)
Definition mm_init (mm p : Z) : K Z :=
  set! mm ⇝ mm_users := 1 ;;
  set! mm ⇝ mm_count := 1 ;;
  r ← call mm_alloc_pgd mm;
  match r with
  | Err _ => free_mm mm ;; mret NULL
  | Ok _ =>
      r ← call init_new_context mm;
      match r with
      | Err _ => emit "mm_free_pgd" [mm] ;; free_mm mm ;; mret NULL
      | Ok _ => emit "get_user_ns" [mm] ;; mret mm
      end
  end.

Definition dup_mm (tsk oldmm : Z) : K Z :=
  mm ← gets (kmem_alloc "mm_struct");
  if mm =? NULL then mret NULL
  else
    let free_pt := emit "mm_init_owner" [mm; NULL] ;; mmput mm ;; mret NULL in
    x ← deref (R := mm_struct) oldmm;
    modify (fun m => m <| m_mms := <[mm := x]> (m_mms m) |>) ;;
    i ← mm_init mm tsk;
    if i =? NULL then mret NULL
    else
      r ← call dup_mmap mm;
      match r with
      | Err _ => free_pt
      | Ok _ =>
          r ← call try_module_get mm;
          match r with
          | Err _ => free_pt
          | Ok _ => mret mm
          end
      end.

Definition mm_clear_owner (mm p : Z) : K unit := emit "mm_clear_owner" [mm; p].

Definition copy_mm (clone_flags tsk : Z) : K (cres unit) :=
  set! tsk ⇝ ts_nivcsw := 0 ;;
  set! tsk ⇝ ts_nvcsw := 0 ;;
  set! tsk ⇝ ts_mm := NULL ;;
  set! tsk ⇝ ts_active_mm := NULL ;;
  current ← gets m_current;
  oldmm ← current ⇝ ts_mm;
  if oldmm =? NULL then mret (Ok tt)
  else
    emit "vmacache_flush" [tsk] ;;
    mm ← (if has_flag clone_flags CLONE_VM then mmget oldmm ;; mret oldmm else dup_mm tsk oldmm);
    if mm =? NULL then mret (Err ENOMEM)
    else
      set! tsk ⇝ ts_mm := mm ;;
      set! tsk ⇝ ts_active_mm := mm ;;
      mret (Ok tt).

(** * Files and signals *)
Definition copy_fs (clone_flags tsk : Z) : K (cres unit) :=
  current ← gets m_current;
  x ← proc current;
  let fs := pi_fs x in
  if has_flag clone_flags CLONE_FS then
    f ← deref (R := fs_struct) fs;
    if fs_in_exec f then mret (Err EAGAIN)
    else (upd! fs ⇝ fs_users := fun n => n + 1) ;; mret (Ok tt)
  else
    n ← copy_fs_struct fs;
    setp tsk (fun x => x <| pi_fs := n |>) ;;
    if n =? NULL then mret (Err ENOMEM) else mret (Ok tt).

Definition copy_files (clone_flags tsk : Z) : K (cres unit) :=
  current ← gets m_current;
  x ← proc current;
  let oldf := pi_files x in
  if oldf =? NULL then mret (Ok tt)
  else if has_flag clone_flags CLONE_FILES then
    (upd! oldf ⇝ files_count := fun n => n + 1) ;; mret (Ok tt)
  else
    r ← dup_fd oldf;
    match r with
    | Err e => mret (Err e)
    | Ok newf => setp tsk (fun x => x <| pi_files := newf |>) ;; mret (Ok tt)
    end.

Definition copy_sighand (clone_flags tsk : Z) : K (cres unit) :=
  if has_flag clone_flags CLONE_SIGHAND then
    current ← gets m_current;
    x ← proc current;
    (upd! (pi_sighand x) ⇝ sh_count := fun n => n + 1) ;; mret (Ok tt)
  else
    sig ← gets (kmem_alloc "sighand_cache");
    setp tsk (fun x => x <| pi_sighand := sig |>) ;;
    if sig =? NULL then mret (Err ENOMEM)
    else
      modify (fun m => set_store (<[sig := Mk_sighand 1]> (store m)) m) ;;
      emit "memcpy(sighand->action)" [sig] ;;
      when (has_flag clone_flags CLONE_CLEAR_SIGHAND) (emit "flush_signal_handlers" [tsk; 0]) ;;
      mret (Ok tt).

Definition __cleanup_sighand (sighand : Z) : K unit :=
  (upd! sighand ⇝ sh_count := fun n => n - 1) ;;
  c ← sighand ⇝ sh_count;
  when (c =? 0) (emit "signalfd_cleanup" [sighand] ;; free_obj (R := sighand_struct) sighand).

Definition posix_cpu_timers_init_group (sig : Z) : K unit := emit "posix_cputimers_group_init" [sig].

Definition copy_signal (clone_flags tsk : Z) : K (cres unit) :=
  if has_flag clone_flags CLONE_THREAD then mret (Ok tt)
  else
    sig ← gets (kmem_alloc "signal_cache");
    setp tsk (fun x => x <| pi_signal := sig |>) ;;
    if sig =? NULL then mret (Err ENOMEM)
    else
      current ← gets m_current;
      x ← proc current;
      o ← deref (R := signal_struct) (pi_signal x);
      modify (fun m => set_store
        (<[sig := Mk_signal 1 1 1 false false false (sig_oom_score_adj o) (sig_oom_score_adj_min o)
                    NULL tsk [] NULL NULL NULL]> (store m)) m) ;;
      posix_cpu_timers_init_group sig ;;
      emit "tty_audit_fork" [sig] ;;
      emit "sched_autogroup_fork" [sig] ;;
      mret (Ok tt).

Definition free_signal_struct (sig : Z) : K unit :=
  emit "taskstats_tgid_free" [sig] ;;
  emit "sched_autogroup_exit" [sig] ;;
  s ← deref (R := signal_struct) sig;
  when (negb (sig_oom_mm s =? NULL)) (mmdrop_async (sig_oom_mm s)) ;;
  free_obj (R := signal_struct) sig.

Definition put_signal_struct (sig : Z) : K unit :=
  (upd! sig ⇝ sig_sigcnt := fun n => n - 1) ;;
  c ← sig ⇝ sig_sigcnt;
  when (c =? 0) (free_signal_struct sig).

(** The reference to the filter is taken for the new task. *)
Definition copy_seccomp (p : Z) : K unit :=
  hold [T_seccomp] p ;;
  nnp ← ask task_no_new_privs;
  when nnp (emit "task_set_no_new_privs" [p]).

Definition rt_mutex_init_task (p : Z) : K unit :=
  set! p ⇝ ts_pi_top_task := NULL ;;
  set! p ⇝ ts_pi_blocked_on := NULL.

Definition copy_io (clone_flags p : Z) : K (cres unit) :=
  r ← gets (copy_io_result clone_flags p);
  match r with
  | Err e => mret (Err e)
  | Ok ctx =>
      setp p (fun x => x <| pi_io_context := ctx |>) ;;
      when (negb (ctx =? NULL)) (hold [T_io] p) ;;
      mret (Ok tt)
  end.

Definition copy_oom_score_adj (clone_flags tsk : Z) : K unit :=
  mm ← tsk ⇝ ts_mm;
  if mm =? NULL then mret tt
  else if negb (Z.land clone_flags (Z.lor CLONE_VM (Z.lor CLONE_THREAD CLONE_VFORK)) =? CLONE_VM) then mret tt
  else
    emit "set_bit(MMF_MULTIPROCESS)" [mm] ;;
    current ← gets m_current;
    c ← proc current;
    o ← deref (R := signal_struct) (pi_signal c);
    x ← proc tsk;
    upd_obj (pi_signal x) (fun s => s <| sig_oom_score_adj := sig_oom_score_adj o |>
                                      <| sig_oom_score_adj_min := sig_oom_score_adj_min o |>).

(** * copy_process(): the labels of the error path, last first *)

(** hlist_del_init(&delayed.node) *)
Definition stop_delaying : K unit :=
  current ← gets m_current;
  x ← proc current;
  upd! (pi_signal x) ⇝ sig_multiprocess := List.filter (fun t => negb (t =? current)).

Definition fork_out (e : errno) : K (cres Z) := stop_delaying ;; mret (Err e).

Section Labels.
Context (clone_flags pid p : Z).

Definition bad_fork_free (e : errno) : K (cres Z) :=
  set! p ⇝ ts_state := TASK_DEAD ;;
  put_task_stack p ;;
  delayed_free_task p ;;
  fork_out e.

Definition bad_fork_cleanup_count (e : errno) : K (cres Z) :=
  release T_nproc p ;;
  release T_creds p ;;
  bad_fork_free e.

Definition bad_fork_cleanup_delayacct (e : errno) : K (cres Z) :=
  release T_delayacct p ;;
  bad_fork_cleanup_count e.

Definition bad_fork_cleanup_policy (e : errno) : K (cres Z) :=
  emit "lockdep_free_task" [p] ;;
  release T_mempolicy p ;;
  bad_fork_cleanup_delayacct e.

Definition bad_fork_cleanup_perf (e : errno) : K (cres Z) :=
  release T_perf p ;;
  bad_fork_cleanup_policy e.

Definition bad_fork_cleanup_audit (e : errno) : K (cres Z) :=
  release T_audit p ;;
  bad_fork_cleanup_perf e.

Definition bad_fork_cleanup_security (e : errno) : K (cres Z) :=
  release T_security p ;;
  bad_fork_cleanup_audit e.

Definition bad_fork_cleanup_semundo (e : errno) : K (cres Z) :=
  release T_semundo p ;;
  bad_fork_cleanup_security e.

Definition bad_fork_cleanup_files (e : errno) : K (cres Z) :=
  exit_files p ;;
  bad_fork_cleanup_semundo e.

Definition bad_fork_cleanup_fs (e : errno) : K (cres Z) :=
  exit_fs p ;;
  bad_fork_cleanup_files e.

Definition bad_fork_cleanup_sighand (e : errno) : K (cres Z) :=
  (x ← proc p; __cleanup_sighand (pi_sighand x)) ;;
  bad_fork_cleanup_fs e.

Definition bad_fork_cleanup_signal (e : errno) : K (cres Z) :=
  when (negb (has_flag clone_flags CLONE_THREAD))
    (x ← proc p; free_signal_struct (pi_signal x)) ;;
  bad_fork_cleanup_sighand e.

Definition bad_fork_cleanup_mm (e : errno) : K (cres Z) :=
  (mm ← p ⇝ ts_mm; when (negb (mm =? NULL)) (mm_clear_owner mm p ;; mmput mm)) ;;
  bad_fork_cleanup_signal e.

Definition bad_fork_cleanup_namespaces (e : errno) : K (cres Z) :=
  release T_namespaces p ;;
  bad_fork_cleanup_mm e.

Definition bad_fork_cleanup_io (e : errno) : K (cres Z) :=
  x ← proc p;
  when (negb (pi_io_context x =? NULL)) (release T_io p) ;;
  bad_fork_cleanup_namespaces e.

Definition bad_fork_cleanup_thread (e : errno) : K (cres Z) :=
  release T_thread p ;;
  bad_fork_cleanup_io e.

Definition bad_fork_free_pid (e : errno) : K (cres Z) :=
  when (negb (pid =? init_struct_pid)) (release T_pid p) ;;
  bad_fork_cleanup_thread e.

Definition bad_fork_put_pidfd (e : errno) : K (cres Z) :=
  when (has_flag clone_flags CLONE_PIDFD)
    (release T_pidfile p ;; release T_pidfd p) ;;
  bad_fork_free_pid e.

Definition bad_fork_cancel_cgroup (e : errno) : K (cres Z) :=
  emit "sched_core_free" [p] ;;
  release T_cgroup p ;;
  bad_fork_put_pidfd e.
End Labels.

(** * copy_process(): its stages *)

(** Which flags may be combined. *)
Definition copy_process_checks (clone_flags : Z) : K (cres unit) :=
  current ← gets m_current;
  x ← proc current;
  sig ← deref (R := signal_struct) (pi_signal x);
  pidns ← ask other_pid_ns;
  timens ← ask other_time_ns;
  let f := has_flag clone_flags in
  if both_flags clone_flags CLONE_NEWNS CLONE_FS then mret (Err EINVAL)
  else if both_flags clone_flags CLONE_NEWUSER CLONE_FS then mret (Err EINVAL)
  else if (f CLONE_THREAD && negb (f CLONE_SIGHAND))%bool then mret (Err EINVAL)
  else if (f CLONE_SIGHAND && negb (f CLONE_VM))%bool then mret (Err EINVAL)
  else if (f CLONE_PARENT && sig_unkillable sig)%bool then mret (Err EINVAL)
  else if (f CLONE_THREAD && (f (Z.lor CLONE_NEWUSER CLONE_NEWPID) || pidns))%bool then mret (Err EINVAL)
  else if (f (Z.lor CLONE_THREAD CLONE_VM) && timens)%bool then mret (Err EINVAL)
  else if (f CLONE_PIDFD && f (Z.lor CLONE_DETACHED CLONE_THREAD))%bool then mret (Err EINVAL)
  else mret (Ok tt).

(** Signals sent to several processes are delayed until the fork is over. *)
Definition copy_process_signals (clone_flags : Z) : K (cres unit) :=
  current ← gets m_current;
  x ← proc current;
  when (negb (has_flag clone_flags CLONE_THREAD))
    (upd! (pi_signal x) ⇝ sig_multiprocess := cons current) ;;
  emit "recalc_sigpending" [] ;;
  b ← ask task_sigpending;
  mret (if (b : bool) then Err ERESTARTNOINTR else Ok tt).

Definition copy_process_dup (node : Z) : K (cres Z) :=
  current ← gets m_current;
  p ← dup_task_struct current node;
  mret (if p =? NULL then Err ENOMEM else Ok p).

(** io_thread, the tid pointers and the priority-inheritance state. *)
Definition copy_process_tids (args : kernel_clone_args) (p : Z) : K unit :=
  let f := has_flag (ka_flags args) in
  when (ka_io_thread args) (upd! p ⇝ ts_flags := fun x => Z.lor x PF_IO_WORKER) ;;
  set! p ⇝ ts_set_child_tid := (if f CLONE_CHILD_SETTID then ka_child_tid args else NULL) ;;
  setp p (fun x => x <| pi_clear_child_tid := if f CLONE_CHILD_CLEARTID then ka_child_tid args else NULL |>) ;;
  emit "ftrace_graph_init_task" [p] ;;
  rt_mutex_init_task p.

(** Credentials and the limits on the number of processes. *)
Definition copy_process_creds (p : Z) : K (cres Z) :=
  try _ := call copy_creds p goto bad_fork_free p;
  over ← ask (nproc_overlimit p);
  exempt ← ask (nproc_exempt p);
  if (over && negb exempt)%bool then bad_fork_cleanup_count p EAGAIN
  else
    current ← gets m_current;
    (upd! current ⇝ ts_flags := fun x => Z.ldiff x PF_NPROC_EXCEEDED) ;;
    k ← gets m_fork;
    if fk_max_threads k <=? fk_nr_threads k then bad_fork_cleanup_count p EAGAIN
    else mret (Ok 0).

(** delayacct_tsk_init() up to the scheduler setup. *)
Definition copy_process_init (p : Z) : K (cres Z) :=
  hold [T_delayacct] p ;;
  (upd! p ⇝ ts_flags := fun x => Z.lor
    (Z.ldiff x (Z.lor PF_SUPERPRIV (Z.lor PF_WQ_WORKER (Z.lor PF_IDLE PF_NO_SETAFFINITY)))) PF_FORKNOEXEC) ;;
  setp p (fun x => x <| pi_children := [] |> <| pi_vfork_done := NULL |> <| pi_io_context := NULL |>) ;;
  emit "cgroup_fork" [p] ;;
  flags ← p ⇝ ts_flags;
  try _ := (if has_flag flags PF_KTHREAD then call set_kthread_struct p else mret (Ok 0))
    goto (fun _ => bad_fork_cleanup_delayacct p EAGAIN);
  try _ := call mpol_dup p goto bad_fork_cleanup_delayacct p;
  mret (Ok 0).

(** The scheduler's setup, and the hooks of other subsystems. *)
Definition copy_process_sched (clone_flags p : Z) : K (cres Z) :=
  try _ := sched_fork clone_flags p goto bad_fork_cleanup_policy p;
  try _ := call perf_event_init_task p goto bad_fork_cleanup_policy p;
  try _ := call audit_alloc p goto bad_fork_cleanup_perf p;
  emit "shm_init_task" [p] ;;
  try _ := call security_task_alloc p goto bad_fork_cleanup_audit p;
  try _ := call copy_semundo p goto bad_fork_cleanup_security p;
  mret (Ok 0).

(** The objects that are copied or shared. *)
Definition copy_process_objects (clone_flags p : Z) : K (cres Z) :=
  try _ := copy_files clone_flags p goto bad_fork_cleanup_semundo p;
  try _ := copy_fs clone_flags p goto bad_fork_cleanup_files p;
  try _ := copy_sighand clone_flags p goto bad_fork_cleanup_fs p;
  try _ := copy_signal clone_flags p goto bad_fork_cleanup_sighand p;
  try _ := copy_mm clone_flags p goto bad_fork_cleanup_signal clone_flags p;
  mret (Ok 0).

Definition copy_process_env (args : kernel_clone_args) (p : Z) : K (cres Z) :=
  let clone_flags := ka_flags args in
  try _ := call copy_namespaces p goto bad_fork_cleanup_mm clone_flags p;
  try _ := copy_io clone_flags p goto bad_fork_cleanup_namespaces clone_flags p;
  try _ := call (copy_thread clone_flags (ka_stack args) (ka_stack_size args) (ka_tls args)) p
    goto bad_fork_cleanup_io clone_flags p;
  emit "stackleak_task_init" [p] ;;
  mret (Ok 0).

(** The pid, and the file descriptor that refers to it. *)
Definition copy_process_pid (args : kernel_clone_args) (pid p : Z) : K (cres Z) :=
  let clone_flags := ka_flags args in
  try pid := (if negb (pid =? init_struct_pid) then call (alloc_pid (ka_set_tid args) (ka_set_tid_size args)) p else mret (Ok pid))
    goto bad_fork_cleanup_thread clone_flags p;
  if has_flag clone_flags CLONE_PIDFD then
    try pidfd := call get_unused_fd_flags p goto bad_fork_free_pid clone_flags pid p;
    try _ := call anon_inode_getfile p
      goto (fun e => release T_pidfd p ;; bad_fork_free_pid clone_flags pid p e);
    emit "get_pid" [pid] ;;
    try _ := call (put_user_pidfd (ka_pidfd args)) p goto bad_fork_put_pidfd clone_flags pid p;
    mret (Ok pid)
  else mret (Ok pid).

Definition copy_process_identity (clone_flags pid p : Z) : K unit :=
  emit "futex_init_task" [p] ;;
  when (Z.land clone_flags (Z.lor CLONE_VM CLONE_VFORK) =? CLONE_VM) (emit "sas_ss_reset" [p]) ;;
  emit "user_disable_single_step" [p] ;;
  set! p ⇝ ts_pid := pid_nr pid ;;
  current ← gets m_current;
  c ← proc current;
  (if has_flag clone_flags CLONE_THREAD then
     setp p (fun x => x <| pi_group_leader := pi_group_leader c |> <| pi_tgid := pi_tgid c |>)
   else setp p (fun x => x <| pi_group_leader := p |> <| pi_tgid := pid_nr pid |>)) ;;
  setp p (fun x => x <| pi_pdeath_signal := 0 |>).

(** CLONE_PARENT re-uses the old parent. *)
Definition copy_process_parent (args : kernel_clone_args) (p : Z) : K unit :=
  let f := has_flag (ka_flags args) in
  current ← gets m_current;
  c ← proc current;
  if f (Z.lor CLONE_PARENT CLONE_THREAD) then
    setp p (fun x => x <| pi_real_parent := pi_real_parent c |> <| pi_parent_exec_id := pi_parent_exec_id c |>) ;;
    if f CLONE_THREAD then setp p (fun x => x <| pi_exit_signal := -1 |>)
    else
      l ← proc (pi_group_leader c);
      setp p (fun x => x <| pi_exit_signal := pi_exit_signal l |>)
  else
    setp p (fun x => x <| pi_real_parent := current |> <| pi_parent_exec_id := pi_self_exec_id c |>
                       <| pi_exit_signal := ka_exit_signal args |>).

Definition setfk (g : fork_state -> fork_state) : K unit := modify (fun m => m <| m_fork := g (m_fork m) |>).

(** include/linux/sched/signal.h *)
Definition thread_group_leader (x : proc_info) : bool := 0 <=? pi_exit_signal x.

(** A new group leader joins the process tree and the task list. *)
Definition publish_leader (pid p : Z) : K unit :=
  x ← proc p;
  current ← gets m_current;
  let sig := pi_signal x in
  set! sig ⇝ sig_pid_tgid := pid ;;
  set! sig ⇝ sig_pid_pgid := task_pgrp current ;;
  set! sig ⇝ sig_pid_sid := task_session current ;;
  reaper ← ask (is_child_reaper pid);
  when reaper (emit "child_reaper" [p] ;; set! sig ⇝ sig_unkillable := true) ;;
  emit "tty_kref_get" [p] ;;
  par ← proc (pi_real_parent x);
  psig ← deref (R := signal_struct) (pi_signal par);
  set! sig ⇝ sig_has_child_subreaper := (sig_has_child_subreaper psig || sig_is_child_subreaper psig)%bool ;;
  setp (pi_real_parent x) (upd pi_children (fun l => l ++ [p])) ;;
  setfk (upd fk_tasks (fun l => l ++ [p])) ;;
  emit "attach_pid(TGID, PGID, SID)" [p] ;;
  setfk (upd fk_process_counts (fun n => n + 1)).

(** A new thread joins the group of the forking task. *)
Definition publish_thread (p : Z) : K unit :=
  current ← gets m_current;
  c ← proc current;
  upd_obj (pi_signal c) (fun s => s <| sig_nr_threads := sig_nr_threads s + 1 |>
    <| sig_live := sig_live s + 1 |> <| sig_sigcnt := sig_sigcnt s + 1 |>) ;;
  emit "task_join_group_stop" [p] ;;
  emit "list_add_tail_rcu(thread_group)" [p].

(** Make the task visible, under the task-list lock. *)
Definition copy_process_publish (args : kernel_clone_args) (trace pid p : Z) : K (cres Z) :=
  let clone_flags := ka_flags args in
  try _ := call (cgroup_can_fork clone_flags (ka_cgroup args)) p goto bad_fork_put_pidfd clone_flags pid p;
  sched_cgroup_fork p ;;
  copy_process_parent args p ;;
  emit "klp_copy_process" [p] ;;
  emit "sched_core_fork" [p] ;;
  copy_seccomp p ;;
  emit "rseq_fork" [p; clone_flags] ;;
  adding ← ask (pid_ns_adding pid);
  if negb adding then bad_fork_cancel_cgroup clone_flags pid p ENOMEM
  else
    fatal ← ask fatal_signal_pending;
    if (fatal : bool) then bad_fork_cancel_cgroup clone_flags pid p EINTR
    else
      nr ← p ⇝ ts_pid;
      when (negb (nr =? 0))
        (emit "ptrace_init_task" [p; Z.lor (Z.land clone_flags CLONE_PTRACE) trace] ;;
         setp p (fun x => x <| pi_thread_pid := pid |>) ;;
         x ← proc p;
         (if thread_group_leader x then publish_leader pid p else publish_thread p) ;;
         emit "attach_pid(PID)" [p] ;;
         setfk (upd fk_nr_threads (fun n => n + 1))) ;;
      setfk (upd fk_total_forks (fun n => n + 1)) ;;
      stop_delaying ;;
      mret (Ok 0).

(** The new task starts without a fixed priority. *)
Definition copy_process_finish (clone_flags p : Z) : K (cres Z) :=
  when (has_flag clone_flags CLONE_PIDFD) (emit "fd_install" [p]) ;;
  emit "proc_fork_connector" [p] ;;
  sched_post_fork p ;;
  emit "cgroup_post_fork" [p] ;;
  emit "perf_event_fork" [p] ;;
  emit "trace_task_newtask" [p; clone_flags] ;;
  emit "uprobe_copy_process" [p; clone_flags] ;;
  copy_oom_score_adj clone_flags p ;;
  set! p ⇝ ts_my_fixed_priority := 0 ;;
  mret (Ok p).

Definition copy_process (pid trace node : Z) (args : kernel_clone_args) : K (cres Z) :=
  let clone_flags := ka_flags args in
  pass _ := copy_process_checks clone_flags;
  try _ := copy_process_signals clone_flags goto fork_out;
  try p := copy_process_dup node goto fork_out;
  copy_process_tids args p ;;
  pass _ := copy_process_creds p;
  pass _ := copy_process_init p;
  pass _ := copy_process_sched clone_flags p;
  pass _ := copy_process_objects clone_flags p;
  pass _ := copy_process_env args p;
  pass pid := copy_process_pid args pid p;
  copy_process_identity clone_flags pid p ;;
  pass _ := copy_process_publish args trace pid p;
  copy_process_finish clone_flags p.
End Fork.
