(* ===== verification/ForkProofs.v ===== *)
(** Proofs about process creation.  [forking st m] says how far the creation of
    task [p] has come: which tokens it holds, which of the shared objects it has
    copied or taken a reference to, and that the rest of the machine is as it
    was at the start, [b].  Every label of the error path takes a stage back to
    [undone]. *)
From S2P Require Import Prelude Headers Proc Kernel Extern RqClock Uclamp Prio Mm Affinity.
From S2P Require Import ForkExtern SchedFork Fork.

(** * The parts of a task that matter *)

(** What the creation of another task leaves alone in a task: all but what the
    classes own, and the flag PF_NPROC_EXCEEDED that copy_process() clears. *)
Definition task_fk (t : task_struct) : task_struct :=
  (task_quiet t) <| ts_flags := Z.ldiff (ts_flags t) PF_NPROC_EXCEEDED |>.

(** The scheduling attributes of the new task, and its place in the process
    tree. *)
Definition task_sched (t : task_struct) :=
  (ts_state t, ts_prio t, ts_static_prio t, ts_normal_prio t, ts_rt_priority t, ts_policy t, ts_class t,
   ts_sched_reset_on_fork t, ts_on_rq t).
Definition task_ident (t : task_struct) :=
  (ts_pid t, pi_tgid (ts_proc t), pi_group_leader (ts_proc t), pi_real_parent (ts_proc t),
   pi_exit_signal (ts_proc t)).
Definition task_view (t : task_struct) := (task_sched t, task_ident t).

(** What its cleanup reads. *)
Definition task_res (t : task_struct) :=
  (pi_files (ts_proc t), pi_fs (ts_proc t), pi_sighand (ts_proc t), pi_signal (ts_proc t), ts_mm t,
   pi_stack_refcount (ts_proc t), has_flag (ts_flags t) PF_KTHREAD, pi_io_context (ts_proc t)).

Definition globals_fk (m : machine) :=
  (m_this_cpu m, m_current m, m_root_task_group m, m_preempt_count m, m_tgs m, m_init_mm m,
   m_uclamp_default m, m_uclamp_used m,
   (fk_nr_threads (m_fork m), fk_max_threads (m_fork m), fk_total_forks (m_fork m),
    fk_process_counts (m_fork m), fk_tasks (m_fork m))).

(** ** Tokens *)
Fixpoint rem_tok (t : token) (l : list token) : list token :=
  match l with
  | [] => []
  | t' :: l' => if bool_decide (t = t') then l' else t' :: rem_tok t l'
  end.

Lemma rem_tok_subset x t l : x ∈ rem_tok t l -> x ∈ l.
Proof.
  induction l as [|t' l IH]; [done|]. cbn. case_bool_decide; rewrite ?elem_of_cons; [auto|].
  intros [?|?]; auto.
Qed.

Lemma rem_tok_absent t l : t ∉ l -> rem_tok t l = l.
Proof.
  induction l as [|t' l IH]; [done|]. rewrite not_elem_of_cons. intros [Hne Hl]. cbn.
  case_bool_decide; [done|]. by rewrite IH.
Qed.

Definition mine (p : Z) (l : list token) : list (token * Z) := (fun t => (t, p)) <$> l.

Lemma remove_token_absent t p l : (t, p) ∉ l -> remove_token t p l = l.
Proof.
  induction l as [|[t' p'] l IH]; [done|]. rewrite not_elem_of_cons. intros [Hne Hl]. cbn.
  rewrite IH by done. destruct (bool_decide (t = t')) eqn:E; [|done]. apply bool_decide_eq_true in E as <-.
  destruct (p =? p') eqn:Ep; [|done]. apply Z.eqb_eq in Ep as <-. done.
Qed.

Lemma remove_token_mine t p l l0 :
  (t, p) ∉ l0 -> remove_token t p (mine p l ++ l0) = mine p (rem_tok t l) ++ l0.
Proof.
  intros Hn. induction l as [|t' l IH]; cbn; [by apply remove_token_absent|].
  rewrite Z.eqb_refl, andb_true_r. destruct (bool_decide (t = t')); [done|]. cbn. f_equal. exact IH.
Qed.

(** Go on with the next machine. *)
Ltac next m Hf := clear m Hf; intros m Hf.

(** * Stages *)

(** A shared object is still the forking task's, or the new task has its own
    reference, or it has none any more. *)
Inductive rstate : Type := R_same | R_taken | R_dropped.

Record stage : Type := Stage {
  st_toks : list token;
  st_view : (Z * Z * Z * Z * Z * Z * sched_class * bool * Z) * (Z * Z * Z * Z * Z);
  st_ref : Z;                    (* references to the stack *)
  st_files : rstate;
  st_fs : rstate;
  st_sighand : rstate;
  st_signal : rstate;
  st_mm : rstate;
}.
#[export] Instance eta_stage : Eta stage := fun s =>
  Stage (st_toks s) (st_view s) (st_ref s) (st_files s) (st_fs s) (st_sighand s) (st_signal s) (st_mm s).

Section Fork.
Context {H : Headers} {X : Extern} {FH : ForkHeaders} {F : ForkExtern}.
Context {HOK : HeadersOK H} {XOK : ExternOK X} {FOK : ForkExternOK F} {FS : ForkSafe X FH F}.
Context (flags : Z) (b : machine) (cur p : Z) (ct : task_struct) (cs : signal_struct).

(** The machine at the start: the forking task and what it refers to exist and
    are counted, and [p] is the address of the new task. *)
Record fork_base : Prop := Mk_fork_base {
  fb_cur : m_current b = cur;
  fb_ct : m_tasks b !! cur = Some ct;
  fb_files : pi_files (ts_proc ct) = NULL \/
    exists x, fk_files (m_fork b) !! pi_files (ts_proc ct) = Some x /\ 1 <= files_count x;
  fb_files_null : fk_files (m_fork b) !! NULL = None;
  fb_fs : exists x, fk_fs (m_fork b) !! pi_fs (ts_proc ct) = Some x /\ 1 <= fs_users x;
  fb_sighand : exists x, fk_sighand (m_fork b) !! pi_sighand (ts_proc ct) = Some x /\ 1 <= sh_count x;
  fb_signal : fk_signal (m_fork b) !! pi_signal (ts_proc ct) = Some cs;
  fb_mm : ts_mm ct = NULL \/ exists x, m_mms b !! ts_mm ct = Some x /\ 1 <= mm_users x;
  fb_init_mm : is_Some (m_mms b !! m_init_mm b);
  fb_rq : is_Some (m_rqs b !! m_this_cpu b);
  fb_held : Forall (fun x => x.1 = T_seccomp \/ is_Some (m_tasks b !! x.2)) (fk_held (m_fork b));
  fb_p : m_tasks b !! p = None;
  fb_null : p <> NULL;
}.
Context (Hb : fork_base).

(** The new task's reference to an object, as the flags ask for it: with the flag of
    the object, the forking task's own object with one reference more; without it, a new
    object with one reference.  A task without files (or address space) gives its child
    none. *)
Definition files_taken (a : Z) (m : gmap Z files_struct) : Prop :=
  let m0 := fk_files (m_fork b) in
  if pi_files (ts_proc ct) =? NULL then a = NULL /\ m = m0
  else if has_flag flags CLONE_FILES then
    a = pi_files (ts_proc ct) /\
    exists x, m0 !! a = Some x /\ 1 <= files_count x /\ m = <[a := x <| files_count := files_count x + 1 |>]> m0
  else m0 !! a = None /\ a <> NULL /\ m = <[a := Mk_files 1]> m0.
Definition fs_taken (a : Z) (m : gmap Z fs_struct) : Prop :=
  let m0 := fk_fs (m_fork b) in
  if has_flag flags CLONE_FS then
    a = pi_fs (ts_proc ct) /\
    exists x, m0 !! a = Some x /\ 1 <= fs_users x /\ m = <[a := x <| fs_users := fs_users x + 1 |>]> m0
  else m0 !! a = None /\ m = <[a := Mk_fs 1 false]> m0.
Definition sighand_taken (a : Z) (m : gmap Z sighand_struct) : Prop :=
  let m0 := fk_sighand (m_fork b) in
  if has_flag flags CLONE_SIGHAND then
    a = pi_sighand (ts_proc ct) /\
    exists x, m0 !! a = Some x /\ 1 <= sh_count x /\ m = <[a := x <| sh_count := sh_count x + 1 |>]> m0
  else m0 !! a = None /\ m = <[a := Mk_sighand 1]> m0.
Definition signal_taken (a : Z) (m : gmap Z signal_struct) : Prop :=
  let m0 := fk_signal (m_fork b) in
  if has_flag flags CLONE_THREAD then a = pi_signal (ts_proc ct) /\ m = m0
  else exists s, m0 !! a = None /\ sig_oom_mm s = NULL /\ m = <[a := s]> m0.
Definition mm_taken (a : Z) (m : gmap Z mm_struct) : Prop :=
  let m0 := m_mms b in
  if ts_mm ct =? NULL then a = NULL /\ m = m0
  else if has_flag flags CLONE_VM then
    a = ts_mm ct /\
    exists x, m0 !! a = Some x /\ 1 <= mm_users x /\ m = <[a := x <| mm_users := mm_users x + 1 |>]> m0
  else m0 !! a = None /\ a <> NULL /\ m = <[a := Mk_mm 1 1]> m0.

(** [same]: the new task's pointer is the forking task's; [base]: the objects
    are those of the start. *)
Definition holds (r : rstate) (same base taken : Prop) : Prop :=
  match r with
  | R_same => same /\ base
  | R_taken => taken
  | R_dropped => base
  end.

Definition res_ok (st : stage) (t : task_struct) (m : machine) : Prop :=
  pi_stack_refcount (ts_proc t) = st_ref st /\
  has_flag (ts_flags t) PF_KTHREAD = has_flag (ts_flags ct) PF_KTHREAD /\
  holds (st_files st) (pi_files (ts_proc t) = pi_files (ts_proc ct))
    (fk_files (m_fork m) = fk_files (m_fork b)) (files_taken (pi_files (ts_proc t)) (fk_files (m_fork m))) /\
  holds (st_fs st) (pi_fs (ts_proc t) = pi_fs (ts_proc ct))
    (fk_fs (m_fork m) = fk_fs (m_fork b)) (fs_taken (pi_fs (ts_proc t)) (fk_fs (m_fork m))) /\
  holds (st_sighand st) (pi_sighand (ts_proc t) = pi_sighand (ts_proc ct))
    (fk_sighand (m_fork m) = fk_sighand (m_fork b))
    (sighand_taken (pi_sighand (ts_proc t)) (fk_sighand (m_fork m))) /\
  holds (st_signal st) (pi_signal (ts_proc t) = pi_signal (ts_proc ct))
    (fk_signal (m_fork m) = fk_signal (m_fork b))
    (signal_taken (pi_signal (ts_proc t)) (fk_signal (m_fork m))) /\
  holds (st_mm st) True (m_mms m = m_mms b) (mm_taken (ts_mm t) (m_mms m)) /\
  (pi_io_context (ts_proc t) = NULL -> T_io ∉ st_toks st).

Record forking (st : stage) (m : machine) : Prop := Mk_forking {
  fk_child : exists t, m_tasks m !! p = Some t /\ task_view t = st_view st /\ res_ok st t m;
  fk_others : task_fk <$> delete p (m_tasks m) = task_fk <$> m_tasks b;
  fk_rqs : rq_quiet <$> m_rqs m = rq_quiet <$> m_rqs b;
  fk_globals : globals_fk m = globals_fk b;
  fk_mine : fk_held (m_fork m) = mine p (st_toks st) ++ fk_held (m_fork b);
}.

(** The new task is gone; it still holds [toks]. *)
Record undone (toks : list token) (m : machine) : Prop := Mk_undone {
  un_tasks : task_fk <$> m_tasks m = task_fk <$> m_tasks b;
  un_rqs : rq_quiet <$> m_rqs m = rq_quiet <$> m_rqs b;
  un_globals : globals_fk m = globals_fk b;
  un_mine : fk_held (m_fork m) = mine p toks ++ fk_held (m_fork b);
  un_files : fk_files (m_fork m) = fk_files (m_fork b);
  un_fs : fk_fs (m_fork m) = fk_fs (m_fork b);
  un_sighand : fk_sighand (m_fork m) = fk_sighand (m_fork b);
  un_signal : fk_signal (m_fork m) = fk_signal (m_fork b);
  un_mms : m_mms m = m_mms b;
}.

Lemma cur_ne_p : cur <> p.
Proof. intros E. pose proof (fb_p Hb). pose proof (fb_ct Hb). congruence. Qed.

Lemma held_absent t : t <> T_seccomp -> (t, p) ∉ fk_held (m_fork b).
Proof.
  intros Ht Hin. pose proof (fb_held Hb) as Hf. rewrite Forall_forall in Hf. apply list_elem_of_In in Hin.
  destruct (Hf _ Hin) as [E|[x E]]; cbn in E; [done|]. rewrite (fb_p Hb) in E. done.
Qed.

(** ** Steps on the new task *)
Lemma res_ok_eq st t t' m : task_res t' = task_res t -> res_ok st t m -> res_ok st t' m.
Proof.
  unfold task_res, res_ok. intros Er Hr.
  assert (ts_mm t' = ts_mm t) as -> by congruence.
  assert (pi_files (ts_proc t') = pi_files (ts_proc t)) as -> by congruence.
  assert (pi_fs (ts_proc t') = pi_fs (ts_proc t)) as -> by congruence.
  assert (pi_sighand (ts_proc t') = pi_sighand (ts_proc t)) as -> by congruence.
  assert (pi_signal (ts_proc t') = pi_signal (ts_proc t)) as -> by congruence.
  assert (pi_stack_refcount (ts_proc t') = pi_stack_refcount (ts_proc t)) as -> by congruence.
  assert (pi_io_context (ts_proc t') = pi_io_context (ts_proc t)) as -> by congruence.
  assert (has_flag (ts_flags t') PF_KTHREAD = has_flag (ts_flags t) PF_KTHREAD) as -> by congruence. done.
Qed.

Lemma forking_child st m t t' :
  forking st m -> m_tasks m !! p = Some t -> task_res t' = task_res t ->
  forking (st <| st_view := task_view t' |>) (m <| m_tasks := <[p := t']> (m_tasks m) |>).
Proof.
  intros [(t1 & Ht1 & Hv & Hr) Ho Hq Hg Hm] Ht Er. assert (t1 = t) as -> by congruence. split; try done.
  - exists t'. cbn. rewrite lookup_insert_eq. split; [done|]. split; [done|]. by apply (res_ok_eq _ t).
  - cbn. by rewrite delete_insert_eq.
Qed.

(** An update of the new task, with the view it had or another. *)
Lemma wp_child_any st g Q m :
  forking st m -> (forall t, task_res (g t) = task_res t) ->
  (forall t m', task_view t = st_view st -> forking (st <| st_view := task_view (g t) |>) m' -> Q tt m') ->
  wp (upd_obj p g) Q m.
Proof.
  intros Hf Hr HQ. destruct (fk_child _ _ Hf) as (t & Ht & Hv & _). apply wp_upd_obj. exists t.
  split; [done|]. apply (HQ t); [done|]. by apply (forking_child st m t (g t)).
Qed.

Lemma wp_child st g Q m :
  forking st m -> (forall t, task_res (g t) = task_res t) -> (forall t, task_view (g t) = task_view t) ->
  (forall m', forking st m' -> Q tt m') -> wp (upd_obj p g) Q m.
Proof.
  intros Hf Hr Hv HQ. apply (wp_child_any st); [done..|]. intros t m' Ev Hf'. apply HQ.
  rewrite Hv, Ev in Hf'. by destruct st.
Qed.

Lemma forking_log st m l : forking st m -> forking st (m <| m_log := l |>).
Proof. intros [(t & ?) ? ? ? ?]. split; try done. by exists t. Qed.

Lemma wp_fk_emit st n a (Q : unit -> machine -> Prop) m :
  forking st m -> (forall m', forking st m' -> Q tt m') -> wp (emit n a) Q m.
Proof. intros Hf HQ. apply wp_emit, HQ. by apply forking_log. Qed.

(** The forking task, at any stage. *)
Lemma forking_cur st m :
  forking st m -> m_current m = cur /\ exists t, m_tasks m !! cur = Some t /\ task_fk ct = task_fk t.
Proof.
  intros Hf. split.
  - pose proof (fk_globals _ _ Hf) as Hg. unfold globals_fk in Hg. rewrite <- (fb_cur Hb). congruence.
  - pose proof (fb_ct Hb) as Hc. pose proof (eq_sym (fk_others _ _ Hf)) as Ho.
    destruct (fmap_lookup_agree task_fk _ _ cur ct Ho Hc) as (t & Ht & E). exists t.
    rewrite lookup_delete_ne in Ht by (apply not_eq_sym, cur_ne_p). done.
Qed.

Lemma task_fk_proc t t' : task_fk t = task_fk t' -> ts_proc t' = ts_proc t /\ ts_mm t' = ts_mm t.
Proof. intros E. split; symmetry; [exact (f_equal ts_proc E) | exact (f_equal ts_mm E)]. Qed.

(** ** Tokens *)
Lemma wp_fk_hold st l (Q : unit -> machine -> Prop) m :
  forking st m -> T_io ∉ l -> (forall m', forking (st <| st_toks := l ++ st_toks st |>) m' -> Q tt m') ->
  wp (hold l p) Q m.
Proof.
  intros [(t & Ht & Hv & R1 & R2 & R3 & R4 & R5 & R6 & R7 & R8) Ho Hq Hg Hm] Hio HQ.
  apply wp_modify, HQ. split; try done.
  - exists t. repeat split; try done. intros En. cbn. rewrite elem_of_app. intros [?|?]; [done | by apply R8].
  - cbn. rewrite Hm. unfold mine. by rewrite fmap_app, app_assoc.
Qed.

Lemma wp_fk_release st t (Q : unit -> machine -> Prop) m :
  forking st m -> t <> T_seccomp ->
  (forall m', forking (st <| st_toks := rem_tok t (st_toks st) |>) m' -> Q tt m') -> wp (release t p) Q m.
Proof.
  intros [(x & Ht & Hv & R1 & R2 & R3 & R4 & R5 & R6 & R7 & R8) Ho Hq Hg Hm] Hne HQ.
  apply wp_modify, HQ. split; try done.
  - exists x. repeat split; try done. intros En Hin. by apply rem_tok_subset, R8 in Hin.
  - cbn. rewrite Hm. apply remove_token_mine. by apply held_absent.
Qed.

Lemma wp_fk_call_val {B} st c (l : errno -> K (cres B)) k Q m :
  forking st m ->
  (forall e m', forking st m' -> wp (l e) Q m') ->
  (forall v m', fork_result c p m = Ok v -> forking (st <| st_toks := tokens_of c ++ st_toks st |>) m' ->
     wp (k v) Q m') ->
  wp (or_goto (call c p) l k) Q m.
Proof.
  intros Hf Hl Hk. unfold or_goto, call. apply wp_bind, wp_bind, wp_gets.
  destruct (fork_result c p m) as [v|e] eqn:Ev.
  - apply wp_bind, (wp_fk_hold st); [done | destruct c; set_solver |]. intros m' Hf'. by apply wp_ret, Hk.
  - by apply wp_ret, Hl.
Qed.

Lemma wp_fk_call {B} st c (l : errno -> K (cres B)) k Q m :
  forking st m ->
  (forall e m', forking st m' -> wp (l e) Q m') ->
  (forall v m', forking (st <| st_toks := tokens_of c ++ st_toks st |>) m' -> wp (k v) Q m') ->
  wp (or_goto (call c p) l k) Q m.
Proof. intros Hf Hl Hk. apply (wp_fk_call_val st); [done..|]. eauto. Qed.

(** Fewer claims about an object are fewer obligations. *)
Definition weaker (r r' : rstate) : Prop := r = r' \/ (r = R_same /\ r' = R_dropped).

Lemma holds_weaker r r' A B C : weaker r r' -> holds r A B C -> holds r' A B C.
Proof. intros [->|[-> ->]]; [done|]. by intros []. Qed.

Lemma forking_weaker l v n f1 f2 f3 f4 f5 g1 g2 g3 g4 g5 m :
  forking (Stage l v n f1 f2 f3 f4 f5) m ->
  weaker f1 g1 -> weaker f2 g2 -> weaker f3 g3 -> weaker f4 g4 -> weaker f5 g5 ->
  forking (Stage l v n g1 g2 g3 g4 g5) m.
Proof.
  intros [(t & Ht & Hv & Hr) Ho Hq Hg Hm] W1 W2 W3 W4 W5. split; try done. exists t.
  split; [done|]. split; [done|]. destruct Hr as (?&?&?&?&?&?&?&?).
  repeat split; try done; eapply holds_weaker; eauto.
Qed.

(** ** Dropping the references *)
Lemma put_files_back a m : files_taken a m -> a <> NULL ->
  exists x, m !! a = Some x /\ put_files a x m = fk_files (m_fork b).
Proof.
  unfold files_taken. intros Ht Ha. destruct (pi_files (ts_proc ct) =? NULL); [by destruct Ht|].
  destruct (has_flag flags CLONE_FILES); [destruct Ht as (_ & x & Hx & Hc & ->) | destruct Ht as (Hx & _ & ->)].
  - exists (x <| files_count := files_count x + 1 |>). rewrite lookup_insert_eq. split; [done|].
    unfold put_files. cbn. replace (files_count x + 1 =? 1) with false by lia.
    rewrite insert_insert_eq. apply insert_id. rewrite Hx. f_equal. destruct x. unfold upd. cbn. f_equal. lia.
  - exists (Mk_files 1). rewrite lookup_insert_eq. split; [done|]. cbn. by rewrite delete_insert_id.
Qed.

Lemma put_fs_back a m : fs_taken a m -> exists x, m !! a = Some x /\ put_fs a x m = fk_fs (m_fork b).
Proof.
  unfold fs_taken. destruct (has_flag flags CLONE_FS); [intros (_ & x & Hx & Hc & ->) | intros (Hx & ->)].
  - exists (x <| fs_users := fs_users x + 1 |>). rewrite lookup_insert_eq. split; [done|].
    unfold put_fs. cbn. replace (fs_users x + 1 =? 1) with false by lia.
    rewrite insert_insert_eq. apply insert_id. rewrite Hx. f_equal. destruct x. unfold upd. cbn. f_equal. lia.
  - exists (Mk_fs 1 false). rewrite lookup_insert_eq. split; [done|]. cbn. by rewrite delete_insert_id.
Qed.

Lemma wp_fk_exit_files st (Q : unit -> machine -> Prop) m :
  forking st m -> st_files st = R_taken ->
  (forall m', forking (st <| st_files := R_dropped |>) m' -> Q tt m') -> wp (exit_files p) Q m.
Proof.
  intros [(t & Ht & Hv & Hr) Ho Hq Hg Hm] Est HQ. destruct Hr as (R1 & R2 & R3 & R4 & R5 & R6 & R7 & R8).
  rewrite Est in R3. cbn in R3. apply wp_run.
  destruct (decide (pi_files (ts_proc t) = NULL)) as [En|En].
  - exists tt, m. split; [by apply (exit_files_null p t)|]. apply HQ. split; try done. exists t. repeat split; try done.
    unfold files_taken in R3. destruct (Z.eqb_spec (pi_files (ts_proc ct)) NULL); [apply R3|].
    destruct (has_flag flags CLONE_FILES); [destruct R3 as [E _]; congruence | by destruct R3 as (_ & ? & _)].
  - destruct (put_files_back _ _ R3 En) as (x & Hx & Hput). eexists _, _.
    split; [by apply (exit_files_ok p t x)|]. apply HQ. split; try done.
    + eexists. cbn. rewrite lookup_insert_eq. split; [done|]. split; [done|]. repeat split; done.
    + cbn. by rewrite delete_insert_eq.
Qed.

Lemma wp_fk_exit_fs st (Q : unit -> machine -> Prop) m :
  forking st m -> st_fs st = R_taken ->
  (forall m', forking (st <| st_fs := R_dropped |>) m' -> Q tt m') -> wp (exit_fs p) Q m.
Proof.
  intros [(t & Ht & Hv & Hr) Ho Hq Hg Hm] Est HQ. destruct Hr as (R1 & R2 & R3 & R4 & R5 & R6 & R7 & R8).
  rewrite Est in R4. cbn in R4. apply wp_run. destruct (put_fs_back _ _ R4) as (x & Hx & Hput). eexists _, _.
  split; [by apply (exit_fs_ok p t x)|]. apply HQ. split; try done.
  - eexists. cbn. rewrite lookup_insert_eq. split; [done|]. split; [done|]. repeat split; done.
  - cbn. by rewrite delete_insert_eq.
Qed.

Lemma wp_fk_cleanup_sighand st (Q : unit -> machine -> Prop) m :
  forking st m -> st_sighand st = R_taken ->
  (forall m', forking (st <| st_sighand := R_dropped |>) m' -> Q tt m') ->
  wp (x ← proc p; __cleanup_sighand (pi_sighand x)) Q m.
Proof.
  intros [(t & Ht & Hv & Hr) Ho Hq Hg Hm] Est HQ. destruct Hr as (R1 & R2 & R3 & R4 & R5 & R6 & R7 & R8).
  rewrite Est in R5. cbn in R5. unfold proc, __cleanup_sighand. do 2 wp_step.
  unfold sighand_taken in R5. destruct (has_flag flags CLONE_SIGHAND); [destruct R5 as (_ & x & Hx & Hc & E) | destruct R5 as (Hx & E)].
  - wp_step. apply wp_upd_obj. eexists. split; [cbn; rewrite E; apply lookup_insert_eq|]. wp_step. apply wp_rd.
    eexists. split; [cbn; apply lookup_insert_eq|]. cbn. replace (_ =? 0) with false by lia. apply wp_ret, HQ.
    split; try done. exists t. repeat split; try done. cbn. rewrite E, insert_insert_eq. apply insert_id.
    rewrite Hx. f_equal. destruct x. unfold upd. cbn. f_equal. lia.
  - wp_step. apply wp_upd_obj. eexists. split; [cbn; rewrite E; apply lookup_insert_eq|]. wp_step. apply wp_rd.
    eexists. split; [cbn; apply lookup_insert_eq|]. cbn. kgo. apply HQ.
    split; try done. exists t. repeat split; try done. cbn. rewrite E, insert_insert_eq. by rewrite delete_insert_id.
Qed.

Lemma wp_fk_free_signal st (Q : unit -> machine -> Prop) m :
  forking st m -> st_signal st = R_taken ->
  (forall m', forking (st <| st_signal := R_dropped |>) m' -> Q tt m') ->
  wp (when (negb (has_flag flags CLONE_THREAD)) (x ← proc p; free_signal_struct (pi_signal x))) Q m.
Proof.
  intros [(t & Ht & Hv & Hr) Ho Hq Hg Hm] Est HQ. destruct Hr as (R1 & R2 & R3 & R4 & R5 & R6 & R7 & R8).
  rewrite Est in R6. cbn in R6. unfold signal_taken in R6. apply wp_when.
  destruct (has_flag flags CLONE_THREAD); cbn.
  - apply HQ. split; try done. exists t. repeat split; try done. apply R6.
  - destruct R6 as (s & Hs & Hoom & E). unfold proc, free_signal_struct. kstep. kstep. do 2 kstep. do 2 kstep.
    kstep. apply wp_deref. eexists. split; [cbn; rewrite E; apply lookup_insert_eq|]. rewrite Hoom. cbn. kgo.
    apply HQ. split; try done. exists t. repeat split; try done. cbn. rewrite E. by rewrite delete_insert_id.
Qed.

(** The last user of an address space frees it. *)
Lemma wp_mmdrop_last a u t (Q : unit -> machine -> Prop) m :
  m_mms m !! a = Some (Mk_mm u 1) -> a <> m_init_mm m -> m_tasks m !! m_current m = Some t ->
  (forall l, Q tt (m <| m_mms := delete a (m_mms m) |> <| m_log := l |>)) -> wp (mmdrop a) Q m.
Proof.
  intros Ha Hi Ht HQ. unfold mmdrop, __mmdrop. kstep. apply wp_upd_obj. eexists. split; [exact Ha|].
  kstep. apply wp_rd. eexists. split; [cbn; apply lookup_insert_eq|]. kstep. const_if. do 2 kstep.
  change (m_init_mm (set_store _ m)) with (m_init_mm m). replace (a =? m_init_mm m) with false by lia.
  do 2 kstep. kstep. apply wp_deref. eexists. split; [exact Ht|].
  assert (Hfin : forall l, Q tt (m <| m_mms := delete a (<[a := Mk_mm u 0]> (m_mms m)) |> <| m_log := l |>))
    by (intros l; rewrite delete_insert_eq; apply HQ).
  kstep. kstep. destruct (a =? ts_mm t); [apply wp_emit|]; (kstep; kstep; destruct (a =? ts_active_mm t); [apply wp_emit|];
    repeat skip_emit; apply wp_free_obj, Hfin).
Qed.

Lemma wp_mmput_last a t (Q : unit -> machine -> Prop) m :
  m_mms m !! a = Some (Mk_mm 1 1) -> a <> m_init_mm m -> m_tasks m !! m_current m = Some t ->
  (forall l, Q tt (m <| m_mms := delete a (m_mms m) |> <| m_log := l |>)) -> wp (mmput a) Q m.
Proof.
  intros Ha Hi Ht HQ. unfold mmput, __mmput. kstep. apply wp_upd_obj. eexists. split; [exact Ha|].
  kstep. apply wp_rd. eexists. split; [cbn; apply lookup_insert_eq|]. kstep. const_if. kstep.
  apply wp_rd. eexists. split; [cbn; apply lookup_insert_eq|]. cbn [mm_users]. kstep. const_if.
  repeat skip_emit. apply (wp_mmdrop_last a 0 t); [cbn; apply lookup_insert_eq | done | done |].
  intros l'. specialize (HQ l'). cbn. rewrite delete_insert_eq. exact HQ.
Qed.

Lemma wp_fk_mmput st (Q : unit -> machine -> Prop) m :
  forking st m -> st_mm st = R_taken ->
  (forall m', forking (st <| st_mm := R_dropped |>) m' -> Q tt m') ->
  wp (mm ← p ⇝ ts_mm; when (negb (mm =? NULL)) (mm_clear_owner mm p ;; mmput mm)) Q m.
Proof.
  intros Hf Est HQ. destruct (forking_cur _ _ Hf) as (Ec & tc & Htc & _).
  destruct Hf as [(t & Ht & Hv & Hr) Ho Hq Hg Hm]. destruct Hr as (R1 & R2 & R3 & R4 & R5 & R6 & R7 & R8).
  rewrite Est in R7. cbn in R7. do 2 wp_step. unfold mm_taken in R7.
  destruct (Z.eqb_spec (ts_mm ct) NULL) as [Ez|Ez]; [|destruct (has_flag flags CLONE_VM)];
    [destruct R7 as [En E] | destruct R7 as (Ea & x & Hx & Hc & E); assert (Hn : ts_mm t <> NULL) by congruence
    | destruct R7 as (Hx & Hn & E)].
  - rewrite En. cbn. apply HQ. split; try done. exists t. repeat split; done.
  - replace (ts_mm t =? NULL) with false by (unfold NULL in *; lia). cbn. kstep. unfold mm_clear_owner. kstep.
    unfold mmput. kstep. apply wp_upd_obj. eexists. split; [cbn; rewrite E; apply lookup_insert_eq|]. kstep.
    apply wp_rd. eexists. split; [cbn; apply lookup_insert_eq|]. cbn. replace (_ =? 0) with false by lia.
    apply wp_ret, HQ. split; try done. exists t. repeat split; try done. cbn.
    rewrite E, insert_insert_eq. apply insert_id. rewrite Hx. f_equal. destruct x. unfold upd. cbn. f_equal. lia.
  - replace (ts_mm t =? NULL) with false by (unfold NULL in *; lia). cbn. kstep. unfold mm_clear_owner. kstep.
    apply (wp_mmput_last _ tc).
    + cbn. rewrite E. apply lookup_insert_eq.
    + cbn. unfold globals_fk in Hg. assert (m_init_mm m = m_init_mm b) as -> by congruence. intros Ei.
      destruct (fb_init_mm Hb) as [y Hy]. congruence.
    + cbn. by rewrite Ec.
    + intros l. apply HQ. split; try done. exists t. repeat split; try done. cbn. rewrite E.
      by rewrite delete_insert_id.
Qed.

(** ** Freeing the task *)
Lemma wp_child_state st x (Q : unit -> machine -> Prop) m :
  forking st m ->
  (forall v m', forking (st <| st_view := v |>) m' -> v.1.1.1.1.1.1.1.1.1 = x -> Q tt m') ->
  wp (set! p ⇝ ts_state := x) Q m.
Proof.
  intros Hf HQ. apply (wp_child_any st); [done | done |]. intros t m' _ Hf'. by eapply HQ.
Qed.

Lemma wp_fk_ref st g (Q : unit -> machine -> Prop) m :
  forking st m -> (forall m', forking (st <| st_ref := g (st_ref st) |>) m' -> Q tt m') ->
  wp (upd_obj p (upd ts_proc (upd pi_stack_refcount g))) Q m.
Proof.
  intros [(t & Ht & Hv & Hr) Ho Hq Hg Hm] HQ. apply wp_upd_obj. exists t. split; [done|]. apply HQ. split; try done.
  - eexists. cbn. rewrite lookup_insert_eq. split; [done|]. split; [done|]. destruct Hr as [Er Hr].
    split; [|exact Hr]. cbn. by rewrite Er.
  - cbn. by rewrite delete_insert_eq.
Qed.

(** Reading the new task. *)
Lemma wp_fk_read {E A} st (f : task_struct -> E) (k : E -> K A) Q m :
  forking st m -> (forall t, task_view t = st_view st -> res_ok st t m -> m_tasks m !! p = Some t -> wp (k (f t)) Q m) ->
  wp (p ⇝ f ≫= k) Q m.
Proof.
  intros Hf HQ. destruct (fk_child _ _ Hf) as (t & Ht & Hv & Hr). apply wp_bind, wp_rd. exists t. eauto.
Qed.

Lemma wp_fk_free st (Q : unit -> machine -> Prop) m :
  forking st m -> st_files st = R_dropped -> st_fs st = R_dropped -> st_sighand st = R_dropped ->
  st_signal st = R_dropped -> st_mm st = R_dropped ->
  (forall m', undone (st_toks st) m' -> Q tt m') -> wp (free_task_struct p) Q m.
Proof.
  intros [(t & Ht & Hv & R1 & R2 & R3 & R4 & R5 & R6 & R7 & R8) Ho Hq Hg Hm] E1 E2 E3 E4 E5 HQ.
  rewrite E1 in R3. rewrite E2 in R4. rewrite E3 in R5. rewrite E4 in R6. rewrite E5 in R7.
  apply wp_free_obj, HQ. by split.
Qed.

(** ** The labels *)


(** What is left of the tokens when the task is freed. *)
Definition free_toks (l : list token) : list token :=
  let l := rem_tok T_scs (rem_tok T_stack l) in
  if has_flag (ts_flags ct) PF_KTHREAD then rem_tok T_kthread l else l.

Definition drop_toks (ts l : list token) : list token := fold_left (fun l t => rem_tok t l) ts l.

Section Labels.
Context (e : errno) (Q : cres Z -> machine -> Prop).

(** The error path ends well for these tokens. *)
Definition out_ok (l : list token) : Prop := forall m, undone l m -> wp (fork_out e) Q m.

Lemma wp_bad_fork_free l v m :
  forking (Stage l v 1 R_dropped R_dropped R_dropped R_dropped R_dropped) m ->
  out_ok (free_toks l) -> wp (bad_fork_free p e) Q m.
Proof.
  intros Hf HQ. unfold bad_fork_free, put_task_stack, delayed_free_task, free_task, setp, proc.
  apply wp_bind, (wp_child_state _ _ _ _ Hf). clear m Hf. intros v1 m Hf Hs.
  apply wp_bind, wp_bind, (wp_fk_ref _ _ _ _ Hf). next m Hf.
  apply (wp_fk_read _ _ _ _ _ Hf). intros t Ev Hr _. destruct Hr as [-> _]. apply wp_when. const_if.
  unfold release_task_stack. apply (wp_fk_read _ _ _ _ _ Hf). intros t' Ev' _ _.
  assert (ts_state t' = TASK_DEAD) as -> by (rewrite <- Hs; cbn in Ev'; by rewrite <- Ev').
  apply wp_if. const_if. apply wp_bind, (wp_fk_emit _ _ _ _ _ Hf). next m Hf.
  apply (wp_fk_release _ _ _ _ Hf); [done|]. next m Hf.
  apply wp_bind, wp_bind, (wp_child _ _ _ _ Hf); [done | done |]. next m Hf.
  apply wp_bind, (wp_fk_release _ _ _ _ Hf); [done|]. next m Hf.
  apply (wp_fk_read _ _ _ _ _ Hf). intros t2 _ Hr _. destruct Hr as [-> _]. apply wp_bind, wp_when. const_if.
  do 3 (apply wp_bind, (wp_fk_emit _ _ _ _ _ Hf); next m Hf).
  apply (wp_fk_read _ _ _ _ _ Hf). intros t3 _ Hr _. destruct Hr as (_ & -> & _). unfold free_toks in HQ.
  apply wp_bind, wp_when. destruct (has_flag (ts_flags ct) PF_KTHREAD).
  - apply (wp_fk_release _ _ _ _ Hf); [done|]. next m Hf. by apply (wp_fk_free _ _ _ Hf).
  - by apply (wp_fk_free _ _ _ Hf).
Qed.

#[local] Abbreviation D := R_dropped.
#[local] Abbreviation T := R_taken.

Lemma wp_cleanup_count l v m :
  forking (Stage l v 1 D D D D D) m -> out_ok (free_toks (drop_toks [T_nproc; T_creds] l)) -> wp (bad_fork_cleanup_count p e) Q m.
Proof.
  intros Hf HQ. unfold bad_fork_cleanup_count. apply wp_bind, (wp_fk_release _ _ _ _ Hf); [done|]; next m Hf. apply wp_bind, (wp_fk_release _ _ _ _ Hf); [done|]; next m Hf.
  by apply (wp_bad_fork_free _ _ _ Hf).
Qed.

Lemma wp_cleanup_delayacct l v m :
  forking (Stage l v 1 D D D D D) m -> out_ok (free_toks (drop_toks [T_delayacct; T_nproc; T_creds] l)) -> wp (bad_fork_cleanup_delayacct p e) Q m.
Proof.
  intros Hf HQ. unfold bad_fork_cleanup_delayacct. apply wp_bind, (wp_fk_release _ _ _ _ Hf); [done|]; next m Hf.
  by apply (wp_cleanup_count _ _ _ Hf).
Qed.

Lemma wp_cleanup_policy l v m :
  forking (Stage l v 1 D D D D D) m -> out_ok (free_toks (drop_toks [T_mempolicy; T_delayacct; T_nproc; T_creds] l)) -> wp (bad_fork_cleanup_policy p e) Q m.
Proof.
  intros Hf HQ. unfold bad_fork_cleanup_policy. apply wp_bind, (wp_fk_emit _ _ _ _ _ Hf); next m Hf. apply wp_bind, (wp_fk_release _ _ _ _ Hf); [done|]; next m Hf.
  by apply (wp_cleanup_delayacct _ _ _ Hf).
Qed.

Lemma wp_cleanup_perf l v m :
  forking (Stage l v 1 D D D D D) m -> out_ok (free_toks (drop_toks [T_perf; T_mempolicy; T_delayacct; T_nproc; T_creds] l)) -> wp (bad_fork_cleanup_perf p e) Q m.
Proof.
  intros Hf HQ. unfold bad_fork_cleanup_perf. apply wp_bind, (wp_fk_release _ _ _ _ Hf); [done|]; next m Hf.
  by apply (wp_cleanup_policy _ _ _ Hf).
Qed.

Lemma wp_cleanup_audit l v m :
  forking (Stage l v 1 D D D D D) m -> out_ok (free_toks (drop_toks [T_audit; T_perf; T_mempolicy; T_delayacct; T_nproc; T_creds] l)) -> wp (bad_fork_cleanup_audit p e) Q m.
Proof.
  intros Hf HQ. unfold bad_fork_cleanup_audit. apply wp_bind, (wp_fk_release _ _ _ _ Hf); [done|]; next m Hf.
  by apply (wp_cleanup_perf _ _ _ Hf).
Qed.

Lemma wp_cleanup_security l v m :
  forking (Stage l v 1 D D D D D) m -> out_ok (free_toks (drop_toks [T_security; T_audit; T_perf; T_mempolicy; T_delayacct; T_nproc; T_creds] l)) -> wp (bad_fork_cleanup_security p e) Q m.
Proof.
  intros Hf HQ. unfold bad_fork_cleanup_security. apply wp_bind, (wp_fk_release _ _ _ _ Hf); [done|]; next m Hf.
  by apply (wp_cleanup_audit _ _ _ Hf).
Qed.

Lemma wp_cleanup_semundo l v m :
  forking (Stage l v 1 D D D D D) m -> out_ok (free_toks (drop_toks [T_semundo; T_security; T_audit; T_perf; T_mempolicy; T_delayacct; T_nproc; T_creds] l)) -> wp (bad_fork_cleanup_semundo p e) Q m.
Proof.
  intros Hf HQ. unfold bad_fork_cleanup_semundo. apply wp_bind, (wp_fk_release _ _ _ _ Hf); [done|]; next m Hf.
  by apply (wp_cleanup_security _ _ _ Hf).
Qed.

(** The tokens held when the process information is copied. *)
Definition early_toks : list token := [T_semundo; T_security; T_audit; T_perf; T_mempolicy; T_delayacct; T_nproc; T_creds].

Lemma wp_cleanup_files l v m :
  forking (Stage l v 1 T D D D D) m -> out_ok (free_toks (drop_toks early_toks l)) -> wp (bad_fork_cleanup_files p e) Q m.
Proof.
  intros Hf HQ. unfold bad_fork_cleanup_files. apply wp_bind, (wp_fk_exit_files _ _ _ Hf); [done|]; next m Hf.
  by apply (wp_cleanup_semundo _ _ _ Hf).
Qed.

Lemma wp_cleanup_fs l v m :
  forking (Stage l v 1 T T D D D) m -> out_ok (free_toks (drop_toks early_toks l)) -> wp (bad_fork_cleanup_fs p e) Q m.
Proof.
  intros Hf HQ. unfold bad_fork_cleanup_fs. apply wp_bind, (wp_fk_exit_fs _ _ _ Hf); [done|]; next m Hf.
  by apply (wp_cleanup_files _ _ _ Hf).
Qed.

Lemma wp_cleanup_sighand l v m :
  forking (Stage l v 1 T T T D D) m -> out_ok (free_toks (drop_toks early_toks l)) -> wp (bad_fork_cleanup_sighand p e) Q m.
Proof.
  intros Hf HQ. unfold bad_fork_cleanup_sighand. apply wp_bind, (wp_fk_cleanup_sighand _ _ _ Hf); [done|]; next m Hf.
  by apply (wp_cleanup_fs _ _ _ Hf).
Qed.

Lemma wp_cleanup_signal l v m :
  forking (Stage l v 1 T T T T D) m -> out_ok (free_toks (drop_toks early_toks l)) -> wp (bad_fork_cleanup_signal flags p e) Q m.
Proof.
  intros Hf HQ. unfold bad_fork_cleanup_signal. apply wp_bind, (wp_fk_free_signal _ _ _ Hf); [done|]; next m Hf.
  by apply (wp_cleanup_sighand _ _ _ Hf).
Qed.

Lemma wp_cleanup_mm l v m :
  forking (Stage l v 1 T T T T T) m -> out_ok (free_toks (drop_toks early_toks l)) -> wp (bad_fork_cleanup_mm flags p e) Q m.
Proof.
  intros Hf HQ. unfold bad_fork_cleanup_mm. apply wp_bind, (wp_fk_mmput _ _ _ Hf); [done|]; next m Hf.
  by apply (wp_cleanup_signal _ _ _ Hf).
Qed.

Lemma wp_cleanup_namespaces l v m :
  forking (Stage l v 1 T T T T T) m -> out_ok (free_toks (drop_toks (T_namespaces :: early_toks) l)) ->
  wp (bad_fork_cleanup_namespaces flags p e) Q m.
Proof.
  intros Hf HQ. apply wp_bind, (wp_fk_release _ _ _ _ Hf); [done|]; next m Hf.
  by apply (wp_cleanup_mm _ _ _ Hf).
Qed.

Lemma wp_cleanup_io l v m :
  forking (Stage l v 1 T T T T T) m -> out_ok (free_toks (drop_toks (T_io :: T_namespaces :: early_toks) l)) ->
  wp (bad_fork_cleanup_io flags p e) Q m.
Proof.
  intros Hf HQ. apply (wp_fk_read _ _ _ _ _ Hf). intros t _ (_ & _ & _ & _ & _ & _ & _ & Hio) _.
  apply wp_bind, wp_when. destruct (pi_io_context (ts_proc t) =? NULL) eqn:En; cbn [negb].
  - apply Z.eqb_eq in En. apply (wp_cleanup_namespaces _ _ _ Hf).
    unfold drop_toks in HQ. cbn [fold_left] in HQ. by rewrite (rem_tok_absent T_io l (Hio En)) in HQ.
  - apply (wp_fk_release _ _ _ _ Hf); [done|]; next m Hf. by apply (wp_cleanup_namespaces _ _ _ Hf).
Qed.

Lemma wp_cleanup_thread l v m :
  forking (Stage l v 1 T T T T T) m ->
  out_ok (free_toks (drop_toks (T_thread :: T_io :: T_namespaces :: early_toks) l)) ->
  wp (bad_fork_cleanup_thread flags p e) Q m.
Proof.
  intros Hf HQ. apply wp_bind, (wp_fk_release _ _ _ _ Hf); [done|]; next m Hf.
  by apply (wp_cleanup_io _ _ _ Hf).
Qed.

(** The pid and its descriptor are released when they were acquired. *)
Definition pid_toks (pid : Z) : list token := if negb (pid =? init_struct_pid) then [T_pid] else [].
Definition pidfd_toks : list token := if has_flag flags CLONE_PIDFD then [T_pidfile; T_pidfd] else [].
Definition late_toks (pid : Z) : list token :=
  pid_toks pid ++ T_thread :: T_io :: T_namespaces :: early_toks.

Lemma wp_free_pid pid l v m :
  forking (Stage l v 1 T T T T T) m -> out_ok (free_toks (drop_toks (late_toks pid) l)) ->
  wp (bad_fork_free_pid flags pid p e) Q m.
Proof.
  intros Hf HQ. unfold late_toks, pid_toks in HQ. apply wp_bind, wp_when. destruct (negb (pid =? init_struct_pid)).
  - apply (wp_fk_release _ _ _ _ Hf); [done|]; next m Hf. by apply (wp_cleanup_thread _ _ _ Hf).
  - by apply (wp_cleanup_thread _ _ _ Hf).
Qed.

Lemma wp_put_pidfd pid l v m :
  forking (Stage l v 1 T T T T T) m -> out_ok (free_toks (drop_toks (pidfd_toks ++ late_toks pid) l)) ->
  wp (bad_fork_put_pidfd flags pid p e) Q m.
Proof.
  intros Hf HQ. unfold pidfd_toks in HQ. apply wp_bind, wp_when. destruct (has_flag flags CLONE_PIDFD).
  - do 1 (apply wp_bind, (wp_fk_release _ _ _ _ Hf); [done|]; next m Hf).
    apply (wp_fk_release _ _ _ _ Hf); [done|]; next m Hf. by apply (wp_free_pid pid _ _ _ Hf).
  - by apply (wp_free_pid pid _ _ _ Hf).
Qed.

Lemma wp_cancel_cgroup pid l v m :
  forking (Stage l v 1 T T T T T) m ->
  out_ok (free_toks (drop_toks (T_cgroup :: pidfd_toks ++ late_toks pid) l)) ->
  wp (bad_fork_cancel_cgroup flags pid p e) Q m.
Proof.
  intros Hf HQ. apply wp_bind, (wp_fk_emit _ _ _ _ _ Hf); next m Hf.
  apply wp_bind, (wp_fk_release _ _ _ _ Hf); [done|]; next m Hf. by apply (wp_put_pidfd pid _ _ _ Hf).
Qed.
End Labels.

(** ** Copying or sharing *)
Lemma machine_log_id m : m <| m_log := m_log m |> = m.
Proof. by destruct m. Qed.

Lemma machine_mms_log m l : m <| m_mms := m_mms m |> <| m_log := l |> = m <| m_log := l |>.
Proof. by destruct m. Qed.

Lemma hold_nil a m : hold [] a m = Ret tt m.
Proof. destruct m as [? ? ? ? ? ? ? ? ? ? ? ? ? ? ? ? ? ? ? ? k]. by destruct k. Qed.

(** A call that acquires no token. *)
Lemma wp_call_plain {A} c a (k : cres Z -> K A) Q m :
  tokens_of c = [] -> (forall r, wp (k r) Q m) -> wp (call c a ≫= k) Q m.
Proof.
  intros Hc Hk. unfold call. apply wp_bind, wp_bind, wp_gets. destruct (fork_result c a m) as [v|e]; [|apply wp_ret, Hk].
  rewrite Hc. apply wp_bind. unfold wp at 1. rewrite hold_nil. apply wp_ret, Hk.
Qed.

Lemma wp_dup_mm old x t (Q : Z -> machine -> Prop) m :
  m_mms m !! old = Some x -> is_Some (m_mms m !! m_init_mm m) -> m_tasks m !! m_current m = Some t ->
  (forall l, Q NULL (m <| m_log := l |>)) ->
  (forall a l, a <> NULL -> m_mms m !! a = None ->
     Q a (m <| m_mms := <[a := Mk_mm 1 1]> (m_mms m) |> <| m_log := l |>)) ->
  wp (dup_mm p old) Q m.
Proof.
  intros Ho [y Hi] Ht Q0 Q1. unfold dup_mm. apply wp_bind, wp_gets.
  destruct (kmem_alloc_ok "mm_struct" m) as [-> | (Hn & _ & Ha & _)].
  { apply wp_ret. rewrite <- (machine_log_id m). apply Q0. }
  revert Hn Ha. generalize (kmem_alloc "mm_struct" m) as a. intros a Hn Ha.
  replace (a =? NULL) with false by (unfold NULL in *; lia). cbv iota zeta.
  apply wp_bind, wp_deref. exists x. split; [done|]. apply wp_bind, wp_modify, wp_bind. unfold mm_init.
  apply wp_bind, wp_wr. eexists. split; [cbn; apply lookup_insert_eq|].
  apply wp_bind, wp_wr. eexists. split; [cbn; apply lookup_insert_eq|].
  match goal with |- wp _ _ ?M => replace M with (m <| m_mms := <[a := Mk_mm 1 1]> (m_mms m) |>)
    by (cbn; by rewrite !insert_insert_eq) end.
  assert (Hfree : forall l, Q NULL (m <| m_mms := delete a (<[a := Mk_mm 1 1]> (m_mms m)) |> <| m_log := l |>)).
  { intros l. rewrite delete_insert_id by done. rewrite machine_mms_log. apply Q0. }
  assert (Hne : a <> m_init_mm m) by congruence.
  apply wp_call_plain; [done|]. intros [?|?].
  2: { unfold free_mm. kgo. exact (Hfree (m_log m)). }
  apply wp_call_plain; [done|]. intros [?|?].
  2: { unfold free_mm. kgo. exact (Hfree _). }
  skip_emit. apply wp_ret. replace (a =? NULL) with false by (unfold NULL in *; lia). cbv iota.
  apply wp_call_plain; [done|]. intros [?|?].
  - apply wp_call_plain; [done|]. intros [?|?].
    + apply wp_ret. by apply Q1.
    + skip_emit. apply wp_bind, (wp_mmput_last a t); [cbn; apply lookup_insert_eq | done | done |].
      intros l1. apply wp_ret. apply Hfree.
  - skip_emit. apply wp_bind, (wp_mmput_last a t); [cbn; apply lookup_insert_eq | done | done |].
    intros l1. apply wp_ret. apply Hfree.
Qed.

(** The forking task, read at any stage. *)
Lemma wp_fk_cur {A} st (k : Z -> proc_info -> K A) Q m :
  forking st m -> wp (k cur (ts_proc ct)) Q m ->
  wp (current ← gets m_current; x ← proc current; k current x) Q m.
Proof.
  intros Hf HQ. destruct (forking_cur _ _ Hf) as (Ec & t & Ht & E). apply task_fk_proc in E as [Ep _].
  apply wp_bind, wp_gets. rewrite Ec. apply wp_bind, wp_rd. exists t. by rewrite Ep.
Qed.

Section Copy.
Context (Q : cres Z -> machine -> Prop) (l : errno -> K (cres Z)) (k : unit -> K (cres Z)).

Lemma wp_copy_files st m :
  forking st m -> st_files st = R_same ->
  (forall e m', forking st m' -> wp (l e) Q m') ->
  (forall m', forking (st <| st_files := R_taken |>) m' -> wp (k tt) Q m') ->
  wp (or_goto (copy_files flags p) l k) Q m.
Proof.
  intros Hf Est Hl Hk. unfold or_goto, copy_files. apply wp_bind, (wp_fk_cur _ _ _ _ Hf).
  pose proof Hf as [(t & Ht & Hv & R1 & R2 & R3 & R4 & R5 & R6 & R7 & R8) Ho Hq Hg Hm].
  rewrite Est in R3. destruct R3 as [Ep Es].
  destruct (pi_files (ts_proc ct) =? NULL) eqn:En; [apply Z.eqb_eq in En | apply Z.eqb_neq in En].
  { apply wp_ret, Hk. split; try done. exists t. repeat split; try done. cbn. unfold files_taken.
    rewrite Ep, Es, En. by rewrite Z.eqb_refl. }
  destruct (fb_files Hb) as [?|(x & Hx & Hc)]; [done|]. destruct (has_flag flags CLONE_FILES) eqn:Efl.
  - apply wp_bind, wp_upd_obj. exists x. split; [cbn; by rewrite Es|]. apply wp_ret, Hk. split; try done.
    exists t. repeat split; try done. cbn. unfold files_taken. replace (pi_files (ts_proc ct) =? NULL) with false by lia.
    rewrite Efl, Ep, Es. split; [done|]. by exists x.
  - apply wp_bind. destruct (dup_fd_ok (pi_files (ts_proc ct)) m) as [(e & E) | (a & Hu & E)]; unfold wp at 1; rewrite E.
    + by apply Hl.
    + destruct Hu as (Hn & _ & _ & _ & Ha & _). apply wp_bind, wp_upd_obj. exists t. split; [exact Ht|].
      apply wp_ret, Hk. split; try done.
      * eexists. cbn. rewrite lookup_insert_eq. split; [done|]. split; [done|]. repeat split; try done.
        cbn. unfold files_taken. replace (pi_files (ts_proc ct) =? NULL) with false by lia.
        rewrite Efl, Es. rewrite Es in Ha. done.
      * cbn. by rewrite delete_insert_eq.
Qed.

Lemma wp_copy_fs st m :
  forking st m -> st_fs st = R_same ->
  (forall e m', forking (st <| st_fs := R_dropped |>) m' -> wp (l e) Q m') ->
  (forall m', forking (st <| st_fs := R_taken |>) m' -> wp (k tt) Q m') ->
  wp (or_goto (copy_fs flags p) l k) Q m.
Proof.
  intros Hf Est Hl Hk. unfold or_goto, copy_fs. apply wp_bind, (wp_fk_cur _ _ _ _ Hf).
  pose proof Hf as [(t & Ht & Hv & R1 & R2 & R3 & R4 & R5 & R6 & R7 & R8) Ho Hq Hg Hm].
  rewrite Est in R4. destruct R4 as [Ep Es]. destruct (fb_fs Hb) as (x & Hx & Hc).
  destruct (has_flag flags CLONE_FS) eqn:Efl.
  - apply wp_bind, wp_deref. exists x. split; [cbn; by rewrite Es|]. destruct (fs_in_exec x).
    + apply wp_ret, Hl. split; try done. exists t. repeat split; done.
    + apply wp_bind, wp_upd_obj. exists x. split; [cbn; by rewrite Es|]. apply wp_ret, Hk. split; try done.
      exists t. repeat split; try done. cbn. unfold fs_taken. rewrite Efl, Ep, Es. split; [done|]. by exists x.
  - apply wp_bind. destruct (copy_fs_struct_ok (pi_fs (ts_proc ct)) m) as (a & [(-> & E) | (Hu & E)]);
      unfold wp at 1; rewrite E.
    + apply wp_bind, wp_upd_obj. exists t. split; [exact Ht|]. apply wp_ret, Hl. split; try done.
      * eexists. cbn. rewrite lookup_insert_eq. split; [done|]. split; [done|]. repeat split; done.
      * cbn. by rewrite delete_insert_eq.
    + destruct Hu as (Hn & _ & _ & Ha & _). apply wp_bind, wp_upd_obj. exists t. split; [exact Ht|].
      replace (a =? NULL) with false by (unfold NULL in *; lia). apply wp_ret, Hk. split; try done.
      * eexists. cbn. rewrite lookup_insert_eq. split; [done|]. split; [done|]. repeat split; try done.
        cbn. unfold fs_taken. rewrite Efl, Es. rewrite Es in Ha. done.
      * cbn. by rewrite delete_insert_eq.
Qed.

Lemma wp_copy_sighand st m :
  forking st m -> st_sighand st = R_same ->
  (forall e m', forking (st <| st_sighand := R_dropped |>) m' -> wp (l e) Q m') ->
  (forall m', forking (st <| st_sighand := R_taken |>) m' -> wp (k tt) Q m') ->
  wp (or_goto (copy_sighand flags p) l k) Q m.
Proof.
  intros Hf Est Hl Hk. unfold or_goto, copy_sighand. apply wp_bind.
  pose proof Hf as [(t & Ht & Hv & R1 & R2 & R3 & R4 & R5 & R6 & R7 & R8) Ho Hq Hg Hm].
  rewrite Est in R5. destruct R5 as [Ep Es]. destruct (has_flag flags CLONE_SIGHAND) eqn:Efl.
  - apply (wp_fk_cur _ _ _ _ Hf). destruct (fb_sighand Hb) as (x & Hx & Hc).
    apply wp_bind, wp_upd_obj. exists x. split; [cbn; by rewrite Es|]. apply wp_ret, Hk. split; try done.
    exists t. repeat split; try done. cbn. unfold sighand_taken. rewrite Efl, Ep, Es. split; [done|]. by exists x.
  - apply wp_bind, wp_gets. destruct (kmem_alloc_ok "sighand_cache" m) as [-> | Hu].
    + apply wp_bind, wp_upd_obj. exists t. split; [exact Ht|]. apply wp_ret, Hl. split; try done.
      * eexists. cbn. rewrite lookup_insert_eq. split; [done|]. split; [done|]. repeat split; done.
      * cbn. by rewrite delete_insert_eq.
    + revert Hu. generalize (kmem_alloc "sighand_cache" m) as a. intros a (Hn & _ & _ & _ & _ & Ha & _).
      apply wp_bind, wp_upd_obj. exists t. split; [exact Ht|].
      replace (a =? NULL) with false by (unfold NULL in *; lia). apply wp_bind, wp_modify. skip_emit.
      apply wp_bind, wp_when. assert (Hgo : forking (st <| st_sighand := R_taken |>)
        (set_store (<[a := Mk_sighand 1]> (fk_sighand (m_fork m)))
          (set_store (<[p := t <| ts_proc := (ts_proc t) <| pi_sighand := a |> |>]> (m_tasks m)) m))).
      { split; try done.
        - eexists. cbn. rewrite lookup_insert_eq. split; [done|]. split; [done|]. repeat split; try done.
          cbn. unfold sighand_taken. rewrite Efl, Es. rewrite Es in Ha. done.
        - cbn. by rewrite delete_insert_eq. }
      destruct (has_flag flags CLONE_CLEAR_SIGHAND); [apply wp_emit|]; apply wp_ret, Hk; repeat apply forking_log; exact Hgo.
Qed.

Lemma wp_copy_signal st m :
  forking st m -> st_signal st = R_same ->
  (forall e m', forking (st <| st_signal := R_dropped |>) m' -> wp (l e) Q m') ->
  (forall m', forking (st <| st_signal := R_taken |>) m' -> wp (k tt) Q m') ->
  wp (or_goto (copy_signal flags p) l k) Q m.
Proof.
  intros Hf Est Hl Hk. unfold or_goto, copy_signal, posix_cpu_timers_init_group. apply wp_bind.
  pose proof Hf as [(t & Ht & Hv & R1 & R2 & R3 & R4 & R5 & R6 & R7 & R8) Ho Hq Hg Hm].
  rewrite Est in R6. destruct R6 as [Ep Es].
  destruct (has_flag flags CLONE_THREAD) eqn:Ethr.
  { apply wp_ret, Hk. split; try done. exists t. repeat split; try done. cbn. unfold signal_taken. by rewrite Ethr. }
  apply wp_bind, wp_gets. destruct (kmem_alloc_ok "signal_cache" m) as [-> | Hu].
  - apply wp_bind, wp_upd_obj. exists t. split; [exact Ht|]. apply wp_ret, Hl. split; try done.
    + eexists. cbn. rewrite lookup_insert_eq. split; [done|]. split; [done|]. repeat split; done.
    + cbn. by rewrite delete_insert_eq.
  - revert Hu. generalize (kmem_alloc "signal_cache" m) as a. intros a (Hn & _ & _ & _ & _ & _ & Ha).
    apply wp_bind, wp_upd_obj. exists t. split; [exact Ht|].
    replace (a =? NULL) with false by (unfold NULL in *; lia).
    destruct (forking_cur _ _ Hf) as (Ec & tc & Htc & E). apply task_fk_proc in E as [Epc _].
    apply wp_bind, wp_gets. cbn [m_current]. apply wp_bind, wp_rd. exists tc.
    change (m_current (set_store _ m)) with (m_current m). rewrite Ec. split.
    { cbn. rewrite lookup_insert_ne by (apply not_eq_sym, cur_ne_p). done. }
    rewrite Epc. apply wp_bind, wp_deref. exists cs. split; [cbn; rewrite Es; apply (fb_signal Hb)|].
    apply wp_bind, wp_modify. repeat skip_emit. apply wp_ret, Hk. split; try done.
    + eexists. cbn. rewrite lookup_insert_eq. split; [done|]. split; [done|]. repeat split; try done.
      cbn. unfold signal_taken. rewrite Ethr, Es. rewrite Es in Ha. eexists. split_and!; [exact Ha | | reflexivity]. done.
    + cbn. by rewrite delete_insert_eq.
Qed.

(** The address space of the new task is set, with its objects. *)
Lemma forking_set_mm st m t a x lg :
  forking st m -> m_tasks m !! p = Some t -> mm_taken a x ->
  forking (st <| st_mm := R_taken |>)
    (set_store (<[p := t <| ts_mm := a |> <| ts_active_mm := a |>]> (m_tasks m)) (m <| m_mms := x |> <| m_log := lg |>)).
Proof.
  intros [(t' & Ht' & Hv & R1 & R2 & R3 & R4 & R5 & R6 & R7 & R8) Ho Hq Hg Hm] Ht Hx.
  assert (t' = t) as -> by congruence. split; try done.
  - eexists. cbn. rewrite lookup_insert_eq. split; [done|]. split; [done|]. repeat split; done.
  - cbn. by rewrite delete_insert_eq.
Qed.

Lemma forking_no_mm st m t t' :
  forking st m -> st_mm st = R_same -> m_tasks m !! p = Some t ->
  task_res t' = task_res (t <| ts_mm := ts_mm t' |>) -> task_view t' = task_view t ->
  forking st (set_store (<[p := t']> (m_tasks m)) m).
Proof.
  intros [(t1 & Ht1 & Hv & Hr) Ho Hq Hg Hm] Est Ht Er Ev. assert (t1 = t) as -> by congruence. split; try done.
  - exists t'. cbn. rewrite lookup_insert_eq. split; [done|]. split; [congruence|].
    apply (res_ok_eq _ (t <| ts_mm := ts_mm t' |>)); [done|].
    destruct Hr as (R1 & R2 & R3 & R4 & R5 & R6 & R7 & R8). repeat split; try done. cbn. by rewrite Est in *.
  - cbn. by rewrite delete_insert_eq.
Qed.

Lemma wp_copy_mm st m :
  forking st m -> st_mm st = R_same ->
  (forall e m', forking st m' -> wp (l e) Q m') ->
  (forall m', forking (st <| st_mm := R_taken |>) m' -> wp (k tt) Q m') ->
  wp (or_goto (copy_mm flags p) l k) Q m.
Proof.
  intros Hf Est Hl Hk. unfold or_goto, copy_mm. apply wp_bind.
  do 2 (apply wp_bind, (wp_child _ _ _ _ Hf); [done | done |]; next m Hf).
  destruct (fk_child _ _ Hf) as (t & Ht & _).
  apply wp_bind, wp_wr. exists t. split; [exact Ht|].
  apply wp_bind, wp_wr. eexists. split; [cbn; apply lookup_insert_eq|].
  match goal with |- wp _ _ ?M =>
    replace M with (set_store (<[p := t <| ts_mm := NULL |> <| ts_active_mm := NULL |>]> (m_tasks m)) m)
      by (cbn; by rewrite insert_insert_eq) end.
  apply (forking_no_mm st m t (t <| ts_mm := NULL |> <| ts_active_mm := NULL |>)) in Hf; [|done..].
  set (t1 := t <| ts_mm := NULL |> <| ts_active_mm := NULL |>) in *.
  assert (Et1 : t1 = t1 <| ts_mm := NULL |> <| ts_active_mm := NULL |>) by done.
  set (m1 := set_store _ m) in *. assert (Ht1 : m_tasks m1 !! p = Some t1) by (cbn; apply lookup_insert_eq).
  clearbody m1 t1. clear m t Ht. rename m1 into m.
  assert (Emm : m_mms m = m_mms b).
  { destruct (fk_child _ _ Hf) as (t2 & _ & _ & Hr). destruct Hr as (_ & _ & _ & _ & _ & _ & R7 & _).
    rewrite Est in R7. apply R7. }
  destruct (forking_cur _ _ Hf) as (Ec & tc & Htc & E). apply task_fk_proc in E as [_ Em].
  assert (Hset : forall a x lg, mm_taken a x -> forking (st <| st_mm := R_taken |>)
    (set_store (<[p := t1 <| ts_mm := a |> <| ts_active_mm := a |>]> (m_tasks m)) (m <| m_mms := x |> <| m_log := lg |>)))
    by (intros; by apply forking_set_mm).
  apply wp_bind, wp_gets. rewrite Ec. apply wp_bind, wp_rd. exists tc. split; [done|]. rewrite Em.
  destruct (ts_mm ct =? NULL) eqn:En; [apply Z.eqb_eq in En | apply Z.eqb_neq in En].
  { apply wp_ret, Hk. specialize (Hset NULL (m_mms m) (m_log m)).
    rewrite <- Et1, insert_id in Hset by done. rewrite machine_mms_log, machine_log_id in Hset.
    replace m with (set_store (m_tasks m) m) by (by destruct m). apply Hset.
    unfold mm_taken. by rewrite En, Z.eqb_refl. }
  destruct (fb_mm Hb) as [?|(x & Hx & Hc)]; [done|]. skip_emit. apply wp_bind.
  destruct (has_flag flags CLONE_VM) eqn:Efl.
  - unfold mmget. apply wp_bind, wp_upd_obj. exists x. split; [cbn; by rewrite Emm|]. apply wp_ret.
    replace (ts_mm ct =? NULL) with false by (unfold NULL in *; lia).
    apply wp_bind, wp_wr. exists t1. split; [exact Ht1|].
    apply wp_bind, wp_wr. eexists. split; [cbn; apply lookup_insert_eq|]. apply wp_ret, Hk.
    cbn. rewrite insert_insert_eq. apply Hset. unfold mm_taken.
    replace (ts_mm ct =? NULL) with false by (unfold NULL in *; lia). rewrite Efl, Emm. split; [done|]. by exists x.
  - apply (wp_dup_mm _ x tc); [cbn; by rewrite Emm | | cbn; by rewrite Ec | |].
    + cbn. pose proof (fk_globals _ _ Hf) as Hg. unfold globals_fk in Hg.
      assert (m_init_mm m = m_init_mm b) as -> by congruence. rewrite Emm. apply (fb_init_mm Hb).
    + intros lg. apply wp_ret, Hl. by apply forking_log, forking_log.
    + intros a lg Ha Hfr. replace (a =? NULL) with false by (unfold NULL in *; lia).
      apply wp_bind, wp_wr. exists t1. split; [exact Ht1|].
      apply wp_bind, wp_wr. eexists. split; [cbn; apply lookup_insert_eq|]. apply wp_ret, Hk.
      cbn. rewrite insert_insert_eq. apply Hset. unfold mm_taken.
      replace (ts_mm ct =? NULL) with false by (unfold NULL in *; lia). cbn in Hfr. rewrite Efl, Emm in *. done.
Qed.

Lemma wp_copy_io st m :
  forking st m -> T_io ∉ st_toks st ->
  (forall e m', forking st m' -> wp (l e) Q m') ->
  (forall io : bool, forall m', forking (st <| st_toks := (if io then [T_io] else []) ++ st_toks st |>) m' ->
     wp (k tt) Q m') ->
  wp (or_goto (copy_io flags p) l k) Q m.
Proof.
  intros Hf Hio Hl Hk. unfold or_goto, copy_io. apply wp_bind, wp_bind, wp_gets.
  destruct (copy_io_result flags p m) as [ctx|e]; [|by apply wp_ret, Hl].
  pose proof Hf as [(t & Ht & Hv & R1 & R2 & R3 & R4 & R5 & R6 & R7 & R8) Ho Hq Hg Hm].
  apply wp_bind, wp_upd_obj. exists t. split; [exact Ht|]. apply wp_bind, wp_when.
  destruct (ctx =? NULL) eqn:En; cbn [negb].
  - apply wp_ret, (Hk false). split; try done; cbn; [|by rewrite delete_insert_eq].
    eexists. rewrite lookup_insert_eq. split; [done|]. split; [done|]. repeat split; done.
  - apply wp_modify, wp_ret, (Hk true). split; try done; cbn; [|by rewrite delete_insert_eq | by rewrite Hm].
    eexists. rewrite lookup_insert_eq. split; [done|]. split; [done|]. repeat split; try done.
    cbn. intros ->. by rewrite Z.eqb_refl in En.
Qed.

(** The view of the new task after the scheduler's setup. *)
Definition fork_view (c : sched_class) :=
  (TASK_NEW, fork_prio ct ct, fork_static_prio ct, fork_normal_prio ct, fork_rt_priority ct, fork_policy ct,
   c, false, 0).
Definition sched_view (c : sched_class) := (fork_view c, task_ident ct).

Lemma wp_fk_sched_fork st m :
  forking st m -> st_view st = task_view ct -> 100 <= ts_static_prio ct < 140 ->
  (forall v m', forking (st <| st_view := v |>) m' -> wp (l EAGAIN) Q m') ->
  (forall m', forking (st <| st_view := sched_view (if fork_prio ct ct <? 100 then rt_sched_class else fair_sched_class) |>) m' ->
     wp (k tt) Q m') ->
  wp (or_goto (sched_fork flags p) l k) Q m.
Proof.
  intros Hf Ev Hp Hl Hk. destruct (forking_cur _ _ Hf) as (Ec & tc & Htc & Ek).
  destruct (fk_child _ _ Hf) as (t & Ht & Hv & Hr). rewrite Ev in Hv. unfold task_view, task_sched, task_ident in Hv.
  assert (Enp : ts_normal_prio tc = ts_normal_prio ct) by (symmetry; exact (f_equal ts_normal_prio Ek)).
  assert (Est : ts_static_prio t = ts_static_prio ct) by congruence.
  assert (F1 : fork_static_prio t = fork_static_prio ct /\ fork_policy t = fork_policy ct /\
               fork_rt_priority t = fork_rt_priority ct /\ fork_normal_prio t = fork_normal_prio ct).
  { unfold fork_normal_prio, fork_static_prio, fork_policy, fork_rt_priority, is_rtdl, task_has_dl_policy, task_has_rt_policy.
    assert (ts_policy t = ts_policy ct) as -> by congruence. rewrite Est.
    assert (ts_sched_reset_on_fork t = ts_sched_reset_on_fork ct) as -> by congruence.
    assert (ts_rt_priority t = ts_rt_priority ct) as -> by congruence.
    by assert (ts_normal_prio t = ts_normal_prio ct) as -> by congruence. }
  destruct F1 as (F1 & F2 & F3 & F4).
  assert (F5 : fork_prio t tc = fork_prio ct ct).
  { unfold fork_prio. rewrite F1, Enp. by assert (ts_sched_reset_on_fork t = ts_sched_reset_on_fork ct) as -> by congruence. }
  unfold or_goto. apply wp_bind. eapply wp_mono; [apply (sched_fork_spec flags p t cur tc m); try done|].
  { exact cur_ne_p. } { lia. }
  intros r m' (t' & lg & -> & Hsf & Hres). rewrite F5 in Hres.
  assert (Hres' : task_res t' = task_res t).
  { unfold task_res. by rewrite (sf_proc _ _ _ Hsf), (sf_mm _ _ _ Hsf), (sf_flags _ _ _ Hsf). }
  pose proof (forking_log _ _ lg (forking_child st m t t' Hf Ht Hres')) as Hf'.
  destruct (fork_prio ct ct <? 0).
  - subst r. by apply (Hl (task_view t')).
  - destruct Hres as (-> & _ & Hcl). apply Hk.
    replace (sched_view _) with (task_view t'); [exact Hf'|].
    assert (Ei : task_ident t' = task_ident ct).
    { unfold task_ident. rewrite (sf_proc _ _ _ Hsf), (sf_pid _ _ _ Hsf). congruence. }
    unfold task_view, task_sched, sched_view, fork_view. rewrite Ei. destruct Hsf. congruence.
Qed.
End Copy.

(** ** The stages of copy_process() *)

(** Flags other than PF_KTHREAD leave it alone. *)
Lemma kthread_lor x a : Z.land a PF_KTHREAD = 0 -> has_flag (Z.lor x a) PF_KTHREAD = has_flag x PF_KTHREAD.
Proof. intros Ha. unfold has_flag. by rewrite Z.land_lor_distr_l, Ha, Z.lor_0_r. Qed.

Lemma kthread_ldiff x a : Z.land a PF_KTHREAD = 0 -> has_flag (Z.ldiff x a) PF_KTHREAD = has_flag x PF_KTHREAD.
Proof.
  intros Ha. unfold has_flag. f_equal. apply Z.bits_inj'. intros n _. rewrite !Z.land_spec, Z.ldiff_spec.
  apply (f_equal (fun z => Z.testbit z n)) in Ha. rewrite Z.land_spec, Z.bits_0 in Ha.
  destruct (Z.testbit x n), (Z.testbit a n), (Z.testbit PF_KTHREAD n); done.
Qed.

(** The result of a stage: [P] on success, [E] when it failed and was undone. *)
Context (E : errno -> machine -> Prop).
Context (HE : forall e l m, undone l m -> l = [] \/ l = [T_seccomp] ->
  wp (fork_out e) (fun r m' => r = Err e /\ E e m') m).

Definition result (P : Z -> machine -> Prop) (r : cres Z) (m : machine) : Prop :=
  match r with Ok v => P v m | Err e => E e m end.

Lemma out_result e P l : l = [] \/ l = [T_seccomp] -> out_ok e (result P) l.
Proof. intros Hl m Hu. eapply wp_mono; [by apply (HE e l)|]. by intros r m' [-> ?]. Qed.

Definition ktoks : list token := if has_flag (ts_flags ct) PF_KTHREAD then [T_kthread] else [].

Definition stage0 : stage := Stage [T_scs; T_stack] (task_view ct) 1 R_same R_same R_same R_same R_same.
Definition stage2 : stage :=
  stage0 <| st_toks := T_mempolicy :: ktoks ++ [T_delayacct; T_nproc; T_creds; T_scs; T_stack] |>.

(** The stages after the scheduler's setup, the shared objects and the rest of
    the process information. *)
Definition sched_toks : list token := T_semundo :: T_security :: T_audit :: T_perf :: st_toks stage2.
Definition share_toks (io : bool) : list token :=
  T_thread :: (if io then [T_io] else []) ++ T_namespaces :: sched_toks.
Definition fork_class : sched_class := if fork_prio ct ct <? 100 then rt_sched_class else fair_sched_class.
Definition stage3 : stage :=
  Stage sched_toks (sched_view fork_class) 1 R_same R_same R_same R_same R_same.
Definition stage4 : stage :=
  Stage sched_toks (sched_view fork_class) 1 R_taken R_taken R_taken R_taken R_taken.
Definition pid_stage_toks (pid : Z) (io : bool) : list token := pidfd_toks ++ pid_toks pid ++ share_toks io.
Definition stage6 (pid : Z) (io : bool) : stage :=
  Stage (pid_stage_toks pid io) (sched_view fork_class) 1 R_taken R_taken R_taken R_taken R_taken.
Definition stage5 (io : bool) : stage :=
  Stage (share_toks io) (sched_view fork_class) 1 R_taken R_taken R_taken R_taken R_taken.

(** All tokens of a stage are released. *)
Ltac gone :=
  apply out_result; unfold free_toks, drop_toks, early_toks, late_toks; unfold stage6, pid_stage_toks, stage5, share_toks, stage4, stage3, sched_toks, stage2, stage0, ktoks, pid_toks, pidfd_toks;
  cbn -[has_flag Z.eqb];
  repeat case_match; first [by left | by right].

Ltac drops Hf :=
  eapply forking_weaker; [exact Hf | ..]; first [by left | by right].

(** A call of the chain: the label on failure, the next machine on success. *)
Ltac call_step m Hf lab :=
  apply (wp_fk_call _ _ _ _ _ _ Hf); clear m Hf;
  [intros ? m Hf; eapply lab; [drops Hf | gone] | intros _ m Hf].

(** A shared object of the chain. *)
Ltac copy_step m Hf rule lab :=
  apply (rule _ _ _ _ _ Hf); [done | | ]; clear m Hf;
  [intros ? m Hf; eapply lab; [drops Hf | gone] | intros m Hf].



Lemma wp_tids args Q m :
  forking stage0 m -> (forall m', forking stage0 m' -> Q tt m') -> wp (copy_process_tids args p) Q m.
Proof.
  intros Hf HQ. unfold copy_process_tids, rt_mutex_init_task, setp. apply wp_bind, wp_when.
  assert (Hrest : forall m, forking stage0 m -> wp
    (set! p ⇝ ts_set_child_tid := (if has_flag (ka_flags args) CLONE_CHILD_SETTID then ka_child_tid args else NULL) ;;
     upd_obj p (upd ts_proc (fun x => x <| pi_clear_child_tid :=
       if has_flag (ka_flags args) CLONE_CHILD_CLEARTID then ka_child_tid args else NULL |>)) ;;
     emit "ftrace_graph_init_task" [p] ;;
     set! p ⇝ ts_pi_top_task := NULL ;; set! p ⇝ ts_pi_blocked_on := NULL) Q m).
  { clear m Hf. intros m Hf. do 2 (apply wp_bind, (wp_child _ _ _ _ Hf); [done | done |]; next m Hf).
    apply wp_bind, (wp_fk_emit _ _ _ _ _ Hf); next m Hf.
    apply wp_bind, (wp_child _ _ _ _ Hf); [done | done |]; next m Hf.
    by apply (wp_child _ _ _ _ Hf). }
  destruct (ka_io_thread args); [|by apply Hrest].
  apply (wp_child _ _ _ _ Hf); [|done|by intros; apply Hrest]. intros t. unfold task_res. cbn.
  by rewrite kthread_lor.
Qed.

Lemma task_fk_flags t f :
  Z.ldiff f PF_NPROC_EXCEEDED = Z.ldiff (ts_flags t) PF_NPROC_EXCEEDED -> task_fk (t <| ts_flags := f |>) = task_fk t.
Proof. intros Ef. unfold task_fk. cbn. rewrite Ef. by destruct t. Qed.

(** The forking task forgets that it exceeded its limit. *)
Lemma wp_fk_cur_flags st (Q : unit -> machine -> Prop) m :
  forking st m -> (forall m', forking st m' -> Q tt m') ->
  wp (upd! cur ⇝ ts_flags := fun x => Z.ldiff x PF_NPROC_EXCEEDED) Q m.
Proof.
  intros Hf HQ. destruct (forking_cur _ _ Hf) as (_ & tc & Htc & _). apply wp_upd_obj. exists tc. split; [done|].
  apply HQ. destruct Hf as [(t & Ht & Hv & Hr) Ho Hq Hg Hm]. split; try done.
  - exists t. split; [|by split]. cbn. rewrite lookup_insert_ne; [done | apply cur_ne_p].
  - cbn. rewrite delete_insert_ne by (apply not_eq_sym, cur_ne_p). rewrite fmap_insert, <- Ho. apply insert_id.
    rewrite lookup_fmap, lookup_delete_ne, Htc by (apply not_eq_sym, cur_ne_p). cbn. f_equal.
    symmetry. apply task_fk_flags. apply Z.bits_inj'. intros n _. rewrite !Z.ldiff_spec.
    by destruct (Z.testbit (ts_flags tc) n), (Z.testbit PF_NPROC_EXCEEDED n).
Qed.

Lemma wp_creds m :
  forking stage0 m ->
  wp (copy_process_creds p)
    (result (fun _ => forking (stage0 <| st_toks := [T_nproc; T_creds; T_scs; T_stack] |>))) m.
Proof.
  intros Hf. apply (wp_fk_call _ _ _ _ _ _ Hf).
  { clear m Hf. intros e m Hf. eapply wp_bad_fork_free; [drops Hf | gone]. }
  clear m Hf. intros _ m Hf. apply wp_bind, wp_gets, wp_bind, wp_gets.
  assert (Hbad : forall m', forking (stage0 <| st_toks := [T_nproc; T_creds; T_scs; T_stack] |>) m' ->
    wp (bad_fork_cleanup_count p EAGAIN)
      (result (fun _ => forking (stage0 <| st_toks := [T_nproc; T_creds; T_scs; T_stack] |>))) m').
  { intros m' Hf'. eapply wp_cleanup_count; [drops Hf' | gone]. }
  destruct (_ && _)%bool; [by apply Hbad|]. destruct (forking_cur _ _ Hf) as (Ec & _).
  apply wp_bind, wp_gets. rewrite Ec. clear Ec. apply wp_bind, (wp_fk_cur_flags _ _ _ Hf); next m Hf.
  apply wp_bind, wp_gets. destruct (_ <=? _); [by apply Hbad | by apply wp_ret].
Qed.

(** No io_context yet. *)
Lemma wp_fk_init_io st (Q : unit -> machine -> Prop) m :
  forking st m -> T_io ∉ st_toks st -> (forall m', forking st m' -> Q tt m') ->
  wp (setp p (fun x => x <| pi_children := [] |> <| pi_vfork_done := NULL |> <| pi_io_context := NULL |>)) Q m.
Proof.
  intros [(t & Ht & Hv & R1 & R2 & R3 & R4 & R5 & R6 & R7 & R8) Ho Hq Hg Hm] Hio HQ.
  apply wp_upd_obj. exists t. split; [done|]. apply HQ. split; try done; cbn; [|by rewrite delete_insert_eq].
  eexists. rewrite lookup_insert_eq. split; [done|]. split; [done|]. repeat split; done.
Qed.

Lemma wp_init m :
  forking (stage0 <| st_toks := [T_nproc; T_creds; T_scs; T_stack] |>) m ->
  wp (copy_process_init p) (result (fun _ => forking stage2)) m.
Proof.
  intros Hf. unfold copy_process_init. apply wp_bind, (wp_fk_hold _ _ _ _ Hf); [set_solver|]; next m Hf.
  apply wp_bind, (wp_child _ _ _ _ Hf); [ | done | next m Hf].
  { intros t. unfold task_res. cbn. rewrite kthread_lor, kthread_ldiff by done. done. }
  apply wp_bind, (wp_fk_init_io _ _ _ Hf); [set_solver|]; next m Hf.
  apply wp_bind, (wp_fk_emit _ _ _ _ _ Hf); next m Hf.
  apply (wp_fk_read _ _ _ _ _ Hf). intros t _ (_ & -> & _) _.
  assert (Hm : forall m', forking (stage0 <| st_toks := ktoks ++ [T_delayacct; T_nproc; T_creds; T_scs; T_stack] |>) m' ->
    wp (try _ := call mpol_dup p goto bad_fork_cleanup_delayacct p; mret (Ok 0)) (result (fun _ => forking stage2)) m').
  { clear m Hf t. intros m Hf. apply (wp_fk_call _ _ _ _ _ _ Hf).
    - clear m Hf. intros e m Hf. eapply wp_cleanup_delayacct; [drops Hf|].
      unfold ktoks. destruct (has_flag (ts_flags ct) PF_KTHREAD) eqn:Ek; gone.
    - clear m Hf. intros _ m Hf. by apply wp_ret. }
  unfold ktoks in Hm. destruct (has_flag (ts_flags ct) PF_KTHREAD) eqn:Ek.
  - apply (wp_fk_call _ _ _ _ _ _ Hf); [|by intros; apply Hm].
    clear m Hf. intros e m Hf. eapply wp_cleanup_delayacct; [drops Hf | gone].
  - unfold or_goto at 1. apply wp_bind, wp_ret. by apply Hm.
Qed.

Context (Hprio : 100 <= ts_static_prio ct < 140).

Lemma wp_sched m :
  forking stage2 m -> wp (copy_process_sched flags p) (result (fun _ => forking stage3)) m.
Proof.
  intros Hf. unfold copy_process_sched.
  apply (wp_fk_sched_fork _ _ _ _ _ Hf); [done | done | |].
  { clear m Hf. intros v m Hf. eapply wp_cleanup_policy; [drops Hf | gone]. }
  fold fork_class. next m Hf. call_step m Hf wp_cleanup_policy. call_step m Hf wp_cleanup_perf.
  apply wp_bind, (wp_fk_emit _ _ _ _ _ Hf); next m Hf.
  call_step m Hf wp_cleanup_audit. call_step m Hf wp_cleanup_security. by apply wp_ret.
Qed.

Lemma wp_objects m :
  forking stage3 m -> wp (copy_process_objects flags p) (result (fun _ => forking stage4)) m.
Proof.
  intros Hf. unfold copy_process_objects.
  copy_step m Hf wp_copy_files wp_cleanup_semundo. copy_step m Hf wp_copy_fs wp_cleanup_files.
  copy_step m Hf wp_copy_sighand wp_cleanup_fs. copy_step m Hf wp_copy_signal wp_cleanup_sighand.
  copy_step m Hf wp_copy_mm wp_cleanup_signal. by apply wp_ret.
Qed.

Lemma wp_env args m :
  ka_flags args = flags -> forking stage4 m ->
  wp (copy_process_env args p) (result (fun _ m' => exists io, forking (stage5 io) m')) m.
Proof.
  intros Ef Hf. unfold copy_process_env. rewrite Ef. clear Ef. call_step m Hf wp_cleanup_mm. apply (wp_copy_io _ _ _ _ _ Hf).
  { unfold stage4, sched_toks, stage2, ktoks. cbn -[has_flag]. case_match; set_solver. }
  { clear m Hf. intros e m Hf. eapply wp_cleanup_namespaces; [drops Hf | gone]. }
  intros io. next m Hf. call_step m Hf wp_cleanup_io.
  apply wp_bind, (wp_fk_emit _ _ _ _ _ Hf); next m Hf. apply wp_ret. by exists io.
Qed.

Lemma wp_pid args pid0 io m :
  ka_flags args = flags -> forking (stage5 io) m ->
  wp (copy_process_pid args pid0 p) (result (fun pid => forking (stage6 pid io))) m.
Proof.
  intros Ef Hf. unfold copy_process_pid. rewrite Ef. clear Ef.
  assert (Hfd : forall pid m, forking ((stage5 io) <| st_toks := pid_toks pid ++ share_toks io |>) m ->
    wp (if has_flag flags CLONE_PIDFD then
          try pidfd := call get_unused_fd_flags p goto bad_fork_free_pid flags pid p;
          try _ := call anon_inode_getfile p
            goto (fun e => release T_pidfd p ;; bad_fork_free_pid flags pid p e);
          emit "get_pid" [pid] ;;
          try _ := call (put_user_pidfd (ka_pidfd args)) p goto bad_fork_put_pidfd flags pid p;
          mret (Ok pid)
        else mret (Ok pid)) (result (fun pid => forking (stage6 pid io))) m).
  { clear m Hf. intros pid m Hf. destruct (has_flag flags CLONE_PIDFD) eqn:Efd.
    - call_step m Hf wp_free_pid.
      apply (wp_fk_call _ _ _ _ _ _ Hf); clear m Hf; [intros e m Hf | intros _ m Hf].
      + apply wp_bind, (wp_fk_release _ _ _ _ Hf); [done|]; next m Hf. eapply wp_free_pid; [drops Hf | gone].
      + apply wp_bind, (wp_fk_emit _ _ _ _ _ Hf); next m Hf. call_step m Hf wp_put_pidfd.
        apply wp_ret. cbn. unfold stage6, pid_stage_toks, pidfd_toks. rewrite Efd. exact Hf.
    - apply wp_ret. cbn. unfold stage6, pid_stage_toks, pidfd_toks. rewrite Efd. exact Hf. }
  destruct (pid0 =? init_struct_pid) eqn:Ep; cbn [negb].
  - unfold or_goto at 1. apply wp_bind, wp_ret, Hfd. unfold pid_toks. rewrite Ep. exact Hf.
  - apply (wp_fk_call_val _ _ _ _ _ _ Hf); [intros e m' Hf' | intros pid m' Hpid Hf'].
    + eapply wp_cleanup_thread; [drops Hf' | gone].
    + apply Hfd. unfold pid_toks. apply alloc_pid_fresh in Hpid.
      replace (pid =? init_struct_pid) with false by lia. exact Hf'.
Qed.

(** ** The place in the process tree *)
Lemma wp_fk_ident st g f (Q : unit -> machine -> Prop) m :
  forking st m -> (forall t, task_res (g t) = task_res t) -> (forall t, task_sched (g t) = task_sched t) ->
  (forall t, task_ident (g t) = f (task_ident t)) ->
  (forall m', forking (st <| st_view := ((st_view st).1, f (st_view st).2) |>) m' -> Q tt m') ->
  wp (upd_obj p g) Q m.
Proof.
  intros Hf Hr Hs Hi HQ. apply (wp_child_any st); [done..|]. intros t m' Ev Hf'. apply HQ.
  unfold task_view in Hf'. rewrite Hs, Hi in Hf'. rewrite <- Ev. exact Hf'.
Qed.

Definition is_thread : bool := has_flag flags CLONE_THREAD.
Definition ident1 (pid : Z) : Z * Z * Z * Z * Z :=
  (pid_nr pid, (if is_thread then pi_tgid (ts_proc ct) else pid_nr pid),
   (if is_thread then pi_group_leader (ts_proc ct) else p),
   pi_real_parent (ts_proc ct), pi_exit_signal (ts_proc ct)).

Lemma wp_identity pid io (Q : unit -> machine -> Prop) m :
  forking (stage6 pid io) m ->
  (forall m', forking ((stage6 pid io) <| st_view := (fork_view fork_class, ident1 pid) |>) m' -> Q tt m') ->
  wp (copy_process_identity flags pid p) Q m.
Proof.
  intros Hf HQ. unfold copy_process_identity, setp.
  apply wp_bind, (wp_fk_emit _ _ _ _ _ Hf); next m Hf.
  apply wp_bind, wp_when.
  assert (Hrest : forall m, forking (stage6 pid io) m -> wp
    (emit "user_disable_single_step" [p] ;;
     set! p ⇝ ts_pid := pid_nr pid ;;
     current ← gets m_current;
     c ← proc current;
     (if has_flag flags CLONE_THREAD then
        upd_obj p (upd ts_proc (fun x => x <| pi_group_leader := pi_group_leader c |> <| pi_tgid := pi_tgid c |>))
      else upd_obj p (upd ts_proc (fun x => x <| pi_group_leader := p |> <| pi_tgid := pid_nr pid |>))) ;;
     upd_obj p (upd ts_proc (fun x => x <| pi_pdeath_signal := 0 |>))) Q m).
  { clear m Hf. intros m Hf. apply wp_bind, (wp_fk_emit _ _ _ _ _ Hf); next m Hf.
    apply wp_bind, (wp_fk_ident _ _ (fun i => (pid_nr pid, i.1.1.1.2, i.1.1.2, i.1.2, i.2)) _ _ Hf); [done..|].
    next m Hf. apply (wp_fk_cur _ _ _ _ Hf). unfold ident1, is_thread in HQ. apply wp_bind.
    destruct (has_flag flags CLONE_THREAD).
    - apply (wp_fk_ident _ _ (fun i => (i.1.1.1.1, pi_tgid (ts_proc ct), pi_group_leader (ts_proc ct), i.1.2, i.2)) _ _ Hf);
        [done..|]. next m Hf. by apply (wp_child _ _ _ _ Hf).
    - apply (wp_fk_ident _ _ (fun i => (i.1.1.1.1, pid_nr pid, p, i.1.2, i.2)) _ _ Hf);
        [done..|]. next m Hf. by apply (wp_child _ _ _ _ Hf). }
  destruct (_ =? _); [|by apply Hrest]. apply (wp_fk_emit _ _ _ _ _ Hf), Hrest.
Qed.

(** The parent and the exit signal; [lead] is the leader of the forking task's
    group. *)
Context (lead : task_struct) (Hlead : m_tasks b !! pi_group_leader (ts_proc ct) = Some lead).

Definition new_ident (args : kernel_clone_args) (pid : Z) : Z * Z * Z * Z * Z :=
  let f := has_flag flags in
  ((ident1 pid).1.1,
   (if f (Z.lor CLONE_PARENT CLONE_THREAD) then pi_real_parent (ts_proc ct) else cur),
   (if f (Z.lor CLONE_PARENT CLONE_THREAD) then
      if f CLONE_THREAD then -1 else pi_exit_signal (ts_proc lead)
    else ka_exit_signal args)).

Lemma forking_lead st m :
  forking st m -> pi_group_leader (ts_proc ct) <> p /\
  exists t, m_tasks m !! pi_group_leader (ts_proc ct) = Some t /\ ts_proc t = ts_proc lead.
Proof.
  intros Hf. assert (Hn : pi_group_leader (ts_proc ct) <> p).
  { intros E0. rewrite E0 in Hlead. rewrite (fb_p Hb) in Hlead. done. }
  split; [done|]. destruct (fmap_lookup_agree task_fk _ _ _ _ (eq_sym (fk_others _ _ Hf)) Hlead) as (t & Ht & E0).
  exists t. rewrite lookup_delete_ne in Ht by congruence. split; [done|]. by apply task_fk_proc in E0 as [-> _].
Qed.

Lemma wp_parent args st (Q : unit -> machine -> Prop) pid m :
  ka_flags args = flags -> forking st m -> st_view st = (fork_view fork_class, ident1 pid) ->
  (forall m', forking (st <| st_view := (fork_view fork_class, new_ident args pid) |>) m' -> Q tt m') ->
  wp (copy_process_parent args p) Q m.
Proof.
  intros Ef Hf Ev HQ. unfold copy_process_parent, setp. rewrite Ef. clear Ef. apply (wp_fk_cur _ _ _ _ Hf).
  unfold new_ident in HQ. destruct (has_flag flags (Z.lor CLONE_PARENT CLONE_THREAD)).
  - apply wp_bind, (wp_fk_ident _ _ (fun i => (i.1.1, pi_real_parent (ts_proc ct), i.2)) _ _ Hf); [done..|].
    rewrite Ev. next m Hf. destruct (has_flag flags CLONE_THREAD).
    + apply (wp_fk_ident _ _ (fun i => (i.1, -1)) _ _ Hf); [done..|]. next m Hf. by apply HQ.
    + destruct (forking_lead _ _ Hf) as (Hn & t & Ht & El). apply wp_bind, wp_rd. exists t. split; [done|]. rewrite El.
      clear t Ht El. apply (wp_fk_ident _ _ (fun i => (i.1, pi_exit_signal (ts_proc lead))) _ _ Hf); [done..|].
      next m Hf. by apply HQ.
  - apply (wp_fk_ident _ _ (fun i => (i.1.1, cur, ka_exit_signal args)) _ _ Hf); [done..|].
    rewrite Ev. next m Hf. by apply HQ.
Qed.

(** ** The class sets up the new task *)
Lemma forking_quiet st m m' : quiet_frame m m' -> forking st m -> forking st m'.
Proof.
  intros (Ft & Fr & Fg) [(t & Ht & Hv & Hr) Ho Hq Hg Hm]. unfold globals in Fg.
  assert (Ek : m_fork m' = m_fork m) by congruence. assert (Em : m_mms m' = m_mms m) by congruence. split.
  - destruct (fmap_lookup_agree task_quiet _ _ p t Ft Ht) as (t' & Ht' & E0). exists t'. split; [done|].
    split; [rewrite <- Hv; exact (f_equal task_view (eq_sym E0))|].
    apply (res_ok_eq _ t); [exact (f_equal task_res (eq_sym E0))|]. unfold res_ok in *. by rewrite Ek, Em.
  - rewrite <- Ho. apply map_eq. intros i. apply (f_equal (fun g => g !! i)) in Ft. rewrite !lookup_fmap in *.
    destruct (decide (i = p)) as [->|Hi]; [by rewrite !lookup_delete_eq|]. rewrite !lookup_delete_ne by done.
    destruct (m_tasks m !! i) as [x|], (m_tasks m' !! i) as [y|]; cbn in *; try done. f_equal.
    assert (E1 : task_quiet x = task_quiet y) by congruence. symmetry.
    exact (f_equal task_fk E1).
  - rewrite <- Hq. done.
  - rewrite <- Hg. unfold globals_fk. rewrite Ek. congruence.
  - by rewrite Ek.
Qed.

Lemma wp_cgroup_fork st (Q : unit -> machine -> Prop) m :
  forking st m -> (forall m', forking st m' -> Q tt m') -> wp (sched_cgroup_fork p) Q m.
Proof.
  intros Hf HQ. unfold sched_cgroup_fork. apply wp_bind, wp_gets.
  apply wp_bind, (wp_child _ _ _ _ Hf); [done | done |]; next m Hf.
  apply wp_bind, (wp_fk_emit _ _ _ _ _ Hf); next m Hf. apply wp_bind, wp_gets.
  destruct (fk_child _ _ Hf) as (t & Ht & _). apply wp_bind, wp_upd_obj. exists t. split; [done|].
  rewrite task_set_cpu_val. set (t' := t <| ts_cpu := _ |> <| ts_wake_cpu := _ |>).
  set (m' := set_store _ m).
  assert (Hf' : forking st m').
  { assert (Hv : forking (st <| st_view := task_view t' |>) m') by (by apply (forking_child st m t t')).
    destruct (fk_child _ _ Hf) as (t0 & Ht0 & Ev & _). assert (t0 = t) as -> by congruence.
    change (task_view t') with (task_view t) in Hv. rewrite Ev in Hv. by destruct st. }
  apply wp_bind, wp_rd. exists t'. split; [cbn; apply lookup_insert_eq|]. apply wp_when.
  destruct (has_task_fork (ts_class t')); [|by apply HQ].
  apply (wp_call quiet_frame _ (fun _ _ => True)); [|apply task_fork_frame|].
  - apply (task_fork_returns _ p t'); [cbn; apply lookup_insert_eq|]. cbn.
    pose proof (fk_globals _ _ Hf) as Hg. unfold globals_fk in Hg.
    assert (m_this_cpu m = m_this_cpu b) as -> by congruence. destruct (fb_rq Hb) as [q Eq].
    destruct (fmap_lookup_agree rq_quiet _ _ _ _ (eq_sym (fk_rqs _ _ Hf)) Eq) as (q' & -> & _). by eexists.
  - intros [] m2 _ Fq. apply HQ. by apply (forking_quiet st m' m2).
Qed.

(** ** Joining the process tree *)

(** From here on nothing fails.  [published n c m]: the new task is set up, [n]
    threads have joined the forking task's group, and the thread and fork
    counters are [c]. *)
Context (args : kernel_clone_args) (pid : Z) (io : bool).

Definition no_children (t : task_struct) : task_struct :=
  t <| ts_proc := (ts_proc t) <| pi_children := [] |> |>.
Definition task_pub (t : task_struct) : task_struct := no_children (task_fk t).

Definition final_view := (fork_view fork_class, new_ident args pid).
Definition final_toks : list token := T_seccomp :: T_cgroup :: pid_stage_toks pid io.

Record published (n : Z) (c : Z * Z) (m : machine) : Prop := Mk_published {
  pb_child : exists t, m_tasks m !! p = Some t /\ task_view t = final_view /\
    files_taken (pi_files (ts_proc t)) (fk_files (m_fork m)) /\
    fs_taken (pi_fs (ts_proc t)) (fk_fs (m_fork m)) /\
    sighand_taken (pi_sighand (ts_proc t)) (fk_sighand (m_fork m)) /\
    mm_taken (ts_mm t) (m_mms m) /\
    is_Some (fk_signal (m_fork m) !! pi_signal (ts_proc t)) /\
    (if is_thread then pi_signal (ts_proc t) = pi_signal (ts_proc ct)
     else fk_signal (m_fork b) !! pi_signal (ts_proc t) = None);
  pb_others : task_pub <$> delete p (m_tasks m) = task_pub <$> m_tasks b;
  pb_rqs : rq_quiet <$> m_rqs m = rq_quiet <$> m_rqs b;
  pb_cur : m_current m = cur;
  pb_signals : forall a s, fk_signal (m_fork b) !! a = Some s -> exists s',
    fk_signal (m_fork m) !! a = Some s' /\
    sig_nr_threads s' = sig_nr_threads s + (if a =? pi_signal (ts_proc ct) then n else 0);
  pb_counts : (fk_nr_threads (m_fork m), fk_total_forks (m_fork m)) = c;
  pb_held : fk_held (m_fork m) = mine p final_toks ++ fk_held (m_fork b);
}.

Lemma task_pub_fk t t' : task_fk t = task_fk t' -> task_pub t = task_pub t'.
Proof. intros E0. exact (f_equal no_children E0). Qed.

Lemma published_start m :
  forking (Stage final_toks final_view 1 R_taken R_taken R_taken R_taken R_taken) m ->
  published 0 (fk_nr_threads (m_fork b), fk_total_forks (m_fork b)) m.
Proof.
  intros [(t & Ht & Hv & R1 & R2 & R3 & R4 & R5 & R6 & R7 & R8) Ho Hq Hg Hm]. cbn in R3, R4, R5, R6, R7.
  unfold globals_fk in Hg. unfold signal_taken in R6. split; try done.
  - exists t. split; [done|]. split; [done|]. split_and!; try done; unfold is_thread; destruct (has_flag flags CLONE_THREAD).
    + destruct R6 as [-> ->]. rewrite (fb_signal Hb). by eexists.
    + destruct R6 as (x & _ & _ & ->). rewrite lookup_insert_eq. by eexists.
    + apply R6.
    + by destruct R6 as (x & ? & _).
  - apply map_eq. intros i. apply (f_equal (fun g => g !! i)) in Ho. rewrite !lookup_fmap in *.
    destruct (delete p (m_tasks m) !! i), (m_tasks b !! i); cbn in *; try done. f_equal. apply task_pub_fk. congruence.
  - rewrite <- (fb_cur Hb). congruence.
  - intros a s Ha. exists s. split; [|destruct (a =? _); lia]. destruct (has_flag flags CLONE_THREAD).
    + by destruct R6 as [_ ->].
    + destruct R6 as (x & Hx & _ & ->). rewrite lookup_insert_ne by congruence. done.
  - congruence.
Qed.

(** An update of the new task that keeps its view and its references. *)
Lemma wp_pub_child n c g (Q : unit -> machine -> Prop) m :
  published n c m -> (forall t, task_view (g t) = task_view t) -> (forall t, task_res (g t) = task_res t) ->
  (forall m', published n c m' -> Q tt m') -> wp (upd_obj p g) Q m.
Proof.
  intros [(t & Ht & Hv & R3 & R4 & R5 & R7 & R6 & R6') Ho Hq Hc Hs Hn Hm] Ev Er HQ. apply wp_upd_obj. exists t.
  split; [done|]. apply HQ. split; try done; cbn; [|by rewrite delete_insert_eq].
  exists (g t). rewrite lookup_insert_eq, Ev. split; [done|]. split; [done|].
  specialize (Er t). unfold task_res in Er. cbn.
  assert (ts_mm (g t) = ts_mm t) as -> by congruence.
  assert (pi_files (ts_proc (g t)) = pi_files (ts_proc t)) as -> by congruence.
  assert (pi_fs (ts_proc (g t)) = pi_fs (ts_proc t)) as -> by congruence.
  assert (pi_sighand (ts_proc (g t)) = pi_sighand (ts_proc t)) as -> by congruence.
  assert (pi_signal (ts_proc (g t)) = pi_signal (ts_proc t)) as -> by congruence. done.
Qed.

Lemma wp_pub_emit n c e a (Q : unit -> machine -> Prop) m :
  published n c m -> (forall m', published n c m' -> Q tt m') -> wp (emit e a) Q m.
Proof. intros [(t & ?) ? ? ? ? ? ?] HQ. apply wp_emit, HQ. split; try done. by exists t. Qed.

(** An update of a signal structure that keeps its thread count. *)
Lemma wp_pub_signal n c a g (Q : unit -> machine -> Prop) m :
  published n c m -> is_Some (fk_signal (m_fork m) !! a) -> (forall s, sig_nr_threads (g s) = sig_nr_threads s) ->
  (forall m', published n c m' -> is_Some (fk_signal (m_fork m') !! a) -> Q tt m') ->
  wp (upd_obj (R := signal_struct) a g) Q m.
Proof.
  intros [(t & Ht & Hv & R3 & R4 & R5 & R7 & R6 & R6') Ho Hq Hc Hs Hn Hm] [x Hx] Hg HQ. apply wp_upd_obj.
  exists x. split; [done|]. apply HQ; [|cbn; rewrite lookup_insert_eq; by eexists]. split; try done.
  - exists t. split_and!; try done. cbn.
    destruct (decide (pi_signal (ts_proc t) = a)) as [->|Hne].
    + rewrite lookup_insert_eq. by eexists.
    + by rewrite lookup_insert_ne.
  - intros k s Hk. cbn. destruct (Hs k s Hk) as (s' & Hs' & En). destruct (decide (k = a)) as [->|Hne].
    + rewrite lookup_insert_eq. eexists. split; [done|]. rewrite Hg. by assert (x = s') as -> by congruence.
    + rewrite lookup_insert_ne by done. by exists s'.
Qed.

(** Another task of the machine. *)
Lemma published_other n c m q t :
  published n c m -> m_tasks b !! q = Some t ->
  q <> p /\ exists t', m_tasks m !! q = Some t' /\ pi_signal (ts_proc t') = pi_signal (ts_proc t) /\
    ts_proc (no_children t') = ts_proc (no_children t).
Proof.
  intros Hp Ht. assert (Hn : q <> p) by (intros ->; pose proof (fb_p Hb); congruence). split; [done|].
  destruct (fmap_lookup_agree task_pub _ _ _ _ (eq_sym (pb_others _ _ _ Hp)) Ht) as (t' & Ht' & E0).
  exists t'. rewrite lookup_delete_ne in Ht' by congruence. split; [done|].
  assert (E1 : ts_proc (task_pub t') = ts_proc (task_pub t)) by (by rewrite E0). split; [exact (f_equal pi_signal E1) | exact E1].
Qed.

Lemma wp_pub_children n c q t f (Q : unit -> machine -> Prop) m :
  published n c m -> m_tasks b !! q = Some t ->
  (forall m', published n c m' -> Q tt m') -> wp (setp q (upd pi_children f)) Q m.
Proof.
  intros Hp Ht HQ. destruct (published_other _ _ _ _ _ Hp Ht) as (Hn & t' & Ht' & _).
  destruct Hp as [(x & Hx & Hr) Ho Hq Hc Hs Hcn Hm]. apply wp_upd_obj. exists t'. split; [done|]. apply HQ. split; try done.
  - exists x. split; [|done]. cbn. by rewrite lookup_insert_ne.
  - cbn. rewrite delete_insert_ne by congruence. rewrite fmap_insert, <- Ho. apply insert_id.
    rewrite lookup_fmap, lookup_delete_ne, Ht' by congruence. done.
Qed.

Lemma wp_pub_counts n c g c' (Q : unit -> machine -> Prop) m :
  published n c m ->
  (forall k, fk_fs (g k) = fk_fs k /\ fk_files (g k) = fk_files k /\ fk_sighand (g k) = fk_sighand k /\
             fk_signal (g k) = fk_signal k /\ fk_held (g k) = fk_held k) ->
  (forall k, (fk_nr_threads k, fk_total_forks k) = c -> (fk_nr_threads (g k), fk_total_forks (g k)) = c') ->
  (forall m', published n c' m' -> Q tt m') -> wp (setfk g) Q m.
Proof.
  intros [(x & Hx & Hr) Ho Hq Hc Hs Hcn Hm] Hg Hc' HQ. apply wp_modify, HQ. destruct (Hg (m_fork m)) as (E1 & E2 & E3 & E4 & E5).
  split; cbn; try done.
  - exists x. cbn. by rewrite E1, E2, E3, E4.
  - by rewrite E4.
  - by apply Hc'.
  - by rewrite E5.
Qed.

(** The parent of the new task exists. *)
Definition new_parent : Z := (new_ident args pid).1.2.
Context (pt : task_struct) (Hpt : m_tasks b !! new_parent = Some pt).
Context (Hps : is_Some (fk_signal (m_fork b) !! pi_signal (ts_proc pt))).

Lemma wp_publish_leader n c (Q : unit -> machine -> Prop) m :
  published n c m -> (forall m', published n c m' -> Q tt m') -> wp (publish_leader pid p) Q m.
Proof.
  intros Hp HQ. unfold publish_leader. destruct (pb_child _ _ _ Hp) as (t & Ht & Hv & _ & _ & _ & _ & Hsig & _).
  apply wp_bind, wp_rd. exists t. split; [done|]. apply wp_bind, wp_gets. cbv zeta. rewrite (pb_cur _ _ _ Hp).
  assert (Erp : pi_real_parent (ts_proc t) = new_parent).
  { exact (f_equal (fun v => v.2.1.2) Hv). }
  rewrite Erp. clear Ht Hv Erp. revert Hsig. generalize (pi_signal (ts_proc t)) as sig. intros sig Hsig. clear t.
  do 3 (apply wp_bind, (wp_pub_signal n c sig _ _ _ Hp Hsig); [done|]; clear m Hp Hsig; intros m Hp Hsig).
  apply wp_bind, wp_gets.
  assert (Hrest : forall m, published n c m -> is_Some (fk_signal (m_fork m) !! sig) -> wp
    (emit "tty_kref_get" [p] ;;
     par ← proc new_parent;
     psig ← deref (R := signal_struct) (pi_signal par);
     set! sig ⇝ sig_has_child_subreaper := (sig_has_child_subreaper psig || sig_is_child_subreaper psig)%bool ;;
     setp new_parent (upd pi_children (fun l => l ++ [p])) ;;
     setfk (upd fk_tasks (fun l => l ++ [p])) ;;
     emit "attach_pid(TGID, PGID, SID)" [p] ;;
     setfk (upd fk_process_counts (fun n => n + 1))) Q m).
  { clear m Hp Hsig. intros m Hp Hsig. apply wp_bind, wp_emit.
    assert (Hp' : published n c (m <| m_log := m_log m ++ [Ev "tty_kref_get" [p]] |>)).
    { destruct Hp as [(t & ?) ? ? ? ? ? ?]. split; try done. by exists t. }
    change (is_Some (fk_signal (m_fork (m <| m_log := m_log m ++ [Ev "tty_kref_get" [p]] |>)) !! sig)) in Hsig.
    revert Hp' Hsig. generalize (m <| m_log := m_log m ++ [Ev "tty_kref_get" [p]] |>). clear m Hp. intros m Hp Hsig.
    destruct (published_other _ _ _ _ _ Hp Hpt) as (_ & t' & Ht' & Es & _). apply wp_bind, wp_rd. exists t'.
    split; [done|]. rewrite Es. destruct Hps as [s Hs]. destruct (pb_signals _ _ _ Hp _ _ Hs) as (s' & Hs' & _).
    apply wp_bind, wp_deref. exists s'. split; [done|]. clear t' Ht' Es Hs'.
    apply wp_bind, (wp_pub_signal n c sig _ _ _ Hp Hsig); [done|]. clear m Hp Hsig. intros m Hp _.
    apply wp_bind, (wp_pub_children _ _ _ _ _ _ _ Hp Hpt). next m Hp.
    apply wp_bind, (wp_pub_counts _ _ _ c _ _ Hp); [done..|]. next m Hp.
    apply wp_bind, (wp_pub_emit _ _ _ _ _ _ Hp). next m Hp.
    by apply (wp_pub_counts _ _ _ c _ _ Hp). }
  apply wp_bind, wp_when. destruct (fork_ask (is_child_reaper pid) m); [|by apply Hrest].
  apply wp_bind, wp_emit. apply (wp_pub_signal n c sig); [ | done | done |].
  { destruct Hp as [(t & ?) ? ? ? ? ? ?]. split; try done. by exists t. }
  intros m' Hp' Hsig'. by apply Hrest.
Qed.

Lemma wp_pub_cur {A} n c (k : Z -> proc_info -> K A) Q m :
  published n c m -> (forall x, pi_signal x = pi_signal (ts_proc ct) -> wp (k cur x) Q m) ->
  wp (current ← gets m_current; x ← proc current; k current x) Q m.
Proof.
  intros Hp HQ. destruct (published_other _ _ _ _ _ Hp (fb_ct Hb)) as (_ & t & Ht & Es & _).
  apply wp_bind, wp_gets. rewrite (pb_cur _ _ _ Hp). apply wp_bind, wp_rd. exists t. split; [done|]. by apply HQ.
Qed.

Lemma published_group n c m : published n c m -> is_Some (fk_signal (m_fork m) !! pi_signal (ts_proc ct)).
Proof. intros Hp. destruct (pb_signals _ _ _ Hp _ _ (fb_signal Hb)) as (s & Hs & _). by exists s. Qed.

Lemma wp_publish_thread n c (Q : unit -> machine -> Prop) m :
  published n c m -> (forall m', published (n + 1) c m' -> Q tt m') -> wp (publish_thread p) Q m.
Proof.
  intros Hp HQ. unfold publish_thread. apply (wp_pub_cur _ _ _ _ _ Hp). intros cx ->.
  destruct (published_group _ _ _ Hp) as [x Hx]. apply wp_bind, wp_upd_obj. exists x. split; [done|].
  set (m' := set_store _ m). assert (Hp' : published (n + 1) c m').
  { destruct Hp as [(t & Ht & Hv & R3 & R4 & R5 & R7 & R6 & R6') Ho Hq Hc Hs Hn Hm]. split; try done.
    - exists t. split_and!; try done. cbn.
      destruct (decide (pi_signal (ts_proc t) = pi_signal (ts_proc ct))) as [->|Hne].
      + rewrite lookup_insert_eq. by eexists.
      + by rewrite lookup_insert_ne.
    - intros a s0 Ha. cbn. destruct (Hs a s0 Ha) as (s' & Hs' & En). destruct (a =? pi_signal (ts_proc ct)) eqn:Ea.
      + apply Z.eqb_eq in Ea as ->. rewrite lookup_insert_eq. eexists. split; [done|]. cbn.
        assert (x = s') as -> by congruence. lia.
      + apply Z.eqb_neq in Ea. rewrite lookup_insert_ne by done. by exists s'. }
  clearbody m'. clear m Hp x Hx. apply wp_bind, (wp_pub_emit _ _ _ _ _ _ Hp'). next m' Hp'.
  by apply (wp_pub_emit _ _ _ _ _ _ Hp').
Qed.

Lemma wp_pub_stop_delaying n c (Q : unit -> machine -> Prop) m :
  published n c m -> (forall m', published n c m' -> Q tt m') -> wp stop_delaying Q m.
Proof.
  intros Hp HQ. unfold stop_delaying. apply (wp_pub_cur _ _ _ _ _ Hp). intros cx ->.
  apply (wp_pub_signal n c _ _ _ _ Hp); [by eapply published_group | done | auto].
Qed.

(** A task that is no thread has an exit signal. *)
Context (Hexit : is_thread = false -> 0 <= (new_ident args pid).2).

Definition new_threads : Z := if pid_nr pid =? 0 then 0 else b2z is_thread.
Definition new_counts : Z * Z :=
  (fk_nr_threads (m_fork b) + (if pid_nr pid =? 0 then 0 else 1), fk_total_forks (m_fork b) + 1).

(** Joining the tree, once nothing can fail any more. *)
Lemma wp_join trace (Q : cres Z -> machine -> Prop) m :
  published 0 (fk_nr_threads (m_fork b), fk_total_forks (m_fork b)) m ->
  (forall m', published new_threads new_counts m' -> Q (Ok 0) m') ->
  wp (nr ← p ⇝ ts_pid;
      when (negb (nr =? 0))
        (emit "ptrace_init_task" [p; Z.lor (Z.land flags CLONE_PTRACE) trace] ;;
         setp p (fun x => x <| pi_thread_pid := pid |>) ;;
         x ← proc p;
         (if thread_group_leader x then publish_leader pid p else publish_thread p) ;;
         emit "attach_pid(PID)" [p] ;;
         setfk (upd fk_nr_threads (fun n => n + 1))) ;;
      setfk (upd fk_total_forks (fun n => n + 1)) ;;
      stop_delaying ;;
      mret (Ok 0)) Q m.
Proof.
  intros Hp HQ. destruct (pb_child _ _ _ Hp) as (t & Ht & Hv & _). apply wp_bind, wp_rd. exists t. split; [done|].
  assert (ts_pid t = pid_nr pid) as -> by exact (f_equal (fun v => v.2.1.1.1.1) Hv). clear t Ht Hv.
  assert (Hend : forall nr m, published new_threads (nr, fk_total_forks (m_fork b)) m -> nr = (new_counts).1 ->
    wp (setfk (upd fk_total_forks (fun n => n + 1)) ;; stop_delaying ;; mret (Ok 0)) Q m).
  { clear m Hp. intros nr m Hp ->. apply wp_bind, (wp_pub_counts _ _ _ new_counts _ _ Hp); [done | |].
    - intros k Hk. unfold new_counts. cbn. assert (fk_total_forks k = fk_total_forks (m_fork b)) as -> by congruence.
      by assert (fk_nr_threads k = new_counts.1) as -> by congruence.
    - next m Hp. apply wp_bind, (wp_pub_stop_delaying _ _ _ _ Hp). next m Hp. by apply wp_ret, HQ. }
  unfold new_threads in Hend. apply wp_bind, wp_when. destruct (pid_nr pid =? 0) eqn:E0; cbn [negb].
  { apply (Hend (fk_nr_threads (m_fork b))); [done|]. unfold new_counts. rewrite E0. cbn. lia. }
  apply wp_bind, (wp_pub_emit _ _ _ _ _ _ Hp). next m Hp.
  apply wp_bind, (wp_pub_child _ _ _ _ _ Hp); [done | done |]. next m Hp.
  destruct (pb_child _ _ _ Hp) as (t & Ht & Hv & _). apply wp_bind, wp_rd. exists t. split; [done|].
  assert (Ex : pi_exit_signal (ts_proc t) = (new_ident args pid).2) by exact (f_equal (fun v => v.2.2) Hv).
  unfold thread_group_leader. rewrite Ex. clear t Ht Hv Ex.
  assert (Hfin : forall m, published (b2z is_thread) (fk_nr_threads (m_fork b), fk_total_forks (m_fork b)) m ->
    wp (emit "attach_pid(PID)" [p] ;; setfk (upd fk_nr_threads (fun n => n + 1)))
      (fun _ => wp (setfk (upd fk_total_forks (fun n => n + 1)) ;; stop_delaying ;; mret (Ok 0)) Q) m).
  { clear m Hp. intros m Hp. apply wp_bind, (wp_pub_emit _ _ _ _ _ _ Hp). next m Hp.
    apply (wp_pub_counts _ _ _ (fk_nr_threads (m_fork b) + 1, fk_total_forks (m_fork b)) _ _ Hp); [done | |].
    - intros k Hk. cbn. congruence.
    - next m Hp. apply (Hend (fk_nr_threads (m_fork b) + 1)); [done|]. unfold new_counts. by rewrite E0. }
  apply wp_bind. destruct is_thread eqn:Eth.
  - assert ((new_ident args pid).2 = -1) as ->.
    { unfold new_ident. unfold is_thread in Eth. cbn [snd]. rewrite Eth.
      assert (has_flag flags (Z.lor CLONE_PARENT CLONE_THREAD) = true) as ->; [|done].
      unfold has_flag in *. rewrite truthy_true in *. intros E1. apply Eth.
      apply Z.bits_inj'. intros i Hi. apply (f_equal (fun z => Z.testbit z i)) in E1.
      rewrite !Z.land_spec, Z.lor_spec, Z.bits_0 in *.
      destruct (Z.testbit flags i), (Z.testbit CLONE_PARENT i), (Z.testbit CLONE_THREAD i); done. }
    cbn. apply (wp_publish_thread _ _ _ _ Hp). next m Hp. by apply Hfin.
  - specialize (Hexit eq_refl). replace (0 <=? (new_ident args pid).2) with true by lia.
    apply (wp_publish_leader _ _ _ _ Hp). next m Hp. by apply Hfin.
Qed.

Lemma wp_fk_seccomp st (Q : unit -> machine -> Prop) m :
  forking st m -> (forall m', forking (st <| st_toks := T_seccomp :: st_toks st |>) m' -> Q tt m') ->
  wp (copy_seccomp p) Q m.
Proof.
  intros Hf HQ. unfold copy_seccomp. apply wp_bind, (wp_fk_hold _ _ _ _ Hf); [set_solver|]. next m Hf.
  apply wp_bind, wp_gets, wp_when. destruct (fork_ask _ m); [|by apply HQ]. by apply (wp_fk_emit _ _ _ _ _ Hf).
Qed.

Lemma wp_publish trace m :
  ka_flags args = flags -> forking ((stage6 pid io) <| st_view := (fork_view fork_class, ident1 pid) |>) m ->
  wp (copy_process_publish args trace pid p) (result (fun _ => published new_threads new_counts)) m.
Proof.
  intros Ef Hf. unfold copy_process_publish. rewrite Ef. cbv zeta. call_step m Hf wp_put_pidfd.
  apply wp_bind, (wp_cgroup_fork _ _ _ Hf). next m Hf.
  apply wp_bind, (wp_parent args _ _ pid _ Ef Hf); [done|]. next m Hf.
  do 2 (apply wp_bind, (wp_fk_emit _ _ _ _ _ Hf); next m Hf).
  apply wp_bind, (wp_fk_seccomp _ _ _ Hf). next m Hf.
  apply wp_bind, (wp_fk_emit _ _ _ _ _ Hf). next m Hf.
  assert (Hf' : forking (Stage final_toks final_view 1 R_taken R_taken R_taken R_taken R_taken) m) by exact Hf.
  clear Hf. rename Hf' into Hf.
  apply wp_bind, wp_gets. destruct (negb _).
  { eapply wp_cancel_cgroup; [drops Hf | unfold final_toks; gone]. }
  apply wp_bind, wp_gets. destruct (fork_ask fatal_signal_pending m).
  { eapply wp_cancel_cgroup; [drops Hf | unfold final_toks; gone]. }
  apply wp_join; [by apply published_start | by intros m' Hp'].
Qed.

(** The end: the new task has no fixed priority. *)
Definition started (m : machine) : Prop :=
  published new_threads new_counts m /\
  exists t, m_tasks m !! p = Some t /\ ts_my_fixed_priority t = 0.

Lemma wp_pub_post_fork n c (Q : unit -> machine -> Prop) m :
  published n c m -> (forall m', published n c m' -> Q tt m') -> wp (sched_post_fork p) Q m.
Proof.
  intros Hp HQ. unfold sched_post_fork, uclamp_post_fork, uclamp_update_util_min_rt_default,
    __uclamp_update_util_min_rt_default. destruct (pb_child _ _ _ Hp) as (t & Ht & _).
  apply wp_bind, wp_deref. exists t. split; [done|]. destruct (negb _); [by apply wp_ret, HQ|].
  apply wp_bind, wp_rd. exists t. split; [done|]. destruct (uc_user_defined _); [by apply wp_ret, HQ|].
  apply wp_bind, wp_gets. by apply (wp_pub_child _ _ _ _ _ Hp).
Qed.

Lemma wp_pub_oom n c (Q : unit -> machine -> Prop) m :
  published n c m -> (forall m', published n c m' -> Q tt m') -> wp (copy_oom_score_adj flags p) Q m.
Proof.
  intros Hp HQ. unfold copy_oom_score_adj. destruct (pb_child _ _ _ Hp) as (t & Ht & _).
  apply wp_bind, wp_rd. exists t. split; [done|]. destruct (ts_mm t =? NULL); [by apply wp_ret, HQ|].
  destruct (negb _); [by apply wp_ret, HQ|]. generalize (ts_mm t) as mm. intros mm. clear t Ht.
  apply wp_bind, (wp_pub_emit _ _ _ _ _ _ Hp). next m Hp.
  apply (wp_pub_cur _ _ _ _ _ Hp). intros cx ->. destruct (published_group _ _ _ Hp) as [o Ho].
  apply wp_bind, wp_deref. exists o. split; [done|]. destruct (pb_child _ _ _ Hp) as (t & Ht & _ & _ & _ & _ & _ & Hs & _).
  apply wp_bind, wp_rd. exists t. split; [done|]. apply (wp_pub_signal n c _ _ _ _ Hp); [done | done | auto].
Qed.

Lemma wp_finish (Q : cres Z -> machine -> Prop) m :
  published new_threads new_counts m -> (forall m', started m' -> Q (Ok p) m') ->
  wp (copy_process_finish flags p) Q m.
Proof.
  intros Hp HQ. unfold copy_process_finish. apply wp_bind, wp_when.
  assert (Hrest : forall m, published new_threads new_counts m -> wp
    (emit "proc_fork_connector" [p] ;; sched_post_fork p ;; emit "cgroup_post_fork" [p] ;;
     emit "perf_event_fork" [p] ;; emit "trace_task_newtask" [p; flags] ;;
     emit "uprobe_copy_process" [p; flags] ;; copy_oom_score_adj flags p ;;
     set! p ⇝ ts_my_fixed_priority := 0 ;; mret (Ok p)) Q m).
  { clear m Hp. intros m Hp. apply wp_bind, (wp_pub_emit _ _ _ _ _ _ Hp). next m Hp.
    apply wp_bind, (wp_pub_post_fork _ _ _ _ Hp). next m Hp.
    do 4 (apply wp_bind, (wp_pub_emit _ _ _ _ _ _ Hp); next m Hp).
    apply wp_bind, (wp_pub_oom _ _ _ _ Hp). next m Hp.
    destruct (pb_child _ _ _ Hp) as (t & Ht & _). apply wp_bind.
    eapply wp_mono; [apply (wp_conj _ (fun _ => published new_threads new_counts)
      (fun _ m' => exists t, m_tasks m' !! p = Some t /\ ts_my_fixed_priority t = 0))|].
    - by apply (wp_pub_child _ _ _ _ _ Hp).
    - apply wp_wr. exists t. split; [done|]. eexists. cbn. rewrite lookup_insert_eq. by split.
    - intros [] m' Hm'. by apply wp_ret, HQ. }
  destruct (has_flag flags CLONE_PIDFD); [|by apply Hrest].
  apply (wp_pub_emit _ _ _ _ _ _ Hp). intros m' Hm'. by apply Hrest.
Qed.
End Fork.

(** * Duplicating the task *)
Section Dup.
Context {H : Headers} {X : Extern} {FH : ForkHeaders} {F : ForkExtern}.
Context {HOK : HeadersOK H} {XOK : ExternOK X} {FOK : ForkExternOK F} {FS : ForkSafe X FH F}.
Context (flags : Z) (b : machine) (cur p : Z) (ct : task_struct) (cs : signal_struct).
Context (Hb : fork_base b cur p ct cs) (Hp : kmem_alloc "task_struct" b = p).

Lemma undone_base l : undone b p [] (b <| m_log := l |>).
Proof. by split. Qed.

(** A call before the copy exists. *)
Lemma call_fresh c a m :
  call c a m = match fork_result c a m with
               | Ok v => Ret (Ok v) (m <| m_fork := (m_fork m) <| fk_held := mine a (tokens_of c) ++ fk_held (m_fork m) |> |>)
               | Err e => Ret (Err e) m
               end.
Proof. unfold call, mbind, M_bind, gets, hold, modify. cbn. by destruct (fork_result c a m). Qed.

Lemma wp_dup_tail m (Q : Z -> machine -> Prop) :
  forking flags b p ct (stage0 ct) m ->
  (forall m', forking flags b p ct (stage0 ct) m' -> Q p m') ->
  wp (emit "setup_thread_stack" [p; cur] ;;
      clear_tsk_need_resched p ;;
      cp ← cur ⇝ ts_cpus_ptr;
      when (maskp_is_own cp) (set! p ⇝ ts_cpus_ptr := own_mask) ;;
      dup_user_cpus_ptr p cur ;;
      setp p (fun x => x <| pi_rcu_users := 2 |>) ;;
      set! p ⇝ ts_usage := 1 ;; set! p ⇝ ts_wake_q_next := NULL ;;
      emit "account_kernel_stack" [p; 1] ;;
      mret p) Q m.
Proof.
  intros Hf HQ. apply wp_bind, (wp_fk_emit _ _ _ _ _ _ _ _ _ Hf). next m Hf.
  apply wp_bind, (wp_child _ _ _ _ _ _ _ _ Hf); [done | done |]. next m Hf.
  assert (Hend : forall m, forking flags b p ct (stage0 ct) m -> wp
    (setp p (fun x => x <| pi_rcu_users := 2 |>) ;; set! p ⇝ ts_usage := 1 ;;
     set! p ⇝ ts_wake_q_next := NULL ;; emit "account_kernel_stack" [p; 1] ;; mret p) Q m).
  { clear m Hf. intros m Hf. apply wp_bind, (wp_child _ _ _ _ _ _ _ _ Hf); [done | done |]. next m Hf.
    apply wp_bind, (wp_child _ _ _ _ _ _ _ _ Hf); [done | done |]. next m Hf.
    apply wp_bind, (wp_child _ _ _ _ _ _ _ _ Hf); [done | done |]. next m Hf.
    apply wp_bind, (wp_fk_emit _ _ _ _ _ _ _ _ _ Hf). next m Hf. by apply wp_ret, HQ. }
  assert (Hmask : forall m, forking flags b p ct (stage0 ct) m -> wp
    (dup_user_cpus_ptr p cur ;; setp p (fun x => x <| pi_rcu_users := 2 |>) ;; set! p ⇝ ts_usage := 1 ;;
     set! p ⇝ ts_wake_q_next := NULL ;; emit "account_kernel_stack" [p; 1] ;; mret p) Q m).
  { clear m Hf. intros m Hf. unfold dup_user_cpus_ptr. apply wp_bind.
    destruct (forking_cur _ _ _ _ _ _ Hb _ _ Hf) as (_ & tc & Htc & _). apply wp_bind, wp_rd. exists tc. split; [done|].
    destruct (ts_user_cpus_ptr tc) as [mask|]; [|by apply wp_ret, Hend]. apply wp_bind, wp_gets.
    destruct (dup_user_cpus_alloc m); (apply wp_bind, (wp_child _ _ _ _ _ _ _ _ Hf); [done | done |]);
      intros m' Hf'; by apply wp_ret, Hend. }
  destruct (forking_cur _ _ _ _ _ _ Hb _ _ Hf) as (_ & tc & Htc & _). apply wp_bind, wp_rd. exists tc. split; [done|].
  apply wp_bind, wp_when. destruct (maskp_is_own _); [|by apply Hmask].
  apply (wp_child _ _ _ _ _ _ _ _ Hf); [done | done |]. intros m' Hf'. by apply Hmask.
Qed.

Lemma wp_dup node :
  wp (copy_process_dup node)
    (fun r m => match r with
                | Ok q => q = p /\ forking flags b p ct (stage0 ct) m
                | Err e => undone b p [] m
                end) b.
Proof.
  pose proof Hb as [Hc Hct _ _ _ _ _ _ _ _ Hh Hfr Hn].
  assert (Hdel : delete p (m_tasks b) = m_tasks b) by (by apply delete_id).
  unfold copy_process_dup, dup_task_struct. apply wp_bind, wp_gets. rewrite Hc. apply wp_bind, wp_bind, wp_gets.
  rewrite Hp. replace (p =? NULL) with false by (unfold NULL in *; lia). cbv iota zeta.
  unfold free_task_struct, free_thread_stack.
  apply wp_bind. unfold wp at 1. rewrite call_fresh. destruct (fork_result alloc_thread_stack_node p b) as [v1|e1].
  2: { kgo. cbn. split; try done; cbn; by rewrite Hdel. }
  apply wp_call_plain; [done|]. intros [v2|e2].
  2: { unfold release. kgo. cbn. split; try done; cbn; [by rewrite Hdel|]. by rewrite bool_decide_true, Z.eqb_refl. }
  unfold arch_dup_task_struct, setp. apply wp_bind, wp_bind, wp_deref. exists ct. split; [done|]. apply wp_modify.
  apply wp_bind, wp_upd_obj. exists ct. split; [cbn; apply lookup_insert_eq|].
  match goal with |- wp _ _ ?M => set (m1 := M) end.
  apply wp_bind. unfold wp at 1. rewrite call_fresh. destruct (fork_result scs_prepare p m1) as [v3|e3].
  2: { unfold release. kgo. cbn. split; try done; cbn.
       - rewrite insert_insert_eq, delete_insert_eq. by rewrite Hdel.
       - by rewrite bool_decide_true, Z.eqb_refl. }
  apply wp_dup_tail.
  2: { intros m' Hf. apply wp_ret. replace (p =? NULL) with false by (unfold NULL in *; lia). by split. }
  split; try done.
  - eexists. cbn. rewrite insert_insert_eq, lookup_insert_eq. split; [done|]. split; [done|]. repeat split; try done.
    cbn. set_solver.
  - cbn. by rewrite insert_insert_eq, delete_insert_eq, Hdel.
Qed.
End Dup.
