(* ===== verification/ForkSpec.v ===== *)
(** What copy_process() guarantees: a failed call leaves no trace but possibly
    one reference to a seccomp filter, and a successful one adds exactly the new
    task, in the state and place the flags ask for, without a fixed priority. *)
From S2P Require Import Prelude Headers Proc Kernel Extern RqClock Uclamp Prio Mm Affinity.
From S2P Require Import ForkExtern SchedFork Fork ForkProofs.

Section Spec.
Context {H : Headers} {X : Extern} {FH : ForkHeaders} {F : ForkExtern}.
Context {HOK : HeadersOK H} {XOK : ExternOK X} {FOK : ForkExternOK F} {FS : ForkSafe X FH F}.

(** The task whose child the new task becomes. *)
Definition parent_of (args : kernel_clone_args) (cur : Z) (ct : task_struct) : Z :=
  if has_flag (ka_flags args) (Z.lor CLONE_PARENT CLONE_THREAD) then pi_real_parent (ts_proc ct) else cur.

(** The forking task [cur] and what it refers to exist and are counted; its
    static priority is that of a nice value; no fork of this task is under way. *)
Record fork_ready (args : kernel_clone_args) (cur : Z) (ct : task_struct) (cs : signal_struct)
  (lead pt : task_struct) (m : machine) : Prop := Mk_ready {
  rd_base : forall p, m_tasks m !! p = None -> p <> NULL -> fork_base m cur p ct cs;
  rd_delay : cur ∉ sig_multiprocess cs;
  rd_lead : m_tasks m !! pi_group_leader (ts_proc ct) = Some lead;
  rd_lead_exit : 0 <= pi_exit_signal (ts_proc lead);
  rd_parent : m_tasks m !! parent_of args cur ct = Some pt;
  rd_parent_signal : is_Some (fk_signal (m_fork m) !! pi_signal (ts_proc pt));
  rd_exit : 0 <= ka_exit_signal args;
  rd_prio : 100 <= ts_static_prio ct < 140;
  rd_null : m_tasks m !! NULL = None;
}.

(** Nothing is left of a failed fork; [toks] are still held for task [p]. *)
Record fork_undone (p : Z) (toks : list token) (m m' : machine) : Prop := Mk_fork_undone {
  fu_tasks : task_fk <$> m_tasks m' = task_fk <$> m_tasks m;
  fu_rqs : rq_quiet <$> m_rqs m' = rq_quiet <$> m_rqs m;
  fu_globals : globals_fk m' = globals_fk m;
  fu_held : fk_held (m_fork m') = mine p toks ++ fk_held (m_fork m);
  fu_files : fk_files (m_fork m') = fk_files (m_fork m);
  fu_fs : fk_fs (m_fork m') = fk_fs (m_fork m);
  fu_sighand : fk_sighand (m_fork m') = fk_sighand (m_fork m);
  fu_signal : fk_signal (m_fork m') = fk_signal (m_fork m);
  fu_mms : m_mms m' = m_mms m;
}.

(** The new task [p] and its effect on the rest. *)
Record fork_done (args : kernel_clone_args) (cur : Z) (ct lead : task_struct) (p : Z) (m m' : machine) : Prop :=
  Mk_fork_done {
  fd_fresh : m_tasks m !! p = None /\ p <> NULL;
  fd_child : exists t pid, m_tasks m' !! p = Some t /\
    ts_my_fixed_priority t = 0 /\
    task_sched t = fork_view ct (fork_class ct) /\
    task_ident t = new_ident (ka_flags args) cur p ct lead args pid /\
    files_taken (ka_flags args) m ct (pi_files (ts_proc t)) (fk_files (m_fork m')) /\
    fs_taken (ka_flags args) m ct (pi_fs (ts_proc t)) (fk_fs (m_fork m')) /\
    sighand_taken (ka_flags args) m ct (pi_sighand (ts_proc t)) (fk_sighand (m_fork m')) /\
    mm_taken (ka_flags args) m ct (ts_mm t) (m_mms m') /\
    (if has_flag (ka_flags args) CLONE_THREAD then pi_signal (ts_proc t) = pi_signal (ts_proc ct)
     else fk_signal (m_fork m) !! pi_signal (ts_proc t) = None) /\
    (fk_nr_threads (m_fork m'), fk_total_forks (m_fork m')) = new_counts m pid;
  fd_others : task_pub <$> delete p (m_tasks m') = task_pub <$> m_tasks m;
}.

Section Run.
Context (args : kernel_clone_args) (cur : Z) (ct : task_struct) (cs : signal_struct) (lead pt : task_struct) (m : machine).
Context (Hr : fork_ready args cur ct cs lead pt m).
#[local] Abbreviation flags := (ka_flags args).

(** The group's signals while the fork is under way. *)
Definition delayed : signal_struct :=
  if has_flag flags CLONE_THREAD then cs else cs <| sig_multiprocess := cur :: sig_multiprocess cs |>.
Definition base (l : list event) : machine :=
  (set_store (<[pi_signal (ts_proc ct) := delayed]> (fk_signal (m_fork m))) m) <| m_log := l |>.

Lemma ready_base p l : m_tasks m !! p = None -> p <> NULL -> fork_base (base l) cur p ct delayed.
Proof.
  intros Hp Hn. destruct (rd_base _ _ _ _ _ _ _ Hr p Hp Hn). split; try done. cbn. by rewrite lookup_insert_eq.
Qed.

(** Undoing the delay restores the group. *)
Lemma filter_self l : cur ∉ l -> List.filter (fun t => negb (t =? cur)) l = l.
Proof.
  induction l as [|x l IH]; [done|]. rewrite not_elem_of_cons. intros [Hx Hl]. cbn.
  replace (x =? cur) with false by lia. cbn. by rewrite IH.
Qed.

Lemma delayed_back : delayed <| sig_multiprocess := List.filter (fun t => negb (t =? cur)) (sig_multiprocess delayed) |> = cs.
Proof.
  unfold delayed. pose proof (rd_delay _ _ _ _ _ _ _ Hr) as Hd. destruct (has_flag flags CLONE_THREAD).
  - rewrite filter_self by done. by destruct cs.
  - cbn. rewrite Z.eqb_refl. cbn. rewrite filter_self by done. by destruct cs.
Qed.

Lemma wp_fork_out p l e toks m' :
  m_tasks m !! p = None -> p <> NULL -> undone (base l) p toks m' ->
  wp (fork_out e) (fun r m2 => r = Err e /\ fork_undone p toks m m2) m'.
Proof.
  intros Hp Hn Hu. pose proof (ready_base p l Hp Hn) as Hb. pose proof (rd_base _ _ _ _ _ _ _ Hr p Hp Hn) as Hm.
  assert (Ec : m_current m' = cur).
  { pose proof (un_globals _ _ _ _ Hu) as Hg. unfold globals_fk in Hg. rewrite <- (fb_cur _ _ _ _ _ Hb). congruence. }
  destruct (fmap_lookup_agree task_fk _ _ _ _ (eq_sym (un_tasks _ _ _ _ Hu)) (fb_ct _ _ _ _ _ Hb)) as (t & Ht & E0).
  apply task_fk_proc in E0 as [Ep _]. unfold fork_out, stop_delaying. apply wp_bind, wp_bind, wp_gets. rewrite Ec.
  apply wp_bind, wp_rd. exists t. split; [done|]. rewrite Ep. apply wp_upd_obj. exists delayed.
  destruct Hu as [U1 U2 U3 U4 U5 U6 U7 U8 U9]. split; [cbn; rewrite U8; cbn; apply lookup_insert_eq|]. apply wp_ret.
  split; [done|]. split; try done. cbn. rewrite U8. cbn. rewrite insert_insert_eq. apply insert_id.
  rewrite (fb_signal _ _ _ _ _ Hm). f_equal. symmetry. apply delayed_back.
Qed.

(** A failed call. *)
Definition failed (e : errno) (m' : machine) : Prop :=
  exists p toks, (toks = [] \/ toks = [T_seccomp]) /\ fork_undone p toks m m'.

Lemma wp_checks (Q : cres unit -> machine -> Prop) :
  (forall r, Q r m) -> wp (copy_process_checks flags) Q m.
Proof.
  intros HQ. destruct (rd_null _ _ _ _ _ _ _ Hr). pose proof (rd_base _ _ _ _ _ _ _ Hr) as Hbase.
  destruct (exist_fresh ({[NULL]} ∪ dom (m_tasks m))) as [p Hp].
  assert (Hb : fork_base m cur p ct cs) by (apply Hbase; [apply not_elem_of_dom|]; set_solver).
  unfold copy_process_checks. apply wp_bind, wp_gets. rewrite (fb_cur _ _ _ _ _ Hb).
  apply wp_bind, wp_rd. exists ct. split; [apply (fb_ct _ _ _ _ _ Hb)|].
  apply wp_bind, wp_deref. exists cs. split; [apply (fb_signal _ _ _ _ _ Hb)|].
  apply wp_bind, wp_gets, wp_bind, wp_gets. cbv zeta. repeat case_match; apply wp_ret, HQ.
Qed.

Lemma exists_unused : exists p, m_tasks m !! p = None /\ p <> NULL.
Proof.
  destruct (exist_fresh ({[NULL]} ∪ dom (m_tasks m))) as [p Hp]. exists p.
  split; [apply not_elem_of_dom|]; set_solver.
Qed.

Lemma wp_signals (Q : cres unit -> machine -> Prop) :
  (forall l r, Q r (base l)) -> wp (copy_process_signals flags) Q m.
Proof.
  intros HQ. destruct exists_unused as (p & Hp & Hn). pose proof (rd_base _ _ _ _ _ _ _ Hr p Hp Hn) as Hb.
  unfold copy_process_signals. apply wp_bind, wp_gets. rewrite (fb_cur _ _ _ _ _ Hb).
  apply wp_bind, wp_rd. exists ct. split; [apply (fb_ct _ _ _ _ _ Hb)|]. apply wp_bind, wp_when.
  assert (Hend : forall l, wp (emit "recalc_sigpending" [] ;; b ← ask task_sigpending;
    mret (if (b : bool) then Err ERESTARTNOINTR else Ok tt)) Q (base l)).
  { intros l. apply wp_bind, wp_emit, wp_bind, wp_gets, wp_ret. apply HQ. }
  unfold base, delayed in Hend. destruct (has_flag flags CLONE_THREAD); cbn [negb].
  - specialize (Hend (m_log m)). cbn in Hend. rewrite (insert_id _ _ _ (fb_signal _ _ _ _ _ Hb)) in Hend.
    replace m with (m <| m_fork := (m_fork m) <| fk_signal := fk_signal (m_fork m) |> |> <| m_log := m_log m |>); [done|].
    destruct m as [? ? ? ? ? ? ? ? ? ? ? ? ? ? ? ? ? ? ? ? k]. by destruct k.
  - apply wp_upd_obj. exists cs. split; [apply (fb_signal _ _ _ _ _ Hb)|]. exact (Hend (m_log m)).
Qed.

Lemma wp_pass {A} (c : K (cres A)) (k : A -> K (cres Z)) (P : A -> machine -> Prop) (E : errno -> machine -> Prop) (Q : cres Z -> machine -> Prop) s :
  wp c (fun r m' => match r with Ok v => P v m' | Err e => E e m' end) s ->
  (forall e m', E e m' -> Q (Err e) m') -> (forall v m', P v m' -> wp (k v) Q m') ->
  wp (pass x := c; k x) Q s.
Proof.
  intros Hc HE HP. unfold or_goto. apply wp_bind. eapply wp_mono; [exact Hc|]. intros [v|e] m' Hm.
  - by apply HP.
  - by apply wp_ret, HE.
Qed.

Definition outcome_ok (r : cres Z) (m' : machine) : Prop :=
  match r with Ok p => fork_done args cur ct lead p m m' | Err e => failed e m' end.

Section Child.
Context (l : list event) (p : Z).
Context (Hp : m_tasks m !! p = None) (Hn : p <> NULL) (Hk : kmem_alloc "task_struct" (base l) = p).

Lemma fork_out_failed e toks m' :
  undone (base l) p toks m' -> toks = [] \/ toks = [T_seccomp] ->
  wp (fork_out e) (fun r m2 => r = Err e /\ failed e m2) m'.
Proof.
  intros Hu Ht. eapply wp_mono; [by apply (wp_fork_out p l e toks)|]. intros r m2 [-> Hf]. split; [done|].
  by exists p, toks.
Qed.

Lemma started_done pid io m' :
  started flags (base l) cur p ct lead args pid io m' -> fork_done args cur ct lead p m m'.
Proof.
  intros (Hpub & t0 & Ht0 & Hfix). destruct Hpub as [(t & Ht & Hv & R3 & R4 & R5 & R7 & _ & R6) Ho _ _ _ Hc _].
  assert (t0 = t) as -> by congruence. split; [done | | exact Ho]. exists t, pid.
  split; [done|]. split; [done|]. split; [exact (f_equal fst Hv)|]. split; [exact (f_equal snd Hv)|].
  do 4 (split; [done|]). split; [|done]. unfold is_thread in R6. destruct (has_flag flags CLONE_THREAD); [done|].
  cbn in R6. by apply lookup_insert_None in R6 as [? _].
Qed.

Lemma wp_copy_process_rest trace pid0 m1 :
  forking flags (base l) p ct (stage0 ct) m1 ->
  wp (copy_process_tids args p ;;
      pass _ := copy_process_creds p;
      pass _ := copy_process_init p;
      pass _ := copy_process_sched flags p;
      pass _ := copy_process_objects flags p;
      pass _ := copy_process_env args p;
      pass pid := copy_process_pid args pid0 p;
      copy_process_identity flags pid p ;;
      pass _ := copy_process_publish args trace pid p;
      copy_process_finish flags p) outcome_ok m1.
Proof.
  intros Hf. pose proof (ready_base p l Hp Hn) as Hb. pose proof (rd_prio _ _ _ _ _ _ _ Hr) as Hprio.
  assert (HE : forall e l0 m2, undone (base l) p l0 m2 -> l0 = [] \/ l0 = [T_seccomp] ->
    wp (fork_out e) (fun r m' => r = Err e /\ failed e m') m2) by (intros; by eapply fork_out_failed).
  apply wp_bind, (wp_tids _ _ _ _ _ _ _ Hf); next m1 Hf.
  apply (wp_pass _ _ _ _ _ _ (wp_creds _ _ _ _ _ _ Hb _ HE _ Hf)); [done|]. clear m1 Hf. intros _ m1 Hf.
  apply (wp_pass _ _ _ _ _ _ (wp_init _ _ _ _ _ _ Hb _ HE _ Hf)); [done|]. clear m1 Hf. intros _ m1 Hf.
  apply (wp_pass _ _ _ _ _ _ (wp_sched _ _ _ _ _ _ Hb _ HE Hprio _ Hf)); [done|]. clear m1 Hf. intros _ m1 Hf.
  apply (wp_pass _ _ _ _ _ _ (wp_objects _ _ _ _ _ _ Hb _ HE _ Hf)); [done|]. clear m1 Hf. intros _ m1 Hf.
  apply (wp_pass _ _ _ _ _ _ (wp_env _ _ _ _ _ _ Hb _ HE Hprio args _ eq_refl Hf)); [done|]. clear m1 Hf. intros _ m1 [io Hf].
  apply (wp_pass _ _ _ _ _ _ (wp_pid _ _ _ _ _ _ Hb _ HE args pid0 io _ eq_refl Hf)); [done|].
  clear m1 Hf. intros pid m1 Hf.
  apply wp_bind, (wp_identity _ _ _ _ _ _ Hb _ _ _ _ Hf). next m1 Hf.
  eapply wp_pass; [apply (wp_publish flags (base l) cur p ct delayed Hb failed HE Hprio lead (rd_lead _ _ _ _ _ _ _ Hr) args pid io pt)| done |].
  - exact (rd_parent _ _ _ _ _ _ _ Hr).
  - cbn. destruct (rd_parent_signal _ _ _ _ _ _ _ Hr) as [s Hs].
    destruct (decide (pi_signal (ts_proc pt) = pi_signal (ts_proc ct))) as [->|Hne].
    + rewrite lookup_insert_eq. by eexists.
    + rewrite lookup_insert_ne by done. by exists s.
  - intros Hth. unfold new_ident. cbn [snd]. unfold is_thread in Hth. rewrite Hth.
    destruct (has_flag flags (Z.lor CLONE_PARENT CLONE_THREAD)); [apply (rd_lead_exit _ _ _ _ _ _ _ Hr) | apply (rd_exit _ _ _ _ _ _ _ Hr)].
  - reflexivity.
  - exact Hf.
  - clear m1 Hf. intros v m1 Hpub. apply (wp_finish _ _ _ _ _ _ Hb lead args pid io _ _ Hpub).
    intros m2 Hs. by apply (started_done pid io).
Qed.
End Child.

Lemma copy_process_outcome pid trace node : wp (copy_process pid trace node args) outcome_ok m.
Proof.
  unfold copy_process. cbv zeta. unfold or_goto at 1. apply wp_bind, wp_checks. intros [_|e].
  2: { apply wp_ret. exists 0, []. split; [by left|]. by split. }
  unfold or_goto at 1. apply wp_bind, wp_signals. intros l r. destruct exists_unused as (p0 & Hp0 & Hn0).
  assert (Hbad : forall e, wp (fork_out e) outcome_ok (base l)).
  { intros e. eapply wp_mono; [apply (fork_out_failed l p0 Hp0 Hn0 e []); [by split | by left]|].
    by intros r' m' [-> ?]. }
  destruct r as [_|e]; [|apply Hbad]. unfold or_goto at 1. apply wp_bind.
  destruct (kmem_alloc_ok "task_struct" (base l)) as [Ek | (Hn & Hp & _)].
  - pose proof (rd_base _ _ _ _ _ _ _ Hr p0 Hp0 Hn0) as Hb0.
    unfold copy_process_dup, dup_task_struct. apply wp_bind, wp_gets, wp_bind, wp_bind, wp_gets. rewrite Ek.
    apply wp_ret, wp_ret. apply Hbad.
  - remember (kmem_alloc "task_struct" (base l)) as p eqn:Ek. symmetry in Ek.
    pose proof (ready_base p l Hp Hn) as Hb.
    eapply wp_mono; [apply (wp_dup flags (base l) cur p ct delayed Hb Ek)|].
    intros [q|e] m1.
    + intros [-> Hf]. by apply wp_copy_process_rest with l.
    + intros Hu. eapply wp_mono; [apply (fork_out_failed l p Hp Hn e [] _ Hu); by left|]. by intros r' m' [-> ?].
Qed.
End Run.

(** C15: A copy_process() that fails, at whatever point, has undone everything:
    the tasks, run queues and counters, the reference counts of files,
    filesystem information, signal handlers and address spaces, the delayed
    signals and all other resources are as before; only a reference to a
    seccomp filter may be left over, and PF_NPROC_EXCEEDED may be cleared in the
    forking task. *)
Theorem copy_process_failure_undone args cur ct cs lead pt m pid trace node :
  fork_ready args cur ct cs lead pt m ->
  wp (copy_process pid trace node args)
    (fun r m' => match r with
                 | Err _ => exists p toks, (toks = [] \/ toks = [T_seccomp]) /\ fork_undone p toks m m'
                 | Ok _ => True
                 end) m.
Proof.
  intros Hr. eapply wp_mono; [exact (copy_process_outcome _ _ _ _ _ _ _ Hr pid trace node)|].
  by intros [p|e] m' Hm.
Qed.

(** C16: A copy_process() that succeeds returns a task at an unused address,
    new and on no run queue, with the priorities sched_fork() gives it, in the
    thread group and under the parent the flags ask for, and without a fixed priority.
    Its address space, files, filesystem information and signal handlers are the forking
    task's with one reference more exactly when CLONE_VM, CLONE_FILES, CLONE_FS or
    CLONE_SIGHAND asks for it, and otherwise new objects with one reference; its signals are
    the group's exactly with CLONE_THREAD.  The counters are updated and every other
    task is as before but for its list of children. *)
Theorem copy_process_child args cur ct cs lead pt m pid trace node :
  fork_ready args cur ct cs lead pt m ->
  wp (copy_process pid trace node args)
    (fun r m' => match r with
                 | Ok p => fork_done args cur ct lead p m m'
                 | Err _ => True
                 end) m.
Proof.
  intros Hr. eapply wp_mono; [exact (copy_process_outcome _ _ _ _ _ _ _ Hr pid trace node)|].
  by intros [p|e] m' Hm.
Qed.
End Spec.
