(* ===== verification/ForkSample.v ===== *)
(** The sample machine with a forking task: witnesses for the theorems about
    process creation, and the reference a failed fork leaves over. *)
From S2P Require Import Prelude Headers Proc Kernel Extern RqClock Uclamp Prio Mm Affinity.
From S2P Require Import ForkExtern SchedFork Fork ForkProofs ForkSpec Sample.

#[local] Existing Instance linux_headers.
#[local] Existing Instance linux_fork_headers.
#[local] Existing Instance Demo.extern.

(** Task 11 shares its files with nobody and leads its thread group. *)
Definition proc11 : proc_info :=
  proc0 <| pi_fs := 200 |> <| pi_files := 201 |> <| pi_sighand := 202 |> <| pi_signal := 203 |> <| pi_tgid := 11 |>
        <| pi_group_leader := 11 |> <| pi_real_parent := 10 |> <| pi_exit_signal := 17 |>.
Definition task11 : task_struct := (user_task 11) <| ts_on_cpu := 1 |> <| ts_proc := proc11 |>.
Definition signal11 : signal_struct := Mk_signal 1 1 1 false false false 0 0 NULL 11 [] NULL NULL NULL.

Definition fork_machine : machine :=
  machine0 <| m_tasks := <[11 := task11]> (m_tasks machine0) |>
           <| m_fork := Mk_fork (<[200 := Mk_fs 1 false]> ∅) (<[201 := Mk_files 1]> ∅) (<[202 := Mk_sighand 1]> ∅)
                          (<[203 := signal11]> ∅) 5 1000 7 5 [11] [] |>.

(** fork(): no flags, SIGCHLD. *)
Definition fork_args : kernel_clone_args := Mk_kargs 0 0 0 0 17 0 0 0 0 0 0 false.

Lemma fork_ready0 : fork_ready fork_args 11 task11 signal11 task11 task11 fork_machine.
Proof.
  split; try (vm_compute; done).
  - intros p Hp Hn. split; try (vm_compute; done); try done.
    + right. eexists. split; [reflexivity | cbn; lia].
    + eexists. split; [reflexivity | cbn; lia].
    + eexists. split; [reflexivity | cbn; lia].
    + right. eexists. split; [reflexivity | cbn; lia].
  - apply not_elem_of_nil.
  - by eexists.
Defined.

(** What a fork of the sample task shows: its result, the tokens held after it
    and whether the task at the new address exists. *)
Definition observe (F : ForkExtern) : option (cres Z * list (token * Z) * bool) :=
  match copy_process (F := F) NULL 0 (-1) fork_args fork_machine with
  | Ret r m' => Some (r, fk_held (m_fork m'), bool_decide (is_Some (m_tasks m' !! 204)))
  | Stuck _ => None
  end.

Lemma copy_process_failure_undone_witness :
  let F := DemoFork.fork_extern true in
  fst <$> (fst <$> observe F) = Some (Err EINTR) /\
  wp (copy_process NULL 0 (-1) fork_args)
    (fun r m' => match r with
                 | Err _ => exists p toks, (toks = [] \/ toks = [T_seccomp]) /\ fork_undone p toks fork_machine m'
                 | Ok _ => True
                 end) fork_machine.
Proof.
  cbv zeta. split; [vm_compute; reflexivity|].
  exact (copy_process_failure_undone fork_args 11 task11 signal11 task11 task11 fork_machine NULL 0 (-1) fork_ready0).
Defined.

Lemma copy_process_child_witness :
  let F := DemoFork.fork_extern false in
  fst <$> (fst <$> observe F) = Some (Ok 204) /\
  wp (copy_process NULL 0 (-1) fork_args)
    (fun r m' => match r with
                 | Ok p => fork_done fork_args 11 task11 task11 p fork_machine m'
                 | Err _ => True
                 end) fork_machine.
Proof.
  cbv zeta. split; [vm_compute; reflexivity|].
  exact (copy_process_child fork_args 11 task11 signal11 task11 task11 fork_machine NULL 0 (-1) fork_ready0).
Defined.

(** A fork interrupted by a fatal signal leaks a reference to the parent's
    seccomp filter: copy_seccomp() runs before the last two checks, and no
    label of the error path puts the reference.  The task that holds it does
    not exist. *)
Theorem fork_leaks_seccomp_filter :
  let F := DemoFork.fork_extern true in
  wp (copy_process NULL 0 (-1) fork_args)
    (fun r m' => r = Err EINTR /\ fk_held (m_fork m') = [(T_seccomp, 204)] /\ ~ is_Some (m_tasks m' !! 204))
    fork_machine.
Proof.
  intros F. assert (E : observe F = Some (Err EINTR, [(T_seccomp, 204)], false)) by (vm_compute; reflexivity).
  unfold observe in E. unfold wp. destruct (copy_process NULL 0 (-1) fork_args fork_machine) as [r m'|]; [|done].
  injection E as -> -> Hb. split; [done|]. split; [done|]. by apply bool_decide_eq_false in Hb.
Qed.

Lemma sched_fork_spec_witness :
  let F := DemoFork.fork_extern false in
  let m := fork_machine <| m_tasks := <[99 := task11 <| ts_sched_reset_on_fork := true |> <| ts_static_prio := 110 |>]>
             (m_tasks fork_machine) |> in
  let t := task11 <| ts_sched_reset_on_fork := true |> <| ts_static_prio := 110 |> in
  wp (sched_fork 0 99)
    (fun r m' => exists t' l, m' = focus 99 t' l m /\ sched_forked t task11 t' /\
       if fork_prio t task11 <? 0 then r = Err EAGAIN
       else r = Ok tt /\ ts_on_cpu t' = 0 /\
         ts_class t' = if fork_prio t task11 <? 100 then rt_sched_class else fair_sched_class) m.
Proof.
  cbv zeta. refine (sched_fork_spec 0 99 (task11 <| ts_sched_reset_on_fork := true |> <| ts_static_prio := 110 |>) 11 task11 _ _ _ _ _ _);
    [reflexivity | reflexivity | reflexivity | done | cbn; lia].
Defined.
