(* ===== verification/TgTree.v ===== *)
(** The task-group tree and its iterator [walk_tg_tree_from] (core.c).

    The C function walks the tree with two labels and a [goto] into the body of
    a list loop.  [walk_step] is that control flow, one label per step;
    [visit] is the recursion it implements, stated on the tree itself.
    [walk_tg_tree_from_visits] proves them equal, for every visitor that leaves
    the links alone, with a step bound taken from the number of task groups, so
    the walk always terminates. *)
From S2P Require Import Prelude Headers Proc Kernel.

(** * The iterator *)

(** The entry after [c] in a list, as [list_for_each_entry_rcu] moves on. *)
Fixpoint list_next (c : Z) (l : list Z) : option Z :=
  match l with
  | [] => None
  | x :: l' => if x =? c then head l' else list_next c l'
  end.

(** The two labels of the function, with the variables live there. *)
Inductive walk_label : Type :=
| down_label (parent : Z)
| up_label (parent child : Z).

Section Walk.
Context (down up : Z -> K Z) (from : Z).

(** The code after the loop over the children. *)
Definition walk_leave (parent : Z) : K (Z + walk_label) :=
  ret ← up parent;
  if (truthy ret || (parent =? from))%bool then mret (inl ret)
  else
    grand ← parent ⇝ tg_parent;
    if truthy grand then mret (inr (up_label grand parent)) else mret (inl ret).

(** One iteration of the loop over the children, or its end. *)
Definition walk_children (parent : Z) (child : option Z) : K (Z + walk_label) :=
  match child with
  | Some c => mret (inr (down_label c))
  | None => walk_leave parent
  end.

Definition walk_step (l : walk_label) : K (Z + walk_label) :=
  match l with
  | down_label parent =>
      ret ← down parent;
      if truthy ret then mret (inl ret)
      else children ← parent ⇝ tg_children; walk_children parent (head children)
  | up_label parent child =>
      children ← parent ⇝ tg_children; walk_children parent (list_next child children)
  end.

Fixpoint walk_loop (fuel : nat) (l : walk_label) : K Z :=
  match fuel with
  | O => stuck NOFUEL
  | S fuel' =>
      r ← walk_step l;
      match r with
      | inl ret => mret ret
      | inr l' => walk_loop fuel' l'
      end
  end.

(** Every group is entered once and left at most once. *)
Definition walk_tg_tree_from : K Z :=
  m ← get_state; walk_loop (2 * size (m_tgs m)) (down_label from).
End Walk.

Definition tg_nop (tg : Z) : K Z := mret 0.

(** * The tree *)
Inductive tg_tree : Type := Node (tg : Z) (kids : list tg_tree).

Definition root (t : tg_tree) : Z := match t with Node tg _ => tg end.

Section TreeInd.
Context (P : tg_tree -> Prop) (HN : forall tg kids, Forall P kids -> P (Node tg kids)).

Fixpoint tg_tree_rect' (t : tg_tree) : P t :=
  match t with
  | Node tg kids =>
      HN tg kids ((fix go l : Forall P l :=
                     match l with
                     | [] => List.Forall_nil P
                     | k :: l' => Forall_cons_2 P k l' (tg_tree_rect' k) (go l')
                     end) kids)
  end.
End TreeInd.

Fixpoint nodes (t : tg_tree) : list Z :=
  match t with Node tg kids => tg :: flat_map nodes kids end.

(** The links in the store are those of the tree. *)
Definition child_of (m : machine) (tg : Z) (k : tg_tree) : Prop :=
  exists g, m_tgs m !! root k = Some g /\ tg_parent g = tg.

Inductive links (m : machine) : tg_tree -> Prop :=
| links_node tg kids g :
    m_tgs m !! tg = Some g -> tg_children g = map root kids ->
    Forall (child_of m tg) kids -> Forall (links m) kids ->
    links m (Node tg kids).

Record is_tree (m : machine) (t : tg_tree) : Prop := {
  tree_links : links m t;
  tree_nodup : NoDup (nodes t);
  tree_nonnull : NULL ∉ nodes t;
}.

(** * The reference: recursion over the tree, stopping at the first visitor
    that returns non-zero *)
Section Visit.
Context (down up : Z -> K Z).

Definition and_then (c d : K Z) : K Z := ret ← c; if truthy ret then mret ret else d.

Fixpoint visit (t : tg_tree) : K Z :=
  match t with
  | Node tg kids =>
      and_then (down tg)
        (and_then (foldr (fun k => and_then (visit k)) (mret 0) kids) (up tg))
  end.
End Visit.

(** * Proof of the equivalence *)

(** What visitors must leave alone. *)
Definition tg_links (g : task_group) : Z * list Z := (tg_parent g, tg_children g).
Definition same_links (m m' : machine) : Prop := tg_links <$> m_tgs m = tg_links <$> m_tgs m'.

#[export] Instance same_links_equiv : Equivalence same_links.
Proof. split; unfold same_links; repeat intro; congruence. Qed.

Lemma same_links_lookup m m' tg g :
  same_links m m' -> m_tgs m !! tg = Some g ->
  exists g', m_tgs m' !! tg = Some g' /\ tg_parent g' = tg_parent g /\ tg_children g' = tg_children g.
Proof.
  intros E Hg. apply (f_equal (fun x => x !! tg)) in E. rewrite !lookup_fmap, Hg in E.
  destruct (m_tgs m' !! tg) as [g'|]; [|done]. cbn in E. unfold tg_links in E.
  injection E as E1 E2. by exists g'.
Qed.

Lemma links_same m m' t : same_links m m' -> links m t -> links m' t.
Proof.
  intros E. induction t as [tg kids IH] using tg_tree_rect'. inversion 1 as [? ? g Hg Hc Hk Hl]; subst.
  destruct (same_links_lookup _ _ _ _ E Hg) as (g' & Hg' & _ & Hc').
  apply links_node with g'; [done | congruence | | ].
  - revert Hk. apply Forall_impl. intros k (gk & Hgk & Hp).
    destruct (same_links_lookup _ _ _ _ E Hgk) as (gk' & ? & ? & _). exists gk'. split; [done | congruence].
  - clear H Hk Hg Hc Hg' Hc'. induction IH; inversion Hl; subst; constructor; auto.
Qed.

Lemma list_next_middle l1 c l2 : NoDup (l1 ++ c :: l2) -> list_next c (l1 ++ c :: l2) = head l2.
Proof.
  induction l1 as [|x l1 IH]; cbn; intros Hn.
  - by rewrite Z.eqb_refl.
  - apply list.NoDup_cons in Hn as [Hx Hn]. destruct (Z.eqb_spec x c) as [->|_]; [|auto].
    exfalso. apply Hx. set_solver.
Qed.

(** Steps the walk takes inside a subtree. *)
Fixpoint cost (t : tg_tree) : nat :=
  match t with Node _ kids => S (foldr (fun k n => cost k + S n)%nat O kids) end.

Lemma cost_nodes t : (S (cost t) = 2 * length (nodes t))%nat.
Proof.
  induction t as [tg kids IH] using tg_tree_rect'. cbn. induction IH as [|k l Hk _ IH]; cbn; [done|].
  rewrite length_app. lia.
Qed.

Lemma root_in_nodes t : root t ∈ nodes t.
Proof. destruct t; cbn. apply list_elem_of_here. Qed.

Lemma roots_sub l : forall x, x ∈ map root l -> x ∈ flat_map nodes l.
Proof.
  induction l as [|k l IH]; cbn; intros x Hx; [by apply not_elem_of_nil in Hx|].
  apply elem_of_cons in Hx as [->|Hx]; apply elem_of_app; [left; apply root_in_nodes | right; auto].
Qed.

Lemma roots_nodup l : NoDup (flat_map nodes l) -> NoDup (map root l).
Proof.
  induction l as [|k l IH]; cbn; intros Hn; [constructor|]. apply list.NoDup_app in Hn as (_ & Hd & Hn).
  constructor; [|auto]. intros Hx. apply (Hd (root k)); [apply root_in_nodes | by apply roots_sub].
Qed.

Section Equiv.
Context (down up : Z -> K Z) (from : Z).
Context (Hdown : forall tg, preserves same_links (down tg)) (Hup : forall tg, preserves same_links (up tg)).

#[local] Abbreviation leave := (walk_leave up from).

(** The rest of the walk. *)
Definition resume (n : nat) (r : Z + walk_label) : K Z :=
  match r with inl ret => mret ret | inr l => walk_loop down up from n l end.

(** Everything [visit] does in a node but the final [up]. *)
Definition visit_in (t : tg_tree) : K Z :=
  match t with
  | Node tg kids => and_then (down tg) (foldr (fun k => and_then (visit down up k)) (mret 0) kids)
  end.

Lemma visit_split t s : visit down up t s = and_then (visit_in t) (up (root t)) s.
Proof.
  destruct t as [tg kids]. cbn. unfold and_then, mbind, M_bind, mret, M_ret.
  destruct (down tg s) as [r s1|]; [|done]. by destruct (truthy r) eqn:E; [rewrite E|].
Qed.

Lemma visit_links t : preserves same_links (visit down up t).
Proof.
  induction t as [tg kids IH] using tg_tree_rect'. cbn. unfold and_then.
  keep. induction IH; cbn; keep; auto.
Qed.

Lemma visit_in_links t : preserves same_links (visit_in t).
Proof.
  destruct t as [tg kids]. cbn. unfold and_then. keep.
  induction kids; cbn; keep; auto using visit_links.
Qed.

(** The walk from the entry of a subtree up to the code that leaves it. *)
Definition enters (t : tg_tree) : Prop := forall n s,
  links s t -> NoDup (nodes t) -> from ∉ flat_map nodes (match t with Node _ l => l end) -> NULL ∉ nodes t ->
  walk_loop down up from (cost t + n) (down_label (root t)) s =
  (ret ← visit_in t; if truthy ret then mret ret else r ← leave (root t); resume n r) s.

Lemma same_links_after {A} (c : K A) s a s' t :
  preserves same_links c -> c s = Ret a s' -> links s t -> links s' t.
Proof. intros Hc E. apply links_same. by eapply Hc. Qed.

(** What a node's links say of one of its children. *)
Lemma subtree_side tg seen k todo s :
  links s (Node tg (seen ++ k :: todo)) -> NoDup (nodes (Node tg (seen ++ k :: todo))) ->
  from ∉ flat_map nodes (seen ++ k :: todo) -> NULL ∉ nodes (Node tg (seen ++ k :: todo)) ->
  links s k /\ NoDup (nodes k) /\ from ∉ flat_map nodes (match k with Node _ l => l end) /\
  NULL ∉ nodes k /\ root k <> from.
Proof.
  intros Hl Hn Hfrom Hnull. inversion Hl as [? ? g Hg Hc Hk HL]; subst.
  cbn in Hn, Hnull. rewrite flat_map_app in *. cbn in *.
  apply list.NoDup_cons in Hn as [_ Hn]. apply list.NoDup_app in Hn as (_ & _ & Hn).
  apply list.NoDup_app in Hn as (Hn & _ & _). apply list.Forall_app in HL as [_ HL]. apply list.Forall_cons in HL as [HL _].
  pose proof (root_in_nodes k). assert (from ∉ nodes k) by set_solver.
  split_and!; [done | done | destruct k; set_solver | set_solver | set_solver].
Qed.

(** Returning from child [k] to the loop in its parent. *)
Lemma step_up tg seen k todo s (r2 : Z) n :
  links s (Node tg (seen ++ k :: todo)) -> NoDup (nodes (Node tg (seen ++ k :: todo))) ->
  NULL ∉ nodes (Node tg (seen ++ k :: todo)) ->
  (r ← (grand ← root k ⇝ tg_parent;
        if truthy grand then mret (inr (up_label grand (root k))) else mret (inl r2));
   resume (S n) r) s
  = (r ← walk_children up from tg (head (map root todo)); resume n r) s.
Proof.
  intros Hl Hn Hnull. inversion Hl as [? ? g Hg Hc Hk HL]; subst.
  apply list.Forall_app in Hk as [_ Hk]. apply list.Forall_cons in Hk as [(gk & Hgk & Hp) _].
  unfold rd at 1, deref at 1, mbind, M_bind, mret, M_ret. cbn [store tg_store]. rewrite Hgk, Hp.
  assert (Ht : truthy tg = true). { apply truthy_true. intros ->. apply Hnull. cbn. apply list_elem_of_here. }
  rewrite Ht. cbn [resume walk_loop walk_step].
  unfold rd at 1, deref at 1, mbind, M_bind, mret, M_ret. cbn [store tg_store]. rewrite Hg, Hc.
  rewrite map_app. cbn [map]. rewrite list_next_middle; [done|].
  cbn in Hn. apply list.NoDup_cons in Hn as [_ Hn]. apply roots_nodup in Hn. by rewrite map_app in Hn.
Qed.

(** The loop over the children of [tg], from the entry of those in [todo]. *)
Lemma walk_children_visits tg seen todo n s :
  Forall enters todo -> links s (Node tg (seen ++ todo)) -> NoDup (nodes (Node tg (seen ++ todo))) ->
  from ∉ flat_map nodes (seen ++ todo) -> NULL ∉ nodes (Node tg (seen ++ todo)) ->
  (r ← walk_children up from tg (head (map root todo));
   resume (foldr (fun k m => cost k + S m)%nat n todo) r) s =
  (ret ← foldr (fun k => and_then (visit down up k)) (mret 0) todo;
   if truthy ret then mret ret else r ← leave tg; resume n r) s.
Proof.
  intros HF. revert seen s. induction HF as [|k todo Hk _ IH]; intros seen s Hl Hn Hfrom Hnull; [done|].
  cbn [map head walk_children foldr]. unfold mbind at 1, M_bind at 1, mret at 1, M_ret at 1. cbn [resume].
  destruct (subtree_side _ _ _ _ _ Hl Hn Hfrom Hnull) as (Hlk & Hnk & Hfk & Hzk & Hne).
  rewrite Hk by done. unfold and_then, mbind, M_bind, mret, M_ret. rewrite visit_split.
  unfold and_then, mbind, M_bind, mret, M_ret.
  destruct (visit_in k s) as [r s1|] eqn:E1; [|done]. destruct (truthy r) eqn:Er; [by rewrite Er, Er|].
  unfold walk_leave at 1, mbind, M_bind, mret, M_ret.
  destruct (up (root k) s1) as [r2 s2|] eqn:E2; [|done].
  destruct (truthy r2) eqn:Er2; cbn [orb]; [by rewrite Er2|].
  rewrite (proj2 (Z.eqb_neq _ _) Hne).
  assert (Hl2 : links s2 (Node tg (seen ++ k :: todo))).
  { eapply same_links_after; [apply Hup | exact E2 |].
    eapply same_links_after; [apply visit_in_links | exact E1 | done]. }
  etransitivity; [exact (step_up tg seen k todo s2 r2 _ Hl2 Hn Hnull)|].
  specialize (IH (seen ++ [k]) s2). rewrite <- app_assoc in IH. by apply IH.
Qed.

Lemma foldr_cost kids n :
  (foldr (fun k m => cost k + S m) O kids + n = foldr (fun k m => cost k + S m) n kids)%nat.
Proof. induction kids; cbn; lia. Qed.

Lemma walk_enters t : enters t.
Proof.
  induction t as [tg kids IH] using tg_tree_rect'. intros n s Hl Hn Hfrom Hnull.
  cbn [cost root visit_in Nat.add walk_loop walk_step]. unfold and_then, mbind, M_bind, mret, M_ret.
  destruct (down tg s) as [r s1|] eqn:E1; [|done]. destruct (truthy r) eqn:Er; [by rewrite Er|].
  assert (Hl1 : links s1 (Node tg kids)). { by eapply same_links_after; [apply Hdown | exact E1 |]. }
  pose proof (walk_children_visits tg [] kids n s1 IH Hl1 Hn Hfrom Hnull) as HW.
  inversion Hl1 as [? ? g Hg Hc _ _]; subst.
  unfold rd at 1, deref at 1, mbind, M_bind, mret, M_ret. cbn [store tg_store]. rewrite Hg, Hc.
  rewrite foldr_cost. exact HW.
Qed.
End Equiv.

(** The size of a tree in the store. *)
Lemma links_dom m t x : links m t -> x ∈ nodes t -> x ∈ dom (m_tgs m).
Proof.
  induction t as [tg kids IH] using tg_tree_rect'. inversion 1 as [? ? g Hg _ _ HL]; subst. cbn.
  intros Hx. apply elem_of_cons in Hx as [->|Hx]; [by eapply elem_of_dom_2|]. clear H Hg.
  induction IH as [|k l Hk _ IH]; inversion HL; subst; cbn in Hx; [by apply not_elem_of_nil in Hx|].
  apply elem_of_app in Hx as [Hx|Hx]; auto.
Qed.

Lemma tree_size m t : is_tree m t -> (length (nodes t) <= size (m_tgs m))%nat.
Proof.
  intros [Hl Hn _]. rewrite <- size_dom, <- (size_list_to_set (C := gset Z) (nodes t)) by done.
  apply subseteq_size. intros x Hx. apply elem_of_list_to_set in Hx. by eapply links_dom.
Qed.

Lemma walk_visits (down up : Z -> K Z) (t : tg_tree) (m : machine)
  (Hdown : forall tg, preserves same_links (down tg))
  (Hup : forall tg, preserves same_links (up tg))
  (Htree : is_tree m t) :
  walk_tg_tree_from down up (root t) m = visit down up t m.
Proof.
  pose proof (tree_size m t Htree) as Hs. pose proof (cost_nodes t) as Hc. destruct Htree as [Hl Hn Hz].
  unfold walk_tg_tree_from, get_state, mbind at 1, M_bind at 1.
  replace (2 * size (m_tgs m))%nat with (cost t + (2 * size (m_tgs m) - cost t))%nat by lia.
  rewrite (walk_enters down up (root t) Hdown Hup); [|done|done| |done].
  - rewrite visit_split. unfold and_then, walk_leave, mbind, M_bind, mret, M_ret.
    destruct (visit_in down up t m) as [r s1|]; [|done]. destruct (truthy r); [done|].
    destruct (up (root t) s1) as [r2 s2|]; [|done]. by rewrite Z.eqb_refl, orb_true_r.
  - destruct t as [tg kids]. cbn in *. by apply list.NoDup_cons in Hn as [? _].
Qed.

(** C20: [walk_tg_tree_from] started at the root of a tree of task groups
    terminates and is the recursion over that tree: [down] on entering a group,
    then the children in order, then [up], ending at the first visitor that
    returns non-zero.  The visitors are arbitrary but leave the links alone. *)
Theorem walk_tg_tree_from_visits (down up : Z -> K Z) (t : tg_tree) (m : machine)
  (Hdown : forall tg, preserves same_links (down tg))
  (Hup : forall tg, preserves same_links (up tg))
  (Htree : is_tree m t) :
  walk_tg_tree_from down up (root t) m = visit down up t m.
Proof. by apply walk_visits. Qed.
