(* ===== verification/Text.v ===== *)
(** Decimal text as the cgroup files use it: printing with [%ld] and [%llu],
    and the two conversions of [sscanf] that core.c needs, ["%20s"] and
    ["%llu"], with the wrap-around of the conversion to 64 bits. *)
From Stdlib Require Import Ascii.
From S2P Require Import Prelude.

#[local] Open Scope string_scope.
#[local] Open Scope Z_scope.

Definition nl : ascii := ascii_of_nat 10.
Definition newline : string := String nl EmptyString.

Definition digit (d : Z) : ascii := ascii_of_nat (48 + Z.to_nat d).
Definition digit_val (c : ascii) : Z := Z.of_nat (nat_of_ascii c) - 48.
Definition isdigit (c : ascii) : bool := ((0 <=? digit_val c) && (digit_val c <=? 9))%bool.
Definition isspace (c : ascii) : bool :=
  existsb (fun n => Nat.eqb (nat_of_ascii c) n) [32; 9; 10; 11; 12; 13; 160]%nat.

(** * Printing *)
Fixpoint digits (fuel : nat) (n : Z) (rest : string) : string :=
  match fuel with
  | O => rest
  | S f =>
      if n <? 10 then String (digit n) rest
      else digits f (n / 10) (String (digit (n mod 10)) rest)
  end.

(** [%llu] and [%ld]; twenty digits are enough for 64 bits. *)
Definition show_llu (n : Z) : string := digits 20 n "".
Definition show_ld (n : Z) : string := if n <? 0 then "-" +:+ show_llu (- n) else show_llu n.

(** * Scanning *)
Fixpoint skip_spaces (s : string) : string :=
  match s with
  | String c s' => if isspace c then skip_spaces s' else s
  | EmptyString => s
  end.

(** [%<width>s]: at most [width] characters up to the next space. *)
Fixpoint scan_word (width : nat) (s : string) : string * string :=
  match width, s with
  | S w, String c s' =>
      if isspace c then (EmptyString, s)
      else let '(tok, rest) := scan_word w s' in (String c tok, rest)
  | _, _ => (EmptyString, s)
  end.

Fixpoint strtoull (acc : Z) (s : string) : Z :=
  match s with
  | String c s' => if isdigit c then strtoull (u64 (acc * 10 + digit_val c)) s' else acc
  | EmptyString => acc
  end.

(** [%llu]: no conversion unless a digit follows the spaces. *)
Definition scan_llu (s : string) : option Z :=
  match skip_spaces s with
  | String c s' => if isdigit c then Some (strtoull 0 (String c s')) else None
  | EmptyString => None
  end.

(** * What is printed is scanned back *)
Lemma digit_ok d : 0 <= d <= 9 -> digit_val (digit d) = d.
Proof.
  intros Hd. unfold digit_val, digit. rewrite nat_ascii_embedding; lia.
Qed.

Lemma isdigit_digit d : 0 <= d <= 9 -> isdigit (digit d) = true.
Proof. intros Hd. unfold isdigit. rewrite digit_ok by done. lia. Qed.

Lemma isspace_digit d : 0 <= d <= 9 -> isspace (digit d) = false.
Proof.
  intros Hd. unfold isspace, digit. rewrite nat_ascii_embedding by lia.
  apply not_true_iff_false. intros E. apply existsb_exists in E as (n & Hn & E).
  apply Nat.eqb_eq in E. cbn in Hn. lia.
Qed.

Lemma strtoull_digits f n rest :
  0 <= n < 10 ^ Z.of_nat f -> in_u64 n -> strtoull 0 (digits f n rest) = strtoull n rest.
Proof.
  revert n rest. induction f as [|f IH]; intros n rest Hn Hu; cbn [digits]; [cbn in Hn; f_equal; lia|].
  assert (Hm : 0 <= n mod 10 <= 9) by (pose proof (Z.mod_pos_bound n 10); lia).
  destruct (Z.ltb_spec n 10).
  - cbn [strtoull]. rewrite isdigit_digit, digit_ok by lia. by rewrite u64_small.
  - rewrite IH.
    + cbn [strtoull]. rewrite isdigit_digit, digit_ok by done.
      f_equal. rewrite <- (u64_small n Hu) at 3. f_equal. pose proof (Z.div_mod n 10). lia.
    + replace (Z.of_nat (S f)) with (Z.of_nat f + 1) in Hn by lia. rewrite Z.pow_add_r in Hn by lia.
      split; [apply Z.div_pos; lia | apply Z.div_lt_upper_bound; lia].
    + unfold in_u64 in *. split; [apply Z.div_pos; lia | apply Z.div_lt_upper_bound; lia].
Qed.

(** The digits printed, followed by [rest]. *)
Lemma digits_shape f n rest :
  0 <= n < 10 ^ Z.of_nat f -> (0 < f)%nat ->
  exists c s, digits f n rest = String c s /\ isdigit c = true /\ isspace c = false.
Proof.
  revert n rest. induction f as [|f IH]; intros n rest Hn Hf; [lia|]. cbn [digits].
  destruct (Z.ltb_spec n 10).
  - eexists _, _. split; [done|]. split; [apply isdigit_digit | apply isspace_digit]; lia.
  - replace (Z.of_nat (S f)) with (Z.of_nat f + 1) in Hn by lia. rewrite Z.pow_add_r in Hn by lia.
    apply IH; [|destruct f; [cbn in Hn|]; lia].
    split; [apply Z.div_pos; lia | apply Z.div_lt_upper_bound; lia].
Qed.

Lemma in_u64_digits n : in_u64 n -> 0 <= n < 10 ^ Z.of_nat 20.
Proof. unfold in_u64. change (Z.of_nat 20) with 20. lia. Qed.

Lemma scan_show rest n :
  in_u64 n -> (match rest with String c _ => isdigit c = false | EmptyString => True end) ->
  scan_llu (digits 20 n rest) = Some n.
Proof.
  intros Hn Hr. destruct (digits_shape 20 n rest (in_u64_digits n Hn)) as (c & s & E & Hd & Hs); [lia|].
  unfold scan_llu. rewrite E. cbn [skip_spaces]. rewrite Hs, Hd, <- E.
  rewrite strtoull_digits by (done || by apply in_u64_digits). destruct rest as [|c' r]; cbn; [done|].
  by rewrite Hr.
Qed.

(** A word: characters other than spaces. *)
Fixpoint word (s : string) : bool :=
  match s with
  | String c s' => (negb (isspace c) && word s')%bool
  | EmptyString => true
  end.

#[local] Arguments isspace : simpl never.
#[local] Arguments isdigit : simpl never.

Lemma string_app_nil s : "" +:+ s = s.
Proof. reflexivity. Qed.

Lemma string_app_cons c a b : String c a +:+ b = String c (a +:+ b).
Proof. reflexivity. Qed.

Lemma scan_word_app w s c rest :
  word s = true -> (String.length s <= w)%nat -> isspace c = true ->
  scan_word w (s +:+ String c rest) = (s, String c rest).
Proof.
  revert w. induction s as [|x s IH]; intros w Hs Hl Hc; rewrite ?string_app_nil, ?string_app_cons; cbn in *.
  - destruct w; cbn; by rewrite ?Hc.
  - apply andb_prop in Hs as [Hx Hs]. apply negb_true_iff in Hx. destruct w as [|w]; [lia|].
    cbn. rewrite Hx. rewrite IH; [done | done | lia | done].
Qed.

Lemma digits_word f n rest :
  0 <= n -> word rest = true ->
  word (digits f n rest) = true /\ (String.length (digits f n rest) <= f + String.length rest)%nat.
Proof.
  revert n rest. induction f as [|f IH]; intros n rest Hn Hr; cbn [digits]; [by split|].
  assert (Hm : 0 <= n mod 10 <= 9) by (pose proof (Z.mod_pos_bound n 10); lia).
  destruct (Z.ltb_spec n 10).
  - cbn. rewrite isspace_digit, Hr by lia. split; [done | lia].
  - destruct (IH (n / 10) (String (digit (n mod 10)) rest)) as [Hw Hl].
    + apply Z.div_pos; lia.
    + cbn. by rewrite isspace_digit, Hr.
    + split; [done|]. cbn in Hl. lia.
Qed.

Lemma digits_app f n a b : digits f n (a +:+ b) = digits f n a +:+ b.
Proof.
  revert n a. induction f as [|f IH]; intros n a; cbn [digits]; [done|].
  destruct (n <? 10); [done|]. apply (IH (n / 10) (String (digit (n mod 10)) a)).
Qed.

Lemma show_llu_word n :
  0 <= n -> word (show_llu n) = true /\ (String.length (show_llu n) <= 20)%nat.
Proof. intros Hn. destruct (digits_word 20 n "" Hn eq_refl) as [? Hl]. split; [done|]. rewrite Nat.add_0_r in Hl. exact Hl. Qed.

Lemma scan_show_llu n : in_u64 n -> scan_llu (show_llu n) = Some n.
Proof. intros. by apply scan_show. Qed.

Lemma scan_show_line n c rest :
  in_u64 n -> isdigit c = false -> scan_llu (show_llu n +:+ String c rest) = Some n.
Proof.
  intros Hn Hc. unfold show_llu. rewrite <- digits_app. by apply scan_show.
Qed.

Lemma skip_spaces_word s : word s = true -> skip_spaces s = s.
Proof. destruct s; cbn; [done|]. intros [Hx _]%andb_prop. apply negb_true_iff in Hx. by rewrite Hx. Qed.
