(* ===== verification/Cgroup.v ===== *)
(** The cpu controller (core.c): task groups, their CFS bandwidth limits and
    their weights, with the control files that read and write them.

    [CgroupHeaders] has the constants of kernel/sched/sched.h and of the cgroup
    headers; [CgroupExtern] the functions of fair.c, rt.c, autogroup.c and the
    cgroup core that core.c calls. *)
From Stdlib Require Import Ascii.
From S2P Require Import Prelude Headers Proc Kernel Extern RqClock Uclamp Prio TgTree Text.

#[local] Open Scope string_scope.
#[local] Open Scope list_scope.
#[local] Open Scope Z_scope.

Class CgroupHeaders := {
  BW_SHIFT : Z; BW_UNIT : Z; MAX_BW : Z; RUNTIME_INF : Z;
  NSEC_PER_USEC : Z; NSEC_PER_MSEC : Z; NSEC_PER_SEC : Z; U64_MAX : Z;
  MIN_SHARES : Z; MAX_SHARES : Z; scale_load_down : Z -> Z;
  CGROUP_WEIGHT_MIN : Z; CGROUP_WEIGHT_DFL : Z; CGROUP_WEIGHT_MAX : Z;
  TASK_SET_GROUP : Z; TASK_MOVE_GROUP : Z;
  tg_zero : task_group;          (* a zeroed [struct task_group] *)
}.

Class CgroupExtern := {
  cgroup_subsys_on_dfl : bool;
  (** slab; 0 when out of memory *)
  task_group_alloc : machine -> Z;
  (** fair.c, rt.c, autogroup.c *)
  alloc_fair_sched_group : Z -> Z -> K bool;
  alloc_rt_sched_group : Z -> Z -> K bool;
  free_fair_sched_group : Z -> K unit;
  free_rt_sched_group : Z -> K unit;
  autogroup_free : Z -> K unit;
  unregister_fair_sched_group : Z -> K unit;
  unregister_rt_sched_group : Z -> K unit;
  online_fair_sched_group : Z -> K unit;
  sched_group_set_shares : Z -> Z -> K (cres unit);
  sched_group_set_idle : Z -> Z -> K (cres unit);
  sched_rt_can_attach : Z -> Z -> K bool;
  __refill_cfs_bandwidth_runtime : Z -> K unit;
  start_cfs_bandwidth : Z -> K unit;
  unthrottle_cfs_rq : Z -> K unit;
  (** the group of a task: its cgroup's, unless it is in an autogroup *)
  task_css_tg : Z -> K Z;
  autogroup_task_group : Z -> Z -> K Z;
  has_task_change_group : sched_class -> bool;
  cl_task_change_group : sched_class -> Z -> Z -> K unit;
  set_task_rq : Z -> Z -> K unit;
  (** whether schedstats are collected, and a group's total wait time *)
  schedstat_wait_sum : Z -> K (option Z);
}.

Section Cgroup.
Context {H : Headers} {X : Extern} {CH : CgroupHeaders} {G : CgroupExtern}.

(** * Task groups *)
Definition alloc_uclamp_sched_group (tg parent : Z) : K unit :=
  mapM_ (fun clamp_id =>
    upd! tg ⇝ tg_uclamp_req := (fun c =>
      pc_set clamp_id (uclamp_se_set (pc_get clamp_id c) (uclamp_none clamp_id) false) c) ;;
    u ← parent ⇝ tg_uclamp;
    upd! tg ⇝ tg_uclamp := (fun c => pc_set clamp_id (pc_get clamp_id u) c)) for_each_clamp_id.

Definition sched_free_group (tg : Z) : K unit :=
  free_fair_sched_group tg ;;
  free_rt_sched_group tg ;;
  autogroup_free tg ;;
  free_obj (R := task_group) tg ;;
  free_obj (R := cfs_bandwidth) tg.

(** The RCU callback. *)
Definition sched_free_group_rcu (tg : Z) : K unit := sched_free_group tg.

Definition sched_unregister_group (tg : Z) : K unit :=
  unregister_fair_sched_group tg ;;
  unregister_rt_sched_group tg ;;
  emit "call_rcu sched_free_group_rcu" [tg].

Definition bw_zero : cfs_bandwidth := Mk_bw 0 0 0 0 0 0 0 0 0 0.

Definition sched_create_group (parent : Z) : K (cres Z) :=
  tg ← gets task_group_alloc;
  if tg =? NULL then mret (Err ENOMEM)
  else
    modify (fun m => m <| m_tgs := <[tg := tg_zero]> (m_tgs m) |>
                       <| m_cfs_bw := <[tg := bw_zero]> (m_cfs_bw m) |>) ;;
    let err := sched_free_group tg ;; mret (Err ENOMEM) in
    ok ← alloc_fair_sched_group tg parent;
    if negb ok then err
    else
      ok ← alloc_rt_sched_group tg parent;
      if negb ok then err
      else
        alloc_uclamp_sched_group tg parent ;;
        mret (Ok tg).

Definition sched_online_group (tg parent : Z) : K unit :=
  l ← gets m_task_groups;
  setg m_task_groups (tg :: l) ;;
  when (parent =? NULL) (emit "WARN_ON" []) ;;
  set! tg ⇝ tg_parent := parent ;;
  set! tg ⇝ tg_children := [] ;;
  upd! parent ⇝ tg_children := (fun c => tg :: c) ;;
  online_fair_sched_group tg.

Definition sched_unregister_group_rcu (tg : Z) : K unit := sched_unregister_group tg.

Definition sched_destroy_group (tg : Z) : K unit :=
  emit "call_rcu sched_unregister_group_rcu" [tg].

(** Both lists a group is on. *)
Definition sched_release_group (tg : Z) : K unit :=
  l ← gets m_task_groups;
  setg m_task_groups (List.filter (fun x => negb (x =? tg)) l) ;;
  parent ← tg ⇝ tg_parent;
  upd! parent ⇝ tg_children := List.filter (fun x => negb (x =? tg)).

Definition sched_change_group (tsk type : Z) : K unit :=
  tg ← task_css_tg tsk;
  tg ← autogroup_task_group tsk tg;
  set! tsk ⇝ ts_task_group := tg ;;
  t ← deref (R := task_struct) tsk;
  if has_task_change_group (ts_class t) then cl_task_change_group (ts_class t) tsk type
  else set_task_rq tsk (ts_cpu t).

Definition sched_move_task (tsk : Z) : K unit :=
  let queue_flags := Z.lor (Z.lor DEQUEUE_SAVE DEQUEUE_MOVE) DEQUEUE_NOCLOCK in
  t ← deref (R := task_struct) tsk;
  let r := ts_cpu t in
  update_rq_clock r ;;
  running ← task_current r tsk;
  t ← deref (R := task_struct) tsk;
  let queued := task_on_rq_queued t in
  when queued (dequeue_task r tsk queue_flags) ;;
  when running (put_prev_task r tsk) ;;
  sched_change_group tsk TASK_MOVE_GROUP ;;
  when queued (enqueue_task r tsk queue_flags) ;;
  when running (set_next_task r tsk ;; resched_curr r).

(** ** The cgroup callbacks; a css is the address of its group *)
Definition cpu_cgroup_css_alloc (parent : Z) : K (cres Z) :=
  if parent =? NULL then root ← gets m_root_task_group; mret (Ok root)
  else
    r ← sched_create_group parent;
    match r with Err _ => mret (Err ENOMEM) | Ok tg => mret (Ok tg) end.

Definition cpu_cgroup_css_online (fuel : nat) (tg parent : Z) : K (cres unit) :=
  when (negb (parent =? NULL)) (sched_online_group tg parent) ;;
  cpu_util_update_eff fuel tg ;;
  mret (Ok tt).

Definition cpu_cgroup_css_released (tg : Z) : K unit := sched_release_group tg.

Definition cpu_cgroup_css_free (tg : Z) : K unit := sched_unregister_group tg.

Definition cpu_cgroup_fork (task : Z) : K unit :=
  r ← task ⇝ ts_cpu;
  update_rq_clock r ;;
  sched_change_group task TASK_SET_GROUP.

(** A task set lists the tasks to move with the group they go to. *)
Fixpoint cpu_cgroup_can_attach (tset : list (Z * Z)) : K (cres unit) :=
  match tset with
  | [] => mret (Ok tt)
  | (task, tg) :: tset' =>
      ok ← sched_rt_can_attach tg task;
      if negb ok then mret (Err EINVAL)
      else
        st ← task ⇝ ts_state;
        if st =? TASK_NEW then mret (Err EINVAL) else cpu_cgroup_can_attach tset'
  end.

Definition cpu_cgroup_attach (tset : list (Z * Z)) : K unit :=
  mapM_ (fun x => sched_move_task x.1) tset.

(** * Bandwidth *)
Definition to_ratio (period runtime : Z) : Z :=
  if runtime =? RUNTIME_INF then BW_UNIT
  else if period =? 0 then 0
  else u64 (Z.shiftl runtime BW_SHIFT) / period.

Definition max_cfs_quota_period : Z := 1 * NSEC_PER_SEC.
Definition min_cfs_quota_period : Z := 1 * NSEC_PER_MSEC.
Definition max_cfs_runtime : Z := u64 (MAX_BW * NSEC_PER_USEC).

Definition tg_get_cfs_quota (tg : Z) : K Z :=
  b ← deref (R := cfs_bandwidth) tg;
  if bw_quota b =? RUNTIME_INF then mret (-1)
  else mret (s64 (bw_quota b / NSEC_PER_USEC)).

Definition tg_get_cfs_period (tg : Z) : K Z :=
  b ← deref (R := cfs_bandwidth) tg; mret (s64 (u64 (bw_period b) / NSEC_PER_USEC)).

Definition tg_get_cfs_burst (tg : Z) : K Z :=
  b ← deref (R := cfs_bandwidth) tg; mret (s64 (bw_burst b / NSEC_PER_USEC)).

Record cfs_schedulable_data : Type := Mk_csd { csd_tg : Z; csd_period : Z; csd_quota : Z }.

Definition normalize_cfs_quota (tg : Z) (d : cfs_schedulable_data) : K Z :=
  pq ← (if tg =? csd_tg d then mret (csd_period d, csd_quota d)
        else period ← tg_get_cfs_period tg; quota ← tg_get_cfs_quota tg; mret (u64 period, u64 quota));
  if ((pq.2 =? RUNTIME_INF) || (pq.2 =? u64 (-1)))%bool then mret RUNTIME_INF
  else mret (to_ratio pq.1 pq.2).

(** [quota] and [parent_quota] are signed: [RUNTIME_INF] is stored as -1. *)
Definition tg_cfs_schedulable_down (d : cfs_schedulable_data) (tg : Z) : K Z :=
  parent ← tg ⇝ tg_parent;
  let store quota := set! tg ⇝ bw_hierarchical_quota := quota ;; mret 0 in
  if parent =? NULL then store (s64 RUNTIME_INF)
  else
    n ← normalize_cfs_quota tg d;
    let quota := s64 n in
    parent_quota ← parent ⇝ bw_hierarchical_quota;
    if cgroup_subsys_on_dfl then store (Z.min quota parent_quota)
    else if u64 quota =? RUNTIME_INF then store parent_quota
    else if (negb (u64 parent_quota =? RUNTIME_INF) && (parent_quota <? quota))%bool then mret (-22)
    else store quota.

(** The walk returns 0 or -EINVAL, which is -22. *)
Definition __cfs_schedulable (tg period quota : Z) : K (cres unit) :=
  let data := if quota =? RUNTIME_INF then Mk_csd tg period quota
              else Mk_csd tg (period / NSEC_PER_USEC) (quota / NSEC_PER_USEC) in
  root ← gets m_root_task_group;
  ret ← walk_tg_tree_from (tg_cfs_schedulable_down data) tg_nop root;
  mret (if truthy ret then Err EINVAL else Ok tt).

(** [tg->cfs_rq[i]] *)
Definition tg_cfs_rq_of (tg i : Z) : K Z :=
  l ← tg ⇝ tg_cfs_rq;
  match l !! Z.to_nat i with Some c => mret c | None => stuck EFAULT_PTR end.

Definition tg_set_cfs_rq (tg runtime_enabled i : Z) : K unit :=
  c ← tg_cfs_rq_of tg i;
  set! c ⇝ cfs_runtime_enabled := runtime_enabled ;;
  set! c ⇝ cfs_runtime_remaining := 0 ;;
  throttled ← c ⇝ cfs_throttled;
  when (truthy throttled) (unthrottle_cfs_rq c).

(** What the limits must satisfy, in the order of the tests. *)
Definition cfs_limits_ok (period quota burst : Z) : bool :=
  (negb ((quota <? min_cfs_quota_period) || (period <? min_cfs_quota_period)) &&
   negb (max_cfs_quota_period <? period) &&
   negb (negb (quota =? RUNTIME_INF) && (max_cfs_runtime <? quota)) &&
   negb (negb (quota =? RUNTIME_INF) &&
         ((quota <? burst) || (max_cfs_runtime <? u64 (burst + quota)))))%bool.

Definition tg_set_cfs_bandwidth (tg period quota burst : Z) : K (cres unit) :=
  root ← gets m_root_task_group;
  if tg =? root then mret (Err EINVAL)
  else if negb (cfs_limits_ok period quota burst) then mret (Err EINVAL)
  else
    r ← __cfs_schedulable tg period quota;
    match r with
    | Err e => mret (Err e)
    | Ok _ =>
        let runtime_enabled := negb (quota =? RUNTIME_INF) in
        old ← tg ⇝ bw_quota;
        let runtime_was_enabled := negb (old =? RUNTIME_INF) in
        when (runtime_enabled && negb runtime_was_enabled) (emit "cfs_bandwidth_usage_inc" []) ;;
        upd_obj tg (fun b => b <| bw_period := s64 period |> <| bw_quota := quota |> <| bw_burst := burst |>) ;;
        __refill_cfs_bandwidth_runtime tg ;;
        when runtime_enabled (start_cfs_bandwidth tg) ;;
        online ← gets m_cpu_online;
        mapM_ (tg_set_cfs_rq tg (b2z runtime_enabled)) (for_each_cpu online) ;;
        when (runtime_was_enabled && negb runtime_enabled) (emit "cfs_bandwidth_usage_dec" []) ;;
        mret (Ok tt)
    end.

Definition tg_set_cfs_quota (tg cfs_quota_us : Z) : K (cres unit) :=
  b ← deref (R := cfs_bandwidth) tg;
  let period := u64 (bw_period b) in
  let burst := bw_burst b in
  if cfs_quota_us <? 0 then tg_set_cfs_bandwidth tg period RUNTIME_INF burst
  else if u64 cfs_quota_us <=? U64_MAX / NSEC_PER_USEC then
    tg_set_cfs_bandwidth tg period (u64 (u64 cfs_quota_us * NSEC_PER_USEC)) burst
  else mret (Err EINVAL).

Definition tg_set_cfs_period (tg cfs_period_us : Z) : K (cres unit) :=
  if U64_MAX / NSEC_PER_USEC <? u64 cfs_period_us then mret (Err EINVAL)
  else
    b ← deref (R := cfs_bandwidth) tg;
    tg_set_cfs_bandwidth tg (u64 (u64 cfs_period_us * NSEC_PER_USEC)) (bw_quota b) (bw_burst b).

Definition tg_set_cfs_burst (tg cfs_burst_us : Z) : K (cres unit) :=
  if U64_MAX / NSEC_PER_USEC <? u64 cfs_burst_us then mret (Err EINVAL)
  else
    b ← deref (R := cfs_bandwidth) tg;
    tg_set_cfs_bandwidth tg (u64 (bw_period b)) (bw_quota b) (u64 (u64 cfs_burst_us * NSEC_PER_USEC)).

(** ** Control files: cpu.cfs_quota_us, cpu.cfs_period_us, cpu.cfs_burst_us *)
Definition cpu_cfs_quota_read_s64 (tg : Z) : K Z := tg_get_cfs_quota tg.
Definition cpu_cfs_quota_write_s64 (tg cfs_quota_us : Z) : K (cres unit) := tg_set_cfs_quota tg cfs_quota_us.
Definition cpu_cfs_period_read_u64 (tg : Z) : K Z := v ← tg_get_cfs_period tg; mret (u64 v).
(** The argument is u64 and the callee takes a long. *)
Definition cpu_cfs_period_write_u64 (tg cfs_period_us : Z) : K (cres unit) :=
  tg_set_cfs_period tg (s64 cfs_period_us).
Definition cpu_cfs_burst_read_u64 (tg : Z) : K Z := v ← tg_get_cfs_burst tg; mret (u64 v).
Definition cpu_cfs_burst_write_u64 (tg cfs_burst_us : Z) : K (cres unit) :=
  tg_set_cfs_burst tg (s64 cfs_burst_us).

(** The lines of cpu.stat: a key and a number each. *)
Definition cpu_cfs_stat_show (tg : Z) : K (list (string * Z)) :=
  b ← deref (R := cfs_bandwidth) tg;
  root ← gets m_root_task_group;
  ws ← (if tg =? root then mret None else schedstat_wait_sum tg);
  mret ([("nr_periods", bw_nr_periods b); ("nr_throttled", bw_nr_throttled b);
         ("throttled_time", bw_throttled_time b)] ++
        match ws with Some w => [("wait_sum", w)] | None => [] end ++
        [("nr_bursts", bw_nr_burst b); ("burst_time", bw_burst_time b)]).

Definition cpu_extra_stat_show (tg : Z) : K (list (string * Z)) :=
  b ← deref (R := cfs_bandwidth) tg;
  mret [("nr_periods", bw_nr_periods b); ("nr_throttled", bw_nr_throttled b);
        ("throttled_usec", bw_throttled_time b / NSEC_PER_USEC); ("nr_bursts", bw_nr_burst b);
        ("burst_usec", bw_burst_time b / NSEC_PER_USEC)].

(** ** cpu.max *)
Definition cpu_period_quota_print (period quota : Z) : string :=
  (if quota <? 0 then "max" else show_ld quota) +:+ (" " +:+ show_ld period +:+ newline).

(** [periodp] holds the current value when the text has no period. *)
Definition cpu_period_quota_parse (buf : string) (periodp : Z) : cres (Z * Z) :=
  if String.eqb buf "" then Err EINVAL
  else
    let '(tok, rest) := scan_word 20 (skip_spaces buf) in
    let period := match scan_llu rest with Some p => p | None => periodp end in
    let period := u64 (period * NSEC_PER_USEC) in
    match scan_llu tok with
    | Some q => Ok (period, u64 (q * NSEC_PER_USEC))
    | None => if String.eqb tok "max" then Ok (period, RUNTIME_INF) else Err EINVAL
    end.

Definition cpu_max_show (tg : Z) : K string :=
  period ← tg_get_cfs_period tg;
  quota ← tg_get_cfs_quota tg;
  mret (cpu_period_quota_print period quota).

Definition cpu_max_write (tg : Z) (buf : string) (nbytes : Z) : K (cres Z) :=
  period ← tg_get_cfs_period tg;
  burst ← tg_get_cfs_burst tg;
  match cpu_period_quota_parse buf (u64 period) with
  | Err e => mret (Err e)
  | Ok (period, quota) =>
      r ← tg_set_cfs_bandwidth tg period quota (u64 burst);
      match r with Err e => mret (Err e) | Ok _ => mret (Ok nbytes) end
  end.

(** * Weights *)
Definition ULONG_MAX : Z := 2 ^ 64 - 1.
Definition DIV_ROUND_CLOSEST_ULL (x divisor : Z) : Z := u64 (x + divisor / 2) / divisor.

Definition cpu_shares_write_u64 (tg shareval : Z) : K (cres unit) :=
  let shareval := if scale_load_down ULONG_MAX <? shareval then MAX_SHARES else shareval in
  sched_group_set_shares tg (scale_load shareval).

Definition cpu_shares_read_u64 (tg : Z) : K Z :=
  s ← tg ⇝ tg_shares; mret (scale_load_down s).

Definition cpu_weight_read_u64 (tg : Z) : K Z :=
  s ← tg ⇝ tg_shares;
  let weight := scale_load_down s in
  mret (DIV_ROUND_CLOSEST_ULL (u64 (weight * CGROUP_WEIGHT_DFL)) 1024).

Definition cpu_weight_write_u64 (tg weight : Z) : K (cres unit) :=
  if ((weight <? CGROUP_WEIGHT_MIN) || (CGROUP_WEIGHT_MAX <? weight))%bool then mret (Err ERANGE)
  else
    let weight := DIV_ROUND_CLOSEST_ULL (u64 (weight * 1024)) CGROUP_WEIGHT_DFL in
    sched_group_set_shares tg (scale_load weight).

(** The loop over the table: [prio] and [last_delta] at its end. *)
Fixpoint closest_weight (weight prio last_delta : Z) (table : list Z) : Z :=
  match table with
  | [] => prio
  | w :: table' =>
      let delta := s32 (Z.abs (w - weight)) in
      if last_delta <=? delta then prio
      else closest_weight weight (prio + 1) delta table'
  end.

Definition INT_MAX : Z := 2 ^ 31 - 1.

Definition cpu_weight_nice_read_s64 (tg : Z) : K Z :=
  s ← tg ⇝ tg_shares;
  let prio := closest_weight (scale_load_down s) 0 INT_MAX sched_prio_to_weight in
  mret (PRIO_TO_NICE (prio - 1 + MAX_RT_PRIO)).

Definition cpu_weight_nice_write_s64 (tg nice : Z) : K (cres unit) :=
  if ((nice <? MIN_NICE) || (MAX_NICE <? nice))%bool then mret (Err ERANGE)
  else
    let idx := NICE_TO_PRIO nice - MAX_RT_PRIO in
    weight ← table_get sched_prio_to_weight idx;
    sched_group_set_shares tg (scale_load weight).

Definition cpu_idle_read_s64 (tg : Z) : K Z := tg ⇝ tg_idle.
Definition cpu_idle_write_s64 (tg idle : Z) : K (cres unit) := sched_group_set_idle tg idle.
End Cgroup.
