(* ===== verification/Bandwidth.v ===== *)
(** CFS bandwidth limits of the task-group hierarchy: what
    [tg_set_cfs_bandwidth] accepts and what holds of the whole tree when it
    does. *)
From S2P Require Import Prelude Headers Proc Kernel Extern RqClock Uclamp Prio TgTree Text.
From S2P Require Import Cgroup.

#[local] Open Scope Z_scope.

(** What kernel/sched/sched.h and the cgroup headers document. *)
Class CgroupHeadersOK (H : Headers) (CH : CgroupHeaders) : Prop := {
  BW_SHIFT_val : BW_SHIFT = 20;
  MAX_BW_val : MAX_BW = 2 ^ 44 - 1;
  RUNTIME_INF_val : RUNTIME_INF = 2 ^ 64 - 1;
  U64_MAX_val : U64_MAX = 2 ^ 64 - 1;
  NSEC_vals : [NSEC_PER_USEC; NSEC_PER_MSEC; NSEC_PER_SEC] = [10 ^ 3; 10 ^ 6; 10 ^ 9];
  shares_vals : [MIN_SHARES; MAX_SHARES] = [2; 2 ^ 18];
  weight_vals : [CGROUP_WEIGHT_MIN; CGROUP_WEIGHT_DFL; CGROUP_WEIGHT_MAX] = [1; 100; 10000];
  scale_load_val : forall w, scale_load w = w * 1024;
  scale_load_down_val : forall w, 0 <= w -> scale_load_down w = if w =? 0 then 0 else Z.max 2 (w / 1024);
}.

Definition linux_cgroup_headers : CgroupHeaders := {|
  BW_SHIFT := 20; BW_UNIT := 2 ^ 20; MAX_BW := 2 ^ 44 - 1; RUNTIME_INF := 2 ^ 64 - 1;
  NSEC_PER_USEC := 1000; NSEC_PER_MSEC := 1000000; NSEC_PER_SEC := 1000000000; U64_MAX := 2 ^ 64 - 1;
  MIN_SHARES := 2; MAX_SHARES := 2 ^ 18;
  scale_load_down w := if w =? 0 then 0 else Z.max 2 (w / 1024);
  CGROUP_WEIGHT_MIN := 1; CGROUP_WEIGHT_DFL := 100; CGROUP_WEIGHT_MAX := 10000;
  TASK_SET_GROUP := 0; TASK_MOVE_GROUP := 1;
  tg_zero := let z := PerClamp (Mk_uclamp_se 0 0 false false) (Mk_uclamp_se 0 0 false false) in
    Mk_tg z z (PerClamp 0 0) false 0 0 [] [] 0 0 [];
|}.

#[export] Instance linux_cgroup_headers_ok : CgroupHeadersOK linux_headers linux_cgroup_headers.
Proof. split; reflexivity. Qed.

(** The configuration of a group's bandwidth: everything but the cached
    hierarchical quota and the counters the fair class maintains. *)
Definition bw_limits (b : cfs_bandwidth) : Z * Z * Z := (bw_period b, bw_quota b, bw_burst b).

(** What the fair class keeps when the bandwidth of a group is restarted. *)
Record bw_frame (m m' : machine) : Prop := {
  bf_tgs : m_tgs m' = m_tgs m;
  bf_root : m_root_task_group m' = m_root_task_group m;
  bf_online : m_cpu_online m' = m_cpu_online m;
  bf_limits : bw_limits <$> m_cfs_bw m' = bw_limits <$> m_cfs_bw m;
  bf_hier : bw_hierarchical_quota <$> m_cfs_bw m' = bw_hierarchical_quota <$> m_cfs_bw m;
  bf_cfs_rqs : dom (m_cfs_rqs m') = dom (m_cfs_rqs m);
}.

#[export] Instance bw_frame_preorder : PreOrder bw_frame.
Proof.
  split; [by split|]. intros m1 m2 m3 [] []. split; congruence.
Qed.

Class BandwidthExternOK (G : CgroupExtern) : Prop := {
  refill_ok tg m : is_Some (m_cfs_bw m !! tg) ->
    wp (__refill_cfs_bandwidth_runtime tg) (fun _ => bw_frame m) m;
  start_ok tg m : is_Some (m_cfs_bw m !! tg) -> wp (start_cfs_bandwidth tg) (fun _ => bw_frame m) m;
  unthrottle_ok c m : is_Some (m_cfs_rqs m !! c) -> wp (unthrottle_cfs_rq c) (fun _ => bw_frame m) m;
}.

Section Limits.
Context {H : Headers} {X : Extern} {CH : CgroupHeaders} {G : CgroupExtern}.
Context {HOK : HeadersOK H} {CHOK : CgroupHeadersOK H CH}.

Lemma NSEC_PER_USEC_val : NSEC_PER_USEC = 1000.
Proof. exact (f_equal (fun l => nth 0 l 0) NSEC_vals). Qed.
Lemma NSEC_PER_MSEC_val : NSEC_PER_MSEC = 10 ^ 6.
Proof. exact (f_equal (fun l => nth 1 l 0) NSEC_vals). Qed.
Lemma NSEC_PER_SEC_val : NSEC_PER_SEC = 10 ^ 9.
Proof. exact (f_equal (fun l => nth 2 l 0) NSEC_vals). Qed.

(** * The constraint on the hierarchy *)

(** Limits that fit their fields: [tg_set_cfs_bandwidth] stores no others. *)
Definition bw_wf (b : cfs_bandwidth) : Prop :=
  10 ^ 6 <= bw_period b <= 10 ^ 9 /\
  (bw_quota b = RUNTIME_INF \/ 10 ^ 6 <= bw_quota b <= max_cfs_runtime).

(** The share of a CPU a group may use, as a fixed-point ratio; [None] is no
    limit. *)
Definition bw_limit (b : cfs_bandwidth) : option Z :=
  if bw_quota b =? RUNTIME_INF then None
  else Some (to_ratio (bw_period b / 1000) (bw_quota b / 1000)).

Section Feasible.
Context (lim : Z -> option Z).

Definition within (q : Z) (cap : option Z) : bool := match cap with None => true | Some c => q <=? c end.

(** No group's ratio exceeds that of its nearest limited ancestor. *)
Fixpoint feasible (cap : option Z) (t : tg_tree) : bool :=
  match t with
  | Node tg kids =>
      match lim tg with
      | None => forallb (feasible cap) kids
      | Some q => (within q cap && forallb (feasible (Some q)) kids)%bool
      end
  end.

Definition feasible_tree (t : tg_tree) : bool :=
  match t with Node _ kids => forallb (feasible None) kids end.
End Feasible.

(** The limit the walk uses for a group: the requested one for the group that
    is being changed. *)
Definition walk_limit (d : cfs_schedulable_data) (B : gmap Z cfs_bandwidth) (tg : Z) : option Z :=
  if tg =? csd_tg d then
    if csd_quota d =? RUNTIME_INF then None else Some (to_ratio (csd_period d) (csd_quota d))
  else match B !! tg with Some b => bw_limit b | None => None end.

(** A limit as [hierarchical_quota] stores it. *)
Definition enc (cap : option Z) : Z := match cap with None => -1 | Some q => q end.
Definition cap_wf (cap : option Z) : Prop := match cap with None => True | Some q => 0 <= q < 2 ^ 63 end.

Lemma max_cfs_runtime_val : max_cfs_runtime = (2 ^ 44 - 1) * 1000.
Proof. unfold max_cfs_runtime. by rewrite MAX_BW_val, NSEC_PER_USEC_val. Qed.

Lemma to_ratio_wf p q : 2 <= p -> q <> RUNTIME_INF -> 0 <= to_ratio p q < 2 ^ 63.
Proof.
  intros Hp Hq. unfold to_ratio. destruct (Z.eqb_spec q RUNTIME_INF); [done|].
  destruct (Z.eqb_spec p 0); [lia|]. pose proof (u64_range (Z.shiftl q BW_SHIFT)) as Hr. unfold in_u64 in Hr.
  split; [apply Z.div_pos; lia|]. apply Z.div_lt_upper_bound; lia.
Qed.

Lemma bw_wf_quota_div b : bw_wf b -> bw_quota b <> RUNTIME_INF -> 0 <= bw_quota b / 1000 < 2 ^ 44.
Proof.
  intros [_ Hq] Hn. destruct Hq as [?|Hq]; [done|]. rewrite max_cfs_runtime_val in Hq.
  split; [apply Z.div_pos; lia | apply Z.div_lt_upper_bound; lia].
Qed.

Lemma bw_wf_period_div b : bw_wf b -> 1000 <= bw_period b / 1000 <= 10 ^ 6.
Proof.
  intros [Hp _]. split; [apply Z.div_le_lower_bound; lia | apply Z.div_le_upper_bound; lia].
Qed.

Definition data_wf (d : cfs_schedulable_data) : Prop :=
  csd_quota d = RUNTIME_INF \/ (2 <= csd_period d /\ 0 <= csd_quota d < 2 ^ 63).

Lemma walk_limit_wf d B tg :
  data_wf d -> map_Forall (fun _ => bw_wf) B -> cap_wf (walk_limit d B tg).
Proof.
  intros Hd HB. unfold walk_limit. destruct (tg =? csd_tg d).
  - destruct (Z.eqb_spec (csd_quota d) RUNTIME_INF); [done|]. destruct Hd as [?|[Hp _]]; [done|].
    by apply to_ratio_wf.
  - destruct (B !! tg) as [b|] eqn:Eb; [|done]. apply HB in Eb. unfold bw_limit.
    destruct (Z.eqb_spec (bw_quota b) RUNTIME_INF) as [|Hn]; [done|]. apply to_ratio_wf.
    + pose proof (bw_wf_period_div b Eb). lia.
    + pose proof (bw_wf_quota_div b Eb Hn). rewrite RUNTIME_INF_val. lia.
Qed.

(** * One step of the walk *)
Lemma s64_INF : s64 RUNTIME_INF = -1.
Proof. by rewrite RUNTIME_INF_val. Qed.

Lemma s64_cap q : 0 <= q < 2 ^ 63 -> s64 q = q.
Proof. intros. apply s64_small. unfold in_s64. lia. Qed.

(** The reads of a well-formed group's limits, in microseconds. *)
Lemma get_period tg b (m : machine) :
  m_cfs_bw m !! tg = Some b -> bw_wf b -> tg_get_cfs_period tg m = Ret (bw_period b / 1000) m.
Proof.
  intros Hb Hw. pose proof (bw_wf_period_div b Hw). destruct Hw as [Hp _].
  unfold tg_get_cfs_period, deref, mbind, M_bind. cbn [store bw_store]. rewrite Hb.
  rewrite NSEC_PER_USEC_val, (u64_small (bw_period b)) by (unfold in_u64; lia). by rewrite s64_cap by lia.
Qed.

Definition quota_us (b : cfs_bandwidth) : Z := if bw_quota b =? RUNTIME_INF then -1 else bw_quota b / 1000.

Lemma get_quota tg b (m : machine) :
  m_cfs_bw m !! tg = Some b -> bw_wf b -> tg_get_cfs_quota tg m = Ret (quota_us b) m.
Proof.
  intros Hb Hw. unfold tg_get_cfs_quota, quota_us, deref, mbind, M_bind. cbn [store bw_store]. rewrite Hb.
  destruct (Z.eqb_spec (bw_quota b) RUNTIME_INF) as [|Hn]; [done|].
  pose proof (bw_wf_quota_div b Hw Hn). by rewrite NSEC_PER_USEC_val, s64_cap by lia.
Qed.

Lemma normalize_val d tg b (m : machine) :
  data_wf d -> m_cfs_bw m !! tg = Some b -> bw_wf b ->
  exists n, normalize_cfs_quota tg d m = Ret n m /\ s64 n = enc (walk_limit d (m_cfs_bw m) tg).
Proof.
  intros Hd Hb Hw. unfold normalize_cfs_quota, walk_limit. destruct (tg =? csd_tg d).
  - unfold mbind, M_bind, mret, M_ret. cbn [fst snd]. destruct (Z.eqb_spec (csd_quota d) RUNTIME_INF) as [E|E].
    + exists RUNTIME_INF. rewrite E. cbn. split; [done | apply s64_INF].
    + destruct Hd as [?|[Hp Hq]]; [done|].
      replace (csd_quota d =? u64 (-1)) with false by (change (u64 (-1)) with (2 ^ 64 - 1); lia).
      eexists. split; [done|]. cbn. apply s64_cap. by apply to_ratio_wf.
  - rewrite Hb. unfold mbind at 2, M_bind at 2. unfold mbind at 1, M_bind at 1. rewrite (get_period tg b) by done.
    unfold mbind at 1, M_bind at 1. rewrite (get_quota tg b) by done. unfold mret at 1, M_ret at 1.
    cbn [fst snd]. unfold bw_limit, quota_us. destruct (Z.eqb_spec (bw_quota b) RUNTIME_INF) as [E|E].
    + exists RUNTIME_INF. split; [|apply s64_INF]. rewrite RUNTIME_INF_val. done.
    + pose proof (bw_wf_quota_div b Hw E) as Hq. pose proof (bw_wf_period_div b Hw) as Hp.
      rewrite (u64_small (bw_quota b / 1000)), (u64_small (bw_period b / 1000)) by (unfold in_u64; lia).
      rewrite RUNTIME_INF_val.
      replace (bw_quota b / 1000 =? 2 ^ 64 - 1) with false by lia.
      replace (bw_quota b / 1000 =? u64 (-1)) with false by (change (u64 (-1)) with (2 ^ 64 - 1); lia).
      eexists. split; [done|]. cbn. apply s64_cap, to_ratio_wf; [lia|]. rewrite RUNTIME_INF_val. lia.
Qed.

Definition set_hier (tg q : Z) (b : cfs_bandwidth) (m : machine) : machine :=
  m <| m_cfs_bw := <[tg := b <| bw_hierarchical_quota := q |>]> (m_cfs_bw m) |>.

(** The step at a group below the root, in the legacy hierarchy. *)
Lemma schedulable_down_val d tg g b pb cap (m : machine) :
  cgroup_subsys_on_dfl = false -> data_wf d -> map_Forall (fun _ => bw_wf) (m_cfs_bw m) ->
  m_tgs m !! tg = Some g -> tg_parent g <> NULL -> m_cfs_bw m !! tg = Some b ->
  m_cfs_bw m !! tg_parent g = Some pb -> bw_hierarchical_quota pb = enc cap -> cap_wf cap ->
  tg_cfs_schedulable_down d tg m =
  match walk_limit d (m_cfs_bw m) tg with
  | None => Ret 0 (set_hier tg (enc cap) b m)
  | Some q => if within q cap then Ret 0 (set_hier tg q b m) else Ret (-22) m
  end.
Proof.
  intros Hdfl Hd HB Hg Hp Hb Hpb Hcap Hcw.
  destruct (normalize_val d tg b m Hd Hb (HB _ _ Hb)) as (n & En & Hn).
  pose proof (walk_limit_wf d (m_cfs_bw m) tg Hd HB) as Hlw.
  unfold tg_cfs_schedulable_down, rd, deref, wr, upd_obj, modify, mbind, M_bind, mret, M_ret.
  cbn [store tg_store bw_store]. rewrite Hg. rewrite (proj2 (Z.eqb_neq _ _) Hp), En, Hdfl, Hn.
  cbn [store tg_store bw_store]. rewrite Hpb, Hcap, RUNTIME_INF_val.
  destruct (walk_limit d (m_cfs_bw m) tg) as [q|]; cbn [enc].
  - cbn in Hlw. rewrite (u64_small q) by (unfold in_u64; lia). replace (q =? 2 ^ 64 - 1) with false by lia.
    destruct cap as [c|]; cbn [enc within].
    + cbn in Hcw. rewrite (u64_small c) by (unfold in_u64; lia). replace (c =? 2 ^ 64 - 1) with false by lia.
      cbn [negb andb]. destruct (Z.leb_spec q c).
      * replace (c <? q) with false by lia. unfold deref. cbn [store bw_store]. by rewrite Hb.
      * replace (c <? q) with true by lia. done.
    + change (u64 (-1) =? 2 ^ 64 - 1) with true. cbn. unfold deref. cbn [store bw_store]. by rewrite Hb.
  - change (u64 (-1) =? 2 ^ 64 - 1) with true. unfold deref. cbn [store bw_store]. by rewrite Hb.
Qed.

(** * The walk over the hierarchy *)
Definition no_hier (b : cfs_bandwidth) : cfs_bandwidth := b <| bw_hierarchical_quota := 0 |>.

(** Only the cached quotas of the groups in [nodes] change. *)
Record hier_frame (nodes : list Z) (m m' : machine) : Prop := {
  hf_rest : m' = m <| m_cfs_bw := m_cfs_bw m' |>;
  hf_bw : no_hier <$> m_cfs_bw m' = no_hier <$> m_cfs_bw m;
  hf_out : forall x, x ∉ nodes -> m_cfs_bw m' !! x = m_cfs_bw m !! x;
}.

Lemma hier_frame_refl l m : hier_frame l m m.
Proof. split; [by destruct m | done | done]. Qed.

Lemma hier_frame_trans l1 l2 m1 m2 m3 :
  hier_frame l1 m1 m2 -> hier_frame l2 m2 m3 -> hier_frame (l1 ++ l2) m1 m3.
Proof.
  intros [E1 B1 O1] [E2 B2 O2]. split; [by rewrite E2, E1 | congruence |].
  intros x Hx. rewrite elem_of_app in Hx. rewrite O2, O1 by naive_solver. done.
Qed.

Lemma hier_frame_weaken l1 l2 m1 m2 :
  (forall x, x ∈ l1 -> x ∈ l2) -> hier_frame l1 m1 m2 -> hier_frame l2 m1 m2.
Proof. intros Hl [E B O]. split; [done | done |]. naive_solver. Qed.

Lemma set_hier_frame tg q b m : m_cfs_bw m !! tg = Some b -> hier_frame [tg] m (set_hier tg q b m).
Proof.
  intros Hb. split; cbn; [done | |].
  - rewrite fmap_insert. rewrite insert_id; [done|]. by rewrite lookup_fmap, Hb.
  - intros x Hx. rewrite lookup_insert_ne; [done|]. set_solver.
Qed.

(** What depends on the limits alone is unaffected. *)
Lemma no_hier_lookup (B B' : gmap Z cfs_bandwidth) x :
  no_hier <$> B' = no_hier <$> B -> no_hier <$> B' !! x = no_hier <$> B !! x.
Proof. intros E. by rewrite <- !lookup_fmap, E. Qed.

Lemma no_hier_walk_limit d B B' tg :
  no_hier <$> B' = no_hier <$> B -> walk_limit d B' tg = walk_limit d B tg.
Proof.
  intros E. unfold walk_limit. destruct (tg =? csd_tg d); [done|]. apply (no_hier_lookup _ _ tg) in E.
  destruct (B' !! tg) as [b'|], (B !! tg) as [b|]; try done. injection E as Ep Eq.
  unfold bw_limit. by rewrite Ep, Eq.
Qed.

Lemma no_hier_wf (B B' : gmap Z cfs_bandwidth) :
  no_hier <$> B' = no_hier <$> B -> map_Forall (fun _ => bw_wf) B -> map_Forall (fun _ => bw_wf) B'.
Proof.
  intros E HB x b' Hb'. apply (no_hier_lookup _ _ x) in E. rewrite Hb' in E.
  destruct (B !! x) as [b|] eqn:Eb; [|done]. injection E as Ep Eq. specialize (HB _ _ Eb).
  unfold bw_wf in *. by rewrite Ep, Eq.
Qed.

Lemma no_hier_dom (B B' : gmap Z cfs_bandwidth) x :
  no_hier <$> B' = no_hier <$> B -> is_Some (B !! x) -> is_Some (B' !! x).
Proof.
  intros E [b Hb]. apply (no_hier_lookup _ _ x) in E. rewrite Hb in E. by destruct (B' !! x); [eexists|].
Qed.

(** The cached quota of every group of a subtree is its own limit or, without
    one, that of its nearest limited ancestor. *)
Definition inherit (own cap : option Z) : option Z := match own with None => cap | Some q => Some q end.

Fixpoint cached (lim : Z -> option Z) (B : gmap Z cfs_bandwidth) (cap : option Z) (t : tg_tree) : Prop :=
  match t with
  | Node tg kids =>
      (exists b, B !! tg = Some b /\ bw_hierarchical_quota b = enc (inherit (lim tg) cap)) /\
      foldr (fun k P => cached lim B (inherit (lim tg) cap) k /\ P) True kids
  end.

Lemma cached_frame lim l m m' cap t :
  hier_frame l m m' -> (forall x, x ∈ nodes t -> x ∉ l) ->
  cached lim (m_cfs_bw m) cap t -> cached lim (m_cfs_bw m') cap t.
Proof.
  intros HF. revert cap. induction t as [tg kids IH] using tg_tree_rect'. intros cap Hd [Hb HK]. split.
  - destruct Hb as (b & Hb & Hq). exists b. split; [|done]. rewrite (hf_out _ _ _ HF); [done|].
    apply Hd. cbn. apply list_elem_of_here.
  - clear Hb. assert (Hd' : forall x, x ∈ flat_map nodes kids -> x ∉ l).
    { intros x Hx. apply Hd. cbn. by apply list_elem_of_further. }
    clear Hd. generalize dependent (inherit (lim tg) cap). intros c.
    induction IH as [|k l' Hk _ IH]; cbn; [done|]. intros [H1 H2]. split.
    + apply Hk; [|done]. intros x Hx. apply Hd'. cbn. apply elem_of_app. by left.
    + apply IH; [|done]. intros x Hx. apply Hd'. cbn. apply elem_of_app. by right.
Qed.

(** The step at the root. *)
Lemma schedulable_down_root d tg g b (m : machine) :
  m_tgs m !! tg = Some g -> tg_parent g = NULL -> m_cfs_bw m !! tg = Some b ->
  tg_cfs_schedulable_down d tg m = Ret 0 (set_hier tg (-1) b m).
Proof.
  intros Hg Hp Hb.
  unfold tg_cfs_schedulable_down, rd, deref, wr, upd_obj, modify, mbind, M_bind, mret, M_ret, deref.
  cbn [store tg_store bw_store]. rewrite Hg, Hp. cbn [Z.eqb NULL]. by rewrite Hb, s64_INF.
Qed.

Section Visit.
Context (d : cfs_schedulable_data) (Hdfl : cgroup_subsys_on_dfl = false) (Hd : data_wf d).
Context (lim : Z -> option Z).

#[local] Abbreviation vis := (visit (tg_cfs_schedulable_down d) tg_nop).

(** The state in which the walk meets a subtree below [p]. *)
Record walk_ready (m : machine) (p : Z) (cap : option Z) (l : list Z) : Prop := {
  wr_wf : map_Forall (fun _ => bw_wf) (m_cfs_bw m);
  wr_lim : forall tg, walk_limit d (m_cfs_bw m) tg = lim tg;
  wr_bw : forall x, x ∈ l -> is_Some (m_cfs_bw m !! x);
  wr_parent : exists pb, m_cfs_bw m !! p = Some pb /\ bw_hierarchical_quota pb = enc cap;
  wr_cap : cap_wf cap;
  wr_p : p <> NULL /\ p ∉ l;
  wr_null : NULL ∉ l;
}.

Lemma walk_ready_frame l0 l m m' p cap :
  hier_frame l0 m m' -> p ∉ l0 -> walk_ready m p cap l -> walk_ready m' p cap l.
Proof.
  intros HF Hp [Hw Hl Hb (pb & Hpb & Hq) Hc Hpl Hnl]. pose proof (hf_bw _ _ _ HF) as E.
  split; [by eapply no_hier_wf | | | | done | done | done].
  - intros tg. by rewrite (no_hier_walk_limit _ _ _ _ E).
  - intros x Hx. eapply no_hier_dom; eauto.
  - exists pb. split; [|done]. by rewrite (hf_out _ _ _ HF).
Qed.

Lemma walk_ready_sub l l' m p cap :
  (forall x, x ∈ l' -> x ∈ l) -> walk_ready m p cap l -> walk_ready m p cap l'.
Proof. intros Hs [????? [? Hp]?]. split; auto. Qed.

Definition visits (t : tg_tree) : Prop := forall m p cap,
  links m t -> child_of m p t -> NoDup (nodes t) -> walk_ready m p cap (nodes t) ->
  wp (vis t) (fun ret m' =>
    hier_frame (nodes t) m m' /\ truthy ret = negb (feasible lim cap t) /\
    (feasible lim cap t = true -> cached lim (m_cfs_bw m') cap t)) m.

(** The children of a group, in order, up to the first that fails. *)
Lemma visit_kids kids m tg cap :
  Forall visits kids -> Forall (links m) kids -> Forall (child_of m tg) kids ->
  NoDup (flat_map nodes kids) -> walk_ready m tg cap (flat_map nodes kids) ->
  wp (foldr (fun k => and_then (vis k)) (mret 0) kids) (fun ret m' =>
    hier_frame (flat_map nodes kids) m m' /\ truthy ret = negb (forallb (feasible lim cap) kids) /\
    (forallb (feasible lim cap) kids = true ->
     foldr (fun k P => cached lim (m_cfs_bw m') cap k /\ P) True kids)) m.
Proof.
  intros HV. revert m. induction HV as [|k kids Hk _ IH]; intros m HL HC HN HR; cbn [foldr flat_map forallb].
  { apply wp_ret. split; [apply hier_frame_refl | done]. }
  apply list.Forall_cons in HL as [HLk HL]. apply list.Forall_cons in HC as [HCk HC].
  cbn in HN, HR. apply list.NoDup_app in HN as (HNk & Hdis & HN).
  unfold and_then at 1. apply wp_bind. eapply wp_mono.
  { apply (Hk m tg cap HLk HCk HNk). eapply walk_ready_sub; [|exact HR]. intros x Hx. apply elem_of_app. by left. }
  intros ret m1 (HF1 & Hret & Hca1). cbv beta. destruct (truthy ret) eqn:Er.
  { apply wp_ret. symmetry in Hret. apply negb_true_iff in Hret. rewrite Hret, Er. cbn. split; [|done].
    eapply hier_frame_weaken; [|exact HF1]. intros x Hx. apply elem_of_app. by left. }
  symmetry in Hret. apply negb_false_iff in Hret. rewrite Hret. cbn [andb].
  assert (Htg : tg ∉ nodes k). { intros Hx. apply (wr_p _ _ _ _ HR). apply elem_of_app. by left. }
  pose proof (hf_rest _ _ _ HF1) as E1.
  assert (Etg : m_tgs m1 = m_tgs m) by (rewrite E1; done).
  eapply wp_mono.
  { apply IH; [| |exact HN|].
    - revert HL. apply Forall_impl. intros t. apply links_same. unfold same_links. by rewrite Etg.
    - revert HC. apply Forall_impl. unfold child_of. by rewrite Etg.
    - eapply walk_ready_frame; [exact HF1 | done |]. eapply walk_ready_sub; [|exact HR].
      intros x Hx. apply elem_of_app. by right. }
  intros ret2 m2 (HF2 & Hret2 & Hca2). cbv beta. split; [|split; [done|]].
  - by eapply hier_frame_trans.
  - intros Hok. split; [|by apply Hca2]. eapply cached_frame; [exact HF2 | | by apply Hca1].
    intros x Hx. by apply Hdis.
Qed.

(** After the step at [tg], its children find its cached quota. *)
Lemma walk_ready_kids m p cap tg kids b :
  walk_ready m p cap (nodes (Node tg kids)) -> m_cfs_bw m !! tg = Some b -> NoDup (nodes (Node tg kids)) ->
  tg <> NULL ->
  walk_ready (set_hier tg (enc (inherit (lim tg) cap)) b m) tg (inherit (lim tg) cap) (flat_map nodes kids).
Proof.
  intros HR Hb HN Hz. pose proof (set_hier_frame tg (enc (inherit (lim tg) cap)) b m Hb) as HF.
  pose proof (hf_bw _ _ _ HF) as E. destruct HR as [Hw Hl Hbw _ Hc _ Hnl]. split.
  - by eapply no_hier_wf.
  - intros x. by rewrite (no_hier_walk_limit _ _ _ _ E).
  - intros x Hx. eapply no_hier_dom; [exact E|]. apply Hbw. cbn. by apply list_elem_of_further.
  - eexists. cbn. rewrite lookup_insert_eq. done.
  - pose proof (walk_limit_wf d (m_cfs_bw m) tg Hd Hw) as Hlw. rewrite Hl in Hlw. by destruct (lim tg).
  - split; [done|]. cbn in HN. by apply list.NoDup_cons in HN as [? _].
  - intros Hx. apply Hnl. cbn. by apply list_elem_of_further.
Qed.

(** The rest of the visit of [tg], once its own limit is accepted. *)
Lemma visit_node m p cap tg kids b :
  Forall visits kids -> links m (Node tg kids) -> NoDup (nodes (Node tg kids)) -> tg <> NULL ->
  walk_ready m p cap (nodes (Node tg kids)) -> m_cfs_bw m !! tg = Some b ->
  wp (and_then (foldr (fun k => and_then (vis k)) (mret 0) kids) (tg_nop tg)) (fun ret m' =>
    hier_frame (nodes (Node tg kids)) m m' /\
    truthy ret = negb (forallb (feasible lim (inherit (lim tg) cap)) kids) /\
    (forallb (feasible lim (inherit (lim tg) cap)) kids = true -> cached lim (m_cfs_bw m') cap (Node tg kids)))
    (set_hier tg (enc (inherit (lim tg) cap)) b m).
Proof.
  intros HV HL HN Hz HR Hb. inversion HL as [? ? g Hg Hc HCk HLk]; subst.
  set (m1 := set_hier tg (enc (inherit (lim tg) cap)) b m).
  pose proof (set_hier_frame tg (enc (inherit (lim tg) cap)) b m Hb) as HF1. fold m1 in HF1.
  assert (HN' : tg ∉ flat_map nodes kids /\ NoDup (flat_map nodes kids)) by (cbn in HN; by apply list.NoDup_cons).
  unfold and_then at 1. apply wp_bind. eapply wp_mono.
  { apply (visit_kids kids m1 tg (inherit (lim tg) cap)); [done | | | apply HN' |].
    - revert HLk. apply Forall_impl. intros t. by apply links_same.
    - exact HCk.
    - by eapply walk_ready_kids. }
  intros ret m2 (HF2 & Hret & Hca). cbv beta.
  assert (HF : hier_frame (nodes (Node tg kids)) m m2). { cbn. apply (hier_frame_trans [tg] _ _ _ _ HF1 HF2). }
  destruct (truthy ret) eqn:Er.
  { apply wp_ret. rewrite Er. split; [done|]. split; [done|]. intros Hok. by rewrite Hok in Hret. }
  apply wp_ret. split; [done|]. split; [by rewrite <- Hret|]. intros Hok. split; [|by apply Hca].
  exists (b <| bw_hierarchical_quota := enc (inherit (lim tg) cap) |>). split; [|done].
  rewrite (hf_out _ _ _ HF2) by apply HN'. cbn. by rewrite lookup_insert_eq.
Qed.

Lemma visit_subtree t : visits t.
Proof.
  induction t as [tg kids IH] using tg_tree_rect'. intros m p cap HL (g & Hg & Hp) HN HR.
  destruct (wr_bw _ _ _ _ HR tg) as [b Hb]; [cbn; apply list_elem_of_here|].
  destruct (wr_parent _ _ _ _ HR) as (pb & Hpb & Hq). cbn in Hg. subst p.
  pose proof (schedulable_down_val d tg g b pb cap m Hdfl Hd (wr_wf _ _ _ _ HR) Hg
    (proj1 (wr_p _ _ _ _ HR)) Hb Hpb Hq (wr_cap _ _ _ _ HR)) as Ed.
  rewrite (wr_lim _ _ _ _ HR) in Ed. cbn [visit feasible]. unfold and_then at 1. apply wp_bind.
  assert (Hstep : forall (Q : Z -> machine -> Prop), wp
      (and_then (foldr (fun k => and_then (vis k)) (mret 0) kids) (tg_nop tg)) Q
      (set_hier tg (enc (inherit (lim tg) cap)) b m) ->
      tg_cfs_schedulable_down d tg m = Ret 0 (set_hier tg (enc (inherit (lim tg) cap)) b m) ->
      wp (tg_cfs_schedulable_down d tg) (fun a s' => wp (if truthy a then mret a
        else and_then (foldr (fun k => and_then (vis k)) (mret 0) kids) (tg_nop tg)) Q s') m).
  { intros Q HQ E. unfold wp at 1. by rewrite E. }
  pose proof (visit_node m (tg_parent g) cap tg kids b IH HL HN) as HV.
  assert (Hz : tg <> NULL). { intros E. apply (wr_null _ _ _ _ HR). cbn. rewrite <- E. apply list_elem_of_here. }
  destruct (lim tg) as [q|] eqn:El; cbn [inherit enc] in *.
  - destruct (within q cap) eqn:Ew; cbn [andb].
    + apply Hstep; [|exact Ed]. apply HV; done.
    + unfold wp at 1. rewrite Ed. apply wp_ret. cbn. split; [apply hier_frame_refl | done].
  - apply Hstep; [|exact Ed]. apply HV; done.
Qed.

(** The whole walk: the root is never limited. *)
Lemma visit_tree t m :
  is_tree m t -> (exists g, m_tgs m !! root t = Some g /\ tg_parent g = NULL) ->
  (forall x, x ∈ nodes t -> is_Some (m_cfs_bw m !! x)) -> map_Forall (fun _ => bw_wf) (m_cfs_bw m) ->
  (forall tg, walk_limit d (m_cfs_bw m) tg = lim tg) ->
  wp (vis t) (fun ret m' => hier_frame (nodes t) m m' /\ truthy ret = negb (feasible_tree lim t)) m.
Proof.
  intros [HL HN Hz] (g & Hg & Hp) Hbw Hwf Hlim. destruct t as [tg kids]. cbn [root] in *.
  inversion HL as [? ? g' Hg' Hc HCk HLk]; subst. destruct (Hbw tg) as [b Hb]; [cbn; apply list_elem_of_here|].
  cbn [visit feasible_tree]. unfold and_then at 1. apply wp_bind. set (m1 := set_hier tg (-1) b m).
  pose proof (schedulable_down_root d tg g b m Hg Hp Hb) as Ed. fold m1 in Ed.
  unfold wp at 1. rewrite Ed. cbn [truthy negb Z.eqb].
  pose proof (set_hier_frame tg (-1) b m Hb) as HF1. fold m1 in HF1. pose proof (hf_bw _ _ _ HF1) as E1.
  cbn in HN, Hz. apply list.NoDup_cons in HN as [Htg HN].
  unfold and_then at 1. apply wp_bind. eapply wp_mono.
  { apply (visit_kids kids m1 tg None); [apply list.Forall_true, visit_subtree | | done | done |].
    - revert HLk. apply Forall_impl. intros t. by apply links_same.
    - split.
      + by eapply no_hier_wf.
      + intros x. by rewrite (no_hier_walk_limit _ _ _ _ E1).
      + intros x Hx. eapply no_hier_dom; [exact E1|]. apply Hbw. cbn. by apply list_elem_of_further.
      + eexists. cbn. rewrite lookup_insert_eq. done.
      + done.
      + split; [set_solver | done].
      + set_solver. }
  intros ret m2 (HF2 & Hret & _). cbv beta. pose proof (hier_frame_trans [tg] _ _ _ _ HF1 HF2) as HF.
  destruct (truthy ret) eqn:Er; apply wp_ret; [by rewrite Er|]. by rewrite <- Hret.
Qed.
End Visit.

(** ** The unified hierarchy

    The minimum of a limit and the parent's cached quota is taken on signed
    numbers, in which "no limit" is -1, so from the root down it is -1. *)
Section Unified.
Context (d : cfs_schedulable_data) (Hdfl : cgroup_subsys_on_dfl = true) (Hd : data_wf d).
Context (lim : Z -> option Z).

#[local] Abbreviation vis := (visit (tg_cfs_schedulable_down d) tg_nop).

Lemma enc_ge cap : cap_wf cap -> -1 <= enc cap.
Proof. destruct cap; cbn; lia. Qed.

Lemma schedulable_down_unified tg g b pb (m : machine) :
  map_Forall (fun _ => bw_wf) (m_cfs_bw m) ->
  m_tgs m !! tg = Some g -> tg_parent g <> NULL -> m_cfs_bw m !! tg = Some b ->
  m_cfs_bw m !! tg_parent g = Some pb -> bw_hierarchical_quota pb = -1 ->
  tg_cfs_schedulable_down d tg m = Ret 0 (set_hier tg (-1) b m).
Proof.
  intros HB Hg Hp Hb Hpb Hq. destruct (normalize_val d tg b m Hd Hb (HB _ _ Hb)) as (n & En & Hn).
  pose proof (enc_ge _ (walk_limit_wf d (m_cfs_bw m) tg Hd HB)) as Hlw.
  unfold tg_cfs_schedulable_down, rd, deref, wr, upd_obj, modify, mbind, M_bind, mret, M_ret.
  cbn [store tg_store bw_store]. rewrite Hg. rewrite (proj2 (Z.eqb_neq _ _) Hp), En, Hdfl, Hn.
  cbn [store tg_store bw_store]. rewrite Hpb, Hq. unfold deref. cbn [store bw_store]. rewrite Hb.
  by rewrite Z.min_r.
Qed.

(** Every group of [l] has no cached limit. *)
Definition uncapped (l : list Z) (m : machine) : Prop :=
  forall x, x ∈ l -> exists b, m_cfs_bw m !! x = Some b /\ bw_hierarchical_quota b = -1.

Lemma uncapped_frame l l0 m m' :
  hier_frame l0 m m' -> (forall x, x ∈ l -> x ∉ l0) -> uncapped l m -> uncapped l m'.
Proof.
  intros HF Hd' HU x Hx. destruct (HU x Hx) as (b & Hb & ?). exists b. by rewrite (hf_out _ _ _ HF) by auto.
Qed.

Lemma uncapped_app l l' m : uncapped l m -> uncapped l' m -> uncapped (l ++ l') m.
Proof. intros H1 H2 x [Hx|Hx]%elem_of_app; auto. Qed.

Definition visits_unified (t : tg_tree) : Prop := forall m p,
  links m t -> child_of m p t -> NoDup (nodes t) -> walk_ready d lim m p None (nodes t) ->
  wp (vis t) (fun ret m' => hier_frame (nodes t) m m' /\ ret = 0 /\ uncapped (nodes t) m') m.

Lemma visit_kids_unified kids m tg :
  Forall visits_unified kids -> Forall (links m) kids -> Forall (child_of m tg) kids ->
  NoDup (flat_map nodes kids) -> walk_ready d lim m tg None (flat_map nodes kids) ->
  wp (foldr (fun k => and_then (vis k)) (mret 0) kids) (fun ret m' =>
    hier_frame (flat_map nodes kids) m m' /\ ret = 0 /\ uncapped (flat_map nodes kids) m') m.
Proof.
  intros HV. revert m. induction HV as [|k kids Hk _ IH]; intros m HL HC HN HR; cbn [foldr flat_map].
  { apply wp_ret. split; [apply hier_frame_refl|]. split; [done|]. by intros x ?%not_elem_of_nil. }
  apply list.Forall_cons in HL as [HLk HL]. apply list.Forall_cons in HC as [HCk HC].
  cbn in HN, HR. apply list.NoDup_app in HN as (HNk & Hdis & HN).
  unfold and_then at 1. apply wp_bind. eapply wp_mono.
  { apply (Hk m tg HLk HCk HNk). eapply walk_ready_sub; [|exact HR]. intros x Hx. apply elem_of_app. by left. }
  intros ret m1 (HF1 & -> & HU1). cbv beta. cbn [truthy negb Z.eqb].
  assert (Htg : tg ∉ nodes k). { intros Hx. apply (wr_p _ _ _ _ _ _ HR). apply elem_of_app. by left. }
  assert (Etg : m_tgs m1 = m_tgs m) by (rewrite (hf_rest _ _ _ HF1); done).
  eapply wp_mono.
  { apply IH; [| |exact HN|].
    - revert HL. apply Forall_impl. intros t. apply links_same. unfold same_links. by rewrite Etg.
    - revert HC. apply Forall_impl. unfold child_of. by rewrite Etg.
    - eapply walk_ready_frame; [exact HF1 | done |]. eapply walk_ready_sub; [|exact HR].
      intros x Hx. apply elem_of_app. by right. }
  intros ret2 m2 (HF2 & -> & HU2). cbv beta. split; [by eapply hier_frame_trans|]. split; [done|].
  apply uncapped_app; [|done]. by eapply uncapped_frame.
Qed.

(** A node whose own step stored -1. *)
Lemma visit_node_unified tg kids b m :
  Forall visits_unified kids -> links m (Node tg kids) -> NoDup (nodes (Node tg kids)) -> tg <> NULL ->
  NULL ∉ flat_map nodes kids -> map_Forall (fun _ => bw_wf) (m_cfs_bw m) ->
  (forall x, walk_limit d (m_cfs_bw m) x = lim x) ->
  (forall x, x ∈ nodes (Node tg kids) -> is_Some (m_cfs_bw m !! x)) -> m_cfs_bw m !! tg = Some b ->
  wp (and_then (foldr (fun k => and_then (vis k)) (mret 0) kids) (tg_nop tg)) (fun ret m' =>
    hier_frame (nodes (Node tg kids)) m m' /\ ret = 0 /\ uncapped (nodes (Node tg kids)) m')
    (set_hier tg (-1) b m).
Proof.
  intros HV HL HN Hz Hz' Hwf Hlim Hbw Hb. inversion HL as [? ? g Hg Hc HCk HLk]; subst.
  set (m1 := set_hier tg (-1) b m).
  pose proof (set_hier_frame tg (-1) b m Hb) as HF1. fold m1 in HF1. pose proof (hf_bw _ _ _ HF1) as E1.
  cbn in HN. apply list.NoDup_cons in HN as [Htg HN].
  unfold and_then at 1. apply wp_bind. eapply wp_mono.
  { apply (visit_kids_unified kids m1 tg); [done | | exact HCk | done |].
    - revert HLk. apply Forall_impl. intros t. by apply links_same.
    - split; [by eapply no_hier_wf | | | | done | done | done].
      + intros x. by rewrite (no_hier_walk_limit _ _ _ _ E1).
      + intros x Hx. eapply no_hier_dom; [exact E1|]. apply Hbw. cbn. by apply list_elem_of_further.
      + eexists. cbn. rewrite lookup_insert_eq. done. }
  intros ret m2 (HF2 & -> & HU). cbv beta. apply wp_ret.
  split; [apply (hier_frame_trans [tg] _ _ _ _ HF1 HF2)|]. split; [done|].
  cbn. intros x [->|Hx]%elem_of_cons; [|by apply HU].
  exists (b <| bw_hierarchical_quota := -1 |>). split; [|done].
  rewrite (hf_out _ _ _ HF2) by done. cbn. by rewrite lookup_insert_eq.
Qed.

Lemma visit_subtree_unified t : visits_unified t.
Proof.
  induction t as [tg kids IH] using tg_tree_rect'. intros m p HL (g & Hg & Hp) HN HR. cbn in Hg. subst p.
  destruct (wr_bw _ _ _ _ _ _ HR tg) as [b Hb]; [cbn; apply list_elem_of_here|].
  destruct (wr_parent _ _ _ _ _ _ HR) as (pb & Hpb & Hq). destruct (wr_p _ _ _ _ _ _ HR) as [Hpz _].
  pose proof (wr_null _ _ _ _ _ _ HR) as Hz. cbn in Hz.
  cbn [visit]. unfold and_then at 1. apply wp_bind. unfold wp at 1.
  rewrite (schedulable_down_unified tg g b pb m (wr_wf _ _ _ _ _ _ HR) Hg Hpz Hb Hpb Hq). cbn [truthy negb Z.eqb].
  apply visit_node_unified; try done; [set_solver | set_solver | apply HR | apply HR | apply HR].
Qed.

Lemma visit_tree_unified t m :
  is_tree m t -> (exists g, m_tgs m !! root t = Some g /\ tg_parent g = NULL) ->
  (forall x, x ∈ nodes t -> is_Some (m_cfs_bw m !! x)) -> map_Forall (fun _ => bw_wf) (m_cfs_bw m) ->
  (forall tg, walk_limit d (m_cfs_bw m) tg = lim tg) ->
  wp (vis t) (fun ret m' => hier_frame (nodes t) m m' /\ ret = 0 /\ uncapped (nodes t) m') m.
Proof.
  intros [HL HN Hz] (g & Hg & Hp) Hbw Hwf Hlim. destruct t as [tg kids]. cbn [root] in *.
  destruct (Hbw tg) as [b Hb]; [cbn; apply list_elem_of_here|].
  cbn [visit]. unfold and_then at 1. apply wp_bind. unfold wp at 1.
  rewrite (schedulable_down_root d tg g b m Hg Hp Hb). cbn [truthy negb Z.eqb]. cbn in Hz.
  apply visit_node_unified; try done; [|set_solver | set_solver].
  apply list.Forall_true, visit_subtree_unified.
Qed.
End Unified.

Lemma same_links_upd_bw p (g : cfs_bandwidth -> cfs_bandwidth) : preserves same_links (upd_obj p g).
Proof. apply preserves_upd_obj; [typeclasses eauto | done]. Qed.

Lemma schedulable_down_links d tg : preserves same_links (tg_cfs_schedulable_down d tg).
Proof.
  unfold tg_cfs_schedulable_down, normalize_cfs_quota, tg_get_cfs_period, tg_get_cfs_quota.
  keep; apply same_links_upd_bw.
Qed.

(** * Setting the limits of a group *)

(** A hierarchy of groups with limits that fit, each with its per-CPU queues. *)
Record bw_tree (m : machine) (t : tg_tree) : Prop := {
  bt_tree : is_tree m t;
  bt_root : root t = m_root_task_group m;
  bt_top : exists g, m_tgs m !! root t = Some g /\ tg_parent g = NULL;
  bt_bw : forall x, x ∈ nodes t -> is_Some (m_cfs_bw m !! x);
  bt_wf : map_Forall (fun _ => bw_wf) (m_cfs_bw m);
  bt_cfs_rq : forall x g c, m_tgs m !! x = Some g -> c ∈ m_cpu_online m ->
    exists q, tg_cfs_rq g !! Z.to_nat c = Some q /\ is_Some (m_cfs_rqs m !! q);
}.

Definition limit_in (B : gmap Z cfs_bandwidth) (tg : Z) : option Z :=
  match B !! tg with Some b => bw_limit b | None => None end.

(** The limits are in range and, in a legacy hierarchy, feasible. *)
Definition bandwidth_ok (m : machine) (t : tg_tree) : Prop :=
  bw_tree m t /\ (cgroup_subsys_on_dfl = false -> feasible_tree (limit_in (m_cfs_bw m)) t = true).

(** A burst fits its field and, under a quota, is no more than the quota, and both
    together no more than the longest runtime. *)
Definition burst_ok (b : cfs_bandwidth) : Prop :=
  in_u64 (bw_burst b) /\
  (bw_quota b = RUNTIME_INF \/ bw_burst b <= bw_quota b /\ bw_burst b + bw_quota b <= max_cfs_runtime).

Definition limits_in_range (m : machine) (t : tg_tree) : Prop :=
  bandwidth_ok m t /\ map_Forall (fun _ => burst_ok) (m_cfs_bw m).

Lemma links_tgs m m' t : m_tgs m' = m_tgs m -> links m t -> links m' t.
Proof. intros E. apply links_same. unfold same_links. by rewrite E. Qed.

(** The tree survives changes that keep the groups and the limits. *)
Lemma bw_tree_frame m m' t :
  m_tgs m' = m_tgs m -> m_root_task_group m' = m_root_task_group m -> m_cpu_online m' = m_cpu_online m ->
  dom (m_cfs_rqs m') = dom (m_cfs_rqs m) ->
  (forall x, is_Some (m_cfs_bw m !! x) -> is_Some (m_cfs_bw m' !! x)) ->
  map_Forall (fun _ => bw_wf) (m_cfs_bw m') ->
  bw_tree m t -> bw_tree m' t.
Proof.
  intros Et Er Eo Ed Hb Hw [[HL HN Hz] Hr Htop Hbw _ Hc]. split.
  - split; [by eapply links_tgs | done | done].
  - congruence.
  - by rewrite Et.
  - auto.
  - done.
  - intros x g c. rewrite Et, Eo. intros Hx Hon. destruct (Hc x g c Hx Hon) as (q & ? & Hq). exists q.
    split; [done|]. apply elem_of_dom. rewrite Ed. by apply elem_of_dom.
Qed.

Definition limits_agree (B B' : gmap Z cfs_bandwidth) : Prop := bw_limits <$> B' = bw_limits <$> B.

Lemma limits_agree_lookup B B' x b' :
  limits_agree B B' -> B' !! x = Some b' -> exists b, B !! x = Some b /\ bw_limits b' = bw_limits b.
Proof. intros E Hb'. symmetry in E. by apply (fmap_lookup_agree _ _ _ _ _ (eq_sym E)). Qed.

Lemma limits_agree_wf B B' :
  limits_agree B B' -> map_Forall (fun _ => bw_wf) B -> map_Forall (fun _ => bw_wf) B'.
Proof.
  intros E HB x b' Hb'. destruct (limits_agree_lookup _ _ _ _ E Hb') as (b & Hb & El).
  specialize (HB _ _ Hb). unfold bw_limits in El. injection El as Ep Eq _. unfold bw_wf in *. by rewrite Ep, Eq.
Qed.

Lemma limits_agree_burst B B' :
  limits_agree B B' -> map_Forall (fun _ => burst_ok) B -> map_Forall (fun _ => burst_ok) B'.
Proof.
  intros E HB x b' Hb'. destruct (limits_agree_lookup _ _ _ _ E Hb') as (b & Hb & El).
  specialize (HB _ _ Hb). unfold bw_limits in El. injection El as _ Eq Eb. unfold burst_ok in *. by rewrite Eq, Eb.
Qed.

Lemma limits_agree_limit B B' x : limits_agree B B' -> limit_in B' x = limit_in B x.
Proof.
  intros E. apply (f_equal (fun g => g !! x)) in E. rewrite !lookup_fmap in E. unfold limit_in.
  destruct (B' !! x) as [b'|], (B !! x) as [b|]; try done. injection E as Ep Eq _.
  unfold bw_limit. by rewrite Ep, Eq.
Qed.

Lemma limits_agree_some B B' x : limits_agree B B' -> is_Some (B !! x) -> is_Some (B' !! x).
Proof.
  intros E [b Hb]. apply (f_equal (fun g => g !! x)) in E. rewrite !lookup_fmap, Hb in E.
  by destruct (B' !! x); [eexists|].
Qed.

Lemma no_hier_limits B B' : no_hier <$> B' = no_hier <$> B -> limits_agree B B'.
Proof.
  intros E. apply map_eq. intros x. apply (no_hier_lookup _ _ x) in E. rewrite !lookup_fmap.
  destruct (B' !! x), (B !! x); try done. injection E as Ep Eq Eb. cbn. unfold bw_limits. congruence.
Qed.

Lemma feasible_ext lim lim' cap t : (forall x, lim x = lim' x) -> feasible lim cap t = feasible lim' cap t.
Proof.
  intros E. revert cap. induction t as [tg kids IH] using tg_tree_rect'. intros cap. cbn. rewrite E.
  assert (HK : forall c, forallb (feasible lim c) kids = forallb (feasible lim' c) kids).
  { intros c. induction IH as [|k l Hk _ IH]; cbn; [done|]. by rewrite Hk, IH. }
  destruct (lim' tg); by rewrite HK.
Qed.

Lemma feasible_tree_ext lim lim' t : (forall x, lim x = lim' x) -> feasible_tree lim t = feasible_tree lim' t.
Proof.
  intros E. destruct t as [tg kids]. cbn. induction kids as [|k l IH]; cbn; [done|].
  by rewrite (feasible_ext _ _ _ _ E), IH.
Qed.

(** The request as the walk sees it. *)
Definition request (tg period quota : Z) : cfs_schedulable_data :=
  if quota =? RUNTIME_INF then Mk_csd tg period quota
  else Mk_csd tg (period / NSEC_PER_USEC) (quota / NSEC_PER_USEC).

Definition set_limits (period quota burst : Z) (b : cfs_bandwidth) : cfs_bandwidth :=
  b <| bw_period := s64 period |> <| bw_quota := quota |> <| bw_burst := burst |>.

Lemma limits_ok_wf period quota burst b :
  cfs_limits_ok period quota burst = true -> in_u64 quota -> bw_wf (set_limits period quota burst b) /\ s64 period = period.
Proof.
  intros Hok Hq. unfold cfs_limits_ok, min_cfs_quota_period, max_cfs_quota_period in Hok.
  rewrite NSEC_PER_MSEC_val, NSEC_PER_SEC_val in Hok. unfold bw_wf, set_limits. cbn.
  assert (Hp : 10 ^ 6 <= period <= 10 ^ 9) by lia. rewrite s64_small by (unfold in_s64; lia).
  split; [|done]. split; [lia|]. destruct (Z.eqb_spec quota RUNTIME_INF); [by left | right; lia].
Qed.

(** What the last two tests of the bounds are for. *)
Lemma limits_ok_burst period quota burst b :
  cfs_limits_ok period quota burst = true -> in_u64 quota -> in_u64 burst -> burst_ok (set_limits period quota burst b).
Proof.
  intros Hok Hq Hb. split; [exact Hb|]. cbn. unfold cfs_limits_ok in Hok.
  destruct (Z.eqb_spec quota RUNTIME_INF); [by left | right]. cbn [negb andb] in Hok.
  rewrite max_cfs_runtime_val in *. unfold in_u64 in *.
  assert (Hle : burst <= quota <= (2 ^ 44 - 1) * 1000) by lia.
  rewrite (u64_small (burst + quota)) in Hok by (unfold in_u64; lia). lia.
Qed.

Lemma request_wf tg period quota burst :
  cfs_limits_ok period quota burst = true -> in_u64 quota -> data_wf (request tg period quota).
Proof.
  intros Hok Hq. destruct (limits_ok_wf period quota burst bw_zero Hok Hq) as [Hw Es].
  unfold request, data_wf. destruct (Z.eqb_spec quota RUNTIME_INF) as [E|E]; [by left|].
  right. cbn. pose proof (bw_wf_period_div _ Hw) as Hp. pose proof (bw_wf_quota_div _ Hw E) as Hd.
  cbn in Hp, Hd. rewrite Es in Hp. rewrite NSEC_PER_USEC_val. lia.
Qed.

Lemma request_limit tg period quota burst B b x :
  cfs_limits_ok period quota burst = true -> in_u64 quota -> B !! tg = Some b ->
  walk_limit (request tg period quota) B x = limit_in (<[tg := set_limits period quota burst b]> B) x.
Proof.
  intros Hok Hq Hb. destruct (limits_ok_wf period quota burst b Hok Hq) as [Hw Es].
  unfold walk_limit, limit_in. replace (csd_tg (request tg period quota)) with tg by (unfold request; by case_match).
  destruct (Z.eqb_spec x tg) as [->|Hn]; [|by rewrite lookup_insert_ne].
  rewrite lookup_insert_eq. unfold bw_limit, request, set_limits. cbn.
  destruct (Z.eqb_spec quota RUNTIME_INF) as [E|E]; cbn.
  - by rewrite E, Z.eqb_refl.
  - pose proof (bw_wf_quota_div _ Hw E) as Hd. cbn in Hd. rewrite NSEC_PER_USEC_val, Es.
    destruct (Z.eqb_spec (quota / 1000) RUNTIME_INF) as [E2|]; [|done].
    rewrite RUNTIME_INF_val in E2. lia.
Qed.

Section SetLimits.
Context {GOK : BandwidthExternOK G}.

(** [m] after the groups' limits became [L]. *)
Record limits_now (L : gmap Z (Z * Z * Z)) (m0 m : machine) : Prop := {
  ln_tgs : m_tgs m = m_tgs m0;
  ln_root : m_root_task_group m = m_root_task_group m0;
  ln_online : m_cpu_online m = m_cpu_online m0;
  ln_cfs_rqs : dom (m_cfs_rqs m) = dom (m_cfs_rqs m0);
  ln_limits : bw_limits <$> m_cfs_bw m = L;
}.

Lemma limits_now_frame L m0 m m' : bw_frame m m' -> limits_now L m0 m -> limits_now L m0 m'.
Proof. intros [] []. split; congruence. Qed.

Lemma limits_now_some L m0 m x : limits_now L m0 m -> is_Some (L !! x) -> is_Some (m_cfs_bw m !! x).
Proof. intros HL [v Hv]. rewrite <- (ln_limits _ _ _ HL), lookup_fmap in Hv. by destruct (m_cfs_bw m !! x); [eexists|]. Qed.

Lemma wp_set_cfs_rq tg g L m0 m en c q :
  m_tgs m0 !! tg = Some g -> tg_cfs_rq g !! Z.to_nat c = Some q -> is_Some (m_cfs_rqs m0 !! q) ->
  limits_now L m0 m -> wp (tg_set_cfs_rq tg en c) (fun _ => limits_now L m0) m.
Proof.
  intros Hg Hq Hs HL. unfold tg_set_cfs_rq, tg_cfs_rq_of.
  assert (is_Some (m_cfs_rqs m !! q)) as [r Hr].
  { apply elem_of_dom. rewrite (ln_cfs_rqs _ _ _ HL). by apply elem_of_dom. }
  apply wp_bind, wp_bind, wp_rd. exists g. split; [cbn; by rewrite (ln_tgs _ _ _ HL)|].
  rewrite Hq. apply wp_ret. apply wp_bind, wp_wr. exists r. split; [done|].
  apply wp_bind, wp_wr. eexists. split; [cbn; apply lookup_insert_eq|].
  apply wp_bind, wp_rd. eexists. split; [cbn; rewrite lookup_insert_eq; reflexivity|].
  match goal with |- wp _ _ ?M => set (m2 := M) end.
  assert (HL2 : limits_now L m0 m2).
  { destruct HL as [Et Er Eo Ed Eb]. split; [done | done | done | | done]. rewrite <- Ed. cbn.
    rewrite !dom_insert_L. assert (q ∈ dom (m_cfs_rqs m)) by (by eapply elem_of_dom_2). set_solver. }
  apply wp_when. destruct (truthy _); [|done]. eapply wp_mono.
  { apply unthrottle_ok. cbn. rewrite lookup_insert_eq. by eexists. }
  intros [] m3 HF. by eapply limits_now_frame.
Qed.

(** The limits are stored, the timers restarted and the queues of the group
    reset. *)
Definition apply_limits (tg period quota burst : Z) : K (cres unit) :=
  let runtime_enabled := negb (quota =? RUNTIME_INF) in
  old ← tg ⇝ bw_quota;
  let runtime_was_enabled := negb (old =? RUNTIME_INF) in
  when (runtime_enabled && negb runtime_was_enabled) (emit "cfs_bandwidth_usage_inc" []) ;;
  upd_obj tg (set_limits period quota burst) ;;
  __refill_cfs_bandwidth_runtime tg ;;
  when runtime_enabled (start_cfs_bandwidth tg) ;;
  online ← gets m_cpu_online;
  mapM_ (tg_set_cfs_rq tg (b2z runtime_enabled)) (for_each_cpu online) ;;
  when (runtime_was_enabled && negb runtime_enabled) (emit "cfs_bandwidth_usage_dec" []) ;;
  mret (Ok tt).

Lemma wp_apply_limits tg period quota burst m t :
  bw_tree m t -> tg ∈ nodes t ->
  wp (apply_limits tg period quota burst) (fun r m' => r = Ok tt /\
    limits_now (<[tg := (s64 period, quota, burst)]> (bw_limits <$> m_cfs_bw m)) m m') m.
Proof.
  intros HT Htg. destruct (bt_bw _ _ HT tg Htg) as [b Hb].
  assert (exists g, m_tgs m !! tg = Some g) as [g Hg].
  { apply elem_of_dom. eapply links_dom; [apply HT | done]. }
  set (L := <[tg := (s64 period, quota, burst)]> (bw_limits <$> m_cfs_bw m)).
  assert (HLtg : is_Some (L !! tg)) by (unfold L; rewrite lookup_insert_eq; by eexists).
  unfold apply_limits. apply wp_bind, wp_rd. exists b. split; [done|].
  assert (Hmain : forall lg, wp (upd_obj tg (set_limits period quota burst) ;;
    __refill_cfs_bandwidth_runtime tg ;;
    when (negb (quota =? RUNTIME_INF)) (start_cfs_bandwidth tg) ;;
    online ← gets m_cpu_online;
    mapM_ (tg_set_cfs_rq tg (b2z (negb (quota =? RUNTIME_INF)))) (for_each_cpu online) ;;
    when (negb (bw_quota b =? RUNTIME_INF) && negb (negb (quota =? RUNTIME_INF))) (emit "cfs_bandwidth_usage_dec" []) ;;
    mret (Ok tt)) (fun r m' => r = Ok tt /\ limits_now L m m') (m <| m_log := lg |>)).
  { intros lg. apply wp_bind, wp_upd_obj. exists b. split; [done|].
    match goal with |- wp _ _ ?M => assert (H1 : limits_now L m M) end.
    { split; try done. cbn. by rewrite fmap_insert. }
    apply wp_bind. eapply wp_mono; [apply refill_ok; by eapply limits_now_some|].
    intros [] m2 HF2. cbv beta. apply (limits_now_frame _ _ _ _ HF2) in H1. clear HF2.
    apply wp_bind. eapply (wp_mono _ (fun _ => limits_now L m)).
    { apply wp_when. destruct (negb _); [|done]. eapply wp_mono; [apply start_ok; by eapply limits_now_some|].
      intros [] m3 HF3. by eapply limits_now_frame. }
    clear H1 m2. intros [] m2 H2. cbv beta. apply wp_bind, wp_gets. apply wp_bind.
    eapply (wp_mono _ (fun _ => limits_now L m)).
    { apply (wp_mapM_inv (limits_now L m)); [|done..]. intros c m3 Hc H3.
      apply elem_of_for_each_cpu in Hc. rewrite (ln_online _ _ _ H2) in Hc.
      destruct (bt_cfs_rq _ _ HT tg g c Hg Hc) as (q & Hq & Hs). by eapply wp_set_cfs_rq. }
    intros [] m3 H3. cbv beta. apply wp_bind, wp_when.
    destruct (_ && _); [apply wp_emit|]; apply wp_ret; (split; [done|]); destruct H3; by split. }
  apply wp_bind, wp_when. match goal with |- if ?c then _ else _ => destruct c end; [apply wp_emit; apply Hmain|].
  specialize (Hmain (m_log m)). replace (m <| m_log := m_log m |>) with m in Hmain by (by destruct m). exact Hmain.
Qed.

(** When the request is accepted. *)
Definition accepted (m : machine) (t : tg_tree) (tg period quota burst : Z) : bool :=
  (negb (tg =? m_root_task_group m) && cfs_limits_ok period quota burst &&
   (cgroup_subsys_on_dfl || feasible_tree (walk_limit (request tg period quota) (m_cfs_bw m)) t))%bool.

(** The walk in either hierarchy. *)
Lemma walk_decides d t m :
  data_wf d -> bw_tree m t ->
  wp (visit (tg_cfs_schedulable_down d) tg_nop t) (fun ret m' => hier_frame (nodes t) m m' /\
    truthy ret = negb (cgroup_subsys_on_dfl || feasible_tree (walk_limit d (m_cfs_bw m)) t)) m.
Proof.
  intros Hd [Ht _ Htop Hbw Hwf _]. destruct cgroup_subsys_on_dfl eqn:Hdfl.
  - eapply wp_mono; [by apply (visit_tree_unified d Hdfl Hd (walk_limit d (m_cfs_bw m)) t m Ht Htop Hbw Hwf)|].
    intros ret m' (HF & -> & _). done.
  - by apply (visit_tree d Hdfl Hd _ t m Ht Htop Hbw Hwf).
Qed.

Lemma wp_set_bandwidth tg period quota burst m t :
  bw_tree m t -> tg ∈ nodes t -> in_u64 quota ->
  wp (tg_set_cfs_bandwidth tg period quota burst) (fun r m' =>
    let ok := accepted m t tg period quota burst in
    r = (if ok then Ok tt else Err EINVAL) /\
    limits_now (if ok then <[tg := (s64 period, quota, burst)]> (bw_limits <$> m_cfs_bw m)
                else bw_limits <$> m_cfs_bw m) m m') m.
Proof.
  intros HT Htg Hq. assert (H0 : limits_now (bw_limits <$> m_cfs_bw m) m m) by done.
  unfold tg_set_cfs_bandwidth, accepted. apply wp_bind, wp_gets.
  destruct (tg =? m_root_task_group m); [by apply wp_ret|].
  destruct (cfs_limits_ok period quota burst) eqn:Hok; cbn [negb andb]; [|by apply wp_ret].
  set (d := request tg period quota). pose proof (request_wf tg period quota burst Hok Hq) as Hd. fold d in Hd.
  apply wp_bind. unfold __cfs_schedulable. fold (request tg period quota). fold d.
  apply wp_bind, wp_gets. apply wp_bind. unfold wp at 1. rewrite <- (bt_root _ _ HT).
  rewrite (walk_visits _ tg_nop t m (schedulable_down_links d) (fun tg => preserves_ret same_links 0) (bt_tree _ _ HT)).
  pose proof (walk_decides d t m Hd HT) as HV. unfold wp in HV. destruct (visit _ _ t m) as [ret m1|]; [|done].
  destruct HV as [HF Hret]. apply wp_ret. rewrite Hret.
  pose proof (hf_rest _ _ _ HF) as E1. pose proof (no_hier_limits _ _ (hf_bw _ _ _ HF)) as HA.
  destruct (cgroup_subsys_on_dfl || _)%bool; cbn [negb].
  - assert (HT1 : bw_tree m1 t).
    { apply (bw_tree_frame m); try (by rewrite E1); [|by eapply limits_agree_wf; [|apply HT] | done].
      intros x. by eapply limits_agree_some. }
    eapply wp_mono; [exact (wp_apply_limits tg period quota burst m1 t HT1 Htg)|].
    intros r m2 (-> & HL). split; [done|]. rewrite HA in HL.
    destruct HL as [Et Er Eo Ed El]. rewrite E1 in Et, Er, Eo, Ed. by split.
  - apply wp_ret. split; [done|]. split; by rewrite E1.
Qed.

Lemma limits_insert (B : gmap Z cfs_bandwidth) tg period quota burst b :
  B !! tg = Some b ->
  <[tg := (s64 period, quota, burst)]> (bw_limits <$> B) = bw_limits <$> <[tg := set_limits period quota burst b]> B.
Proof. intros Hb. by rewrite fmap_insert. Qed.

(** The tree with new limits. *)
Lemma limits_now_ok m m' t (B : gmap Z cfs_bandwidth) :
  bw_tree m t -> map_Forall (fun _ => bw_wf) B -> (forall x, is_Some (m_cfs_bw m !! x) -> is_Some (B !! x)) ->
  limits_now (bw_limits <$> B) m m' ->
  bw_tree m' t /\ feasible_tree (limit_in (m_cfs_bw m')) t = feasible_tree (limit_in B) t.
Proof.
  intros HT HB Hd [Et Er Eo Ed El]. split.
  - apply (bw_tree_frame m); try done; [|by eapply limits_agree_wf].
    intros x Hx. eapply limits_agree_some; [exact El | auto].
  - apply feasible_tree_ext. intros x. by apply limits_agree_limit.
Qed.

Lemma set_bandwidth_ok tg period quota burst m t :
  limits_in_range m t -> tg ∈ nodes t -> in_u64 quota -> in_u64 burst ->
  wp (tg_set_cfs_bandwidth tg period quota burst) (fun _ m' => limits_in_range m' t) m.
Proof.
  intros [[HT Hf] HBu] Htg Hq Hu. eapply wp_mono; [by apply wp_set_bandwidth|]. cbv zeta.
  intros r m' [_ HL]. destruct (accepted m t tg period quota burst) eqn:Ha.
  - unfold accepted in Ha. apply andb_prop in Ha as [Ha Hfe]. apply andb_prop in Ha as [_ Hok].
    destruct (bt_bw _ _ HT tg Htg) as [b Hb]. rewrite (limits_insert _ _ _ _ _ b Hb) in HL.
    destruct (limits_now_ok m m' t (<[tg := set_limits period quota burst b]> (m_cfs_bw m)) HT) as [HT' Ef].
    + apply map_Forall_insert_2; [by apply limits_ok_wf | apply HT].
    + intros x Hx. destruct (decide (x = tg)) as [->|]; [rewrite lookup_insert_eq; by eexists | by rewrite lookup_insert_ne].
    + done.
    + split; [split; [done|]|].
      * intros Hdfl. rewrite Hdfl in Hfe. rewrite Ef, <- Hfe. apply feasible_tree_ext. intros x. symmetry. by apply request_limit.
      * eapply limits_agree_burst; [exact (ln_limits _ _ _ HL)|].
        apply map_Forall_insert_2; [by apply limits_ok_burst | done].
  - destruct (limits_now_ok m m' t (m_cfs_bw m) HT) as [HT' Ef]; [apply HT | done | done |].
    split; [split; [done|]|].
    + intros Hdfl. rewrite Ef. auto.
    + eapply limits_agree_burst; [exact (ln_limits _ _ _ HL) | done].
Qed.

(** ** The control files *)
Inductive bw_write : Type :=
| write_cfs_quota_us (v : Z)
| write_cfs_period_us (v : Z)
| write_cfs_burst_us (v : Z)
| write_max (buf : string) (nbytes : Z).

Definition run_write (tg : Z) (w : bw_write) : K unit :=
  match w with
  | write_cfs_quota_us v => cpu_cfs_quota_write_s64 tg v ;; mret tt
  | write_cfs_period_us v => cpu_cfs_period_write_u64 tg v ;; mret tt
  | write_cfs_burst_us v => cpu_cfs_burst_write_u64 tg v ;; mret tt
  | write_max buf nbytes => cpu_max_write tg buf nbytes ;; mret tt
  end.

Lemma bw_wf_quota_u64 b : bw_wf b -> in_u64 (bw_quota b).
Proof.
  intros [_ [->|Hq]]; unfold in_u64; [rewrite RUNTIME_INF_val; lia|]. rewrite max_cfs_runtime_val in Hq. lia.
Qed.

Lemma INF_u64 : in_u64 RUNTIME_INF.
Proof. unfold in_u64. rewrite RUNTIME_INF_val. lia. Qed.

Lemma parse_quota_u64 buf p0 p q : cpu_period_quota_parse buf p0 = Ok (p, q) -> in_u64 q.
Proof.
  unfold cpu_period_quota_parse. destruct (String.eqb buf ""); [done|]. destruct (scan_word _ _) as [tok rest].
  destruct (scan_llu tok); [intros [= _ <-]; apply u64_range|].
  destruct (String.eqb tok "max"); [intros [= _ <-]; apply INF_u64 | done].
Qed.

Lemma run_write_ok tg w m t :
  limits_in_range m t -> tg ∈ nodes t ->
  wp (run_write tg w) (fun _ m' => limits_in_range m' t) m.
Proof.
  intros HB Htg. pose proof HB as [[HT _] HBu]. destruct (bt_bw _ _ HT tg Htg) as [b Hb].
  pose proof (bt_wf _ _ HT _ _ Hb) as Hw. destruct (HBu _ _ Hb) as [Hbu _].
  assert (Hset : forall p q u, in_u64 q -> in_u64 u ->
    wp (tg_set_cfs_bandwidth tg p q u) (fun _ m' => limits_in_range m' t) m) by (intros; by apply set_bandwidth_ok).
  destruct w; cbn [run_write]; apply wp_bind; unfold cpu_cfs_quota_write_s64, cpu_cfs_period_write_u64,
    cpu_cfs_burst_write_u64, tg_set_cfs_quota, tg_set_cfs_period, tg_set_cfs_burst.
  - apply wp_bind, wp_deref. exists b. split; [done|]. destruct (v <? 0).
    + apply (wp_mono _ (fun _ m' => limits_in_range m' t)); [by apply Hset; [apply INF_u64|] | done].
    + destruct (_ <=? _); [|done].
      apply (wp_mono _ (fun _ m' => limits_in_range m' t)); [by apply Hset; [apply u64_range|] | done].
  - destruct (_ <? _); [done|]. apply wp_bind, wp_deref. exists b. split; [done|].
    apply (wp_mono _ (fun _ m' => limits_in_range m' t)); [by apply Hset; [apply bw_wf_quota_u64|] | done].
  - destruct (_ <? _); [done|]. apply wp_bind, wp_deref. exists b. split; [done|].
    apply (wp_mono _ (fun _ m' => limits_in_range m' t)); [by apply Hset; [apply bw_wf_quota_u64 | apply u64_range] | done].
  - unfold cpu_max_write. apply wp_bind. unfold wp at 1. rewrite (get_period tg b) by done.
    apply wp_bind. unfold tg_get_cfs_burst. apply wp_bind, wp_deref. exists b. split; [done|]. apply wp_ret.
    destruct (cpu_period_quota_parse buf _) as [[p q]|e] eqn:Ep; [|by apply wp_ret].
    apply wp_bind. eapply wp_mono.
    { apply Hset; [exact (parse_quota_u64 _ _ _ _ Ep) | apply u64_range]. }
    intros [[]|e] m' H'; by apply wp_ret.
Qed.
End SetLimits.
End Limits.
