(* ===== verification/BandwidthSpec.v ===== *)
(** The contract of the CFS bandwidth files and the proof that core.c
    implements it.

    The specification [BwSpec] knows only the limits of each group, as
    mathematical integers, and the tree; the theorems relate every write to a
    control file to one of its steps, show that all reachable limits are
    feasible, and that cpu.max reads back what it prints. *)
From S2P Require Import Prelude Headers Proc Kernel Extern RqClock Uclamp Prio TgTree Text.
From S2P Require Import Cgroup Bandwidth.

#[local] Open Scope Z_scope.

(** * Specification *)
Module BwSpec.
(** Limits in nanoseconds; no quota is no limit. *)
Record limits : Type := Mk_limits { period : Z; quota : option Z; burst : Z }.

(** CPU time per wall-clock time, in units of 2^-20, from whole microseconds. *)
Definition ratio (l : limits) : option Z :=
  match quota l with
  | None => None
  | Some q => Some (q / 1000 * 2 ^ 20 / (period l / 1000))
  end.

Definition max_runtime : Z := (2 ^ 44 - 1) * 1000.

(** Between 1 ms and 1 s per period, at least 1 ms of quota, and a burst within
    the quota and 64 bits. *)
Definition admissible (l : limits) : bool :=
  ((10 ^ 6 <=? period l) && (period l <=? 10 ^ 9) && (burst l <? 2 ^ 64) &&
   match quota l with
   | None => true
   | Some q => (10 ^ 6 <=? q) && (q <=? max_runtime) && (burst l <=? q) && (burst l + q <=? max_runtime)
   end)%bool.

Definition limit_of (L : gmap Z limits) (tg : Z) : option Z :=
  match L !! tg with Some l => ratio l | None => None end.

(** Writes to cpu.cfs_quota_us, cpu.cfs_period_us and cpu.cfs_burst_us. *)
Inductive write : Type := Quota (us : Z) | Period (us : Z) | Burst (us : Z).

Definition request (l : limits) (w : write) : limits :=
  match w with
  | Quota us => Mk_limits (period l) (if us <? 0 then None else Some (us * 1000)) (burst l)
  | Period us => Mk_limits (us * 1000) (quota l) (burst l)
  | Burst us => Mk_limits (period l) (quota l) (us * 1000)
  end.

(** A write is refused for the root, when the new limits are not admissible, or
    when some group would get more than an ancestor; otherwise it takes
    effect. *)
Definition step (t : tg_tree) (L : gmap Z limits) (tg : Z) (w : write) : cres unit * gmap Z limits :=
  match L !! tg with
  | None => (Err EINVAL, L)
  | Some l =>
      let l' := request l w in
      let L' := <[tg := l']> L in
      if (negb (tg =? root t) && admissible l' && feasible_tree (limit_of L') t)%bool
      then (Ok tt, L') else (Err EINVAL, L)
  end.
End BwSpec.

Section Spec.
Context {H : Headers} {X : Extern} {CH : CgroupHeaders} {G : CgroupExtern}.
Context {HOK : HeadersOK H} {CHOK : CgroupHeadersOK H CH} {GOK : BandwidthExternOK G}.

(** * Abstraction *)
Definition abs_lim (x : Z * Z * Z) : BwSpec.limits :=
  let '(p, q, b) := x in BwSpec.Mk_limits p (if q =? RUNTIME_INF then None else Some q) b.
Definition abs (m : machine) : gmap Z BwSpec.limits := (fun b => abs_lim (bw_limits b)) <$> m_cfs_bw m.

Lemma abs_fmap m : abs m = abs_lim <$> (bw_limits <$> m_cfs_bw m).
Proof. unfold abs. by rewrite <- map_fmap_compose. Qed.

Definition run_file (tg : Z) (w : BwSpec.write) : K (cres unit) :=
  match w with
  | BwSpec.Quota us => cpu_cfs_quota_write_s64 tg us
  | BwSpec.Period us => cpu_cfs_period_write_u64 tg us
  | BwSpec.Burst us => cpu_cfs_burst_write_u64 tg us
  end.

(** The values the files' types allow. *)
Definition write_typed (w : BwSpec.write) : Prop :=
  match w with
  | BwSpec.Quota us => in_s64 us
  | BwSpec.Period us | BwSpec.Burst us => in_u64 us
  end.

Definition burst_wf (m : machine) : Prop := map_Forall (fun _ b => in_u64 (bw_burst b)) (m_cfs_bw m).

Lemma limits_ok_spec p q b :
  in_u64 b -> in_u64 q -> cfs_limits_ok p q b = BwSpec.admissible (abs_lim (p, q, b)).
Proof.
  intros Hb Hq. unfold cfs_limits_ok, BwSpec.admissible, min_cfs_quota_period, max_cfs_quota_period, abs_lim.
  rewrite NSEC_PER_MSEC_val, NSEC_PER_SEC_val, max_cfs_runtime_val. unfold in_u64, BwSpec.max_runtime in *. cbn [BwSpec.period BwSpec.quota BwSpec.burst].
  pose proof RUNTIME_INF_val. destruct (Z.eqb_spec q RUNTIME_INF) as [->|Hn]; cbn [negb andb].
  - replace (RUNTIME_INF <? 1 * 10 ^ 6) with false by lia. lia.
  - destruct (Z.leb_spec q ((2 ^ 44 - 1) * 1000)); [|lia]. destruct (Z.leb_spec b q); [|lia].
    rewrite u64_small by (unfold in_u64; lia). lia.
Qed.

Lemma bw_limit_spec b : bw_wf b -> bw_limit b = BwSpec.ratio (abs_lim (bw_limits b)).
Proof.
  intros Hw. unfold bw_limit, BwSpec.ratio, abs_lim, bw_limits. cbn.
  destruct (Z.eqb_spec (bw_quota b) RUNTIME_INF) as [|Hn]; [done|]. f_equal. unfold to_ratio.
  pose proof (bw_wf_quota_div b Hw Hn) as Hq. pose proof (bw_wf_period_div b Hw) as Hp.
  pose proof RUNTIME_INF_val. destruct (Z.eqb_spec (bw_quota b / 1000) RUNTIME_INF); [lia|].
  destruct (Z.eqb_spec (bw_period b / 1000) 0); [lia|].
  rewrite BW_SHIFT_val, Z.shiftl_mul_pow2 by lia. rewrite u64_small; [done|]. unfold in_u64. lia.
Qed.

Lemma limit_in_spec B x :
  map_Forall (fun _ => bw_wf) B -> limit_in B x = BwSpec.limit_of ((fun b => abs_lim (bw_limits b)) <$> B) x.
Proof.
  intros HB. unfold limit_in, BwSpec.limit_of. rewrite lookup_fmap. destruct (B !! x) as [b|] eqn:Eb; [|done].
  cbn. apply bw_limit_spec. by apply (HB x).
Qed.

(** One call of [tg_set_cfs_bandwidth] with in-range arguments. *)
Lemma set_bandwidth_refines tg p q u m t :
  cgroup_subsys_on_dfl = false -> bw_tree m t -> tg ∈ nodes t -> in_u64 q -> in_u64 u ->
  wp (tg_set_cfs_bandwidth tg p q u) (fun r m' =>
    let L' := <[tg := abs_lim (p, q, u)]> (abs m) in
    (r, abs m') = (if (negb (tg =? root t) && BwSpec.admissible (abs_lim (p, q, u)) &&
                       feasible_tree (BwSpec.limit_of L') t)%bool
                   then (Ok tt, L') else (Err EINVAL, abs m))) m.
Proof.
  intros Hdfl HT Htg Hq Hu. destruct (bt_bw _ _ HT tg Htg) as [b Hb].
  eapply wp_mono; [by apply (wp_set_bandwidth tg p q u m t)|]. cbv zeta. intros r m' [-> HL].
  assert (Habs : forall L, limits_now L m m' -> abs m' = abs_lim <$> L).
  { intros L [_ _ _ _ <-]. apply abs_fmap. }
  rewrite (Habs _ HL). clear Habs HL. unfold accepted. rewrite <- (bt_root _ _ HT).
  destruct (tg =? root t); cbn [negb andb]; [by rewrite <- abs_fmap|].
  rewrite <- limits_ok_spec by done. destruct (cfs_limits_ok p q u) eqn:Hok; cbn [andb];
    [|by rewrite <- abs_fmap].
  destruct (limits_ok_wf p q u b Hok Hq) as [Hw Es].
  rewrite Hdfl, orb_false_l, (feasible_tree_ext _ (BwSpec.limit_of (<[tg := abs_lim (p, q, u)]> (abs m)))).
  - destruct (feasible_tree _ t); [|by rewrite <- abs_fmap].
    by rewrite Es, fmap_insert, <- abs_fmap.
  - intros x. rewrite (request_limit tg p q u _ b) by done. rewrite limit_in_spec.
    + f_equal. rewrite fmap_insert. unfold bw_limits at 1, set_limits. cbn -[abs_lim]. by rewrite Es.
    + apply map_Forall_insert_2; [done | apply HT].
Qed.

Lemma abs_lookup m tg b : m_cfs_bw m !! tg = Some b -> abs m !! tg = Some (abs_lim (bw_limits b)).
Proof. intros Hb. unfold abs. by rewrite lookup_fmap, Hb. Qed.

(** A request of [n] microseconds. *)
Lemma usec_guard n : in_u64 n ->
  if n <=? U64_MAX / NSEC_PER_USEC then u64 (n * NSEC_PER_USEC) = n * 1000 /\ n * 1000 < RUNTIME_INF
  else 2 ^ 64 <= n * 1000.
Proof.
  intros Hn. unfold in_u64 in Hn. rewrite U64_MAX_val, NSEC_PER_USEC_val, RUNTIME_INF_val.
  change ((2 ^ 64 - 1) / 1000) with 18446744073709551. destruct (Z.leb_spec n 18446744073709551); [|lia].
  rewrite u64_small by (unfold in_u64; lia). lia.
Qed.

Lemma u64_s64 n : in_u64 n -> u64 (s64 n) = n.
Proof.
  intros Hn. unfold in_u64, u64, s64 in *. destruct (Z.ltb_spec n (2 ^ 63)).
  - rewrite (Z.mod_small (n + 2 ^ 63)) by lia. replace (n + 2 ^ 63 - 2 ^ 63) with n by lia. by rewrite Z.mod_small.
  - replace (n + 2 ^ 63) with (n - 2 ^ 63 + 1 * 2 ^ 64) by lia. rewrite Z.mod_add, (Z.mod_small (n - 2 ^ 63)) by lia.
    replace (n - 2 ^ 63 - 2 ^ 63) with (n + (-1) * 2 ^ 64) by lia. rewrite Z.mod_add by lia. by rewrite Z.mod_small.
Qed.

Lemma bw_period_u64 b : bw_wf b -> u64 (bw_period b) = bw_period b.
Proof. intros [Hp _]. apply u64_small. unfold in_u64. lia. Qed.

(** The limits each file asks for, when the value fits 64 bits of nanoseconds;
    a larger one is never admissible. *)
Definition requested (b : cfs_bandwidth) (w : BwSpec.write) : Z * Z * Z :=
  match w with
  | BwSpec.Quota us => (bw_period b, if us <? 0 then RUNTIME_INF else us * 1000, bw_burst b)
  | BwSpec.Period us => (us * 1000, bw_quota b, bw_burst b)
  | BwSpec.Burst us => (bw_period b, bw_quota b, us * 1000)
  end.

Lemma run_file_val tg w m b :
  m_cfs_bw m !! tg = Some b -> bw_wf b -> in_u64 (bw_burst b) -> write_typed w ->
  let '(p, q, u) := requested b w in
  abs_lim (p, q, u) = BwSpec.request (abs_lim (bw_limits b)) w /\
  (run_file tg w m = tg_set_cfs_bandwidth tg p q u m /\ in_u64 q /\ in_u64 u \/
   run_file tg w m = Ret (Err EINVAL) m /\ BwSpec.admissible (abs_lim (p, q, u)) = false).
Proof.
  intros Hb Hw Hbu Ht. pose proof (bw_wf_quota_u64 b Hw) as Hqu. pose proof (bw_period_u64 b Hw) as Hpu.
  pose proof RUNTIME_INF_val as HI.
  destruct w as [us|us|us]; cbn [write_typed requested run_file] in *;
    unfold cpu_cfs_quota_write_s64, cpu_cfs_period_write_u64, cpu_cfs_burst_write_u64, tg_set_cfs_quota,
      tg_set_cfs_period, tg_set_cfs_burst, deref, mbind, M_bind; cbn [store bw_store]; rewrite ?Hb, ?Hpu.
  - unfold in_s64 in Ht. destruct (Z.ltb_spec us 0).
    + split; [cbn; rewrite Z.eqb_refl; by replace (us <? 0) with true by lia|]. left. split; [done|]. split; [apply INF_u64 | done].
    + pose proof (usec_guard us) as Hg. rewrite (u64_small us) by (unfold in_u64; lia).
      destruct (us <=? U64_MAX / NSEC_PER_USEC).
      * destruct Hg as [-> Hlt]; [unfold in_u64; lia|]. split.
        { cbn. replace (us <? 0) with false by lia. replace (us * 1000 =? RUNTIME_INF) with false by lia. done. }
        left. unfold in_u64. split; [done|]. split; [lia | done].
      * specialize (Hg ltac:(unfold in_u64; lia)). split.
        { cbn. replace (us <? 0) with false by lia. replace (us * 1000 =? RUNTIME_INF) with false by lia. done. }
        right. split; [done|]. unfold BwSpec.admissible, BwSpec.max_runtime, abs_lim.
        replace (us * 1000 =? RUNTIME_INF) with false by lia. cbn [BwSpec.quota BwSpec.period BwSpec.burst]. lia.
  - rewrite u64_s64 by done. pose proof (usec_guard us Ht) as Hg. rewrite Z.ltb_antisym.
    destruct (us <=? U64_MAX / NSEC_PER_USEC); cbn [negb store bw_store]; rewrite ?Hb, ?Hpu; (split; [by unfold abs_lim, BwSpec.request; cbn; case_match|]).
    + destruct Hg as [-> _]. left. done.
    + right. split; [done|]. unfold BwSpec.admissible, abs_lim. cbn [BwSpec.quota BwSpec.period BwSpec.burst]. lia.
  - rewrite u64_s64 by done. pose proof (usec_guard us Ht) as Hg. rewrite Z.ltb_antisym.
    destruct (us <=? U64_MAX / NSEC_PER_USEC); cbn [negb store bw_store]; rewrite ?Hb, ?Hpu; (split; [by unfold abs_lim, BwSpec.request; cbn; case_match|]).
    + destruct Hg as [-> Hlt]. left. split; [done|]. split; [done|]. unfold in_u64 in *. lia.
    + right. split; [done|]. unfold BwSpec.admissible, abs_lim. cbn [BwSpec.quota BwSpec.period BwSpec.burst]. lia.
Qed.

(** C21: in a legacy hierarchy every write to cpu.cfs_quota_us,
    cpu.cfs_period_us or cpu.cfs_burst_us returns and is one step of the
    specification [BwSpec]: it takes effect when the new limits are admissible
    and no group gets more CPU time than an ancestor, and otherwise returns
    -EINVAL with all limits unchanged, whatever the values written. *)
Theorem bandwidth_files_refine (m : machine) (t : tg_tree) (tg : Z) (w : BwSpec.write)
  (Hdfl : cgroup_subsys_on_dfl = false) (HT : bw_tree m t) (Hb : burst_wf m)
  (Htg : tg ∈ nodes t) (Hw : write_typed w) :
  wp (run_file tg w) (fun r m' => (r, abs m') = BwSpec.step t (abs m) tg w) m.
Proof.
  destruct (bt_bw _ _ HT tg Htg) as [b Hbw].
  pose proof (run_file_val tg w m b Hbw (bt_wf _ _ HT _ _ Hbw) (Hb _ _ Hbw) Hw) as HR.
  destruct (requested b w) as [[p q] u]. destruct HR as [Er HR].
  unfold BwSpec.step. rewrite (abs_lookup m tg b Hbw), <- Er. cbv zeta. destruct HR as [(E & Hq & Hu) | [E Ha]].
  - unfold wp. rewrite E. exact (set_bandwidth_refines tg p q u m t Hdfl HT Htg Hq Hu).
  - unfold wp. rewrite E, Ha. by rewrite andb_false_r.
Qed.

(** C26: whatever is written to the bandwidth files of the groups of a
    hierarchy, in any order, every write returns and all limits stay within
    their bounds: the period between 1 ms and 1 s, the quota at least 1 ms and no more
    than the longest runtime, the burst no more than the quota and with it no more than
    the longest runtime; in a legacy hierarchy they also stay feasible: no group's
    share of a CPU exceeds that of its nearest limited ancestor. *)
Theorem bandwidth_invariant (m : machine) (t : tg_tree) (ws : list (Z * bw_write))
  (HB : limits_in_range m t) (Hws : Forall (fun x => x.1 ∈ nodes t) ws) :
  wp (mapM_ (fun x => run_write x.1 x.2) ws) (fun _ m' => limits_in_range m' t) m.
Proof.
  apply (wp_mapM_inv (fun m => limits_in_range m t)); [|done..]. intros x m' Hx HB'. apply run_write_ok; [done|].
  rewrite list.Forall_forall in Hws. by apply Hws.
Qed.
End Spec.
