(* ===== verification/CgroupFiles.v ===== *)
(** The text and weight files of the cpu controller: what is written is read
    back, and what goes wrong at the edges of the conversions. *)
From Stdlib Require Import Ascii.
From S2P Require Import Prelude Headers Proc Kernel Extern RqClock Uclamp Prio TgTree Text.
From S2P Require Import Cgroup Bandwidth.

#[local] Open Scope string_scope.
#[local] Open Scope list_scope.
#[local] Open Scope Z_scope.

(** What kernel/sched/fair.c documents of sched_group_set_shares(): refused for
    the root and for idle groups, otherwise the value is clamped. *)
Class SharesOK (H : Headers) (CH : CgroupHeaders) (G : CgroupExtern) : Prop := {
  set_shares_ok tg s m g : m_tgs m !! tg = Some g -> tg <> m_root_task_group m -> tg_idle g = 0 ->
    wp (sched_group_set_shares tg s) (fun r m' => r = Ok tt /\ exists g', m_tgs m' !! tg = Some g' /\
      tg_shares g' = Z.max (scale_load MIN_SHARES) (Z.min s (scale_load MAX_SHARES))) m;
}.

Section Files.
Context {H : Headers} {X : Extern} {CH : CgroupHeaders} {G : CgroupExtern}.
Context {HOK : HeadersOK H} {CHOK : CgroupHeadersOK H CH}.

(** * cpu.max *)
Definition quota_word (quota : Z) : string := if quota <? 0 then "max" else show_ld quota.

Lemma print_shape period quota :
  0 <= period -> cpu_period_quota_print period quota =
  quota_word quota +:+ String " " (show_llu period +:+ newline).
Proof.
  intros Hp. unfold cpu_period_quota_print, quota_word, show_ld. by replace (period <? 0) with false by lia.
Qed.

Lemma quota_word_ok quota : quota < 2 ^ 63 ->
  word (quota_word quota) = true /\ (String.length (quota_word quota) <= 20)%nat /\ quota_word quota <> "".
Proof.
  intros Hq. unfold quota_word. destruct (Z.ltb_spec quota 0); [cbn; split; [done | split; [lia | done]]|].
  unfold show_ld. replace (quota <? 0) with false by lia. destruct (show_llu_word quota) as [? ?]; [done|].
  split; [done|]. split; [done|]. unfold show_llu.
  destruct (digits_shape 20 quota "") as (c & s & -> & _); [change (Z.of_nat 20) with 20; lia | lia | done].
Qed.

(** What cpu.max prints is what it parses. *)
Lemma parse_print period quota p0 :
  0 <= period < 2 ^ 63 -> quota < 2 ^ 63 ->
  cpu_period_quota_parse (cpu_period_quota_print period quota) p0 =
  Ok (u64 (period * NSEC_PER_USEC), if quota <? 0 then RUNTIME_INF else u64 (quota * NSEC_PER_USEC)).
Proof.
  intros Hp Hq. rewrite print_shape by lia. destruct (quota_word_ok quota Hq) as (Hw & Hl & Hn).
  unfold cpu_period_quota_parse.
  assert (Hne : String.eqb (quota_word quota +:+ String " " (show_llu period +:+ newline)) "" = false).
  { apply String.eqb_neq. by destruct (quota_word quota). }
  rewrite Hne. clear Hne.
  assert (Hs : skip_spaces (quota_word quota +:+ String " " (show_llu period +:+ newline)) =
    quota_word quota +:+ String " " (show_llu period +:+ newline)).
  { destruct (quota_word quota) as [|c s]; [done|]. cbn in Hw. apply andb_prop in Hw as [Hc _].
    apply negb_true_iff in Hc. rewrite string_app_cons. cbn. by rewrite Hc. }
  rewrite Hs, scan_word_app by done. clear Hs.
  change (scan_llu (String " " ?s)) with (scan_llu s).
  unfold newline. rewrite scan_show_line by (unfold in_u64; done || lia).
  unfold quota_word. destruct (Z.ltb_spec quota 0); [done|].
  unfold show_ld. replace (quota <? 0) with false by lia. rewrite scan_show_llu by (unfold in_u64; lia). done.
Qed.

(** The limits of a group are whole microseconds. *)
Definition whole_us (b : cfs_bandwidth) : Prop :=
  (1000 | bw_period b) /\ (bw_quota b = RUNTIME_INF \/ (1000 | bw_quota b)).

Lemma whole_div a : (1000 | a) -> a / 1000 * 1000 = a.
Proof. intros [k ->]. rewrite Z.div_mul by lia. done. Qed.

Section Max.
Context {GOK : BandwidthExternOK G}.

(** The parsed limits of a group whose own text is written back. *)
Lemma parse_own b p0 :
  bw_wf b -> whole_us b ->
  cpu_period_quota_parse (cpu_period_quota_print (bw_period b / 1000) (quota_us b)) p0 =
  Ok (bw_period b, bw_quota b).
Proof.
  intros Hw [Hp Hq]. pose proof (bw_wf_period_div b Hw) as Hpd. destruct Hw as [Hpr Hqr].
  rewrite parse_print; [|lia|].
  - rewrite NSEC_PER_USEC_val, whole_div, (u64_small (bw_period b)) by (done || unfold in_u64; lia). do 2 f_equal.
    unfold quota_us. destruct (Z.eqb_spec (bw_quota b) RUNTIME_INF) as [E|E]; [done|].
    destruct Hq as [?|Hq]; [done|]. destruct Hqr as [?|Hqr]; [done|].
    replace (bw_quota b / 1000 <? 0) with false by (symmetry; apply Z.ltb_ge, Z.div_pos; lia).
    rewrite whole_div by done. apply u64_small. unfold in_u64. rewrite max_cfs_runtime_val in Hqr. lia.
  - unfold quota_us. destruct (Z.eqb_spec (bw_quota b) RUNTIME_INF) as [E|E]; [lia|].
    pose proof (bw_wf_quota_div b (conj Hpr Hqr) E). lia.
Qed.

(** The walk's limits when the request is what is already configured. *)
Lemma request_own tg b B x :
  bw_wf b -> B !! tg = Some b -> cfs_limits_ok (bw_period b) (bw_quota b) (bw_burst b) = true ->
  walk_limit (request tg (bw_period b) (bw_quota b)) B x = limit_in B x.
Proof.
  intros Hw Hb Hok. rewrite (request_limit tg _ _ (bw_burst b) B b) by (done || by apply bw_wf_quota_u64).
  rewrite insert_id; [done|]. rewrite Hb. f_equal. destruct Hw as [Hp _]. unfold set_limits.
  rewrite s64_small by (unfold in_s64; lia). by destruct b.
Qed.

Lemma burst_div_ok p q u :
  in_u64 u -> cfs_limits_ok p q u = true -> cfs_limits_ok p q (u / 1000) = true.
Proof.
  intros Hu Hok. unfold cfs_limits_ok in *. unfold in_u64 in Hu. rewrite max_cfs_runtime_val in *.
  assert (0 <= u / 1000 <= u) by (split; [apply Z.div_pos; lia | apply Z.div_le_upper_bound; lia]).
  destruct (Z.eqb_spec q RUNTIME_INF); cbn [negb andb] in *; [lia|].
  destruct (Z.ltb_spec ((2 ^ 44 - 1) * 1000) q); [lia|]. destruct (Z.ltb_spec q u); [lia|].
  destruct (Z.ltb_spec q (u / 1000)); [lia|].
  unfold min_cfs_quota_period in *. rewrite NSEC_PER_MSEC_val in *.
  destruct (Z.ltb_spec q (1 * 10 ^ 6)); [lia|].
  rewrite (u64_small (u + q)) in Hok by (unfold in_u64; lia). rewrite (u64_small (u / 1000 + q)) by (unfold in_u64; lia).
  lia.
Qed.

(** C27: writing back to cpu.max the text read from it succeeds and keeps the
    period and the quota of the group, and the limits of every other group;
    the group's burst, however, is divided by 1000, since cpu_max_write() takes
    it in microseconds and stores it as nanoseconds. *)
Theorem cpu_max_roundtrip (m : machine) (t : tg_tree) (tg nbytes : Z) (b : cfs_bandwidth)
  (HB : bandwidth_ok m t) (Htg : tg ∈ nodes t) (Hroot : tg <> m_root_task_group m)
  (Hb : m_cfs_bw m !! tg = Some b) (Hus : whole_us b) (Hu : in_u64 (bw_burst b))
  (Hok : cfs_limits_ok (bw_period b) (bw_quota b) (bw_burst b) = true) :
  wp (text ← cpu_max_show tg; cpu_max_write tg text nbytes) (fun r m' =>
    r = Ok nbytes /\
    bw_limits <$> m_cfs_bw m' =
      <[tg := (bw_period b, bw_quota b, bw_burst b / 1000)]> (bw_limits <$> m_cfs_bw m)) m.
Proof.
  destruct HB as [HT Hf]. pose proof (bt_wf _ _ HT _ _ Hb) as Hw. cbn beta in Hw.
  assert (Hshow : cpu_max_show tg m = Ret (cpu_period_quota_print (bw_period b / 1000) (quota_us b)) m).
  { unfold cpu_max_show, mbind, M_bind. by rewrite (get_period tg b), (get_quota tg b). }
  assert (Hud : 0 <= bw_burst b / 1000 < 2 ^ 63).
  { unfold in_u64 in Hu. split; [apply Z.div_pos; lia | apply Z.div_lt_upper_bound; lia]. }
  apply wp_bind. unfold wp at 1. rewrite Hshow. unfold cpu_max_write.
  apply wp_bind. unfold wp at 1. rewrite (get_period tg b) by done.
  apply wp_bind. unfold tg_get_cfs_burst. apply wp_bind, wp_deref. exists b. split; [done|]. apply wp_ret.
  rewrite parse_own by done. apply wp_bind.
  rewrite NSEC_PER_USEC_val, s64_small, u64_small by (unfold in_u64, in_s64; lia).
  eapply wp_mono; [apply (wp_set_bandwidth tg _ _ _ m t HT Htg); by apply bw_wf_quota_u64|]. cbv zeta.
  assert (Ha : accepted m t tg (bw_period b) (bw_quota b) (bw_burst b / 1000) = true).
  { unfold accepted. rewrite (proj2 (Z.eqb_neq _ _) Hroot), burst_div_ok by done. cbn [negb andb].
    destruct cgroup_subsys_on_dfl; [done|]. cbn [orb]. rewrite <- (Hf eq_refl).
    apply feasible_tree_ext. intros x. by apply request_own. }
  rewrite Ha. intros r m' [-> HL]. apply wp_ret. split; [done|].
  rewrite (ln_limits _ _ _ HL). destruct Hw as [Hp _]. by rewrite s64_small by (unfold in_s64; lia).
Qed.

(** in the unified hierarchy the walk never refuses a request and leaves
    every group's hierarchical quota at "no limit", whatever limits the groups
    have: the minimum it takes is one of signed numbers with -1 for no
    limit. *)
Theorem unified_hierarchical_quota (m : machine) (t : tg_tree) (tg period quota burst : Z)
  (Hdfl : cgroup_subsys_on_dfl = true) (HT : bw_tree m t) (Hq : in_u64 quota)
  (Hok : cfs_limits_ok period quota burst = true) :
  wp (__cfs_schedulable tg period quota) (fun r m' => r = Ok tt /\
    forall x, x ∈ nodes t -> exists b, m_cfs_bw m' !! x = Some b /\ bw_hierarchical_quota b = -1) m.
Proof.
  unfold __cfs_schedulable. fold (request tg period quota).
  pose proof (request_wf tg period quota burst Hok Hq) as Hd. set (d := request tg period quota) in *.
  apply wp_bind, wp_gets. apply wp_bind. unfold wp at 1. rewrite <- (bt_root _ _ HT).
  rewrite (walk_visits _ tg_nop t m (schedulable_down_links d) (fun tg => preserves_ret same_links 0) (bt_tree _ _ HT)).
  pose proof (visit_tree_unified d Hdfl Hd (walk_limit d (m_cfs_bw m)) t m (bt_tree _ _ HT) (bt_top _ _ HT)
    (bt_bw _ _ HT) (bt_wf _ _ HT) (fun _ => eq_refl)) as HV.
  unfold wp in HV. destruct (visit _ _ t m) as [ret m1|]; [|done]. destruct HV as (_ & -> & HU).
  apply wp_ret. split; [done|]. exact HU.
Qed.
End Max.

(** * Weights *)
Section Weights.
Context {SOK : SharesOK H CH G}.

Lemma weight_vals' : CGROUP_WEIGHT_MIN = 1 /\ CGROUP_WEIGHT_DFL = 100 /\ CGROUP_WEIGHT_MAX = 10000.
Proof. pose proof weight_vals as E. by injection E. Qed.

Lemma shares_vals' : scale_load MIN_SHARES = 2 * 1024 /\ scale_load MAX_SHARES = 2 ^ 18 * 1024.
Proof. pose proof shares_vals as E. injection E as -> ->. by rewrite !scale_load_val. Qed.

(** A weight within the range of shares is stored exactly. *)
Lemma set_shares_exact tg w m g :
  m_tgs m !! tg = Some g -> tg <> m_root_task_group m -> tg_idle g = 0 -> 2 <= w <= 2 ^ 18 ->
  wp (sched_group_set_shares tg (scale_load w)) (fun r m' => r = Ok tt /\
    exists g', m_tgs m' !! tg = Some g' /\ scale_load_down (tg_shares g') = w) m.
Proof.
  intros Hg Hr Hi Hw. eapply wp_mono; [by apply (set_shares_ok tg _ m g)|].
  intros r m' (-> & g' & Hg' & E). split; [done|]. exists g'. split; [done|].
  destruct shares_vals' as [E1 E2]. rewrite E, E1, E2, scale_load_val, scale_load_down_val by lia.
  replace (Z.max (2 * 1024) (Z.min (w * 1024) (2 ^ 18 * 1024))) with (w * 1024) by lia.
  replace (w * 1024 =? 0) with false by lia. rewrite Z.div_mul by lia. lia.
Qed.

Lemma weight_convert w : 1 <= w <= 10000 ->
  let a := DIV_ROUND_CLOSEST_ULL (u64 (w * 1024)) 100 in
  2 <= a <= 2 ^ 18 /\ DIV_ROUND_CLOSEST_ULL (u64 (a * 100)) 1024 = w.
Proof.
  intros Hw. cbv zeta. unfold DIV_ROUND_CLOSEST_ULL. change (100 / 2) with 50. change (1024 / 2) with 512.
  rewrite (u64_small (w * 1024)), (u64_small (w * 1024 + 50)) by (unfold in_u64; lia).
  set (a := (w * 1024 + 50) / 100).
  assert (Ha : 100 * a <= w * 1024 + 50 < 100 * a + 100).
  { unfold a. pose proof (Z.div_mod (w * 1024 + 50) 100). pose proof (Z.mod_pos_bound (w * 1024 + 50) 100). lia. }
  rewrite (u64_small (a * 100)), (u64_small (a * 100 + 512)) by (unfold in_u64; lia).
  split; [lia|]. symmetry. apply (Z.div_unique _ _ _ (a * 100 + 512 - 1024 * w)); lia.
Qed.

(** every value in range written to cpu.weight is read back, and every nice
    value written to cpu.weight.nice is read back, as the comment at
    cpu_weight_write_u64() says. *)
Theorem cpu_weight_roundtrip (m : machine) (tg : Z) (g : task_group) (v : Z)
  (Hg : m_tgs m !! tg = Some g) (Hroot : tg <> m_root_task_group m) (Hidle : tg_idle g = 0) :
  (1 <= v <= 10000 ->
   wp (cpu_weight_write_u64 tg v ;; cpu_weight_read_u64 tg) (fun w _ => w = v) m) /\
  (-20 <= v <= 19 ->
   wp (cpu_weight_nice_write_s64 tg v ;; cpu_weight_nice_read_s64 tg) (fun w _ => w = v) m).
Proof.
  destruct weight_vals' as (E1 & E2 & E3). split; intros Hv.
  - destruct (weight_convert v Hv) as [Hr Hc]. apply wp_bind. unfold cpu_weight_write_u64. rewrite E1, E2, E3.
    replace ((v <? 1) || (10000 <? v))%bool with false by lia.
    eapply wp_mono; [by apply (set_shares_exact tg _ m g)|]. intros r m' (-> & g' & Hg' & Hs).
    unfold cpu_weight_read_u64. apply wp_bind, wp_rd. exists g'. split; [done|]. apply wp_ret. by rewrite Hs, E2.
  - assert (exists w, sched_prio_to_weight !! Z.to_nat (v + 20) = Some w /\ 2 <= w <= 2 ^ 18 /\
      closest_weight w 0 INT_MAX sched_prio_to_weight = v + 21) as (w & Hw & Hr & Hc).
    { assert (Hall : forall n, (n < 40)%nat -> exists w, sched_prio_to_weight !! n = Some w /\ 2 <= w <= 2 ^ 18 /\
        closest_weight w 0 INT_MAX sched_prio_to_weight = Z.of_nat n + 1).
      { intros n Hn. do 40 (destruct n as [|n]; [eexists; split; [reflexivity|]; split; [lia | reflexivity]|]). lia. }
      destruct (Hall (Z.to_nat (v + 20))) as (w & ? & ? & E); [lia|]. exists w. split; [done|]. split; [done|]. lia. }
    apply wp_bind. unfold cpu_weight_nice_write_s64. rewrite MIN_NICE_val, MAX_NICE_val.
    replace ((v <? -20) || (19 <? v))%bool with false by lia.
    apply wp_bind. unfold table_get. rewrite NICE_TO_PRIO_val, MAX_RT_PRIO_val.
    replace (v + 120 - 100) with (v + 20) by lia. replace (v + 20 <? 0) with false by lia. rewrite Hw. apply wp_ret.
    eapply wp_mono; [by apply (set_shares_exact tg _ m g)|]. intros r m' (-> & g' & Hg' & Hs).
    unfold cpu_weight_nice_read_s64. apply wp_bind, wp_rd. exists g'. split; [done|]. apply wp_ret.
    rewrite Hs, Hc, PRIO_TO_NICE_val, MAX_RT_PRIO_val. lia.
Qed.
End Weights.
End Files.
