(* ===== verification/CgroupTree.v ===== *)
(** The life of a task group: creating one undoes itself on failure, and
    putting groups online and releasing them keeps the links of the hierarchy a
    tree, so that the walks over it terminate. *)
From S2P Require Import Prelude Headers Proc Kernel Extern RqClock Uclamp Prio TgTree Text.
From S2P Require Import Cgroup.

#[local] Open Scope Z_scope.

(** * Trees that gain and lose a group *)
Fixpoint add_child (p c : Z) (t : tg_tree) : tg_tree :=
  match t with
  | Node x kids => if x =? p then Node x (Node c [] :: kids) else Node x (map (add_child p c) kids)
  end.

Fixpoint remove_child (c : Z) (t : tg_tree) : tg_tree :=
  match t with
  | Node x kids => Node x (flat_map (fun k => if root k =? c then [] else [remove_child c k]) kids)
  end.

Lemma root_add p c t : root (add_child p c t) = root t.
Proof. destruct t; cbn. by destruct (_ =? _). Qed.

Lemma root_remove c t : root (remove_child c t) = root t.
Proof. by destruct t. Qed.

Lemma flat_elem l k x : k ∈ l -> x ∈ nodes k -> x ∈ flat_map nodes l.
Proof. intros Hk Hx. apply list_elem_of_In, in_flat_map. exists k. by rewrite <- !list_elem_of_In. Qed.

Lemma nodes_cons tg kids x : x ∈ nodes (Node tg kids) <-> x = tg \/ exists k, k ∈ kids /\ x ∈ nodes k.
Proof.
  cbn. rewrite elem_of_cons. enough (x ∈ flat_map nodes kids <-> exists k, k ∈ kids /\ x ∈ nodes k) by naive_solver.
  rewrite list_elem_of_In, in_flat_map. setoid_rewrite list_elem_of_In. done.
Qed.

Lemma nodes_add p c t x : x ∈ nodes (add_child p c t) -> x ∈ nodes t \/ (x = c /\ p ∈ nodes t).
Proof.
  induction t as [tg kids IH] using tg_tree_rect'. cbn [add_child]. destruct (Z.eqb_spec tg p) as [->|_].
  - rewrite !nodes_cons. intros [->|(k & Hk & Hx)]; [naive_solver|]. apply elem_of_cons in Hk as [->|Hk]; [|naive_solver].
    apply nodes_cons in Hx as [->|(? & ?%not_elem_of_nil & _)]; [naive_solver | done].
  - rewrite !nodes_cons. intros [->|(k & Hk & Hx)]; [naive_solver|].
    apply list_elem_of_In, in_map_iff in Hk as (k' & <- & Hk). apply list_elem_of_In in Hk.
    rewrite list.Forall_forall in IH. destruct (IH k' Hk Hx) as [?|[-> ?]]; naive_solver.
Qed.

Lemma nodup_kids tg kids k : NoDup (nodes (Node tg kids)) -> k ∈ kids -> NoDup (nodes k).
Proof.
  cbn. intros [_ Hn]%list.NoDup_cons Hk. induction kids as [|k' kids IH]; [by apply not_elem_of_nil in Hk|].
  cbn in Hn. apply list.NoDup_app in Hn as (H1 & _ & H2). apply elem_of_cons in Hk as [->|Hk]; auto.
Qed.

Lemma nodup_add p c t : NoDup (nodes t) -> c ∉ nodes t -> NoDup (nodes (add_child p c t)).
Proof.
  induction t as [tg kids IH] using tg_tree_rect'. intros Hn Hc. cbn [add_child].
  destruct (Z.eqb_spec tg p) as [->|_].
  - cbn in *. apply list.NoDup_cons in Hn as [H1 H2]. apply list.NoDup_cons. split; [set_solver|].
    apply list.NoDup_cons. split; [set_solver | done].
  - cbn in *. apply list.NoDup_cons in Hn as [H1 H2]. apply list.NoDup_cons. split.
    + intros Hx. rewrite flat_map_concat_map, map_map, <- flat_map_concat_map in Hx.
      apply list_elem_of_In, in_flat_map in Hx as (k & Hk & Hx). apply list_elem_of_In in Hk, Hx.
      apply nodes_add in Hx as [Hx|[-> _]]; [|set_solver].
      by apply H1, (flat_elem kids k).
    + assert (Hc' : c ∉ flat_map nodes kids) by set_solver. clear Hc H1.
      induction IH as [|k l Hk _ IH]; cbn in *; [done|]. apply list.NoDup_app in H2 as (Ha & Hd & Hb).
      apply list.NoDup_app. split; [apply Hk; set_solver|]. split; [|apply IH; set_solver].
      intros x Hx Hy. rewrite flat_map_concat_map, map_map, <- flat_map_concat_map in Hy.
      apply list_elem_of_In, in_flat_map in Hy as (k' & Hk' & Hy). apply list_elem_of_In in Hk', Hy.
      assert (Hin : forall z, z ∈ nodes k' -> z ∈ flat_map nodes l).
      { intros z Hz. by apply (flat_elem l k'). }
      apply nodes_add in Hx as [Hx|[-> Hp]], Hy as [Hy|[E Hp']].
      * by apply (Hd x); auto.
      * subst x. set_solver.
      * set_solver.
      * by apply (Hd p); auto.
Qed.

Lemma remove_flat_map c kids x :
  x ∈ flat_map nodes (flat_map (fun k => if root k =? c then [] else [remove_child c k]) kids) ->
  exists k, k ∈ kids /\ root k <> c /\ x ∈ nodes (remove_child c k).
Proof.
  induction kids as [|k l IH]; cbn; [by intros ?%not_elem_of_nil|]. destruct (Z.eqb_spec (root k) c) as [E|E]; cbn.
  - intros (k' & ? & ? & ?)%IH. exists k'. split; [by apply list_elem_of_further | done].
  - rewrite elem_of_app. intros [Hx|(k' & ? & ? & ?)%IH].
    + exists k. split; [apply list_elem_of_here | done].
    + exists k'. split; [by apply list_elem_of_further | done].
Qed.

Lemma nodes_remove c t x : x ∈ nodes (remove_child c t) -> x ∈ nodes t.
Proof.
  induction t as [tg kids IH] using tg_tree_rect'. cbn. rewrite !elem_of_cons. intros [->|Hx]; [by left|]. right.
  apply remove_flat_map in Hx as (k & Hk & _ & Hx). rewrite list.Forall_forall in IH.
  apply (flat_elem kids k); auto.
Qed.

Lemma nodup_remove c t : NoDup (nodes t) -> NoDup (nodes (remove_child c t)).
Proof.
  induction t as [tg kids IH] using tg_tree_rect'. cbn. intros [Hn HN]%list.NoDup_cons. apply list.NoDup_cons. split.
  - intros Hx. apply remove_flat_map in Hx as (k & Hk & _ & Hx). apply nodes_remove in Hx. apply Hn.
    by apply (flat_elem kids k).
  - clear Hn. induction IH as [|k l Hk _ IH]; cbn in *; [done|]. apply list.NoDup_app in HN as (Ha & Hd & Hb).
    destruct (root k =? c); cbn; [auto|]. apply list.NoDup_app. split; [auto|]. split; [|auto].
    intros x Hx Hy. apply remove_flat_map in Hy as (k' & Hk' & _ & Hy). apply nodes_remove in Hx, Hy.
    apply (Hd x Hx). by apply (flat_elem l k').
Qed.

(** Links that agree on the groups of a tree. *)
Lemma links_agree m m' t :
  (forall x, x ∈ nodes t -> tg_links <$> m_tgs m' !! x = tg_links <$> m_tgs m !! x) -> links m t -> links m' t.
Proof.
  induction t as [tg kids IH] using tg_tree_rect'. intros E HL. inversion HL as [? ? g Hg Hc Hk Hl]; subst.
  assert (Hsome : forall x gx, x ∈ nodes (Node tg kids) -> m_tgs m !! x = Some gx ->
    exists g', m_tgs m' !! x = Some g' /\ tg_parent g' = tg_parent gx /\ tg_children g' = tg_children gx).
  { intros x gx Hx Hgx. specialize (E x Hx). rewrite Hgx in E. destruct (m_tgs m' !! x) as [g'|]; [|done].
    injection E as E1 E2. by exists g'. }
  assert (Hin : forall k x, k ∈ kids -> x ∈ nodes k -> x ∈ nodes (Node tg kids)).
  { intros k x Hkk Hx. apply nodes_cons. eauto. }
  destruct (Hsome tg g) as (g' & Hg' & _ & Hc'); [cbn; apply list_elem_of_here | done|].
  apply links_node with g'; [done | congruence | |]; apply list.Forall_forall.
  - intros k Hkk. rewrite list.Forall_forall in Hk. destruct (Hk k Hkk) as (gk & Hgk & Hp).
    destruct (Hsome (root k) gk) as (gk' & ? & ? & _); [eapply Hin; [done | apply root_in_nodes] | done|].
    exists gk'. split; [done | congruence].
  - intros k Hkk. rewrite list.Forall_forall in IH, Hl. apply IH; eauto.
Qed.

(** * Links after a group is put online *)
Lemma links_add m m' p c gp t :
  m_tgs m !! p = Some gp -> p <> c ->
  tg_links <$> m_tgs m' !! c = Some (p, []) ->
  tg_links <$> m_tgs m' !! p = Some (tg_parent gp, c :: tg_children gp) ->
  (forall x, x <> c -> x <> p -> tg_links <$> m_tgs m' !! x = tg_links <$> m_tgs m !! x) ->
  NoDup (nodes t) -> c ∉ nodes t -> links m t -> links m' (add_child p c t).
Proof.
  intros Hgp Hpc Hc Hp Ho. induction t as [tg kids IH] using tg_tree_rect'. intros HN Hnc HL.
  inversion HL as [? ? g Hg Hch Hk Hl]; subst.
  assert (Hkid : forall k x, k ∈ kids -> x ∈ nodes k -> x ∈ nodes (Node tg kids)).
  { intros k x Hkk Hx. apply nodes_cons. eauto. }
  assert (Hpar : forall k, k ∈ kids -> child_of m' tg k).
  { intros k Hkk. rewrite list.Forall_forall in Hk. destruct (Hk k Hkk) as (gk & Hgk & Hpk).
    assert (root k <> c). { intros <-. apply Hnc. eapply Hkid; [done | apply root_in_nodes]. }
    destruct (decide (root k = p)) as [E|E].
    - rewrite E in Hgk. rewrite <- E in Hp. destruct (m_tgs m' !! root k) as [g'|] eqn:E'; [|done].
      injection Hp as E1 _. exists g'. split; [done|]. rewrite Hgk in Hgp. injection Hgp as <-. congruence.
    - specialize (Ho (root k) H E). rewrite Hgk in Ho. destruct (m_tgs m' !! root k) as [g'|] eqn:E'; [|done].
      injection Ho as E1 _. exists g'. split; [done | congruence]. }
  cbn [add_child]. destruct (Z.eqb_spec tg p) as [->|Hn].
  - rewrite Hg in Hgp. injection Hgp as <-. destruct (m_tgs m' !! p) as [g'|] eqn:E'; [|done]. injection Hp as Ep Ech.
    destruct (m_tgs m' !! c) as [gc|] eqn:Ec; [|done]. injection Hc as Ecp Ecc.
    apply links_node with g'; [done | cbn; congruence | |]; apply Forall_cons_2.
    + exists gc. done.
    + by apply list.Forall_forall.
    + by apply links_node with gc.
    + apply list.Forall_forall. intros k Hkk. rewrite list.Forall_forall in Hl.
      apply (links_agree m); [|by apply Hl]. intros x Hx. apply Ho; intros ->.
      * apply Hnc. eauto.
      * cbn in HN. apply list.NoDup_cons in HN as [HN _]. by apply HN, (flat_elem kids k).
  - assert (tg <> c). { intros ->. apply Hnc. cbn. apply list_elem_of_here. }
    specialize (Ho tg H Hn). rewrite Hg in Ho. destruct (m_tgs m' !! tg) as [g'|] eqn:E'; [|done]. injection Ho as Ep Ech.
    apply links_node with g'; [done | | |].
    + rewrite map_map. rewrite Ech, Hch. apply map_ext. intros k. by rewrite root_add.
    + apply list.Forall_forall. intros k' Hk'. apply list_elem_of_In, in_map_iff in Hk' as (k & <- & Hkk).
      apply list_elem_of_In in Hkk. destruct (Hpar k Hkk) as (gk & ? & ?). exists gk. by rewrite root_add.
    + apply list.Forall_forall. intros k' Hk'. apply list_elem_of_In, in_map_iff in Hk' as (k & <- & Hkk).
      apply list_elem_of_In in Hkk. rewrite list.Forall_forall in IH, Hl. apply IH; [done | | | by apply Hl].
      * by eapply nodup_kids.
      * intros Hx. apply Hnc. eauto.
Qed.

Lemma filter_roots c kids :
  List.filter (fun x => negb (x =? c)) (map root kids) =
  map root (flat_map (fun k => if root k =? c then [] else [remove_child c k]) kids).
Proof.
  induction kids as [|k l IH]; cbn; [done|]. destruct (root k =? c); cbn; [done|]. by rewrite IH, root_remove.
Qed.

Lemma flat_map_remove c kids k' :
  k' ∈ flat_map (fun k => if root k =? c then [] else [remove_child c k]) kids ->
  exists k, k ∈ kids /\ root k <> c /\ k' = remove_child c k.
Proof.
  rewrite list_elem_of_In, in_flat_map. intros (k & Hk & Hx). exists k. rewrite list_elem_of_In. split; [done|].
  destruct (Z.eqb_spec (root k) c); [done|]. cbn in Hx. naive_solver.
Qed.

(** Links after the group [c], child of [pc], is unlinked. *)
Lemma links_remove m m' pc c gp t :
  m_tgs m !! pc = Some gp -> (exists gc, m_tgs m !! c = Some gc /\ tg_parent gc = pc) ->
  tg_links <$> m_tgs m' !! pc = Some (tg_parent gp, List.filter (fun x => negb (x =? c)) (tg_children gp)) ->
  (forall x, x <> pc -> tg_links <$> m_tgs m' !! x = tg_links <$> m_tgs m !! x) ->
  links m t -> links m' (remove_child c t).
Proof.
  intros Hgp (gc & Hgc & Hpc) Hp Ho. induction t as [tg kids IH] using tg_tree_rect'. intros HL.
  inversion HL as [? ? g Hg Hch Hk Hl]; subst tg0 kids0.
  assert (Hpar : forall k, k ∈ kids -> child_of m' tg k).
  { intros k Hkk. rewrite list.Forall_forall in Hk. destruct (Hk k Hkk) as (gk & Hgk & Hpk).
    destruct (decide (root k = pc)) as [E|E].
    - rewrite E in Hgk. rewrite <- E in Hp. destruct (m_tgs m' !! root k) as [g'|] eqn:E'; [|done].
      injection Hp as E1 _. exists g'. split; [done|]. rewrite Hgk in Hgp. injection Hgp as <-. congruence.
    - specialize (Ho (root k) E). rewrite Hgk in Ho. destruct (m_tgs m' !! root k) as [g'|] eqn:E'; [|done].
      injection Ho as E1 _. exists g'. split; [done | congruence]. }
  assert (exists g', m_tgs m' !! tg = Some g' /\ tg_children g' = List.filter (fun x => negb (x =? c)) (map root kids))
    as (g' & Hg' & Hc').
  { destruct (decide (tg = pc)) as [->|E].
    - rewrite Hg in Hgp. injection Hgp as <-. destruct (m_tgs m' !! pc) as [g'|]; [|done]. injection Hp as _ Ec.
      exists g'. split; [done | congruence].
    - specialize (Ho tg E). rewrite Hg in Ho. destruct (m_tgs m' !! tg) as [g'|]; [|done]. injection Ho as _ Ec.
      exists g'. split; [done|]. rewrite Ec, Hch. symmetry. apply forallb_filter_id, forallb_forall.
      intros x Hx. apply in_map_iff in Hx as (k & <- & Hkk). apply list_elem_of_In in Hkk.
      rewrite list.Forall_forall in Hk. destruct (Hk k Hkk) as (gk & Hgk & Hpk).
      destruct (Z.eqb_spec (root k) c) as [Ek|]; [|done]. rewrite Ek, Hgc in Hgk. injection Hgk as <-. congruence. }
  cbn [remove_child]. apply links_node with g'; [done | by rewrite Hc', filter_roots | |];
    apply list.Forall_forall; intros k' (k & Hkk & Hkc & ->)%flat_map_remove.
  - destruct (Hpar k Hkk) as (gk & ? & ?). exists gk. by rewrite root_remove.
  - rewrite list.Forall_forall in IH, Hl. by apply IH, Hl.
Qed.

Lemma removed_gone c t : c ∈ nodes (remove_child c t) -> c = root t.
Proof.
  induction t as [tg kids IH] using tg_tree_rect'. cbn. rewrite elem_of_cons. intros [?|Hx]; [done|]. exfalso.
  apply remove_flat_map in Hx as (k & Hk & Hr & Hx). rewrite list.Forall_forall in IH.
  apply Hr. symmetry. by apply IH.
Qed.

(** A group below the root has its parent in the tree. *)
Lemma parent_in_tree m t c :
  links m t -> c ∈ nodes t -> c <> root t ->
  exists gc gp, m_tgs m !! c = Some gc /\ m_tgs m !! tg_parent gc = Some gp.
Proof.
  induction t as [tg kids IH] using tg_tree_rect'. intros HL Hc Hr.
  inversion HL as [? ? g Hg Hch Hk Hl]; subst tg0 kids0.
  apply nodes_cons in Hc as [->|(k & Hkk & Hc)]; [done|]. rewrite list.Forall_forall in IH, Hk, Hl.
  destruct (decide (c = root k)) as [->|Hn]; [|by apply (IH k Hkk (Hl k Hkk))].
  destruct (Hk k Hkk) as (gk & Hgk & Hp). exists gk, g. by rewrite Hp.
Qed.

(** * What core.c relies on *)

(** A call about group [tg] changes no other group and not the lists. *)
Record own_frame (tg : Z) (m m' : machine) : Prop := {
  of_tgs : delete tg (m_tgs m') = delete tg (m_tgs m);
  of_self : is_Some (m_tgs m' !! tg);
  of_bw : delete tg (m_cfs_bw m') = delete tg (m_cfs_bw m);
  of_list : m_task_groups m' = m_task_groups m;
}.

Class GroupExternOK (G : CgroupExtern) : Prop := {
  group_alloc_fresh m : task_group_alloc m <> NULL ->
    m_tgs m !! task_group_alloc m = None /\ m_cfs_bw m !! task_group_alloc m = None;
  alloc_fair_ok tg p m : is_Some (m_tgs m !! tg) -> wp (alloc_fair_sched_group tg p) (fun _ => own_frame tg m) m;
  alloc_rt_ok tg p m : is_Some (m_tgs m !! tg) -> wp (alloc_rt_sched_group tg p) (fun _ => own_frame tg m) m;
  free_fair_ok tg m : is_Some (m_tgs m !! tg) -> wp (free_fair_sched_group tg) (fun _ => own_frame tg m) m;
  free_rt_ok tg m : is_Some (m_tgs m !! tg) -> wp (free_rt_sched_group tg) (fun _ => own_frame tg m) m;
  free_autogroup_ok tg m : is_Some (m_tgs m !! tg) -> wp (autogroup_free tg) (fun _ => own_frame tg m) m;
  online_fair_ok tg m : is_Some (m_tgs m !! tg) ->
    wp (online_fair_sched_group tg) (fun _ m' => same_links m m' /\ m_task_groups m' = m_task_groups m) m;
}.

Section Life.
Context {H : Headers} {X : Extern} {CH : CgroupHeaders} {G : CgroupExtern}.
Context {HOK : HeadersOK H} {GOK : GroupExternOK G}.

(** [m] while group [tg], not one of [m0], is being set up. *)
Record making (tg : Z) (m0 m : machine) : Prop := {
  mk_tgs : delete tg (m_tgs m) = m_tgs m0;
  mk_self : is_Some (m_tgs m !! tg);
  mk_bw : delete tg (m_cfs_bw m) = m_cfs_bw m0;
  mk_list : m_task_groups m = m_task_groups m0;
}.

Lemma making_frame tg m0 m m' : making tg m0 m -> own_frame tg m m' -> making tg m0 m'.
Proof. intros [] []. split; congruence. Qed.

Lemma making_call {A} tg m0 m (c : K A) (Q : A -> machine -> Prop) :
  making tg m0 m -> (is_Some (m_tgs m !! tg) -> wp c (fun _ => own_frame tg m) m) ->
  (forall a m', making tg m0 m' -> Q a m') -> wp c Q m.
Proof.
  intros HM Hc HQ. eapply wp_mono; [apply Hc, HM|]. intros a m' HF. apply HQ. by eapply making_frame.
Qed.

Lemma wp_free_group tg m0 m :
  making tg m0 m ->
  wp (sched_free_group tg) (fun _ m' => m_tgs m' = m_tgs m0 /\ m_cfs_bw m' = m_cfs_bw m0 /\
    m_task_groups m' = m_task_groups m0) m.
Proof.
  intros HM. unfold sched_free_group.
  apply wp_bind, (making_call tg m0 m _ _ HM (free_fair_ok tg m)). clear m HM. intros _ m HM.
  apply wp_bind, (making_call tg m0 m _ _ HM (free_rt_ok tg m)). clear m HM. intros _ m HM.
  apply wp_bind, (making_call tg m0 m _ _ HM (free_autogroup_ok tg m)). clear m HM. intros _ m HM.
  apply wp_bind, wp_free_obj, wp_free_obj. cbn. split; [apply HM|]. split; apply HM.
Qed.

Lemma uclamp_none_value id (u : uclamp_se) : uc_value (uclamp_se_set u (uclamp_none id) false) = uclamp_none id.
Proof.
  unfold uclamp_se_set. cbn. rewrite (bits_per_val SCHED_CAPACITY_SCALE) by done.
  apply Z.mod_small. by destruct id.
Qed.

Lemma wp_alloc_uclamp tg p gp m0 m :
  making tg m0 m -> m_tgs m0 !! p = Some gp -> m_tgs m0 !! tg = None ->
  wp (alloc_uclamp_sched_group tg p) (fun _ m' => making tg m0 m' /\ exists g, m_tgs m' !! tg = Some g /\
    tg_uclamp g = tg_uclamp gp /\ forall id, uc_value (pc_get id (tg_uclamp_req g)) = uclamp_none id) m.
Proof.
  intros HM Hp Htg. assert (Hne : tg <> p) by congruence. destruct HM as [Et [g Hg] Eb El].
  assert (Hgp : m_tgs m !! p = Some gp). { by rewrite <- Et, lookup_delete_ne in Hp. }
  unfold alloc_uclamp_sched_group, for_each_clamp_id. cbn [mapM_].
  wp_go. split.
  - split; cbn; [|rewrite lookup_insert_eq; by eexists | done | done].
    by rewrite !insert_insert_eq, delete_insert_eq.
  - eexists. cbn. rewrite lookup_insert_eq. split; [done|]. cbn. split; [by destruct (tg_uclamp gp)|].
    intros [].
    + exact (uclamp_none_value UCLAMP_MIN _).
    + exact (uclamp_none_value UCLAMP_MAX _).
Qed.

(** creating a task group either fails with -ENOMEM and leaves the groups
    and their limits as they were, or adds exactly one group that is not yet
    linked anywhere, with the parent's effective clamps and no request of its
    own. *)
Theorem sched_create_group_spec (m : machine) (parent : Z) (gp : task_group)
  (Hp : m_tgs m !! parent = Some gp) :
  wp (sched_create_group parent) (fun r m' =>
    match r with
    | Err e => e = ENOMEM /\ m_tgs m' = m_tgs m /\ m_cfs_bw m' = m_cfs_bw m
    | Ok tg =>
        m_tgs m !! tg = None /\ delete tg (m_tgs m') = m_tgs m /\ m_task_groups m' = m_task_groups m /\
        exists g, m_tgs m' !! tg = Some g /\ tg_uclamp g = tg_uclamp gp /\
          forall id, uc_value (pc_get id (tg_uclamp_req g)) = uclamp_none id
    end) m.
Proof.
  unfold sched_create_group. apply wp_bind, wp_gets.
  destruct (Z.eqb_spec (task_group_alloc m) NULL) as [|Hn]; [by apply wp_ret|].
  destruct (group_alloc_fresh m Hn) as [Hf Hfb]. set (tg := task_group_alloc m) in *.
  apply wp_bind, wp_modify.
  match goal with |- wp _ _ ?M => assert (HM : making tg m M) end.
  { split; cbn; [by apply delete_insert_id | rewrite lookup_insert_eq; by eexists | by apply delete_insert_id | done]. }
  assert (Herr : forall m', making tg m m' -> wp (sched_free_group tg ;; mret (Err ENOMEM)) (fun r m' =>
    match r with
    | Err e => e = ENOMEM /\ m_tgs m' = m_tgs m /\ m_cfs_bw m' = m_cfs_bw m
    | Ok tg =>
        m_tgs m !! tg = None /\ delete tg (m_tgs m') = m_tgs m /\ m_task_groups m' = m_task_groups m /\
        exists g, m_tgs m' !! tg = Some g /\ tg_uclamp g = tg_uclamp gp /\
          forall id, uc_value (pc_get id (tg_uclamp_req g)) = uclamp_none id
    end) m').
  { intros m' HM'. apply wp_bind. eapply wp_mono; [by apply (wp_free_group tg m)|].
    intros [] m2 (? & ? & ?). by apply wp_ret. }
  apply wp_bind, (making_call tg m _ _ _ HM (alloc_fair_ok tg parent _)). clear HM. intros ok m1 HM.
  destruct ok; cbn [negb]; [|by apply Herr].
  apply wp_bind, (making_call tg m _ _ _ HM (alloc_rt_ok tg parent _)). clear HM. intros ok m2 HM.
  destruct ok; cbn [negb]; [|by apply Herr].
  apply wp_bind. eapply wp_mono; [by apply (wp_alloc_uclamp tg parent gp m)|].
  intros [] m3 (HM3 & Hg). apply wp_ret. split; [done|]. split; [apply HM3|]. split; [apply HM3 | done].
Qed.

(** C40: putting a new group online below a group of the hierarchy and
    releasing a group other than the root keep the links a tree: the new group
    becomes the first child, the released one is found by no walk and is on no
    list. *)
Theorem group_tree_maintained (m : machine) (t : tg_tree) (c : Z) (Htree : is_tree m t) :
  (forall p, p ∈ nodes t -> c ∉ nodes t -> c <> NULL -> is_Some (m_tgs m !! c) ->
   wp (sched_online_group c p) (fun _ m' =>
     is_tree m' (add_child p c t) /\ m_task_groups m' = c :: m_task_groups m) m) /\
  (c ∈ nodes t -> c <> root t ->
   wp (sched_release_group c) (fun _ m' =>
     is_tree m' (remove_child c t) /\ c ∉ nodes (remove_child c t) /\ c ∉ m_task_groups m') m).
Proof.
  pose proof Htree as [HL HN Hz]. split.
  - intros p Hp Hc Hcz [gc Hgc]. destruct (proj1 (elem_of_dom _ _) (links_dom _ _ _ HL Hp)) as [gp Hgp].
    assert (Hpc : p <> c) by (intros ->; done). assert (Hpz : p <> NULL) by (intros ->; done).
    unfold sched_online_group. apply wp_bind, wp_gets. apply wp_bind, wp_setg.
    apply wp_bind, wp_when. rewrite (proj2 (Z.eqb_neq _ _) Hpz).
    apply wp_bind, wp_wr. exists gc. split; [done|].
    apply wp_bind, wp_wr. eexists. split; [cbn; apply lookup_insert_eq|].
    apply wp_bind, wp_upd_obj. exists gp. split; [cbn; by rewrite !lookup_insert_ne|].
    match goal with |- wp _ _ ?M => set (m1 := M) end.
    eapply wp_mono.
    { apply online_fair_ok. cbn. rewrite lookup_insert_ne, lookup_insert_eq by done. by eexists. }
    intros [] m2 [HS ->]. split; [|done]. split.
    + apply (links_same m1); [done|]. apply (links_add m m1 p c gp); [done | done | | | | done | done | done].
      * cbn. by rewrite lookup_insert_ne, lookup_insert_eq by done.
      * cbn. by rewrite lookup_insert_eq.
      * intros x Hxc Hxp. cbn. by rewrite !lookup_insert_ne by done.
    + by apply nodup_add.
    + intros [?|[? _]]%nodes_add; [done | congruence].
  - intros Hc Hr. destruct (parent_in_tree _ _ _ HL Hc Hr) as (gc & gp & Hgc & Hgp).
    unfold sched_release_group. apply wp_bind, wp_gets. apply wp_bind, wp_setg.
    apply wp_bind, wp_rd. exists gc. split; [done|]. apply wp_upd_obj. exists gp. split; [done|].
    split; [split|split].
    + apply (links_remove m _ (tg_parent gc) c gp); [done | by exists gc | | | done].
      * cbn. by rewrite lookup_insert_eq.
      * intros x Hx. cbn. by rewrite lookup_insert_ne.
    + by apply nodup_remove.
    + by intros ?%nodes_remove.
    + by intros ?%removed_gone.
    + cbn. rewrite list_elem_of_In. intros [_ E]%filter_In. by rewrite Z.eqb_refl in E.
Qed.
End Life.
