(* ===== verification/CgroupSample.v ===== *)
(** A hierarchy of three task groups on the sample machine, on which the
    theorems about the cpu controller are instantiated and the edge cases of
    its files are run. *)
From S2P Require Import Prelude Headers Proc Kernel Extern RqClock Uclamp UclampProofs Prio.
From S2P Require Import SchedOK Mm Affinity AffinityProofs Schedule LazyMm ScheduleProofs.
From S2P Require Import Sample.
From S2P Require Import TgTree Text Cgroup Bandwidth BandwidthSpec CgroupFiles CgroupTree.

#[local] Open Scope Z_scope.
#[local] Existing Instance linux_headers.
#[local] Existing Instance Demo.extern.
#[local] Existing Instance linux_cgroup_headers.

Module DemoCgroup.
Definition set_shares (tg s : Z) : K (cres unit) :=
  root ← gets m_root_task_group;
  g ← deref (R := task_group) tg;
  if ((tg =? root) || truthy (tg_idle g))%bool then mret (Err EINVAL)
  else set! tg ⇝ tg_shares := Z.max (scale_load MIN_SHARES) (Z.min s (scale_load MAX_SHARES)) ;; mret (Ok tt).

Definition alloc (m : machine) : Z := fresh (dom (m_tgs m) ∪ dom (m_cfs_bw m)).

(** The fair class starts a group without a limit. *)
Definition alloc_fair (tg parent : Z) : K bool :=
  set! tg ⇝ tg_shares := 1048576 ;; mret true.

Definition cgroup_extern (dfl : bool) : CgroupExtern := {|
  cgroup_subsys_on_dfl := dfl;
  task_group_alloc := alloc;
  alloc_fair_sched_group := alloc_fair; alloc_rt_sched_group _ _ := mret true;
  free_fair_sched_group _ := mret tt; free_rt_sched_group _ := mret tt; autogroup_free _ := mret tt;
  unregister_fair_sched_group _ := mret tt; unregister_rt_sched_group _ := mret tt;
  online_fair_sched_group _ := mret tt;
  sched_group_set_shares := set_shares;
  sched_group_set_idle tg v := set! tg ⇝ tg_idle := v ;; mret (Ok tt);
  sched_rt_can_attach _ _ := mret true;
  __refill_cfs_bandwidth_runtime tg := upd_obj tg (fun b => b <| bw_runtime := bw_quota b |>);
  start_cfs_bandwidth _ := mret tt;
  unthrottle_cfs_rq c := set! c ⇝ cfs_throttled := 0;
  task_css_tg p := p ⇝ ts_task_group; autogroup_task_group _ tg := mret tg;
  has_task_change_group c := class_eqb c fair_sched_class; cl_task_change_group _ _ _ := mret tt;
  set_task_rq _ _ := mret tt; schedstat_wait_sum _ := mret None;
|}.

#[export] Instance bandwidth_extern_ok dfl : BandwidthExternOK (cgroup_extern dfl).
Proof.
  split; intros; cbn.
  - destruct H as [b Hb]. apply wp_upd_obj. exists b. split; [done|]. split; cbn; try done.
    + rewrite fmap_insert. rewrite insert_id; [done|]. by rewrite lookup_fmap, Hb.
    + rewrite fmap_insert. rewrite insert_id; [done|]. by rewrite lookup_fmap, Hb.
  - apply wp_ret. reflexivity.
  - destruct H as [r Hr]. apply wp_wr. exists r. split; [done|]. split; cbn; try done.
    rewrite dom_insert_L. apply elem_of_dom_2 in Hr. set_solver.
Qed.

#[export] Instance shares_ok dfl : SharesOK linux_headers linux_cgroup_headers (cgroup_extern dfl).
Proof.
  split. intros tg s m g Hg Hr Hi. unfold sched_group_set_shares. cbn. unfold set_shares.
  apply wp_bind, wp_gets. apply wp_bind, wp_deref. exists g. split; [done|].
  rewrite (proj2 (Z.eqb_neq _ _) Hr), Hi. cbn [orb truthy Z.eqb negb].
  apply wp_bind, wp_wr. exists g. split; [done|]. apply wp_ret. split; [done|].
  eexists. cbn. rewrite lookup_insert_eq. done.
Qed.

Lemma own_frame_refl tg m : is_Some (m_tgs m !! tg) -> own_frame tg m m.
Proof. by split. Qed.

#[export] Instance group_extern_ok dfl : GroupExternOK (cgroup_extern dfl).
Proof.
  split; cbn; intros; try (by apply wp_ret, own_frame_refl).
  - unfold alloc. pose proof (is_fresh (dom (m_tgs m) ∪ dom (m_cfs_bw m))) as Hf.
    apply not_elem_of_union in Hf as [H1 H2]. split; by apply not_elem_of_dom.
  - destruct H as [g Hg]. apply wp_bind, wp_wr. exists g. split; [done|]. apply wp_ret. split; cbn; try done.
    + by rewrite delete_insert_eq.
    + rewrite lookup_insert_eq. by eexists.
  - by apply wp_ret.
Qed.
End DemoCgroup.

#[local] Existing Instance DemoCgroup.bandwidth_extern_ok.
#[local] Existing Instance DemoCgroup.shares_ok.
#[local] Existing Instance DemoCgroup.group_extern_ok.

(** The root 100, its child 101 limited to half a CPU, and 102 below 101 to a
    quarter, with one queue per group and CPU. *)
Definition group (parent : Z) (children queues : list Z) : task_group :=
  tg0 <| tg_parent := parent |> <| tg_children := children |> <| tg_cfs_rq := queues |>.
Definition limit (period quota burst : Z) : cfs_bandwidth :=
  bw_zero <| bw_period := period |> <| bw_quota := quota |> <| bw_burst := burst |>.

Definition group_machine : machine :=
  machine0
    <| m_tgs := <[100 := group NULL [101] [200; 201]]> (<[101 := group 100 [102] [202; 203]]>
                 (<[102 := group 101 [] [204; 205]]> (<[103 := group NULL [] [206; 207]]> ∅))) |>
    <| m_cfs_bw := <[100 := limit (10 ^ 8) (2 ^ 64 - 1) 0]> (<[101 := limit (10 ^ 8) (5 * 10 ^ 7) (2 * 10 ^ 6)]>
                 (<[102 := limit (10 ^ 8) (25 * 10 ^ 6) 0]> (<[103 := limit (10 ^ 8) (2 ^ 64 - 1) 0]> ∅))) |>
    <| m_cfs_rqs := list_to_map ((fun a => (a, Mk_cfs_rq (a mod 2) 0 0 0)) <$> [200; 201; 202; 203; 204; 205; 206; 207]) |>
    <| m_task_groups := [102; 101; 100] |>.

Definition group_tree : tg_tree := Node 100 [Node 101 [Node 102 []]].

Lemma group_is_tree : is_tree group_machine group_tree.
Proof.
  split; [|by apply (bool_decide_unpack _); vm_compute | by apply (bool_decide_unpack _); vm_compute].
  eapply links_node; [reflexivity | reflexivity | |]; repeat constructor; try (by eexists).
  eapply links_node; [reflexivity | reflexivity | |]; repeat constructor; try (by eexists).
Qed.

Lemma group_bw_tree (dfl : bool) : let G := DemoCgroup.cgroup_extern dfl in bw_tree group_machine group_tree.
Proof.
  cbv zeta. split.
  - apply group_is_tree.
  - reflexivity.
  - by eexists.
  - intros x Hx. cbn in Hx. repeat (apply elem_of_cons in Hx as [->|Hx]; [by eexists|]). by apply not_elem_of_nil in Hx.
  - intros x b Hb. cbn in Hb. which_obj Hb; (split; [cbn; lia|]); first [by left | right; vm_compute; split; discriminate].
  - intros x g c Hg Hc. cbn in Hc. assert (c = 0 \/ c = 1) as Hc' by set_solver.
    which_obj Hg; destruct Hc' as [-> | ->]; (eexists; split; [reflexivity | by eexists]).
Qed.

Lemma group_bandwidth_ok (dfl : bool) :
  let G := DemoCgroup.cgroup_extern dfl in bandwidth_ok group_machine group_tree.
Proof. cbv zeta. split; [apply (group_bw_tree dfl) | intros _; vm_compute; reflexivity]. Qed.

(** ** Instances of the theorems *)
Lemma walk_tg_tree_from_visits_witness :
  is_tree group_machine group_tree /\
  walk_tg_tree_from (fun tg => emit "down" [tg] ;; mret 0) (fun tg => emit "up" [tg] ;; mret 0) 100 group_machine =
  visit (fun tg => emit "down" [tg] ;; mret 0) (fun tg => emit "up" [tg] ;; mret 0) group_tree group_machine.
Proof.
  split; [exact group_is_tree|].
  refine (walk_tg_tree_from_visits _ _ group_tree group_machine _ _ group_is_tree);
    intros tg m a m' E; injection E as <- <-; reflexivity.
Defined.

(** Raising 102 to three quarters of a CPU is refused, since its parent has
    half of one. *)
Lemma bandwidth_files_refine_witness :
  let G := DemoCgroup.cgroup_extern false in
  BwSpec.step group_tree (abs group_machine) 102 (BwSpec.Quota 75000) = (Err EINVAL, abs group_machine) /\
  wp (run_file 102 (BwSpec.Quota 75000)) (fun r m' =>
    (r, abs m') = BwSpec.step group_tree (abs group_machine) 102 (BwSpec.Quota 75000)) group_machine.
Proof.
  cbv zeta. split; [reflexivity|].
  apply (bandwidth_files_refine (G := DemoCgroup.cgroup_extern false)).
  - reflexivity.
  - exact (group_bw_tree false).
  - intros x b Hb. cbn in Hb. which_obj Hb; (split; [discriminate | reflexivity]).
  - apply (bool_decide_unpack _). reflexivity.
  - split; [discriminate | reflexivity].
Defined.

Lemma bandwidth_invariant_witness :
  let G := DemoCgroup.cgroup_extern false in
  wp (mapM_ (fun x => run_write x.1 x.2)
        [(102, write_cfs_quota_us 75000); (101, write_cfs_quota_us (-1)); (102, write_max "max 50000" 10)])
     (fun _ m' => limits_in_range m' group_tree) group_machine.
Proof.
  cbv zeta. apply (bandwidth_invariant (G := DemoCgroup.cgroup_extern false)).
  - split; [exact (group_bandwidth_ok false)|]. intros x b Hb. cbn in Hb.
    which_obj Hb; (split; [split; [discriminate | reflexivity]|]);
      first [by left | right; split; vm_compute; discriminate].
  - repeat constructor; apply (bool_decide_unpack _); reflexivity.
Defined.

Lemma cpu_max_roundtrip_witness :
  let G := DemoCgroup.cgroup_extern true in
  wp (text ← cpu_max_show 101; cpu_max_write 101 text 13) (fun r m' =>
    r = Ok 13 /\ bw_limits <$> m_cfs_bw m' =
      <[101 := (10 ^ 8, 5 * 10 ^ 7, 2 * 10 ^ 6 / 1000)]> (bw_limits <$> m_cfs_bw group_machine)) group_machine.
Proof.
  cbv zeta. refine (cpu_max_roundtrip (G := DemoCgroup.cgroup_extern true) group_machine group_tree 101 13
    (limit (10 ^ 8) (5 * 10 ^ 7) (2 * 10 ^ 6)) (group_bandwidth_ok true) _ _ eq_refl _ _ _).
  - apply (bool_decide_unpack _). reflexivity.
  - discriminate.
  - split; [by exists (10 ^ 5) | right; by exists 50000].
  - split; [discriminate | reflexivity].
  - reflexivity.
Defined.

Lemma unified_hierarchical_quota_witness :
  let G := DemoCgroup.cgroup_extern true in
  wp (__cfs_schedulable 102 (10 ^ 8) (9 * 10 ^ 7)) (fun r m' => r = Ok tt /\
    forall x, x ∈ nodes group_tree -> exists b, m_cfs_bw m' !! x = Some b /\ bw_hierarchical_quota b = -1)
    group_machine.
Proof.
  cbv zeta. apply (unified_hierarchical_quota (G := DemoCgroup.cgroup_extern true) _ _ _ _ _ 0).
  - reflexivity.
  - exact (group_bw_tree true).
  - split; [discriminate | reflexivity].
  - reflexivity.
Defined.

Lemma cpu_weight_roundtrip_witness :
  let G := DemoCgroup.cgroup_extern true in
  (1 <= 7 <= 10000 -> wp (cpu_weight_write_u64 101 7 ;; cpu_weight_read_u64 101) (fun w _ => w = 7) group_machine) /\
  (-20 <= 7 <= 19 -> wp (cpu_weight_nice_write_s64 101 7 ;; cpu_weight_nice_read_s64 101) (fun w _ => w = 7) group_machine).
Proof.
  cbv zeta. refine (cpu_weight_roundtrip (G := DemoCgroup.cgroup_extern true) group_machine 101
    (group 100 [102] [202; 203]) 7 eq_refl _ eq_refl). discriminate.
Defined.

Lemma sched_create_group_spec_witness :
  let G := DemoCgroup.cgroup_extern true in
  wp (sched_create_group 101) (fun r m' =>
    match r with
    | Err e => e = ENOMEM /\ m_tgs m' = m_tgs group_machine /\ m_cfs_bw m' = m_cfs_bw group_machine
    | Ok tg =>
        m_tgs group_machine !! tg = None /\ delete tg (m_tgs m') = m_tgs group_machine /\
        m_task_groups m' = m_task_groups group_machine /\
        exists g, m_tgs m' !! tg = Some g /\ tg_uclamp g = tg_uclamp (group 100 [102] [202; 203]) /\
          forall id, uc_value (pc_get id (tg_uclamp_req g)) = uclamp_none id
    end) group_machine.
Proof.
  cbv zeta. exact (sched_create_group_spec (G := DemoCgroup.cgroup_extern true) group_machine 101
    (group 100 [102] [202; 203]) eq_refl).
Defined.

(** Group 103 joins below 101; 102 leaves. *)
Lemma group_tree_maintained_witness :
  let G := DemoCgroup.cgroup_extern true in
  wp (sched_online_group 103 101) (fun _ m' => is_tree m' (add_child 101 103 group_tree) /\
    m_task_groups m' = 103 :: m_task_groups group_machine) group_machine /\
  wp (sched_release_group 102) (fun _ m' => is_tree m' (remove_child 102 group_tree) /\
    102 ∉ nodes (remove_child 102 group_tree) /\ 102 ∉ m_task_groups m') group_machine.
Proof.
  cbv zeta. split.
  - apply (group_tree_maintained (G := DemoCgroup.cgroup_extern true) group_machine group_tree 103 group_is_tree).
    + apply (bool_decide_unpack _). reflexivity.
    + apply (bool_decide_unpack _). reflexivity.
    + discriminate.
    + by eexists.
  - apply (group_tree_maintained (G := DemoCgroup.cgroup_extern true) group_machine group_tree 102 group_is_tree).
    + apply (bool_decide_unpack _). reflexivity.
    + discriminate.
Defined.

(** ** A period that does not fit

    18446744073710552 microseconds are more than 64 bits of nanoseconds.
    cpu.cfs_period_us refuses the value, cpu.max stores what is left of it
    after the wrap-around, a period of about one millisecond. *)
Definition period_of (o : outcome machine (cres Z)) : option Z :=
  match o with
  | Ret (Ok _) m => match m_cfs_bw m !! 101 with Some b => Some (bw_period b) | None => None end
  | _ => None
  end.

Lemma cpu_max_period_wraps :
  let G := DemoCgroup.cgroup_extern true in
  period_of (cpu_max_write 101 "max 18446744073710552" 22 group_machine) = Some 1000384 /\
  match cpu_cfs_period_write_u64 101 18446744073710552 group_machine with
  | Ret r _ => r = Err EINVAL
  | Stuck _ => False
  end.
Proof. cbv zeta. split; vm_compute; reflexivity. Qed.
