(* ===== verification/Migrate.v ===== *)
(** Moving tasks between CPUs (core.c): where a task may run, the choice of a
    CPU, migration by the stopper thread, and changes of a task's affinity.

    A call that waits for another CPU ([affine_move_task]) is modelled up to the
    wait: it returns either its result or the request it sleeps on, and
    [affine_finish] is the code after the wait.  The stopper's function
    [migration_cpu_stop] is a handler of its own. *)
From S2P Require Import Prelude Headers Proc Kernel Extern RqClock Uclamp Prio Affinity.

(** The scheduling classes, cpusets, topology and cpumask code outside the
    repository. *)
Class MigrateExtern := {
  (** What the other CPUs do while this one spins until a task is ready. *)
  meanwhile : Z -> K unit;
  cl_select_task_rq : sched_class -> Z -> Z -> Z -> K Z;
  has_task_woken : sched_class -> bool;
  cl_task_woken : sched_class -> Z -> Z -> K unit;
  has_migrate_task_rq : sched_class -> bool;
  cl_migrate_task_rq : sched_class -> Z -> Z -> K unit;
  has_find_lock_rq : sched_class -> bool;
  cl_find_lock_rq : sched_class -> Z -> Z -> K Z;   (* -1 when there is none *)
  cpu_to_node : Z -> Z;
  cpumask_of_node : Z -> gset Z;
  (** kernel/cgroup/cpuset.c; the fallback may change the task's mask *)
  cpuset_cpus_allowed : Z -> K (gset Z);
  cpuset_cpus_allowed_fallback : Z -> K bool;
  kthread_is_per_cpu : machine -> Z -> bool;
  task_cpu_possible_mask : task_struct -> gset Z;
  cpumask_any : gset Z -> Z;
  cpumask_any_and_distribute : gset Z -> gset Z -> Z;
  nr_cpu_ids : Z;
  (** kernel/smp.c: run the wake-ups queued for this CPU *)
  flush_smp_call_function_from_idle : K unit;
  (** slab *)
  cpumask_alloc : string -> machine -> bool;
  pending_alloc : machine -> Z;    (* the caller's stack frame *)
  (** kernel/sched/sched.h and the scheduler's statistics *)
  update_avg : Z -> Z -> Z;
  jiffies : K Z;
  sd_llc_id : Z -> Z;
  cpu_stop_nowait : Z -> string -> Z -> K unit;
}.

Definition task_cpu_possible {Mg : MigrateExtern} (cpu : Z) (t : task_struct) : bool :=
  bool_decide (cpu ∈ task_cpu_possible_mask t).

Section Migrate.
Context {H : Headers} {X : Extern} {Mg : MigrateExtern}.

Definition is_migration_disabled (t : task_struct) : bool := truthy (ts_migration_disabled t).

(** * Where a task may run *)
Definition rq_has_pinned_tasks (r : Z) : K bool := n ← r ⇝ rq_nr_pinned; mret (truthy n).

Definition is_cpu_allowed (p cpu : Z) : K bool :=
  t ← deref (R := task_struct) p;
  m ← get_state;
  if negb (bool_decide (cpu ∈ cpus_allowed t)) then mret false
  else if is_migration_disabled t then mret (bool_decide (cpu ∈ m_cpu_online m))
  else if negb (has_flag (ts_flags t) PF_KTHREAD) then
    mret (bool_decide (cpu ∈ m_cpu_active m) && task_cpu_possible cpu t)%bool
  else if kthread_is_per_cpu m p then mret (bool_decide (cpu ∈ m_cpu_online m))
  else if bool_decide (cpu ∈ m_cpu_dying m) then mret false
  else mret (bool_decide (cpu ∈ m_cpu_online m)).

(** The first CPU of a list that is allowed. *)
Fixpoint first_allowed (p : Z) (cpus : list Z) : K (option Z) :=
  match cpus with
  | [] => mret None
  | c :: cpus' => ok ← is_cpu_allowed p c; if (ok : bool) then mret (Some c) else first_allowed p cpus'
  end.

Inductive fallback_state : Type := cpuset | possible | fail.

(** The loop of select_fallback_rq(): each round relaxes the task's mask once
    more. *)
Fixpoint fallback_loop (fuel : nat) (p : Z) (state : fallback_state) : K (Z * fallback_state) :=
  match fuel with
  | O => stuck NOFUEL
  | S fuel' =>
      t ← deref (R := task_struct) p;
      c ← first_allowed p (for_each_cpu (cpus_allowed t));
      match c with
      | Some dest_cpu => mret (dest_cpu, state)
      | None =>
          let to_possible :=
            t ← deref (R := task_struct) p;
            do_set_cpus_allowed p (mask_at (task_cpu_possible_mask t)) ;;
            fallback_loop fuel' p fail in
          match state with
          | cpuset =>
              ok ← cpuset_cpus_allowed_fallback p;
              if (ok : bool) then fallback_loop fuel' p possible else to_possible
          | possible => to_possible
          | fail => stuck BUG
          end
      end
  end.

Definition select_fallback_rq (cpu p : Z) : K Z :=
  let nid := cpu_to_node cpu in
  c ← (if nid =? -1 then mret None else first_allowed p (for_each_cpu (cpumask_of_node nid)));
  match c with
  | Some dest_cpu => mret dest_cpu
  | None =>
      r ← fallback_loop 3 p cpuset;
      t ← deref (R := task_struct) p;
      when (match r.2 with cpuset => false | _ => negb (ts_mm t =? NULL) end)
        (emit "printk_deferred no longer affine" [ts_pid t; cpu]) ;;
      mret r.1
  end.

Definition select_task_rq (p cpu wake_flags : Z) : K Z :=
  t ← deref (R := task_struct) p;
  cpu ← (if ((1 <? ts_nr_cpus_allowed t) && negb (is_migration_disabled t))%bool
         then cl_select_task_rq (ts_class t) p cpu wake_flags
         else mret (cpumask_any (cpus_allowed t)));
  ok ← is_cpu_allowed p cpu;
  if negb ok then t ← deref (R := task_struct) p; select_fallback_rq (ts_cpu t) p
  else mret cpu.

(** * Migration *)
Definition set_task_cpu (p new_cpu : Z) : K unit :=
  t ← deref (R := task_struct) p;
  m ← get_state;
  let st := ts_state t in
  when (negb (st =? TASK_RUNNING) && negb (st =? TASK_WAKING) && negb (truthy (ts_on_rq t)))
    (emit "WARN_ON_ONCE" []) ;;
  when ((st =? TASK_RUNNING) && class_eqb (ts_class t) fair_sched_class &&
        (truthy (ts_on_rq t) && negb (task_on_rq_migrating t))) (emit "WARN_ON_ONCE" []) ;;
  when (negb (bool_decide (new_cpu ∈ m_cpu_online m))) (emit "WARN_ON_ONCE" []) ;;
  when (is_migration_disabled t) (emit "WARN_ON_ONCE" []) ;;
  emit "trace_sched_migrate_task" [p; new_cpu] ;;
  when (negb (ts_cpu t =? new_cpu))
    (when (has_migrate_task_rq (ts_class t)) (cl_migrate_task_rq (ts_class t) p new_cpu) ;;
     upd! p ⇝ ts_se := (fun s => s <| se_nr_migrations := u64 (se_nr_migrations s + 1) |>) ;;
     emit "rseq_migrate" [p] ;;
     emit "perf_event_task_migrate" [p]) ;;
  upd_obj p (task_set_cpu new_cpu).

Definition move_queued_task (r p new_cpu : Z) : K Z :=
  deactivate_task r p DEQUEUE_NOCLOCK ;;
  set_task_cpu p new_cpu ;;
  c ← p ⇝ ts_cpu;
  (if negb (c =? new_cpu) then stuck BUG else mret tt) ;;
  activate_task new_cpu p 0 ;;
  check_preempt_curr new_cpu p 0 ;;
  mret new_cpu.

Definition __migrate_task (r p dest_cpu : Z) : K Z :=
  ok ← is_cpu_allowed p dest_cpu;
  if negb ok then mret r
  else update_rq_clock r ;; move_queued_task r p dest_cpu.

(** The stopper's argument: the one embedded in a pending request, or one on
    the stack of sched_exec(). *)
Inductive migration_arg : Type :=
| pending_arg (a : Z)
| local_arg (task dest_cpu : Z).

Definition arg_task (arg : migration_arg) : K Z :=
  match arg with pending_arg a => a ⇝ ap_arg_task | local_arg p _ => mret p end.
Definition arg_dest_cpu (arg : migration_arg) : K Z :=
  match arg with pending_arg a => a ⇝ ap_arg_dest_cpu | local_arg _ c => mret c end.
Definition arg_pending (arg : migration_arg) : K Z :=
  match arg with pending_arg a => a ⇝ ap_arg_pending | local_arg _ _ => mret NULL end.

(** [stop_one_cpu_nowait]: the function named runs on [cpu] later. *)
Definition stop_one_cpu_nowait (cpu : Z) (fn : string) (arg : Z) : K unit := cpu_stop_nowait cpu fn arg.

Definition complete_all (pending : Z) : K unit := set! pending ⇝ ap_done := true.

(** The code at the label [out]. *)
Definition migration_out (pending : Z) (complete : bool) : K unit :=
  when (negb (pending =? NULL)) (set! pending ⇝ ap_stop_pending := false) ;;
  when complete (complete_all pending).

Definition migration_cpu_stop (arg : migration_arg) : K unit :=
  pending ← arg_pending arg;
  p ← arg_task arg;
  r ← gets m_this_cpu;
  flush_smp_call_function_from_idle ;;
  t ← deref (R := task_struct) p;
  when (negb (pending =? NULL) && negb (pending =? ts_migration_pending t)) (emit "WARN_ON_ONCE" []) ;;
  if ts_cpu t =? r then
    if is_migration_disabled t then migration_out pending false
    else
      when (negb (pending =? NULL)) (set! p ⇝ ts_migration_pending := NULL) ;;
      let complete := negb (pending =? NULL) in
      if (complete && bool_decide (ts_cpu t ∈ ts_cpus_mask t))%bool then migration_out pending true
      else
        dest_cpu ← arg_dest_cpu arg;
        (if task_on_rq_queued t then __migrate_task r p dest_cpu ;; mret tt
         else set! p ⇝ ts_wake_cpu := dest_cpu) ;;
        migration_out pending complete
  else if negb (pending =? NULL) then
    if bool_decide (ts_cpu t ∈ cpus_allowed t) then
      set! p ⇝ ts_migration_pending := NULL ;;
      migration_out pending true
    else
      sp ← pending ⇝ ap_stop_pending;
      when (negb sp) (emit "WARN_ON_ONCE" []) ;;
      stop_one_cpu_nowait (ts_cpu t) "migration_cpu_stop" pending
  else migration_out pending false.

(** kernel/sched/sched.h: get_task_struct(), and put_task_struct(), whose last
    reference releases the task outside this component. *)
Definition get_task_struct (p : Z) : K unit := upd! p ⇝ ts_usage := (fun n => n + 1).
Definition put_task_struct (p : Z) : K unit :=
  n ← p ⇝ ts_usage;
  set! p ⇝ ts_usage := n - 1 ;;
  when (n - 1 =? 0) (emit "__put_task_struct" [p]).

Definition push_cpu_stop (p : Z) : K unit :=
  r ← gets m_this_cpu;
  t ← deref (R := task_struct) p;
  (if negb (ts_cpu t =? r) then mret tt
   else if is_migration_disabled t then
     upd! p ⇝ ts_migration_flags := (fun f => Z.lor f MDF_PUSH)
   else
     upd! p ⇝ ts_migration_flags := (fun f => Z.ldiff f MDF_PUSH) ;;
     lowest ← (if has_find_lock_rq (ts_class t) then cl_find_lock_rq (ts_class t) p r else mret (-1));
     if lowest =? -1 then mret tt
     else
       t ← deref (R := task_struct) p;
       when (ts_cpu t =? r)
         (deactivate_task r p 0 ;;
          c ← lowest ⇝ rq_cpu;
          set_task_cpu p c ;;
          activate_task lowest p 0 ;;
          resched_curr lowest)) ;;
  set! r ⇝ rq_push_busy := false ;;
  put_task_struct p.

(** * Changing the affinity of a task *)
Definition clear_user_cpus_ptr (p : Z) : K (option (gset Z)) :=
  u ← p ⇝ ts_user_cpus_ptr;
  set! p ⇝ ts_user_cpus_ptr := None ;;
  mret u.

Definition release_user_cpus_ptr (p : Z) : K unit :=
  u ← clear_user_cpus_ptr p; emit "kfree" [].

(** Either a result, or a wait for the completion of [pending] by a caller
    whose own request is [my_pending]. *)
Inductive affine_result : Type :=
| affine_done (r : cres unit)
| affine_wait (pending my_pending : Z).

(** The task may stay where it is. *)
Definition affine_stay (r p flags : Z) : K affine_result :=
  t ← deref (R := task_struct) p;
  busy ← r ⇝ rq_push_busy;
  let push_task := (has_flag flags SCA_MIGRATE_ENABLE && has_flag (ts_migration_flags t) MDF_PUSH &&
                    negb busy)%bool in
  when push_task (set! r ⇝ rq_push_busy := true ;; get_task_struct p) ;;
  let pending := ts_migration_pending t in
  complete ← (if pending =? NULL then mret false
              else sp ← pending ⇝ ap_stop_pending; mret (negb sp));
  when complete (set! p ⇝ ts_migration_pending := NULL) ;;
  when push_task (c ← r ⇝ rq_cpu; stop_one_cpu_nowait c "push_cpu_stop" p) ;;
  when complete (complete_all pending) ;;
  mret (affine_done (Ok tt)).

(** Install the request, or join the one that is installed. *)
Definition affine_install (p dest_cpu my_pending : Z) : K unit :=
  t ← deref (R := task_struct) p;
  if ts_migration_pending t =? NULL then
    modify (fun m => m <| m_pendings :=
      <[my_pending := Mk_pending 1 false false p dest_cpu my_pending]> (m_pendings m) |>) ;;
    set! p ⇝ ts_migration_pending := my_pending
  else
    upd_obj (ts_migration_pending t) (fun a => a <| ap_refs := ap_refs a + 1 |>) ;;
    set! ts_migration_pending t ⇝ ap_arg_dest_cpu := dest_cpu.

Definition affine_move_task (r p dest_cpu flags : Z) : K affine_result :=
  t ← deref (R := task_struct) p;
  if bool_decide (ts_cpu t ∈ ts_cpus_mask t) then affine_stay r p flags
  else
    my_pending ← gets pending_alloc;
    let enable := has_flag flags SCA_MIGRATE_ENABLE in
    when (negb enable) (affine_install p dest_cpu my_pending) ;;
    pending ← p ⇝ ts_migration_pending;
    if pending =? NULL then emit "WARN_ON_ONCE" [] ;; mret (affine_done (Err EINVAL))
    else
      t ← deref (R := task_struct) p;
      if (truthy (ts_on_cpu t) || (ts_state t =? TASK_WAKING))%bool then
        stop_pending ← pending ⇝ ap_stop_pending;
        when (negb stop_pending) (set! pending ⇝ ap_stop_pending := true) ;;
        when enable (upd! p ⇝ ts_migration_flags := (fun f => Z.ldiff f MDF_PUSH)) ;;
        when (negb stop_pending)
          (c ← r ⇝ rq_cpu; stop_one_cpu_nowait c "migration_cpu_stop" pending) ;;
        if enable then mret (affine_done (Ok tt)) else mret (affine_wait pending my_pending)
      else
        complete ← (if is_migration_disabled t then mret false
                    else
                      (if task_on_rq_queued t then move_queued_task r p dest_cpu ;; mret tt else mret tt) ;;
                      sp ← pending ⇝ ap_stop_pending;
                      when (negb sp) (set! p ⇝ ts_migration_pending := NULL) ;;
                      mret (negb sp));
        when complete (complete_all pending) ;;
        mret (affine_wait pending my_pending).

(** After the completion: drop the reference; the owner of the request waits
    for the others, then its frame is gone. *)
Definition affine_drop (pending : Z) : K unit :=
  n ← pending ⇝ ap_refs;
  set! pending ⇝ ap_refs := n - 1 ;;
  when (n - 1 =? 0) (emit "wake_up_var" [pending]).

Definition affine_finish (my_pending : Z) : K (cres unit) :=
  m ← get_state;
  when (match m_pendings m !! my_pending with Some a => ap_stop_pending a | None => false end)
    (emit "WARN_ON_ONCE" []) ;;
  free_obj (R := set_affinity_pending) my_pending ;;
  mret (Ok tt).

Definition __set_cpus_allowed_ptr_locked (p : Z) (new_mask : maskp) (flags r : Z) : K affine_result :=
  t ← deref (R := task_struct) p;
  m ← get_state;
  let kthread := has_flag (ts_flags t) PF_KTHREAD in
  update_rq_clock r ;;
  let cpu_valid_mask := if (kthread || is_migration_disabled t)%bool then m_cpu_online m else m_cpu_active m in
  let mask := mask_set t new_mask in
  if (negb kthread && negb (bool_decide (mask ⊆ task_cpu_possible_mask t)))%bool then
    mret (affine_done (Err EINVAL))
  else if (has_flag flags SCA_CHECK && has_flag (ts_flags t) PF_NO_SETAFFINITY)%bool then
    mret (affine_done (Err EINVAL))
  else
    let enable := has_flag flags SCA_MIGRATE_ENABLE in
    if (negb enable && bool_decide (ts_cpus_mask t = mask))%bool then mret (affine_done (Ok tt))
    else if (negb enable && ((p =? m_current m) && is_migration_disabled t &&
                             negb (bool_decide (ts_cpu t ∈ mask))))%bool then
      emit "WARN_ON_ONCE" [] ;; mret (affine_done (Err EBUSY))
    else
      let dest_cpu := cpumask_any_and_distribute cpu_valid_mask mask in
      if nr_cpu_ids <=? dest_cpu then mret (affine_done (Err EINVAL))
      else
        __do_set_cpus_allowed p new_mask flags ;;
        user_mask ← (if has_flag flags SCA_USER then clear_user_cpus_ptr p else mret None);
        affine_move_task r p dest_cpu flags.

Definition __set_cpus_allowed_ptr (p : Z) (new_mask : maskp) (flags : Z) : K affine_result :=
  r ← p ⇝ ts_cpu; __set_cpus_allowed_ptr_locked p new_mask flags r.

Definition set_cpus_allowed_ptr (p : Z) (new_mask : maskp) : K affine_result :=
  __set_cpus_allowed_ptr p new_mask 0.

(** The mask the task asked for is kept in [user_cpus_ptr]. *)
Definition restrict_cpus_allowed_ptr (p : Z) (subset_mask : gset Z) : K affine_result :=
  t ← deref (R := task_struct) p;
  ok ← gets (cpumask_alloc "user_mask");
  let have := match ts_user_cpus_ptr t with None => true | Some _ => false end in
  if (have && negb ok)%bool then mret (affine_done (Err ENOMEM))
  else
    dl ← dl_bandwidth_enabled;
    if (task_has_dl_policy t && dl)%bool then mret (affine_done (Err EPERM))
    else
      let new_mask := ts_cpus_mask t ∩ subset_mask in
      if bool_decide (new_mask = ∅) then mret (affine_done (Err EINVAL))
      else
        when have (set! p ⇝ ts_user_cpus_ptr := Some (cpus_allowed t)) ;;
        __set_cpus_allowed_ptr_locked p (mask_at new_mask) 0 (ts_cpu t).

(** * Sections in which a task may not be migrated; preempt_disable() and
    preempt_enable() are recorded, a reschedule at the latter is a scheduler
    entry of its own *)
Definition migrate_disable : K unit :=
  p ← gets m_current;
  t ← deref (R := task_struct) p;
  if is_migration_disabled t then
    upd! p ⇝ ts_migration_disabled := (fun n => (n + 1) mod 2 ^ 16)
  else
    emit "preempt_disable" [] ;;
    r ← gets m_this_cpu;
    upd! r ⇝ rq_nr_pinned := (fun n => u32 (n + 1)) ;;
    set! p ⇝ ts_migration_disabled := 1 ;;
    emit "preempt_enable" [].

Definition migrate_enable : K unit :=
  p ← gets m_current;
  t ← deref (R := task_struct) p;
  if 1 <? ts_migration_disabled t then
    upd! p ⇝ ts_migration_disabled := (fun n => (n - 1) mod 2 ^ 16)
  else if negb (is_migration_disabled t) then emit "WARN_ON_ONCE" []
  else
    emit "preempt_disable" [] ;;
    when (negb (maskp_is_own (ts_cpus_ptr t)))
      (__set_cpus_allowed_ptr p own_mask SCA_MIGRATE_ENABLE ;; mret tt) ;;
    set! p ⇝ ts_migration_disabled := 0 ;;
    r ← gets m_this_cpu;
    upd! r ⇝ rq_nr_pinned := (fun n => u32 (n - 1)) ;;
    emit "preempt_enable" [].

(** * Swapping two tasks *)
Definition __migrate_swap_task (p cpu : Z) : K unit :=
  t ← deref (R := task_struct) p;
  if task_on_rq_queued t then
    deactivate_task (ts_cpu t) p 0 ;;
    set_task_cpu p cpu ;;
    activate_task cpu p 0 ;;
    check_preempt_curr cpu p 0
  else set! p ⇝ ts_wake_cpu := cpu.

Definition migrate_swap_stop (src_task dst_task src_cpu dst_cpu : Z) : K (cres unit) :=
  m ← get_state;
  if negb (bool_decide (src_cpu ∈ m_cpu_active m) && bool_decide (dst_cpu ∈ m_cpu_active m)) then mret (Err EAGAIN)
  else
    d ← deref (R := task_struct) dst_task;
    s ← deref (R := task_struct) src_task;
    if negb (ts_cpu d =? dst_cpu) then mret (Err EAGAIN)
    else if negb (ts_cpu s =? src_cpu) then mret (Err EAGAIN)
    else if negb (bool_decide (dst_cpu ∈ cpus_allowed s)) then mret (Err EAGAIN)
    else if negb (bool_decide (src_cpu ∈ cpus_allowed d)) then mret (Err EAGAIN)
    else
      __migrate_swap_task src_task dst_cpu ;;
      __migrate_swap_task dst_task src_cpu ;;
      mret (Ok tt).

(** stop_two_cpus() runs the function on both CPUs and returns its result. *)
Definition migrate_swap (cur p target_cpu curr_cpu : Z) : K (cres unit) :=
  m ← get_state;
  s ← deref (R := task_struct) cur;
  d ← deref (R := task_struct) p;
  if curr_cpu =? target_cpu then mret (Err EINVAL)
  else if negb (bool_decide (curr_cpu ∈ m_cpu_active m) && bool_decide (target_cpu ∈ m_cpu_active m)) then mret (Err EINVAL)
  else if negb (bool_decide (target_cpu ∈ cpus_allowed s)) then mret (Err EINVAL)
  else if negb (bool_decide (curr_cpu ∈ cpus_allowed d)) then mret (Err EINVAL)
  else
    emit "trace_sched_swap_numa" [cur; curr_cpu; p; target_cpu] ;;
    migrate_swap_stop cur p curr_cpu target_cpu.

Definition kick_process (p : Z) : K unit :=
  emit "preempt_disable" [] ;;
  cpu ← p ⇝ ts_cpu;
  this ← gets m_this_cpu;
  curr ← task_curr p;
  when (negb (cpu =? this) && curr) (emit "smp_send_reschedule" [cpu]) ;;
  emit "preempt_enable" [].
End Migrate.
