(* ===== verification/MigrateProofs.v ===== *)
(** Choosing a CPU for a task: the choice always ends, and on a CPU the task may
    use.  [MigrateExternOK] states what core.c relies on in the class methods
    and in cpuset.c. *)
From S2P Require Import Prelude Headers Proc Kernel Extern RqClock Uclamp UclampProofs Prio.
From S2P Require Import SchedOK Affinity AffinityProofs Migrate.

(** The mask pointer of [p] is unchanged. *)
Definition same_ptr (p : Z) (m m' : machine) : Prop :=
  ts_cpus_ptr <$> m_tasks m' !! p = ts_cpus_ptr <$> m_tasks m !! p.

#[export] Instance same_ptr_equiv p : Equivalence (same_ptr p).
Proof. split; unfold same_ptr; repeat intro; congruence. Qed.

(** A task that is neither queued, nor the current or the idle task of its CPU. *)
Definition asleep {H : Headers} (m : machine) (p : Z) : Prop :=
  exists t q, m_tasks m !! p = Some t /\ m_rqs m !! ts_cpu t = Some q /\
    task_on_rq_queued t = false /\ rq_curr q <> p /\ rq_idle q <> p.

(** Queued tasks stay queued, perhaps elsewhere, and the others where they are. *)
Definition keeps_queued {H : Headers} (m m' : machine) : Prop := forall p t,
  m_tasks m !! p = Some t -> exists t', m_tasks m' !! p = Some t' /\
    (ts_on_rq t = TASK_ON_RQ_QUEUED -> ts_on_rq t' = TASK_ON_RQ_QUEUED) /\
    (ts_on_rq t = 0 -> task_quiet t' = task_quiet t).

Class MigrateExternOK {H : Headers} {X : Extern} (Mg : MigrateExtern) : Prop := {
  select_frame c p cpu f : preserves quiet_frame (cl_select_task_rq c p cpu f);
  select_returns c p cpu f m :
    kernel_ok m -> is_Some (m_tasks m !! p) -> returns (cl_select_task_rq c p cpu f) m;
  migrate_rq_frame c p cpu : preserves quiet_frame (cl_migrate_task_rq c p cpu);
  migrate_rq_returns c p cpu m :
    kernel_ok m -> is_Some (m_tasks m !! p) -> returns (cl_migrate_task_rq c p cpu) m;
  woken_ok c r p m : kernel_ok m -> live m r p ->
    wp (cl_task_woken c r p) (fun _ m' => kernel_ok m' /\ class_frame m m' /\ keeps_queued m m') m;
  any_in s : s <> ∅ -> cpumask_any s ∈ s;
  jiffies_frame : preserves quiet_frame jiffies;
  jiffies_returns m : returns jiffies m;
  (** cpu_possible_mask on every architecture but arm64 *)
  possible_const t t' : task_cpu_possible_mask t = task_cpu_possible_mask t';
  per_cpu_stable m m' p : ts_flags <$> m_tasks m !! p = ts_flags <$> m_tasks m' !! p ->
    kthread_is_per_cpu m p = kthread_is_per_cpu m' p;
  cpuset_fallback_ok p m : kernel_ok m -> is_Some (m_tasks m !! p) ->
    wp (cpuset_cpus_allowed_fallback p) (fun _ m' => kernel_ok m' /\ aff_frame m m' /\ same_ptr p m m' /\
      (asleep m p -> mask_frame m m')) m;
}.

#[export] Hint Extern 1 (preserves (frame task_quiet _ _) _) =>
  first [apply select_frame | apply migrate_rq_frame | apply jiffies_frame] : preserve.

(** The CPUs of a running system. *)
Record cpus_ok (m : machine) : Prop := {
  active_online : m_cpu_active m ⊆ m_cpu_online m;
  active_not_dying : m_cpu_active m ## m_cpu_dying m;
  online_rq : forall c, c ∈ m_cpu_online m -> is_Some (m_rqs m !! c);
}.

Section Select.
Context {H : Headers} {X : Extern} {Mg : MigrateExtern}.
Context {HOK : HeadersOK H} {XOK : ExternOK X} {XS : ExternSafe X} {MOK : MigrateExternOK Mg}.

Definition cpu_allowed (m : machine) (p : Z) (t : task_struct) (cpu : Z) : bool :=
  if negb (bool_decide (cpu ∈ cpus_allowed t)) then false
  else if is_migration_disabled t then bool_decide (cpu ∈ m_cpu_online m)
  else if negb (has_flag (ts_flags t) PF_KTHREAD) then
    (bool_decide (cpu ∈ m_cpu_active m) && task_cpu_possible cpu t)%bool
  else if kthread_is_per_cpu m p then bool_decide (cpu ∈ m_cpu_online m)
  else if bool_decide (cpu ∈ m_cpu_dying m) then false
  else bool_decide (cpu ∈ m_cpu_online m).

Lemma is_cpu_allowed_val p cpu m t :
  m_tasks m !! p = Some t -> is_cpu_allowed p cpu m = Ret (cpu_allowed m p t cpu) m.
Proof.
  intros Ht. unfold is_cpu_allowed, cpu_allowed, deref, get_state, mbind, M_bind. cbn [store task_store]. rewrite Ht.
  repeat match goal with |- context [if ?c then _ else _] => destruct c end; done.
Qed.

Lemma cpu_allowed_online m p t c : cpus_ok m -> cpu_allowed m p t c = true -> c ∈ m_cpu_online m.
Proof.
  intros [Ha _ _]. unfold cpu_allowed.
  repeat match goal with |- context [if ?b then _ else _] => destruct b end; try done; intros E;
    try (by apply bool_decide_eq_true in E). apply andb_prop in E as [E _]. apply bool_decide_eq_true in E. set_solver.
Qed.

Lemma cpu_allowed_mask m p t c : cpu_allowed m p t c = true -> c ∈ cpus_allowed t.
Proof.
  unfold cpu_allowed. destruct (bool_decide (c ∈ cpus_allowed t)) eqn:E; [|done]. by apply bool_decide_eq_true in E.
Qed.

Lemma cpu_allowed_log m p t c l : cpu_allowed (m <| m_log := l |>) p t c = cpu_allowed m p t c.
Proof.
  unfold cpu_allowed. by rewrite (per_cpu_stable m (m <| m_log := l |>)).
Qed.

Definition cpu_masks (m : machine) := (m_cpu_online m, m_cpu_active m, m_cpu_dying m).

Lemma globals_masks m m' : globals m = globals m' -> cpu_masks m = cpu_masks m'.
Proof. unfold globals, cpu_masks. congruence. Qed.

(** Only these fields of the task and the CPU masks matter. *)
Lemma cpu_allowed_same m m' p t t' c :
  cpu_masks m = cpu_masks m' -> m_tasks m !! p = Some t -> m_tasks m' !! p = Some t' ->
  (cpus_allowed t, ts_migration_disabled t, ts_flags t) = (cpus_allowed t', ts_migration_disabled t', ts_flags t') ->
  cpu_allowed m p t c = cpu_allowed m' p t' c.
Proof.
  intros Eg Ht Ht' E. unfold cpu_masks in Eg.
  assert (Ef : ts_flags t = ts_flags t') by congruence.
  unfold cpu_allowed, is_migration_disabled, task_cpu_possible.
  rewrite (possible_const t t'), (per_cpu_stable m m') by (rewrite Ht, Ht'; cbn; congruence).
  assert (cpus_allowed t = cpus_allowed t') as -> by congruence.
  assert (ts_migration_disabled t = ts_migration_disabled t') as -> by congruence.
  assert (m_cpu_online m = m_cpu_online m') as -> by congruence.
  assert (m_cpu_active m = m_cpu_active m') as -> by congruence.
  assert (m_cpu_dying m = m_cpu_dying m') as -> by congruence. by rewrite Ef.
Qed.

Lemma first_allowed_val p cpus m t :
  m_tasks m !! p = Some t -> first_allowed p cpus m = Ret (List.find (cpu_allowed m p t) cpus) m.
Proof.
  intros Ht. induction cpus as [|c cpus IH]; cbn [first_allowed List.find]; [done|].
  unfold mbind, M_bind. rewrite (is_cpu_allowed_val _ _ _ t Ht). by destruct (cpu_allowed m p t c).
Qed.

(** * The fallback *)
Section Fallback.
(** What the caller knows and wants kept, [I] and [R]. *)
Context (p : Z) (I : machine -> Prop) (R : machine -> machine -> Prop) `{!PreOrder R}.
Context (Hok : forall m, I m -> kernel_ok m /\ is_Some (m_tasks m !! p)).
Context (Haff : forall m m', R m m' -> aff_frame m m' /\ same_ptr p m m').
Context (Hset : forall m t s, I m -> m_tasks m !! p = Some t ->
  wp (do_set_cpus_allowed p (mask_at s)) (fun _ m' => I m' /\ R m m' /\
    exists t', m_tasks m' !! p = Some t' /\ ts_cpus_mask t' = s) m).
Context (Hcpuset : forall m, I m -> wp (cpuset_cpus_allowed_fallback p) (fun _ m' => I m' /\ R m m') m).

(** The task can run somewhere: it is not pinned, and some active CPU is
    possible for it. *)
Definition placeable (m : machine) : Prop := cpus_ok m /\ exists t c, m_tasks m !! p = Some t /\
  ts_cpus_ptr t = own_mask /\ is_migration_disabled t = false /\
  c ∈ m_cpu_active m /\ c ∈ task_cpu_possible_mask t.

Lemma placeable_same m m' :
  cpu_masks m = cpu_masks m' -> (forall c, is_Some (m_rqs m !! c) -> is_Some (m_rqs m' !! c)) ->
  (fun t => (ts_cpus_ptr t, ts_migration_disabled t)) <$> m_tasks m !! p =
    (fun t => (ts_cpus_ptr t, ts_migration_disabled t)) <$> m_tasks m' !! p ->
  placeable m -> placeable m'.
Proof.
  intros Eg Hr Et ([H1 H2 H3] & t & c & Ht & Hptr & Hmd & Ha & Hpo). unfold cpu_masks in Eg.
  assert (m_cpu_active m' = m_cpu_active m) as Ea by congruence.
  assert (m_cpu_online m' = m_cpu_online m) as Eo by congruence.
  assert (m_cpu_dying m' = m_cpu_dying m) as Ed by congruence.
  rewrite Ht in Et. cbn in Et. destruct (m_tasks m' !! p) as [t'|] eqn:Ht'; [|done]. cbn in Et. split.
  - split; rewrite ?Ea, ?Eo, ?Ed; auto.
  - exists t', c. rewrite Ea, (possible_const t' t). unfold is_migration_disabled in *.
    split; [done|]. split; [congruence|]. split; [|done].
    by assert (ts_migration_disabled t' = ts_migration_disabled t) as -> by congruence.
Qed.

Lemma placeable_frame m m' : aff_frame m m' -> same_ptr p m m' -> placeable m -> placeable m'.
Proof.
  intros F Hp HP. destruct (HP) as (_ & t & _ & Ht & _).
  destruct (frame_task _ _ _ _ _ _ _ F Ht) as (t' & Ht' & E).
  apply (placeable_same m); [by apply globals_masks, F | | | done].
  - intros c [q Hq]. destruct (frame_rq _ _ _ _ _ _ _ F Hq) as (? & ? & _). by eexists.
  - unfold same_ptr in Hp. rewrite Ht, Ht' in *. cbn in *.
    assert (ts_migration_disabled t' = ts_migration_disabled t) as ->
      by exact (eq_sym (f_equal ts_migration_disabled E)). congruence.
Qed.

Lemma placeable_possible m t :
  placeable m -> m_tasks m !! p = Some t -> ts_cpus_mask t = task_cpu_possible_mask t ->
  exists c, List.find (cpu_allowed m p t) (for_each_cpu (cpus_allowed t)) = Some c /\ cpu_allowed m p t c = true.
Proof.
  intros ([H1 H2 _] & t' & c' & Ht & Hptr & Hmd & Ha & Hpo) Ht' Em. rewrite Ht' in Ht. injection Ht as <-.
  destruct (List.find _ _) as [x|] eqn:E.
  - apply List.find_some in E as [_ E]. eauto.
  - exfalso. assert (Ec : cpus_allowed t = task_cpu_possible_mask t) by (unfold cpus_allowed; by rewrite Hptr).
    pose proof (find_none _ _ E c') as Hn. rewrite <- list_elem_of_In, elem_of_for_each_cpu, Ec in Hn.
    specialize (Hn Hpo). unfold cpu_allowed in Hn. rewrite Ec, bool_decide_true, Hmd in Hn by done. cbn [negb] in Hn.
    assert (c' ∈ m_cpu_online m) by set_solver. assert (c' ∉ m_cpu_dying m) by set_solver.
    unfold task_cpu_possible in Hn. rewrite !(bool_decide_true (c' ∈ _)) in Hn by done.
    rewrite (bool_decide_false (c' ∈ m_cpu_dying m)) in Hn by done.
    by destruct (has_flag _ _), (kthread_is_per_cpu m p).
Qed.

(** What the choice establishes. *)
Definition chosen (m : machine) (c : Z) (m' : machine) : Prop :=
  I m' /\ R m m' /\ exists t', m_tasks m' !! p = Some t' /\ cpu_allowed m' p t' c = true.

Lemma wp_first m (Q : option Z -> machine -> Prop) cpus :
  I m -> (Q None m) -> (forall t c, m_tasks m !! p = Some t -> cpu_allowed m p t c = true -> Q (Some c) m) ->
  wp (first_allowed p cpus) Q m.
Proof.
  intros HI HN HS. destruct (Hok m HI) as [_ [t Ht]]. unfold wp. rewrite (first_allowed_val p cpus m t Ht).
  destruct (List.find _ _) as [c|] eqn:E; [|done]. apply List.find_some in E as [_ E]. by eapply HS.
Qed.

Lemma fallback_fail n m t :
  I m -> placeable m -> m_tasks m !! p = Some t -> ts_cpus_mask t = task_cpu_possible_mask t ->
  wp (fallback_loop (S n) p fail) (fun r m' => chosen m r.1 m') m.
Proof.
  intros HI HP Ht Em. cbn [fallback_loop]. apply wp_bind, wp_deref. exists t. split; [done|].
  destruct (placeable_possible m t HP Ht Em) as (c & Hc & Hal).
  apply wp_bind. unfold wp at 1. rewrite (first_allowed_val _ _ _ t Ht), Hc. apply wp_ret.
  split; [done|]. split; [reflexivity | by exists t].
Qed.

(** The round that falls back to every possible CPU. *)
Lemma fallback_possible n m :
  I m -> placeable m ->
  wp (t ← deref (R := task_struct) p;
      do_set_cpus_allowed p (mask_at (task_cpu_possible_mask t)) ;; fallback_loop (S n) p fail)
     (fun r m' => chosen m r.1 m') m.
Proof.
  intros HI HP. destruct (Hok m HI) as [_ [t Ht]]. apply wp_bind, wp_deref. exists t. split; [done|].
  apply wp_bind. eapply wp_mono; [by apply (Hset m t)|]. intros [] m1 (HI1 & HR & t1 & Ht1 & Em).
  destruct (Haff _ _ HR) as [HF Hp]. pose proof (placeable_frame _ _ HF Hp HP) as HP1.
  eapply wp_mono; [apply (fallback_fail n m1 t1 HI1 HP1 Ht1); by rewrite Em, (possible_const t t1)|].
  intros [c st] m2 (HI2 & HR2 & Hal). split; [done|]. split; [by etransitivity | done].
Qed.

Lemma wp_fallback_loop m :
  I m -> placeable m -> wp (fallback_loop 3 p cpuset) (fun r m' => chosen m r.1 m') m.
Proof.
  intros HI HP. cbn [fallback_loop]. destruct (Hok m HI) as [_ [t Ht]].
  apply wp_bind, wp_deref. exists t. split; [done|]. apply wp_bind, wp_first; [done| |].
  2: { intros t' c Ht' Hal. apply wp_ret. split; [done|]. split; [reflexivity | by exists t']. }
  apply wp_bind. eapply wp_mono; [by apply Hcpuset|]. intros ok m1 (HI1 & HR).
  destruct (Haff _ _ HR) as [HF Hp]. pose proof (placeable_frame _ _ HF Hp HP) as HP1.
  assert (Hch : forall c m2, chosen m1 c m2 -> chosen m c m2).
  { intros c m2 (? & ? & ?). split; [done|]. split; [by etransitivity | done]. }
  destruct ok.
  - destruct (Hok m1 HI1) as [_ [t1 Ht1]].
    apply wp_bind, wp_deref. exists t1. split; [done|]. apply wp_bind, wp_first; [done| |].
    2: { intros t' c Ht' Hal. apply wp_ret, Hch. split; [done|]. split; [reflexivity | by exists t']. }
    eapply wp_mono; [by apply (fallback_possible 0)|]. intros r m2. apply Hch.
  - eapply wp_mono; [by apply (fallback_possible 1)|]. intros r m2. apply Hch.
Qed.

Lemma wp_select_fallback cpu m (Q : Z -> machine -> Prop) :
  I m -> placeable m -> (forall m' l, I m' -> I (m' <| m_log := l |>)) ->
  (forall m1 m' l, R m1 m' -> R m1 (m' <| m_log := l |>)) ->
  (forall c m', chosen m c m' -> Q c m') -> wp (select_fallback_rq cpu p) Q m.
Proof.
  intros HI HP HIl HRl HQ. unfold select_fallback_rq.
  assert (Hgo : wp (r ← fallback_loop 3 p cpuset;
      t ← deref (R := task_struct) p;
      when (match r.2 with cpuset => false | _ => negb (ts_mm t =? NULL) end)
        (emit "printk_deferred no longer affine" [ts_pid t; cpu]) ;;
      mret r.1) Q m).
  { apply wp_bind. eapply wp_mono; [by apply wp_fallback_loop|]. intros [c st] m1 (HI1 & HR1 & t1 & Ht1 & Hal).
    apply wp_bind, wp_deref. exists t1. split; [done|]. apply wp_bind, wp_when.
    destruct (match _ with cpuset => _ | _ => _ end).
    - apply wp_emit, wp_ret, HQ. split; [by apply HIl|]. split; [by apply HRl|].
      exists t1. by rewrite cpu_allowed_log.
    - apply wp_ret, HQ. split; [done|]. split; [done | by exists t1]. }
  apply wp_bind, wp_if. destruct (cpu_to_node cpu =? -1); [by apply wp_ret|].
  apply wp_first; [done | done |]. intros t c Ht Hal. apply wp_ret, HQ. split; [done|]. split; [reflexivity | by exists t].
Qed.
End Fallback.

Lemma has_flag_0 f : has_flag 0 f = false.
Proof. done. Qed.

(** ** A task that may be queued or running *)
Definition present (p : Z) (m : machine) : Prop := kernel_ok m /\ is_Some (m_tasks m !! p).
Definition remasked (p : Z) (m m' : machine) : Prop := aff_frame m m' /\ same_ptr p m m'.

#[local] Instance remasked_pre p : PreOrder (remasked p).
Proof.
  split; [split; reflexivity|]. intros m1 m2 m3 [? ?] [? ?]. split; (etransitivity; eassumption).
Qed.

Lemma present_log p m l : present p m -> present p (m <| m_log := l |>).
Proof. intros [Hok Hp]. split; [|done]. eapply kernel_ok_frame; [|exact Hok]. by repeat split. Qed.

Lemma remask_present p m t s :
  present p m -> m_tasks m !! p = Some t ->
  wp (do_set_cpus_allowed p (mask_at s)) (fun _ m' => present p m' /\ remasked p m m' /\
    exists t', m_tasks m' !! p = Some t' /\ ts_cpus_mask t' = s) m.
Proof.
  intros [Hok _] Ht. eapply wp_do_set_cpus_allowed; [done | exact Ht |].
  intros m' Hok' F (t' & Ht' & E). unfold affinity_after in E. rewrite has_flag_0 in E. cbn [mask_set] in E.
  unfold task_affinity in E. injection E as Em Ep _.
  split; [split; [done | by eexists]|]. split; [split; [done|] | by exists t'].
  unfold same_ptr. rewrite Ht, Ht'. cbn. by rewrite Ep.
Qed.

Lemma cpuset_present p m :
  present p m -> wp (cpuset_cpus_allowed_fallback p) (fun _ m' => present p m' /\ remasked p m m') m.
Proof.
  intros [Hok Hp]. eapply wp_mono; [by apply cpuset_fallback_ok|]. intros ok m' (Hok' & F & Hs & _).
  split; [|done]. split; [done|]. destruct Hp as [t Ht].
  destruct (frame_task _ _ _ _ _ _ _ F Ht) as (? & ? & _). by eexists.
Qed.

Lemma wp_fallback_present cpu p m :
  kernel_ok m -> placeable p m -> wp (select_fallback_rq cpu p) (chosen p (present p) (remasked p) m) m.
Proof.
  intros Hok HP. destruct (HP) as (_ & t & _ & Ht & _).
  apply (wp_select_fallback p (present p) (remasked p)); try done.
  - apply remask_present.
  - apply cpuset_present.
  - intros m1 l. apply present_log.
Qed.

(** ** A task that sleeps *)
Definition resting (p : Z) (m : machine) : Prop := kernel_ok m /\ asleep m p.
Definition masked (p : Z) (m m' : machine) : Prop := mask_frame m m' /\ same_ptr p m m'.

#[local] Instance masked_pre p : PreOrder (masked p).
Proof.
  split; [split; reflexivity|]. intros m1 m2 m3 [? ?] [? ?]. split; (etransitivity; eassumption).
Qed.

Lemma asleep_mask m m' p : mask_frame m m' -> asleep m p -> asleep m' p.
Proof.
  intros F (t & q & Ht & Hq & Hnq & Hnc & Hni).
  destruct (frame_task _ _ _ _ _ _ _ F Ht) as (t' & Ht' & E).
  destruct (frame_rq _ _ _ _ _ _ _ F Hq) as (q' & Hq' & Eq).
  assert (Ec : ts_cpu t' = ts_cpu t) by exact (eq_sym (f_equal ts_cpu E)).
  assert (Eo : ts_on_rq t' = ts_on_rq t) by exact (eq_sym (f_equal ts_on_rq E)).
  exists t', q'. rewrite Ec. unfold task_on_rq_queued in *. rewrite Eo.
  do 3 (split; [done|]). unfold rq_quiet, rq_attrs in Eq. split; congruence.
Qed.

Lemma resting_log p m l : resting p m -> resting p (m <| m_log := l |>).
Proof. intros [Hok Hp]. split; [|done]. eapply kernel_ok_frame; [|exact Hok]. by repeat split. Qed.

Lemma remask_resting p m t s :
  resting p m -> m_tasks m !! p = Some t ->
  wp (do_set_cpus_allowed p (mask_at s)) (fun _ m' => resting p m' /\ masked p m m' /\
    exists t', m_tasks m' !! p = Some t' /\ ts_cpus_mask t' = s) m.
Proof.
  intros [Hok Hs] Ht. destruct (Hs) as (t0 & q & Ht0 & Hq & Hnq & Hnc & _). rewrite Ht in Ht0. injection Ht0 as <-.
  unfold do_set_cpus_allowed, __do_set_cpus_allowed, task_current.
  apply wp_bind, wp_deref. exists t. split; [done|]. cbv zeta. rewrite has_flag_0, Hnq. cbn [andb when]. wp_go.
  replace (rq_curr q =? p) with false by lia. wp_go.
  eapply wp_cl_set_cpus_allowed; [done | exact Ht |]. intros m' Hok' F _ _ (t' & Ht' & E).
  unfold affinity_after in E. rewrite has_flag_0 in E. unfold task_affinity in E. injection E as Em Ep _.
  wp_go. split; [split; [done | by eapply asleep_mask]|]. split; [split; [done|] | by exists t'].
  unfold same_ptr. rewrite Ht, Ht'. cbn. by rewrite Ep.
Qed.

Lemma cpuset_resting p m :
  resting p m -> wp (cpuset_cpus_allowed_fallback p) (fun _ m' => resting p m' /\ masked p m m') m.
Proof.
  intros [Hok Hs]. destruct (Hs) as (t & _ & Ht & _). eapply wp_mono; [apply cpuset_fallback_ok; [done | by eexists]|].
  intros ok m' (Hok' & _ & Hp & Hm). specialize (Hm Hs). split; [split; [done | by eapply asleep_mask] | done].
Qed.

Lemma wp_fallback_resting cpu p m :
  resting p m -> placeable p m -> wp (select_fallback_rq cpu p) (chosen p (resting p) (masked p) m) m.
Proof.
  intros HI HP. apply (wp_select_fallback p (resting p) (masked p)); try done.
  - intros m1 [Hok (t & _ & Ht & _)]. split; [done | by eexists].
  - intros m1 m2 [F ?]. split; [by apply mask_aff_frame | done].
  - apply remask_resting.
  - apply cpuset_resting.
  - intros m1 l. apply resting_log.
Qed.

(** ** The class chooses first *)
Lemma wp_select_resting cpu f p m :
  resting p m -> placeable p m -> wp (select_task_rq p cpu f) (chosen p (resting p) (masked p) m) m.
Proof.
  intros HI HP. destruct (HI) as [Hok (t & q & Ht & Hq & Hnq & Hnc)].
  assert (Hrest : forall c m1, quiet_frame m m1 -> kernel_ok m1 ->
    wp (ok ← is_cpu_allowed p c;
        if negb ok then t ← deref (R := task_struct) p; select_fallback_rq (ts_cpu t) p else mret c)
       (chosen p (resting p) (masked p) m) m1).
  { intros c m1 F Hok1. pose proof (quiet_mask_frame _ _ F) as Fm.
    destruct (frame_task _ _ _ _ _ _ _ F Ht) as (t1 & Ht1 & E).
    assert (Hs : same_ptr p m m1).
    { unfold same_ptr. rewrite Ht, Ht1. cbn. f_equal. exact (eq_sym (f_equal ts_cpus_ptr E)). }
    assert (HI1 : resting p m1) by (split; [done | eapply asleep_mask; [exact Fm | apply HI]]).
    apply wp_bind. unfold wp at 1. rewrite (is_cpu_allowed_val _ _ _ t1 Ht1).
    destruct (cpu_allowed m1 p t1 c) eqn:Ea; cbn [negb].
    - apply wp_ret. split; [done|]. split; [by split | by exists t1].
    - apply wp_bind, wp_deref. exists t1. split; [done|].
      eapply wp_mono; [apply wp_fallback_resting; [done|] |].
      + eapply placeable_frame; [by apply mask_aff_frame, Fm | done..].
      + intros c' m2 (? & HR & ?). split; [done|]. split; [|done]. by transitivity m1. }
  unfold select_task_rq. apply wp_bind, wp_deref. exists t. split; [done|].
  apply wp_bind, wp_if. match goal with |- if ?c then _ else _ => destruct c end.
  - apply wp_quiet; [done | apply select_returns; [done | by eexists] | apply select_frame |].
    intros c m1 Hok1 F. by apply Hrest.
  - apply wp_ret, Hrest; done.
Qed.

(** C28: select_fallback_rq() ends after at most three rounds of relaxing the
    task's affinity and never reaches its BUG(): on a well-formed machine, for a
    task that is not pinned and for which some active CPU is possible, it
    returns a CPU for which is_cpu_allowed() then holds, and it changes nothing
    but the affinity of tasks. *)
Theorem select_fallback_rq_terminates cpu p m :
  kernel_ok m -> placeable p m ->
  wp (select_fallback_rq cpu p) (fun c m' =>
    kernel_ok m' /\ aff_frame m m' /\ is_cpu_allowed p c m' = Ret true m') m.
Proof.
  intros Hok HP. eapply wp_mono; [by apply wp_fallback_present|].
  intros c m' ([Hok' _] & [F _] & t' & Ht' & Ha). split; [done|]. split; [done|].
  by rewrite (is_cpu_allowed_val _ _ _ t' Ht'), Ha.
Qed.
End Select.
