(* ===== verification/Wakeup.v ===== *)
(** Waking tasks up (core.c): try_to_wake_up() and its helpers, the remote wake
    list, the first wake-up of a new task, and wake queues.

    The IPI that tells a CPU to look at its wake list is recorded; the handler
    it runs is [sched_ttwu_pending].  A wake-up waits where the code spins: until the
    migration of the task has ended (__task_rq_lock()) and until its CPU has switched
    away from it (smp_cond_load_acquire() on [p->on_cpu]).  What the other CPUs do
    meanwhile is a parameter; when the condition still does not hold, the caller spins on
    ([stuck]). *)
From S2P Require Import Prelude Headers Proc Kernel Extern RqClock Uclamp Prio Affinity.
From S2P Require Import Migrate.

Section Wakeup.
Context {H : Headers} {X : Extern} {Mg : MigrateExtern}.

(** * Activation on the target run queue *)
Definition ttwu_idle_stamp (r : Z) : K unit :=
  q ← deref (R := rq) r;
  when (truthy (rq_idle_stamp q))
    (let delta := u64 (rq_clock q - rq_idle_stamp q) in
     let max := u64 (2 * rq_max_idle_balance_cost q) in
     set! r ⇝ rq_avg_idle := update_avg (rq_avg_idle q) delta ;;
     avg ← r ⇝ rq_avg_idle;
     when (max <? avg) (set! r ⇝ rq_avg_idle := max) ;;
     j ← jiffies;
     set! r ⇝ rq_wake_stamp := j ;;
     avg ← r ⇝ rq_avg_idle;
     set! r ⇝ rq_wake_avg_idle := avg / 2 ;;
     set! r ⇝ rq_idle_stamp := 0).

Definition ttwu_do_wakeup (r p wake_flags : Z) : K unit :=
  check_preempt_curr r p wake_flags ;;
  set! p ⇝ ts_state := TASK_RUNNING ;;
  emit "trace_sched_wakeup" [p] ;;
  (c ← p ⇝ ts_class; when (has_task_woken c) (cl_task_woken c r p)) ;;
  ttwu_idle_stamp r.

(** [task_rq(p)->nr_iowait] *)
Definition end_iowait (p : Z) : K unit :=
  emit "delayacct_blkio_end" [p] ;;
  c ← p ⇝ ts_cpu;
  upd! c ⇝ rq_nr_iowait := (fun n => n - 1).

Definition ttwu_do_activate (r p wake_flags : Z) : K unit :=
  t ← deref (R := task_struct) p;
  when (ts_sched_contributes_to_load t) (upd! r ⇝ rq_nr_uninterruptible := (fun n => n - 1)) ;;
  let en_flags := Z.lor ENQUEUE_WAKEUP ENQUEUE_NOCLOCK in
  let migrated := has_flag wake_flags WF_MIGRATED in
  when (negb migrated && ts_in_iowait t) (end_iowait p) ;;
  activate_task r p (if migrated then Z.lor en_flags ENQUEUE_MIGRATED else en_flags) ;;
  ttwu_do_wakeup r p wake_flags.

(** Spinning on a field of the task, until the other CPUs have changed it. *)
Definition wait_while (busy : task_struct -> bool) (p : Z) : K unit :=
  t ← deref (R := task_struct) p;
  if busy t then
    meanwhile p ;;
    t ← deref (R := task_struct) p;
    if busy t then stuck NOFUEL else mret tt
  else mret tt.

Definition is_on_cpu (t : task_struct) : bool := truthy (ts_on_cpu t).

(** __task_rq_lock() waits for a migration of the task to end. *)
Definition ttwu_runnable (p wake_flags : Z) : K bool :=
  wait_while task_on_rq_migrating p ;;
  t ← deref (R := task_struct) p;
  let r := ts_cpu t in
  if task_on_rq_queued t then
    update_rq_clock r ;; ttwu_do_wakeup r p wake_flags ;; mret true
  else mret false.

(** ttwu_stat() only counts. *)
Definition ttwu_stat (p cpu wake_flags : Z) : K unit := emit "ttwu_stat" [p; cpu; wake_flags].

(** * The wake list of a remote CPU *)
Definition ttwu_pending_one (r p : Z) : K unit :=
  t ← deref (R := task_struct) p;
  cpu ← r ⇝ rq_cpu;
  when (is_on_cpu t) (emit "WARN_ON_ONCE" [] ;; wait_while is_on_cpu p) ;;
  t ← deref (R := task_struct) p;
  when (negb (ts_cpu t =? cpu)) (emit "WARN_ON_ONCE" [] ;; set_task_cpu p cpu) ;;
  remote ← p ⇝ ts_sched_remote_wakeup;
  ttwu_do_activate r p (if (remote : bool) then WF_MIGRATED else 0).

Definition sched_ttwu_pending (llist : list Z) : K unit :=
  match llist with
  | [] => mret tt
  | _ =>
      r ← gets m_this_cpu;
      set! r ⇝ rq_ttwu_pending := 0 ;;
      update_rq_clock r ;;
      mapM_ (ttwu_pending_one r) llist
  end.

(** The IPI handler takes the whole list. *)
Definition wake_list_ipi : K unit :=
  r ← gets m_this_cpu;
  l ← r ⇝ rq_wake_list;
  set! r ⇝ rq_wake_list := [] ;;
  sched_ttwu_pending l.

Definition send_call_function_single_ipi (cpu : Z) : K unit :=
  idle ← cpu ⇝ rq_idle;
  b ← set_nr_if_polling idle;
  if negb b then emit "arch_send_call_function_single_ipi" [cpu]
  else emit "trace_sched_wake_idle_without_ipi" [cpu].

(** __smp_call_single_queue() puts the entry on the CPU's list and sends the IPI
    when the list was empty (kernel/smp.c). *)
Definition __ttwu_queue_wakelist (p cpu wake_flags : Z) : K unit :=
  set! p ⇝ ts_sched_remote_wakeup := has_flag wake_flags WF_MIGRATED ;;
  set! cpu ⇝ rq_ttwu_pending := 1 ;;
  l ← cpu ⇝ rq_wake_list;
  set! cpu ⇝ rq_wake_list := l ++ [p] ;;
  when (match l with [] => true | _ => false end) (send_call_function_single_ipi cpu).

Definition wake_up_if_idle (cpu : Z) : K unit :=
  q ← deref (R := rq) cpu;
  t ← deref (R := task_struct) (rq_curr q);
  when (has_flag (ts_flags t) PF_IDLE) (resched_curr cpu).

Definition cpus_share_cache (this_cpu that_cpu : Z) : bool :=
  ((this_cpu =? that_cpu) || (sd_llc_id this_cpu =? sd_llc_id that_cpu))%bool.

Definition ttwu_queue_cond (cpu wake_flags : Z) : K bool :=
  m ← get_state;
  n ← cpu ⇝ rq_nr_running;
  mret (bool_decide (cpu ∈ m_cpu_active m) &&
        (negb (cpus_share_cache (m_this_cpu m) cpu) ||
         (has_flag wake_flags WF_ON_CPU && (n <=? 1))))%bool.

Definition ttwu_queue_wakelist (p cpu wake_flags : Z) : K bool :=
  cond ← ttwu_queue_cond cpu wake_flags;
  if (sched_feat "TTWU_QUEUE" && cond)%bool then
    this ← gets m_this_cpu;
    if cpu =? this then emit "WARN_ON_ONCE" [] ;; mret false
    else
      sched_clock_cpu cpu ;;
      __ttwu_queue_wakelist p cpu wake_flags ;;
      mret true
  else mret false.

Definition ttwu_queue (p cpu wake_flags : Z) : K unit :=
  b ← ttwu_queue_wakelist p cpu wake_flags;
  if (b : bool) then mret tt
  else update_rq_clock cpu ;; ttwu_do_activate cpu p wake_flags.

(** * try_to_wake_up() *)
Definition ttwu_state_match (p state : Z) : K bool :=
  when (has_flag state TASK_RTLOCK_WAIT && negb (state =? TASK_RTLOCK_WAIT)) (emit "WARN_ON_ONCE" []) ;;
  st ← p ⇝ ts_state;
  mret (has_flag st state).

(** The part after the task was found off its run queue. *)
Definition ttwu_enqueue (p wake_flags : Z) : K Z :=
  set! p ⇝ ts_state := TASK_WAKING ;;
  t ← deref (R := task_struct) p;
  queued ← (if is_on_cpu t
            then ttwu_queue_wakelist p (ts_cpu t) (Z.lor wake_flags WF_ON_CPU) else mret false);
  if (queued : bool) then mret wake_flags
  else
    wait_while is_on_cpu p ;;
    t ← deref (R := task_struct) p;
    cpu ← select_task_rq p (ts_wake_cpu t) (Z.lor wake_flags WF_TTWU);
    t ← deref (R := task_struct) p;
    (if negb (ts_cpu t =? cpu) then
       when (ts_in_iowait t) (end_iowait p) ;;
       emit "psi_ttwu_dequeue" [p] ;;
       set_task_cpu p cpu
     else mret tt) ;;
    let wake_flags := if negb (ts_cpu t =? cpu) then Z.lor wake_flags WF_MIGRATED else wake_flags in
    ttwu_queue p cpu wake_flags ;;
    mret wake_flags.

Definition try_to_wake_up (p state wake_flags : Z) : K Z :=
  emit "preempt_disable" [] ;;
  cur ← gets m_current;
  success ← ttwu_state_match p state;
  wake_flags ←
    (if negb success then mret wake_flags
     else if p =? cur then
       emit "trace_sched_waking" [p] ;;
       set! p ⇝ ts_state := TASK_RUNNING ;;
       emit "trace_sched_wakeup" [p] ;;
       mret wake_flags
     else
       emit "trace_sched_waking" [p] ;;
       on_rq ← p ⇝ ts_on_rq;
       done ← (if truthy on_rq then ttwu_runnable p wake_flags else mret false);
       if (done : bool) then mret wake_flags else ttwu_enqueue p wake_flags);
  when success (c ← p ⇝ ts_cpu; ttwu_stat p c wake_flags) ;;
  emit "preempt_enable" [] ;;
  mret (b2z success).

Definition wake_up_process (p : Z) : K Z := try_to_wake_up p TASK_NORMAL 0.
Definition wake_up_state (p state : Z) : K Z := try_to_wake_up p state 0.

(** Used by wait queues. *)
Definition default_wake_function (p mode wake_flags : Z) : K Z :=
  when (negb (Z.ldiff wake_flags WF_SYNC =? 0)) (emit "WARN_ON_ONCE" []) ;;
  try_to_wake_up p mode wake_flags.

(** * The first wake-up of a task *)
Definition wake_up_new_task (p : Z) : K unit :=
  set! p ⇝ ts_state := TASK_RUNNING ;;
  t ← deref (R := task_struct) p;
  set! p ⇝ ts_recent_used_cpu := ts_cpu t ;;
  emit "rseq_migrate" [p] ;;
  cpu ← select_task_rq p (ts_cpu t) WF_FORK;
  upd_obj p (task_set_cpu cpu) ;;
  r ← p ⇝ ts_cpu;
  update_rq_clock r ;;
  emit "post_init_entity_util_avg" [p] ;;
  activate_task r p ENQUEUE_NOCLOCK ;;
  emit "trace_sched_wakeup_new" [p] ;;
  check_preempt_curr r p WF_FORK ;;
  c ← p ⇝ ts_class;
  when (has_task_woken c) (cl_task_woken c r p).

(** * Wake queues

    A task is on a queue when its [wake_q.next] is set; the last node points to
    [WAKE_Q_TAIL].  The head keeps the first node and the address of the last
    link, here the task that holds it (0 for the head itself). *)
Definition WAKE_Q_TAIL : Z := 1.

Record wake_q_head : Type := Mk_wake_q { wq_first : Z; wq_lastp : Z }.

(** DEFINE_WAKE_Q *)
Definition wake_q_init : wake_q_head := Mk_wake_q WAKE_Q_TAIL NULL.

Definition __wake_q_add (head : wake_q_head) (task : Z) : K (bool * wake_q_head) :=
  n ← task ⇝ ts_wake_q_next;
  if negb (n =? NULL) then mret (false, head)
  else
    set! task ⇝ ts_wake_q_next := WAKE_Q_TAIL ;;
    if wq_lastp head =? NULL then mret (true, Mk_wake_q task task)
    else
      set! wq_lastp head ⇝ ts_wake_q_next := task ;;
      mret (true, Mk_wake_q (wq_first head) task).

Definition wake_q_add (head : wake_q_head) (task : Z) : K wake_q_head :=
  r ← __wake_q_add head task;
  when r.1 (get_task_struct task) ;;
  mret r.2.

Definition wake_q_add_safe (head : wake_q_head) (task : Z) : K wake_q_head :=
  r ← __wake_q_add head task;
  when (negb r.1) (put_task_struct task) ;;
  mret r.2.

Fixpoint wake_q_loop (fuel : nat) (node : Z) : K unit :=
  if node =? WAKE_Q_TAIL then mret tt
  else
    match fuel with
    | O => stuck NOFUEL
    | S fuel' =>
        next ← node ⇝ ts_wake_q_next;
        set! node ⇝ ts_wake_q_next := NULL ;;
        wake_up_process node ;;
        put_task_struct node ;;
        wake_q_loop fuel' next
    end.

(** A task is on a queue at most once. *)
Definition wake_up_q (head : wake_q_head) : K unit :=
  m ← get_state; wake_q_loop (size (m_tasks m)) (wq_first head).
End Wakeup.
