(* ===== verification/WakeProofs.v ===== *)
(** Waking a task up: a sleeping task is queued or handed to the wake list of a
    CPU it may use, and the CPU's handler queues every task of its list. *)
From S2P Require Import Prelude Headers Proc Kernel Extern RqClock Uclamp UclampProofs Prio.
From S2P Require Import SchedOK Affinity AffinityProofs Migrate MigrateProofs Wakeup.

(** * Operations that change one task

    Every other task keeps what its class may not change. *)
Definition around (p : Z) (m m' : machine) : Prop :=
  delete p (task_quiet <$> m_tasks m) = delete p (task_quiet <$> m_tasks m') /\
  rq_attrs <$> m_rqs m = rq_attrs <$> m_rqs m' /\ globals m = globals m'.

#[export] Instance around_equiv p : Equivalence (around p).
Proof.
  split.
  - by intros m.
  - intros m m' (? & ? & ?). by repeat split.
  - intros m1 m2 m3 (? & ? & ?) (? & ? & ?). repeat split; congruence.
Qed.

Lemma quiet_around p m m' : quiet_frame m m' -> around p m m'.
Proof.
  intros F. split; [by destruct F as [-> _]|]. split; [|apply F].
  assert (Fc : class_frame m m') by (by apply quiet_class_frame). apply Fc.
Qed.

Lemma around_set_task p t' m : around p m (m <| m_tasks := <[p := t']> (m_tasks m) |>).
Proof. repeat split. cbn. by rewrite fmap_insert, delete_insert_eq. Qed.

Lemma around_set_rq p r q q' m :
  m_rqs m !! r = Some q -> rq_attrs q' = rq_attrs q -> around p m (m <| m_rqs := <[r := q']> (m_rqs m) |>).
Proof.
  intros Hq E. repeat split. cbn. rewrite fmap_insert, E, insert_id; [done|]. by rewrite lookup_fmap, Hq.
Qed.

Lemma around_upd_task p g : preserves (around p) (upd_obj (R := task_struct) p g).
Proof. apply preserves_upd_obj; [typeclasses eauto|]. intros m t _. apply around_set_task. Qed.

Lemma around_upd_rq p r g :
  (forall x, rq_attrs (g x) = rq_attrs x) -> preserves (around p) (upd_obj (R := rq) r g).
Proof. intros Hg. apply preserves_upd_obj; [typeclasses eauto|]. intros m q Hq. by apply around_set_rq with q. Qed.

Lemma around_quiet {A} p (c : K A) : preserves quiet_frame c -> preserves (around p) c.
Proof. intros Hc m a m' E. apply quiet_around. by eapply Hc. Qed.

Lemma around_task p m m' p' t :
  around p m m' -> p' <> p -> m_tasks m !! p' = Some t ->
  exists t', m_tasks m' !! p' = Some t' /\ task_quiet t = task_quiet t'.
Proof.
  intros (E & _ & _) Hn Ht. apply (f_equal (fun g => g !! p')) in E.
  rewrite !lookup_delete_ne, !lookup_fmap, Ht in E by done. cbn in E.
  destruct (m_tasks m' !! p') as [t'|]; [|done]. exists t'. split; [done|]. cbn in E. congruence.
Qed.

Lemma around_rq p m m' r q :
  around p m m' -> m_rqs m !! r = Some q -> exists q', m_rqs m' !! r = Some q' /\ rq_attrs q = rq_attrs q'.
Proof. intros (_ & E & _). by apply fmap_lookup_agree. Qed.

#[export] Hint Extern 2 (preserves (around _) _) =>
  apply around_quiet; solve [eauto 2 with preserve] : preserve.
#[export] Hint Resolve around_upd_task : preserve.
#[export] Hint Extern 2 (preserves (around _) (upd_obj _ _)) => by apply around_upd_rq : preserve.
#[export] Hint Extern 2 (preserves (around _) (wr _ _ _)) =>
  first [apply around_upd_task | by apply around_upd_rq] : preserve.

Section WakeProofs.
Context {H : Headers} {X : Extern} {Mg : MigrateExtern}.
Context {HOK : HeadersOK H} {XOK : ExternOK X} {XS : ExternSafe X} {MOK : MigrateExternOK Mg}.

Lemma around_inc_id r p id : preserves (around p) (uclamp_rq_inc_id r p id).
Proof.
  unfold uclamp_rq_inc_id, uclamp_eff_get, uclamp_tg_restrict, rd_bucket, wr_bucket, upd_uclamp,
    uclamp_idle_reset, upd_rq_uclamp. keep.
Qed.

#[local] Hint Resolve around_inc_id : preserve.

Lemma around_enqueue r p f : preserves (around p) (enqueue_task r p f).
Proof. unfold enqueue_task, uclamp_rq_inc, clear_idle_flag. keep. Qed.

(** * The task itself *)

(** Not running, not the current or the idle task of its CPU, and in none of its
    buckets. *)
Definition movable (m : machine) (p : Z) : Prop := exists t q,
  m_tasks m !! p = Some t /\ m_rqs m !! ts_cpu t = Some q /\ rq_curr q <> p /\ rq_idle q <> p /\
  uc_active (pc_get UCLAMP_MIN (ts_uclamp t)) = false /\ ts_on_cpu t = 0.

(** The same of a task its CPU may still be switching away from. *)
Definition dequeued (m : machine) (p : Z) : Prop := exists t q,
  m_tasks m !! p = Some t /\ m_rqs m !! ts_cpu t = Some q /\ rq_idle q <> p /\
  uc_active (pc_get UCLAMP_MIN (ts_uclamp t)) = false /\ (ts_on_cpu t = 0 -> rq_curr q <> p).

Lemma movable_dequeued m p : movable m p -> dequeued m p.
Proof. intros (t & q & ? & ? & ? & ? & ? & _). by exists t, q. Qed.

Lemma dequeued_movable m p t : dequeued m p -> m_tasks m !! p = Some t -> ts_on_cpu t = 0 -> movable m p.
Proof.
  intros (t' & q & Ht' & Hq & Hi & Hoff & Hc) Ht Hn. rewrite Ht in Ht'. injection Ht' as <-.
  exists t, q. split_and!; auto.
Qed.

(** [p] is in state [st], with [on_rq] and CPU [c]. *)
Definition task_in (m : machine) (p st on_rq c : Z) : Prop := exists t,
  m_tasks m !! p = Some t /\ ts_state t = st /\ ts_on_rq t = on_rq /\ ts_cpu t = c.

Lemma task_in_queue m m' p st o c : queue_frame m m' -> task_in m p st o c -> task_in m' p st o c.
Proof.
  intros F (t & Ht & Hs & Ho & Hc). destruct (frame_task _ _ _ _ _ _ _ F Ht) as (t' & Ht' & E).
  exists t'. split; [done|]. split; [|split].
  - rewrite <- Hs. exact (eq_sym (f_equal ts_state E)).
  - rewrite <- Ho. exact (eq_sym (f_equal ts_on_rq E)).
  - rewrite <- Hc. exact (eq_sym (f_equal ts_cpu E)).
Qed.

Lemma task_in_on m p st o c : task_in m p st o c -> task_on m c p.
Proof. intros (t & Ht & _ & _ & Hc). by exists t. Qed.

(** ** Moving a task that is not accounted *)
Lemma move_uclamp_inv m p t t' :
  uclamp_inv m -> m_tasks m !! p = Some t -> uc_active (pc_get UCLAMP_MIN (ts_uclamp t)) = false ->
  ts_uclamp t' = ts_uclamp t -> uclamp_inv (m <| m_tasks := <[p := t']> (m_tasks m) |>).
Proof.
  intros [Hrq Hp] Ht Hoff E. assert (Hpair := Hp p t Ht). split.
  - intros c q Hq. eapply rq_clamps_ok_perm; [|exact (Hrq c q Hq)]. intros id. cbn.
    rewrite (active_split (m_tasks m) c id p t Ht), active_insert.
    unfold contrib. rewrite E. unfold paired in Hpair.
    assert (uc_active (pc_get id (ts_uclamp t)) = false) as -> by (destruct id; congruence).
    by rewrite !andb_false_r.
  - intros p' t0. cbn. rewrite lookup_insert. case_decide as Ep; [|by apply Hp].
    intros [= <-]. unfold paired. by rewrite E.
Qed.

Lemma kernel_ok_move m p t q t' :
  kernel_ok m -> m_tasks m !! p = Some t -> m_rqs m !! ts_cpu t = Some q -> rq_curr q <> p -> rq_idle q <> p ->
  uc_active (pc_get UCLAMP_MIN (ts_uclamp t)) = false -> is_Some (m_rqs m !! ts_cpu t') ->
  task_okp t' = task_okp (t <| ts_cpu := ts_cpu t' |>) ->
  kernel_ok (m <| m_tasks := <[p := t']> (m_tasks m) |>).
Proof.
  intros [Hn Hr Htk Hth Hu Hc Ha] Ht Hq Hcur Hidl Hoff Hrq E. unfold task_okp in E; cbn in E.
  assert (Eg : ts_task_group t' = ts_task_group t) by congruence.
  assert (Euc : ts_uclamp t' = ts_uclamp t) by congruence.
  assert (Eur : ts_uclamp_req t' = ts_uclamp_req t) by congruence.
  assert (Hne : forall c q' x, m_rqs m !! c = Some q' -> task_on m c x -> (c = ts_cpu t -> x <> p) ->
    task_on (m <| m_tasks := <[p := t']> (m_tasks m) |>) c x).
  { intros c q' x Hc' (tx & Htx & Hx) Hxp. exists tx. cbn. rewrite lookup_insert_ne; [done|].
    intros ->. rewrite Ht in Htx. injection Htx as <-. by apply Hxp. }
  split; cbn.
  - rewrite lookup_insert_ne; [done|]. intros ->. congruence.
  - intros c q' Hq'. destruct (Hr c q' Hq') as (? & ? & ?). split; [done|].
    split; (eapply Hne; [done.. |]); intros ->; by simplify_eq.
  - intros p' t0. rewrite lookup_insert. case_decide as Ep; [|by apply Htk].
    intros [= <-]. rewrite Eg. split; [done | by apply (Htk p t)].
  - done.
  - by eapply move_uclamp_inv.
  - destruct Hc as (Hreq & Htg & Hd). split; [|by split]. intros p' t0 id. cbn. rewrite lookup_insert.
    case_decide as Ep; [|by apply Hreq]. intros [= <-]. rewrite Eur. by eapply Hreq.
  - intros p' t0. rewrite lookup_insert. case_decide as Ep; [|by apply Ha].
    intros [= <-]. rewrite Euc. cbn in Hoff. congruence.
Qed.

Lemma wp_when_quiet {A} (b : bool) (c : K unit) (k : K A) m Q :
  kernel_ok m -> (b = true -> returns c m) -> preserves quiet_frame c ->
  (forall m', kernel_ok m' -> quiet_frame m m' -> wp k Q m') -> wp (when b c ;; k) Q m.
Proof.
  intros Hok Hr Hp HQ. apply wp_bind, wp_when. destruct b; [|by apply HQ].
  apply wp_quiet; [done | by apply Hr | done |]. intros []. apply HQ.
Qed.

Lemma movable_quiet m m' p : quiet_frame m m' -> movable m p -> movable m' p.
Proof.
  intros F (t & q & Ht & Hq & Hc & Hi & Hoff & Hn).
  destruct (frame_task _ _ _ _ _ _ _ F Ht) as (t' & Ht' & E).
  destruct (frame_rq _ _ _ _ _ _ _ F Hq) as (q' & Hq' & Eq). unfold rq_quiet, rq_attrs in Eq.
  assert (Ec : ts_cpu t' = ts_cpu t) by exact (eq_sym (f_equal ts_cpu E)).
  assert (Eu : ts_uclamp t' = ts_uclamp t) by exact (eq_sym (f_equal ts_uclamp E)).
  assert (En : ts_on_cpu t' = ts_on_cpu t) by exact (eq_sym (f_equal ts_on_cpu E)).
  exists t', q'. rewrite Ec, Eu, En. split_and!; [done | done | congruence | congruence | done | done].
Qed.

Lemma migrate_returns c p cpu m :
  kernel_ok m -> is_Some (m_tasks m !! p) ->
  returns (when (has_migrate_task_rq c) (cl_migrate_task_rq c p cpu) ;;
    upd! p ⇝ ts_se := (fun s => s <| se_nr_migrations := u64 (se_nr_migrations s + 1) |>) ;;
    emit "rseq_migrate" [p] ;; emit "perf_event_task_migrate" [p]) m.
Proof.
  intros Hok [t Ht]. apply wp_when_quiet; [done | | auto with preserve |].
  - intros _. apply migrate_rq_returns; [done | by eexists].
  - intros m1 Hok1 F1. destruct (frame_task _ _ _ _ _ _ _ F1 Ht) as (t1 & Ht1 & _). by wp_go.
Qed.

(** set_task_cpu() changes the place of the task and nothing else that is not
    private to its class. *)
Lemma wp_set_task_cpu p cpu m t (Q : unit -> machine -> Prop) :
  kernel_ok m -> movable m p -> m_tasks m !! p = Some t -> is_Some (m_rqs m !! cpu) ->
  (forall m' t', kernel_ok m' -> around p m m' -> m_tasks m' !! p = Some t' ->
    task_quiet t' = task_quiet (t <| ts_cpu := cpu |> <| ts_wake_cpu := cpu |>) -> Q tt m') ->
  wp (set_task_cpu p cpu) Q m.
Proof.
  intros Hok Hmv Ht Hr HQ. unfold set_task_cpu. apply wp_bind, wp_deref. exists t. split; [done|].
  apply wp_bind, wp_get_state. cbv zeta.
  do 4 (apply wp_when_quiet; [eassumption | done | auto with preserve |];
    let F := fresh "F" in intros ? ? F). apply wp_bind, wp_emit_quiet; [done|]. intros m5 Hok5 F5.
  assert (Fa : quiet_frame m m5) by (by repeat (etransitivity; [eassumption|])).
  destruct (frame_task _ _ _ _ _ _ _ Fa Ht) as (t5 & Ht5 & _).
  apply wp_when_quiet; [done | | |].
  - intros _. apply migrate_returns; [done | by eexists].
  - framed.
  - intros m6 Hok6 F6. assert (Fq : quiet_frame m m6) by (by etransitivity).
    pose proof (movable_quiet _ _ _ Fq Hmv) as (t6 & q6 & Ht6 & Hq6 & Hc6 & Hi6 & Hoff6 & _).
    destruct (frame_task _ _ _ _ _ _ _ Fq Ht) as (t6' & Ht6' & E6). rewrite Ht6 in Ht6'. injection Ht6' as <-.
    apply wp_upd_obj. exists t6. split; [done|]. rewrite task_set_cpu_val.
    eapply HQ.
    + eapply kernel_ok_move; [done | exact Ht6 | exact Hq6 | done.. | |done]. cbn.
      destruct Hr as [q Hq]. destruct (frame_rq _ _ _ _ _ _ _ Fq Hq) as (? & ? & _). by eexists.
    + etransitivity; [by apply quiet_around | apply around_set_task].
    + apply lookup_insert_eq.
    + exact (eq_sym (f_equal (fun x => x <| ts_cpu := cpu |> <| ts_wake_cpu := cpu |>) E6)).
Qed.

(** * Activation *)
Lemma resched_returns r m : kernel_ok m -> is_Some (m_rqs m !! r) -> returns (resched_curr r) m.
Proof.
  intros Hok [q Hq]. destruct (ok_rqs m Hok r q Hq) as (_ & (t & Ht & _) & _).
  unfold returns, resched_curr, set_tsk_need_resched, set_nr_and_not_polling. wp_go.
  destruct (test_tsk_need_resched t); [done|]. wp_go. destruct (rq_cpu q =? m_this_cpu m); wp_go; [done|].
  by match goal with |- if ?c then _ else _ => destruct c end.
Qed.

Lemma wp_check_preempt r p f m (Q : unit -> machine -> Prop) :
  kernel_ok m -> live m r p -> (forall m', kernel_ok m' -> quiet_frame m m' -> Q tt m') ->
  wp (check_preempt_curr r p f) Q m.
Proof.
  intros Hok Hl HQ. destruct (Hl) as [[q Hq] [t Ht]].
  destruct (ok_rqs m Hok r q Hq) as (_ & (tc & Htc & _) & _). unfold check_preempt_curr.
  do 3 (apply wp_bind, wp_rd; eexists; split; [eassumption|]).
  assert (Hend : forall m1, kernel_ok m1 -> quiet_frame m m1 ->
    wp (curr ← r ⇝ rq_curr; t ← deref (R := task_struct) curr;
        when (task_on_rq_queued t && test_tsk_need_resched t) (rq_clock_skip_update r)) Q m1).
  { intros m1 Hok1 F1. destruct (frame_rq _ _ _ _ _ _ _ F1 Hq) as (q1 & Hq1 & _).
    destruct (ok_rqs m1 Hok1 r q1 Hq1) as (_ & (t1 & Ht1 & _) & _).
    wp_go. match goal with |- if ?c then _ else _ => destruct c end; [|by apply HQ].
    apply quiet_upd_rq_returns; [done | by eexists | done |]. intros m2 Hok2 F2.
    apply HQ; [done | by transitivity m1]. }
  apply wp_bind, wp_if. destruct (class_eqb _ _).
  - apply wp_quiet; [done | by apply check_preempt_returns | auto with preserve |]. intros []. apply Hend.
  - apply wp_when. destruct (_ <? _); [|by apply Hend].
    apply wp_quiet; [done | apply resched_returns; [done | by eexists] | auto with preserve |]. intros []. apply Hend.
Qed.

Lemma wp_activate r p f m st o c (Q : unit -> machine -> Prop) :
  kernel_ok m -> task_in m p st o c -> c = r -> clamp_off m p ->
  (forall m', kernel_ok m' -> around p m m' -> task_in m' p st TASK_ON_RQ_QUEUED c -> Q tt m') ->
  wp (activate_task r p f) Q m.
Proof.
  intros Hok Hin -> Hoff HQ. unfold activate_task. apply wp_bind.
  eapply wp_call; [|apply (around_enqueue r p f)|].
  - apply (wp_enqueue_task r p f m (fun _ m' => kernel_ok m' /\ queue_frame m m'));
      [done | by eapply task_in_on | done | done].
  - intros [] m1 [Hok1 F1] Fa. destruct (task_in_queue _ _ _ _ _ _ F1 Hin) as (t & Ht & Hs & _ & Hc).
    apply wp_wr. exists t. split; [done|]. apply HQ.
    + by eapply kernel_ok_task.
    + etransitivity; [exact Fa | apply around_set_task].
    + eexists. split; [apply lookup_insert_eq | done].
Qed.

Lemma idle_stamp_returns r m : kernel_ok m -> is_Some (m_rqs m !! r) -> returns (ttwu_idle_stamp r) m.
Proof.
  intros Hok [q Hq]. unfold returns, ttwu_idle_stamp. wp_go. destruct (truthy _); [|done]. wp_go.
  assert (Hrest : forall m1 q1, m_rqs m1 !! r = Some q1 ->
    wp (j ← jiffies; set! r ⇝ rq_wake_stamp := j ;; avg ← r ⇝ rq_avg_idle;
        set! r ⇝ rq_wake_avg_idle := avg / 2 ;; set! r ⇝ rq_idle_stamp := 0) (fun _ _ => True) m1).
  { intros m1 q1 Hq1. apply wp_bind. eapply wp_call; [apply jiffies_returns | apply jiffies_frame |].
    intros j m2 _ F. destruct (frame_rq _ _ _ _ _ _ _ F Hq1) as (q2 & Hq2 & _). by wp_go. }
  case_match; wp_go; refine (proj1 (wp_bind _ _ _ _) (Hrest _ _ _)); cbn; apply lookup_insert_eq.
Qed.

Lemma idle_stamp_frame r : preserves quiet_frame (ttwu_idle_stamp r).
Proof. unfold ttwu_idle_stamp. framed. Qed.

(** ** What a wake-up leaves alone *)
Definition settled (p : Z) (m m' : machine) : Prop :=
  exists m1, around p m m1 /\ class_frame m1 m' /\ keeps_queued m1 m'.

Lemma keeps_quiet m m' : quiet_frame m m' -> keeps_queued m m'.
Proof.
  intros F p t Ht. destruct (frame_task _ _ _ _ _ _ _ F Ht) as (t' & Ht' & E). exists t'.
  split; [done|]. split; [|by intros _]. intros <-. exact (eq_sym (f_equal ts_on_rq E)).
Qed.

Lemma keeps_after_quiet m m1 m2 : keeps_queued m m1 -> quiet_frame m1 m2 -> keeps_queued m m2.
Proof.
  intros K1 F p t Ht. destruct (K1 p t Ht) as (t1 & Ht1 & H1 & H2).
  destruct (frame_task _ _ _ _ _ _ _ F Ht1) as (t2 & Ht2 & E). exists t2. split; [done|]. split.
  - intros Hq. rewrite <- (H1 Hq). exact (eq_sym (f_equal ts_on_rq E)).
  - intros H0. rewrite <- (H2 H0). by rewrite E.
Qed.

Lemma settled_around p m m1 m2 : around p m m1 -> settled p m1 m2 -> settled p m m2.
Proof. intros Fa (m' & Fb & ? & ?). exists m'. split; [by transitivity m1 | done]. Qed.

(** Runnable, and on a run queue. *)
Definition runnable (m : machine) (p : Z) : Prop :=
  exists t, m_tasks m !! p = Some t /\ ts_state t = TASK_RUNNING /\ ts_on_rq t = TASK_ON_RQ_QUEUED.

Lemma wp_do_wakeup r p f m st (Q : unit -> machine -> Prop) :
  kernel_ok m -> task_in m p st TASK_ON_RQ_QUEUED r ->
  (forall m', kernel_ok m' -> settled p m m' -> runnable m' p -> Q tt m') ->
  wp (ttwu_do_wakeup r p f) Q m.
Proof.
  intros Hok Hin HQ. unfold ttwu_do_wakeup. pose proof (task_on_live _ _ _ Hok (task_in_on _ _ _ _ _ Hin)) as Hl.
  apply wp_bind, wp_check_preempt; [done | done |]. intros m1 Hok1 F1.
  destruct (task_in_queue _ _ _ _ _ _ (quiet_queue_frame _ _ F1) Hin) as (t & Ht & Hs & Ho & Hc).
  set (t2 := t <| ts_state := TASK_RUNNING |>).
  set (m2 := m1 <| m_tasks := <[p := t2]> (m_tasks m1) |>).
  apply wp_bind, wp_wr. exists t. split; [done|]. change (wp (emit "trace_sched_wakeup" [p] ;;
    (c ← p ⇝ ts_class; when (has_task_woken c) (cl_task_woken c r p)) ;; ttwu_idle_stamp r) Q m2).
  assert (Hok2 : kernel_ok m2) by (by eapply kernel_ok_task).
  assert (Fa2 : around p m m2) by (etransitivity; [by apply quiet_around | apply around_set_task]).
  apply wp_bind, wp_emit_quiet; [done|]. intros m3 Hok3 F3.
  destruct (frame_task _ _ _ _ _ _ _ F3 (lookup_insert_eq _ p t2)) as (t3 & Ht3 & E3).
  assert (Hr3 : ts_state t3 = TASK_RUNNING) by exact (eq_sym (f_equal ts_state E3)).
  assert (Ho3 : ts_on_rq t3 = TASK_ON_RQ_QUEUED).
  { rewrite <- Ho. exact (eq_sym (f_equal ts_on_rq E3)). }
  assert (Fa3 : around p m m3) by (etransitivity; [exact Fa2 | by apply quiet_around]).
  assert (Hl3 : live m3 r p).
  { eapply live_frame; [exact F3|]. destruct Hl as [[q Hq] _].
    destruct (frame_rq _ _ _ _ _ _ _ F1 Hq) as (? & ? & _). split; [by eexists|]. cbn. rewrite lookup_insert_eq. by eexists. }
  assert (Hend : forall m4, kernel_ok m4 -> class_frame m3 m4 -> keeps_queued m3 m4 -> wp (ttwu_idle_stamp r) Q m4).
  { intros m4 Hok4 F4 K4. pose proof (live_frame _ _ _ _ _ _ _ F4 Hl3) as Hl4.
    apply wp_quiet; [done | by apply idle_stamp_returns, Hl4 | apply idle_stamp_frame |].
    intros [] m5 Hok5 F5. assert (K5 := keeps_after_quiet _ _ _ K4 F5).
    assert (F35 : class_frame m3 m5) by (etransitivity; [exact F4 | by apply quiet_class_frame]).
    apply HQ; [done | by exists m3 |]. destruct (K5 p t3 Ht3) as (t5 & Ht5 & Hq5 & _).
    exists t5. split; [done|]. split; [|by apply Hq5].
    destruct (frame_task _ _ _ _ _ _ _ F35 Ht3) as (t5' & Ht5' & E5). rewrite Ht5 in Ht5'. injection Ht5' as <-.
    rewrite <- Hr3. exact (eq_sym (f_equal ts_state E5)). }
  apply wp_bind, wp_bind, wp_rd. exists t3. split; [done|]. apply wp_when.
  destruct (has_task_woken _); [|apply Hend; [done | reflexivity | by apply keeps_quiet]].
  eapply wp_mono; [by apply woken_ok|]. intros [] m4 (? & ? & ?). by apply Hend.
Qed.

Lemma wp_upd_rq_around r g m (Q : unit -> machine -> Prop) :
  kernel_ok m -> is_Some (m_rqs m !! r) -> (forall x, rq_attrs (g x) = rq_attrs x) ->
  (forall x, rq_okp (g x) = rq_okp x) ->
  (forall m', kernel_ok m' -> (forall p, around p m m') -> m_tasks m' = m_tasks m -> Q tt m') ->
  wp (upd_obj (R := rq) r g) Q m.
Proof.
  intros Hok [q Hq] Ha Ho HQ. apply wp_upd_obj. exists q. split; [done|]. apply HQ; [|intros p|done].
  - eapply kernel_ok_rq; [done | exact Hq | apply Ho].
  - apply around_set_rq with q; [done | apply Ha].
Qed.

Lemma wp_end_iowait p m st o c (Q : unit -> machine -> Prop) :
  kernel_ok m -> task_in m p st o c ->
  (forall m', kernel_ok m' -> (forall p, around p m m') -> m_tasks m' = m_tasks m -> Q tt m') ->
  wp (end_iowait p) Q m.
Proof.
  intros Hok Hin HQ. unfold end_iowait. apply wp_bind, wp_emit.
  destruct (Hin) as (t & Ht & _ & _ & Hc). apply wp_bind, wp_rd. exists t. split; [done|].
  destruct (ok_tasks m Hok p t Ht) as [Hr _].
  apply wp_upd_rq_around; [|done..|].
  - eapply kernel_ok_frame; [|exact Hok]. by repeat split.
  - intros m' Hok' Fa Et. apply HQ; [done| |done]. intros p'. exact (Fa p').
Qed.

Lemma clamp_off_same m m' p :
  m_tasks m' = m_tasks m -> globals m = globals m' -> clamp_off m p -> clamp_off m' p.
Proof.
  intros Et Eg Hoff Hu t. rewrite Et. apply Hoff. unfold globals in Eg. congruence.
Qed.

Lemma wp_do_activate r p f m st o (Q : unit -> machine -> Prop) :
  kernel_ok m -> task_in m p st o r -> clamp_off m p ->
  (forall m', kernel_ok m' -> settled p m m' -> runnable m' p -> Q tt m') ->
  wp (ttwu_do_activate r p f) Q m.
Proof.
  intros Hok Hin Hoff HQ. unfold ttwu_do_activate.
  assert (Hr : is_Some (m_rqs m !! r)) by (eapply task_on_live, task_in_on; [done | exact Hin]).
  destruct (Hin) as (t & Ht & _). apply wp_bind, wp_deref. exists t. split; [done|].
  assert (Hend : forall b m2, kernel_ok m2 -> around p m m2 -> m_tasks m2 = m_tasks m ->
    wp (activate_task r p b ;; ttwu_do_wakeup r p f) Q m2).
  { intros b m2 Hok2 F2 Et2. apply wp_bind.
    apply (wp_activate r p b m2 st o r); [done | | done | |].
    - destruct Hin as (t' & ? & ?). exists t'. by rewrite Et2.
    - eapply clamp_off_same; [exact Et2 | apply F2 | done].
    - intros m3 Hok3 F3 Hin3. eapply wp_do_wakeup; [done | exact Hin3 |].
      intros m4 Hok4 S4 Hrun. apply HQ; [done| |done]. eapply settled_around; [|exact S4]. by transitivity m2. }
  assert (Hio : forall b0 b m1, kernel_ok m1 -> around p m m1 -> m_tasks m1 = m_tasks m ->
    wp (when b0 (end_iowait p) ;; activate_task r p b ;; ttwu_do_wakeup r p f) Q m1).
  { intros b0 b m1 Hok1 F1 Et1. apply wp_bind, wp_when. destruct b0; [|by apply Hend].
    eapply wp_end_iowait; [done | |].
    - destruct Hin as (t' & ? & ?). exists t'. by rewrite Et1.
    - intros m2 Hok2 F2 Et2. apply Hend; [done | by transitivity m1 | congruence]. }
  apply wp_bind, wp_when. destruct (ts_sched_contributes_to_load t); [|by apply Hio].
  apply wp_upd_rq_around; [done | done | done | done |]. intros m1 Hok1 F1 Et1. by apply Hio.
Qed.

(** * Wake lists *)

(** [p] is being woken on CPU [c]; the CPU may still be switching away from it. *)
Definition waking (m : machine) (c p : Z) : Prop := task_in m p TASK_WAKING 0 c /\ dequeued m p.

(** The same, with the CPU done. *)
Definition waking_off (m : machine) (c p : Z) : Prop := task_in m p TASK_WAKING 0 c /\ movable m p.

Lemma waking_off_waking m c p : waking_off m c p -> waking m c p.
Proof. intros [Hin Hmv]. split; [done | by apply movable_dequeued]. Qed.

Lemma waking_is_off m c p t : waking m c p -> m_tasks m !! p = Some t -> ts_on_cpu t = 0 -> waking_off m c p.
Proof. intros [Hin Hmv] Ht Hn. split; [done | by eapply dequeued_movable]. Qed.

(** A task is on one list at most once, is waking there, and the CPU has been
    told. *)
Definition wake_lists_ok (m : machine) : Prop := forall c q, m_rqs m !! c = Some q ->
  NoDup (rq_wake_list q) /\ (rq_wake_list q <> [] -> rq_ttwu_pending q = 1) /\
  forall p, p ∈ rq_wake_list q -> waking m c p.

Definition listed (m : machine) (p : Z) : Prop :=
  exists c q, m_rqs m !! c = Some q /\ p ∈ rq_wake_list q.

(** What a waking task shows of itself. *)
Definition task_wk (t : task_struct) := (ts_state t, ts_on_rq t, ts_on_cpu t, ts_cpu t, ts_uclamp t).

Lemma quiet_wk t t' : task_quiet t = task_quiet t' -> task_wk t' = task_wk t.
Proof. intros E. exact (eq_sym (f_equal task_wk E)). Qed.

Lemma waking_kept m m' c p t t' :
  waking m c p -> m_tasks m !! p = Some t -> m_tasks m' !! p = Some t' -> task_wk t' = task_wk t ->
  (fun q => (rq_curr q, rq_idle q)) <$> m_rqs m !! c = (fun q => (rq_curr q, rq_idle q)) <$> m_rqs m' !! c ->
  waking m' c p.
Proof.
  intros [(t0 & Ht0 & Hs & Ho & Hc) (t1 & q & Ht1 & Hq & Hidl & Hoff & Hcur)] Ht Ht' E Eq.
  rewrite Ht in Ht0, Ht1. injection Ht0 as <-. injection Ht1 as <-. unfold task_wk in E.
  assert (Ec : ts_cpu t' = ts_cpu t) by congruence. assert (Eu : ts_uclamp t' = ts_uclamp t) by congruence.
  assert (En : ts_on_cpu t' = ts_on_cpu t) by congruence.
  rewrite <- Hc, Hq in Eq. cbn in Eq. destruct (m_rqs m' !! ts_cpu t) as [q'|] eqn:Hq'; [|done]. cbn in Eq.
  split.
  - exists t'. repeat split; congruence.
  - exists t', q'. rewrite Ec, Eu, En. split_and!; [done | done | congruence | done |]. intros Hn.
    specialize (Hcur Hn). congruence.
Qed.

Lemma waking_off_kept m m' c p t t' :
  waking_off m c p -> m_tasks m !! p = Some t -> m_tasks m' !! p = Some t' -> task_wk t' = task_wk t ->
  (fun q => (rq_curr q, rq_idle q)) <$> m_rqs m !! c = (fun q => (rq_curr q, rq_idle q)) <$> m_rqs m' !! c ->
  waking_off m' c p.
Proof.
  intros Hwk Ht Ht' E Eq. eapply (waking_is_off _ _ _ t'); [|done|].
  - by eapply waking_kept; [apply waking_off_waking|..].
  - destruct Hwk as [_ (t0 & _ & Ht0 & _ & _ & _ & _ & Hn)]. rewrite Ht in Ht0. injection Ht0 as <-.
    unfold task_wk in E. congruence.
Qed.

Lemma rq_attrs_agree {B} (g : rq -> B) m m' c :
  (forall q q', rq_attrs q = rq_attrs q' -> g q = g q') ->
  rq_attrs <$> m_rqs m = rq_attrs <$> m_rqs m' -> g <$> m_rqs m !! c = g <$> m_rqs m' !! c.
Proof.
  intros Hg E. apply (f_equal (fun x => x !! c)) in E. rewrite !lookup_fmap in E.
  destruct (m_rqs m !! c), (m_rqs m' !! c); cbn in *; try done. f_equal. apply Hg. congruence.
Qed.

Lemma wake_lists_kept m m' :
  wake_lists_ok m -> rq_attrs <$> m_rqs m = rq_attrs <$> m_rqs m' ->
  (forall p t, listed m p -> m_tasks m !! p = Some t ->
    exists t', m_tasks m' !! p = Some t' /\ task_wk t' = task_wk t) ->
  wake_lists_ok m'.
Proof.
  intros Hw Er Hk c q' Hq'. destruct (fmap_lookup_agree rq_attrs _ _ c q' (eq_sym Er) Hq') as (q & Hq & E).
  unfold rq_attrs in E. destruct (Hw c q Hq) as (Hnd & Hpend & Hall).
  assert (rq_wake_list q' = rq_wake_list q) as -> by congruence.
  assert (rq_ttwu_pending q' = rq_ttwu_pending q) as -> by congruence.
  split; [done|]. split; [done|]. intros p Hp. specialize (Hall p Hp).
  destruct (Hall) as [(t & Ht & _) _]. destruct (Hk p t) as (t' & Ht' & Et); [by exists c, q | done |].
  eapply waking_kept; [exact Hall | exact Ht | exact Ht' | exact Et |].
  apply rq_attrs_agree; [|done]. intros ? ? E2. unfold rq_attrs in E2. congruence.
Qed.

Lemma wake_lists_around p m m' : around p m m' -> ~ listed m p -> wake_lists_ok m -> wake_lists_ok m'.
Proof.
  intros F Hl Hw. eapply wake_lists_kept; [done | apply F |]. intros p' t Hp' Ht.
  destruct (around_task _ _ _ p' t F) as (t' & Ht' & E); [congruence | done |].
  exists t'. split; [done | by apply quiet_wk].
Qed.

Lemma listed_attrs m m' p :
  rq_attrs <$> m_rqs m = rq_attrs <$> m_rqs m' -> listed m p -> listed m' p.
Proof.
  intros E (c & q & Hq & Hp). destruct (fmap_lookup_agree rq_attrs _ _ c q E Hq) as (q' & Hq' & Eq).
  exists c, q'. split; [done|]. unfold rq_attrs in Eq. by assert (rq_wake_list q' = rq_wake_list q) as -> by congruence.
Qed.

Lemma wake_lists_settled p m m' : settled p m m' -> ~ listed m p -> wake_lists_ok m -> wake_lists_ok m'.
Proof.
  intros (m1 & Fa & Fc & K1) Hl Hw. pose proof (wake_lists_around _ _ _ Fa Hl Hw) as Hw1.
  eapply wake_lists_kept; [done | apply Fc |]. intros p' t (c & q & Hq & Hp) Ht.
  destruct (Hw1 c q Hq) as (_ & _ & Hall). destruct (Hall p' Hp) as [(t0 & Ht0 & _ & Ho & _) _].
  rewrite Ht in Ht0. injection Ht0 as <-. destruct (K1 p' t Ht) as (t' & Ht' & _ & Hk).
  exists t'. split; [done|]. apply quiet_wk. symmetry. by apply Hk.
Qed.

Lemma wake_lists_quiet m m' : quiet_frame m m' -> wake_lists_ok m -> wake_lists_ok m'.
Proof.
  intros F Hw. eapply wake_lists_kept; [done | by apply (quiet_around 0 _ _ F) |]. intros p t _ Ht.
  destruct (frame_task _ _ _ _ _ _ _ F Ht) as (t' & Ht' & E). exists t'. split; [done | by apply quiet_wk].
Qed.

(** ** Handing a task to a CPU *)
Definition handed_machine (m : machine) (c p : Z) (t' : task_struct) (q : rq) : machine :=
  m <| m_tasks := <[p := t']> (m_tasks m) |>
    <| m_rqs := <[c := q <| rq_ttwu_pending := 1 |> <| rq_wake_list := rq_wake_list q ++ [p] |> ]> (m_rqs m) |>.

Lemma wake_lists_handed m c p t t' q :
  wake_lists_ok m -> m_rqs m !! c = Some q -> m_tasks m !! p = Some t -> waking m c p -> ~ listed m p ->
  task_wk t' = task_wk t -> wake_lists_ok (handed_machine m c p t' q).
Proof.
  intros Hw Hq Ht Hwk Hl Et. set (m' := handed_machine m c p t' q).
  assert (Hkeep : forall c' p', waking m c' p' -> waking m' c' p').
  { intros c' p' Hwk'. destruct (Hwk') as [(tp & Htp & _) _].
    assert (exists tp', m_tasks m' !! p' = Some tp' /\ task_wk tp' = task_wk tp) as (tp' & Htp' & Ep).
    { cbn. rewrite lookup_insert. case_decide as E; [|by exists tp]. subst p'.
      rewrite Ht in Htp. injection Htp as <-. by exists t'. }
    eapply waking_kept; [exact Hwk' | exact Htp | exact Htp' | exact Ep |].
    cbn. rewrite lookup_insert. case_decide as E; [|done]. subst c'. by rewrite Hq. }
  intros c' q'. cbn. rewrite lookup_insert. case_decide as E.
  - subst c'. intros [= <-]. cbn. destruct (Hw c q Hq) as (Hnd & _ & Hall). split_and!; [|done|].
    + apply list.NoDup_app. split; [done|]. split; [|apply list.NoDup_singleton].
      intros x Hx Hxp. apply list_elem_of_singleton in Hxp as ->. apply Hl. by exists c, q.
    + intros x Hx. apply Hkeep. apply elem_of_app in Hx as [Hx | Hx]; [by apply Hall|].
      by apply list_elem_of_singleton in Hx as ->.
  - intros Hq'. destruct (Hw c' q' Hq') as (? & ? & Hall). split_and!; [done | done |].
    intros x Hx. by apply Hkeep, Hall.
Qed.

Lemma ipi_returns c m : kernel_ok m -> is_Some (m_rqs m !! c) -> returns (send_call_function_single_ipi c) m.
Proof.
  intros Hok [q Hq]. destruct (ok_rqs m Hok c q Hq) as (_ & _ & (t & Ht & _)).
  unfold returns, send_call_function_single_ipi, set_nr_if_polling. wp_go.
  destruct (has_flag (ts_ti_flags t) _TIF_POLLING_NRFLAG); cbn [negb]; wp_go; [|done].
  destruct (has_flag (ts_ti_flags t) _TIF_NEED_RESCHED); by wp_go.
Qed.

Lemma ipi_frame c : preserves quiet_frame (send_call_function_single_ipi c).
Proof. unfold send_call_function_single_ipi, set_nr_if_polling. framed. Qed.

(** [p] is on the wake list of [c], which it had been given in [m]. *)
Definition handed (m m' : machine) (c p : Z) : Prop :=
  (exists q, m_rqs m' !! c = Some q /\ p ∈ rq_wake_list q) /\ globals m = globals m' /\
  exists t t', m_tasks m !! p = Some t /\ m_tasks m' !! p = Some t' /\
    task_quiet t' = task_quiet (t <| ts_sched_remote_wakeup := ts_sched_remote_wakeup t' |>).

Lemma wp_wakelist p c f m (Q : unit -> machine -> Prop) :
  kernel_ok m -> wake_lists_ok m -> waking m c p -> ~ listed m p ->
  (forall m', kernel_ok m' -> wake_lists_ok m' -> handed m m' c p -> Q tt m') ->
  wp (__ttwu_queue_wakelist p c f) Q m.
Proof.
  intros Hok Hw Hwk Hl HQ. unfold __ttwu_queue_wakelist.
  destruct (Hwk) as [(t & Ht & _ & _ & Hc) _]. destruct (ok_tasks m Hok p t Ht) as [[q Hq] _]. rewrite Hc in Hq.
  set (t' := t <| ts_sched_remote_wakeup := has_flag f WF_MIGRATED |>).
  set (m' := handed_machine m c p t' q).
  assert (Hok' : kernel_ok m').
  { assert (Hok1 : kernel_ok (m <| m_tasks := <[p := t']> (m_tasks m) |>)) by (by eapply kernel_ok_task).
    set (q' := q <| rq_ttwu_pending := 1 |> <| rq_wake_list := rq_wake_list q ++ [p] |>).
    exact (kernel_ok_rq _ c q q' Hok1 Hq eq_refl). }
  assert (Hw' : wake_lists_ok m') by (by eapply wake_lists_handed).
  assert (Hh : handed m m' c p).
  { split; [|split; [done|]].
    - eexists. split; [apply lookup_insert_eq|]. cbn. apply elem_of_app. right. apply list_elem_of_here.
    - exists t, t'. split; [done|]. split; [apply lookup_insert_eq | done]. }
  wp_go. match goal with |- if _ then wp _ _ ?M else _ => replace M with m' end.
  2: { unfold m', handed_machine. cbn. by rewrite insert_insert_eq. }
  case_match; [|by apply HQ].
  apply wp_quiet; [done | apply ipi_returns; [done|] | apply ipi_frame |].
  - cbn. rewrite lookup_insert_eq. by eexists.
  - intros [] m2 Hok2 F2. apply HQ; [done | by eapply wake_lists_quiet |].
    destruct Hh as ((q' & Hq' & Hp) & Eg & t1 & t2 & Ht1 & Ht2 & E).
    destruct (frame_rq _ _ _ _ _ _ _ F2 Hq') as (q2 & Hq2 & Eq). unfold rq_quiet, rq_attrs in Eq.
    destruct (frame_task _ _ _ _ _ _ _ F2 Ht2) as (t3 & Ht3 & E3). split; [|split].
    + exists q2. split; [done|]. by assert (rq_wake_list q2 = rq_wake_list q') as -> by congruence.
    + rewrite Eg. apply F2.
    + exists t1, t3. split; [done|]. split; [done|]. rewrite <- E3, E.
      by assert (ts_sched_remote_wakeup t3 = ts_sched_remote_wakeup t2) as ->
        by exact (eq_sym (f_equal ts_sched_remote_wakeup E3)).
Qed.

Lemma listed_back m m' p :
  rq_attrs <$> m_rqs m = rq_attrs <$> m_rqs m' -> ~ listed m p -> ~ listed m' p.
Proof. intros E Hl Hl'. apply Hl. by eapply listed_attrs. Qed.

Lemma waking_off_quiet m m' c p : quiet_frame m m' -> waking_off m c p -> waking_off m' c p.
Proof.
  intros F [Hin Hmv]. split; [by eapply task_in_queue, Hin; apply quiet_queue_frame | by eapply movable_quiet].
Qed.

Lemma waking_quiet m m' c p : quiet_frame m m' -> waking m c p -> waking m' c p.
Proof.
  intros F Hwk. destruct (Hwk) as [(t & Ht & _) _]. destruct (frame_task _ _ _ _ _ _ _ F Ht) as (t' & Ht' & E).
  eapply waking_kept; [exact Hwk | exact Ht | exact Ht' | by apply quiet_wk |].
  apply rq_attrs_agree; [|apply (quiet_around 0 _ _ F)]. intros ? ? E2. unfold rq_attrs in E2. congruence.
Qed.

Lemma movable_off m p : movable m p -> clamp_off m p.
Proof. intros (t & _ & Ht & _ & _ & _ & Hoff & _) _ t' Ht'. by rewrite Ht in Ht'; injection Ht' as <-. Qed.

Lemma handed_quiet m m1 m2 c p : quiet_frame m m1 -> handed m1 m2 c p -> handed m m2 c p.
Proof.
  intros F (Hl & Eg & t & t' & Ht & Ht' & E). split; [done|]. split; [rewrite <- Eg; apply F|].
  assert (F' : quiet_frame m1 m) by (by symmetry). destruct (frame_task _ _ _ _ _ _ _ F' Ht) as (t0 & Ht0 & E0).
  exists t0, t'. split; [done|]. split; [done|]. rewrite E.
  exact (f_equal (fun x => x <| ts_sched_remote_wakeup := ts_sched_remote_wakeup t' |>) E0).
Qed.

(** The wake list of a CPU takes the task, and then the CPU is active; or it does not,
    and nothing happens. *)
Lemma wp_queue_wakelist p c f m (Q : bool -> machine -> Prop) :
  kernel_ok m -> wake_lists_ok m -> waking m c p -> ~ listed m p ->
  (forall m', kernel_ok m' -> quiet_frame m m' -> Q false m') ->
  (forall m', kernel_ok m' -> wake_lists_ok m' -> handed m m' c p -> c ∈ m_cpu_active m -> Q true m') ->
  wp (ttwu_queue_wakelist p c f) Q m.
Proof.
  intros Hok Hw Hwk Hl HF HT. assert (Hr : is_Some (m_rqs m !! c)).
  { eapply task_on_live, task_in_on; [done | apply Hwk]. }
  unfold ttwu_queue_wakelist, ttwu_queue_cond. destruct (Hr) as [q Hq].
  apply wp_bind, wp_bind, wp_get_state, wp_bind, wp_rd. exists q. split; [done|]. apply wp_ret.
  destruct (bool_decide (c ∈ m_cpu_active m)) eqn:Ea; cbn [andb].
  2: { rewrite andb_false_r. by apply wp_ret, HF. }
  apply bool_decide_eq_true in Ea.
  match goal with |- context [if (sched_feat _ && ?b)%bool then _ else _] => destruct (sched_feat "TTWU_QUEUE" && b)%bool end;
    [|by apply wp_ret, HF].
  apply wp_bind, wp_gets, wp_if. destruct (c =? m_this_cpu m).
  - apply wp_bind, wp_emit_quiet; [done|]. intros m1 Hok1 F1. by apply wp_ret, HF.
  - apply wp_bind, wp_quiet; [done | by apply clock_returns | auto with preserve |].
    intros _ m1 Hok1 F1. apply wp_bind, wp_wakelist; [done | by eapply wake_lists_quiet | by eapply waking_quiet | |].
    + apply (listed_back m); [|done]. apply (quiet_around 0 _ _ F1).
    + intros m2 Hok2 Hw2 Hh. apply wp_ret, HT; [done | done | by eapply handed_quiet | done].
Qed.

(** Queue it here or hand it over. *)
Lemma wp_ttwu_queue p c f m (Q : unit -> machine -> Prop) :
  kernel_ok m -> wake_lists_ok m -> waking_off m c p -> ~ listed m p ->
  (forall m', kernel_ok m' -> wake_lists_ok m' -> runnable m' p \/ handed m m' c p -> Q tt m') ->
  wp (ttwu_queue p c f) Q m.
Proof.
  intros Hok Hw Hwk Hl HQ. assert (Hr : is_Some (m_rqs m !! c)).
  { eapply task_on_live, task_in_on; [done | apply Hwk]. }
  unfold ttwu_queue. apply wp_bind, wp_queue_wakelist; [done | done | by apply waking_off_waking | done | |].
  - intros m1 Hok1 F1. apply wp_bind, wp_update_rq_clock; [done | |].
    + destruct Hr as [q Hq]. destruct (frame_rq _ _ _ _ _ _ _ F1 Hq) as (? & ? & _). by eexists.
    + intros m2 Hok2 F2. assert (F : quiet_frame m m2) by (by etransitivity).
      destruct (waking_off_quiet _ _ _ _ F Hwk) as [Hin2 Hmv2].
      eapply wp_do_activate; [done | exact Hin2 | by apply movable_off |].
      intros m3 Hok3 S3 Hrun. apply HQ; [done | | by left].
      apply (wake_lists_settled p m); [|done..].
      eapply settled_around; [by apply quiet_around | done].
  - intros m1 Hok1 Hw1 Hh _. apply wp_ret, HQ; [done | done | by right].
Qed.

(** * The wake-up *)

Lemma waking_off_asleep m c p : waking_off m c p -> asleep m p.
Proof.
  intros [(t & Ht & _ & Ho & _) (t' & q & Ht' & Hq & Hc & Hi & _)]. rewrite Ht in Ht'. injection Ht' as <-.
  exists t, q. unfold task_on_rq_queued. rewrite on_rq_queued_val, Ho. done.
Qed.

(** A task off its run queue: asleep, or about to be once its CPU has switched away
    from it. *)
Definition off_queue (m : machine) (p : Z) : Prop :=
  (exists t, m_tasks m !! p = Some t /\ ts_on_rq t = 0) /\ dequeued m p.

(** What [p] is like after select_task_rq() changed nothing but its affinity. *)
Lemma waking_masked m m' c p : mask_frame m m' -> waking_off m c p -> waking_off m' c p.
Proof.
  intros F Hwk. destruct (Hwk) as [(t & Ht & _) _]. destruct (frame_task _ _ _ _ _ _ _ F Ht) as (t' & Ht' & E).
  eapply waking_off_kept; [exact Hwk | exact Ht | exact Ht' | exact (eq_sym (f_equal task_wk E)) |].
  apply rq_attrs_agree; [|apply (mask_aff_frame _ _ F)]. intros ? ? E2. unfold rq_attrs in E2. congruence.
Qed.

Lemma wake_lists_masked m m' : mask_frame m m' -> wake_lists_ok m -> wake_lists_ok m'.
Proof.
  intros F Hw. eapply wake_lists_kept; [done | apply (mask_aff_frame _ _ F) |]. intros p t _ Ht.
  destruct (frame_task _ _ _ _ _ _ _ F Ht) as (t' & Ht' & E). exists t'.
  split; [done | exact (eq_sym (f_equal task_wk E))].
Qed.

(** [p] waits on the list of a CPU it may use. *)
Definition queued_remotely (m : machine) (p : Z) : Prop :=
  exists c q, m_rqs m !! c = Some q /\ p ∈ rq_wake_list q /\ is_cpu_allowed p c m = Ret true m.

(** [p] waits on the list of its own CPU, an active one, which is still switching away
    from it. *)
Definition queued_at_home (m : machine) (p : Z) : Prop :=
  exists t q, m_tasks m !! p = Some t /\ ts_on_cpu t <> 0 /\ m_rqs m !! ts_cpu t = Some q /\
    p ∈ rq_wake_list q /\ ts_cpu t ∈ m_cpu_active m.

(** The outcome of a wake-up of [p]. *)
Definition woken (m : machine) (p : Z) : Prop := runnable m p \/ queued_remotely m p \/ queued_at_home m p.

Lemma handed_home m m' c p t :
  m_tasks m !! p = Some t -> ts_cpu t = c -> ts_on_cpu t <> 0 -> c ∈ m_cpu_active m -> handed m m' c p ->
  queued_at_home m' p.
Proof.
  intros Ht Hc Hn Ha ((q & Hq & Hp) & Eg & t0 & t' & Ht0 & Ht' & E). rewrite Ht in Ht0. injection Ht0 as <-.
  assert (Ec : ts_cpu t' = ts_cpu t) by exact (f_equal ts_cpu E).
  assert (En : ts_on_cpu t' = ts_on_cpu t) by exact (f_equal ts_on_cpu E).
  exists t', q. rewrite En, Ec, Hc. split_and!; [done | done | done | done |].
  apply globals_masks in Eg. unfold cpu_masks in Eg. congruence.
Qed.

Lemma handed_allowed m m' c p t :
  m_tasks m !! p = Some t -> cpu_allowed m p t c = true -> handed m m' c p -> queued_remotely m' p.
Proof.
  intros Ht Ha ((q & Hq & Hp) & Eg & t0 & t' & Ht0 & Ht' & E). rewrite Ht in Ht0. injection Ht0 as <-.
  exists c, q. split; [done|]. split; [done|]. rewrite (is_cpu_allowed_val _ _ _ t' Ht').
  rewrite <- (cpu_allowed_same m m' p t t' c); [by rewrite Ha | by apply globals_masks | done | done |].
  exact (eq_sym (f_equal (fun x => (cpus_allowed x, ts_migration_disabled x, ts_flags x)) E)).
Qed.

Lemma waking_moved m m' c0 p t t' cpu q :
  kernel_ok m -> waking_off m c0 p -> m_tasks m !! p = Some t -> around p m m' -> m_tasks m' !! p = Some t' ->
  task_quiet t' = task_quiet (t <| ts_cpu := cpu |> <| ts_wake_cpu := cpu |>) ->
  m_rqs m !! cpu = Some q -> ts_cpu t <> cpu -> waking_off m' cpu p.
Proof.
  intros Hok [(t0 & Ht0 & Hs & Ho & _) (t1 & _ & Ht1 & _ & _ & _ & Hoff & Hn)] Ht F Ht' E Hq Hne.
  rewrite Ht in Ht0, Ht1. injection Ht0 as <-. injection Ht1 as <-.
  assert (Ew : task_wk t' = task_wk (t <| ts_cpu := cpu |>)) by exact (f_equal task_wk E).
  unfold task_wk in Ew. cbn in Ew. injection Ew as E1 E2 E3 E4 E5.
  destruct (around_rq _ _ _ _ _ F Hq) as (q' & Hq' & Eq). unfold rq_attrs in Eq.
  destruct (ok_rqs m Hok cpu q Hq) as (_ & (tc & Htc & Hcc) & (ti & Hti & Hci)). split.
  - exists t'. repeat split; congruence.
  - exists t', q'. rewrite E4, E5. split_and!; [done | done | | | done | congruence].
    + intros Ep. assert (rq_curr q = p) by congruence. congruence.
    + intros Ep. assert (rq_idle q = p) by congruence. congruence.
Qed.

(** From the choice of a CPU on. *)
Lemma wp_place p f m c0 (Q : Z -> machine -> Prop) t cpu :
  kernel_ok m -> wake_lists_ok m -> waking_off m c0 p -> ~ listed m p -> cpus_ok m ->
  m_tasks m !! p = Some t -> cpu_allowed m p t cpu = true ->
  (forall m' f', kernel_ok m' -> wake_lists_ok m' -> woken m' p -> Q f' m') ->
  wp (t ← deref (R := task_struct) p;
      (if negb (ts_cpu t =? cpu) then
         when (ts_in_iowait t) (end_iowait p) ;; emit "psi_ttwu_dequeue" [p] ;; set_task_cpu p cpu
       else mret tt) ;;
      let wake_flags := if negb (ts_cpu t =? cpu) then Z.lor f WF_MIGRATED else f in
      ttwu_queue p cpu wake_flags ;; mret wake_flags) Q m.
Proof.
  intros Hok Hw Hwk Hl Hcpus Ht Ha HQ. apply wp_bind, wp_deref. exists t. split; [done|]. cbv zeta.
  assert (Hq : forall f' m1 t1, kernel_ok m1 -> around p m m1 -> wake_lists_ok m1 -> waking_off m1 cpu p ->
    m_tasks m1 !! p = Some t1 -> cpu_allowed m1 p t1 cpu = true ->
    wp (ttwu_queue p cpu f' ;; mret f') Q m1).
  { intros f' m1 t1 Hok1 F1 Hw1 Hwk1 Ht1 Ha1. apply wp_bind, wp_ttwu_queue; [done | done | done | |].
    - apply (listed_back m); [apply F1 | done].
    - intros m2 Hok2 Hw2 Hor. apply wp_ret, HQ; [done | done |].
      destruct Hor as [Hor | Hor]; [by left | right; left; by eapply handed_allowed]. }
  destruct (Hwk) as [Hin Hmv]. destruct (Z.eqb_spec (ts_cpu t) cpu) as [Ec | Ec]; cbn [negb].
  { apply wp_bind, wp_ret, (Hq f m t); try done. assert (c0 = cpu) as <-; [|done].
    destruct Hin as (t' & Ht' & _ & _ & <-). congruence. }
  assert (Hmove : forall m1, kernel_ok m1 -> (forall x, around x m m1) -> m_tasks m1 = m_tasks m ->
    wp (emit "psi_ttwu_dequeue" [p] ;; set_task_cpu p cpu)
       (fun _ m' => wp (ttwu_queue p cpu (Z.lor f WF_MIGRATED) ;; mret (Z.lor f WF_MIGRATED)) Q m') m1).
  { intros m1 Hok1 F1 Et1. apply wp_bind, wp_emit_quiet; [done|]. intros m2 Hok2 F2.
    assert (F12 : around 0 m m2) by (etransitivity; [apply F1 | by apply quiet_around]).
    assert (Fp : around p m m2) by (etransitivity; [apply F1 | by apply quiet_around]).
    rewrite <- Et1 in Ht. destruct (frame_task _ _ _ _ _ _ _ F2 Ht) as (t2 & Ht2 & E2).
    assert (Hwk2 : waking_off m2 c0 p).
    { rewrite Et1 in Ht. eapply waking_off_kept; [exact Hwk | exact Ht | exact Ht2 | by apply quiet_wk |].
      apply rq_attrs_agree; [|apply F12]. intros ? ? E. unfold rq_attrs in E. congruence. }
    destruct (online_rq m Hcpus cpu) as [q Hq0]; [by eapply cpu_allowed_online|].
    destruct (around_rq _ _ _ _ _ F12 Hq0) as (q2 & Hq2 & _).
    eapply wp_set_task_cpu; [done | apply Hwk2 | exact Ht2 | |].
    - by eexists.
    - intros m3 t3 Hok3 F3 Ht3 E3. apply (Hq _ m3 t3); [done | by transitivity m2 | | | done |].
      + eapply wake_lists_around; [exact F3 | | ].
        * apply (listed_back m); [apply F12 | done].
        * by apply (wake_lists_around p m).
      + eapply waking_moved; [exact Hok2 | exact Hwk2 | exact Ht2 | exact F3 | exact Ht3 | exact E3 | exact Hq2 |].
        assert (ts_cpu t2 = ts_cpu t) as -> by exact (eq_sym (f_equal ts_cpu E2)). done.
      + rewrite Et1 in Ht. rewrite <- (cpu_allowed_same m m3 p t t3); [done | | done | done |].
        * apply globals_masks. transitivity (globals m2); [apply F12 | apply F3].
        * set (g x := (cpus_allowed x, ts_migration_disabled x, ts_flags x)).
          transitivity (g t2); [exact (f_equal g E2) | exact (eq_sym (f_equal g E3))]. }
  apply wp_bind, wp_bind, wp_when. destruct (ts_in_iowait t); [|by apply Hmove].
  eapply wp_end_iowait; [done | exact Hin | done].
Qed.

(** ** Choosing a CPU *)

(** A task that may not be migrated stays where its mask says. *)
Definition pinned (p : Z) (m : machine) : Prop := cpus_ok m /\ exists t, m_tasks m !! p = Some t /\
  is_migration_disabled t = true /\ cpus_allowed t <> ∅ /\ cpus_allowed t ⊆ m_cpu_online m.

(** There is a CPU for [p]. *)
Definition choosable (p : Z) (m : machine) : Prop := placeable p m \/ pinned p m.

Lemma choosable_cpus p m : choosable p m -> cpus_ok m.
Proof. by intros [[? _]|[? _]]. Qed.

Definition task_masks (t : task_struct) := (ts_cpus_ptr t, ts_cpus_mask t, ts_migration_disabled t).

Lemma choosable_same p m m' :
  cpu_masks m = cpu_masks m' -> (forall c, is_Some (m_rqs m !! c) -> is_Some (m_rqs m' !! c)) ->
  task_masks <$> m_tasks m !! p = task_masks <$> m_tasks m' !! p -> choosable p m -> choosable p m'.
Proof.
  intros Eg Hr Et [HP | ([H1 H2 H3] & t & Ht & Hmd & Hne & Hon)].
  - left. apply (placeable_same p m); [done | done | | done].
    destruct (m_tasks m !! p), (m_tasks m' !! p); cbn in *; try done. unfold task_masks in Et. congruence.
  - right. unfold cpu_masks in Eg. assert (m_cpu_active m' = m_cpu_active m) as Ea by congruence.
    assert (m_cpu_online m' = m_cpu_online m) as Eo by congruence.
    assert (m_cpu_dying m' = m_cpu_dying m) as Ed by congruence.
    rewrite Ht in Et. cbn in Et. destruct (m_tasks m' !! p) as [t'|] eqn:Ht'; [|done]. unfold task_masks in Et. cbn in Et.
    split; [split; rewrite ?Ea, ?Eo, ?Ed; auto|]. exists t'. rewrite Eo. unfold cpus_allowed, mask_set, is_migration_disabled in *.
    assert (ts_cpus_ptr t' = ts_cpus_ptr t) as -> by congruence. assert (ts_cpus_mask t' = ts_cpus_mask t) as -> by congruence.
    by assert (ts_migration_disabled t' = ts_migration_disabled t) as -> by congruence.
Qed.

Lemma choosable_quiet p m m' : quiet_frame m m' -> choosable p m -> choosable p m'.
Proof.
  intros F. apply choosable_same.
  - apply globals_masks. apply F.
  - intros c [q Hq]. destruct (frame_rq _ _ _ _ _ _ _ F Hq) as (? & ? & _). by eexists.
  - assert (Et : task_quiet <$> m_tasks m = task_quiet <$> m_tasks m') by apply F.
    apply (f_equal (fun x => x !! p)) in Et. rewrite !lookup_fmap in Et.
    destruct (m_tasks m !! p), (m_tasks m' !! p); cbn in *; try done. f_equal.
    apply (inj Some) in Et. exact (f_equal task_masks Et).
Qed.

(** Whatever the CPU, it is one is_cpu_allowed() accepts. *)
Lemma wp_select p cpu f m c0 (Q : Z -> machine -> Prop) :
  kernel_ok m -> waking_off m c0 p -> choosable p m ->
  (forall c m' t', kernel_ok m' -> mask_frame m m' -> cpus_ok m' -> m_tasks m' !! p = Some t' ->
     cpu_allowed m' p t' c = true -> Q c m') ->
  wp (select_task_rq p cpu f) Q m.
Proof.
  intros Hok Hwk [HP | (Hcpus & t & Ht & Hmd & Hne & Hon)] HQ.
  - assert (HI : resting p m) by (split; [done | by eapply waking_off_asleep]).
    eapply wp_mono; [by apply wp_select_resting|].
    intros c m2 ([Hok2 _] & [F2 Hp2] & t2 & Ht2 & Ha2). apply (HQ c m2 t2); try done.
    eapply (placeable_frame p m); [by apply mask_aff_frame | done | done].
  - unfold select_task_rq. apply wp_bind, wp_deref. exists t. split; [done|]. rewrite Hmd, andb_false_r.
    apply wp_bind, wp_ret, wp_bind. pose proof (any_in (cpus_allowed t) Hne) as Hin. set (c := cpumask_any _) in *.
    assert (Ha : cpu_allowed m p t c = true).
    { unfold cpu_allowed. rewrite Hmd, !bool_decide_true; [done | by apply Hon | done]. }
    unfold wp at 1. rewrite (is_cpu_allowed_val _ _ _ t Ht), Ha. apply wp_ret. by apply (HQ c m t).
Qed.

(** ** What the other CPUs do while a wake-up waits

    The caller holds [p->pi_lock].  A task it has marked as waking is on no run queue:
    all that happens to it is that its CPU finishes switching away from it.  A
    migration it waits for ends with the task on the queue of its new CPU, from where
    the task may even have run and gone to sleep again. *)
Class MeanwhileOK : Prop := {
  meanwhile_off_cpu p c m :
    kernel_ok m -> wake_lists_ok m -> ~ listed m p -> choosable p m -> waking m c p ->
    wp (meanwhile p) (fun _ m' => kernel_ok m' /\ wake_lists_ok m' /\ ~ listed m' p /\ choosable p m' /\
      waking_off m' c p) m;
  meanwhile_migrated p t m :
    kernel_ok m -> wake_lists_ok m -> ~ listed m p -> choosable p m ->
    m_tasks m !! p = Some t -> ts_on_rq t = TASK_ON_RQ_MIGRATING ->
    wp (meanwhile p) (fun _ m' => kernel_ok m' /\ wake_lists_ok m' /\ ~ listed m' p /\ choosable p m' /\
      exists t', m_tasks m' !! p = Some t' /\ (ts_on_rq t' = TASK_ON_RQ_QUEUED \/ off_queue m' p)) m;
}.
Context {WOK : MeanwhileOK}.

Lemma wp_ttwu_place p f m c (Q : Z -> machine -> Prop) :
  kernel_ok m -> wake_lists_ok m -> waking_off m c p -> ~ listed m p -> choosable p m ->
  (forall m' f', kernel_ok m' -> wake_lists_ok m' -> woken m' p -> Q f' m') ->
  wp (t ← deref (R := task_struct) p;
      cpu ← select_task_rq p (ts_wake_cpu t) (Z.lor f WF_TTWU);
      t ← deref (R := task_struct) p;
      (if negb (ts_cpu t =? cpu) then
         when (ts_in_iowait t) (end_iowait p) ;; emit "psi_ttwu_dequeue" [p] ;; set_task_cpu p cpu
       else mret tt) ;;
      let wake_flags := if negb (ts_cpu t =? cpu) then Z.lor f WF_MIGRATED else f in
      ttwu_queue p cpu wake_flags ;; mret wake_flags) Q m.
Proof.
  intros Hok Hw Hwk Hl HC HQ. destruct (Hwk) as [(t & Ht & _) _].
  apply wp_bind, wp_deref. exists t. split; [done|]. apply wp_bind.
  eapply wp_select; [done | exact Hwk | done |]. intros cpu m2 t2 Hok2 F2 Hc2 Ht2 Ha2.
  eapply (wp_place p f m2 c); [done | by eapply wake_lists_masked | by eapply waking_masked | | done..].
  apply (listed_back m); [apply (mask_aff_frame _ _ F2) | done].
Qed.

Lemma wp_ttwu_enqueue p f m (Q : Z -> machine -> Prop) :
  kernel_ok m -> wake_lists_ok m -> off_queue m p -> ~ listed m p -> choosable p m ->
  (forall m' f', kernel_ok m' -> wake_lists_ok m' -> woken m' p -> Q f' m') ->
  wp (ttwu_enqueue p f) Q m.
Proof.
  intros Hok Hw [(t & Ht & Ho) Hdq] Hl HC HQ.
  set (t1 := t <| ts_state := TASK_WAKING |>). set (m1 := m <| m_tasks := <[p := t1]> (m_tasks m) |>).
  assert (Ht1 : m_tasks m1 !! p = Some t1) by apply lookup_insert_eq.
  assert (Hok1 : kernel_ok m1) by (by eapply kernel_ok_task).
  assert (Hwk1 : waking m1 (ts_cpu t) p).
  { split; [by exists t1|]. destruct Hdq as (t' & q & Ht' & Hq & ?). rewrite Ht in Ht'. injection Ht' as <-.
    by exists t1, q. }
  assert (Hw1 : wake_lists_ok m1) by (apply (wake_lists_around p m); [apply around_set_task | done..]).
  assert (Hl1 : ~ listed m1 p) by (by apply (listed_back m)).
  assert (HC1 : choosable p m1) by (apply (choosable_same p m); [done | done | by rewrite Ht, Ht1 | done]).
  unfold ttwu_enqueue. apply wp_bind, wp_wr. exists t. split; [done|].
  apply wp_bind, wp_deref. exists t1. split; [done|]. change (is_on_cpu t1) with (is_on_cpu t).
  apply wp_bind, wp_if. destruct (is_on_cpu t) eqn:En.
  - apply (wp_queue_wakelist p (ts_cpu t)); [done.. | |].
    + intros m2 Hok2 F2. cbv iota. pose proof (quiet_around 0 _ _ F2) as (_ & Er & _).
      destruct (frame_task _ _ _ _ _ _ _ F2 Ht1) as (t2 & Ht2 & E2).
      apply wp_bind. unfold wait_while. apply wp_bind, wp_deref. exists t2. split; [done|].
      assert (En2 : is_on_cpu t2 = true).
      { rewrite <- En. exact (f_equal is_on_cpu (eq_sym E2)). }
      rewrite En2. apply wp_bind.
      eapply wp_mono; [apply (meanwhile_off_cpu p (ts_cpu t) m2)|]; [done | by eapply wake_lists_quiet
        | by apply (listed_back m1) | by eapply choosable_quiet | by apply (waking_quiet _ _ _ _ F2 Hwk1) |].
      intros [] m3 (Hok3 & Hw3 & Hl3 & HC3 & Hwk3). destruct (Hwk3) as [_ (t3 & _ & Ht3 & _ & _ & _ & _ & Hn3)].
      apply wp_bind, wp_deref. exists t3. split; [done|]. unfold is_on_cpu. rewrite Hn3, truthy_0.
      apply wp_ret. by apply (wp_ttwu_place p f m3 (ts_cpu t)).
    + intros m2 Hok2 Hw2 Hh Ha. cbv iota. apply wp_ret, HQ; [done | done |]. right; right.
      eapply (handed_home m1); [exact Ht1 | done | | done | done].
      intros E. change (ts_on_cpu t = 0) in E. unfold is_on_cpu in En. by rewrite E in En.
  - apply wp_ret. cbv iota. apply wp_bind. unfold wait_while. apply wp_bind, wp_deref. exists t1. split; [done|].
    change (is_on_cpu t1) with (is_on_cpu t). rewrite En. apply wp_ret.
    apply (wp_ttwu_place p f m1 (ts_cpu t)); try done.
    apply (waking_is_off _ _ _ t1 Hwk1 Ht1). change (ts_on_cpu t = 0). by apply truthy_false.
Qed.

Lemma not_listed m p t :
  wake_lists_ok m -> m_tasks m !! p = Some t -> ts_state t <> TASK_WAKING -> ~ listed m p.
Proof.
  intros Hw Ht Hs (c & q & Hq & Hp). destruct (Hw c q Hq) as (_ & _ & Hall).
  destruct (Hall p Hp) as [(t' & Ht' & Hs' & _) _]. congruence.
Qed.

(** The logs around the wake-up. *)
Lemma kernel_ok_log m l : kernel_ok m -> kernel_ok (m <| m_log := l |>).
Proof. apply kernel_ok_frame. by repeat split. Qed.

(** On a queue, on the way to one, or off all of them; asleep, there is a CPU for it. *)
Definition wakeable (m : machine) (p : Z) : Prop := choosable p m /\ exists t, m_tasks m !! p = Some t /\
  (ts_on_rq t = TASK_ON_RQ_QUEUED \/ ts_on_rq t = TASK_ON_RQ_MIGRATING \/ off_queue m p).

(** Once the task is not migrating. *)
Definition steady (m : machine) (p : Z) : Prop := exists t, m_tasks m !! p = Some t /\
  (ts_on_rq t = TASK_ON_RQ_QUEUED \/ off_queue m p).

Lemma off_queue_not m p t v : off_queue m p -> m_tasks m !! p = Some t -> 0 < v -> (ts_on_rq t =? v) = false.
Proof. intros [(t' & Ht' & Ho) _] Ht Hv. rewrite Ht in Ht'. injection Ht' as <-. lia. Qed.

Lemma wp_wake_steady p f m (Q : bool -> machine -> Prop) :
  kernel_ok m -> wake_lists_ok m -> ~ listed m p -> steady m p ->
  (forall m', kernel_ok m' -> wake_lists_ok m' -> runnable m' p -> Q true m') ->
  (off_queue m p -> Q false m) ->
  wp (t ← deref (R := task_struct) p;
      let r := ts_cpu t in
      if task_on_rq_queued t then update_rq_clock r ;; ttwu_do_wakeup r p f ;; mret true else mret false) Q m.
Proof.
  intros Hok Hw Hl (t & Ht & Ho) HT HF. apply wp_bind, wp_deref. exists t. split; [done|]. cbv zeta.
  unfold task_on_rq_queued. destruct Ho as [Ho | Hoff].
  2: { rewrite (off_queue_not m p) by (try done; rewrite on_rq_queued_val; lia). by apply wp_ret, HF. }
  rewrite Ho, Z.eqb_refl. destruct (ok_tasks m Hok p t Ht) as [Hr _].
  apply wp_bind, wp_update_rq_clock; [done | done |]. intros m1 Hok1 F1.
  apply wp_bind. eapply (wp_do_wakeup (ts_cpu t) p f m1 (ts_state t)); [done | |].
  - eapply task_in_queue; [by apply quiet_queue_frame | by exists t].
  - intros m2 Hok2 S2 Hrun. apply wp_ret, HT; [done | | done].
    apply (wake_lists_settled p m); [|done..]. eapply settled_around; [by apply quiet_around | done].
Qed.

Lemma wp_ttwu_runnable p f m (Q : bool -> machine -> Prop) :
  kernel_ok m -> wake_lists_ok m -> ~ listed m p -> wakeable m p ->
  (forall m', kernel_ok m' -> wake_lists_ok m' -> runnable m' p -> Q true m') ->
  (forall m', kernel_ok m' -> wake_lists_ok m' -> ~ listed m' p -> off_queue m' p -> choosable p m' -> Q false m') ->
  wp (ttwu_runnable p f) Q m.
Proof.
  intros Hok Hw Hl (HC & t & Ht & Ho) HT HF. unfold ttwu_runnable, wait_while. apply wp_bind, wp_bind, wp_deref.
  exists t. split; [done|]. unfold task_on_rq_migrating.
  destruct (Z.eqb_spec (ts_on_rq t) TASK_ON_RQ_MIGRATING) as [Em|Em].
  - apply wp_bind. eapply wp_mono; [by apply (meanwhile_migrated p t m)|].
    intros [] m1 (Hok1 & Hw1 & Hl1 & HC1 & t1 & Ht1 & Ho1). apply wp_bind, wp_deref. exists t1. split; [done|].
    replace (ts_on_rq t1 =? TASK_ON_RQ_MIGRATING) with false.
    + apply wp_ret, wp_wake_steady; [done | done | done | by exists t1 | done |]. intros Hoff. by apply HF.
    + symmetry. destruct Ho1 as [-> | Hoff].
      * by rewrite on_rq_queued_val, on_rq_migrating_val.
      * by apply (off_queue_not m1 p); [..|rewrite on_rq_migrating_val].
  - apply wp_ret, wp_wake_steady; [done | done | done | | done |].
    + exists t. split; [done|]. destruct Ho as [?|[?|?]]; [by left | done | by right].
    + intros Hoff. by apply HF.
Qed.

Lemma wp_wake_other p f m t (Q : Z -> machine -> Prop) :
  kernel_ok m -> wake_lists_ok m -> ~ listed m p -> m_tasks m !! p = Some t -> wakeable m p ->
  (forall m' f', kernel_ok m' -> wake_lists_ok m' -> woken m' p -> Q f' m') ->
  wp (on_rq ← p ⇝ ts_on_rq;
      done ← (if truthy on_rq then ttwu_runnable p f else mret false);
      if (done : bool) then mret f else ttwu_enqueue p f) Q m.
Proof.
  intros Hok Hw Hl Ht Hwk HQ. apply wp_bind, wp_rd. exists t. split; [done|]. apply wp_bind, wp_if.
  destruct (truthy (ts_on_rq t)) eqn:En.
  - apply wp_ttwu_runnable; [done.. | |].
    + intros m1 Hok1 Hw1 Hrun. apply wp_ret, HQ; [done | done | by left].
    + intros m1 Hok1 Hw1 Hl1 Hoff HC1. by apply wp_ttwu_enqueue.
  - apply wp_ret. apply truthy_false in En. destruct (Hwk) as (HC & t' & Ht' & Ho). rewrite Ht in Ht'. injection Ht' as <-.
    apply wp_ttwu_enqueue; try done. rewrite on_rq_queued_val, on_rq_migrating_val in Ho.
    destruct Ho as [?|[?|?]]; [lia | lia | done].
Qed.

Lemma wp_state_match p state m t (Q : bool -> machine -> Prop) :
  m_tasks m !! p = Some t -> (forall l, Q (has_flag (ts_state t) state) (m <| m_log := l |>)) ->
  wp (ttwu_state_match p state) Q m.
Proof.
  intros Ht HQ. unfold ttwu_state_match. apply wp_bind, wp_when. case_match.
  - apply wp_emit, wp_bind, wp_rd. exists t. split; [done|]. apply wp_ret, HQ.
  - apply wp_bind, wp_rd. exists t. split; [done|]. apply wp_ret.
    assert (E : m = m <| m_log := m_log m |>) by (by destruct m). rewrite E. apply HQ.
Qed.

Lemma woken_log m p l : woken m p -> woken (m <| m_log := l |>) p.
Proof.
  intros [Hr | [(c & q & Hq & Hp & Ha) | Hh]]; [by left | right; left | by right; right].
  exists c, q. split; [done|]. split; [done|].
  destruct (m_tasks m !! p) as [t|] eqn:Ht.
  - rewrite (is_cpu_allowed_val _ _ _ t Ht) in Ha. injection Ha as Ha.
    set (m' := m <| m_log := l |>). rewrite (is_cpu_allowed_val p c m' t Ht). unfold m'. by rewrite cpu_allowed_log, Ha.
  - unfold is_cpu_allowed, mbind, M_bind, deref in Ha. cbn [store task_store] in Ha. by rewrite Ht in Ha.
Qed.

Lemma woken_task m p : kernel_ok m -> wake_lists_ok m -> woken m p -> is_Some (m_tasks m !! p).
Proof.
  intros _ Hw [(t & Ht & _) | [(c & q & Hq & Hp & _) | (t & q & Ht & _)]]; [by eexists | | by eexists].
  destruct (Hw c q Hq) as (_ & _ & Hall). destruct (Hall p Hp) as [(t & Ht & _) _]. by eexists.
Qed.

(** The whole of try_to_wake_up() on a task other than the caller. *)
Lemma wp_try_to_wake_up p state f m t (Q : Z -> machine -> Prop) :
  kernel_ok m -> wake_lists_ok m -> m_tasks m !! p = Some t -> p <> m_current m ->
  has_flag TASK_WAKING state = false -> wakeable m p ->
  (forall r m', kernel_ok m' -> wake_lists_ok m' ->
    (if has_flag (ts_state t) state then r = 1 /\ woken m' p else r = 0 /\ m_tasks m' = m_tasks m) -> Q r m') ->
  wp (try_to_wake_up p state f) Q m.
Proof.
  intros Hok Hw Ht Hcur Hst Hwk HQ. unfold try_to_wake_up. apply wp_bind, wp_emit, wp_bind, wp_gets, wp_bind.
  eapply wp_state_match; [exact Ht|]. intros l0.
  destruct (has_flag (ts_state t) state) eqn:Em; cbn [negb when b2z].
  2: { apply wp_bind, wp_ret, wp_bind, wp_ret, wp_bind, wp_emit, wp_ret, HQ; [by repeat apply kernel_ok_log | done | done]. }
  replace (p =? _) with false by (cbn; lia). apply wp_bind, wp_bind, wp_emit.
  match goal with |- wp _ _ ?M => set (m0 := M) end.
  assert (Hok0 : kernel_ok m0) by (by repeat apply kernel_ok_log).
  assert (Hwk0 : wakeable m0 p).
  { destruct Hwk as (HC & Ho). split; [by apply (choosable_same p m) | exact Ho]. }
  eapply (wp_wake_other p f m0 t); [done | done | | done | done |].
  - apply (not_listed m0 p t); [done | done |]. intros E. rewrite E in Em. congruence.
  - intros m1 f' Hok1 Hw1 Hwn. destruct (woken_task m1 p Hok1 Hw1 Hwn) as [t1 Ht1].
    apply wp_bind, wp_bind, wp_rd. exists t1. split; [done|]. apply wp_emit, wp_bind, wp_emit, wp_ret, HQ;
      [by repeat apply kernel_ok_log | done | split; [done | by repeat apply woken_log]].
Qed.

(** C14: A wake-up is never lost: when the state of a task other than the caller
    matches (a mask without TASK_WAKING), try_to_wake_up() returns 1, whether the task
    is on a run queue, being migrated, asleep, or still on the CPU that is switching
    away from it, and whether or not it may be migrated.  The task is then runnable
    on a run queue, or on the wake list of a CPU that is_cpu_allowed() accepts for
    it, or, while its CPU is still switching away from it, on the wake list of that
    CPU, which is active; all wake lists stay consistent.  When the state does not match
    it returns 0 and leaves the tasks alone.  What the code waits for is assumed to
    come about ([MeanwhileOK]), and a sleeping task to have a CPU it can be placed on. *)
Theorem try_to_wake_up_never_lost p state f m t :
  kernel_ok m -> wake_lists_ok m -> m_tasks m !! p = Some t -> p <> m_current m ->
  has_flag TASK_WAKING state = false -> wakeable m p ->
  wp (try_to_wake_up p state f) (fun r m' => kernel_ok m' /\ wake_lists_ok m' /\
    if has_flag (ts_state t) state then r = 1 /\ woken m' p
    else r = 0 /\ m_tasks m' = m_tasks m) m.
Proof. intros. eapply wp_try_to_wake_up; [done.. | by intros r m' ? ? ?]. Qed.

(** * The handler of a CPU's wake list *)
Lemma settled_attrs p m m' :
  settled p m m' -> rq_attrs <$> m_rqs m = rq_attrs <$> m_rqs m' /\ globals m = globals m'.
Proof.
  intros (m1 & (_ & Er & Eg) & (_ & Er' & Eg') & _). split; congruence.
Qed.

Lemma waking_off_settled p m m' c p' : settled p m m' -> p' <> p -> waking_off m c p' -> waking_off m' c p'.
Proof.
  intros S Hn Hwk. destruct (settled_attrs _ _ _ S) as [Er _]. destruct S as (m1 & Fa & Fc & K1).
  destruct (Hwk) as [(t & Ht & _ & Ho & _) _]. destruct (around_task _ _ _ p' t Fa Hn Ht) as (t1 & Ht1 & E1).
  assert (Ho1 : ts_on_rq t1 = 0) by (rewrite <- Ho; exact (eq_sym (f_equal ts_on_rq E1))).
  destruct (K1 p' t1 Ht1) as (t2 & Ht2 & _ & Hk). specialize (Hk Ho1).
  eapply waking_off_kept; [exact Hwk | exact Ht | exact Ht2 | apply quiet_wk; congruence |].
  apply rq_attrs_agree; [|done]. intros ? ? E. unfold rq_attrs in E. congruence.
Qed.

Lemma runnable_settled p m m' p' : settled p m m' -> p' <> p -> runnable m p' -> runnable m' p'.
Proof.
  intros (m1 & Fa & Fc & K1) Hn (t & Ht & Hs & Ho).
  destruct (around_task _ _ _ p' t Fa Hn Ht) as (t1 & Ht1 & E1).
  destruct (K1 p' t1 Ht1) as (t2 & Ht2 & Hq & _). exists t2. split; [done|].
  destruct (frame_task _ _ _ _ _ _ _ Fc Ht1) as (t2' & Ht2' & E2). rewrite Ht2 in Ht2'. injection Ht2' as <-. split.
  - rewrite <- Hs. transitivity (ts_state t1); [exact (eq_sym (f_equal ts_state E2)) | exact (eq_sym (f_equal ts_state E1))].
  - apply Hq. rewrite <- Ho. exact (eq_sym (f_equal ts_on_rq E1)).
Qed.

(** The state of the loop over [rest] on CPU [c]. *)
Record draining (c : Z) (rest : list Z) (m : machine) : Prop := {
  dr_ok : kernel_ok m;
  dr_lists : wake_lists_ok m;
  dr_this : m_this_cpu m = c;
  dr_rq : exists q, m_rqs m !! c = Some q /\ rq_wake_list q = [] /\ rq_ttwu_pending q = 0;
  dr_nodup : NoDup rest;
  dr_rest : forall p, p ∈ rest -> waking_off m c p /\ ~ listed m p;
}.

Lemma draining_settled c p rest m m' :
  draining c (p :: rest) m -> settled p m m' -> kernel_ok m' -> draining c rest m'.
Proof.
  intros [Hok Hw Hth (q & Hq & Hl & Hp) Hnd Hr] S Hok'. destruct (settled_attrs _ _ _ S) as [Er Eg].
  apply list.NoDup_cons in Hnd as [Hnp Hnd]. split; [done | | | | done |].
  - eapply wake_lists_settled; [exact S | | done]. apply (Hr p). apply list_elem_of_here.
  - unfold globals in Eg. congruence.
  - destruct (fmap_lookup_agree rq_attrs _ _ c q Er Hq) as (q' & Hq' & E). unfold rq_attrs in E.
    exists q'. split; [done|]. split; congruence.
  - intros p' Hp'. destruct (Hr p') as [H1 H2]; [by apply list_elem_of_further|]. split.
    + eapply waking_off_settled; [exact S | | done]. intros ->. done.
    + by eapply listed_back.
Qed.

Lemma wp_drain_one c p rest m (Q : unit -> machine -> Prop) :
  draining c (p :: rest) m ->
  (forall m', draining c rest m' -> settled p m m' -> runnable m' p -> Q tt m') -> wp (ttwu_pending_one c p) Q m.
Proof.
  intros Hd HQ. destruct (Hd) as [Hok Hw Hth (q & Hq & _) _ Hr].
  destruct (Hr p) as [[Hin Hmv] Hl]; [apply list_elem_of_here|].
  destruct (Hin) as (t & Ht & _ & _ & Hc). destruct (Hmv) as (t' & _ & Ht' & _ & _ & _ & _ & Hn).
  rewrite Ht in Ht'. injection Ht' as <-. destruct (ok_rqs m Hok c q Hq) as (Hcpu & _).
  unfold ttwu_pending_one. apply wp_bind, wp_deref. exists t. split; [done|].
  apply wp_bind, wp_rd. exists q. split; [done|]. unfold is_on_cpu. rewrite Hn, truthy_0, Hcpu.
  apply wp_bind, wp_ret, wp_bind, wp_deref. exists t. split; [done|]. rewrite Hc, Z.eqb_refl.
  apply wp_bind, wp_ret, wp_bind, wp_rd. exists t. split; [done|].
  eapply wp_do_activate; [done | exact Hin | by apply movable_off |].
  intros m' Hok' S Hrun. apply HQ; [by eapply draining_settled | done | done].
Qed.

Lemma wp_drain c rest done_ m (Q : unit -> machine -> Prop) :
  draining c rest m -> (forall p, p ∈ done_ -> runnable m p /\ p ∉ rest) ->
  (forall m', draining c [] m' -> (forall p, p ∈ done_ ++ rest -> runnable m' p) -> Q tt m') ->
  wp (mapM_ (ttwu_pending_one c) rest) Q m.
Proof.
  revert done_ m. induction rest as [|p rest IH]; intros done_ m Hd Hdone HQ; cbn [mapM_].
  { apply wp_ret, HQ; [done|]. intros p. rewrite app_nil_r. intros Hp. by apply Hdone. }
  apply wp_bind. eapply wp_drain_one; [done|]. intros m1 Hd1 S1 Hrun.
  pose proof (proj1 (list.NoDup_cons _ _) (dr_nodup _ _ _ Hd)) as [Hnp _].
  apply (IH (done_ ++ [p])); [done | |].
  - intros p' Hp'. apply elem_of_app in Hp' as [Hp' | Hp'].
    + destruct (Hdone p' Hp') as [H1 H2]. apply not_elem_of_cons in H2 as [H2 H3].
      split; [by eapply runnable_settled | done].
    + apply list_elem_of_singleton in Hp' as ->. done.
  - intros m' Hd' Hall. apply HQ; [done|]. intros p' Hp'. apply Hall. by rewrite <- app_assoc.
Qed.

Lemma waking_cpu m c c' p : waking m c p -> waking m c' p -> c = c'.
Proof. intros [(t & Ht & _ & _ & <-) _] [(t' & Ht' & _ & _ & <-) _]. congruence. Qed.

Lemma draining_quiet c rest m m' : quiet_frame m m' -> draining c rest m -> draining c rest m'.
Proof.
  intros F [Hok Hw Hth (q & Hq & Hl & Hp) Hnd Hr]. pose proof (quiet_around 0 _ _ F) as (_ & Er & Eg).
  split; [by eapply kernel_ok_quiet | by eapply wake_lists_quiet | | | done |].
  - unfold globals in Eg. congruence.
  - destruct (fmap_lookup_agree rq_attrs _ _ c q Er Hq) as (q' & Hq' & E). unfold rq_attrs in E.
    exists q'. split; [done|]. split; congruence.
  - intros p Hp'. destruct (Hr p Hp') as [H1 H2]. split; [by eapply waking_off_quiet | by eapply listed_back].
Qed.

(** The list is taken: its tasks are on none. *)
Lemma draining_start m c q q' :
  kernel_ok m -> wake_lists_ok m -> m_this_cpu m = c -> m_rqs m !! c = Some q ->
  (forall p, p ∈ rq_wake_list q -> waking_off m c p) ->
  rq_okp q' = rq_okp q -> rq_wake_list q' = [] -> rq_ttwu_pending q' = 0 ->
  draining c (rq_wake_list q) (m <| m_rqs := <[c := q']> (m_rqs m) |>).
Proof.
  intros Hok Hw Hth Hq Hoff Eok El Ep. destruct (Hw c q Hq) as (Hnd & _ & Hall). unfold rq_okp in Eok.
  set (m' := m <| m_rqs := <[c := q']> (m_rqs m) |>).
  assert (Hkeep : forall c' p, waking m c' p -> waking m' c' p).
  { intros c' p Hwk. destruct (Hwk) as [(t & Ht & _) _]. eapply waking_kept; [exact Hwk | exact Ht | exact Ht | done |].
    cbn. rewrite lookup_insert. case_decide as E; [|done]. subst c'. rewrite Hq. cbn. congruence. }
  split.
  - by eapply kernel_ok_rq.
  - intros c' q0. cbn. rewrite lookup_insert. case_decide as E.
    + intros [= <-]. rewrite El. split; [constructor|]. split; [done|]. intros p Hp. by apply elem_of_nil in Hp.
    + intros Hq0. destruct (Hw c' q0 Hq0) as (? & ? & Hall0). split; [done|]. split; [done|]. intros p Hp.
      by apply Hkeep, Hall0.
  - done.
  - exists q'. split; [apply lookup_insert_eq | done].
  - done.
  - intros p Hp. specialize (Hall p Hp). split.
    { destruct (Hoff p Hp) as [(t & Ht & ?) ?]. eapply waking_off_kept; [by apply Hoff | exact Ht | exact Ht | done |].
      cbn. rewrite lookup_insert_eq, Hq. cbn. congruence. } intros (c' & q0 & Hq0 & Hp0). revert Hq0.
    cbn. rewrite lookup_insert. case_decide as E.
    + intros [= <-]. rewrite El in Hp0. by apply elem_of_nil in Hp0.
    + intros Hq0. destruct (Hw c' q0 Hq0) as (_ & _ & Hall0). apply E. by eapply waking_cpu; [|apply Hall0].
Qed.

(** The handler of a CPU's wake list completes every wake-up that was
    handed to the CPU: all tasks of the list become runnable on a run queue, the
    list is empty, and no task of another CPU's list is lost or touched.  The CPU has
    switched away from the tasks of its list: it takes the interrupt only then. *)
Theorem wake_list_ipi_wakes_all m c q :
  kernel_ok m -> wake_lists_ok m -> m_this_cpu m = c -> m_rqs m !! c = Some q -> rq_wake_list q <> [] ->
  (forall p, p ∈ rq_wake_list q -> waking_off m c p) ->
  wp wake_list_ipi (fun _ m' => kernel_ok m' /\ wake_lists_ok m' /\
    (forall p, p ∈ rq_wake_list q -> runnable m' p) /\
    exists q', m_rqs m' !! c = Some q' /\ rq_wake_list q' = [] /\ rq_ttwu_pending q' = 0) m.
Proof.
  intros Hok Hw Hth Hq Hne Hoff. unfold wake_list_ipi, sched_ttwu_pending. wp_go. rewrite Hth. wp_go.
  destruct (rq_wake_list q) as [|p l] eqn:El; [done|]. rewrite <- El in Hoff |- *. clear Hne. wp_go. cbn. rewrite Hth. wp_go.
  match goal with |- wp _ _ ?M => set (m0 := M) end.
  set (q' := q <| rq_wake_list := [] |> <| rq_ttwu_pending := 0 |>).
  assert (Hd : draining c (rq_wake_list q) m0).
  { replace m0 with (m <| m_rqs := <[c := q']> (m_rqs m) |>).
    - by apply draining_start.
    - unfold m0. cbn. by rewrite insert_insert_eq. }
  apply wp_update_rq_clock; [apply Hd | |].
  { destruct (dr_rq _ _ _ Hd) as (? & ? & _). by eexists. }
  intros m1 Hok1 F1. pose proof (draining_quiet _ _ _ _ F1 Hd) as Hd1.
  eapply (wp_drain c _ []); [exact Hd1 | |].
  - intros x Hx. by apply elem_of_nil in Hx.
  - intros m' [Hok' Hw' _ Hrq _ _] Hall. split; [done|]. split; [done|]. split; [done | exact Hrq].
Qed.
End WakeProofs.
