(* ===== verification/WakeSample.v ===== *)
(** A concrete choice of CPUs on the sample machine: witnesses for the theorems
    on migration and wake-ups. *)
From S2P Require Import Prelude Headers Proc Kernel Extern RqClock Uclamp UclampProofs Prio.
From S2P Require Import SchedOK Affinity AffinityProofs Migrate MigrateProofs Wakeup.
From S2P Require Import Mm Schedule LazyMm ScheduleProofs WakeProofs Sample.

Module DemoMigrate.
(** While a wake-up waits, the CPU of the task switches to its idle task, or the
    migration of the task ends. *)
Definition switch_away (p : Z) : K unit :=
  t ← deref (R := task_struct) p;
  if ts_on_rq t =? 2 then set! p ⇝ ts_on_rq := 1
  else
    q ← deref (R := rq) (ts_cpu t);
    when (rq_curr q =? p) (set! (ts_cpu t) ⇝ rq_curr := rq_idle q) ;;
    set! p ⇝ ts_on_cpu := 0.

(** The class keeps a task where it was; two CPUs in one node, no cpusets. *)
Definition with_meanwhile (w : Z -> K unit) : MigrateExtern := {|
  meanwhile := w;
  cl_select_task_rq _ _ cpu _ := mret cpu;
  has_task_woken _ := true; cl_task_woken _ _ _ := mret tt;
  has_migrate_task_rq _ := true; cl_migrate_task_rq _ _ _ := mret tt;
  has_find_lock_rq _ := false; cl_find_lock_rq _ _ _ := mret (-1);
  cpu_to_node _ := 0; cpumask_of_node _ := {[0; 1]};
  cpuset_cpus_allowed _ := mret {[0; 1]}; cpuset_cpus_allowed_fallback _ := mret false;
  kthread_is_per_cpu _ _ := false; task_cpu_possible_mask _ := {[0; 1]};
  cpumask_any s := match elements s with c :: _ => c | [] => 2 end;
  cpumask_any_and_distribute s s' := match elements (s ∩ s') with c :: _ => c | [] => 2 end;
  nr_cpu_ids := 2;
  flush_smp_call_function_from_idle := mret tt;
  cpumask_alloc _ _ := true; pending_alloc _ := 900;
  update_avg avg sample := avg + (sample - avg) / 8;
  jiffies := mret 4000; sd_llc_id _ := 0;
  cpu_stop_nowait cpu _ arg := emit "stop_one_cpu_nowait" [cpu; arg];
|}.
Definition migrate_extern : MigrateExtern := with_meanwhile switch_away.
(** Wake-ups that never wait. *)
Definition no_wait_extern : MigrateExtern := with_meanwhile (fun _ => stuck NOFUEL).
End DemoMigrate.

#[local] Existing Instance linux_headers.
#[local] Existing Instance Demo.extern.
#[local] Existing Instance DemoMigrate.migrate_extern.

Lemma with_meanwhile_ok w : MigrateExternOK (DemoMigrate.with_meanwhile w).
Proof.
  split; intros; cbn; try (by apply wp_ret); try (by apply preserves_ret; typeclasses eauto); try done.
  - apply wp_ret. split; [done|]. split; [done|]. intros x t Ht. by exists t.
  - destruct (elements s) as [|c l] eqn:E.
    + apply elements_empty_iff in E. unfold_leibniz. done.
    + apply elem_of_elements. rewrite E. apply list_elem_of_here.
Qed.

#[local] Instance demo_migrate_ok : MigrateExternOK DemoMigrate.migrate_extern := with_meanwhile_ok _.

(** The idle task of [c] takes over. *)
Definition idle_runs (c : Z) (q : rq) (m : machine) : machine :=
  m <| m_rqs := <[c := q <| rq_curr := rq_idle q |>]> (m_rqs m) |>.

Lemma waking_idle m c q c' p : m_rqs m !! c = Some q -> waking m c' p -> waking (idle_runs c q m) c' p.
Proof.
  intros Hq [Hin (t & q' & Ht & Hq' & Hi & Hoff & Hc)]. split; [done|].
  destruct (decide (ts_cpu t = c)) as [E|E].
  - rewrite E, Hq in Hq'. injection Hq' as <-. exists t, (q <| rq_curr := rq_idle q |>).
    split_and!; [done | cbn; rewrite E; apply lookup_insert_eq | done..].
  - exists t, q'. split_and!; [done | cbn; by rewrite lookup_insert_ne | done..].
Qed.

Lemma lists_idle m c q : m_rqs m !! c = Some q -> wake_lists_ok m -> wake_lists_ok (idle_runs c q m).
Proof.
  intros Hq Hw c' q'. cbn. rewrite lookup_insert. case_decide as E; [intros [= <-] | intros Hq'].
  - subst c'. destruct (Hw c q Hq) as (? & ? & Hall). split_and!; [done | done |]. intros p Hp. by apply waking_idle, Hall.
  - destruct (Hw c' q' Hq') as (? & ? & Hall). split_and!; [done | done |]. intros p Hp. by apply waking_idle, Hall.
Qed.

(** [p] leaves its CPU, which another task has. *)
Lemma leaves_cpu p c m t q :
  kernel_ok m -> wake_lists_ok m -> ~ listed m p -> choosable p m -> waking m c p ->
  m_tasks m !! p = Some t -> m_rqs m !! ts_cpu t = Some q -> rq_curr q <> p ->
  let m' := m <| m_tasks := <[p := t <| ts_on_cpu := 0 |>]> (m_tasks m) |> in
  kernel_ok m' /\ wake_lists_ok m' /\ ~ listed m' p /\ choosable p m' /\ waking_off m' c p.
Proof.
  intros Hok Hw Hl HC [(t1 & Ht1 & ?) (t2 & q2 & Ht2 & Hq2 & Hi & Hoff & _)] Ht Hq Hcur m'.
  rewrite Ht in Ht1, Ht2. injection Ht1 as <-. injection Ht2 as <-. rewrite Hq in Hq2. injection Hq2 as <-.
  assert (Htp : m_tasks m' !! p = Some (t <| ts_on_cpu := 0 |>)) by apply lookup_insert_eq.
  split; [by eapply kernel_ok_task|]. split; [apply (wake_lists_around p m); [apply around_set_task | done..]|].
  split; [by apply (listed_back m)|]. split; [apply (choosable_same p m); [done | done | by rewrite Ht, Htp | done]|].
  split; [by eexists|]. eexists _, q. split_and!; [exact Htp | done..].
Qed.

#[local] Instance demo_meanwhile_ok : MeanwhileOK.
Proof.
  split.
  - intros p c m Hok Hw Hl HC Hwk. destruct (Hwk) as [(t & Ht & _ & Ho & _) (t' & q & Ht' & Hq & Hi & _)].
    rewrite Ht in Ht'. injection Ht' as <-. cbn [meanwhile DemoMigrate.migrate_extern DemoMigrate.with_meanwhile]. unfold DemoMigrate.switch_away.
    apply wp_bind, wp_deref. exists t. split; [done|]. rewrite Ho. cbn [Z.eqb].
    apply wp_bind, wp_deref. exists q. split; [done|]. apply wp_bind, wp_when.
    destruct (Z.eqb_spec (rq_curr q) p) as [Ec|Ec].
    + apply wp_wr. exists q. split; [done|]. apply wp_wr. exists t. split; [done|].
      apply (leaves_cpu p c (idle_runs (ts_cpu t) q m) t (q <| rq_curr := rq_idle q |>)).
      * apply kernel_ok_curr; [done | done | by apply (ok_rqs m Hok)].
      * by apply lists_idle.
      * intros (c' & q' & Hq' & Hp'). apply Hl. revert Hq'. cbn. rewrite lookup_insert.
        case_decide; [intros [= <-]; by exists (ts_cpu t), q | by exists c', q'].
      * apply (choosable_same p m); [done | | done | done]. intros c'. cbn. rewrite lookup_insert.
        case_decide; [by eexists | done].
      * by apply waking_idle.
      * done.
      * apply lookup_insert_eq.
      * done.
    + apply wp_wr. exists t. split; [done|]. by apply (leaves_cpu p c m t q).
  - intros p t m Hok Hw Hl HC Ht Ho. cbn [meanwhile DemoMigrate.migrate_extern DemoMigrate.with_meanwhile]. unfold DemoMigrate.switch_away.
    apply wp_bind, wp_deref. exists t. split; [done|]. rewrite Ho. cbn [Z.eqb Pos.eqb TASK_ON_RQ_MIGRATING linux_headers].
    apply wp_wr. exists t. split; [done|]. split; [by eapply kernel_ok_task|].
    split; [apply (wake_lists_around p m); [apply around_set_task | done..]|]. split; [by apply (listed_back m)|].
    split; [apply (choosable_same p m); [done | done | cbn; by rewrite lookup_insert_eq, Ht | done]|].
    eexists. split; [apply lookup_insert_eq | by left].
Qed.

Lemma cpus_ok0 : cpus_ok machine0.
Proof.
  split; [done | | ].
  - by apply disjoint_empty_r.
  - intros c Hc. cbn in Hc. assert (c = 0 \/ c = 1) as [-> | ->] by set_solver; by eexists.
Qed.

(** The kernel thread 13 sleeps on CPU 0. *)
Definition kthread13 : task_struct := task0 <| ts_state := TASK_INTERRUPTIBLE |> <| ts_flags := PF_KTHREAD |>.

Lemma placeable13 : placeable 13 machine0.
Proof.
  split; [apply cpus_ok0|]. exists kthread13, 0. split; [reflexivity|]. split; [reflexivity|].
  split; [reflexivity|]. split; cbn; set_solver.
Qed.

Lemma select_fallback_rq_terminates_witness :
  wp (select_fallback_rq 0 13) (fun c m' =>
    kernel_ok m' /\ aff_frame machine0 m' /\ is_cpu_allowed 13 c m' = Ret true m') machine0.
Proof. apply select_fallback_rq_terminates; [apply kernel_ok0 | apply placeable13]. Defined.

(** The same thread while CPU 1 is still switching away from it. *)
Definition switching13 : task_struct := kthread13 <| ts_cpu := 1 |> <| ts_on_cpu := 1 |>.
Definition switching0 : machine := machine0 <| m_tasks := <[13 := switching13]> (m_tasks machine0) |>.

Lemma no_lists0 : wake_lists_ok switching0.
Proof. intros c q Hq. which_obj Hq; (split; [constructor|]); (split; [done|]); intros p Hp; by apply elem_of_nil in Hp. Qed.

Lemma switching_ok : kernel_ok switching0.
Proof.
  eapply (kernel_ok_move machine0 13 kthread13); [apply kernel_ok0 | reflexivity | reflexivity | done.. | by eexists | reflexivity].
Qed.

Lemma try_to_wake_up_never_lost_witness :
  wp (try_to_wake_up 13 TASK_NORMAL 0) (fun r m' => kernel_ok m' /\ wake_lists_ok m' /\
    if has_flag (ts_state switching13) TASK_NORMAL then r = 1 /\ woken m' 13
    else r = 0 /\ m_tasks m' = m_tasks switching0) switching0.
Proof.
  apply (try_to_wake_up_never_lost 13 TASK_NORMAL 0 switching0 switching13).
  - apply switching_ok.
  - apply no_lists0.
  - reflexivity.
  - done.
  - reflexivity.
  - split.
    + left. split; [split; [done | by apply disjoint_empty_r |]|].
      * intros c Hc. cbn in Hc. assert (c = 0 \/ c = 1) as [-> | ->] by set_solver; by eexists.
      * exists switching13, 0. do 3 (split; [reflexivity|]). split; cbn; set_solver.
    + exists switching13. split; [reflexivity|]. right; right.
      split; [by exists switching13|]. exists switching13, (rq0 1 14 14 []). by split_and!.
Defined.

(** Task 13 was handed to CPU 0 by another CPU. *)
Definition handed0 : machine :=
  machine0 <| m_tasks := <[13 := kthread13 <| ts_state := TASK_WAKING |>]> (m_tasks machine0) |>
    <| m_rqs := <[0 := (rq0 0 11 10 [11; 12]) <| rq_wake_list := [13] |> <| rq_ttwu_pending := 1 |>]> (m_rqs machine0) |>.

Lemma handed0_ok : kernel_ok handed0.
Proof.
  pose (m1 := machine0 <| m_tasks := <[13 := kthread13 <| ts_state := TASK_WAKING |>]> (m_tasks machine0) |>).
  assert (Hok1 : kernel_ok m1) by (eapply kernel_ok_task; [apply kernel_ok0 | reflexivity | reflexivity]).
  set (q := rq0 0 11 10 [11; 12]).
  set (q' := q <| rq_wake_list := [13] |> <| rq_ttwu_pending := 1 |>).
  exact (kernel_ok_rq m1 0 q q' Hok1 eq_refl eq_refl).
Qed.

Lemma wake_list_ipi_wakes_all_witness :
  exists q, m_rqs handed0 !! 0 = Some q /\ rq_wake_list q = [13] /\
  wp wake_list_ipi (fun _ m' => kernel_ok m' /\ wake_lists_ok m' /\
    (forall p, p ∈ rq_wake_list q -> runnable m' p) /\
    exists q', m_rqs m' !! 0 = Some q' /\ rq_wake_list q' = [] /\ rq_ttwu_pending q' = 0) handed0.
Proof.
  eexists. split; [reflexivity|]. split; [reflexivity|].
  assert (Hoff : waking_off handed0 0 13).
  { split; [by eexists|]. eexists _, _. split; [reflexivity|]. split; [reflexivity | done]. }
  apply wake_list_ipi_wakes_all; [apply handed0_ok | | reflexivity | reflexivity | done |].
  - intros c q Hq. which_obj Hq; (split; [apply NoDup_singleton || constructor|]); (split; [done|]); intros p Hp;
      cbn in Hp; [apply list_elem_of_singleton in Hp as -> | by apply elem_of_nil in Hp..].
    by apply waking_off_waking.
  - intros p Hp. cbn in Hp. by apply list_elem_of_singleton in Hp as ->.
Defined.

(** The same wake-up, run. *)
Example wake_up_runs :
  match try_to_wake_up 13 TASK_NORMAL 0 machine0 with
  | Ret r m' => r = 1 /\ ts_on_rq <$> m_tasks m' !! 13 = Some 1 /\ rq_queue <$> m_rqs m' !! 0 = Some [11; 12; 13]
  | Stuck _ => False
  end.
Proof. vm_compute. done. Qed.
