(* ===== verification/Setscheduler.v ===== *)
(** Scheduling policy and parameters (core.c): __sched_setscheduler() and the
    system calls around it, with CONFIG_RT_GROUP_SCHED unset; the affinity
    system calls; yielding.

    [attr->sched_policy] is an unsigned 32-bit field, -1 stored in it
    (SETPARAM_POLICY) stands for "keep the policy". *)
From S2P Require Import Prelude Headers Proc Kernel Extern RqClock Uclamp Prio Affinity.
From S2P Require Import Migrate Schedule.

(** User memory, credentials and class methods outside the repository. *)
Class SetschedExtern := {
  (** user copies: [None] and [true] stand for a fault *)
  user_sched_param : Z -> machine -> option Z;
  user_attr_size : Z -> machine -> option Z;
  user_sched_attr : Z -> Z -> machine -> cres sched_attr;  (* copy_struct_from_user() *)
  put_user_attr_size : Z -> Z -> K unit;
  put_sched_param : Z -> Z -> K bool;
  put_sched_attr : Z -> sched_attr -> K bool;
  access_ok : Z -> Z -> bool;
  user_cpu_mask : Z -> Z -> machine -> option (gset Z);    (* the first bytes of a mask *)
  put_cpu_mask : Z -> gset Z -> Z -> K bool;
  put_timespec : Z -> Z -> K bool;
  cpumask_size : Z;
  ns_capable_sys_nice : Z -> K bool;                       (* in the user namespace of the task *)
  cl_yield_task : sched_class -> Z -> K unit;
  has_yield_to_task : sched_class -> bool;
  cl_yield_to_task : sched_class -> Z -> Z -> K bool;
  has_get_rr_interval : sched_class -> bool;
  cl_get_rr_interval : sched_class -> Z -> Z -> K Z;
}.

Section Setscheduler.
Context {H : Headers} {X : Extern} {Mg : MigrateExtern} {Sx : SetschedExtern}.

Definition find_process_by_pid (pid : Z) : K Z :=
  if truthy pid then find_task_by_vpid pid else gets m_current.

Definition SETPARAM_POLICY : Z := -1.

(** [int policy = attr->sched_policy] *)
Definition attr_policy (attr : sched_attr) : Z := s32 (sa_policy attr).

Definition __setscheduler_params (p : Z) (attr : sched_attr) : K unit :=
  t ← deref (R := task_struct) p;
  let policy := if attr_policy attr =? SETPARAM_POLICY then ts_policy t else attr_policy attr in
  set! p ⇝ ts_policy := policy ;;
  (if dl_policy policy then setparam_dl p attr
   else when (fair_policy policy) (set! p ⇝ ts_static_prio := NICE_TO_PRIO (sa_nice attr))) ;;
  set! p ⇝ ts_rt_priority := sa_priority attr ;;
  t ← deref (R := task_struct) p;
  set! p ⇝ ts_normal_prio := normal_prio t ;;
  set_load_weight p true.

Definition check_same_owner (p : Z) : K bool :=
  current ← gets m_current;
  c ← deref (R := task_struct) current;
  t ← deref (R := task_struct) p;
  mret ((ts_euid c =? ts_euid t) || (ts_euid c =? ts_uid t))%bool.

(** ** Checks of __sched_setscheduler() *)

(** The policy asked for; a negative one keeps the task's. *)
Record ss_req : Type := Mk_ss_req { ss_policy : Z; ss_oldpolicy : Z; ss_reset : bool }.

Definition setscheduler_request (p : Z) (attr : sched_attr) (policy oldpolicy : Z) : K (cres ss_req) :=
  if policy <? 0 then
    t ← deref (R := task_struct) p;
    mret (Ok (Mk_ss_req (ts_policy t) (ts_policy t) (ts_sched_reset_on_fork t)))
  else if negb (valid_policy policy) then mret (Err EINVAL)
  else mret (Ok (Mk_ss_req policy oldpolicy (has_flag (sa_flags attr) SCHED_FLAG_RESET_ON_FORK))).

Definition setscheduler_valid (attr : sched_attr) (policy : Z) : bool :=
  if truthy (Z.ldiff (sa_flags attr) (Z.lor SCHED_FLAG_ALL SCHED_FLAG_SUGOV)) then false
  else if MAX_RT_PRIO - 1 <? sa_priority attr then false
  else negb ((dl_policy policy && negb (checkparam_dl attr)) ||
             negb (Bool.eqb (rt_policy policy) (truthy (sa_priority attr))))%bool.

(** What a caller without CAP_SYS_NICE may do. *)
Definition setscheduler_permitted (p : Z) (attr : sched_attr) (policy : Z) (reset_on_fork : bool) : K bool :=
  t ← deref (R := task_struct) p;
  nice_ok ← (if (fair_policy policy && (sa_nice attr <? task_nice t))%bool then can_nice p (sa_nice attr)
             else mret true);
  if negb nice_ok then mret false
  else
    rt_ok ← (if rt_policy policy then
               rlim_rtprio ← rlimit_rtprio p;
               mret (negb (negb (policy =? ts_policy t) && (rlim_rtprio =? 0)) &&
                     negb ((ts_rt_priority t <? sa_priority attr) && (rlim_rtprio <? sa_priority attr)))%bool
             else mret true);
    if negb rt_ok then mret false
    else if dl_policy policy then mret false
    else
      idle_ok ← (if (task_has_idle_policy t && negb (idle_policy policy))%bool then can_nice p (task_nice t)
                 else mret true);
      if negb idle_ok then mret false
      else
        same ← check_same_owner p;
        if negb same then mret false
        else mret (negb (ts_sched_reset_on_fork t && negb reset_on_fork))%bool.

(** The checks before the run-queue lock is taken. *)
Definition setscheduler_checks (p : Z) (attr : sched_attr) (user : bool) (rq : ss_req) : K (cres unit) :=
  if negb (setscheduler_valid attr (ss_policy rq)) then mret (Err EINVAL)
  else
    permitted ← (if user then
                   cap ← capable_sys_nice;
                   if (cap : bool) then mret true
                   else setscheduler_permitted p attr (ss_policy rq) (ss_reset rq)
                 else mret true);
    if negb permitted then mret (Err EPERM)
    else
      secure ← (if user then
                  if has_flag (sa_flags attr) SCHED_FLAG_SUGOV then mret (Err EINVAL)
                  else security_task_setscheduler p
                else mret (Ok tt));
      match secure with
      | Err e => mret (Err e)
      | Ok _ => if has_flag (sa_flags attr) SCHED_FLAG_UTIL_CLAMP then uclamp_validate p attr else mret (Ok tt)
      end.

(** Does the request change anything but the reset flag? *)
Definition setscheduler_changes (p : Z) (attr : sched_attr) (policy : Z) : K bool :=
  t ← deref (R := task_struct) p;
  if negb (policy =? ts_policy t) then mret true
  else if (fair_policy policy && negb (sa_nice attr =? task_nice t))%bool then mret true
  else if (rt_policy policy && negb (sa_priority attr =? ts_rt_priority t))%bool then mret true
  else
    dl ← (if dl_policy policy then dl_param_changed p attr else mret false);
    if (dl : bool) then mret true else mret (has_flag (sa_flags attr) SCHED_FLAG_UTIL_CLAMP).

(** Deadline tasks need the whole root domain and some bandwidth. *)
Definition setscheduler_admitted (r p : Z) (attr : sched_attr) (policy : Z) (user : bool) : K bool :=
  if negb user then mret true
  else
    enabled ← dl_bandwidth_enabled;
    if (enabled && dl_policy policy && negb (has_flag (sa_flags attr) SCHED_FLAG_SUGOV))%bool then
      q ← deref (R := rq) r;
      t ← deref (R := task_struct) p;
      mret (bool_decide (rq_span q ⊆ cpus_allowed t) && negb (rq_dl_bw q =? 0))%bool
    else mret true.

(** ** The change itself *)
Definition setscheduler_update (p : Z) (attr : sched_attr) (newprio : Z) : K unit :=
  when (negb (has_flag (sa_flags attr) SCHED_FLAG_KEEP_PARAMS))
    (__setscheduler_params p attr ;; __setscheduler_prio p newprio) ;;
  __setscheduler_uclamp p attr.

Definition setscheduler_apply (r p : Z) (attr : sched_attr) (rq : ss_req) (pi : bool) : K unit :=
  set! p ⇝ ts_sched_reset_on_fork := ss_reset rq ;;
  oldprio ← p ⇝ ts_prio;
  let newprio := __normal_prio (ss_policy rq) (sa_priority attr) (sa_nice attr) in
  newprio ← (if pi then rt_effective_prio p newprio else mret newprio);
  let queue_flags := Z.lor (Z.lor DEQUEUE_SAVE DEQUEUE_MOVE) DEQUEUE_NOCLOCK in
  let queue_flags := if (pi && (newprio =? oldprio))%bool then Z.ldiff queue_flags DEQUEUE_MOVE else queue_flags in
  t ← deref (R := task_struct) p;
  let queued := task_on_rq_queued t in
  running ← task_current r p;
  when queued (dequeue_task r p queue_flags) ;;
  when running (put_prev_task r p) ;;
  prev_class ← p ⇝ ts_class;
  setscheduler_update p attr newprio ;;
  prio ← p ⇝ ts_prio;
  when queued (enqueue_task r p (if oldprio <? prio then Z.lor queue_flags ENQUEUE_HEAD else queue_flags)) ;;
  when running (set_next_task r p) ;;
  check_class_changed r p prev_class oldprio ;;
  emit "preempt_disable" [] ;;
  head ← splice_balance_callbacks r;
  when pi (emit "cpuset_read_unlock" [] ;; rt_mutex_adjust_pi p) ;;
  balance_callbacks r head ;;
  emit "preempt_enable" [].

(** The label [unlock]. *)
Definition setscheduler_unlock (pi : bool) (r : cres unit) : K (cres unit) :=
  when pi (emit "cpuset_read_unlock" []) ;; mret r.

(** One pass from the label [recheck]; [None] starts over. *)
Definition setscheduler_pass (p : Z) (attr : sched_attr) (user pi : bool) (policy oldpolicy : Z) :
    K (option (cres unit)) :=
  req ← setscheduler_request p attr policy oldpolicy;
  match req with
  | Err e => mret (Some (Err e))
  | Ok rq =>
      checked ← setscheduler_checks p attr user rq;
      match checked with
      | Err e => mret (Some (Err e))
      | Ok _ =>
          when pi (emit "cpuset_read_lock" []) ;;
          r ← p ⇝ ts_cpu;
          update_rq_clock r ;;
          stop ← r ⇝ rq_stop;
          if p =? stop then ret ← setscheduler_unlock pi (Err EINVAL); mret (Some ret)
          else
            change ← setscheduler_changes p attr (ss_policy rq);
            if negb change then
              set! p ⇝ ts_sched_reset_on_fork := ss_reset rq ;;
              ret ← setscheduler_unlock pi (Ok tt); mret (Some ret)
            else
              admitted ← setscheduler_admitted r p attr (ss_policy rq) user;
              if negb admitted then ret ← setscheduler_unlock pi (Err EPERM); mret (Some ret)
              else
                cur ← p ⇝ ts_policy;
                if (negb (ss_oldpolicy rq =? -1) && negb (ss_oldpolicy rq =? cur))%bool then
                  when pi (emit "cpuset_read_unlock" []) ;; mret None
                else
                  t ← deref (R := task_struct) p;
                  over ← (if (dl_policy (ss_policy rq) || dl_task t)%bool
                          then sched_dl_overflow p (ss_policy rq) attr else mret false);
                  if (over : bool) then ret ← setscheduler_unlock pi (Err EBUSY); mret (Some ret)
                  else setscheduler_apply r p attr rq pi ;; mret (Some (Ok tt))
      end
  end.

(** The policy can change between the check and the lock only while another CPU
    changes it; the second pass keeps whatever it finds. *)
Fixpoint setscheduler_loop (fuel : nat) (p : Z) (attr : sched_attr) (user pi : bool) (policy oldpolicy : Z) :
    K (cres unit) :=
  match fuel with
  | O => stuck NOFUEL
  | S fuel' =>
      r ← setscheduler_pass p attr user pi policy oldpolicy;
      match r with Some ret => mret ret | None => setscheduler_loop fuel' p attr user pi (-1) (-1) end
  end.

Definition __sched_setscheduler (p : Z) (attr : sched_attr) (user pi : bool) : K (cres unit) :=
  irq ← (if pi then in_interrupt else mret false);
  if (irq : bool) then stuck BUG
  else setscheduler_loop 2 p attr user pi (attr_policy attr) (-1).

(** ** In-kernel callers *)
Definition _sched_setscheduler (p policy sched_priority : Z) (check : bool) : K (cres unit) :=
  t ← deref (R := task_struct) p;
  let attr := attr0 <| sa_policy := u32 policy |> <| sa_priority := u32 sched_priority |>
                    <| sa_nice := PRIO_TO_NICE (ts_static_prio t) |> in
  let attr :=
    if (negb (policy =? SETPARAM_POLICY) && has_flag policy SCHED_RESET_ON_FORK)%bool
    then attr <| sa_flags := Z.lor (sa_flags attr) SCHED_FLAG_RESET_ON_FORK |>
              <| sa_policy := u32 (Z.ldiff policy SCHED_RESET_ON_FORK) |>
    else attr in
  __sched_setscheduler p attr check true.

Definition sched_setscheduler (p policy sched_priority : Z) : K (cres unit) :=
  _sched_setscheduler p policy sched_priority true.
Definition sched_setattr (p : Z) (attr : sched_attr) : K (cres unit) := __sched_setscheduler p attr true true.
Definition sched_setattr_nocheck (p : Z) (attr : sched_attr) : K (cres unit) :=
  __sched_setscheduler p attr false true.
Definition sched_setscheduler_nocheck (p policy sched_priority : Z) : K (cres unit) :=
  _sched_setscheduler p policy sched_priority false.

(** WARN_ON_ONCE(ret != 0) *)
Definition warn_if_err (r : cres unit) : K unit :=
  match r with Ok _ => mret tt | Err _ => emit "WARN_ON_ONCE" [] end.

Definition sched_set_fifo (p : Z) : K unit :=
  r ← sched_setscheduler_nocheck p SCHED_FIFO (Z.quot MAX_RT_PRIO 2); warn_if_err r.
Definition sched_set_fifo_low (p : Z) : K unit :=
  r ← sched_setscheduler_nocheck p SCHED_FIFO 1; warn_if_err r.
Definition sched_set_normal (p nice : Z) : K unit :=
  r ← sched_setattr_nocheck p (attr0 <| sa_policy := u32 SCHED_NORMAL |> <| sa_nice := nice |>); warn_if_err r.

(** ** System calls *)

(** Look the task up, hold it during [c]. *)
Definition with_task (pid : Z) (c : Z -> K (cres unit)) : K (cres unit) :=
  p ← find_process_by_pid pid;
  if p =? NULL then mret (Err ESRCH)
  else
    get_task_struct p ;;
    r ← c p;
    put_task_struct p ;;
    mret r.

Definition do_sched_setscheduler (pid policy param : Z) : K (cres unit) :=
  if ((param =? NULL) || (pid <? 0))%bool then mret (Err EINVAL)
  else
    lparam ← gets (user_sched_param param);
    match lparam with
    | None => mret (Err EFAULT)
    | Some prio => with_task pid (fun p => sched_setscheduler p policy prio)
    end.

Definition sched_copy_attr (uattr : Z) : K (cres sched_attr) :=
  size ← gets (user_attr_size uattr);
  match size with
  | None => mret (Err EFAULT)
  | Some size =>
      let size := if size =? 0 then SCHED_ATTR_SIZE_VER0 else size in
      let err_size := put_user_attr_size uattr SCHED_ATTR_SIZE ;; mret (Err E2BIG) in
      if ((size <? SCHED_ATTR_SIZE_VER0) || (PAGE_SIZE <? size))%bool then err_size
      else
        ret ← gets (user_sched_attr uattr size);
        match ret with
        | Err E2BIG => err_size
        | Err e => mret (Err e)
        | Ok attr =>
            if (has_flag (sa_flags attr) SCHED_FLAG_UTIL_CLAMP && (size <? SCHED_ATTR_SIZE_VER1))%bool
            then mret (Err EINVAL)
            else mret (Ok (attr <| sa_nice := clampZ (sa_nice attr) MIN_NICE MAX_NICE |>))
        end
  end.

Definition get_params (p : Z) (attr : sched_attr) : K sched_attr :=
  t ← deref (R := task_struct) p;
  if task_has_dl_policy t then getparam_dl p attr
  else if task_has_rt_policy t then mret (attr <| sa_priority := ts_rt_priority t |>)
  else mret (attr <| sa_nice := task_nice t |>).

Definition sys_sched_setscheduler (pid policy param : Z) : K (cres unit) :=
  if policy <? 0 then mret (Err EINVAL) else do_sched_setscheduler pid policy param.

Definition sys_sched_setparam (pid param : Z) : K (cres unit) :=
  do_sched_setscheduler pid SETPARAM_POLICY param.

Definition sys_sched_setattr (pid uattr flags : Z) : K (cres unit) :=
  if ((uattr =? NULL) || (pid <? 0) || truthy flags)%bool then mret (Err EINVAL)
  else
    copied ← sched_copy_attr uattr;
    match copied with
    | Err e => mret (Err e)
    | Ok attr =>
        if s32 (sa_policy attr) <? 0 then mret (Err EINVAL)
        else
          let attr := if has_flag (sa_flags attr) SCHED_FLAG_KEEP_POLICY
                      then attr <| sa_policy := u32 SETPARAM_POLICY |> else attr in
          with_task pid (fun p =>
            attr ← (if has_flag (sa_flags attr) SCHED_FLAG_KEEP_PARAMS then get_params p attr else mret attr);
            sched_setattr p attr)
    end.

(** Look the task up and ask the security module. *)
Definition readable_task {A} (pid : Z) (c : Z -> K (cres A)) : K (cres A) :=
  p ← find_process_by_pid pid;
  if p =? NULL then mret (Err ESRCH)
  else
    s ← security_task_getscheduler p;
    match s with Err e => mret (Err e) | Ok _ => c p end.

Definition sys_sched_getscheduler (pid : Z) : K (cres Z) :=
  if pid <? 0 then mret (Err EINVAL)
  else readable_task pid (fun p =>
    t ← deref (R := task_struct) p;
    mret (Ok (Z.lor (ts_policy t) (if ts_sched_reset_on_fork t then SCHED_RESET_ON_FORK else 0)))).

Definition sys_sched_getparam (pid param : Z) : K (cres unit) :=
  if ((param =? NULL) || (pid <? 0))%bool then mret (Err EINVAL)
  else readable_task pid (fun p =>
    t ← deref (R := task_struct) p;
    fault ← put_sched_param param (if task_has_rt_policy t then ts_rt_priority t else 0);
    mret (if (fault : bool) then Err EFAULT else Ok tt)).

Definition sched_attr_copy_to_user (uattr : Z) (kattr : sched_attr) (usize : Z) : K (cres unit) :=
  if negb (access_ok uattr usize) then mret (Err EFAULT)
  else
    fault ← put_sched_attr uattr (kattr <| sa_size := Z.min usize SCHED_ATTR_SIZE |>);
    mret (if (fault : bool) then Err EFAULT else Ok tt).

(** The attributes sched_getattr() reports. *)
Definition getattr_of (p : Z) : K sched_attr :=
  t ← deref (R := task_struct) p;
  let kattr := attr0 <| sa_policy := ts_policy t |>
    <| sa_flags := if ts_sched_reset_on_fork t then SCHED_FLAG_RESET_ON_FORK else 0 |> in
  kattr ← get_params p kattr;
  mret (kattr <| sa_flags := Z.land (sa_flags kattr) SCHED_FLAG_ALL |>
              <| sa_util_min := uc_value (pc_get UCLAMP_MIN (ts_uclamp_req t)) |>
              <| sa_util_max := uc_value (pc_get UCLAMP_MAX (ts_uclamp_req t)) |>).

Definition sys_sched_getattr (pid uattr usize flags : Z) : K (cres unit) :=
  if ((uattr =? NULL) || (pid <? 0) || (PAGE_SIZE <? usize) || (usize <? SCHED_ATTR_SIZE_VER0) || truthy flags)%bool
  then mret (Err EINVAL)
  else readable_task pid (fun p =>
    kattr ← getattr_of p;
    sched_attr_copy_to_user uattr kattr usize).
End Setscheduler.
