(* ===== verification/SetschedProofs.v ===== *)
(** Changing the scheduling policy of a task: what a caller without privileges
    may ask for, and what a successful or a refused request leaves behind. *)
From S2P Require Import Prelude Headers Proc Kernel Extern RqClock Uclamp UclampProofs Prio.
From S2P Require Import SchedOK Affinity AffinityProofs Migrate Schedule Setscheduler.

(** What core.c relies on in credentials, limits, security hooks and the
    deadline class. *)
Class SetschedExternOK {H : Headers} (X : Extern) : Prop := {
  in_interrupt_no m : in_interrupt m = Ret false m;
  security_set_frame p : preserves quiet_frame (security_task_setscheduler p);
  security_set_returns p m : kernel_ok m -> returns (security_task_setscheduler p) m;
  dl_enabled_frame : preserves quiet_frame dl_bandwidth_enabled;
  dl_enabled_returns m : returns dl_bandwidth_enabled m;
  dl_changed_frame p a : preserves quiet_frame (dl_param_changed p a);
  dl_changed_returns p a m : kernel_ok m -> is_Some (m_tasks m !! p) -> returns (dl_param_changed p a) m;
  dl_overflow_frame p k a : preserves quiet_frame (sched_dl_overflow p k a);
  dl_overflow_returns p k a m : kernel_ok m -> is_Some (m_tasks m !! p) -> returns (sched_dl_overflow p k a) m;
  setparam_dl_frame p a : preserves quiet_frame (setparam_dl p a);
  setparam_dl_returns p a m : kernel_ok m -> is_Some (m_tasks m !! p) -> returns (setparam_dl p a) m;
  top_task_live p m : kernel_ok m -> is_Some (m_tasks m !! p) ->
    wp (rt_mutex_get_top_task p) (fun q m' => q = NULL \/ is_Some (m_tasks m' !! q)) m;
  adjust_pi_ok p m t : kernel_ok m -> m_tasks m !! p = Some t ->
    wp (rt_mutex_adjust_pi p) (fun _ m' => kernel_ok m' /\ rq_attrs <$> m_rqs m = rq_attrs <$> m_rqs m' /\
      exists t', m_tasks m' !! p = Some t' /\ task_attrs t' = task_attrs t) m;
}.

#[export] Hint Extern 1 (preserves (frame task_quiet _ _) _) =>
  first [apply security_set_frame | apply dl_enabled_frame | apply dl_changed_frame
    | apply dl_overflow_frame | apply setparam_dl_frame] : preserve.

(** * The task under change *)

(** What is tracked of the task: everything but its clamp requests. *)
Definition ss_view (t : task_struct) : task_struct :=
  (task_attrs t) <| ts_uclamp_req := PerClamp (Mk_uclamp_se 0 0 false false) (Mk_uclamp_se 0 0 false false) |>.

(** Tasks other than [p] keep their attributes. *)
Definition others_kept (p : Z) (m m' : machine) : Prop :=
  delete p (task_attrs <$> m_tasks m) = delete p (task_attrs <$> m_tasks m').

#[export] Instance others_kept_equiv p : Equivalence (others_kept p).
Proof. unfold others_kept. split; repeat intro; congruence. Qed.

Lemma class_others p m m' : class_frame m m' -> others_kept p m m'.
Proof. intros (E & _). unfold others_kept. by rewrite E. Qed.

Definition inactive (m : machine) (p : Z) : Prop :=
  forall t, m_tasks m !! p = Some t -> uc_active (pc_get UCLAMP_MIN (ts_uclamp t)) = false.

Lemma inactive_off m p : inactive m p -> clamp_off m p.
Proof. by intros Hi _. Qed.

Lemma inactive_quiet m m' p : quiet_frame m m' -> inactive m p -> inactive m' p.
Proof.
  intros F Hi t' Ht'. assert (F' : quiet_frame m' m) by (by symmetry).
  destruct (frame_task _ _ _ _ _ _ _ F' Ht') as (t & Ht & E).
  rewrite (f_equal ts_uclamp E : ts_uclamp t' = ts_uclamp t). by apply Hi.
Qed.

Section SetschedProofs.
Context {H : Headers} {X : Extern} {Mg : MigrateExtern} {Sx : SetschedExtern}.
Context {HOK : HeadersOK H} {XOK : ExternOK X} {XS : ExternSafe X} {SOK : SetschedExternOK X}.

(** A task that is in no bucket may change class and requests. *)
Lemma kernel_ok_retask m p t t' :
  kernel_ok m -> m_tasks m !! p = Some t -> uc_active (pc_get UCLAMP_MIN (ts_uclamp t)) = false ->
  ts_cpu t' = ts_cpu t -> ts_task_group t' = ts_task_group t -> ts_uclamp t' = ts_uclamp t ->
  (forall id, wf_se (pc_get id (ts_uclamp_req t'))) ->
  kernel_ok (m <| m_tasks := <[p := t']> (m_tasks m) |>).
Proof.
  intros [Hn Hr Htk Hth [Hrq Hpair] Hc Ha] Ht Hoff Ec Eg Eu Hreq.
  assert (Hon : forall c x, task_on m c x -> task_on (m <| m_tasks := <[p := t']> (m_tasks m) |>) c x).
  { intros c x (tx & Htx & Hx). unfold task_on. cbn. rewrite lookup_insert. case_decide as E; [|by exists tx].
    subst x. exists t'. split; [done|]. rewrite Ht in Htx. injection Htx as <-. congruence. }
  split; cbn.
  - rewrite lookup_insert_ne; [done|]. intros ->. congruence.
  - intros c q Hq. destruct (Hr c q Hq) as (? & ? & ?). auto.
  - intros p' t0. rewrite lookup_insert. case_decide as E; [|by apply Htk].
    intros [= <-]. rewrite Ec, Eg. by apply (Htk p t).
  - done.
  - split.
    + intros c q Hq. eapply rq_clamps_ok_perm; [|exact (Hrq c q Hq)]. intros id. symmetry. cbn.
      apply active_same with t; [done|]. unfold contrib. by rewrite Ec, Eu.
    + intros p' t0. cbn. rewrite lookup_insert. case_decide as E; [|by apply Hpair].
      intros [= <-]. unfold paired. rewrite Eu. by apply (Hpair p t).
  - destruct Hc as (H1 & H2 & H3). split; [|by split]. intros p' t0 id. cbn. rewrite lookup_insert.
    case_decide as E; [|by apply H1]. intros [= <-]. apply Hreq.
  - intros p' t0. rewrite lookup_insert. case_decide as E; [|by apply Ha].
    intros [= <-]. rewrite Eu. cbn in *. congruence.
Qed.

Record ss_at (m : machine) (r p : Z) (u : task_struct) (m' : machine) : Prop := Mk_ss_at {
  at_ok : kernel_ok m';
  at_on : task_on m' r p;
  at_off : inactive m' p;
  at_others : others_kept p m m';
  at_now : exists t', m_tasks m' !! p = Some t' /\ ss_view t' = ss_view u;
  at_rt_default : 0 <= m_uclamp_util_min_rt_default m' <= SCHED_CAPACITY_SCALE;
}.

Lemma at_quiet m r p u m1 m2 : quiet_frame m1 m2 -> ss_at m r p u m1 -> ss_at m r p u m2.
Proof.
  intros F [Hok Hon Hoff Ho (t1 & Ht1 & E1) Hd].
  destruct (frame_task _ _ _ _ _ _ _ F Ht1) as (t2 & Ht2 & E2). split.
  - by eapply kernel_ok_quiet.
  - by eapply task_on_quiet.
  - by eapply inactive_quiet.
  - etransitivity; [exact Ho|]. by apply class_others, quiet_class_frame.
  - exists t2. split; [done|]. rewrite <- E1. exact (eq_sym (f_equal ss_view E2)).
  - assert (Eg : globals m1 = globals m2) by apply F. unfold globals in Eg.
    by assert (m_uclamp_util_min_rt_default m2 = m_uclamp_util_min_rt_default m1) as -> by congruence.
Qed.

Lemma at_view m r p u u' m1 : ss_view u = ss_view u' -> ss_at m r p u m1 -> ss_at m r p u' m1.
Proof. intros E [? ? ? ? (t & ? & ?) ?]. split; try done. exists t. split; [done | congruence]. Qed.

Lemma wp_at_quiet {A} (c : K A) m r p u m1 (Q : A -> machine -> Prop) :
  ss_at m r p u m1 -> returns c m1 -> preserves quiet_frame c ->
  (forall a m2, ss_at m r p u m2 -> Q a m2) -> wp c Q m1.
Proof.
  intros Ha Hr Hp HQ. eapply wp_call; [exact Hr | exact Hp |]. intros a m2 _ F. apply HQ. by eapply at_quiet.
Qed.

(** An update of the task. *)
Definition keeps_place (g : task_struct -> task_struct) : Prop := forall t,
  ts_cpu (g t) = ts_cpu t /\ ts_task_group (g t) = ts_task_group t /\ ts_uclamp (g t) = ts_uclamp t /\
  ((forall id, wf_se (pc_get id (ts_uclamp_req t))) -> forall id, wf_se (pc_get id (ts_uclamp_req (g t)))).

Lemma wp_at_upd p g m r u m1 (Q : unit -> machine -> Prop) :
  ss_at m r p u m1 -> keeps_place g ->
  (forall t t', ss_view t = ss_view t' -> ss_view (g t) = ss_view (g t')) ->
  (forall m2, ss_at m r p (g u) m2 -> Q tt m2) -> wp (upd_obj (R := task_struct) p g) Q m1.
Proof.
  intros [Hok Hon Hoff Ho (t1 & Ht1 & E1) Hd] Hg Hv HQ. apply wp_upd_obj. exists t1. split; [done|].
  destruct (Hg t1) as (Ec & Eg & Eu & Hw). apply HQ. split.
  - eapply kernel_ok_retask; [done | exact Ht1 | by apply Hoff | done | done | done |].
    apply Hw. intros id. by apply (proj1 (ok_clamps m1 Hok) p t1 id).
  - destruct Hon as (t' & Ht' & Hc'). rewrite Ht1 in Ht'. injection Ht' as <-.
    exists (g t1). split; [apply lookup_insert_eq | congruence].
  - intros t'. cbn. rewrite lookup_insert_eq. intros [= <-]. rewrite Eu. by apply Hoff.
  - etransitivity; [exact Ho|]. unfold others_kept. cbn. by rewrite fmap_insert, delete_insert_eq.
  - exists (g t1). split; [apply lookup_insert_eq | by apply Hv].
  - done.
Qed.

Lemma at_task m r p u m1 : ss_at m r p u m1 -> exists t, m_tasks m1 !! p = Some t /\ ss_view t = ss_view u.
Proof. by intros []. Qed.

(** ** Off the run queue *)

(** With clamping unused the accounting does nothing. *)
Lemma wp_dequeue_unused r p f m (Q : unit -> machine -> Prop) :
  kernel_ok m -> task_on m r p -> m_uclamp_used m = false ->
  (forall m', kernel_ok m' -> quiet_frame m m' -> Q tt m') -> wp (dequeue_task r p f) Q m.
Proof.
  intros Hok Hon Hu HQ. unfold dequeue_task.
  apply wp_queue_head; [done | by apply (task_on_live m r p) |]. intros m1 Hok1 F1.
  assert (Hu1 : m_uclamp_used m1 = false).
  { assert (Eg : globals m = globals m1) by apply F1. unfold globals in Eg. congruence. }
  pose proof (task_on_quiet _ _ _ _ F1 Hon) as Hon1. destruct (Hon1) as (t & Ht & _).
  apply wp_bind. unfold uclamp_rq_dec. apply wp_bind, wp_gets. rewrite Hu1. cbn [negb].
  apply wp_ret, wp_bind, wp_rd. exists t. split; [done|].
  apply wp_quiet; [done | by apply dequeue_returns, task_on_live | auto with preserve |].
  intros [] m2 Hok2 F2. apply HQ; [done | by transitivity m1].
Qed.

(** The clamps of [p] are accounted only while it is queued and clamping is in
    use. *)
Definition accounted_queued (m : machine) (p : Z) : Prop := forall t, m_tasks m !! p = Some t ->
  uc_active (pc_get UCLAMP_MIN (ts_uclamp t)) = true -> task_on_rq_queued t = true /\ m_uclamp_used m = true.

Lemma wp_off_queue (running : bool) f r p m t {A} (k : K A) Q :
  kernel_ok m -> m_tasks m !! p = Some t -> ts_cpu t = r -> accounted_queued m p ->
  (forall m1, kernel_ok m1 -> queue_frame m m1 -> task_on m1 r p -> inactive m1 p -> wp k Q m1) ->
  wp (when (task_on_rq_queued t) (dequeue_task r p f) ;; when running (put_prev_task r p) ;; k) Q m.
Proof.
  intros Hok Ht Hc Hacc Hk. assert (Hon : task_on m r p) by (by exists t).
  assert (Hput : forall m1, kernel_ok m1 -> queue_frame m m1 -> inactive m1 p ->
    wp (when running (put_prev_task r p) ;; k) Q m1).
  { intros m1 Hok1 F1 Hi. pose proof (task_on_queue _ _ _ _ F1 Hon) as Hon1. apply wp_bind, wp_when.
    destruct running; [|by apply Hk]. apply wp_put_prev_task; [done | by apply task_on_live |].
    intros m2 Hok2 F2. apply Hk; [done | etransitivity; [exact F1 | by apply quiet_queue_frame]
      | by eapply task_on_quiet | by eapply inactive_quiet]. }
  apply wp_bind, wp_when. destruct (task_on_rq_queued t) eqn:Eq.
  2: { apply Hput; [done | done |]. intros t' Ht'. rewrite Ht in Ht'. injection Ht' as <-.
       apply not_true_is_false. intros Hact. destruct (Hacc t Ht Hact). congruence. }
  destruct (m_uclamp_used m) eqn:Eu.
  - apply wp_dequeue_task; [done | done |]. intros m1 Hok1 F1 Hoff. apply Hput; [done | done |].
    intros t' Ht'. apply Hoff; [|done]. assert (Eg : globals m = globals m1) by apply F1. unfold globals in Eg. congruence.
  - apply wp_dequeue_unused; [done | done | done |]. intros m1 Hok1 F1.
    apply Hput; [done | by apply quiet_queue_frame |]. eapply inactive_quiet; [exact F1|].
    intros t' Ht'. rewrite Ht in Ht'. injection Ht' as <-.
    apply not_true_is_false. intros Hact. destruct (Hacc t Ht Hact). congruence.
Qed.

(** ** The parameters *)
Lemma view_eq {E} (f : task_struct -> E) (u t : task_struct) :
  (forall x, f (ss_view x) = f x) -> ss_view u = ss_view t -> f u = f t.
Proof. intros Hf E1. by rewrite <- (Hf u), E1, (Hf t). Qed.

Ltac place := let t := fresh in intros t; split_and!; [reflexivity.. | intros Hw; exact Hw].
Ltac upd_view := let x := fresh in let x' := fresh in let E := fresh in
  intros x x' E; match goal with |- ss_view (?g x) = ss_view (?g x') => exact (f_equal g E) end.

Lemma wp_at_load_weight p b m r u m1 (Q : unit -> machine -> Prop) :
  ss_at m r p u m1 -> 100 <= ts_static_prio u <= 139 ->
  (forall m2, ss_at m r p u m2 -> Q tt m2) -> wp (set_load_weight p b) Q m1.
Proof.
  intros Ha Hs HQ. destruct (at_task _ _ _ _ _ Ha) as (t & Ht & E).
  assert (Es : ts_static_prio t = ts_static_prio u) by (by apply view_eq).
  unfold set_load_weight. apply wp_bind, wp_deref. exists t. split; [done|].
  rewrite MAX_RT_PRIO_val, Es.
  assert (Hq : forall g, (forall t, task_quiet (g t) = task_quiet t) -> wp (upd_obj (R := task_struct) p g) Q m1).
  { intros g Hg. eapply wp_at_quiet; [exact Ha | by apply wp_upd_obj; eauto | by apply frame_upd_task | intros []; apply HQ]. }
  case_match; [by apply Hq|]. case_match.
  - eapply wp_at_quiet; [exact Ha | apply reweight_returns; [apply Ha | by eexists] | auto with preserve | intros []; apply HQ].
  - destruct (lookup_lt_is_Some_2 sched_prio_to_weight (Z.to_nat (ts_static_prio u - 100))) as [w Hw]; [cbn; lia|].
    destruct (lookup_lt_is_Some_2 sched_prio_to_wmult (Z.to_nat (ts_static_prio u - 100))) as [v Hv]; [cbn; lia|].
    unfold table_get. replace (ts_static_prio u - 100 <? 0) with false by lia. rewrite Hw, Hv.
    apply wp_bind, wp_ret, wp_bind, wp_ret. by apply Hq.
Qed.

(** The task after __setscheduler_params(). *)
Definition with_params (t : task_struct) (attr : sched_attr) : task_struct :=
  let policy := if attr_policy attr =? SETPARAM_POLICY then ts_policy t else attr_policy attr in
  let t := t <| ts_policy := policy |> in
  let t := if (negb (dl_policy policy) && fair_policy policy)%bool
           then t <| ts_static_prio := NICE_TO_PRIO (sa_nice attr) |> else t in
  let t := t <| ts_rt_priority := sa_priority attr |> in
  t <| ts_normal_prio := normal_prio t |>.

(** Nice values and static priorities are in range. *)
Definition nice_range (t : task_struct) (attr : sched_attr) : Prop :=
  100 <= ts_static_prio t <= 139 /\ -20 <= sa_nice attr <= 19.

Lemma wp_at_params p attr m r u m1 (Q : unit -> machine -> Prop) :
  ss_at m r p u m1 -> nice_range u attr ->
  (forall m2, ss_at m r p (with_params u attr) m2 -> Q tt m2) -> wp (__setscheduler_params p attr) Q m1.
Proof.
  intros Ha [Hs Hn] HQ. destruct (at_task _ _ _ _ _ Ha) as (t & Ht & E).
  assert (Ep : ts_policy t = ts_policy u) by (by apply view_eq).
  unfold __setscheduler_params. apply wp_bind, wp_deref. exists t. split; [done|]. rewrite Ep. cbv zeta.
  set (policy := if attr_policy attr =? SETPARAM_POLICY then ts_policy u else attr_policy attr).
  apply wp_bind. eapply wp_at_upd; [exact Ha | place | upd_view |]. cbv beta.
  intros m2 Ha2. set (u1 := u <| ts_policy := policy |>) in *.
  assert (Hrest : forall u2 m3, ss_at m r p u2 m3 -> 100 <= ts_static_prio u2 <= 139 ->
    (let t := u2 <| ts_rt_priority := sa_priority attr |> in
     t <| ts_normal_prio := normal_prio t |> = with_params u attr) ->
    wp (set! p ⇝ ts_rt_priority := sa_priority attr ;; t ← deref (R := task_struct) p;
        set! p ⇝ ts_normal_prio := normal_prio t ;; set_load_weight p true) Q m3).
  { intros u2 m3 Ha3 Hs2 Eu. apply wp_bind. eapply wp_at_upd; [exact Ha3 | place | upd_view |]. cbv beta.
    intros m4 Ha4. destruct (at_task _ _ _ _ _ Ha4) as (t4 & Ht4 & E4).
    apply wp_bind, wp_deref. exists t4. split; [done|].
    rewrite (view_eq normal_prio t4 _ (fun _ => eq_refl) E4).
    apply wp_bind. eapply wp_at_upd; [exact Ha4 | place | upd_view |]. cbv beta.
    intros m5 Ha5. cbv zeta in Eu. rewrite Eu in Ha5.
    eapply wp_at_load_weight; [exact Ha5 | rewrite <- Eu; cbn; lia | done]. }
  apply wp_bind. destruct (dl_policy policy) eqn:Ed.
  - eapply wp_at_quiet; [exact Ha2 | apply setparam_dl_returns; [apply Ha2 |] | auto with preserve |].
    + destruct (at_task _ _ _ _ _ Ha2) as (? & ? & _). by eexists.
    + intros [] m3 Ha3. apply (Hrest u1 m3 Ha3 Hs). cbv zeta. unfold with_params, u1. fold policy. by rewrite Ed.
  - apply wp_when. destruct (fair_policy policy) eqn:Ef.
    + eapply wp_at_upd; [exact Ha2 | place | upd_view |]. cbv beta. intros m3 Ha3.
      apply (Hrest _ m3 Ha3); [cbn; rewrite NICE_TO_PRIO_val; lia|]. cbv zeta. unfold with_params, u1. fold policy.
      by rewrite Ed, Ef.
    + apply (Hrest u1 m2 Ha2 Hs). cbv zeta. unfold with_params, u1. fold policy. by rewrite Ed, Ef.
Qed.

(** The class a priority selects. *)
Definition class_of_prio (prio : Z) : sched_class :=
  if dl_prio prio then dl_sched_class else if rt_prio prio then rt_sched_class else fair_sched_class.

Lemma wp_at_prio p prio m r u m1 (Q : unit -> machine -> Prop) :
  ss_at m r p u m1 ->
  (forall m2, ss_at m r p (u <| ts_class := class_of_prio prio |> <| ts_prio := prio |>) m2 -> Q tt m2) ->
  wp (__setscheduler_prio p prio) Q m1.
Proof.
  intros Ha HQ. unfold __setscheduler_prio. apply wp_bind.
  assert (Hset : forall c, wp (set! p ⇝ ts_class := c)
    (fun _ m2 => ss_at m r p (u <| ts_class := c |>) m2) m1).
  { intros c. eapply wp_at_upd; [exact Ha | place | upd_view | done]. }
  eapply wp_mono with (Q := fun _ m2 => ss_at m r p (u <| ts_class := class_of_prio prio |>) m2).
  - unfold class_of_prio. destruct (dl_prio prio); [apply Hset|]. destruct (rt_prio prio); apply Hset.
  - intros [] m2 Ha2. eapply wp_at_upd; [exact Ha2 | place | upd_view | done].
Qed.

(** ** Clamp requests *)
Lemma wp_at_req p id v b m r u m1 (Q : unit -> machine -> Prop) :
  ss_at m r p u m1 -> 0 <= v <= SCHED_CAPACITY_SCALE -> (forall m2, ss_at m r p u m2 -> Q tt m2) ->
  wp (upd_uclamp_req p id (fun x => uclamp_se_set x v b)) Q m1.
Proof.
  intros Ha Hv HQ. eapply wp_at_upd; [exact Ha | | |].
  - intros t. split_and!; [done.. |]. intros Hw id'. cbn.
    destruct id, id'; cbn; try (by apply wf_se_set); try apply (Hw UCLAMP_MIN); apply (Hw UCLAMP_MAX).
  - intros t t' E. exact E.
  - intros m2 Ha2. apply HQ. by eapply at_view; [|exact Ha2].
Qed.

(** The clamps asked for are capacities, or unset. *)
Definition clamp_range (attr : sched_attr) : Prop :=
  (has_flag (sa_flags attr) SCHED_FLAG_UTIL_CLAMP_MIN = true -> sa_util_min attr <> util_unset ->
    0 <= sa_util_min attr <= SCHED_CAPACITY_SCALE) /\
  (has_flag (sa_flags attr) SCHED_FLAG_UTIL_CLAMP_MAX = true -> sa_util_max attr <> util_unset ->
    0 <= sa_util_max attr <= SCHED_CAPACITY_SCALE).

Lemma uclamp_none_range id : 0 <= uclamp_none id <= SCHED_CAPACITY_SCALE.
Proof. by destruct id. Qed.

Lemma wp_at_uclamp p attr m r u m1 (Q : unit -> machine -> Prop) :
  ss_at m r p u m1 -> clamp_range attr -> (forall m2, ss_at m r p u m2 -> Q tt m2) ->
  wp (__setscheduler_uclamp p attr) Q m1.
Proof.
  intros Ha [Hmin Hmax] HQ. unfold __setscheduler_uclamp. apply wp_bind.
  apply (wp_mapM_inv (ss_at m r p u)); [| done |].
  - intros id m2 _ Ha2. destruct (at_task _ _ _ _ _ Ha2) as (t & Ht & _).
    apply wp_bind, wp_deref. exists t. split; [done|]. destruct (negb _); [by apply wp_ret|].
    apply wp_bind, wp_gets. eapply wp_at_req; [exact Ha2 | | done].
    destruct (_ && _)%bool; [apply Ha2 | apply uclamp_none_range].
  - intros m2 Ha2. apply wp_if. destruct (negb _); [by apply wp_ret, HQ|].
    assert (Hlast : forall m3, ss_at m r p u m3 ->
      wp (when (has_flag (sa_flags attr) SCHED_FLAG_UTIL_CLAMP_MAX && negb (sa_util_max attr =? util_unset))
        (upd_uclamp_req p UCLAMP_MAX (fun x => uclamp_se_set x (sa_util_max attr) true))) Q m3).
    { intros m3 Ha3. apply wp_when. destruct (_ && _)%bool eqn:E; [|by apply HQ].
      apply andb_prop in E as [E1 E2]. eapply wp_at_req; [exact Ha3 | apply Hmax; [done | lia] | done]. }
    apply wp_bind, wp_when. match goal with |- if ?c then _ else _ => destruct c eqn:E end; [|by apply Hlast].
    apply andb_prop in E as [E1 E2]. eapply wp_at_req; [exact Ha2 | apply Hmin; [done | lia] | done].
Qed.

(** The task after the change, with effective priority [prio]. *)
Definition changed (t : task_struct) (attr : sched_attr) (prio : Z) : task_struct :=
  if has_flag (sa_flags attr) SCHED_FLAG_KEEP_PARAMS then t
  else (with_params t attr) <| ts_class := class_of_prio prio |> <| ts_prio := prio |>.

Lemma wp_at_update p attr prio m r u m1 (Q : unit -> machine -> Prop) :
  ss_at m r p u m1 -> nice_range u attr -> clamp_range attr ->
  (forall m2, ss_at m r p (changed u attr prio) m2 -> Q tt m2) -> wp (setscheduler_update p attr prio) Q m1.
Proof.
  intros Ha Hn Hc HQ. unfold setscheduler_update. apply wp_bind, wp_when. unfold changed in HQ.
  destruct (has_flag _ _) eqn:E; cbn [negb].
  - by eapply wp_at_uclamp.
  - apply wp_bind. eapply wp_at_params; [exact Ha | done |]. intros m2 Ha2.
    eapply wp_at_prio; [exact Ha2|]. intros m3 Ha3. by eapply wp_at_uclamp.
Qed.

(** ** Back on the run queue, and the end of the call *)
Record ss_end (kept : bool) (m : machine) (r p : Z) (u : task_struct) (m' : machine) : Prop := Mk_ss_end {
  end_ok : kernel_ok m';
  end_rq : is_Some (m_rqs m' !! r);
  end_others : kept = true -> others_kept p m m';
  end_now : exists t', m_tasks m' !! p = Some t' /\ ss_view t' = ss_view u;
}.

Lemma end_class b m r p u m1 m2 : class_frame m1 m2 -> kernel_ok m2 -> ss_end b m r p u m1 -> ss_end b m r p u m2.
Proof.
  intros F Hok [_ [q Hq] Ho (t1 & Ht1 & E1)]. destruct (frame_task _ _ _ _ _ _ _ F Ht1) as (t2 & Ht2 & E2).
  destruct (frame_rq _ _ _ _ _ _ _ F Hq) as (q2 & Hq2 & _). split; [done | by eexists | |].
  - intros Hb. etransitivity; [by apply Ho | by apply class_others].
  - exists t2. split; [done|]. rewrite <- E1. exact (eq_sym (f_equal ss_view E2)).
Qed.

Lemma wp_end_quiet {A} (c : K A) b m r p u m1 (Q : A -> machine -> Prop) :
  ss_end b m r p u m1 -> returns c m1 -> preserves quiet_frame c ->
  (forall a m2, ss_end b m r p u m2 -> Q a m2) -> wp c Q m1.
Proof.
  intros Ha Hr Hp HQ. apply wp_quiet; [apply Ha | done | done |]. intros a m2 Hok F. apply HQ.
  eapply end_class; [by apply quiet_class_frame | done | done].
Qed.

Lemma frame_class_changed r p c o : preserves quiet_frame (check_class_changed r p c o).
Proof. unfold check_class_changed. keep. Qed.

Lemma class_changed_returns r p c o m : kernel_ok m -> live m r p -> returns (check_class_changed r p c o) m.
Proof.
  intros Hok Hl. destruct (Hl) as [_ [t Ht]]. unfold check_class_changed.
  apply wp_bind, wp_deref. exists t. split; [done|]. destruct (negb (class_eqb c (ts_class t))).
  - assert (Hto : forall m1, kernel_ok m1 -> live m1 r p ->
      wp (c ← p ⇝ ts_class; cl_switched_to c r p) (fun _ _ => True) m1).
    { intros m1 Hok1 Hl1. destruct (Hl1) as [_ [t1 Ht1]]. apply wp_bind, wp_rd. exists t1. split; [done|].
      by apply switched_to_returns. }
    apply wp_bind, wp_when. destruct (has_switched_from c); [|by apply Hto].
    apply wp_quiet; [done | by apply switched_from_returns | auto with preserve |].
    intros [] m1 Hok1 F1. apply Hto; [done | by eapply live_frame].
  - apply wp_when. destruct (_ || _)%bool; [by apply prio_changed_returns | done].
Qed.

(** From splice_balance_callbacks() on. *)
Lemma wp_ss_tail pi m r p u m1 (Q : unit -> machine -> Prop) :
  ss_end true m r p u m1 -> (forall m2, ss_end (negb pi) m r p u m2 -> Q tt m2) ->
  wp (emit "preempt_disable" [] ;; head ← splice_balance_callbacks r;
      when pi (emit "cpuset_read_unlock" [] ;; rt_mutex_adjust_pi p) ;;
      balance_callbacks r head ;; emit "preempt_enable" []) Q m1.
Proof.
  intros He HQ.
  assert (Hcb : forall head m2, ss_end (negb pi) m r p u m2 ->
    wp (balance_callbacks r head ;; emit "preempt_enable" []) Q m2).
  { intros head m2 He2. apply wp_bind.
    assert (Hrun : wp (do_balance_callbacks r head) (fun _ => ss_end (negb pi) m r p u) m2).
    { apply wp_run_callbacks; [apply He2 | apply He2 |]. intros m3 Hok3 F3. by eapply end_class. }
    eapply wp_mono with (Q := fun _ => ss_end (negb pi) m r p u).
    - destruct head; [by apply wp_ret | exact Hrun].
    - intros [] m3 He3. eapply wp_end_quiet; [exact He3 | done | auto with preserve | by intros []]. }
  apply wp_bind. eapply wp_end_quiet; [exact He | done | auto with preserve |]. intros [] m2 He2.
  unfold splice_balance_callbacks. destruct (end_rq _ _ _ _ _ _ He2) as [q Hq].
  apply wp_bind, wp_bind, wp_rd. exists q. split; [done|].
  assert (Hnext : forall m3, ss_end true m r p u m3 ->
    wp (when pi (emit "cpuset_read_unlock" [] ;; rt_mutex_adjust_pi p) ;;
        balance_callbacks r (rq_balance_callback q) ;; emit "preempt_enable" []) Q m3).
  { intros m3 He3. apply wp_bind, wp_when. destruct pi; [|by apply Hcb].
    apply wp_bind. eapply wp_end_quiet; [exact He3 | done | auto with preserve |]. intros [] m4 He4.
    destruct (end_now _ _ _ _ _ _ He4) as (t4 & Ht4 & E4).
    eapply wp_mono; [by eapply adjust_pi_ok; [apply He4 | exact Ht4]|].
    intros [] m5 (Hok5 & Er & t5 & Ht5 & E5). apply Hcb. split; [done | | done |].
    - destruct (end_rq _ _ _ _ _ _ He4) as [q4 Hq4].
      destruct (fmap_lookup_agree rq_attrs _ _ r q4 Er Hq4) as (q5 & ? & _). by eexists.
    - exists t5. split; [done|]. rewrite <- E4. unfold ss_view. by rewrite E5. }
  apply wp_bind, wp_when. destruct (rq_balance_callback q) eqn:Eh; [by apply wp_ret, Hnext|].
  apply wp_wr. exists q. split; [done|]. apply wp_ret, Hnext.
  eapply end_class; [by apply frame_set_rq with q | | exact He2].
  eapply kernel_ok_rq; [apply He2 | exact Hq | done].
Qed.

(** ** The effective priority of a boosted task *)
Lemma wp_effective (pi : bool) p np m (Q : Z -> machine -> Prop) :
  kernel_ok m -> is_Some (m_tasks m !! p) ->
  (forall prio m', kernel_ok m' -> quiet_frame m m' -> prio <= np -> (pi = false -> prio = np) -> Q prio m') ->
  wp (if pi then rt_effective_prio p np else mret np) Q m.
Proof.
  intros Hok Hp HQ. destruct pi; [|by apply wp_ret, HQ].
  unfold rt_effective_prio, __rt_effective_prio. apply wp_bind.
  eapply wp_call; [by apply top_task_live | apply top_task_frame |]. intros q m1 Hq F1.
  assert (Hok1 : kernel_ok m1) by (by eapply kernel_ok_quiet).
  destruct (Z.eqb_spec q NULL) as [_ | Hne]; [by apply wp_ret, HQ|].
  destruct Hq as [-> | [tq Htq]]; [done|]. apply wp_bind, wp_rd. exists tq. split; [done|].
  apply wp_ret, HQ; [done | done | lia | done].
Qed.

Lemma others_set p t' m : others_kept p m (m <| m_tasks := <[p := t']> (m_tasks m) |>).
Proof. unfold others_kept. cbn. by rewrite fmap_insert, delete_insert_eq. Qed.

(** The part after the last check. *)
Lemma wp_apply r p attr rq pi m t (Q : unit -> machine -> Prop) :
  kernel_ok m -> m_tasks m !! p = Some t -> ts_cpu t = r -> accounted_queued m p ->
  nice_range t attr -> clamp_range attr -> 0 <= m_uclamp_util_min_rt_default m <= SCHED_CAPACITY_SCALE ->
  (forall m' prio, prio <= __normal_prio (ss_policy rq) (sa_priority attr) (sa_nice attr) ->
    (pi = false -> prio = __normal_prio (ss_policy rq) (sa_priority attr) (sa_nice attr)) ->
    ss_end (negb pi) m r p (changed (t <| ts_sched_reset_on_fork := ss_reset rq |>) attr prio) m' -> Q tt m') ->
  wp (setscheduler_apply r p attr rq pi) Q m.
Proof.
  intros Hok Ht Hc Hacc Hn Hcl Hd HQ. unfold setscheduler_apply.
  set (t1 := t <| ts_sched_reset_on_fork := ss_reset rq |>).
  set (m1 := m <| m_tasks := <[p := t1]> (m_tasks m) |>).
  assert (Hok1 : kernel_ok m1) by (by eapply kernel_ok_task).
  assert (Ht1 : m_tasks m1 !! p = Some t1) by apply lookup_insert_eq.
  apply wp_bind, wp_wr. exists t. split; [done|]. apply wp_bind, wp_rd. exists t1. split; [done|]. cbv zeta.
  apply wp_bind, wp_effective; [done | by eexists |]. intros prio m2 Hok2 F2 Hle Heq. cbv zeta.
  destruct (frame_task _ _ _ _ _ _ _ F2 Ht1) as (t2 & Ht2 & E2).
  assert (Hc2 : ts_cpu t2 = r) by (rewrite <- Hc; exact (eq_sym (f_equal ts_cpu E2))).
  destruct (ok_tasks m2 Hok2 p t2 Ht2) as [[q2 Hq2] _]. rewrite Hc2 in Hq2.
  apply wp_bind, wp_deref. exists t2. split; [done|].
  unfold task_current. apply wp_bind, wp_bind, wp_rd. exists q2. split; [done|]. apply wp_ret.
  apply wp_off_queue; [done | done | done | |].
  { intros t' Ht' Hact. rewrite Ht2 in Ht'. injection Ht' as <-.
    rewrite <- (f_equal ts_uclamp E2 : ts_uclamp t1 = ts_uclamp t2) in Hact.
    destruct (Hacc t Ht Hact) as [Hq Hu]. split.
    - unfold task_on_rq_queued. by rewrite <- (f_equal ts_on_rq E2 : ts_on_rq t1 = ts_on_rq t2).
    - assert (Eg : globals m1 = globals m2) by apply F2. unfold globals in Eg.
      assert (m_uclamp_used m1 = m_uclamp_used m) by done. congruence. }
  intros m3 Hok3 F3 Hon3 Hi3.
  assert (Ha3 : ss_at m r p t1 m3).
  { split; [done | done | done | | |].
    - etransitivity; [apply (others_set p t1)|]. etransitivity; [by apply class_others, quiet_class_frame|].
      by apply class_others, queue_class_frame.
    - destruct (frame_task _ _ _ _ _ _ _ F3 Ht2) as (t3 & Ht3 & E3). exists t3. split; [done|].
      transitivity (ss_view t2); [exact (eq_sym (f_equal ss_view E3)) | exact (eq_sym (f_equal ss_view E2))].
    - assert (Eg : globals m1 = globals m3) by (transitivity (globals m2); [apply F2 | apply F3]). unfold globals in Eg.
      by assert (m_uclamp_util_min_rt_default m3 = m_uclamp_util_min_rt_default m1) as -> by congruence. }
  destruct (at_task _ _ _ _ _ Ha3) as (t3 & Ht3 & _). apply wp_bind, wp_rd. exists t3. split; [done|].
  apply wp_bind. eapply wp_at_update; [exact Ha3 | done | done |]. intros m4 Ha4.
  destruct (at_task _ _ _ _ _ Ha4) as (t4 & Ht4 & E4). apply wp_bind, wp_rd. exists t4. split; [done|].
  apply wp_queue_back; [apply Ha4 | apply Ha4 | intros _; apply inactive_off, Ha4 |]. intros m5 Hok5 F5 Hon5.
  assert (He5 : ss_end true m r p (changed t1 attr prio) m5).
  { eapply (end_class true m r p _ m4); [by apply queue_class_frame | done |].
    split; [apply Ha4 | apply (task_on_live m4 r p); apply Ha4 | intros _; apply Ha4 | by exists t4]. }
  apply wp_bind. eapply wp_end_quiet; [exact He5 | | apply frame_class_changed |].
  { apply class_changed_returns; [done | by apply task_on_live]. }
  intros [] m6 He6. eapply wp_ss_tail; [exact He6|]. intros m7 He7. by eapply HQ.
Qed.

(** * The checks *)

(** Nothing but class-private state changed, and clamping may have been switched
    on. *)
Definition asked (m m' : machine) : Prop :=
  exists b, (b = m_uclamp_used m \/ b = true) /\ quiet_frame (m <| m_uclamp_used := b |>) m'.

Lemma asked_quiet m m1 : quiet_frame m m1 -> asked m m1.
Proof. intros F. exists (m_uclamp_used m). split; [by left|]. destruct F as (? & ? & ?). by repeat split. Qed.

Lemma asked_trans m m1 m2 : asked m m1 -> quiet_frame m1 m2 -> asked m m2.
Proof. intros (b & Hb & F) F2. exists b. split; [done|]. by transitivity m1. Qed.

Lemma asked_task m m1 p t : asked m m1 -> m_tasks m !! p = Some t ->
  exists t1, m_tasks m1 !! p = Some t1 /\ task_quiet t = task_quiet t1.
Proof. intros (b & _ & F) Ht. by eapply frame_task; [exact F|]. Qed.

Lemma asked_rq m m1 r q : asked m m1 -> m_rqs m !! r = Some q ->
  exists q1, m_rqs m1 !! r = Some q1 /\ rq_quiet q = rq_quiet q1.
Proof. intros (b & _ & F) Hq. by eapply frame_rq; [exact F|]. Qed.

Lemma asked_others p m m1 : asked m m1 -> others_kept p m m1.
Proof. intros (b & _ & F). exact (class_others p _ _ (quiet_class_frame _ _ F)). Qed.

(** Outcome of one step of the checks. *)
Lemma wp_asked {A} (c : K A) m m1 (Q : A -> machine -> Prop) :
  asked m m1 -> kernel_ok m1 -> returns c m1 -> preserves quiet_frame c ->
  (forall a m2, asked m m2 -> kernel_ok m2 -> Q a m2) -> wp c Q m1.
Proof.
  intros Ha Hok Hr Hp HQ. apply wp_quiet; [done | done | done |]. intros a m2 Hok2 F. apply HQ; [|done].
  by eapply asked_trans.
Qed.

Section Limits.
(** The privileges of the caller and the limits of the task. *)
Context (p : Z) (cap : bool) (lim_nice lim_rt : Z).
Context (Hcap : forall m, capable_sys_nice m = Ret cap m).
Context (Hnice : forall m, rlimit_nice p m = Ret lim_nice m).
Context (Hrt : forall m, rlimit_rtprio p m = Ret lim_rt m).

Definition wanted_policy (t : task_struct) (attr : sched_attr) : Z :=
  if attr_policy attr <? 0 then ts_policy t else attr_policy attr.
Definition wanted_reset (t : task_struct) (attr : sched_attr) : bool :=
  if attr_policy attr <? 0 then ts_sched_reset_on_fork t else has_flag (sa_flags attr) SCHED_FLAG_RESET_ON_FORK.

(** What a caller without privileges gets: it owns the task, does not ask for
    SCHED_DEADLINE, and raises nothing beyond the task's limits. *)
Record granted (tc t : task_struct) (attr : sched_attr) (policy : Z) (reset : bool) : Prop := {
  gr_owner : ts_euid tc = ts_euid t \/ ts_euid tc = ts_uid t;
  gr_dl : dl_policy policy = false;
  gr_nice : fair_policy policy = true -> task_nice t <= sa_nice attr \/ nice_to_rlimit (sa_nice attr) <= lim_nice;
  gr_rt_policy : rt_policy policy = true -> policy = ts_policy t \/ lim_rt <> 0;
  gr_rt_prio : rt_policy policy = true -> sa_priority attr <= ts_rt_priority t \/ sa_priority attr <= lim_rt;
  gr_idle : task_has_idle_policy t = true -> idle_policy policy = true \/ nice_to_rlimit (task_nice t) <= lim_nice;
  gr_reset : ts_sched_reset_on_fork t = true -> reset = true;
}.

Lemma can_nice_val n m : cap = false -> can_nice p n m = Ret (nice_to_rlimit n <=? lim_nice) m.
Proof.
  intros Ec. unfold can_nice, mbind, M_bind. rewrite Hnice.
  destruct (nice_to_rlimit n <=? lim_nice); [done|]. by rewrite Hcap, Ec.
Qed.

(** The test of setscheduler_permitted() as a function. *)
Definition permitted_b (tc t : task_struct) (attr : sched_attr) (policy : Z) (reset : bool) : bool :=
  (if fair_policy policy && (sa_nice attr <? task_nice t) then nice_to_rlimit (sa_nice attr) <=? lim_nice else true) &&
  (if rt_policy policy then
     negb (negb (policy =? ts_policy t) && (lim_rt =? 0)) &&
     negb ((ts_rt_priority t <? sa_priority attr) && (lim_rt <? sa_priority attr)) else true) &&
  negb (dl_policy policy) &&
  (if task_has_idle_policy t && negb (idle_policy policy) then nice_to_rlimit (task_nice t) <=? lim_nice else true) &&
  ((ts_euid tc =? ts_euid t) || (ts_euid tc =? ts_uid t)) &&
  negb (ts_sched_reset_on_fork t && negb reset).

Lemma permitted_val attr policy reset m t tc :
  cap = false -> m_tasks m !! p = Some t -> m_tasks m !! m_current m = Some tc ->
  setscheduler_permitted p attr policy reset m = Ret (permitted_b tc t attr policy reset) m.
Proof.
  intros Ec Ht Htc. unfold setscheduler_permitted, permitted_b, check_same_owner, deref, gets, mbind, M_bind.
  cbn [store task_store]. rewrite Ht.
  destruct (fair_policy policy && (sa_nice attr <? task_nice t))%bool; rewrite ?can_nice_val by done.
  1: destruct (nice_to_rlimit (sa_nice attr) <=? lim_nice); cbn [negb andb]; [|done].
  all: cbn [negb mret M_ret andb]; destruct (rt_policy policy); rewrite ?Hrt; cbn [mret M_ret];
    try (match goal with |- context [negb (?x && negb (?y && ?z))%bool] => destruct (x && negb (y && z))%bool end;
         cbn [negb andb]; [|done]);
    cbn [negb andb]; destruct (dl_policy policy); cbn [negb andb]; try done;
    destruct (task_has_idle_policy t && negb (idle_policy policy))%bool; rewrite ?can_nice_val by done;
    cbn [mret M_ret negb]; try (destruct (nice_to_rlimit (task_nice t) <=? lim_nice); cbn [negb andb]; [|done]);
    rewrite ?Htc, ?Ht; cbn [negb andb mret M_ret]; destruct ((ts_euid tc =? ts_euid t) || (ts_euid tc =? ts_uid t))%bool; done.
Qed.

Lemma permitted_granted tc t attr policy reset :
  permitted_b tc t attr policy reset = true -> granted tc t attr policy reset.
Proof.
  unfold permitted_b. rewrite !andb_true_iff. intros (((((Hn & Hr) & Hd) & Hi) & Ho) & Hf). split.
  - lia.
  - by apply negb_true_iff in Hd.
  - intros Ef. rewrite Ef in Hn. cbn in Hn. destruct (sa_nice attr <? task_nice t) eqn:E; lia.
  - intros Er. rewrite Er in Hr. lia.
  - intros Er. rewrite Er in Hr. lia.
  - intros Et. rewrite Et in Hi. destruct (idle_policy policy); cbn in Hi; [by left | right; lia].
  - intros Et. rewrite Et in Hf. by destruct reset.
Qed.

Lemma wp_validate attr m t (Q : cres unit -> machine -> Prop) :
  m_tasks m !! p = Some t -> (forall e, Q (Err e) m) -> Q (Ok tt) (m <| m_uclamp_used := true |>) ->
  wp (uclamp_validate p attr) Q m.
Proof.
  intros Ht HE HO. unfold uclamp_validate. apply wp_bind, wp_rd. exists t. split; [done|]. cbv zeta.
  repeat match goal with |- wp (if ?c then _ else _) _ _ => destruct c end; try (by apply wp_ret).
Qed.

(** The checks leave the task alone and grant what they should. *)
Lemma wp_ss_checks attr user rq m t tc (Q : cres unit -> machine -> Prop) :
  kernel_ok m -> m_tasks m !! p = Some t -> m_tasks m !! m_current m = Some tc ->
  (forall e m', kernel_ok m' -> asked m m' -> Q (Err e) m') ->
  (forall m', kernel_ok m' -> asked m m' ->
    (user = true -> cap = false -> granted tc t attr (ss_policy rq) (ss_reset rq)) -> Q (Ok tt) m') ->
  wp (setscheduler_checks p attr user rq) Q m.
Proof.
  intros Hok Ht Htc HE HO. unfold setscheduler_checks. assert (H0 : asked m m) by (by apply asked_quiet).
  destruct (negb _); [by apply wp_ret, HE|]. apply wp_bind.
  set (G := user = true -> cap = false -> granted tc t attr (ss_policy rq) (ss_reset rq)) in *.
  assert (Hvalid : forall m1, kernel_ok m1 -> asked m m1 -> G ->
    wp (if has_flag (sa_flags attr) SCHED_FLAG_UTIL_CLAMP then uclamp_validate p attr else mret (Ok tt)) Q m1).
  { intros m1 Hok1 Ha1 HG. destruct (has_flag _ _); [|by apply wp_ret, HO].
    destruct (asked_task _ _ _ _ Ha1 Ht) as (t1 & Ht1 & _).
    eapply wp_validate; [exact Ht1 | intros e; by apply HE |]. apply HO; [| | done].
    - eapply kernel_ok_frame; [|exact Hok1]. by repeat split.
    - destruct Ha1 as (b & _ & F1). exists true. split; [by right|].
      destruct F1 as (F1 & F2 & F3). split; [exact F1|]. split; [exact F2|]. unfold globals in *. cbn in *. congruence. }
  assert (Hsec : forall m1, kernel_ok m1 -> asked m m1 -> G ->
    wp (secure ← (if user then if has_flag (sa_flags attr) SCHED_FLAG_SUGOV then mret (Err EINVAL)
          else security_task_setscheduler p else mret (Ok tt));
        match secure with Err e => mret (Err e)
        | Ok _ => if has_flag (sa_flags attr) SCHED_FLAG_UTIL_CLAMP then uclamp_validate p attr else mret (Ok tt) end) Q m1).
  { intros m1 Hok1 Ha1 HG. apply wp_bind. destruct user; [|by apply wp_ret, Hvalid].
    destruct (has_flag _ SCHED_FLAG_SUGOV); [by apply wp_ret, wp_ret, HE|].
    eapply wp_asked; [exact Ha1 | done | by apply security_set_returns | apply security_set_frame |].
    intros [[]|e] m2 Ha2 Hok2; [by apply Hvalid | by apply wp_ret, HE]. }
  destruct user; [|by apply wp_ret, Hsec]. apply wp_bind. unfold wp at 1. rewrite Hcap.
  destruct (Bool.bool_dec cap true) as [Ec | Ec%not_true_is_false]; rewrite Ec.
  { apply wp_ret, Hsec; [done | done |]. unfold G. congruence. }
  unfold wp at 1. rewrite (permitted_val attr _ _ m t tc) by done.
  destruct (permitted_b _ _ _ _ _) eqn:Ep; cbn [negb]; [|by apply wp_ret, HE].
  apply Hsec; [done | done |]. intros _ _. by apply permitted_granted.
Qed.

(** * The whole call *)

(** The request asks for what the task has. *)
Definition same_request (t : task_struct) (attr : sched_attr) : Prop :=
  wanted_policy t attr = ts_policy t /\
  (fair_policy (ts_policy t) = true -> sa_nice attr = task_nice t) /\
  (rt_policy (ts_policy t) = true -> sa_priority attr = ts_rt_priority t).

Definition wanted_prio (t : task_struct) (attr : sched_attr) : Z :=
  __normal_prio (wanted_policy t attr) (sa_priority attr) (sa_nice attr).

(** [t'] is what the request makes of [t]; a boost by priority inheritance
    ([pi]) can only raise the effective priority. *)
Definition ss_effect (pi : bool) (t : task_struct) (attr : sched_attr) (t' : task_struct) : Prop :=
  let t1 := t <| ts_sched_reset_on_fork := wanted_reset t attr |> in
  (same_request t attr /\ ss_view t' = ss_view t1) \/
  (exists prio, prio <= wanted_prio t attr /\ (pi = false -> prio = wanted_prio t attr) /\
    ss_view t' = ss_view (changed t1 attr prio)).

Definition ss_outcome (user pi : bool) (m : machine) (tc t : task_struct) (attr : sched_attr)
    (r : cres unit) (m' : machine) : Prop :=
  kernel_ok m' /\
  match r with
  | Err _ => asked m m'
  | Ok _ =>
      (user = true -> cap = false -> granted tc t attr (wanted_policy t attr) (wanted_reset t attr)) /\
      (pi = false -> others_kept p m m') /\
      exists t', m_tasks m' !! p = Some t' /\ ss_effect pi t attr t'
  end.

(** The state the call needs. *)
Record ss_ready (m : machine) (t : task_struct) (attr : sched_attr) : Prop := {
  rd_ok : kernel_ok m;
  rd_task : m_tasks m !! p = Some t;
  rd_accounted : accounted_queued m p;
  rd_nice : nice_range t attr;
  rd_clamp : clamp_range attr;
  rd_default : 0 <= m_uclamp_util_min_rt_default m <= SCHED_CAPACITY_SCALE;
}.

Lemma ready_asked m m1 t attr : ss_ready m t attr -> asked m m1 -> kernel_ok m1 ->
  exists t1, ss_ready m1 t1 attr /\ task_quiet t = task_quiet t1.
Proof.
  intros [Hok Ht Hacc [Hs Hn] Hcl Hd] Ha Hok1. destruct (asked_task _ _ _ _ Ha Ht) as (t1 & Ht1 & E).
  exists t1. split; [|done]. destruct Ha as (b & Hb & F). split; [done | done | | | done |].
  - intros t' Ht' Hact. rewrite Ht1 in Ht'. injection Ht' as <-.
    rewrite <- (f_equal ts_uclamp E : ts_uclamp t = ts_uclamp t1) in Hact. destruct (Hacc t Ht Hact) as [Hq Hu]. split.
    + unfold task_on_rq_queued. by rewrite <- (f_equal ts_on_rq E : ts_on_rq t = ts_on_rq t1).
    + assert (Eg : globals (m <| m_uclamp_used := b |>) = globals m1) by apply F. unfold globals in Eg. cbn in Eg.
      destruct Hb; congruence.
  - split; [|done]. by rewrite <- (f_equal ts_static_prio E : ts_static_prio t = ts_static_prio t1).
  - assert (Eg : globals (m <| m_uclamp_used := b |>) = globals m1) by apply F. unfold globals in Eg. cbn in Eg.
    by assert (m_uclamp_util_min_rt_default m1 = m_uclamp_util_min_rt_default m) as -> by congruence.
Qed.

(** Does the request change anything? *)
Lemma wp_changes attr policy m t (Q : bool -> machine -> Prop) :
  kernel_ok m -> m_tasks m !! p = Some t ->
  (forall m', kernel_ok m' -> quiet_frame m m' -> Q true m') ->
  (forall m', kernel_ok m' -> quiet_frame m m' -> policy = ts_policy t ->
    (fair_policy (ts_policy t) = true -> sa_nice attr = task_nice t) ->
    (rt_policy (ts_policy t) = true -> sa_priority attr = ts_rt_priority t) -> Q false m') ->
  wp (setscheduler_changes p attr policy) Q m.
Proof.
  intros Hok Ht HT HF. unfold setscheduler_changes. apply wp_bind, wp_deref. exists t. split; [done|].
  destruct (Z.eqb_spec policy (ts_policy t)) as [-> | _]; cbn [negb]; [|by apply wp_ret, HT].
  destruct (fair_policy (ts_policy t) && negb (sa_nice attr =? task_nice t))%bool eqn:E1; [by apply wp_ret, HT|].
  destruct (rt_policy (ts_policy t) && negb (sa_priority attr =? ts_rt_priority t))%bool eqn:E2; [by apply wp_ret, HT|].
  assert (Hend : forall b m1, kernel_ok m1 -> quiet_frame m m1 ->
    wp (if (b : bool) then mret true else mret (has_flag (sa_flags attr) SCHED_FLAG_UTIL_CLAMP)) Q m1).
  { intros b m1 Hok1 F1. destruct b; [by apply wp_ret, HT|]. apply wp_ret.
    destruct (has_flag _ _); [by apply HT|]. apply HF; [done | done | done | |]; intros Ef; rewrite Ef in *; cbn in *; lia. }
  apply wp_bind. destruct (dl_policy _); [|by apply wp_ret, (Hend false)].
  apply wp_quiet; [done | apply dl_changed_returns; [done | by eexists] | apply dl_changed_frame |].
  intros b m1 Hok1 F1. by apply Hend.
Qed.

Lemma wp_admitted r attr policy user m t q (Q : bool -> machine -> Prop) :
  kernel_ok m -> m_tasks m !! p = Some t -> m_rqs m !! r = Some q ->
  (forall b m', kernel_ok m' -> quiet_frame m m' -> Q b m') ->
  wp (setscheduler_admitted r p attr policy user) Q m.
Proof.
  intros Hok Ht Hq HQ. unfold setscheduler_admitted. destruct (negb user); [by apply wp_ret, HQ|].
  apply wp_bind, wp_quiet; [done | apply dl_enabled_returns | apply dl_enabled_frame |]. intros b m1 Hok1 F1.
  destruct (_ && _)%bool; [|by apply wp_ret, HQ].
  destruct (frame_task _ _ _ _ _ _ _ F1 Ht) as (t1 & Ht1 & _). destruct (frame_rq _ _ _ _ _ _ _ F1 Hq) as (q1 & Hq1 & _).
  apply wp_bind, wp_deref. exists q1. split; [done|]. apply wp_bind, wp_deref. exists t1. split; [done|].
  by apply wp_ret, HQ.
Qed.

Lemma changed_view t t' attr prio b :
  ss_view t = ss_view t' ->
  ss_view (changed (t <| ts_sched_reset_on_fork := b |>) attr prio) =
  ss_view (changed (t' <| ts_sched_reset_on_fork := b |>) attr prio).
Proof.
  intros E. unfold changed, with_params. cbn [ts_policy upd].
  assert (Ep : ts_policy t = ts_policy t') by (by apply view_eq). rewrite Ep.
  destruct (has_flag _ _); [exact (f_equal (fun x => x <| ts_sched_reset_on_fork := b |>) E)|].
  set (k := if attr_policy attr =? SETPARAM_POLICY then ts_policy t' else attr_policy attr).
  destruct (_ && _)%bool.
  - exact (f_equal (fun x => let x := x <| ts_sched_reset_on_fork := b |> <| ts_policy := k |>
        <| ts_static_prio := NICE_TO_PRIO (sa_nice attr) |> <| ts_rt_priority := sa_priority attr |> in
      x <| ts_normal_prio := normal_prio x |> <| ts_class := class_of_prio prio |> <| ts_prio := prio |>) E).
  - exact (f_equal (fun x => let x := x <| ts_sched_reset_on_fork := b |> <| ts_policy := k |>
        <| ts_rt_priority := sa_priority attr |> in
      x <| ts_normal_prio := normal_prio x |> <| ts_class := class_of_prio prio |> <| ts_prio := prio |>) E).
Qed.

Lemma quiet_view t t' : task_quiet t = task_quiet t' -> ss_view t = ss_view t'.
Proof. intros E. exact (f_equal ss_view E). Qed.

Lemma unlock_any (b : bool) ret m1 (Q : option (cres unit) -> machine -> Prop) :
  kernel_ok m1 -> (forall m2, kernel_ok m2 -> quiet_frame m1 m2 -> Q (Some ret) m2) ->
  wp (r ← setscheduler_unlock b ret; mret (Some r)) Q m1.
Proof.
  intros Hok HQ. unfold setscheduler_unlock. apply wp_bind, wp_bind, wp_when. destruct b.
  - apply wp_emit_quiet; [done|]. intros m2 Hok2 F2. by apply wp_ret, wp_ret, HQ.
  - by apply wp_ret, wp_ret, HQ.
Qed.

Lemma when_emit_any {A} (b : bool) n a (k : K A) m1 Q :
  kernel_ok m1 -> (forall m2, kernel_ok m2 -> quiet_frame m1 m2 -> wp k Q m2) -> wp (when b (emit n a) ;; k) Q m1.
Proof. intros Hok Hk. apply wp_bind, wp_when. destruct b; [by apply wp_emit_quiet | by apply Hk]. Qed.

Lemma no_interrupt (b : bool) m1 (Q : bool -> machine -> Prop) :
  Q false m1 -> wp (if b then in_interrupt else mret false) Q m1.
Proof. intros HQ. destruct b; [|done]. unfold wp. by rewrite in_interrupt_no. Qed.

Section Call.
Context (user pi : bool) (attr : sched_attr) (m : machine) (tc t : task_struct).
Context (Hready : ss_ready m t attr) (Htc : m_tasks m !! m_current m = Some tc).

Definition returned_ok (r : option (cres unit)) (m' : machine) : Prop :=
  exists ret, r = Some ret /\ ss_outcome user pi m tc t attr ret m'.

Lemma wp_unlock ret m1 :
  kernel_ok m1 -> (forall m2, kernel_ok m2 -> quiet_frame m1 m2 -> ss_outcome user pi m tc t attr ret m2) ->
  wp (r ← setscheduler_unlock pi ret; mret (Some r)) returned_ok m1.
Proof. intros Hok HQ. apply unlock_any; [done|]. intros m2 Hok2 F2. exists ret. split; [done | by apply HQ]. Qed.

Lemma wp_refused e m1 : kernel_ok m1 -> asked m m1 ->
  wp (r ← setscheduler_unlock pi (Err e); mret (Some r)) returned_ok m1.
Proof. intros Hok Ha. apply wp_unlock; [done|]. intros m2 Hok2 F2. split; [done | by eapply asked_trans]. Qed.

(** With the run queue locked. *)
Lemma wp_locked r old m1 :
  kernel_ok m1 -> asked m m1 -> r = ts_cpu t -> old = -1 \/ old = ts_policy t ->
  (user = true -> cap = false -> granted tc t attr (wanted_policy t attr) (wanted_reset t attr)) ->
  let rq := Mk_ss_req (wanted_policy t attr) old (wanted_reset t attr) in
  wp (change ← setscheduler_changes p attr (ss_policy rq);
      if negb change then
        set! p ⇝ ts_sched_reset_on_fork := ss_reset rq ;;
        ret ← setscheduler_unlock pi (Ok tt); mret (Some ret)
      else
        admitted ← setscheduler_admitted r p attr (ss_policy rq) user;
        if negb admitted then ret ← setscheduler_unlock pi (Err EPERM); mret (Some ret)
        else
          cur ← p ⇝ ts_policy;
          if (negb (ss_oldpolicy rq =? -1) && negb (ss_oldpolicy rq =? cur))%bool then
            when pi (emit "cpuset_read_unlock" []) ;; mret None
          else
            t ← deref (R := task_struct) p;
            over ← (if (dl_policy (ss_policy rq) || dl_task t)%bool
                    then sched_dl_overflow p (ss_policy rq) attr else mret false);
            if (over : bool) then ret ← setscheduler_unlock pi (Err EBUSY); mret (Some ret)
            else setscheduler_apply r p attr rq pi ;; mret (Some (Ok tt))) returned_ok m1.
Proof.
  intros Hok1 Ha1 Hr Hold HG. cbv zeta. cbn [ss_policy ss_oldpolicy ss_reset].
  destruct (ready_asked m m1 t attr Hready Ha1 Hok1) as (t1 & R1 & E1).
  apply wp_bind. eapply wp_changes; [done | apply R1 | |].
  2: { intros m2 Hok2 F2 Hp Hn Hprio. cbn [negb]. destruct (frame_task _ _ _ _ _ _ _ F2 (rd_task _ _ _ R1)) as (t2 & Ht2 & E2).
    apply wp_bind, wp_wr. exists t2. split; [done|].
    apply wp_unlock; [by eapply kernel_ok_task|]. intros m3 Hok3 F3. split; [done|]. split; [done|].
    assert (Ho : others_kept p m m2) by (by eapply asked_others, asked_trans). split.
    - intros _. etransitivity; [exact Ho|]. etransitivity; [apply others_set | exact (class_others p _ _ (quiet_class_frame _ _ F3))].
    - destruct (frame_task _ _ _ _ _ _ _ F3 (lookup_insert_eq _ p _)) as (t3 & Ht3 & E3).
      exists t3. split; [done|]. left. split.
      + assert (Epol : ts_policy t = ts_policy t1) by exact (f_equal ts_policy E1).
        split; [congruence|]. rewrite Epol. split.
        * intros Hf. rewrite (Hn Hf). exact (eq_sym (f_equal task_nice E1)).
        * intros Hf. rewrite (Hprio Hf). exact (eq_sym (f_equal ts_rt_priority E1)).
      + rewrite <- (quiet_view _ _ E3). set (b := wanted_reset t attr).
        assert (E12 : ss_view t = ss_view t2) by (apply quiet_view; congruence).
        exact (eq_sym (f_equal (fun x => x <| ts_sched_reset_on_fork := b |>) E12)). }
  intros m2 Hok2 F2. cbn [negb]. assert (Ha2 : asked m m2) by (by eapply asked_trans).
  destruct (ready_asked m m2 t attr Hready Ha2 Hok2) as (t2 & R2 & E2).
  destruct (ok_tasks m2 Hok2 p t2 (rd_task _ _ _ R2)) as [[q2 Hq2] _].
  assert (Hc2 : ts_cpu t2 = r) by (rewrite Hr; exact (eq_sym (f_equal ts_cpu E2))). rewrite Hc2 in Hq2.
  apply wp_bind. eapply wp_admitted; [done | apply R2 | exact Hq2 |]. intros b m3 Hok3 F3.
  assert (Ha3 : asked m m3) by (by eapply asked_trans).
  destruct b; cbn [negb]; [|by apply wp_refused].
  destruct (ready_asked m m3 t attr Hready Ha3 Hok3) as (t3 & R3 & E3).
  apply wp_bind, wp_rd. exists t3. split; [apply R3|].
  replace (negb (old =? -1) && negb (old =? ts_policy t3))%bool with false.
  2: { assert (ts_policy t = ts_policy t3) by exact (f_equal ts_policy E3). destruct Hold as [-> | ->]; lia. }
  apply wp_bind, wp_deref. exists t3. split; [apply R3|].
  assert (Happly : forall m4, kernel_ok m4 -> asked m m4 ->
    wp (setscheduler_apply r p attr (Mk_ss_req (wanted_policy t attr) old (wanted_reset t attr)) pi ;;
        mret (Some (Ok tt))) returned_ok m4).
  { intros m4 Hok4 Ha4. destruct (ready_asked m m4 t attr Hready Ha4 Hok4) as (t4 & [_ Ht4 Hac4 Hn4 Hc4 Hd4] & E4).
    assert (Ecpu : ts_cpu t4 = r) by (rewrite Hr; exact (eq_sym (f_equal ts_cpu E4))).
    apply wp_bind. eapply wp_apply; [done | exact Ht4 | exact Ecpu | done | done | done | done |].
    cbn [ss_policy ss_reset]. intros m5 prio Hle Heq [Hok5 _ Ho5 (t5 & Ht5 & E5)]. apply wp_ret.
    eexists. split; [done|]. split; [done|]. split; [done|]. split.
    - intros ->. etransitivity; [by apply asked_others | by apply Ho5].
    - exists t5. split; [done|]. right. exists prio. split; [done|]. split; [done|]. rewrite E5.
      by apply changed_view, eq_sym, quiet_view. }
  apply wp_bind. destruct (_ || _)%bool; [|by apply wp_ret, Happly].
  eapply wp_asked; [exact Ha3 | done | apply dl_overflow_returns; [done | by exists t3; apply R3] | apply dl_overflow_frame |].
  intros [] m4 Ha4 Hok4; [by apply wp_refused | by apply Happly].
Qed.

Lemma wp_ss_pass : wp (setscheduler_pass p attr user pi (attr_policy attr) (-1)) returned_ok m.
Proof.
  pose proof (rd_ok _ _ _ Hready) as Hok. pose proof (rd_task _ _ _ Hready) as Ht.
  assert (Hreq : forall (Q : cres ss_req -> machine -> Prop), Q (Err EINVAL) m ->
    (forall old, old = -1 \/ old = ts_policy t -> Q (Ok (Mk_ss_req (wanted_policy t attr) old (wanted_reset t attr))) m) ->
    wp (setscheduler_request p attr (attr_policy attr) (-1)) Q m).
  { intros Q HE HO. unfold setscheduler_request, wanted_policy, wanted_reset in *.
    destruct (attr_policy attr <? 0).
    - apply wp_bind, wp_deref. exists t. split; [done|]. apply wp_ret, HO. by right.
    - destruct (negb (valid_policy _)); [by apply wp_ret|]. apply wp_ret, HO. by left. }
  assert (Hrefuse : forall e m1, kernel_ok m1 -> asked m m1 -> returned_ok (Some (Err e)) m1).
  { intros e m1 Hok1 Ha1. eexists. split; [done|]. by split. }
  unfold setscheduler_pass. apply wp_bind, Hreq; [apply wp_ret, Hrefuse; [done | by apply asked_quiet]|].
  intros old Hold. apply wp_bind. eapply wp_ss_checks; [done | exact Ht | exact Htc | intros; by apply wp_ret, Hrefuse |].
  cbn [ss_policy ss_reset]. intros m1 Hok1 Ha1 HG.
  assert (Hlock : forall m2, kernel_ok m2 -> asked m m2 -> forall k,
    (forall m3, kernel_ok m3 -> asked m m3 -> wp (k (ts_cpu t)) returned_ok m3) ->
    wp (r ← p ⇝ ts_cpu; update_rq_clock r ;; stop ← r ⇝ rq_stop;
        if p =? stop then ret ← setscheduler_unlock pi (Err EINVAL); mret (Some ret) else k r) returned_ok m2).
  { intros m2 Hok2 Ha2 k Hk. destruct (asked_task _ _ _ _ Ha2 Ht) as (t2 & Ht2 & E2).
    apply wp_bind, wp_rd. exists t2. split; [done|].
    rewrite <- (f_equal ts_cpu E2 : ts_cpu t = ts_cpu t2).
    destruct (ok_tasks m Hok p t Ht) as [[q Hq] _]. destruct (asked_rq _ _ _ _ Ha2 Hq) as (q2 & Hq2 & _).
    apply wp_bind, wp_update_rq_clock; [done | by eexists |]. intros m3 Hok3 F3.
    destruct (frame_rq _ _ _ _ _ _ _ F3 Hq2) as (q3 & Hq3 & _). assert (Ha3 : asked m m3) by (by eapply asked_trans).
    apply wp_bind, wp_rd. exists q3. split; [done|]. destruct (p =? rq_stop q3); [by apply wp_refused | by apply Hk]. }
  apply when_emit_any; [done|]. intros m2 Hok2 F2. apply Hlock; [done | by eapply asked_trans |].
  intros m3 Hok3 Ha3. by apply wp_locked.
Qed.

Lemma wp_setscheduler : wp (__sched_setscheduler p attr user pi) (ss_outcome user pi m tc t attr) m.
Proof.
  unfold __sched_setscheduler. apply wp_bind, no_interrupt. cbn [setscheduler_loop].
  apply wp_bind. eapply wp_mono; [apply wp_ss_pass|]. by intros r m' (ret & -> & Ho).
Qed.
End Call.

(** C12: A caller without CAP_SYS_NICE changes the scheduling of a task only as
    far as it may: when __sched_setscheduler() succeeds for it, it owns the task,
    did not ask for SCHED_DEADLINE, raised neither nice value nor real-time
    priority beyond the task's limits, did not leave SCHED_IDLE without the
    nice limit that allows it and did not clear the reset-on-fork flag.  A
    refused request changes nothing but class-private state. *)
Theorem setscheduler_unprivileged pi attr m tc t :
  cap = false -> ss_ready m t attr -> m_tasks m !! m_current m = Some tc ->
  wp (__sched_setscheduler p attr true pi) (fun r m' =>
    match r with
    | Ok _ => granted tc t attr (wanted_policy t attr) (wanted_reset t attr)
    | Err _ => asked m m'
    end) m.
Proof.
  intros Hc Hr Htc. eapply wp_mono; [by apply (wp_setscheduler true pi attr m tc t)|].
  intros [[]|e] m' [_ Ho]; [|done]. by apply Ho.
Qed.

(** C13: __sched_setscheduler() always returns and keeps the scheduler's
    invariant.  On success the task has the policy, the priorities and the class
    the request asks for (an inherited priority can only raise the effective
    one), or the request asked for what the task had and only the reset-on-fork
    flag is stored; without priority inheritance no other task changes.  On
    failure nothing but class-private state has changed. *)
Theorem setscheduler_spec user pi attr m tc t :
  ss_ready m t attr -> m_tasks m !! m_current m = Some tc ->
  wp (__sched_setscheduler p attr user pi) (fun r m' => kernel_ok m' /\
    match r with
    | Ok _ => (pi = false -> others_kept p m m') /\ exists t', m_tasks m' !! p = Some t' /\ ss_effect pi t attr t'
    | Err _ => asked m m'
    end) m.
Proof.
  intros Hr Htc. eapply wp_mono; [by apply (wp_setscheduler user pi attr m tc t)|].
  intros [[]|e] m' [Hok Ho]; [|done]. split; [done|]. apply Ho.
Qed.
End Limits.
End SetschedProofs.
