(* ===== verification/SetschedSample.v ===== *)
(** Scheduling requests on the sample machine: witnesses for the theorems on
    __sched_setscheduler(). *)
From S2P Require Import Prelude Headers Proc Kernel Extern RqClock Uclamp UclampProofs Prio.
From S2P Require Import SchedOK Affinity AffinityProofs Migrate Schedule Setscheduler.
From S2P Require Import SetschedProofs Sample.

#[local] Existing Instance linux_headers.
#[local] Existing Instance Demo.extern.

#[local] Instance demo_setsched_ok : SetschedExternOK Demo.extern.
Proof.
  split; intros; cbn; try (by apply wp_ret); try (by apply preserves_ret; typeclasses eauto); try done.
  - destruct H0 as [t Ht]. unfold Demo.top_task. apply wp_bind, wp_rd. exists t. split; [done|].
    apply wp_bind, wp_get_state, wp_ret. case_match eqn:E; [right; by eexists | by left].
  - apply wp_ret. split; [done|]. split; [done|]. by exists t.
Qed.

(** Task 11 of user 1000 asks for task 12 of the same user. *)
Definition normal_attr (nice : Z) : sched_attr := attr0 <| sa_nice := nice |>.

Lemma ready12 attr :
  -20 <= sa_nice attr <= 19 -> clamp_range attr -> ss_ready 12 machine0 (user_task 12) attr.
Proof.
  intros Hn Hc. split; [apply kernel_ok0 | reflexivity | | split; [cbn; lia | done] | done | split; vm_compute; discriminate].
  intros t Ht Hact. vm_compute in Ht. injection Ht as <-. by vm_compute in Hact.
Qed.

Lemma no_clamps_asked nice : clamp_range (normal_attr nice).
Proof. by split; intros. Qed.

(** Without privileges the nice value may be raised. *)
Lemma setscheduler_unprivileged_witness :
  exists tc, m_tasks machine0 !! m_current machine0 = Some tc /\
  wp (__sched_setscheduler 12 (normal_attr 5) true true) (fun r m' =>
    match r with
    | Ok _ => granted 0 0 tc (user_task 12) (normal_attr 5)
                (wanted_policy (user_task 12) (normal_attr 5)) (wanted_reset (user_task 12) (normal_attr 5))
    | Err _ => asked machine0 m'
    end) machine0.
Proof.
  eexists. split; [reflexivity|].
  apply (setscheduler_unprivileged 12 false 0 0); try done.
  apply ready12; [cbn; lia | apply no_clamps_asked].
Defined.

Lemma setscheduler_spec_witness :
  wp (__sched_setscheduler 12 (normal_attr 5) false false) (fun r m' => kernel_ok m' /\
    match r with
    | Ok _ => (false = false -> others_kept 12 machine0 m') /\
        exists t', m_tasks m' !! 12 = Some t' /\ ss_effect false (user_task 12) (normal_attr 5) t'
    | Err _ => asked machine0 m'
    end) machine0.
Proof.
  pose (tc := (user_task 11) <| ts_on_cpu := 1 |>).
  eapply (setscheduler_spec 12 false 0 0) with (tc := tc); try done.
  apply ready12; [cbn; lia | apply no_clamps_asked].
Defined.

(** The requests, run: lowering the nice value is refused, raising it works. *)
Example unprivileged_runs :
  match __sched_setscheduler 12 (normal_attr (-5)) true true machine0 with
  | Ret r m' => r = Err EPERM /\ m_tasks m' = m_tasks machine0
  | Stuck _ => False
  end /\
  match __sched_setscheduler 12 (normal_attr 5) true true machine0 with
  | Ret r m' => r = Ok tt /\ ts_static_prio <$> m_tasks m' !! 12 = Some 125 /\ ts_prio <$> m_tasks m' !! 12 = Some 125
  | Stuck _ => False
  end.
Proof. vm_compute. done. Qed.

(** A request for SCHED_IDLE takes the effective priority from its nice value
    but leaves the static priority alone: the two disagree without any boost. *)
Example idle_prio_disagrees :
  match __sched_setscheduler 12 ((normal_attr (-20)) <| sa_policy := SCHED_IDLE |>) true true machine0 with
  | Ret r m' => r = Ok tt /\ ts_prio <$> m_tasks m' !! 12 = Some 100 /\ ts_normal_prio <$> m_tasks m' !! 12 = Some 120
  | Stuck _ => False
  end.
Proof. vm_compute. done. Qed.
