(* ===== verification/SchedSyscalls.v ===== *)
(** The affinity system calls, yielding and the other small scheduler calls of
    core.c.

    A call that changes an affinity may have to wait for another CPU;
    [affine_complete] goes on after the wait when the request is complete and
    returns [None] while the caller still sleeps. *)
From S2P Require Import Prelude Headers Proc Kernel Extern RqClock Uclamp Prio Affinity.
From S2P Require Import Migrate Schedule Setscheduler.

Section SchedSyscalls.
Context {H : Headers} {X : Extern} {Mg : MigrateExtern} {Sx : SetschedExtern}.

(** * Affinity *)

(** wait_for_completion() and the code after it in affine_move_task(): the
    owner of a request leaves when nobody refers to it any more. *)
Definition affine_complete (r : affine_result) : K (option (cres unit)) :=
  match r with
  | affine_done ret => mret (Some ret)
  | affine_wait pending my_pending =>
      completed ← pending ⇝ ap_done;
      if negb completed then mret None
      else
        affine_drop pending ;;
        m ← get_state;
        if (match m_pendings m !! my_pending with Some a => truthy (ap_refs a) | None => false end)
        then mret None
        else r ← affine_finish my_pending; mret (Some r)
  end.

(** The mask is restricted to the possible CPUs, or to the cpuset. *)
Definition force_compatible_cpus_allowed_ptr (p : Z) : K unit :=
  t ← deref (R := task_struct) p;
  let override_mask := task_cpu_possible_mask t in
  available ← gets (cpumask_alloc "new_mask");
  emit "cpus_read_lock" [] ;;
  let set_mask mask :=
    emit "printk_deferred overriding affinity" [ts_pid t] ;;
    r ← set_cpus_allowed_ptr p (mask_at mask);
    done ← affine_complete r;
    match done with Some (Err _) => emit "WARN_ON" [] | _ => mret tt end in
  (if negb available then set_mask override_mask
   else
     r ← restrict_cpus_allowed_ptr p override_mask;
     done ← affine_complete r;
     match done with
     | Some (Err _) => mask ← cpuset_cpus_allowed p; set_mask mask
     | _ => mret tt
     end) ;;
  emit "cpus_read_unlock" [].

Definition dl_task_check_affinity (p : Z) (mask : gset Z) : K (cres unit) :=
  t ← deref (R := task_struct) p;
  enabled ← dl_bandwidth_enabled;
  if (negb (task_has_dl_policy t) || negb enabled)%bool then mret (Ok tt)
  else
    q ← deref (R := rq) (ts_cpu t);
    mret (if negb (bool_decide (rq_span q ⊆ mask)) then Err EBUSY else Ok tt).

(** From the label [again]: a cpuset update in between makes it start over with
    the cpuset's mask. *)
Fixpoint setaffinity_loop (fuel : nat) (p : Z) (new_mask : gset Z) : K (option (cres unit)) :=
  match fuel with
  | O => stuck NOFUEL
  | S fuel' =>
      r ← __set_cpus_allowed_ptr p (mask_at new_mask) (Z.lor SCA_CHECK SCA_USER);
      done ← affine_complete r;
      match done with
      | Some (Ok _) =>
          cpus_allowed ← cpuset_cpus_allowed p;
          if negb (bool_decide (new_mask ⊆ cpus_allowed)) then setaffinity_loop fuel' p cpus_allowed
          else mret done
      | _ => mret done
      end
  end.

Definition __sched_setaffinity (fuel : nat) (p : Z) (mask : gset Z) : K (option (cres unit)) :=
  a1 ← gets (cpumask_alloc "cpus_allowed");
  if negb a1 then mret (Some (Err ENOMEM))
  else
    a2 ← gets (cpumask_alloc "new_mask");
    if negb a2 then mret (Some (Err ENOMEM))
    else
      cpus_allowed ← cpuset_cpus_allowed p;
      let new_mask := mask ∩ cpus_allowed in
      chk ← dl_task_check_affinity p new_mask;
      match chk with
      | Err e => mret (Some (Err e))
      | Ok _ => setaffinity_loop fuel p new_mask
      end.

(** The affinity the task asked for comes back. *)
Definition relax_compatible_cpus_allowed_ptr (fuel : nat) (p : Z) : K unit :=
  user_mask ← p ⇝ ts_user_cpus_ptr;
  match user_mask with
  | None => mret tt
  | Some mask =>
      r ← __sched_setaffinity fuel p mask;
      match r with
      | Some (Err _) => clear_user_cpus_ptr p ;; emit "kfree" []
      | _ => mret tt
      end
  end.

Definition sched_setaffinity (fuel : nat) (pid : Z) (in_mask : gset Z) : K (option (cres unit)) :=
  p ← find_process_by_pid pid;
  if p =? NULL then mret (Some (Err ESRCH))
  else
    get_task_struct p ;;
    flags ← p ⇝ ts_flags;
    ret ← (if has_flag flags PF_NO_SETAFFINITY then mret (Some (Err EINVAL))
           else
             same ← check_same_owner p;
             allowed ← (if (same : bool) then mret true else ns_capable_sys_nice p);
             if negb allowed then mret (Some (Err EPERM))
             else
               s ← security_task_setscheduler p;
               match s with
               | Err e => mret (Some (Err e))
               | Ok _ => __sched_setaffinity fuel p in_mask
               end);
    when (match ret with Some _ => true | None => false end) (put_task_struct p) ;;
    mret ret.

Definition get_user_cpu_mask (user_mask_ptr len : Z) : K (cres (gset Z)) :=
  let len := if cpumask_size <? len then cpumask_size else len in
  mask ← gets (user_cpu_mask user_mask_ptr len);
  mret (match mask with Some s => Ok s | None => Err EFAULT end).

Definition sys_sched_setaffinity (fuel : nat) (pid len user_mask_ptr : Z) : K (option (cres unit)) :=
  a ← gets (cpumask_alloc "new_mask");
  if negb a then mret (Some (Err ENOMEM))
  else
    m ← get_user_cpu_mask user_mask_ptr len;
    match m with
    | Err e => mret (Some (Err e))
    | Ok new_mask => sched_setaffinity fuel pid new_mask
    end.

Definition sched_getaffinity (pid : Z) : K (cres (gset Z)) :=
  readable_task pid (fun p =>
    t ← deref (R := task_struct) p;
    active ← gets m_cpu_active;
    mret (Ok (ts_cpus_mask t ∩ active))).

(** [len * BITS_PER_BYTE] is an unsigned 32-bit product. *)
Definition sys_sched_getaffinity (pid len user_mask_ptr : Z) : K (cres Z) :=
  if u32 (len * 8) <? nr_cpu_ids then mret (Err EINVAL)
  else if truthy (Z.land len 7) then mret (Err EINVAL)
  else
    a ← gets (cpumask_alloc "mask");
    if negb a then mret (Err ENOMEM)
    else
      ret ← sched_getaffinity pid;
      match ret with
      | Err e => mret (Err e)
      | Ok mask =>
          let retlen := Z.min len cpumask_size in
          fault ← put_cpu_mask user_mask_ptr mask retlen;
          mret (if (fault : bool) then Err EFAULT else Ok retlen)
      end.

(** * Yielding *)
Definition do_sched_yield (fuel : nat) : K unit :=
  r ← gets m_this_cpu;
  emit "schedstat_inc yld_count" [r] ;;
  current ← gets m_current;
  c ← current ⇝ ts_class;
  cl_yield_task c r ;;
  preempt_disable ;;
  sched_preempt_enable_no_resched ;;
  schedule fuel.

Definition sys_sched_yield (fuel : nat) : K (cres unit) := do_sched_yield fuel ;; mret (Ok tt).

Definition yield (fuel : nat) : K unit :=
  current ← gets m_current;
  set! current ⇝ ts_state := TASK_RUNNING ;;
  do_sched_yield fuel.

(** [task_rq(p) != p_rq] cannot hold once both locks are taken in one step. *)
Definition yield_to (fuel : nat) (p : Z) (preempt : bool) : K (cres bool) :=
  curr ← gets m_current;
  r ← gets m_this_cpu;
  p_rq ← p ⇝ ts_cpu;
  n ← r ⇝ rq_nr_running;
  pn ← p_rq ⇝ rq_nr_running;
  if ((n =? 1) && (pn =? 1))%bool then mret (Err ESRCH)
  else
    c ← deref (R := task_struct) curr;
    t ← deref (R := task_struct) p;
    yielded ←
      (if negb (has_yield_to_task (ts_class c)) then mret false
       else if negb (class_eqb (ts_class c) (ts_class t)) then mret false
       else if (truthy (ts_on_cpu t) || negb (ts_state t =? TASK_RUNNING))%bool then mret false
       else
         y ← cl_yield_to_task (ts_class c) r p;
         when y
           (emit "schedstat_inc yld_count" [r] ;;
            when (preempt && negb (r =? p_rq)) (resched_curr p_rq)) ;;
         mret y);
    when yielded (schedule fuel) ;;
    mret (Ok yielded).

(** include/asm-generic/preempt.h: should_resched(0) *)
Definition should_resched0 : K bool :=
  m ← get_state; mret ((m_preempt_count m =? 0) && m_preempt_need_resched m)%bool.

Definition __cond_resched (fuel : nat) : K Z :=
  b ← should_resched0;
  if (b : bool) then preempt_schedule_common fuel ;; mret 1
  else emit "rcu_all_qs" [] ;; mret 0.

(** * I/O waits; blk_flush_plug() does nothing without a plug *)
Definition io_schedule_prepare : K bool :=
  current ← gets m_current;
  old_iowait ← current ⇝ ts_in_iowait;
  set! current ⇝ ts_in_iowait := true ;;
  emit "blk_flush_plug" [current] ;;
  mret old_iowait.

Definition io_schedule_finish (token : bool) : K unit :=
  current ← gets m_current; set! current ⇝ ts_in_iowait := token.

(** * Ranges and time slices *)
Definition sched_get_priority_max (policy : Z) : cres Z :=
  if ((policy =? SCHED_FIFO) || (policy =? SCHED_RR))%bool then Ok (MAX_RT_PRIO - 1)
  else if ((policy =? SCHED_DEADLINE) || (policy =? SCHED_NORMAL) || (policy =? SCHED_BATCH) ||
           (policy =? SCHED_IDLE))%bool then Ok 0
  else Err EINVAL.

Definition sched_get_priority_min (policy : Z) : cres Z :=
  if ((policy =? SCHED_FIFO) || (policy =? SCHED_RR))%bool then Ok 1
  else if ((policy =? SCHED_DEADLINE) || (policy =? SCHED_NORMAL) || (policy =? SCHED_BATCH) ||
           (policy =? SCHED_IDLE))%bool then Ok 0
  else Err EINVAL.

(** The time slice, in jiffies. *)
Definition sched_rr_get_interval (pid : Z) : K (cres Z) :=
  if pid <? 0 then mret (Err EINVAL)
  else readable_task pid (fun p =>
    t ← deref (R := task_struct) p;
    slice ← (if has_get_rr_interval (ts_class t) then cl_get_rr_interval (ts_class t) (ts_cpu t) p else mret 0);
    mret (Ok slice)).

Definition sys_sched_rr_get_interval (pid interval : Z) : K (cres unit) :=
  r ← sched_rr_get_interval pid;
  match r with
  | Err e => mret (Err e)
  | Ok t => fault ← put_timespec t interval; mret (if (fault : bool) then Err EFAULT else Ok tt)
  end.

(** * Which tasks show_state_filter() prints *)
Definition state_filter_match (state_filter : Z) (t : task_struct) : bool :=
  if state_filter =? 0 then true
  else if negb (has_flag (ts_state t) state_filter) then false
  else negb ((state_filter =? TASK_UNINTERRUPTIBLE) && (ts_state t =? TASK_IDLE)).
End SchedSyscalls.
