(* ===== verification/Clone.v ===== *)
(** The ways to make a process (fork.c): kernel_clone() and the system calls
    fork(), vfork(), clone() and clone3() on top of it, kernel threads, the
    completion a vfork() waits for, and the limit on the number of threads.

    The arguments of clone3() are read with copy_struct_from_user(), which gives
    the [clone_args] of the version this kernel knows, or an error. *)
From S2P Require Import Prelude Headers Proc Kernel Extern RqClock Uclamp Prio Mm Affinity.
From S2P Require Import Migrate.
From S2P Require Import ForkExtern SchedFork Fork Wakeup.

(** struct clone_args (include/uapi/linux/sched.h): eleven 64-bit words. *)
Record clone_args : Type := Mk_clone_args {
  ca_flags : Z;
  ca_pidfd : Z;
  ca_child_tid : Z;
  ca_parent_tid : Z;
  ca_exit_signal : Z;
  ca_stack : Z;
  ca_stack_size : Z;
  ca_tls : Z;
  ca_set_tid : Z;
  ca_set_tid_size : Z;
  ca_cgroup : Z;
}.

(** User memory, namespaces of pids, completions and the rest of the kernel. *)
Class CloneExtern := {
  copy_struct_from_user : Z -> Z -> machine -> cres clone_args;
  (** copy_from_user() of [n] pids: true when not all could be copied *)
  set_tid_unreadable : Z -> Z -> machine -> bool;
  access_ok : Z -> Z -> bool;
  pid_vnr : Z -> machine -> Z;
  (** the local variables of kernel_clone() and clone3() *)
  vfork_completion : machine -> Z;
  set_tid_array : machine -> Z;
  (** other tasks run until the completion is done or a fatal signal arrives *)
  wait_for_completion_killable : Z -> K Z;
  exec_update_lock_killed : Z -> machine -> bool;
  ptrace_may_access : Z -> Z -> machine -> bool;
  (** mm/, kernel/sysctl.c and the configuration *)
  totalram_pages : Z; THREAD_SIZE : Z; FUTEX_TID_MASK : Z;
  proc_dointvec_minmax : Z -> Z -> Z -> machine -> cres Z;
  init_idle : Z -> Z -> K unit;
}.

Section Clone.
Context {H : Headers} {X : Extern} {FH : ForkHeaders} {F : ForkExtern} {CE : CloneExtern}.
Context {XM : MigrateExtern}.

(** * Waiting for a child that borrows the address space *)
Definition complete_vfork_done (tsk : Z) : K unit :=
  x ← proc tsk;
  let vfork := pi_vfork_done x in
  when (negb (vfork =? NULL))
    (setp tsk (fun x => x <| pi_vfork_done := NULL |>) ;;
     emit "complete" [vfork]).

Definition wait_for_vfork_done (child vfork : Z) : K Z :=
  emit "freezer_do_not_count" [] ;;
  emit "cgroup_enter_frozen" [] ;;
  killed ← wait_for_completion_killable vfork;
  emit "cgroup_leave_frozen" [0] ;;
  emit "freezer_count" [] ;;
  when (truthy killed) (setp child (fun x => x <| pi_vfork_done := NULL |>)) ;;
  put_task_struct child ;;
  mret killed.

Definition mm_release (tsk mm : Z) : K unit :=
  emit "uprobe_free_utask" [tsk] ;;
  emit "deactivate_mm" [tsk; mm] ;;
  x ← proc tsk;
  when (negb (pi_clear_child_tid x =? NULL))
    (users ← mm ⇝ mm_users;
     when (1 <? users)
       (emit "put_user" [0; pi_clear_child_tid x] ;;
        emit "do_futex(FUTEX_WAKE)" [pi_clear_child_tid x; 1]) ;;
     setp tsk (fun x => x <| pi_clear_child_tid := NULL |>)) ;;
  x ← proc tsk;
  when (negb (pi_vfork_done x =? NULL)) (complete_vfork_done tsk).

Definition exit_mm_release (tsk mm : Z) : K unit :=
  emit "futex_exit_release" [tsk] ;;
  mm_release tsk mm.

Definition exec_mm_release (tsk mm : Z) : K unit :=
  emit "futex_exec_release" [tsk] ;;
  mm_release tsk mm.

(** * The address space of another task *)
Definition get_task_mm (task : Z) : K Z :=
  t ← deref (R := task_struct) task;
  let mm := ts_mm t in
  if mm =? NULL then mret NULL
  else if has_flag (ts_flags t) PF_KTHREAD then mret NULL
  else mmget mm ;; mret mm.

Definition mm_access (task mode : Z) : K (cres Z) :=
  killed ← gets (exec_update_lock_killed task);
  if (killed : bool) then mret (Err EINTR)
  else
    mm ← get_task_mm task;
    current ← gets m_current;
    t ← deref (R := task_struct) current;
    ok ← gets (ptrace_may_access task mode);
    if (negb (mm =? NULL) && negb (mm =? ts_mm t) && negb ok)%bool then
      mmput mm ;; mret (Err EACCES)
    else mret (Ok mm).

Definition mm_alloc : K Z :=
  mm ← gets (kmem_alloc "mm_struct");
  if mm =? NULL then mret NULL
  else
    modify (fun m => m <| m_mms := <[mm := Mk_mm 0 0]> (m_mms m) |>) ;;
    current ← gets m_current;
    mm_init mm current.

Definition copy_init_mm : K Z :=
  init_mm ← gets m_init_mm;
  dup_mm NULL init_mm.

Definition set_tid_address (tidptr : Z) : K Z :=
  current ← gets m_current;
  setp current (fun x => x <| pi_clear_child_tid := tidptr |>) ;;
  x ← proc current;
  gets (pid_vnr (pi_thread_pid x)).

(** The last reference to a dead task. *)
Definition __put_task_struct (exited : bool) (tsk : Z) : K unit :=
  when (negb exited) (emit "WARN_ON" [tsk]) ;;
  u ← tsk ⇝ ts_usage;
  when (truthy u) (emit "WARN_ON" [tsk]) ;;
  current ← gets m_current;
  when (tsk =? current) (emit "WARN_ON" [tsk]) ;;
  emit "io_uring_free" [tsk] ;;
  emit "cgroup_free" [tsk] ;;
  emit "task_numa_free" [tsk; 1] ;;
  release T_security tsk ;;
  emit "bpf_task_storage_free" [tsk] ;;
  release T_creds tsk ;;
  release T_delayacct tsk ;;
  x ← proc tsk;
  put_signal_struct (pi_signal x) ;;
  emit "sched_core_free" [tsk] ;;
  free_task tsk.

(** * kernel_clone() *)
Definition lower_32_bits (n : Z) : Z := u32 n.

(** [{ .flags = 0, ... }] *)
Definition kargs0 : kernel_clone_args := Mk_kargs 0 0 0 0 0 0 0 0 0 0 0 false.

(** The event reported to a tracer. *)
Definition clone_trace (args : kernel_clone_args) : K Z :=
  if has_flag (ka_flags args) CLONE_UNTRACED then mret 0
  else
    let trace := if has_flag (ka_flags args) CLONE_VFORK then PTRACE_EVENT_VFORK
                 else if negb (ka_exit_signal args =? SIGCHLD) then PTRACE_EVENT_CLONE
                 else PTRACE_EVENT_FORK in
    on ← ask (ptrace_event_enabled trace);
    mret (if (on : bool) then trace else 0).

Definition kernel_clone (args : kernel_clone_args) : K (cres Z) :=
  let clone_flags := ka_flags args in
  if (has_flag clone_flags CLONE_PIDFD && has_flag clone_flags CLONE_PARENT_SETTID &&
      (ka_pidfd args =? ka_parent_tid args))%bool then mret (Err EINVAL)
  else
    trace ← clone_trace args;
    r ← copy_process NULL trace NUMA_NO_NODE args;
    match r with
    | Err e => mret (Err e)
    | Ok p =>
        current ← gets m_current;
        emit "trace_sched_process_fork" [current; p] ;;
        x ← proc p;
        let pid := pi_thread_pid x in
        emit "get_pid" [pid] ;;
        nr ← gets (pid_vnr pid);
        when (has_flag clone_flags CLONE_PARENT_SETTID) (emit "put_user" [nr; ka_parent_tid args]) ;;
        vfork ← gets vfork_completion;
        when (has_flag clone_flags CLONE_VFORK)
          (setp p (fun x => x <| pi_vfork_done := vfork |>) ;;
           emit "init_completion" [vfork] ;;
           get_task_struct p) ;;
        wake_up_new_task p ;;
        when (truthy trace) (emit "ptrace_event_pid" [trace; pid]) ;;
        when (has_flag clone_flags CLONE_VFORK)
          (killed ← wait_for_vfork_done p vfork;
           when (negb (truthy killed)) (emit "ptrace_event_pid" [PTRACE_EVENT_VFORK_DONE; pid])) ;;
        emit "put_pid" [pid] ;;
        mret (Ok nr)
    end.

(** * Threads of the kernel *)
Definition kthread_args (fn arg flags : Z) : kernel_clone_args :=
  Mk_kargs (Z.ldiff (Z.lor (Z.lor (lower_32_bits flags) CLONE_VM) CLONE_UNTRACED) CSIGNAL) 0 0 0
    (Z.land (lower_32_bits flags) CSIGNAL) fn arg 0 0 0 0 false.

Definition kernel_thread (fn arg flags : Z) : K (cres Z) := kernel_clone (kthread_args fn arg flags).

Definition create_io_thread (fn arg node : Z) : K (cres Z) :=
  let flags := Z.lor (Z.lor (Z.lor (Z.lor CLONE_FS CLONE_FILES) CLONE_SIGHAND) CLONE_THREAD) CLONE_IO in
  copy_process NULL 0 node ((kthread_args fn arg flags) <| ka_io_thread := true |>).

(** The idle task of a CPU that comes up; init_idle() is in core.c. *)
Definition init_idle_pids (idle : Z) : K unit :=
  setp idle (fun x => x <| pi_thread_pid := init_struct_pid |>) ;;
  x ← proc idle;
  upd! (pi_signal x) ⇝ sig_pid_tgid := (fun _ => init_struct_pid) ;;
  upd! (pi_signal x) ⇝ sig_pid_pgid := (fun _ => init_struct_pid) ;;
  upd! (pi_signal x) ⇝ sig_pid_sid := (fun _ => init_struct_pid).

Definition fork_idle (cpu : Z) : K (cres Z) :=
  r ← copy_process init_struct_pid 0 (cpu_to_node cpu) (kargs0 <| ka_flags := CLONE_VM |>);
  match r with
  | Err e => mret (Err e)
  | Ok task => init_idle_pids task ;; init_idle task cpu ;; mret (Ok task)
  end.

(** * System calls *)
Definition sys_fork_args : kernel_clone_args := kargs0 <| ka_exit_signal := SIGCHLD |>.
Definition fork : K (cres Z) := kernel_clone sys_fork_args.

Definition vfork_args : kernel_clone_args :=
  kargs0 <| ka_flags := Z.lor CLONE_VFORK CLONE_VM |> <| ka_exit_signal := SIGCHLD |>.
Definition vfork : K (cres Z) := kernel_clone vfork_args.

Definition legacy_args (clone_flags newsp parent_tidptr child_tidptr tls : Z) : kernel_clone_args :=
  Mk_kargs (Z.ldiff (lower_32_bits clone_flags) CSIGNAL) parent_tidptr child_tidptr parent_tidptr
    (Z.land (lower_32_bits clone_flags) CSIGNAL) newsp 0 tls 0 0 0 false.

Definition clone (clone_flags newsp parent_tidptr child_tidptr tls : Z) : K (cres Z) :=
  kernel_clone (legacy_args clone_flags newsp parent_tidptr child_tidptr tls).

Definition INT_MAX : Z := 2 ^ 31 - 1.

(** What the fields may be. *)
Definition clone_args_sane (usize : Z) (args : clone_args) : bool :=
  if MAX_PID_NS_LEVEL <? ca_set_tid_size args then false
  else if ((ca_set_tid args =? NULL) && (0 <? ca_set_tid_size args))%bool then false
  else if (negb (ca_set_tid args =? NULL) && (ca_set_tid_size args =? 0))%bool then false
  else if (truthy (Z.ldiff (ca_exit_signal args) CSIGNAL) || negb (valid_signal (ca_exit_signal args)))%bool then false
  else negb (has_flag (ca_flags args) CLONE_INTO_CGROUP &&
             ((INT_MAX <? ca_cgroup args) || (usize <? CLONE_ARGS_SIZE_VER2))).

Definition copy_clone_args_from_user (kset_tid uargs usize : Z) : K (cres kernel_clone_args) :=
  if PAGE_SIZE <? usize then mret (Err E2BIG)
  else if usize <? CLONE_ARGS_SIZE_VER0 then mret (Err EINVAL)
  else
    r ← gets (copy_struct_from_user uargs usize);
    match r with
    | Err e => mret (Err e)
    | Ok args =>
        if negb (clone_args_sane usize args) then mret (Err EINVAL)
        else
          let kargs := Mk_kargs (ca_flags args) (ca_pidfd args) (ca_child_tid args) (ca_parent_tid args)
                         (ca_exit_signal args) (ca_stack args) (ca_stack_size args) (ca_tls args)
                         NULL (ca_set_tid_size args) (ca_cgroup args) false in
          bad ← gets (set_tid_unreadable (ca_set_tid args) (ka_set_tid_size kargs));
          if (negb (ca_set_tid args =? NULL) && bad)%bool then mret (Err EFAULT)
          else mret (Ok (kargs <| ka_set_tid := kset_tid |>))
    end.

(** The stack is given by its lowest address and grows down: None when it is
    not valid, else the arguments with the initial stack pointer. *)
Definition clone3_stack_valid (kargs : kernel_clone_args) : option kernel_clone_args :=
  if ka_stack kargs =? 0 then
    if 0 <? ka_stack_size kargs then None else Some kargs
  else if ka_stack_size kargs =? 0 then None
  else if negb (access_ok (ka_stack kargs) (ka_stack_size kargs)) then None
  else Some (kargs <| ka_stack := u64 (ka_stack kargs + ka_stack_size kargs) |>).

Definition clone3_args_valid (kargs : kernel_clone_args) : option kernel_clone_args :=
  let flags := ka_flags kargs in
  if truthy (Z.ldiff flags (Z.lor (Z.lor CLONE_LEGACY_FLAGS CLONE_CLEAR_SIGHAND) CLONE_INTO_CGROUP)) then None
  else if has_flag flags (Z.lor CLONE_DETACHED CSIGNAL) then None
  else if both_flags flags CLONE_SIGHAND CLONE_CLEAR_SIGHAND then None
  else if (has_flag flags (Z.lor CLONE_THREAD CLONE_PARENT) && truthy (ka_exit_signal kargs))%bool then None
  else clone3_stack_valid kargs.

Definition clone3 (uargs size : Z) : K (cres Z) :=
  set_tid ← gets set_tid_array;
  r ← copy_clone_args_from_user set_tid uargs size;
  match r with
  | Err e => mret (Err e)
  | Ok kargs =>
      match clone3_args_valid kargs with
      | None => mret (Err EINVAL)
      | Some kargs => kernel_clone kargs
      end
  end.

(** * The number of threads *)
Definition MIN_THREADS : Z := 20.
Definition MAX_THREADS : Z := FUTEX_TID_MASK.

(** The position of the highest bit set, from 1. *)
Definition fls64 (x : Z) : Z := if x =? 0 then 0 else Z.log2 x + 1.
Definition clamp (v lo hi : Z) : Z := Z.min (Z.max v lo) hi.

Definition set_max_threads (max_threads_suggested : Z) : K unit :=
  let nr_pages := totalram_pages in
  let threads := if 64 <? fls64 nr_pages + fls64 PAGE_SIZE then MAX_THREADS
                 else u64 (nr_pages * PAGE_SIZE) / u64 (THREAD_SIZE * 8) in
  let threads := if max_threads_suggested <? threads then max_threads_suggested else threads in
  setfk (fun f => f <| fk_max_threads := clamp threads MIN_THREADS MAX_THREADS |>).

Definition sysctl_max_threads (write : bool) : K (cres unit) :=
  threads ← gets (fun m => fk_max_threads (m_fork m));
  r ← gets (proc_dointvec_minmax 1 MAX_THREADS threads);
  match r with
  | Err e => mret (Err e)
  | Ok threads =>
      when write (setfk (fun f => f <| fk_max_threads := threads |>)) ;;
      mret (Ok tt)
  end.
End Clone.
