(* ===== verification/CloneProofs.v ===== *)
(** The system calls that make a process agree: fork() and vfork() are calls of
    clone(), and clone3() with the same request does what clone() does, except
    for requests it rejects. *)
From S2P Require Import Prelude Headers Proc Kernel Extern RqClock Uclamp Prio Mm Affinity.
From S2P Require Import Migrate.
From S2P Require Import ForkExtern SchedFork Fork Wakeup Clone.
From S2P Require Import ForkProofs ForkSpec ForkSample WakeSample Sample.

(** alloc_pid() looks at no requested pid when there is none. *)
Class CloneExternOK (F : ForkExtern) : Prop := {
  alloc_pid_no_tids a a' : fork_result (alloc_pid a 0) = fork_result (alloc_pid a' 0);
}.

Section Proofs.
Context {H : Headers} {X : Extern} {FH : ForkHeaders} {F : ForkExtern} {CE : CloneExtern} {Mg : MigrateExtern}.
Context {FHOK : ForkHeadersOK FH} {COK : CloneExternOK F}.

(** The array of requested pids does not matter when it is empty. *)
Lemma kernel_clone_no_tids args a :
  ka_set_tid_size args = 0 -> kernel_clone (args <| ka_set_tid := a |>) = kernel_clone args.
Proof.
  intros En. destruct args as [fl pfd ct pt es st sz tls tid n cg io]. cbn in En. subst n.
  assert (E : call (alloc_pid a 0) = call (alloc_pid tid 0)) by (unfold call; by rewrite (alloc_pid_no_tids a tid)).
  unfold kernel_clone, copy_process, copy_process_pid. unfold upd. cbn [ka_flags ka_pidfd ka_parent_tid ka_set_tid ka_set_tid_size].
  by rewrite E.
Qed.

(** ** Bits of the flags *)
Lemma flag_values :
  CLONE_SIGHAND = 2 ^ 11 /\ CLONE_PARENT = 2 ^ 15 /\ CLONE_THREAD = 2 ^ 16 /\ CLONE_DETACHED = 2 ^ 22 /\
  CLONE_CLEAR_SIGHAND = 2 ^ 32 /\ CLONE_VM = 2 ^ 8 /\ CLONE_VFORK = 2 ^ 14 /\ CLONE_INTO_CGROUP = 2 ^ 33.
Proof. pose proof clone_flags_val as E. cbn in E. injection E. intros. split_and!; assumption. Qed.

Lemma u32_testbit z i : 32 <= i -> Z.testbit (u32 z) i = false.
Proof. intros Hi. apply Z.mod_pow2_bits_high. lia. Qed.

(** The flags of the old interface are within 32 bits and above the signal. *)
Lemma legacy_known z : Z.ldiff (Z.ldiff (u32 z) CSIGNAL)
  (Z.lor (Z.lor CLONE_LEGACY_FLAGS CLONE_CLEAR_SIGHAND) CLONE_INTO_CGROUP) = 0.
Proof.
  rewrite clone_legacy_val. apply Z.bits_inj'. intros i Hi. rewrite Z.bits_0, !Z.ldiff_spec, !Z.lor_spec.
  destruct (Z.le_gt_cases 32 i); [by rewrite u32_testbit|].
  replace (Z.testbit 0xffffffff i) with true; [by rewrite !andb_false_r|].
  change 0xffffffff with (Z.ones 32). by rewrite Z.ones_spec_low by lia.
Qed.

Lemma legacy_detached z :
  has_flag (Z.ldiff (u32 z) CSIGNAL) (Z.lor CLONE_DETACHED CSIGNAL) = has_flag (u32 z) CLONE_DETACHED.
Proof.
  unfold has_flag. f_equal. apply Z.bits_inj'. intros i Hi.
  rewrite !Z.land_spec, Z.ldiff_spec, Z.lor_spec. destruct flag_values as (_ & _ & _ & -> & _).
  rewrite csignal_val. change 0xff with (Z.ones 8).
  destruct (Z.le_gt_cases 8 i).
  - rewrite Z.ones_spec_high by lia. by rewrite orb_false_r, andb_true_r.
  - rewrite Z.ones_spec_low by lia. cbn [negb]. rewrite andb_false_r. rewrite Z.pow2_bits_false by lia. by rewrite andb_false_r.
Qed.

Lemma legacy_no_clear z : both_flags (Z.ldiff (u32 z) CSIGNAL) CLONE_SIGHAND CLONE_CLEAR_SIGHAND = false.
Proof.
  unfold both_flags. apply Z.eqb_neq. intros E. apply (f_equal (fun n => Z.testbit n 32)) in E.
  rewrite Z.land_spec, Z.ldiff_spec, u32_testbit, Z.lor_spec in E by lia.
  destruct flag_values as (Es & _ & _ & _ & Ec & _). rewrite Es, Ec in E. by vm_compute in E.
Qed.

Lemma legacy_threads z :
  has_flag (Z.ldiff (u32 z) CSIGNAL) (Z.lor CLONE_THREAD CLONE_PARENT) = has_flag (u32 z) (Z.lor CLONE_THREAD CLONE_PARENT).
Proof.
  unfold has_flag. f_equal. apply Z.bits_inj'. intros i Hi.
  rewrite !Z.land_spec, Z.ldiff_spec, Z.lor_spec. destruct flag_values as (_ & -> & -> & _).
  rewrite csignal_val. change 0xff with (Z.ones 8). destruct (Z.le_gt_cases 8 i).
  - rewrite Z.ones_spec_high by lia. by rewrite andb_true_r.
  - rewrite !Z.pow2_bits_false by lia. by rewrite !andb_false_r.
Qed.

Lemma legacy_signal z : Z.ldiff (Z.land (u32 z) CSIGNAL) CSIGNAL = 0.
Proof. apply Z.bits_inj'. intros i _. rewrite Z.ldiff_spec, Z.land_spec, Z.bits_0. by destruct (Z.testbit CSIGNAL i); rewrite ?andb_false_r. Qed.

(** ** The system calls *)

(** The requests of clone() that clone3() accepts: a signal that exists, none for
    a thread or a sibling, and no CLONE_DETACHED. *)
Definition clone3_accepts (clone_flags : Z) : bool :=
  let flags := u32 clone_flags in
  (valid_signal (Z.land flags CSIGNAL) && negb (has_flag flags CLONE_DETACHED) &&
   negb (has_flag flags (Z.lor CLONE_THREAD CLONE_PARENT) && truthy (Z.land flags CSIGNAL)))%bool.

(** The same request for clone3(), without a stack. *)
Definition as_clone_args (clone_flags parent_tidptr child_tidptr tls : Z) : clone_args :=
  Mk_clone_args (Z.ldiff (u32 clone_flags) CSIGNAL) parent_tidptr child_tidptr parent_tidptr
    (Z.land (u32 clone_flags) CSIGNAL) 0 0 tls 0 0 0.

Lemma as_args_sane flags pt ct tls usize :
  clone_args_sane usize (as_clone_args flags pt ct tls) = valid_signal (Z.land (u32 flags) CSIGNAL).
Proof.
  unfold clone_args_sane. cbn -[Z.ldiff Z.land u32]. rewrite max_pid_ns_level_val, legacy_signal. cbn [Z.ltb Z.compare truthy negb orb].
  replace (has_flag (Z.ldiff (u32 flags) CSIGNAL) CLONE_INTO_CGROUP) with false; [by destruct (valid_signal _)|].
  symmetry. unfold has_flag. apply truthy_false, Z.bits_inj'. intros i Hi.
  destruct flag_values as (_ & _ & _ & _ & _ & _ & _ & ->). rewrite Z.land_spec, Z.ldiff_spec, Z.bits_0.
  destruct (decide (i = 33)) as [->|Hi']; [by rewrite u32_testbit|]. rewrite Z.pow2_bits_false by lia. by rewrite andb_false_r.
Qed.

Lemma copy_legacy_args flags pt ct tls k uargs usize m :
  CLONE_ARGS_SIZE_VER0 <= usize <= PAGE_SIZE ->
  copy_struct_from_user uargs usize m = Ok (as_clone_args flags pt ct tls) ->
  copy_clone_args_from_user k uargs usize m =
    Ret (if valid_signal (Z.land (u32 flags) CSIGNAL) then Ok ((legacy_args flags 0 pt ct tls) <| ka_set_tid := k |>)
         else Err EINVAL) m.
Proof.
  intros Hu Hc. apply wp_eq. unfold copy_clone_args_from_user.
  replace (PAGE_SIZE <? usize) with false by lia. replace (usize <? CLONE_ARGS_SIZE_VER0) with false by lia.
  apply wp_bind, wp_gets. rewrite Hc, as_args_sane. destruct (valid_signal _); cbn [negb]; [|by apply wp_ret].
  apply wp_bind, wp_gets. cbn [as_clone_args ca_set_tid NULL Z.eqb negb andb]. apply wp_ret. split; [|done].
  reflexivity.
Qed.

Lemma legacy_args_valid flags pt ct tls k :
  clone3_args_valid ((legacy_args flags 0 pt ct tls) <| ka_set_tid := k |>) =
    if (negb (has_flag (u32 flags) CLONE_DETACHED) &&
        negb (has_flag (u32 flags) (Z.lor CLONE_THREAD CLONE_PARENT) && truthy (Z.land (u32 flags) CSIGNAL)))%bool
    then Some ((legacy_args flags 0 pt ct tls) <| ka_set_tid := k |>) else None.
Proof.
  unfold clone3_args_valid, legacy_args, lower_32_bits, upd. cbn [ka_flags ka_exit_signal]. rewrite legacy_known, legacy_detached, legacy_no_clear, legacy_threads.
  cbn [truthy Z.eqb negb]. destruct (has_flag (u32 flags) CLONE_DETACHED); [done|]. by case_match.
Qed.

(** C30: fork() and vfork() are clone() with the flags CLONE_VFORK | CLONE_VM and
    the signal SIGCHLD.  A clone3() call that reads the request of a clone()
    call without a new stack does exactly what that clone() call does when
    clone3() accepts the request, and otherwise returns -EINVAL and changes
    nothing: the old interface takes signals that do not exist, CLONE_DETACHED,
    and a signal for threads and siblings. *)
Theorem clone_calls_agree clone_flags parent_tidptr child_tidptr tls uargs usize m :
  CLONE_ARGS_SIZE_VER0 <= usize <= PAGE_SIZE ->
  copy_struct_from_user uargs usize m = Ok (as_clone_args clone_flags parent_tidptr child_tidptr tls) ->
  fork = clone SIGCHLD 0 0 0 0 /\
  vfork = clone (Z.lor (Z.lor CLONE_VFORK CLONE_VM) SIGCHLD) 0 0 0 0 /\
  clone3 uargs usize m =
    (if clone3_accepts clone_flags then clone clone_flags 0 parent_tidptr child_tidptr tls m
     else Ret (Err EINVAL) m).
Proof.
  intros Hu Hc. destruct flag_values as (_ & _ & _ & _ & _ & Evm & Evf & _). split; [|split].
  - unfold fork, clone, sys_fork_args, legacy_args. rewrite sigchld_val, csignal_val. reflexivity.
  - unfold vfork, clone, vfork_args, legacy_args. rewrite Evm, Evf, sigchld_val, csignal_val. reflexivity.
  - unfold clone3, clone3_accepts, mbind, M_bind, gets. rewrite (copy_legacy_args _ _ _ _ _ _ _ _ Hu Hc).
    destruct (valid_signal _); [|done]. rewrite legacy_args_valid. cbn [andb].
    destruct (negb (has_flag (u32 clone_flags) CLONE_DETACHED) && _)%bool; [|done].
    by rewrite kernel_clone_no_tids.
Qed.
End Proofs.

(** * On the sample machine *)
#[local] Existing Instance linux_headers.
#[local] Existing Instance linux_fork_headers.
#[local] Existing Instance Demo.extern.
#[local] Existing Instance DemoMigrate.migrate_extern.

(** User memory holds [args] at every address. *)
Definition demo_clone (args : clone_args) : CloneExtern := {|
  copy_struct_from_user _ _ _ := Ok args;
  set_tid_unreadable _ _ _ := false;
  access_ok _ _ := true;
  pid_vnr pid _ := pid;
  vfork_completion _ := 500; set_tid_array _ := 501;
  wait_for_completion_killable _ := mret 0;
  exec_update_lock_killed _ _ := false; ptrace_may_access _ _ _ := true;
  totalram_pages := 2 ^ 20; THREAD_SIZE := 16384; FUTEX_TID_MASK := 0x3fffffff;
  proc_dointvec_minmax _ _ v _ := Ok v;
  init_idle _ _ := mret tt;
|}.

#[local] Instance demo_clone_ok fatal : CloneExternOK (DemoFork.fork_extern fatal).
Proof. done. Qed.

(** CLONE_VFORK | CLONE_VM | SIGCHLD is accepted, a thread with a signal is not. *)
Definition vfork_flags : Z := Z.lor (Z.lor CLONE_VFORK CLONE_VM) SIGCHLD.

Lemma clone_calls_agree_witness :
  let F := DemoFork.fork_extern false in
  let C := demo_clone (as_clone_args vfork_flags 0 0 0) in
  clone3_accepts vfork_flags = true /\ clone3_accepts (Z.lor CLONE_THREAD SIGCHLD) = false /\
  clone3 600 88 fork_machine =
    (if clone3_accepts vfork_flags then clone vfork_flags 0 0 0 0 fork_machine else Ret (Err EINVAL) fork_machine).
Proof.
  cbv zeta. split; [reflexivity|]. split; [reflexivity|].
  apply (clone_calls_agree (F := DemoFork.fork_extern false) (CE := demo_clone (as_clone_args vfork_flags 0 0 0))).
  - split; discriminate.
  - reflexivity.
Defined.

(** fork() of the sample task: the pid, and the state and queue of the child. *)
Example fork_runs :
  let F := DemoFork.fork_extern false in let C := demo_clone (as_clone_args 0 0 0 0) in
  match fork fork_machine with
  | Ret r m' => Some (r, (fun t => (ts_state t, ts_on_rq t, pi_vfork_done (ts_proc t))) <$> m_tasks m' !! 204)
  | Stuck _ => None
  end = Some (Ok 300, Some (TASK_RUNNING, 1, 0)).
Proof. vm_compute. reflexivity. Qed.
