(* ===== verification/Unshare.v ===== *)
(** unshare() (fork.c): giving the current task its own filesystem information,
    file table, credentials and namespaces, with the labels of the error path.

    [unshare_userns] and [unshare_nsproxy_namespaces] make objects for the
    caller: NULL when the flags ask for nothing.  A new one is held by the
    current task, as a token, until it is put or installed. *)
From S2P Require Import Prelude Headers Proc Kernel Extern RqClock Uclamp Prio Mm Affinity.
From S2P Require Import ForkExtern SchedFork Fork.

Class UnshareExtern := {
  thread_group_empty : Z -> machine -> bool;
  current_is_single_threaded : machine -> bool;
  unshare_userns_result : Z -> machine -> cres Z;
  unshare_nsproxy_result : Z -> Z -> Z -> machine -> cres Z;
  set_cred_ucounts : Z -> machine -> cres unit;
  (** fs/file.c, fs/fs_struct.c *)
  put_files_struct : Z -> K unit;
  free_fs_struct : Z -> K unit;
}.

Section Unshare.
Context {H : Headers} {FH : ForkHeaders} {F : ForkExtern} {UE : UnshareExtern}.

Definition flags_or (l : list Z) : Z := fold_left Z.lor l 0.

Definition UNSHARE_FLAGS : Z :=
  flags_or [CLONE_THREAD; CLONE_FS; CLONE_NEWNS; CLONE_SIGHAND; CLONE_VM; CLONE_FILES; CLONE_SYSVSEM;
            CLONE_NEWUTS; CLONE_NEWIPC; CLONE_NEWNET; CLONE_NEWUSER; CLONE_NEWPID; CLONE_NEWCGROUP;
            CLONE_NEWTIME].

Definition check_unshare_flags (unshare_flags : Z) : K (cres unit) :=
  if truthy (Z.ldiff unshare_flags UNSHARE_FLAGS) then mret (Err EINVAL)
  else
    current ← gets m_current;
    x ← proc current;
    empty ← gets (thread_group_empty current);
    count ← (if has_flag unshare_flags (flags_or [CLONE_SIGHAND; CLONE_VM]) then pi_sighand x ⇝ sh_count
             else mret 0);
    single ← gets current_is_single_threaded;
    if (has_flag unshare_flags (flags_or [CLONE_THREAD; CLONE_SIGHAND; CLONE_VM]) && negb empty)%bool
    then mret (Err EINVAL)
    else if 1 <? count then mret (Err EINVAL)
    else if (has_flag unshare_flags CLONE_VM && negb single)%bool then mret (Err EINVAL)
    else mret (Ok tt).

(** The new object, or NULL when there is nothing to unshare. *)
Definition unshare_fs (unshare_flags : Z) : K (cres Z) :=
  current ← gets m_current;
  x ← proc current;
  let fs := pi_fs x in
  if (negb (has_flag unshare_flags CLONE_FS) || (fs =? NULL))%bool then mret (Ok NULL)
  else
    users ← fs ⇝ fs_users;
    if users =? 1 then mret (Ok NULL)
    else
      new ← copy_fs_struct fs;
      mret (if new =? NULL then Err ENOMEM else Ok new).

Definition unshare_fd (unshare_flags : Z) : K (cres Z) :=
  current ← gets m_current;
  x ← proc current;
  let fd := pi_files x in
  if (has_flag unshare_flags CLONE_FILES && negb (fd =? NULL))%bool then
    n ← fd ⇝ files_count;
    if 1 <? n then dup_fd fd else mret (Ok NULL)
  else mret (Ok NULL).

Definition make (t : token) (r : cres Z) : K (cres Z) :=
  current ← gets m_current;
  match r with
  | Ok new => when (negb (new =? NULL)) (hold [t] current) ;; mret (Ok new)
  | Err e => mret (Err e)
  end.

Definition unshare_userns (unshare_flags : Z) : K (cres Z) :=
  r ← gets (unshare_userns_result unshare_flags);
  make T_new_cred r.

Definition unshare_nsproxy_namespaces (unshare_flags new_cred new_fs : Z) : K (cres Z) :=
  r ← gets (unshare_nsproxy_result unshare_flags new_cred new_fs);
  make T_new_nsproxy r.

Definition drop_made (t : token) : K unit := current ← gets m_current; release t current.

(** Which flags come with which. *)
Definition implied_flags (unshare_flags : Z) : Z :=
  let f := unshare_flags in
  let f := if has_flag f CLONE_NEWUSER then Z.lor f (Z.lor CLONE_THREAD CLONE_FS) else f in
  let f := if has_flag f CLONE_VM then Z.lor f CLONE_SIGHAND else f in
  let f := if has_flag f CLONE_SIGHAND then Z.lor f CLONE_THREAD else f in
  if has_flag f CLONE_NEWNS then Z.lor f CLONE_FS else f.

(** ** The labels *)
Definition bad_unshare_cleanup_fs {A} (new_fs : Z) (r : cres A) : K (cres A) :=
  when (negb (new_fs =? NULL)) (free_fs_struct new_fs) ;;
  mret r.

Definition bad_unshare_cleanup_fd {A} (new_fd new_fs : Z) (r : cres A) : K (cres A) :=
  when (negb (new_fd =? NULL)) (put_files_struct new_fd) ;;
  bad_unshare_cleanup_fs new_fs r.

Definition bad_unshare_cleanup_cred {A} (new_cred new_fd new_fs : Z) (r : cres A) : K (cres A) :=
  when (negb (new_cred =? NULL)) (drop_made T_new_cred ;; emit "put_cred" [new_cred]) ;;
  bad_unshare_cleanup_fd new_fd new_fs r.

(** ** Installing what was made *)

(** current->fs = new_fs: what remains for the caller to free. *)
Definition install_fs (new_fs : Z) : K Z :=
  if new_fs =? NULL then mret NULL
  else
    current ← gets m_current;
    x ← proc current;
    let fs := pi_fs x in
    setp current (fun x => x <| pi_fs := new_fs |>) ;;
    upd! fs ⇝ fs_users := (fun n => n - 1) ;;
    users ← fs ⇝ fs_users;
    mret (if truthy users then NULL else fs).

(** swap(current->files, new_fd) *)
Definition install_fd (new_fd : Z) : K Z :=
  if new_fd =? NULL then mret NULL
  else
    current ← gets m_current;
    x ← proc current;
    setp current (fun x => x <| pi_files := new_fd |>) ;;
    mret (pi_files x).

Definition install (unshare_flags new_fs new_fd new_cred new_nsproxy : Z) : K (Z * Z) :=
  current ← gets m_current;
  let do_sysvsem := has_flag unshare_flags (Z.lor CLONE_NEWIPC CLONE_SYSVSEM) in
  when do_sysvsem (emit "exit_sem" [current]) ;;
  when (has_flag unshare_flags CLONE_NEWIPC)
    (emit "exit_shm" [current] ;; emit "shm_init_task" [current]) ;;
  when (negb (new_nsproxy =? NULL))
    (drop_made T_new_nsproxy ;; emit "switch_task_namespaces" [current; new_nsproxy]) ;;
  old_fs ← install_fs new_fs;
  old_fd ← install_fd new_fd;
  when (negb (new_cred =? NULL)) (drop_made T_new_cred ;; emit "commit_creds" [new_cred]) ;;
  mret (old_fs, old_fd).

Definition ksys_unshare (unshare_flags : Z) : K (cres unit) :=
  let unshare_flags := implied_flags unshare_flags in
  pass _ := check_unshare_flags unshare_flags;
  let do_sysvsem := has_flag unshare_flags (Z.lor CLONE_NEWIPC CLONE_SYSVSEM) in
  pass new_fs := unshare_fs unshare_flags;
  try new_fd := unshare_fd unshare_flags goto (fun e => bad_unshare_cleanup_fs new_fs (Err e));
  try new_cred := unshare_userns unshare_flags
    goto (fun e => bad_unshare_cleanup_fd new_fd new_fs (Err e));
  try new_nsproxy := unshare_nsproxy_namespaces unshare_flags new_cred new_fs
    goto (fun e => bad_unshare_cleanup_cred new_cred new_fd new_fs (Err e));
  try _ := (if new_cred =? NULL then mret (Ok tt) else gets (set_cred_ucounts new_cred))
    goto (fun e => bad_unshare_cleanup_cred new_cred new_fd new_fs (Err e));
  current ← gets m_current;
  if (negb (new_fs =? NULL) || negb (new_fd =? NULL) || do_sysvsem || negb (new_cred =? NULL) ||
      negb (new_nsproxy =? NULL))%bool then
    old ← install unshare_flags new_fs new_fd new_cred new_nsproxy;
    emit "perf_event_namespaces" [current] ;;
    bad_unshare_cleanup_cred NULL old.2 old.1 (Ok tt)
  else
    emit "perf_event_namespaces" [current] ;;
    bad_unshare_cleanup_cred new_cred new_fd new_fs (Ok tt).

Definition unshare (unshare_flags : Z) : K (cres unit) := ksys_unshare unshare_flags.

(** The file table of a task about to execute another program. *)
Definition unshare_files : K (cres unit) :=
  current ← gets m_current;
  r ← unshare_fd CLONE_FILES;
  match r with
  | Err e => mret (Err e)
  | Ok copy =>
      if copy =? NULL then mret (Ok tt)
      else
        x ← proc current;
        setp current (fun x => x <| pi_files := copy |>) ;;
        put_files_struct (pi_files x) ;;
        mret (Ok tt)
  end.
End Unshare.
