(* ===== verification/UnshareProofs.v ===== *)
(** What unshare() guarantees: a call that fails leaves everything as it was, but for
    one set of namespaces when set_cred_ucounts() is what failed; a call that succeeds gives the current task
    objects of its own with one reference, and takes that reference from the
    shared ones. *)
From S2P Require Import Prelude Headers Proc Kernel Extern RqClock Uclamp Prio Mm Affinity.
From S2P Require Import ForkExtern SchedFork Fork Unshare.
From S2P Require Import ForkProofs ForkSpec ForkSample Sample.

(** fs/file.c and fs/fs_struct.c: dropping a file table, freeing an fs_struct. *)
Class UnshareExternOK (UE : UnshareExtern) : Prop := {
  put_files_struct_ok a x m : fk_files (m_fork m) !! a = Some x ->
    put_files_struct a m = Ret tt (set_store (put_files a x (fk_files (m_fork m))) m);
  free_fs_struct_ok a x m : fk_fs (m_fork m) !! a = Some x ->
    free_fs_struct a m = Ret tt (set_store (delete a (fk_fs (m_fork m))) m);
}.

Section Proofs.
Context {H : Headers} {FH : ForkHeaders} {F : ForkExtern} {UE : UnshareExtern}.
Context {FOK : ForkExternOK F} {UOK : UnshareExternOK UE}.

(** ** The part of the machine unshare() works on *)
Record sharing : Type := Mk_sharing {
  sh_tasks : gmap Z task_struct;
  sh_fs : gmap Z fs_struct;
  sh_files : gmap Z files_struct;
  sh_held : list (token * Z);
}.
#[local] Instance eta_sharing : Eta sharing := fun s => Mk_sharing (sh_tasks s) (sh_fs s) (sh_files s) (sh_held s).

Definition sharing_of (m : machine) : sharing :=
  Mk_sharing (m_tasks m) (fk_fs (m_fork m)) (fk_files (m_fork m)) (fk_held (m_fork m)).

(** The rest of it, less the log. *)
Definition unrelated (m : machine) : machine :=
  m <| m_log := [] |> <| m_tasks := ∅ |>
    <| m_fork := (m_fork m) <| fk_fs := ∅ |> <| fk_files := ∅ |> <| fk_held := [] |> |>.

Context (b : machine).

Definition shares (s : sharing) (m : machine) : Prop := sharing_of m = s /\ unrelated m = unrelated b.

Lemma shares_current s m : shares s m -> m_current m = m_current b.
Proof. intros [_ E]. exact (f_equal m_current E). Qed.

Lemma shares_fs s m : shares s m -> fk_fs (m_fork m) = sh_fs s.
Proof. intros [<- _]. done. Qed.
Lemma shares_files s m : shares s m -> fk_files (m_fork m) = sh_files s.
Proof. intros [<- _]. done. Qed.
Lemma shares_tasks s m : shares s m -> m_tasks m = sh_tasks s.
Proof. intros [<- _]. done. Qed.
Lemma shares_held s m : shares s m -> fk_held (m_fork m) = sh_held s.
Proof. intros [<- _]. done. Qed.

(** ** Steps *)
Lemma wp_un_emit e l s (Q : unit -> machine -> Prop) m :
  shares s m -> (forall m', shares s m' -> Q tt m') -> wp (emit e l) Q m.
Proof. intros Hs HQ. apply wp_emit, HQ, Hs. Qed.

Lemma wp_un_task t s (Q : proc_info -> machine -> Prop) m :
  shares s m -> sh_tasks s !! m_current b = Some t -> Q (ts_proc t) m -> wp (proc (m_current b)) Q m.
Proof. intros Hs Ht HQ. apply wp_rd. exists t. cbn. by rewrite (shares_tasks _ _ Hs). Qed.

Lemma wp_un_setp g t s (Q : unit -> machine -> Prop) m :
  shares s m -> sh_tasks s !! m_current b = Some t ->
  (forall m', shares (s <| sh_tasks := <[m_current b := upd ts_proc g t]> (sh_tasks s) |>) m' -> Q tt m') ->
  wp (setp (m_current b) g) Q m.
Proof.
  intros Hs Ht HQ. apply wp_upd_obj. exists t. cbn. rewrite (shares_tasks _ _ Hs). split; [done|].
  apply HQ. destruct Hs as [<- Hr]. by split.
Qed.

Lemma wp_un_cur (Q : Z -> machine -> Prop) s m : shares s m -> Q (m_current b) m -> wp (gets m_current) Q m.
Proof. intros Hs HQ. apply wp_gets. by rewrite (shares_current _ _ Hs). Qed.

Lemma wp_un_hold t s (Q : unit -> machine -> Prop) m :
  shares s m -> (forall m', shares (s <| sh_held := (t, m_current b) :: sh_held s |>) m' -> Q tt m') ->
  wp (hold [t] (m_current b)) Q m.
Proof. intros [<- Hr] HQ. apply wp_modify, HQ. by split. Qed.

(** The token on top, or the one below it. *)
Lemma wp_un_drop t s (Q : unit -> machine -> Prop) m :
  shares s m ->
  (forall m', shares (s <| sh_held := remove_token t (m_current b) (sh_held s) |>) m' -> Q tt m') ->
  wp (drop_made t) Q m.
Proof.
  intros Hs HQ. unfold drop_made. apply wp_bind, (wp_un_cur _ s _ Hs), wp_modify, HQ. destruct Hs as [<- Hr]. by split.
Qed.

(** A call of the filesystem code with a known effect. *)
Lemma wp_un_files c B s (Q : unit -> machine -> Prop) m :
  shares s m -> c m = Ret tt (set_store B m) ->
  (forall m', shares (s <| sh_files := B |>) m' -> Q tt m') -> wp c Q m.
Proof. intros [<- Hr] E HQ. unfold wp. rewrite E. apply HQ. by split. Qed.

Lemma wp_un_fs c A s (Q : unit -> machine -> Prop) m :
  shares s m -> c m = Ret tt (set_store A m) ->
  (forall m', shares (s <| sh_fs := A |>) m' -> Q tt m') -> wp c Q m.
Proof. intros [<- Hr] E HQ. unfold wp. rewrite E. apply HQ. by split. Qed.

Lemma put_files_last a B : B !! a = None -> put_files a (Mk_files 1) (<[a := Mk_files 1]> B) = B.
Proof. intros Ha. unfold put_files. cbn. by apply delete_insert_id. Qed.

(** ** What the call starts from: the objects of the current task are counted *)
Context (t : task_struct) (Ht : m_tasks b !! m_current b = Some t).
Local Abbreviation x := (ts_proc t).
Local Abbreviation fs0 := (fk_fs (m_fork b)).
Local Abbreviation files0 := (fk_files (m_fork b)).
Local Abbreviation held0 := (fk_held (m_fork b)).

Definition users_of (a : Z) : Z := if fs0 !! a is Some f then fs_users f else 0.
Definition count_of (a : Z) : Z := if files0 !! a is Some f then files_count f else 0.

Record unshare_ready : Prop := Mk_unshare_ready {
  ur_fs : pi_fs x = NULL \/ exists f, fs0 !! pi_fs x = Some f /\ 1 <= fs_users f;
  ur_files : pi_files x = NULL \/ exists f, files0 !! pi_files x = Some f /\ 1 <= files_count f;
  ur_sighand : is_Some (fk_sighand (m_fork b) !! pi_sighand x);
}.
Context (Hr : unshare_ready).

(** What there is to unshare. *)
Definition fs_shared (flags : Z) : bool :=
  (has_flag flags CLONE_FS && negb (pi_fs x =? NULL) && negb (users_of (pi_fs x) =? 1))%bool.
Definition files_shared (flags : Z) : bool :=
  (has_flag flags CLONE_FILES && negb (pi_files x =? NULL) && (1 <? count_of (pi_files x)))%bool.

(** [a] is a new object when there is something to unshare, and NULL otherwise. *)
Definition made_for {A} (shared : bool) (st : gmap Z A) (a : Z) : Prop :=
  if shared then a <> NULL /\ st !! a = None else a = NULL.

(** While the call runs: the objects made so far. *)
Definition with_obj {A} (a : Z) (v : A) (st : gmap Z A) : gmap Z A := if a =? NULL then st else <[a := v]> st.
Definition with_tok (k : token) (a : Z) (l : list (token * Z)) : list (token * Z) :=
  if a =? NULL then l else (k, m_current b) :: l.

Definition made (nf nd nc nn : Z) : sharing :=
  Mk_sharing (m_tasks b) (with_obj nf (Mk_fs 1 false) fs0) (with_obj nd (Mk_files 1) files0)
    (with_tok T_new_nsproxy nn (with_tok T_new_cred nc held0)).

(** At the end: the current task has the new objects, and the shared ones have
    one reference less. *)
Definition drop_fs (f : fs_struct) : fs_struct := f <| fs_users := fs_users f - 1 |>.
Definition drop_files (f : files_struct) : files_struct := f <| files_count := files_count f - 1 |>.

Definition swapped {A} (new old : Z) (v : A) (drop : A -> A) (st : gmap Z A) : gmap Z A :=
  if new =? NULL then st else alter drop old (<[new := v]> st).

Definition unshared (nf nd : Z) : sharing :=
  Mk_sharing
    (<[m_current b := upd ts_proc (fun p => p <| pi_fs := if nf =? NULL then pi_fs x else nf |>
                                              <| pi_files := if nd =? NULL then pi_files x else nd |>) t]> (m_tasks b))
    (swapped nf (pi_fs x) (Mk_fs 1 false) drop_fs fs0)
    (swapped nd (pi_files x) (Mk_files 1) drop_files files0)
    held0.

Lemma shares_start : shares (made NULL NULL NULL NULL) b.
Proof. done. Qed.

(** ** The parts of the call *)
Lemma wp_check_flags flags (Q : cres unit -> machine -> Prop) m :
  shares (made NULL NULL NULL NULL) m -> (forall r, Q r m) -> wp (check_unshare_flags flags) Q m.
Proof.
  intros Hs HQ. unfold check_unshare_flags. case_match; [by apply wp_ret|].
  apply wp_bind, (wp_un_cur _ _ _ Hs), wp_bind, (wp_un_task t _ _ _ Hs Ht), wp_bind, wp_gets.
  assert (Hsig : is_Some (fk_sighand (m_fork m) !! pi_sighand x)).
  { pose proof (f_equal (fun y => fk_sighand (m_fork y)) (proj2 Hs)) as E.
    change (fk_sighand (m_fork m) = fk_sighand (m_fork b)) in E. rewrite E. apply (ur_sighand Hr). }
  destruct Hsig as [sh Hsh]. apply wp_bind.
  assert (Hend : forall n, wp (single ← gets current_is_single_threaded;
    if (has_flag flags (flags_or [CLONE_THREAD; CLONE_SIGHAND; CLONE_VM]) && negb (thread_group_empty (m_current b) m))%bool
    then mret (Err EINVAL)
    else if 1 <? n then mret (Err EINVAL)
    else if (has_flag flags CLONE_VM && negb single)%bool then mret (Err EINVAL)
    else mret (Ok tt)) Q m).
  { intros n. apply wp_bind, wp_gets. repeat case_match; by apply wp_ret. }
  destruct (has_flag flags (flags_or [CLONE_SIGHAND; CLONE_VM])); [|apply wp_ret, Hend]. apply wp_rd. exists sh. split; [exact Hsh | apply Hend].
Qed.

Lemma wp_unshare_fs flags (Q : cres Z -> machine -> Prop) m :
  shares (made NULL NULL NULL NULL) m -> (forall e, Q (Err e) m) ->
  (forall nf m', made_for (fs_shared flags) fs0 nf -> shares (made nf NULL NULL NULL) m' -> Q (Ok nf) m') ->
  wp (unshare_fs flags) Q m.
Proof.
  intros Hs HE HQ. unfold unshare_fs. apply wp_bind, (wp_un_cur _ _ _ Hs), wp_bind, (wp_un_task t _ _ _ Hs Ht).
  unfold fs_shared in HQ. destruct (has_flag flags CLONE_FS); cbn [negb orb andb] in *; [|by apply wp_ret, HQ].
  destruct (Z.eqb_spec (pi_fs x) NULL) as [|Hn]; cbn [negb orb andb] in *; [by apply wp_ret, HQ|].
  destruct (ur_fs Hr) as [?|(f & Hf & Hu)]; [done|].
  assert (Hm : fk_fs (m_fork m) !! pi_fs x = Some f) by (by rewrite (shares_fs _ _ Hs)).
  unfold users_of in HQ. rewrite Hf in HQ. apply wp_bind, wp_rd. exists f. split; [exact Hm|].
  destruct (fs_users f =? 1); cbn [negb] in HQ; [by apply wp_ret, HQ|].
  destruct (copy_fs_struct_ok (pi_fs x) m) as [a [[-> E]|[Ha E]]]; apply wp_bind; unfold wp at 1; rewrite E.
  - apply wp_ret, HE.
  - destruct Ha as (Ha & _ & _ & Hfa & _). replace (a =? NULL) with false by (unfold NULL in *; lia).
    rewrite (shares_fs _ _ Hs) in Hfa. apply wp_ret, HQ; [done|]. destruct Hs as [Es Ev]. split; [|done].
    unfold made, with_obj. replace (a =? NULL) with false by (unfold NULL in *; lia).
    injection Es as E1 E2 E3 E4. unfold sharing_of. cbn. by rewrite E1, E2, E3, E4.
Qed.

Lemma wp_unshare_fd flags nf (Q : cres Z -> machine -> Prop) m :
  shares (made nf NULL NULL NULL) m -> (forall e, Q (Err e) m) ->
  (forall nd m', made_for (files_shared flags) files0 nd -> shares (made nf nd NULL NULL) m' -> Q (Ok nd) m') ->
  wp (unshare_fd flags) Q m.
Proof.
  intros Hs HE HQ. unfold unshare_fd. apply wp_bind, (wp_un_cur _ _ _ Hs), wp_bind, (wp_un_task t _ _ _ Hs Ht).
  unfold files_shared in HQ. destruct (has_flag flags CLONE_FILES); cbn [negb andb] in *; [|by apply wp_ret, HQ].
  destruct (Z.eqb_spec (pi_files x) NULL) as [|Hn]; cbn [negb andb] in *; [by apply wp_ret, HQ|].
  destruct (ur_files Hr) as [?|(f & Hf & Hu)]; [done|].
  assert (Hm : fk_files (m_fork m) !! pi_files x = Some f) by (by rewrite (shares_files _ _ Hs)).
  unfold count_of in HQ. rewrite Hf in HQ. apply wp_bind, wp_rd. exists f. split; [exact Hm|].
  destruct (1 <? files_count f); [|by apply wp_ret, HQ].
  destruct (dup_fd_ok (pi_files x) m) as [[e E]|[a [Ha E]]]; unfold wp; rewrite E; [apply HE|].
  destruct Ha as (Ha & _ & _ & _ & Hfa & _).
  rewrite (shares_files _ _ Hs) in Hfa. apply HQ; [done|]. destruct Hs as [Es Ev]. split; [|done].
  unfold made, with_obj. replace (a =? NULL) with false by (unfold NULL in *; lia).
  injection Es as E1 E2 E3 E4. unfold sharing_of. cbn. by rewrite E1, E2, E3, E4.
Qed.

Lemma wp_make k r s (Q : cres Z -> machine -> Prop) m :
  shares s m -> (forall e, Q (Err e) m) ->
  (forall a m', r = Ok a -> shares (s <| sh_held := with_tok k a (sh_held s) |>) m' -> Q (Ok a) m') ->
  wp (make k r) Q m.
Proof.
  intros Hs HE HQ. unfold make. apply wp_bind, (wp_un_cur _ _ _ Hs). destruct r as [a|e]; [|by apply wp_ret].
  unfold with_tok in HQ. specialize (HQ a). destruct (a =? NULL); cbn [negb when].
  - apply wp_bind, wp_ret, wp_ret, HQ; [done | by destruct s].
  - apply wp_bind, (wp_un_hold _ _ _ _ Hs). intros m' Hs'. by apply wp_ret, HQ.
Qed.

(** ** The error path *)
Lemma wp_undo_fs {A} (r : cres A) shared nf nc nn (Q : cres A -> machine -> Prop) m :
  made_for shared fs0 nf -> shares (made nf NULL nc nn) m ->
  (forall m', shares (made NULL NULL nc nn) m' -> Q r m') -> wp (bad_unshare_cleanup_fs nf r) Q m.
Proof.
  intros Hn Hs HQ. unfold bad_unshare_cleanup_fs. apply wp_bind. destruct shared; [|cbn in Hn; subst nf; by apply wp_ret, wp_ret, HQ].
  destruct Hn as [Hn Hf]. replace (nf =? NULL) with false by (unfold NULL in *; lia). cbn [negb when].
  assert (E : fk_fs (m_fork m) = <[nf := Mk_fs 1 false]> fs0).
  { rewrite (shares_fs _ _ Hs). unfold made, with_obj. by replace (nf =? NULL) with false by (unfold NULL in *; lia). }
  eapply wp_un_fs; [exact Hs | apply (free_fs_struct_ok _ (Mk_fs 1 false)); rewrite E; apply lookup_insert_eq |].
  intros m' Hs'. apply wp_ret, HQ. rewrite E, delete_insert_id in Hs' by done. exact Hs'.
Qed.

Lemma wp_undo_fd {A} (r : cres A) sf sd nf nd nc nn (Q : cres A -> machine -> Prop) m :
  made_for sf fs0 nf -> made_for sd files0 nd -> shares (made nf nd nc nn) m ->
  (forall m', shares (made NULL NULL nc nn) m' -> Q r m') -> wp (bad_unshare_cleanup_fd nd nf r) Q m.
Proof.
  intros Hn Hd Hs HQ. unfold bad_unshare_cleanup_fd. apply wp_bind.
  destruct sd; [|cbn in Hd; subst nd; by apply wp_ret, (wp_undo_fs r sf nf nc nn)].
  destruct Hd as [Hd Hf]. replace (nd =? NULL) with false by (unfold NULL in *; lia). cbn [negb when].
  assert (E : fk_files (m_fork m) = <[nd := Mk_files 1]> files0).
  { rewrite (shares_files _ _ Hs). unfold made, with_obj. by replace (nd =? NULL) with false by (unfold NULL in *; lia). }
  eapply wp_un_files; [exact Hs | apply (put_files_struct_ok _ (Mk_files 1)); rewrite E; apply lookup_insert_eq |].
  intros m' Hs'. apply (wp_undo_fs r sf nf nc nn); [done | | done]. rewrite E, put_files_last in Hs' by done. exact Hs'.
Qed.

(** Dropping the credentials leaves the namespaces. *)
Lemma drop_cred_tok nc nn : nc <> NULL ->
  remove_token T_new_cred (m_current b) (with_tok T_new_nsproxy nn (with_tok T_new_cred nc held0)) =
  with_tok T_new_nsproxy nn held0.
Proof.
  intros Hn. unfold with_tok. replace (nc =? NULL) with false by (unfold NULL in *; lia).
  destruct (nn =? NULL); [apply remove_token_head|]. cbn [remove_token]. rewrite bool_decide_false by done. cbn [andb].
  f_equal. apply remove_token_head.
Qed.

Lemma wp_undo_cred {A} (r : cres A) sf sd nf nd nc nn (Q : cres A -> machine -> Prop) m :
  made_for sf fs0 nf -> made_for sd files0 nd -> shares (made nf nd nc nn) m ->
  (forall m', shares (made NULL NULL NULL nn) m' -> Q r m') -> wp (bad_unshare_cleanup_cred nc nd nf r) Q m.
Proof.
  intros Hn Hd Hs HQ. unfold bad_unshare_cleanup_cred. apply wp_bind.
  destruct (Z.eqb_spec nc NULL) as [->|Hc]; cbn [negb when].
  { by apply wp_ret, (wp_undo_fd r sf sd nf nd NULL nn). }
  apply wp_bind, (wp_un_drop _ _ _ _ Hs). clear m Hs. intros m Hs.
  apply (wp_un_emit _ _ _ _ _ Hs). clear m Hs. intros m Hs.
  apply (wp_undo_fd r sf sd nf nd NULL nn); [done.. | | done].
  cbn in Hs. rewrite drop_cred_tok in Hs by done. exact Hs.
Qed.

(** ** Installing *)
Lemma alter_known {A} (g : A -> A) i v (st : gmap Z A) : st !! i = Some v -> alter g i st = <[i := g v]> st.
Proof.
  intros E. apply map_eq. intros j. destruct (decide (j = i)) as [->|Hj].
  - by rewrite lookup_alter_eq, lookup_insert_eq, E.
  - by rewrite lookup_alter_ne, lookup_insert_ne by done.
Qed.

(** The shared objects, next to the new ones. *)
Lemma shared_fs flags nf : made_for (fs_shared flags) fs0 nf -> nf <> NULL ->
  exists f, with_obj nf (Mk_fs 1 false) fs0 !! pi_fs x = Some f /\ fs_users f <> 1.
Proof.
  unfold made_for, fs_shared, users_of, with_obj. intros Hn Hz. destruct (ur_fs Hr) as [E|(f & Hf & Hu)].
  { rewrite E in Hn. by destruct (has_flag flags CLONE_FS). }
  rewrite Hf in Hn. replace (nf =? NULL) with false by (unfold NULL in *; lia).
  destruct (has_flag flags CLONE_FS), (pi_fs x =? NULL), (Z.eqb_spec (fs_users f) 1); cbn in Hn; try done.
  destruct Hn as [_ Hn]. exists f. split; [|done]. rewrite lookup_insert_ne; [done | congruence].
Qed.

Lemma shared_files flags nd : made_for (files_shared flags) files0 nd -> nd <> NULL ->
  pi_files x <> NULL /\ exists f, with_obj nd (Mk_files 1) files0 !! pi_files x = Some f /\ 1 < files_count f.
Proof.
  unfold made_for, files_shared, count_of, with_obj. intros Hn Hz. destruct (ur_files Hr) as [E|(f & Hf & Hu)].
  { rewrite E in Hn. by destruct (has_flag flags CLONE_FILES). }
  rewrite Hf in Hn. replace (nd =? NULL) with false by (unfold NULL in *; lia).
  destruct (has_flag flags CLONE_FILES), (Z.eqb_spec (pi_files x) NULL), (Z.ltb_spec 1 (files_count f)); cbn in Hn; try done.
  destruct Hn as [_ Hn]. split; [done|]. exists f. split; [|lia]. rewrite lookup_insert_ne; [done | congruence].
Qed.

Lemma upd_proc_same (g : proc_info -> proc_info) t' : g (ts_proc t') = ts_proc t' -> upd ts_proc g t' = t'.
Proof. intros E. destruct t'. unfold upd. cbn in *. by rewrite E. Qed.
Lemma proc_eta (p : proc_info) : p <| pi_fs := pi_fs p |> = p.
Proof. by destruct p. Qed.

Lemma wp_install_fs flags nf t' B l (Q : Z -> machine -> Prop) m :
  made_for (fs_shared flags) fs0 nf ->
  shares (Mk_sharing (<[m_current b := t']> (m_tasks b)) (with_obj nf (Mk_fs 1 false) fs0) B l) m ->
  pi_fs (ts_proc t') = pi_fs x ->
  (forall m', shares (Mk_sharing
     (<[m_current b := upd ts_proc (fun p => p <| pi_fs := if nf =? NULL then pi_fs p else nf |>) t']> (m_tasks b))
     (swapped nf (pi_fs x) (Mk_fs 1 false) drop_fs fs0) B l) m' -> Q NULL m') ->
  wp (install_fs nf) Q m.
Proof.
  intros Hn Hs Et HQ. unfold install_fs, swapped in *. pose proof (shared_fs _ _ Hn) as Hsh. unfold with_obj in *.
  destruct (Z.eqb_spec nf NULL) as [|Hz]; [by apply wp_ret, HQ; rewrite upd_proc_same by apply proc_eta|].
  destruct (Hsh Hz) as (f & Hf & Hu). apply wp_bind, (wp_un_cur _ _ _ Hs).
  apply wp_bind, (wp_un_task t' _ _ _ Hs); [apply lookup_insert_eq|]. rewrite Et.
  apply wp_bind, (wp_un_setp _ t' _ _ _ Hs); [apply lookup_insert_eq|]. clear m Hs. intros m Hs. cbn in Hs.
  rewrite insert_insert_eq in Hs.
  apply wp_bind, wp_upd_obj. exists f. cbn. rewrite (shares_fs _ _ Hs). split; [exact Hf|].
  apply wp_bind, wp_rd. exists (drop_fs f). cbn. rewrite lookup_insert_eq. split; [done|].
  replace (truthy (fs_users f - 1)) with true by (symmetry; apply truthy_true; lia).
  apply wp_ret, HQ. rewrite (alter_known _ _ _ _ Hf). destruct Hs as [Es Ev]. split; [|exact Ev].
  injection Es as E1 E2 E3 E4. unfold sharing_of. cbn. by rewrite E1, E3, E4.
Qed.

Lemma wp_install_fd flags nd t' A l (Q : Z -> machine -> Prop) m :
  made_for (files_shared flags) files0 nd ->
  shares (Mk_sharing (<[m_current b := t']> (m_tasks b)) A (with_obj nd (Mk_files 1) files0) l) m ->
  pi_files (ts_proc t') = pi_files x ->
  (forall m', shares (Mk_sharing
     (<[m_current b := upd ts_proc (fun p => p <| pi_files := if nd =? NULL then pi_files x else nd |>) t']> (m_tasks b))
     A (with_obj nd (Mk_files 1) files0) l) m' -> Q (if nd =? NULL then NULL else pi_files x) m') ->
  wp (install_fd nd) Q m.
Proof.
  intros Hn Hs Et HQ. unfold install_fd. destruct (nd =? NULL).
  { apply wp_ret, HQ. rewrite upd_proc_same; [done|]. rewrite <- Et. by destruct (ts_proc t'). }
  apply wp_bind, (wp_un_cur _ _ _ Hs), wp_bind, (wp_un_task t' _ _ _ Hs); [apply lookup_insert_eq|].
  apply wp_bind, (wp_un_setp _ t' _ _ _ Hs); [apply lookup_insert_eq|]. clear m Hs. intros m Hs. cbn in Hs.
  rewrite insert_insert_eq in Hs. rewrite Et. by apply wp_ret, HQ.
Qed.

Lemma drop_ns_tok nn l : nn <> NULL -> remove_token T_new_nsproxy (m_current b) (with_tok T_new_nsproxy nn l) = l.
Proof. intros Hn. unfold with_tok. replace (nn =? NULL) with false by (unfold NULL in *; lia). apply remove_token_head. Qed.

(** A token dropped when its object was made. *)
Lemma wp_drop_if k a e args s l (Q : unit -> machine -> Prop) m :
  shares (s <| sh_held := with_tok k a l |>) m ->
  (forall m', shares (s <| sh_held := l |>) m' -> Q tt m') ->
  wp (when (negb (a =? NULL)) (drop_made k ;; emit e args)) Q m.
Proof.
  intros Hs HQ. unfold with_tok in Hs. destruct (a =? NULL); cbn [negb when]; [by apply wp_ret, HQ|].
  apply wp_bind, (wp_un_drop _ _ _ _ Hs). clear m Hs. intros m Hs.
  change (sh_held (s <| sh_held := (k, m_current b) :: l |>)) with ((k, m_current b) :: l) in Hs.
  rewrite remove_token_head in Hs. by apply (wp_un_emit _ _ _ _ _ Hs).
Qed.

Lemma wp_emit_if c e args s (Q : unit -> machine -> Prop) m :
  shares s m -> (forall m', shares s m' -> Q tt m') -> wp (when c (emit e args)) Q m.
Proof. intros Hs HQ. destruct c; [by apply (wp_un_emit _ _ _ _ _ Hs) | by apply wp_ret, HQ]. Qed.

Lemma wp_install flags nf nd nc nn (Q : Z * Z -> machine -> Prop) m :
  made_for (fs_shared flags) fs0 nf -> made_for (files_shared flags) files0 nd ->
  shares (made nf nd nc nn) m ->
  (forall m', shares ((unshared nf nd) <| sh_files := with_obj nd (Mk_files 1) files0 |>) m' ->
     Q (NULL, if nd =? NULL then NULL else pi_files x) m') ->
  wp (install flags nf nd nc nn) Q m.
Proof.
  intros Hn Hd Hs HQ. unfold install. apply wp_bind, (wp_un_cur _ _ _ Hs).
  apply wp_bind, (wp_emit_if _ _ _ _ _ _ Hs). clear m Hs. intros m Hs.
  apply wp_bind. eapply (wp_mono _ (fun _ => shares (made nf nd nc nn))).
  2: { clear m Hs. intros [] m Hs.
    apply wp_bind, (wp_drop_if _ _ _ _ (made nf nd nc nn) _ _ _ Hs). clear m Hs. intros m Hs.
    unfold made in Hs. cbn in Hs. rewrite <- (insert_id _ _ _ Ht) in Hs.
    apply wp_bind, (wp_install_fs flags nf _ _ _ _ _ Hn Hs eq_refl). clear m Hs. intros m Hs.
    apply wp_bind, (wp_install_fd flags nd _ _ _ _ _ Hd Hs eq_refl). clear m Hs. intros m Hs.
    match type of Hs with shares (Mk_sharing ?T ?A ?B _) _ =>
      apply wp_bind, (wp_drop_if _ _ _ _ (Mk_sharing T A B held0) _ _ _ Hs) end.
    clear m Hs. intros m Hs. apply wp_ret, HQ. unfold unshared. cbn. cbn in Hs. exact Hs. }
  destruct (has_flag flags CLONE_NEWIPC); cbn [when]; [|by apply wp_ret].
  apply wp_bind, (wp_un_emit _ _ _ _ _ Hs). clear m Hs. intros m Hs. by apply (wp_un_emit _ _ _ _ _ Hs).
Qed.

(** ** The whole call *)

(** The task has no file table, or one nobody else refers to. *)
Definition private_files (m : machine) : Prop :=
  exists t', m_tasks m !! m_current m = Some t' /\
    (pi_files (ts_proc t') = NULL \/ fk_files (m_fork m) !! pi_files (ts_proc t') = Some (Mk_files 1)).
Definition private_fs (m : machine) : Prop :=
  exists t', m_tasks m !! m_current m = Some t' /\
    (pi_fs (ts_proc t') = NULL \/ exists f, fk_fs (m_fork m) !! pi_fs (ts_proc t') = Some f /\ fs_users f = 1).

Lemma unshared_task nf nd m : shares (unshared nf nd) m ->
  m_tasks m !! m_current m =
    Some (upd ts_proc (fun p => p <| pi_fs := if nf =? NULL then pi_fs x else nf |>
                                  <| pi_files := if nd =? NULL then pi_files x else nd |>) t).
Proof. intros Hs. rewrite (shares_tasks _ _ Hs), (shares_current _ _ Hs). apply lookup_insert_eq. Qed.

Lemma unshared_files flags nf nd m : has_flag flags CLONE_FILES = true ->
  made_for (files_shared flags) files0 nd -> shares (unshared nf nd) m -> private_files m.
Proof.
  intros Ef Hd Hs. eexists. split; [apply (unshared_task _ _ _ Hs)|]. rewrite (shares_files _ _ Hs). cbn.
  unfold swapped. destruct (Z.eqb_spec nd NULL) as [->|Hz].
  - unfold made_for, files_shared, count_of in Hd. rewrite Ef in Hd. destruct (ur_files Hr) as [?|([n] & Hf & Hu)]; [by left|].
    rewrite Hf in *. destruct (Z.eqb_spec (pi_files x) NULL); [by left|]. right. cbn in *.
    destruct (Z.ltb_spec 1 n); [by destruct Hd|]. by replace n with 1 by lia.
  - right. destruct (shared_files _ _ Hd Hz) as (_ & f & Hf & _). unfold made_for in Hd.
    destruct (files_shared flags); [|done]. destruct Hd as [_ Hd].
    destruct (decide (nd = pi_files x)) as [->|Hne].
    + unfold with_obj in Hf. destruct (ur_files Hr) as [?|(f0 & Hf0 & _)]; [done | congruence].
    + by rewrite lookup_alter_ne, lookup_insert_eq.
Qed.

Lemma unshared_fs flags nf nd m : has_flag flags CLONE_FS = true ->
  made_for (fs_shared flags) fs0 nf -> shares (unshared nf nd) m -> private_fs m.
Proof.
  intros Ef Hd Hs. eexists. split; [apply (unshared_task _ _ _ Hs)|]. rewrite (shares_fs _ _ Hs). cbn.
  unfold swapped. destruct (Z.eqb_spec nf NULL) as [->|Hz].
  - unfold made_for, fs_shared, users_of in Hd. rewrite Ef in Hd. destruct (ur_fs Hr) as [?|(f & Hf & Hu)]; [by left|].
    rewrite Hf in *. destruct (Z.eqb_spec (pi_fs x) NULL); [by left|]. right. exists f. split; [done|]. cbn in *.
    by destruct (Z.eqb_spec (fs_users f) 1) as [|]; [|destruct Hd].
  - right. unfold made_for in Hd. destruct (fs_shared flags); [|done]. destruct Hd as [_ Hd]. exists (Mk_fs 1 false).
    destruct (decide (nf = pi_fs x)) as [->|Hne].
    + destruct (ur_fs Hr) as [?|(f0 & Hf0 & _)]; [done | congruence].
    + by rewrite lookup_alter_ne, lookup_insert_eq.
Qed.

(** The end of a call that succeeds. *)
Lemma wp_unshare_put flags nf nd (Q : cres unit -> machine -> Prop) m :
  made_for (files_shared flags) files0 nd ->
  shares ((unshared nf nd) <| sh_files := with_obj nd (Mk_files 1) files0 |>) m ->
  (forall m', shares (unshared nf nd) m' -> Q (Ok tt) m') ->
  wp (bad_unshare_cleanup_cred NULL (if nd =? NULL then NULL else pi_files x) NULL (Ok tt)) Q m.
Proof.
  intros Hd Hs HQ. unfold bad_unshare_cleanup_cred, bad_unshare_cleanup_fd, bad_unshare_cleanup_fs.
  cbn [NULL Z.eqb negb when]. apply wp_bind, wp_ret, wp_bind.
  assert (Hend : forall m', shares (unshared nf nd) m' -> wp (mret tt ;; mret (Ok tt)) Q m').
  { intros m' Hs'. by apply wp_bind, wp_ret, wp_ret, HQ. }
  unfold unshared, swapped in Hend, Hs. pose proof (shared_files _ _ Hd) as Hsh. unfold with_obj in *.
  destruct (Z.eqb_spec nd NULL) as [|Hz]; [cbn [NULL Z.eqb negb when]; apply wp_ret, Hend; exact Hs|].
  destruct (Hsh Hz) as (Hp & f & Hf & Hc). replace (pi_files x =? NULL) with false by (unfold NULL in *; lia).
  rewrite (alter_known _ _ _ _ Hf) in Hend. cbn [negb when].
  assert (E : fk_files (m_fork m) = <[nd := Mk_files 1]> files0) by (by rewrite (shares_files _ _ Hs)).
  eapply wp_un_files; [exact Hs | apply (put_files_struct_ok _ f); by rewrite E |].
  rewrite E. unfold put_files. replace (files_count f =? 1) with false by lia. intros m' Hs'. apply Hend. exact Hs'.
Qed.

(** The one failure that leaves something behind: new credentials and new namespaces
    were made, and set_cred_ucounts() refused the credentials.  What is left is exactly
    the reference to the namespaces. *)
Definition namespaces_left (flags : Z) (e : errno) (m' : machine) : Prop :=
  exists nf nd nc nn m0 m1 m2,
    made_for (fs_shared flags) fs0 nf /\ made_for (files_shared flags) files0 nd /\
    unshare_userns_result flags m0 = Ok nc /\ nc <> NULL /\
    unshare_nsproxy_result flags nc nf m1 = Ok nn /\ nn <> NULL /\
    shares (made nf nd nc nn) m2 /\ set_cred_ucounts nc m2 = Err e /\
    shares ((sharing_of b) <| sh_held := (T_new_nsproxy, m_current b) :: held0 |>) m'.

Definition unshare_outcome (flags : Z) (r : cres unit) (m' : machine) : Prop :=
  match r with
  | Ok _ => exists nf nd,
      made_for (fs_shared flags) fs0 nf /\ made_for (files_shared flags) files0 nd /\ shares (unshared nf nd) m' /\
      (has_flag flags CLONE_FS = true -> private_fs m') /\ (has_flag flags CLONE_FILES = true -> private_files m')
  | Err e => shares (sharing_of b) m' \/ namespaces_left flags e m'
  end.

Lemma unshare_outcome_ok flags nf nd m :
  made_for (fs_shared flags) fs0 nf -> made_for (files_shared flags) files0 nd -> shares (unshared nf nd) m ->
  unshare_outcome flags (Ok tt) m.
Proof.
  intros Hn Hd Hs. exists nf, nd. split_and!; try done; intros Ef; [by eapply unshared_fs | by eapply unshared_files].
Qed.

Lemma outcome_undone flags e m : shares (made NULL NULL NULL NULL) m -> unshare_outcome flags (Err e) m.
Proof. intros Hs. by left. Qed.

(** Nothing was made: the call ends where it started. *)
Lemma unshared_none : unshared NULL NULL = made NULL NULL NULL NULL.
Proof.
  unfold unshared, made. cbn. f_equal. rewrite upd_proc_same; [by apply insert_id|]. by destruct x.
Qed.

Lemma wp_unshare_end flags nf nd nc nn m :
  made_for (fs_shared flags) fs0 nf -> made_for (files_shared flags) files0 nd -> shares (made nf nd nc nn) m ->
  wp (current ← gets m_current;
      if (negb (nf =? NULL) || negb (nd =? NULL) || has_flag flags (Z.lor CLONE_NEWIPC CLONE_SYSVSEM) ||
          negb (nc =? NULL) || negb (nn =? NULL))%bool then
        old ← install flags nf nd nc nn;
        emit "perf_event_namespaces" [current] ;;
        bad_unshare_cleanup_cred NULL old.2 old.1 (Ok tt)
      else
        emit "perf_event_namespaces" [current] ;;
        bad_unshare_cleanup_cred nc nd nf (Ok tt)) (unshare_outcome flags) m.
Proof.
  intros Hn Hd Hs. apply wp_bind, (wp_un_cur _ _ _ Hs). case_match eqn:E.
  - apply wp_bind, (wp_install _ _ _ _ _ _ _ Hn Hd Hs). clear m Hs. intros m Hs.
    apply wp_bind, (wp_un_emit _ _ _ _ _ Hs). clear m Hs. intros m Hs. cbn [fst snd].
    apply (wp_unshare_put _ _ _ _ _ Hd Hs). intros m' Hs'. by eapply unshare_outcome_ok.
  - repeat (apply orb_false_iff in E as [E ?]). rewrite !negb_false_iff, !Z.eqb_eq in *. subst.
    apply wp_bind, (wp_un_emit _ _ _ _ _ Hs). clear m Hs. intros m Hs.
    apply (wp_undo_cred _ _ _ _ _ _ _ _ _ Hn Hd Hs). intros m' Hs'.
    apply (unshare_outcome_ok flags NULL NULL); [done.. |]. by rewrite unshared_none.
Qed.

(** C29: unshare() always returns.  On success the current task has, for each of the
    two objects it was asked to stop sharing, a new one with a single reference
    in place of a shared one, whose count is one less; with CLONE_FS (also when
    another flag implies it) and CLONE_FILES it shares the object with nobody
    afterwards, and nothing made on the way is still held.  On an error the tasks, the
    filesystem objects, their counts and everything held are as before, with one exception:
    when set_cred_ucounts() refuses new credentials after new namespaces were made,
    exactly the reference to these namespaces is left. *)
Theorem unshare_spec flags : wp (ksys_unshare flags) (unshare_outcome (implied_flags flags)) b.
Proof.
  unfold ksys_unshare. set (f := implied_flags flags). unfold or_goto.
  apply wp_bind, (wp_check_flags f _ _ shares_start). intros [[]|e]; [|by apply wp_ret, outcome_undone].
  apply wp_bind, (wp_unshare_fs f _ _ shares_start); [intros e; by apply wp_ret, outcome_undone|].
  intros nf m Hn Hs. apply wp_bind, (wp_unshare_fd f nf _ _ Hs).
  { intros e. apply (wp_undo_fs _ _ _ _ _ _ _ Hn Hs). intros m' Hs'. by apply outcome_undone. }
  clear m Hs. intros nd m Hd Hs. unfold unshare_userns, unshare_nsproxy_namespaces.
  apply wp_bind, wp_bind, wp_gets, (wp_make _ _ _ _ _ Hs).
  { intros e. apply (wp_undo_fd _ _ _ _ _ _ _ _ _ Hn Hd Hs). intros m' Hs'. by apply outcome_undone. }
  intros nc mc Ec Hsc. apply wp_bind, wp_bind, wp_gets, (wp_make _ _ _ _ _ Hsc).
  { intros e. apply (wp_undo_cred _ _ _ _ _ nc NULL _ _ Hn Hd Hsc). intros m' Hs'. by apply outcome_undone. }
  intros nn mn En Hsn. change (shares (made nf nd nc nn) mn) in Hsn. apply wp_bind.
  pose proof (wp_unshare_end f nf nd nc nn mn Hn Hd Hsn) as Hend. revert Hend.
  destruct (Z.eqb_spec nc NULL) as [->|Hnc]; intros Hend; [by apply wp_ret | apply wp_gets].
  destruct (set_cred_ucounts nc mn) as [[]|e] eqn:Eu; [done|].
  apply (wp_undo_cred _ _ _ _ _ _ _ _ _ Hn Hd Hsn). intros m' Hs'.
  destruct (Z.eqb_spec nn NULL) as [->|Hnn]; [by apply outcome_undone|].
  right. exists nf, nd, nc, nn, m, mc, mn. do 8 (split; [done|]).
  unfold made, with_tok in Hs'. replace (nn =? NULL) with false in Hs' by (unfold NULL in *; lia). exact Hs'.
Qed.
End Proofs.

(** * On the sample machine *)
#[local] Existing Instance linux_headers.
#[local] Existing Instance linux_fork_headers.

(** New namespaces are at 300, new credentials at 301; [ucounts] tells whether
    the credentials can be charged. *)
Definition demo_unshare (ucounts : bool) : UnshareExtern := {|
  thread_group_empty _ _ := true;
  current_is_single_threaded _ := true;
  unshare_userns_result f _ := Ok (if has_flag f CLONE_NEWUSER then 301 else NULL);
  unshare_nsproxy_result f _ _ _ := Ok (if has_flag f CLONE_NEWNS then 300 else NULL);
  set_cred_ucounts _ _ := if ucounts then Ok tt else Err EAGAIN;
  put_files_struct a :=
    x ← deref (R := files_struct) a;
    modify (fun m => set_store (put_files a x (fk_files (m_fork m))) m);
  free_fs_struct a := modify (fun m => set_store (delete a (fk_fs (m_fork m))) m);
|}.

#[local] Instance demo_unshare_ok u : UnshareExternOK (demo_unshare u).
Proof.
  split; cbn.
  - intros a x m Hx. apply wp_eq. by kgo.
  - done.
Qed.

(** The files and the filesystem information of task 11 have two references. *)
Definition shared_machine : machine :=
  fork_machine <| m_fork := (m_fork fork_machine) <| fk_fs := <[200 := Mk_fs 2 false]> ∅ |>
                                                  <| fk_files := <[201 := Mk_files 2]> ∅ |> |>.

Lemma shared_ready : unshare_ready shared_machine task11.
Proof.
  split; [right; eexists; split; [reflexivity | cbn; lia] .. | by eexists].
Defined.

Lemma unshare_spec_witness :
  let F := DemoFork.fork_extern false in let U := demo_unshare true in
  m_tasks shared_machine !! m_current shared_machine = Some task11 /\
  wp (ksys_unshare (Z.lor CLONE_NEWUSER CLONE_FILES))
    (unshare_outcome shared_machine task11 (implied_flags (Z.lor CLONE_NEWUSER CLONE_FILES))) shared_machine.
Proof.
  cbv zeta. split; [reflexivity|].
  apply (unshare_spec (F := DemoFork.fork_extern false) (UE := demo_unshare true) shared_machine task11 eq_refl shared_ready).
Defined.

(** What a call shows: its result, the file table and filesystem objects with
    their counts, and what is still held. *)
Definition observe_unshare (ucounts : bool) (flags : Z) :=
  let F := DemoFork.fork_extern false in let U := demo_unshare ucounts in
  match ksys_unshare flags shared_machine with
  | Ret r m' => Some (r, map_to_list (files_count <$> fk_files (m_fork m')), map_to_list (fs_users <$> fk_fs (m_fork m')),
                      fk_held (m_fork m'))
  | Stuck _ => None
  end.

Example unshare_runs :
  observe_unshare true (Z.lor CLONE_NEWUSER CLONE_FILES) = Some (Ok tt, [(205, 1); (201, 1)], [(204, 1); (200, 1)], []).
Proof. vm_compute. reflexivity. Qed.

(** When a new user namespace and new other namespaces are made and
    set_cred_ucounts() then fails, the call returns the error and drops the
    credentials, the files and the filesystem information it made, but not the
    namespaces: the reference to the new nsproxy is never dropped. *)
Theorem unshare_leaks_nsproxy :
  observe_unshare false (flags_or [CLONE_NEWUSER; CLONE_NEWNS; CLONE_FILES]) =
    Some (Err EAGAIN, [(201, 2)], [(200, 2)], [(T_new_nsproxy, 11)]).
Proof. vm_compute. reflexivity. Qed.
