(* ===== verification/CoreSched.v ===== *)
(** Core scheduling (core.c, CONFIG_SCHED_CORE): the hardware threads of a core
    only run tasks with the same cookie at the same time.  The core tree of
    tasks with a cookie, the selection for a whole core in pick_next_task(),
    stealing of matching tasks, the leader of a core as CPUs come and go, and the
    reference count that turns core scheduling on and off.

    The red-black tree (lib/rbtree.c) is a parameter: its operations on the list
    of the nodes from left to right. *)
From S2P Require Import Prelude Headers Proc Kernel Extern RqClock Uclamp Prio Affinity.
From S2P Require Import Migrate Schedule.

Class CoreExtern := {
  (** include/linux/rbtree.h: the order is given by a comparison *)
  rb_add : (Z -> Z -> bool) -> Z -> list Z -> list Z;
  rb_erase : Z -> list Z -> list Z;
  rb_find_first : (Z -> comparison) -> list Z -> option Z;
  rb_next : Z -> list Z -> option Z;
  (** the classes, fair.c and core_sched.c *)
  cl_pick_task : sched_class -> Z -> K Z;
  cfs_prio_less : task_struct -> task_struct -> bool -> bool;
  task_vruntime_update : Z -> Z -> bool -> K unit;
  sched_core_account_forceidle : Z -> K unit;
  queue_balance_callback : Z -> callback -> K unit;
  schedstat_enabled : bool;
  (** topology *)
  cpu_smt_mask : Z -> machine -> gset Z;
  sched_domain_spans : Z -> machine -> list (gset Z);
}.

(** The siblings of a CPU are given by the hardware and the CPUs online. *)
Class TopologyOK (CX : CoreExtern) : Prop := {
  smt_mask_stable c m m' : m_cpu_online m = m_cpu_online m' -> cpu_smt_mask c m = cpu_smt_mask c m';
}.

Section CoreSched.
Context {H : Headers} {X : Extern} {Mg : MigrateExtern} {CX : CoreExtern}.

(** for_each_cpu_wrap(): the CPUs of the mask from [n] on, then the others. *)
Definition for_each_cpu_wrap (mask : gset Z) (n : Z) : list Z :=
  let l := for_each_cpu mask in
  List.filter (fun c => n <=? c) l ++ List.filter (fun c => c <? n) l.

Definition sched_core_enabled (r : Z) : K bool :=
  on ← gets (fun m => sm_core_on (m_smt m));
  e ← r ⇝ cr_enabled;
  mret (on && e)%bool.

(** * The core tree *)

(** rb_sched_core_less() on the tasks of machine [m]. *)
Definition rb_sched_core_less (m : machine) (a b : Z) : bool :=
  match m_tasks m !! a, m_tasks m !! b with
  | Some ta, Some tb =>
      let fi := match sm_rqs (m_smt m) !! ts_cpu ta ≫= (fun c => sm_rqs (m_smt m) !! cr_core c) with
                | Some core => cr_fi_count core
                | None => 0
                end in
      __sched_core_less cfs_prio_less fi ta tb
  | _, _ => false
  end.

Definition rb_sched_core_cmp (m : machine) (cookie node : Z) : comparison :=
  match m_tasks m !! node with
  | Some p =>
      if cookie <? ts_core_cookie p then Lt
      else if ts_core_cookie p <? cookie then Gt
      else Eq
  | None => Gt
  end.

Definition bump_task_seq (r : Z) : K unit :=
  core ← r ⇝ cr_core;
  upd! core ⇝ cr_task_seq := fun n => u32 (n + 1).

Definition sched_core_enqueue (r p : Z) : K unit :=
  bump_task_seq r ;;
  cookie ← p ⇝ ts_core_cookie;
  when (truthy cookie)
    (m ← get_state;
     upd! r ⇝ cr_tree := rb_add (rb_sched_core_less m) p).

Definition sched_core_enqueued (r p : Z) : K bool :=
  t ← r ⇝ cr_tree; mret (bool_decide (p ∈ t)).

Definition sched_core_dequeue (r p flags : Z) : K unit :=
  bump_task_seq r ;;
  b ← sched_core_enqueued r p;
  when (b : bool) (upd! r ⇝ cr_tree := rb_erase p) ;;
  q ← deref (R := rq) r;
  core ← r ⇝ cr_core;
  n ← core ⇝ cr_fi_count;
  when (negb (has_flag flags DEQUEUE_SAVE) && (rq_nr_running q =? 1) && truthy n && (rq_curr q =? rq_idle q))
    (resched_curr r).

(** Find left-most (aka, highest priority) task matching the cookie; the idle
    task matches any cookie. *)
Definition sched_core_find (r cookie : Z) : K Z :=
  t ← r ⇝ cr_tree;
  m ← get_state;
  match rb_find_first (rb_sched_core_cmp m cookie) t with
  | None => cl_pick_task idle_sched_class r
  | Some p => mret p
  end.

Definition sched_core_next (r p cookie : Z) : K Z :=
  t ← r ⇝ cr_tree;
  match rb_next p t with
  | None => mret NULL
  | Some q =>
      c ← q ⇝ ts_core_cookie;
      mret (if negb (c =? cookie) then NULL else q)
  end.

(** enqueue_task() and dequeue_task() with core scheduling. *)
Definition core_enqueue_task (r p flags : Z) : K unit :=
  enqueue_task r p flags ;;
  on ← sched_core_enabled r;
  when (on : bool) (sched_core_enqueue r p).

Definition core_dequeue_task (r p flags : Z) : K unit :=
  on ← sched_core_enabled r;
  when (on : bool) (sched_core_dequeue r p flags) ;;
  dequeue_task r p flags.

(** * The selection for a core *)
Definition is_task_rq_idle (t : Z) : K bool :=
  c ← t ⇝ ts_cpu;
  i ← c ⇝ rq_idle;
  mret (i =? t).

Definition cookie_equals (a cookie : Z) : K bool :=
  idle ← is_task_rq_idle a;
  if (idle : bool) then mret true
  else c ← a ⇝ ts_core_cookie; mret (c =? cookie).

Definition cookie_match (a b : Z) : K bool :=
  ia ← is_task_rq_idle a;
  ib ← is_task_rq_idle b;
  if (ia || ib)%bool then mret true
  else
    ca ← a ⇝ ts_core_cookie;
    cb ← b ⇝ ts_core_cookie;
    mret (ca =? cb).

Fixpoint pick_task_from (r : Z) (classes : list sched_class) : K Z :=
  match classes with
  | [] => stuck BUG
  | class :: classes =>
      p ← cl_pick_task class r;
      if negb (p =? NULL) then mret p else pick_task_from r classes
  end.

Definition pick_task (r : Z) : K Z := pick_task_from r all_classes.

Definition queue_core_balance (r : Z) : K unit :=
  on ← sched_core_enabled r;
  if negb on then mret tt
  else
    core ← r ⇝ cr_core;
    cookie ← core ⇝ cr_cookie;
    if negb (truthy cookie) then mret tt
    else
      n ← r ⇝ rq_nr_running;
      if negb (truthy n) then mret tt
      else queue_balance_callback r core_balance_cb.

(** Forget the last selection: true when the core was in forced idle. *)
Definition core_reset (r core : Z) (core_clock_updated : bool) : K (bool * bool) :=
  set! core ⇝ cr_cookie := 0 ;;
  n ← core ⇝ cr_fi_count;
  if truthy n then
    when (negb core_clock_updated) (update_rq_clock core) ;;
    sched_core_account_forceidle r ;;
    set! core ⇝ cr_fi_start := 0 ;;
    set! core ⇝ cr_fi_count := 0 ;;
    set! core ⇝ cr_fi_occupation := 0 ;;
    mret (true, true)
  else mret (false, core_clock_updated).

(** For each thread: the regular pick; returns the task of highest priority,
    ties going to the current CPU. *)
Fixpoint core_picks (cpu core : Z) (fi_before core_clock_updated : bool) (cpus : list Z) (max : Z) : K Z :=
  match cpus with
  | [] => mret max
  | i :: cpus =>
      when (negb (i =? cpu) && (negb (i =? core) || negb core_clock_updated)) (update_rq_clock i) ;;
      p ← pick_task i;
      set! i ⇝ cr_pick := p ;;
      max ← (if max =? NULL then mret p
             else
               tm ← deref (R := task_struct) max;
               tp ← deref (R := task_struct) p;
               mret (if prio_less cfs_prio_less tm tp fi_before then p else max));
      core_picks cpu core fi_before core_clock_updated cpus max
  end.

(** For each thread: a runnable task that matches the cookie, or forced idle;
    returns the number of busy threads. *)
Fixpoint core_matches (core cookie : Z) (fi_before : bool) (cpus : list Z) (occ : Z) : K Z :=
  match cpus with
  | [] => mret occ
  | i :: cpus =>
      p ← i ⇝ cr_pick;
      ok ← cookie_equals p cookie;
      p ← (if (ok : bool) then mret p
           else
             p ← (if truthy cookie then sched_core_find i cookie else mret NULL);
             if p =? NULL then cl_pick_task idle_sched_class i else mret p);
      set! i ⇝ cr_pick := p ;;
      q ← deref (R := rq) i;
      if p =? rq_idle q then
        when (truthy (rq_nr_running q))
          (upd! core ⇝ cr_fi_count := (fun n => n + 1) ;;
           when (negb fi_before) (upd! core ⇝ cr_fi_seq := (fun n => u32 (n + 1)))) ;;
        core_matches core cookie fi_before cpus occ
      else core_matches core cookie fi_before cpus (occ + 1)
  end.

Definition set_occupation (p occ : Z) : K unit :=
  modify (fun m => m <| m_smt := (m_smt m) <| sm_occupation := <[p := occ]> (sm_occupation (m_smt m)) |> |>).

(** Reschedule the siblings that have to switch. *)
Fixpoint core_kicks (cpu core next : Z) (fi_before : bool) (occ : Z) (cpus : list Z) : K unit :=
  match cpus with
  | [] => mret tt
  | i :: cpus =>
      p ← i ⇝ cr_pick;
      (if p =? NULL then mret tt
       else
         fi ← core ⇝ cr_fi_count;
         when (negb (fi_before && truthy fi)) (task_vruntime_update i p (truthy fi)) ;;
         set_occupation p occ ;;
         if i =? cpu then set! i ⇝ cr_pick := NULL
         else
           ok ← cookie_match next p;
           when (negb ok) (emit "WARN_ON_ONCE(cookie)" [next; p]) ;;
           curr ← i ⇝ rq_curr;
           if curr =? p then set! i ⇝ cr_pick := NULL
           else resched_curr i) ;;
      core_kicks cpu core next fi_before occ cpus
  end.

(** The cookie of the core is that of its task of highest priority; every thread
    gets a matching task. *)
Definition core_choose (cpu core : Z) (fi_before core_clock_updated : bool) (smt_mask : gset Z) : K Z :=
  max ← core_picks cpu core fi_before core_clock_updated (for_each_cpu_wrap smt_mask cpu) NULL;
  cookie ← max ⇝ ts_core_cookie;
  set! core ⇝ cr_cookie := cookie ;;
  core_matches core cookie fi_before (for_each_cpu smt_mask) 0.

(** The core-wide selection: the task for this CPU. *)
Definition core_select (r cpu core : Z) (fi_before core_clock_updated : bool) : K Z :=
  smt_mask ← gets (cpu_smt_mask cpu);
  occ ← core_choose cpu core fi_before core_clock_updated smt_mask;
  fi ← core ⇝ cr_fi_count;
  when (schedstat_enabled && truthy fi)
    (now ← core ⇝ rq_clock;
     set! core ⇝ cr_fi_start := now ;;
     set! core ⇝ cr_fi_occupation := occ) ;;
  seq ← core ⇝ cr_task_seq;
  set! core ⇝ cr_pick_seq := seq ;;
  next ← r ⇝ cr_pick;
  set! r ⇝ cr_sched_seq := seq ;;
  when (next =? NULL) (emit "WARN_ON_ONCE" []) ;;
  core_kicks cpu core next fi_before occ (for_each_cpu smt_mask) ;;
  mret next.

(** out: *)
Definition core_out (r core next : Z) : K Z :=
  fi ← core ⇝ cr_fi_count;
  idle ← r ⇝ rq_idle;
  when (truthy fi && (next =? idle)) (queue_core_balance r) ;;
  mret next.

Definition core_pick_next_task (r prev : Z) : K Z :=
  core ← r ⇝ cr_core;
  on ← sched_core_enabled r;
  if negb on then __pick_next_task r prev
  else
    cpu ← r ⇝ rq_cpu;
    online ← gets m_cpu_online;
    if negb (bool_decide (cpu ∈ online)) then
      set! r ⇝ cr_pick := NULL ;;
      __pick_next_task r prev
    else
      c ← deref (R := core_rq) core;
      q ← deref (R := core_rq) r;
      if ((cr_pick_seq c =? cr_task_seq c) && negb (cr_pick_seq c =? cr_sched_seq q) && negb (cr_pick q =? NULL))%bool
      then
        set! r ⇝ cr_sched_seq := cr_pick_seq c ;;
        let next := cr_pick q in
        when (negb (next =? prev)) (put_prev_task r prev ;; set_next_task r next) ;;
        set! r ⇝ cr_pick := NULL ;;
        core_out r core next
      else
        put_prev_task_balance r prev ;;
        c ← deref (R := core_rq) core;
        let need_sync := truthy (cr_cookie c) in
        b ← core_reset r core (r =? core);
        let '(fi_before, core_clock_updated) := b in
        bump_task_seq r ;;
        quick ← (if (need_sync || fi_before)%bool then mret NULL
                 else
                   next ← pick_task r;
                   k ← next ⇝ ts_core_cookie;
                   mret (if truthy k then NULL else next));
        next ← (if negb (quick =? NULL) then
                  set! r ⇝ cr_pick := NULL ;;
                  task_vruntime_update r quick false ;;
                  mret quick
                else core_select r cpu core fi_before core_clock_updated);
        set_next_task r next ;;
        core_out r core next.

(** * Stealing a matching task for an idle sibling *)
Definition core_deactivate_task (r p flags : Z) : K unit :=
  set! p ⇝ ts_on_rq := (if has_flag flags DEQUEUE_SLEEP then 0 else TASK_ON_RQ_MIGRATING) ;;
  core_dequeue_task r p flags.

Definition core_activate_task (r p flags : Z) : K unit :=
  core_enqueue_task r p flags ;;
  set! p ⇝ ts_on_rq := TASK_ON_RQ_QUEUED.

Definition occupation (p : Z) : K Z := gets (fun m => default 0 (sm_occupation (m_smt m) !! p)).

(** May [p] leave [src] for CPU [this]? *)
Definition can_steal (this src p : Z) : K bool :=
  pick ← src ⇝ cr_pick;
  curr ← src ⇝ rq_curr;
  if ((p =? pick) || (p =? curr))%bool then mret false
  else
    ok ← is_cpu_allowed p this;
    if negb ok then mret false
    else
      idle ← this ⇝ rq_idle;
      op ← occupation p;
      oi ← occupation idle;
      mret (negb (oi <? op)).

(** The tree has at most [fuel] tasks to look at. *)
Fixpoint steal_loop (fuel : nat) (this src cookie p : Z) : K bool :=
  match fuel with
  | O => stuck NOFUEL
  | S fuel =>
      ok ← can_steal this src p;
      if (ok : bool) then
        core_deactivate_task src p 0 ;;
        set_task_cpu p this ;;
        core_activate_task this p 0 ;;
        resched_curr this ;;
        mret true
      else
        p ← sched_core_next src p cookie;
        if p =? NULL then mret false else steal_loop fuel this src cookie p
  end.

Definition try_steal_cookie (this that : Z) : K bool :=
  core ← this ⇝ cr_core;
  cookie ← core ⇝ cr_cookie;
  if negb (truthy cookie) then mret false
  else
    d ← deref (R := rq) this;
    if negb (rq_curr d =? rq_idle d) then mret false
    else
      p ← sched_core_find that cookie;
      idle ← that ⇝ rq_idle;
      if p =? idle then mret false
      else
        t ← that ⇝ cr_tree;
        steal_loop (length t) this that cookie p.

Definition current_need_resched : K bool :=
  current ← gets m_current;
  t ← deref (R := task_struct) current;
  mret (test_tsk_need_resched t).

Fixpoint steal_from (cpu : Z) (cpus : list Z) : K bool :=
  match cpus with
  | [] => mret false
  | i :: cpus =>
      if i =? cpu then steal_from cpu cpus
      else
        stop ← current_need_resched;
        if (stop : bool) then mret false
        else
          got ← try_steal_cookie cpu i;
          if (got : bool) then mret true else steal_from cpu cpus
  end.

Definition steal_cookie_task (cpu : Z) (span : gset Z) : K bool :=
  steal_from cpu (for_each_cpu_wrap span cpu).

Fixpoint core_balance_domains (cpu : Z) (spans : list (gset Z)) : K unit :=
  match spans with
  | [] => mret tt
  | sd :: spans =>
      stop ← current_need_resched;
      if (stop : bool) then mret tt
      else
        got ← steal_cookie_task cpu sd;
        if (got : bool) then mret tt else core_balance_domains cpu spans
  end.

Definition sched_core_balance (r : Z) : K unit :=
  cpu ← r ⇝ rq_cpu;
  spans ← gets (sched_domain_spans cpu);
  emit "preempt_disable" [] ;;
  core_balance_domains cpu spans ;;
  emit "preempt_enable" [].

(** * The leader of a core *)

(** The first of the CPUs other than [cpu] that leads its core. *)
Fixpoint find_leader (cpu : Z) (cpus : list Z) : K (option Z) :=
  match cpus with
  | [] => mret None
  | t :: cpus =>
      if t =? cpu then find_leader cpu cpus
      else
        c ← t ⇝ cr_core;
        if c =? t then mret (Some t) else find_leader cpu cpus
  end.

Definition sched_core_cpu_starting (cpu : Z) : K unit :=
  smt_mask ← gets (cpu_smt_mask cpu);
  c ← cpu ⇝ cr_core;
  when (negb (c =? cpu)) (emit "WARN_ON_ONCE" [cpu]) ;;
  if (size smt_mask =? 1)%nat then mret tt
  else
    l ← find_leader cpu (for_each_cpu smt_mask);
    match l with
    | None => emit "WARN_ON_ONCE" [cpu]
    | Some leader =>
        mapM_ (fun t =>
          when (t =? cpu) (set! t ⇝ cr_core := leader) ;;
          c ← t ⇝ cr_core;
          when (negb (c =? leader)) (emit "WARN_ON_ONCE" [t])) (for_each_cpu smt_mask)
    end.

Definition sched_core_cpu_deactivate (cpu : Z) : K unit :=
  smt_mask ← gets (cpu_smt_mask cpu);
  c ← cpu ⇝ cr_core;
  if (size smt_mask =? 1)%nat then when (negb (c =? cpu)) (emit "WARN_ON_ONCE" [cpu])
  else if negb (c =? cpu) then mret tt
  else
    match List.filter (fun t => negb (t =? cpu)) (for_each_cpu smt_mask) with
    | [] => emit "WARN_ON_ONCE" [cpu]
    | leader :: _ =>
        q ← deref (R := core_rq) cpu;
        upd_obj leader (fun n => n <| cr_task_seq := cr_task_seq q |> <| cr_pick_seq := cr_pick_seq q |>
          <| cr_cookie := cr_cookie q |> <| cr_fi_count := cr_fi_count q |> <| cr_fi_seq := cr_fi_seq q |>
          <| cr_fi_occupation := cr_fi_occupation q |> <| cr_fi_start := 0 |>) ;;
        mapM_ (fun t => set! t ⇝ cr_core := leader) (for_each_cpu smt_mask)
    end.

Definition sched_core_cpu_dying (cpu : Z) : K unit :=
  c ← cpu ⇝ cr_core;
  when (negb (c =? cpu)) (set! cpu ⇝ cr_core := cpu).

(** * Turning core scheduling on and off *)
Definition setsmt (g : smt_state -> smt_state) : K unit := modify (fun m => m <| m_smt := g (m_smt m) |>).

(** The online cores, one by one. *)
Fixpoint flip_online (fuel : nat) (enabled : bool) (sched_core_mask : gset Z) : K unit :=
  match for_each_cpu sched_core_mask with
  | [] => mret tt
  | cpu :: _ =>
      match fuel with
      | O => stuck NOFUEL
      | S fuel =>
          smt_mask ← gets (cpu_smt_mask cpu);
          mapM_ (fun t => set! t ⇝ cr_enabled := enabled) (for_each_cpu smt_mask) ;;
          core ← cpu ⇝ cr_core;
          set! core ⇝ cr_fi_start := 0 ;;
          flip_online fuel enabled (sched_core_mask ∖ ({[cpu]} ∪ smt_mask))
      end
  end.

Definition __sched_core_flip (enabled : bool) : K unit :=
  online ← gets m_cpu_online;
  possible ← gets m_cpu_possible;
  flip_online (size online) enabled online ;;
  mapM_ (fun cpu => set! cpu ⇝ cr_enabled := enabled) (for_each_cpu (possible ∖ online)).

Definition sched_core_assert_empty : K unit :=
  possible ← gets m_cpu_possible;
  mapM_ (fun cpu =>
    t ← cpu ⇝ cr_tree;
    when (negb (bool_decide (t = []))) (emit "WARN_ON_ONCE" [cpu])) (for_each_cpu possible).

Definition __sched_core_enable : K unit :=
  setsmt (fun s => s <| sm_core_on := true |>) ;;
  emit "synchronize_rcu" [] ;;
  __sched_core_flip true ;;
  sched_core_assert_empty.

Definition __sched_core_disable : K unit :=
  sched_core_assert_empty ;;
  __sched_core_flip false ;;
  setsmt (fun s => s <| sm_core_on := false |>).

Definition core_count : K Z := gets (fun m => sm_core_count (m_smt m)).
Definition set_core_count (n : Z) : K unit := setsmt (fun s => s <| sm_core_count := n |>).

Definition sched_core_get : K unit :=
  n ← core_count;
  if negb (n =? 0) then set_core_count (n + 1)
  else
    n ← core_count;
    when (n =? 0) __sched_core_enable ;;
    n ← core_count;
    set_core_count (n + 1).

(** The work function; it runs after the work was queued. *)
Definition __sched_core_put : K unit :=
  setsmt (fun s => s <| sm_core_work := false |>) ;;
  n ← core_count;
  set_core_count (n - 1) ;;
  when (n - 1 =? 0) __sched_core_disable.

Definition sched_core_put : K unit :=
  n ← core_count;
  if negb (n =? 1) then set_core_count (n - 1)
  else setsmt (fun s => s <| sm_core_work := true |>).
End CoreSched.
