(* ===== verification/CoreToggle.v ===== *)
(** Turning core scheduling on and off: the users of sched_core_get() and
    sched_core_put(), the delayed work, and what every CPU sees. *)
From S2P Require Import Prelude Headers Proc Kernel Extern RqClock Uclamp Prio Affinity.
From S2P Require Import Migrate Schedule.
From S2P Require Import CoreSched.

Section Toggle.
Context {H : Headers} {X : Extern} {Mg : MigrateExtern} {CX : CoreExtern}.

Context {TOK : TopologyOK CX}.

(** ** What a flip leaves alone *)
Definition unflip (q : core_rq) : core_rq := q <| cr_enabled := false |> <| cr_fi_start := 0 |>.
Definition flip_rest (m : machine) : machine :=
  m <| m_smt := (m_smt m) <| sm_rqs := unflip <$> sm_rqs (m_smt m) |> |> <| m_log := [] |>.
Definition flips (m m' : machine) : Prop := flip_rest m = flip_rest m'.

#[local] Instance flips_equiv : Equivalence flips.
Proof. split; red; unfold flips; congruence. Qed.

Lemma flips_rq m m' c q : flips m m' -> sm_rqs (m_smt m) !! c = Some q ->
  exists q', sm_rqs (m_smt m') !! c = Some q' /\ unflip q = unflip q'.
Proof.
  intros F. apply fmap_lookup_agree. exact (f_equal (fun x => sm_rqs (m_smt x)) F).
Qed.

Lemma flips_smt m m' c : flips m m' -> cpu_smt_mask c m = cpu_smt_mask c m'.
Proof. intros F. apply smt_mask_stable. exact (f_equal m_cpu_online F). Qed.

Lemma flips_set m c q g : sm_rqs (m_smt m) !! c = Some q -> unflip (g q) = unflip q ->
  flips m (set_store (<[c := g q]> (sm_rqs (m_smt m))) m).
Proof.
  intros Hq E. unfold flips, flip_rest. cbn. rewrite fmap_insert, E, insert_id; [done|]. by rewrite lookup_fmap, Hq.
Qed.

(** ** The CPUs of the machine *)
Record topology_ok (m : machine) : Prop := Mk_topology {
  to_rq c : c ∈ m_cpu_possible m ->
    exists q, sm_rqs (m_smt m) !! c = Some q /\ is_Some (sm_rqs (m_smt m) !! cr_core q);
  to_smt c : c ∈ m_cpu_online m -> cpu_smt_mask c m ⊆ m_cpu_possible m /\ c ∈ cpu_smt_mask c m;
  to_online : m_cpu_online m ⊆ m_cpu_possible m;
}.

Lemma topology_flips m m' : flips m m' -> topology_ok m -> topology_ok m'.
Proof.
  intros F [T1 T2 T3].
  assert (Ep : m_cpu_possible m = m_cpu_possible m') by exact (f_equal m_cpu_possible F).
  assert (Eo : m_cpu_online m = m_cpu_online m') by exact (f_equal m_cpu_online F).
  split; rewrite <- ?Ep, <- ?Eo; [| |done].
  - intros c Hc. destruct (T1 c Hc) as (q & Hq & [l Hl]). destruct (flips_rq _ _ _ _ F Hq) as (q' & Hq' & E).
    exists q'. split; [done|]. rewrite <- (f_equal cr_core E : cr_core q = cr_core q').
    destruct (flips_rq _ _ _ _ F Hl) as (l' & Hl' & _). by eexists.
  - intros c Hc. rewrite <- (flips_smt _ _ c F). by apply T2.
Qed.

Definition enabled_on (b : bool) (D : gset Z) (m : machine) : Prop :=
  forall c q, c ∈ D -> sm_rqs (m_smt m) !! c = Some q -> cr_enabled q = b.

(** ** A flip *)
Section Flip.
Context (m0 : machine) (T0 : topology_ok m0) (b : bool).

Definition flipping (D : gset Z) (m : machine) : Prop := flips m0 m /\ enabled_on b D m.

Lemma flipping_rq D m c : flipping D m -> c ∈ m_cpu_possible m0 ->
  exists q, sm_rqs (m_smt m) !! c = Some q /\ is_Some (sm_rqs (m_smt m) !! cr_core q).
Proof.
  intros [F _] Hc. apply (to_rq _ (topology_flips _ _ F T0)).
  by rewrite <- (f_equal m_cpu_possible F : m_cpu_possible m0 = m_cpu_possible m).
Qed.

Lemma flipping_set D m c q : flipping D m -> sm_rqs (m_smt m) !! c = Some q ->
  flipping ({[c]} ∪ D) (set_store (<[c := q <| cr_enabled := b |>]> (sm_rqs (m_smt m))) m).
Proof.
  intros [F E] Hq. split; [etrans; [exact F|]; by apply (flips_set _ _ q (fun q => q <| cr_enabled := b |>))|].
  intros c' q' Hc'. cbn. destruct (decide (c' = c)) as [->|Hn].
  - rewrite lookup_insert_eq. by intros [= <-].
  - rewrite lookup_insert_ne by done. apply E. set_solver.
Qed.

Lemma wp_enable_each l D (Q : unit -> machine -> Prop) m :
  flipping D m -> (forall t, t ∈ l -> t ∈ m_cpu_possible m0) ->
  (forall m', flipping (D ∪ list_to_set l) m' -> Q tt m') ->
  wp (mapM_ (fun t => set! t ⇝ cr_enabled := b) l) Q m.
Proof.
  revert D m. induction l as [|t l IH]; intros D m Hf Hl HQ; cbn.
  - apply wp_ret, HQ. by replace (D ∪ list_to_set []) with D by set_solver.
  - destruct (flipping_rq D m t Hf) as (q & Hq & _); [apply Hl, list_elem_of_here|].
    apply wp_bind, wp_wr. exists q. split; [exact Hq|]. eapply IH; [by apply flipping_set| |].
    + intros x Hx. apply Hl. by apply list_elem_of_further.
    + intros m' Hm'. apply HQ. by replace (D ∪ list_to_set (t :: l)) with ({[t]} ∪ D ∪ list_to_set l) by set_solver.
Qed.

Lemma wp_reset_start c D (Q : unit -> machine -> Prop) m :
  flipping D m -> is_Some (sm_rqs (m_smt m) !! c) -> (forall m', flipping D m' -> Q tt m') ->
  wp (set! c ⇝ cr_fi_start := 0) Q m.
Proof.
  intros [F E] [q Hq] HQ. apply wp_wr. exists q. split; [exact Hq|]. apply HQ. split.
  - etrans; [exact F|]. by apply (flips_set _ _ q (fun q => q <| cr_fi_start := 0 |>)).
  - intros c' q' Hc'. cbn. destruct (decide (c' = c)) as [->|Hn].
    + rewrite lookup_insert_eq. intros [= <-]. exact (E c q Hc' Hq).
    + rewrite lookup_insert_ne by done. by apply E.
Qed.

Lemma wp_flip_online fuel mask D (Q : unit -> machine -> Prop) m :
  flipping D m -> mask ⊆ m_cpu_online m0 -> (size mask <= fuel)%nat ->
  (forall m', flipping (D ∪ mask) m' -> Q tt m') -> wp (flip_online fuel b mask) Q m.
Proof.
  revert mask D m. induction fuel as [|fuel IH]; intros mask D m Hf Hm Hs HQ; cbn [flip_online];
    destruct (for_each_cpu mask) as [|cpu rest] eqn:El.
  1, 3: apply wp_ret, HQ; assert (mask = ∅) as ->;
    [apply set_eq; intros x; rewrite <- elem_of_for_each_cpu, El; set_solver
    | by replace (D ∪ ∅) with D by set_solver].
  all: assert (Hc : cpu ∈ mask) by (apply elem_of_for_each_cpu; rewrite El; apply list_elem_of_here).
  { exfalso. assert (size ({[cpu]} : gset Z) <= size mask)%nat by (apply subseteq_size; set_solver).
    rewrite size_singleton in *. lia. }
  destruct (to_smt _ T0 cpu (Hm _ Hc)) as [Hsub Hin].
  apply wp_bind, wp_gets, wp_bind. rewrite <- (flips_smt _ _ cpu (proj1 Hf)).
  apply (wp_enable_each _ D); [done | intros t Ht; apply Hsub; by apply elem_of_for_each_cpu |].
  clear m Hf. intros m Hf.
  destruct (flipping_rq _ m cpu Hf) as (q & Hq & Hl); [by apply (to_online _ T0), Hm|].
  apply wp_bind, wp_rd. exists q. split; [exact Hq|].
  apply wp_bind, (wp_reset_start _ _ _ _ Hf Hl). clear m Hf q Hq Hl. intros m Hf.
  eapply IH; [exact Hf | set_solver | |].
  - assert (size (mask ∖ ({[cpu]} ∪ cpu_smt_mask cpu m0)) < size mask)%nat; [|lia].
    apply subset_size. split; [set_solver|]. intros Hs'. specialize (Hs' _ Hc). set_solver.
  - intros m' [F E]. apply HQ. split; [done|]. intros c q Hcc Hcq. apply (E c q); [|done].
    rewrite elem_of_union in Hcc |- *. destruct Hcc as [?|Hcc]; [left; set_solver|].
    destruct (decide (c ∈ cpu_smt_mask cpu m0)) as [Hcm|Hcm].
    + left. apply elem_of_union_r, elem_of_list_to_set. by apply elem_of_for_each_cpu.
    + right. assert (c <> cpu) by (intros ->; done). set_solver.
Qed.

Lemma wp_flip (Q : unit -> machine -> Prop) m :
  flips m0 m -> (forall m', flips m0 m' -> enabled_on b (m_cpu_possible m0) m' -> Q tt m') ->
  wp (__sched_core_flip b) Q m.
Proof.
  intros F HQ. unfold __sched_core_flip.
  apply wp_bind, wp_gets, wp_bind, wp_gets, wp_bind.
  rewrite <- (f_equal m_cpu_online F : m_cpu_online m0 = m_cpu_online m).
  rewrite <- (f_equal m_cpu_possible F : m_cpu_possible m0 = m_cpu_possible m).
  apply (wp_flip_online _ _ ∅); [split; [done | by intros ? ? ?%not_elem_of_empty] | done | done|].
  clear m F. intros m Hf. apply (wp_enable_each _ _ _ _ Hf).
  { intros t Ht. apply elem_of_for_each_cpu in Ht. set_solver. }
  clear m Hf. intros m [F E]. apply HQ; [done|]. intros c q Hc Hq. apply (E c q); [|done].
  destruct (decide (c ∈ m_cpu_online m0)); [set_solver|]. apply elem_of_union_r, elem_of_list_to_set, elem_of_for_each_cpu.
  set_solver.
Qed.
End Flip.

(** ** The users of core scheduling *)

(** [users] references are out.  The last one is given back by a work item. *)
Record toggle_ok (users : Z) (m : machine) : Prop := Mk_toggle {
  tg_topology : topology_ok m;
  tg_users : 0 <= users;
  tg_count : sm_core_count (m_smt m) = users + b2z (sm_core_work (m_smt m));
  tg_key : sm_core_on (m_smt m) = (0 <? sm_core_count (m_smt m));
  tg_cpus : enabled_on (sm_core_on (m_smt m)) (m_cpu_possible m) m;
}.

(** A change of the counters alone. *)
Definition counters (m : machine) (n : Z) (on work : bool) : machine :=
  m <| m_smt := (m_smt m) <| sm_core_count := n |> <| sm_core_on := on |> <| sm_core_work := work |> |>.

Lemma counters_same m :
  counters m (sm_core_count (m_smt m)) (sm_core_on (m_smt m)) (sm_core_work (m_smt m)) = m.
Proof.
  unfold counters. replace (_ <| sm_core_work := _ |>) with (m_smt m) by (by destruct (m_smt m)). by destruct m.
Qed.

Lemma topology_counters n on work m : topology_ok m -> topology_ok (counters m n on work).
Proof.
  intros [T1 T2 T3]. split; [done | | done]. intros c Hc.
  rewrite <- (smt_mask_stable c m (counters m n on work) eq_refl). by apply T2.
Qed.

Lemma assert_empty_any (Q : unit -> machine -> Prop) m :
  topology_ok m -> (forall l, Q tt (m <| m_log := l |>)) -> wp sched_core_assert_empty Q m.
Proof.
  intros T HQ. unfold sched_core_assert_empty. apply wp_bind, wp_gets.
  apply (wp_mapM_inv (fun m' => exists l, m' = m <| m_log := l |>)); [|exists (m_log m); by destruct m | by intros m' [l ->]].
  intros c m' Hc [l ->]. apply elem_of_for_each_cpu in Hc. destruct (to_rq _ T c Hc) as (q & Hq & _).
  apply wp_bind, wp_rd. exists q. split; [exact Hq|].
  case_bool_decide; [apply wp_ret | apply wp_emit]; by eexists.
Qed.

Lemma enabled_counters b D n on work m : enabled_on b D m -> enabled_on b D (counters m n on work).
Proof. intros E c q. apply (E c q). Qed.

Lemma flips_counters m m' : flips m m' ->
  sm_core_count (m_smt m') = sm_core_count (m_smt m) /\ sm_core_on (m_smt m') = sm_core_on (m_smt m) /\
  sm_core_work (m_smt m') = sm_core_work (m_smt m) /\ m_cpu_possible m' = m_cpu_possible m.
Proof.
  intros F. split_and!; symmetry.
  - exact (f_equal (fun x => sm_core_count (m_smt x)) F).
  - exact (f_equal (fun x => sm_core_on (m_smt x)) F).
  - exact (f_equal (fun x => sm_core_work (m_smt x)) F).
  - exact (f_equal m_cpu_possible F).
Qed.

(** After a flip: the counters of [m], the key [on], every CPU at [b]. *)
Record flipped (b : bool) (m m' : machine) : Prop := Mk_flipped {
  fl_topology : topology_ok m';
  fl_count : sm_core_count (m_smt m') = sm_core_count (m_smt m);
  fl_key : sm_core_on (m_smt m') = b;
  fl_work : sm_core_work (m_smt m') = sm_core_work (m_smt m);
  fl_cpus : enabled_on b (m_cpu_possible m') m';
}.

Lemma flipped_log b l m m' : flipped b m m' -> flipped b m (m' <| m_log := l |>).
Proof.
  intros [T A1 A2 A3 A4]. split; try done. apply (topology_flips m'); done.
Qed.

Lemma wp_enable (Q : unit -> machine -> Prop) m :
  topology_ok m -> (forall m', flipped true m m' -> Q tt m') -> wp __sched_core_enable Q m.
Proof.
  intros T HQ. unfold __sched_core_enable, setsmt. apply wp_bind, wp_modify.
  set (m1 := counters m (sm_core_count (m_smt m)) true (sm_core_work (m_smt m))).
  assert (T1 : topology_ok m1) by by apply topology_counters.
  apply wp_bind, wp_emit, wp_bind, (wp_flip m1 T1 true); [done|]. intros m2 F2 E2.
  assert (T2 : topology_ok m2) by by eapply topology_flips.
  destruct (flips_counters _ _ F2) as (C1 & C2 & C3 & C4).
  apply assert_empty_any; [done|]. intros l. apply HQ, flipped_log. split; try done. by rewrite C4.
Qed.

Lemma wp_disable (Q : unit -> machine -> Prop) m :
  topology_ok m -> (forall m', flipped false m m' -> Q tt m') -> wp __sched_core_disable Q m.
Proof.
  intros T HQ. unfold __sched_core_disable, setsmt. apply wp_bind, assert_empty_any; [done|]. intros l.
  apply wp_bind, (wp_flip m T false); [done|]. intros m2 F2 E2. destruct (flips_counters _ _ F2) as (C1 & C2 & C3 & C4).
  apply wp_modify, HQ.
  change (flipped false m (counters m2 (sm_core_count (m_smt m2)) false (sm_core_work (m_smt m2)))).
  split; try done; [apply topology_counters; by eapply topology_flips|]. cbn. rewrite C4. by apply enabled_counters.
Qed.

(** *** Each operation keeps the invariant *)
Lemma toggle_counters users users' n work m :
  toggle_ok users m -> 0 <= users' -> n = users' + b2z work -> (0 <? n) = (0 <? sm_core_count (m_smt m)) ->
  toggle_ok users' (counters m n (sm_core_on (m_smt m)) work).
Proof.
  intros [T U C Ky E] Hu Hn Hk. split; try done; [by apply topology_counters | cbn; congruence].
Qed.

Lemma flipped_ok users n b m m' :
  flipped b m m' -> 0 <= users -> n = users + b2z (sm_core_work (m_smt m)) -> b = (0 <? n) ->
  toggle_ok users (counters m' n (sm_core_on (m_smt m')) (sm_core_work (m_smt m'))).
Proof.
  intros [T C Ky W E] Hu Hn Hb. split; try done.
  - by apply topology_counters.
  - cbn. congruence.
  - cbn. congruence.
  - cbn. rewrite Ky. by apply enabled_counters.
Qed.

Ltac by_work C := unfold b2z in *; revert C; repeat case_match; intros; lia.


Lemma get_ok users m : toggle_ok users m -> wp sched_core_get (fun _ => toggle_ok (users + 1)) m.
Proof.
  intros Ht. pose proof Ht as [T U C Ky E]. unfold sched_core_get, core_count, set_core_count, setsmt.
  apply wp_bind, wp_gets. unfold b2z in C. destruct (Z.eqb_spec (sm_core_count (m_smt m)) 0) as [E0|E0]; cbn [negb].
  - apply wp_bind, wp_gets, wp_bind. rewrite E0. cbn [Z.eqb when]. apply wp_enable; [done|]. intros m' F.
    apply wp_bind, wp_gets, wp_modify. rewrite (fl_count _ _ _ F), E0.
    apply (flipped_ok (users + 1) (0 + 1) true m m' F); [lia | | done].
    by_work C.
  - apply wp_modify.
    apply (toggle_counters users (users + 1) (sm_core_count (m_smt m) + 1) (sm_core_work (m_smt m)) m Ht); [lia | by_work C ..].
Qed.

Lemma put_ok users m : 0 < users -> toggle_ok users m -> wp sched_core_put (fun _ => toggle_ok (users - 1)) m.
Proof.
  intros Hu Ht. pose proof Ht as [T U C Ky E]. unfold sched_core_put, core_count, set_core_count, setsmt.
  apply wp_bind, wp_gets. unfold b2z in C.
  destruct (Z.eqb_spec (sm_core_count (m_smt m)) 1) as [E0|E0]; cbn [negb]; apply wp_modify.
  - apply (toggle_counters users (users - 1) (sm_core_count (m_smt m)) true m Ht); [lia | | done].
    by_work C.
  - apply (toggle_counters users (users - 1) (sm_core_count (m_smt m) - 1) (sm_core_work (m_smt m)) m Ht); [lia | by_work C ..].
Qed.

Lemma work_ok users m :
  sm_core_work (m_smt m) = true -> toggle_ok users m -> wp __sched_core_put (fun _ => toggle_ok users) m.
Proof.
  intros Hw Ht. pose proof Ht as [T U C Ky E]. rewrite Hw in C. cbn in C.
  unfold __sched_core_put, core_count, set_core_count, setsmt.
  apply wp_bind, wp_modify, wp_bind, wp_gets, wp_bind, wp_modify. cbn [m_smt sm_core_count upd].
  set (n := sm_core_count (m_smt m)) in *.
  set (m1 := counters m (n - 1) (sm_core_on (m_smt m)) false).
  change (wp (when (n - 1 =? 0) __sched_core_disable) (fun _ => toggle_ok users) m1).
  assert (T1 : topology_ok m1) by by apply topology_counters.
  destruct (Z.eqb_spec (n - 1) 0) as [E0|E0]; cbn [when].
  - apply wp_disable; [done|]. intros m' F.
    rewrite <- (counters_same m').
    apply (flipped_ok users _ false m1 m' F); [done | | ]; rewrite (fl_count _ _ _ F); cbn; lia.
  - apply wp_ret. apply (toggle_counters users users); [done | done | cbn; lia | lia].
Qed.

(** ** Interleavings

    A user comes or goes, or the queued work runs. *)
Inductive toggle_step : Z * machine -> Z * machine -> Prop :=
| user_gets users m m' : sched_core_get m = Ret tt m' -> toggle_step (users, m) (users + 1, m')
| user_puts users m m' : 0 < users -> sched_core_put m = Ret tt m' -> toggle_step (users, m) (users - 1, m')
| work_runs users m m' : sm_core_work (m_smt m) = true -> __sched_core_put m = Ret tt m' ->
    toggle_step (users, m) (users, m').

Lemma toggle_step_ok s s' : toggle_step s s' -> toggle_ok s.1 s.2 -> toggle_ok s'.1 s'.2.
Proof.
  intros [users m m' E|users m m' Hu E|users m m' Hw E] Ht; cbn in *.
  - pose proof (get_ok _ _ Ht) as Hwp. unfold wp in Hwp. by rewrite E in Hwp.
  - pose proof (put_ok _ _ Hu Ht) as Hwp. unfold wp in Hwp. by rewrite E in Hwp.
  - pose proof (work_ok _ _ Hw Ht) as Hwp. unfold wp in Hwp. by rewrite E in Hwp.
Qed.

Definition returns_ok {A} (c : K A) (m : machine) : Prop := exists a m', c m = Ret a m'.

(** C32: However users of core scheduling and the delayed work interleave, core
    scheduling is on while there is a user: the static key and the flag of every
    possible CPU, online or not, agree, and they are on exactly when there is a
    user or the work of the last one is still to run.  No operation gets stuck. *)
Theorem core_sched_toggling users0 m0 users m :
  toggle_ok users0 m0 -> rtc toggle_step (users0, m0) (users, m) ->
  (forall c, c ∈ m_cpu_possible m -> exists q, sm_rqs (m_smt m) !! c = Some q /\
     cr_enabled q = sm_core_on (m_smt m)) /\
  (sm_core_on (m_smt m) = true <-> 0 < users \/ sm_core_work (m_smt m) = true) /\
  returns_ok sched_core_get m /\
  (0 < users -> returns_ok sched_core_put m) /\
  (sm_core_work (m_smt m) = true -> returns_ok __sched_core_put m).
Proof.
  intros H0 Hs. assert (Ht : toggle_ok users m).
  { change (toggle_ok (users, m).1 (users, m).2). change (toggle_ok (users0, m0).1 (users0, m0).2) in H0.
    revert H0. induction Hs as [|s1 s2 s3 Hs1 _ IH]; [done|]. intros H1. by apply IH, (toggle_step_ok s1). }
  destruct (Ht) as [T U C Ky E]. split_and!.
  - intros c Hc. destruct (to_rq _ T c Hc) as (q & Hq & _). exists q. split; [done | exact (E c q Hc Hq)].
  - rewrite Ky, Z.ltb_lt. revert C. destruct (sm_core_work (m_smt m)); cbn; intuition lia.
  - destruct (proj1 (wp_run _ _ _) (get_ok _ _ Ht)) as (a & m' & E1 & _). by exists a, m'.
  - intros Hu. destruct (proj1 (wp_run _ _ _) (put_ok _ _ Hu Ht)) as (a & m' & E1 & _). by exists a, m'.
  - intros Hw. destruct (proj1 (wp_run _ _ _) (work_ok _ _ Hw Ht)) as (a & m' & E1 & _). by exists a, m'.
Qed.
End Toggle.
