(* ===== verification/CoreSchedProofs.v ===== *)
(** The selection of core scheduling: pick_next_task() only chooses tasks whose
    cookie is the one of the core, and when it changes the cookie every sibling
    already runs a matching task or has a matching one picked for it. *)
From S2P Require Import Prelude Headers Proc Kernel Extern RqClock Uclamp Prio SchedOK.
From S2P Require Import Affinity AffinityProofs Migrate MigrateProofs.
From S2P Require Import Wakeup WakeProofs Schedule CoreSched.

(** ** The state of core scheduling

    The fields the selection depends on; the accounting of forced idle time is
    left out. *)
Record cview : Type := Mk_cview {
  cv_core : Z;
  cv_enabled : bool;
  cv_pick : Z;
  cv_sched_seq : Z;
  cv_task_seq : Z;
  cv_pick_seq : Z;
  cv_cookie : Z;
  cv_tree : list Z;
}.
#[export] Instance eta_cview : Eta cview := fun v =>
  Mk_cview (cv_core v) (cv_enabled v) (cv_pick v) (cv_sched_seq v) (cv_task_seq v) (cv_pick_seq v) (cv_cookie v) (cv_tree v).

Definition view_of (c : core_rq) : cview :=
  Mk_cview (cr_core c) (cr_enabled c) (cr_pick c) (cr_sched_seq c) (cr_task_seq c) (cr_pick_seq c) (cr_cookie c) (cr_tree c).

Definition views (m : machine) : gmap Z cview := view_of <$> sm_rqs (m_smt m).

Definition smt_view (m : machine) := (m_cpu_possible m, sm_core_on (m_smt m), views m).
Abbreviation view_frame := (frame (fun _ : task_struct => tt) (fun _ : rq => tt) smt_view).

(** [p] may run on a core with cookie [k]: the idle task of a CPU always may. *)
Definition matches (m : machine) (p k : Z) : Prop :=
  exists t, m_tasks m !! p = Some t /\
    ((exists q, m_rqs m !! ts_cpu t = Some q /\ rq_idle q = p) \/ ts_core_cookie t = k).

Section Invariant.
Context {H : Headers} {X : Extern} {CX : CoreExtern}.

(** A pending selection is made of tasks that match. *)
Definition picks_ok (m : machine) : Prop :=
  forall i v l, views m !! i = Some v -> views m !! cv_core v = Some l ->
    cv_pick_seq l = cv_task_seq l -> cv_pick v <> NULL -> task_on m i (cv_pick v) /\ matches m (cv_pick v) (cv_cookie l).

Record core_wf (m : machine) : Prop := Mk_core_wf {
  cw_rq i : i ∈ m_cpu_possible m -> is_Some (m_rqs m !! i) /\ is_Some (views m !! i);
  cw_dom i v : views m !! i = Some v -> cv_core v ∈ m_cpu_possible m;
  cw_lead i v l : views m !! i = Some v -> views m !! cv_core v = Some l -> cv_core l = cv_core v;
  cw_tree i v p : views m !! i = Some v -> p ∈ cv_tree v -> task_on m i p;
  cw_smt i : i ∈ m_cpu_online m -> cpu_smt_mask i m ⊆ m_cpu_possible m /\ i ∈ cpu_smt_mask i m;
  cw_core i v j w : i ∈ m_cpu_online m -> views m !! i = Some v -> views m !! j = Some w ->
    (cv_core w = cv_core v <-> j ∈ cpu_smt_mask i m);
}.

Definition core_ok (m : machine) : Prop := core_wf m /\ picks_ok m.

(** Every other sibling [j] of [r] has a task with cookie [k] picked for it, or
    nothing picked while the task it runs matches already. *)
Definition siblings_match (m : machine) (r k : Z) : Prop :=
  forall j, j ∈ cpu_smt_mask r m -> j <> r -> exists v, views m !! j = Some v /\
    ((cv_pick v <> NULL /\ task_on m j (cv_pick v) /\ matches m (cv_pick v) k) \/
     (cv_pick v = NULL /\ exists q, m_rqs m !! j = Some q /\ matches m (rq_curr q) k)).

(** The result of pick_next_task() on CPU [r] of the core led by [core], whose
    cookie was [k0]: [next] runs on [r] and matches the cookie of the core; a
    new cookie comes with a selection for every sibling. The second case is the
    quick pick of an untagged task on an untagged core at the moment the 32-bit
    sequence number of the core has come round to that of the last selection. *)
Record pick_outcome (r core k0 next : Z) (m : machine) (l : cview) : Prop := Mk_pick_outcome {
  oc_ok : kernel_ok m;
  oc_wf : core_wf m;
  oc_next : task_on m r next /\ matches m next (cv_cookie l);
  oc_picks : (picks_ok m /\ (cv_cookie l = k0 \/ siblings_match m r (cv_cookie l))) \/
    (k0 = 0 /\ cv_cookie l = 0 /\ cv_pick_seq l = cv_task_seq l);
}.

(** What no queueing operation changes: leaders and cookies of the cores. *)
Definition cookies (m : machine) :=
  (m_cpu_possible m, sm_core_on (m_smt m), (fun v => (cv_core v, cv_enabled v, cv_cookie v)) <$> views m).
End Invariant.

(** ** What the selection relies on *)
Class CoreExternOK {H : Headers} {X : Extern} (CX : CoreExtern) : Prop := {
  rb_find_first_ok cmp l p : rb_find_first cmp l = Some p -> p ∈ l /\ cmp p = Eq;
  pick_task_frame c r : preserves quiet_frame (cl_pick_task c r);
  pick_task_view c r : preserves view_frame (cl_pick_task c r);
  pick_task_spec c r q m : kernel_ok m -> m_rqs m !! r = Some q ->
    wp (cl_pick_task c r) (fun p m' => (p = NULL \/ task_on m' r p) /\ (c = idle_sched_class -> p = rq_idle q)) m;
  vruntime_frame r p fi : preserves quiet_frame (task_vruntime_update r p fi);
  vruntime_view r p fi : preserves view_frame (task_vruntime_update r p fi);
  vruntime_returns r p fi m : kernel_ok m -> live m r p -> returns (task_vruntime_update r p fi) m;
  forceidle_frame r : preserves quiet_frame (sched_core_account_forceidle r);
  forceidle_view r : preserves view_frame (sched_core_account_forceidle r);
  forceidle_returns r m : kernel_ok m -> is_Some (m_rqs m !! r) -> returns (sched_core_account_forceidle r) m;
  queue_cb_frame r b : preserves quiet_frame (queue_balance_callback r b);
  queue_cb_view r b : preserves view_frame (queue_balance_callback r b);
  queue_cb_returns r b m : kernel_ok m -> is_Some (m_rqs m !! r) -> returns (queue_balance_callback r b) m;
  (** clocks and the classes leave the state of core scheduling alone *)
  clock_view c : preserves view_frame (sched_clock_cpu c);
  irq_time_view c : preserves view_frame (irq_time_read c);
  steal_view c : preserves view_frame (paravirt_steal_clock c);
  put_prev_view c r p : preserves view_frame (cl_put_prev_task c r p);
  set_next_view c r p b : preserves view_frame (cl_set_next_task c r p b);
  (** balancing moves tasks between run queues with core.c's operations *)
  balance_core c r p m : kernel_ok m -> live m r p -> core_ok m ->
    wp (cl_balance c r p) (fun _ m' => kernel_ok m' /\ core_ok m' /\ class_frame m m' /\ cookies m = cookies m') m;
}.
#[export] Hint Resolve pick_task_frame pick_task_view vruntime_frame vruntime_view forceidle_frame forceidle_view
  queue_cb_frame queue_cb_view clock_view irq_time_view steal_view put_prev_view set_next_view : preserve.

Section Views.
Context {H : Headers} {X : Extern} {CX : CoreExtern} {COK : CoreExternOK CX}.

Lemma view_emit n a : preserves view_frame (emit n a).
Proof. by apply frame_emit. Qed.
#[local] Hint Resolve view_emit : preserve.

Lemma view_update_rq_clock_task r d : preserves view_frame (update_rq_clock_task r d).
Proof. unfold update_rq_clock_task. framed. Qed.

Lemma view_update_rq_clock r : preserves view_frame (update_rq_clock r).
Proof. unfold update_rq_clock. framed. apply view_update_rq_clock_task. Qed.

Lemma view_resched_curr r : preserves view_frame (resched_curr r).
Proof. unfold resched_curr, set_nr_and_not_polling, set_tsk_need_resched. framed. Qed.

Lemma view_put_prev_task r p : preserves view_frame (put_prev_task r p).
Proof. unfold put_prev_task. framed. Qed.

Lemma view_set_next_task r p : preserves view_frame (set_next_task r p).
Proof. unfold set_next_task. framed. Qed.
End Views.
#[export] Hint Resolve view_emit : preserve.
#[export] Hint Extern 2 (preserves view_frame (update_rq_clock _)) => apply view_update_rq_clock : preserve.
#[export] Hint Extern 2 (preserves view_frame (resched_curr _)) => apply view_resched_curr : preserve.
#[export] Hint Extern 2 (preserves view_frame (put_prev_task _ _)) => apply view_put_prev_task : preserve.
#[export] Hint Extern 2 (preserves view_frame (set_next_task _ _)) => apply view_set_next_task : preserve.

(** ** Steps of the selection *)
Section Steps.
Context {H : Headers} {X : Extern} {Mg : MigrateExtern} {CX : CoreExtern}.
Context {HOK : HeadersOK H} {XOK : ExternOK X} {XS : ExternSafe X} {COK : CoreExternOK CX} {TOK : TopologyOK CX}.

(** [b] is the machine the selection starts from, [V] the views reached. *)
Context (b : machine).

(** What the selection never changes. *)
Definition vfix (v : cview) := (cv_core v, cv_enabled v, cv_tree v).

Record selecting (V : gmap Z cview) (m : machine) : Prop := Mk_selecting {
  se_ok : kernel_ok m;
  se_frame : quiet_frame b m;
  se_view : smt_view m = (m_cpu_possible b, sm_core_on (m_smt b), V);
  se_shape : vfix <$> V = vfix <$> views b;
}.

Lemma se_views V m : selecting V m -> views m = V.
Proof. intros Hs. pose proof (se_view _ _ Hs) as E. unfold smt_view in E. congruence. Qed.

Lemma selecting_start : kernel_ok b -> selecting (views b) b.
Proof. by split. Qed.

Lemma wp_se_quiet {A} (c : K A) V (Q : A -> machine -> Prop) m :
  selecting V m -> returns c m -> preserves quiet_frame c -> preserves view_frame c ->
  (forall a m', selecting V m' -> Q a m') -> wp c Q m.
Proof.
  intros [Hok F E S] Hr Hq Hv HQ. apply wp_run in Hr as (a & m' & Er & _). apply wp_run. exists a, m'. split; [done|].
  pose proof (Hq _ _ _ Er) as Fq. pose proof (Hv _ _ _ Er) as (_ & _ & Ev).
  apply HQ. split; [by eapply kernel_ok_quiet | by etrans | congruence | done].
Qed.

(** A field of the shared state. *)
Lemma wp_se_core i V v (Q : core_rq -> machine -> Prop) m :
  selecting V m -> V !! i = Some v -> (forall c, view_of c = v -> Q c m) -> wp (deref (R := core_rq) i) Q m.
Proof.
  intros Hs Hv HQ. rewrite <- (se_views _ _ Hs) in Hv. unfold views in Hv. rewrite lookup_fmap in Hv.
  destruct (sm_rqs (m_smt m) !! i) as [c|] eqn:Ec; [|done]. cbn in Hv. injection Hv as Hv.
  apply wp_deref. exists c. split; [exact Ec | by apply HQ].
Qed.

Lemma wp_se_rd {E} i (f : core_rq -> E) (g : cview -> E) V v (Q : E -> machine -> Prop) m :
  (forall c, f c = g (view_of c)) -> selecting V m -> V !! i = Some v -> Q (g v) m -> wp (i ⇝ f) Q m.
Proof.
  intros Hf Hs Hv HQ. apply wp_bind, (wp_se_core i V v _ _ Hs Hv). intros c Ec. apply wp_ret. by rewrite Hf, Ec.
Qed.

Lemma wp_se_rd_any {E} i (f : core_rq -> E) V v (Q : E -> machine -> Prop) m :
  selecting V m -> V !! i = Some v -> (forall x, Q x m) -> wp (i ⇝ f) Q m.
Proof. intros Hs Hv HQ. apply wp_bind, (wp_se_core i V v _ _ Hs Hv). intros c _. by apply wp_ret. Qed.

Lemma wp_se_upd i (g : core_rq -> core_rq) (h : cview -> cview) V v (Q : unit -> machine -> Prop) m :
  selecting V m -> V !! i = Some v -> (forall c, view_of (g c) = h (view_of c)) -> vfix (h v) = vfix v ->
  (forall m', selecting (<[i := h v]> V) m' -> Q tt m') -> wp (upd_obj i g) Q m.
Proof.
  intros [Hok F E S] HV Hg Hfix HQ. pose proof HV as Hv.
  assert (Ev : views m = V) by by apply se_views.
  rewrite <- Ev in Hv. unfold views in Hv. rewrite lookup_fmap in Hv.
  destruct (sm_rqs (m_smt m) !! i) as [c|] eqn:Ec; [|done]. cbn in Hv. injection Hv as Hv.
  apply wp_upd_obj. exists c. split; [exact Ec|]. apply HQ. split.
  - eapply kernel_ok_frame; [|exact Hok]. done.
  - etrans; [exact F|]. done.
  - unfold smt_view, views in *. cbn. rewrite fmap_insert, Hg, Hv. congruence.
  - rewrite fmap_insert, Hfix, insert_id; [done|]. by rewrite lookup_fmap, HV.
Qed.

Lemma wp_se_stat i (g : core_rq -> core_rq) V v (Q : unit -> machine -> Prop) m :
  selecting V m -> V !! i = Some v -> (forall c, view_of (g c) = view_of c) ->
  (forall m', selecting V m' -> Q tt m') -> wp (upd_obj i g) Q m.
Proof.
  intros Hs Hv Hg HQ. apply (wp_se_upd i g (fun x => x) V v); [done..|]. by rewrite insert_id.
Qed.

Lemma wp_se_emit n a V (Q : unit -> machine -> Prop) m :
  selecting V m -> (forall m', selecting V m' -> Q tt m') -> wp (emit n a) Q m.
Proof. intros Hs HQ. apply (wp_se_quiet _ V); auto with preserve; [done|]. by intros []. Qed.

(** ** Tasks *)
Lemma se_task V m p t : selecting V m -> m_tasks b !! p = Some t ->
  exists t', m_tasks m !! p = Some t' /\ ts_cpu t' = ts_cpu t /\ ts_core_cookie t' = ts_core_cookie t /\ ts_class t' = ts_class t.
Proof.
  intros Hs Ht. destruct (frame_task _ _ _ _ _ _ _ (se_frame _ _ Hs) Ht) as (t' & Ht' & E). exists t'. split; [done|].
  split_and!; symmetry.
  - exact (f_equal ts_cpu E).
  - exact (f_equal ts_core_cookie E).
  - exact (f_equal ts_class E).
Qed.

Lemma se_rq V m i q : selecting V m -> m_rqs b !! i = Some q ->
  exists q', m_rqs m !! i = Some q' /\ rq_idle q' = rq_idle q /\ rq_curr q' = rq_curr q.
Proof.
  intros Hs Hq. destruct (frame_rq _ _ _ _ _ _ _ (se_frame _ _ Hs) Hq) as (q' & Hq' & E). exists q'.
  unfold rq_quiet, rq_attrs in E. split; [done|]. split; congruence.
Qed.

Lemma se_matches V m p k : selecting V m -> matches b p k -> matches m p k.
Proof.
  intros Hs (t & Ht & Hm). destruct (se_task _ _ _ _ Hs Ht) as (t' & Ht' & Ec & Ek & _). exists t'. split; [done|].
  rewrite Ec, Ek. destruct Hm as [(q & Hq & Hi)|Hk]; [|by right]. left.
  destruct (se_rq _ _ _ _ Hs Hq) as (q' & Hq' & Ei & _). exists q'. split; [done | congruence].
Qed.

Lemma se_task_on V m i p : selecting V m -> task_on b i p -> task_on m i p.
Proof.
  intros Hs (t & Ht & Hc). destruct (se_task _ _ _ _ Hs Ht) as (t' & Ht' & Ec & _). exists t'. split; [done | congruence].
Qed.

Lemma se_task_on_back V m i p : selecting V m -> task_on m i p -> task_on b i p.
Proof.
  intros Hs (t & Ht & Hc). symmetry in Hc.
  destruct (frame_task _ _ _ _ _ _ _ (symmetry (se_frame _ _ Hs)) Ht) as (t' & Ht' & E).
  exists t'. split; [done|]. rewrite Hc. symmetry. exact (f_equal ts_cpu E).
Qed.

(** ** Picks

    [V'] is [V] with other picks, all of them of the kind [P]. *)
Definition repicked (P : Z -> Z -> Prop) (V V' : gmap Z cview) : Prop :=
  forall j v, V !! j = Some v -> exists v', V' !! j = Some v' /\ (v' = v \/ exists p, P j p /\ v' = v <| cv_pick := p |>).

Lemma repicked_refl P V : repicked P V V.
Proof. intros j v Hv. exists v. by split; [|left]. Qed.

Lemma repicked_trans P V1 V2 V3 : repicked P V1 V2 -> repicked P V2 V3 -> repicked P V1 V3.
Proof.
  intros H1 H2 j v Hv. destruct (H1 j v Hv) as (v2 & Hv2 & E2). destruct (H2 j v2 Hv2) as (v3 & Hv3 & E3).
  exists v3. split; [done|]. destruct E3 as [->|(p & Hp & ->)]; [done|].
  right. exists p. split; [done|]. by destruct E2 as [->|(p' & _ & ->)].
Qed.

Lemma repicked_set P V i v p : V !! i = Some v -> P i p -> repicked P V (<[i := v <| cv_pick := p |>]> V).
Proof.
  intros Hv Hp j w Hw. destruct (decide (j = i)) as [->|Hn].
  - rewrite lookup_insert_eq. eexists. split; [done|]. right. exists p. split; [done|]. congruence.
  - rewrite lookup_insert_ne by done. exists w. by split; [|left].
Qed.

Lemma repicked_have P V V' i v : repicked P V V' -> V !! i = Some v -> P i (cv_pick v) ->
  exists v', V' !! i = Some v' /\ P i (cv_pick v').
Proof. intros HR Hv Hp. destruct (HR i v Hv) as (v' & Hv' & [->|(p & Hp' & ->)]); eauto. Qed.

(** [S] are the siblings, whose picks alone change. *)
Context (Hok : kernel_ok b) (Hwf : core_wf b) (S : gset Z).

Definition local (i p : Z) : Prop := i ∈ S /\ task_on b i p.

Lemma se_possible V m i : selecting V m -> i ∈ m_cpu_possible b ->
  (exists q, m_rqs b !! i = Some q) /\ (exists v, V !! i = Some v).
Proof.
  intros Hs Hi. destruct (cw_rq _ Hwf i Hi) as [[q Hq] [v Hv]]. split; [by exists q|].
  assert (E : (vfix <$> V) !! i = Some (vfix v)) by (by rewrite (se_shape _ _ Hs), lookup_fmap, Hv).
  rewrite lookup_fmap in E. destruct (V !! i) as [w|]; [by exists w | done].
Qed.

Lemma idle_on i q : m_rqs b !! i = Some q -> task_on b i (rq_idle q) /\ rq_idle q <> NULL.
Proof.
  intros Hq. destruct (ok_rqs _ Hok i q Hq) as (_ & _ & Hi). split; [done|].
  intros E. rewrite E in Hi. destruct Hi as (t & Ht & _). by rewrite (ok_null _ Hok) in Ht.
Qed.

Lemma wp_class_pick c i q V (Q : Z -> machine -> Prop) m :
  selecting V m -> m_rqs b !! i = Some q ->
  (forall p m', selecting V m' -> p = NULL \/ task_on b i p -> (c = idle_sched_class -> p = rq_idle q) -> Q p m') ->
  wp (cl_pick_task c i) Q m.
Proof.
  intros Hs Hq HQ. destruct (se_rq _ _ _ _ Hs Hq) as (q' & Hq' & Ei & _).
  pose proof (pick_task_spec c i q' m (se_ok _ _ Hs) Hq') as Hp.
  apply wp_run in Hp as (p & m' & E & Hp & Hi). apply wp_run. exists p, m'. split; [done|].
  assert (Hr : returns (cl_pick_task c i) m) by (unfold returns, wp; by rewrite E).
  pose proof (wp_se_quiet _ V (fun _ m' => selecting V m') m Hs Hr (pick_task_frame _ _) (pick_task_view _ _) (fun _ _ x => x)) as Hw.
  unfold wp in Hw. rewrite E in Hw. apply HQ; [done | | by rewrite <- Ei].
  destruct Hp as [?|Hp]; [by left | right; by eapply se_task_on_back].
Qed.

Lemma wp_idle_pick i q V (Q : Z -> machine -> Prop) m :
  selecting V m -> m_rqs b !! i = Some q -> (forall m', selecting V m' -> Q (rq_idle q) m') ->
  wp (cl_pick_task idle_sched_class i) Q m.
Proof.
  intros Hs Hq HQ. apply (wp_class_pick _ _ _ _ _ _ Hs Hq). intros p m' Hs' _ Hp. rewrite (Hp eq_refl). by apply HQ.
Qed.

Lemma wp_pick_from i classes V (Q : Z -> machine -> Prop) m :
  selecting V m -> (exists q, m_rqs b !! i = Some q) -> idle_sched_class ∈ classes ->
  (forall p m', selecting V m' -> task_on b i p -> p <> NULL -> Q p m') -> wp (pick_task_from i classes) Q m.
Proof.
  intros Hs [q Hq] Hi HQ. revert m Hs Hi. induction classes as [|c cs IH]; intros m Hs Hi; [by apply elem_of_nil in Hi|].
  cbn [pick_task_from]. apply wp_bind, (wp_class_pick _ _ _ _ _ _ Hs Hq). intros p m' Hs' Hp Hidle.
  destruct (Z.eqb_spec p NULL) as [->|Hn]; cbn [negb].
  - apply IH; [done|]. apply elem_of_cons in Hi as [<-|?]; [|done].
    destruct (idle_on i q Hq) as [_ Hn]. by rewrite <- (Hidle eq_refl) in Hn.
  - destruct Hp as [?|Hp]; [done|]. by apply wp_ret, HQ.
Qed.

Lemma wp_pick_task i V (Q : Z -> machine -> Prop) m :
  selecting V m -> i ∈ m_cpu_possible b ->
  (forall p m', selecting V m' -> task_on b i p -> p <> NULL -> Q p m') -> wp (pick_task i) Q m.
Proof.
  intros Hs Hi. destruct (se_possible _ _ _ Hs Hi) as [Hq _]. apply (wp_pick_from _ _ _ _ _ Hs Hq).
  apply list_elem_of_In. cbn. tauto.
Qed.

Lemma wp_se_clock i V (Q : unit -> machine -> Prop) m :
  selecting V m -> i ∈ m_cpu_possible b -> (forall m', selecting V m' -> Q tt m') -> wp (update_rq_clock i) Q m.
Proof.
  intros Hs Hi HQ. destruct (se_possible _ _ _ Hs Hi) as [[q Hq] _]. destruct (se_rq _ _ _ _ Hs Hq) as (q' & Hq' & _).
  apply (wp_se_quiet _ V _ _ Hs); [apply clock_update_returns; [apply Hs | by eexists] | auto with preserve .. |].
  intros []. apply HQ.
Qed.

Lemma wp_se_deref p V t (Q : task_struct -> machine -> Prop) m :
  selecting V m -> m_tasks b !! p = Some t -> (forall t', ts_core_cookie t' = ts_core_cookie t -> Q t' m) ->
  wp (deref (R := task_struct) p) Q m.
Proof.
  intros Hs Ht HQ. destruct (se_task _ _ _ _ Hs Ht) as (t' & Ht' & _ & Ek & _). apply wp_deref. exists t'. by split; [|apply HQ].
Qed.

Lemma wp_se_set_pick i p V v (Q : unit -> machine -> Prop) m :
  selecting V m -> V !! i = Some v -> (forall m', selecting (<[i := v <| cv_pick := p |>]> V) m' -> Q tt m') ->
  wp (set! i ⇝ cr_pick := p) Q m.
Proof.
  intros Hs Hv. by apply (wp_se_upd i (fun c => c <| cr_pick := p |>) (fun v => v <| cv_pick := p |>) _ _ _ _ Hs Hv).
Qed.

(** ** The regular picks *)
Lemma wp_core_picks cpu core fi cu l max V (Q : Z -> machine -> Prop) m :
  selecting V m -> (forall i, i ∈ l -> i ∈ m_cpu_possible b /\ i ∈ S) ->
  (max = NULL \/ is_Some (m_tasks b !! max)) ->
  (forall max' V' m', selecting V' m' -> repicked local V V' ->
     (forall i, i ∈ l -> exists v', V' !! i = Some v' /\ local i (cv_pick v')) ->
     (l <> [] \/ max <> NULL -> is_Some (m_tasks b !! max')) -> Q max' m') ->
  wp (core_picks cpu core fi cu l max) Q m.
Proof.
  revert max V m. induction l as [|i l IH]; intros max V m Hs Hl Hm HQ; cbn [core_picks].
  { apply wp_ret, (HQ max V); [done | apply repicked_refl | by intros i ?%elem_of_nil | by destruct Hm; intuition]. }
  destruct (Hl i) as [Hi HiS]; [apply list_elem_of_here|].
  apply wp_bind. eapply (wp_mono _ (fun _ => selecting V)).
  { unfold when. case_match; [by apply (wp_se_clock i V _ _ Hs Hi) | by apply wp_ret]. }
  clear m Hs. intros [] m Hs. apply wp_bind, (wp_pick_task i V _ _ Hs Hi). clear m Hs. intros p m Hs Hp Hn.
  destruct (se_possible _ _ _ Hs Hi) as [_ [v Hv]].
  apply wp_bind, (wp_se_set_pick i p V v _ _ Hs Hv).
  clear m Hs. intros m Hs. destruct (Hp) as (t & Ht & _).
  assert (Hgo : forall mx, is_Some (m_tasks b !! mx) -> wp (core_picks cpu core fi cu l mx) Q m).
  { intros mx Hmx. eapply IH; [exact Hs | | by right |].
    - intros j Hj. apply Hl. by apply list_elem_of_further.
    - intros max' V' m' Hs' HR HP Hmax. eapply (HQ max' V'); [done | | |].
      + eapply repicked_trans; [by apply repicked_set | exact HR].
      + intros j [->|Hj]%elem_of_cons; [|by apply HP]. eapply repicked_have; [exact HR | apply lookup_insert_eq | by split].
      + intros _. apply Hmax. right. intros ->. rewrite (ok_null _ Hok) in Hmx. by destruct Hmx. }
  apply wp_bind. destruct (Z.eqb_spec max NULL) as [->|Hmn]; [apply wp_ret, Hgo; by eexists|].
  destruct Hm as [?|[tm Htm]]; [done|].
  apply wp_bind, (wp_se_deref _ _ _ _ _ Hs Htm). intros tm' _. apply wp_bind, (wp_se_deref _ _ _ _ _ Hs Ht). intros tp _.
  apply wp_ret. case_match; apply Hgo; by eexists.
Qed.

(** ** Matching picks *)
Lemma wp_se_idle p t V (Q : bool -> machine -> Prop) m :
  selecting V m -> m_tasks b !! p = Some t ->
  (forall x : bool, (x = true <-> exists q, m_rqs b !! ts_cpu t = Some q /\ rq_idle q = p) -> Q x m) ->
  wp (is_task_rq_idle p) Q m.
Proof.
  intros Hs Ht HQ. destruct (se_task _ _ _ _ Hs Ht) as (t' & Ht' & Ec & _).
  destruct (ok_tasks _ Hok p t Ht) as [[q Hq] _]. destruct (se_rq _ _ _ _ Hs Hq) as (q' & Hq' & Ei & _).
  unfold is_task_rq_idle. apply wp_bind, wp_rd. exists t'. split; [done|].
  rewrite Ec. apply wp_bind, wp_rd. exists q'. split; [done|]. apply wp_ret, HQ.
  rewrite Z.eqb_eq, Ei. split; [by eexists | intros (q0 & Hq0 & <-); congruence].
Qed.

Lemma wp_se_cookie_equals p t k V (Q : bool -> machine -> Prop) m :
  selecting V m -> m_tasks b !! p = Some t -> (forall x : bool, (x = true <-> matches b p k) -> Q x m) ->
  wp (cookie_equals p k) Q m.
Proof.
  intros Hs Ht HQ. unfold cookie_equals. apply wp_bind, (wp_se_idle p t V _ _ Hs Ht). intros x Hx.
  destruct x; [apply wp_ret, HQ; split; [intros _; exists t; split; [done | left; by apply Hx] | done]|].
  destruct (se_task _ _ _ _ Hs Ht) as (t' & Ht' & _ & Ek & _). apply wp_bind, wp_rd. exists t'. split; [done|].
  apply wp_ret, HQ. rewrite Z.eqb_eq, Ek. split; [intros <-; exists t; by split; [|right]|].
  intros (t0 & Ht0 & Hm). assert (t0 = t) as -> by congruence. destruct Hm as [Hm|Hm]; [|done].
  apply Hx in Hm. done.
Qed.

Lemma wp_se_find i k V v q (Q : Z -> machine -> Prop) m :
  selecting V m -> V !! i = Some v -> m_rqs b !! i = Some q ->
  (forall p m', selecting V m' -> task_on b i p -> matches b p k -> Q p m') -> wp (sched_core_find i k) Q m.
Proof.
  intros Hs Hv Hq HQ. unfold sched_core_find.
  apply wp_bind, (wp_se_rd i _ cv_tree V v _ _ (fun _ => eq_refl) Hs Hv), wp_bind, wp_get_state.
  destruct (rb_find_first (rb_sched_core_cmp m k) (cv_tree v)) as [p|] eqn:Ef.
  - apply rb_find_first_ok in Ef as [Hin Hcmp]. apply wp_ret, HQ; [done | |].
    + assert (E : (vfix <$> views b) !! i = Some (vfix v)) by (by rewrite <- (se_shape _ _ Hs), lookup_fmap, Hv).
      rewrite lookup_fmap in E. destruct (views b !! i) as [w|] eqn:Ew; [|done]. cbn in E. injection E as _ _ E.
      apply (cw_tree _ Hwf i w p Ew). by rewrite E.
    + unfold rb_sched_core_cmp in Hcmp. destruct (m_tasks m !! p) as [t'|] eqn:Ht'; [|done].
      destruct (frame_task _ _ _ _ _ _ _ (symmetry (se_frame _ _ Hs)) Ht') as (t & Ht & E).
      exists t. split; [done|]. right. rewrite <- (f_equal ts_core_cookie E : ts_core_cookie t' = ts_core_cookie t).
      destruct (Z.ltb_spec k (ts_core_cookie t')), (Z.ltb_spec (ts_core_cookie t') k); try done; lia.
  - apply (wp_idle_pick i q V _ _ Hs Hq). intros m' Hs'. destruct (idle_on i q Hq) as [Hon _].
    apply HQ; [done | done |]. destruct Hon as (t & Ht & Ec). exists t. split; [done|]. left. exists q. by rewrite Ec.
Qed.

Definition good (k i p : Z) : Prop := local i p /\ matches b p k.

Lemma good_idle k i q : i ∈ S -> m_rqs b !! i = Some q -> good k i (rq_idle q).
Proof.
  intros HiS Hq. destruct (idle_on i q Hq) as [Hon _]. split; [done|]. destruct Hon as (t & Ht & Ec).
  exists t. split; [done|]. left. exists q. by rewrite Ec.
Qed.

Lemma wp_core_matches core k fi l occ V (Q : Z -> machine -> Prop) m :
  selecting V m -> is_Some (V !! core) ->
  (forall i, i ∈ l -> i ∈ m_cpu_possible b /\ exists v, V !! i = Some v /\ local i (cv_pick v)) ->
  (forall occ' V' m', selecting V' m' -> repicked (good k) V V' ->
     (forall i, i ∈ l -> exists v', V' !! i = Some v' /\ good k i (cv_pick v')) -> Q occ' m') ->
  wp (core_matches core k fi l occ) Q m.
Proof.
  revert occ V m. induction l as [|i l IH]; intros occ V m Hs [vc Hvc] Hl HQ; cbn [core_matches].
  { apply wp_ret, (HQ occ V); [done | apply repicked_refl | by intros i ?%elem_of_nil]. }
  destruct (Hl i) as (Hi & v & Hv & HiS & Hon); [apply list_elem_of_here|].
  destruct (se_possible _ _ _ Hs Hi) as [[q Hq] _].
  apply wp_bind, (wp_se_rd i _ cv_pick V v _ _ (fun _ => eq_refl) Hs Hv).
  destruct (Hon) as (t & Ht & Ec). apply wp_bind, (wp_se_cookie_equals _ t _ _ _ _ Hs Ht). intros x Hx.
  apply wp_bind. eapply (wp_mono _ (fun p m' => selecting V m' /\ good k i p)).
  { destruct x; [apply wp_ret; split; [done | split; [by split | by apply Hx]]|]. apply wp_bind.
    destruct (truthy k).
    - apply (wp_se_find i k V v q _ _ Hs Hv Hq). clear m Hs. intros p m Hs Hp Hm.
      destruct (Z.eqb_spec p NULL) as [->|]; [|by apply wp_ret].
      destruct Hp as (tn & Htn & _). by rewrite (ok_null _ Hok) in Htn.
    - apply wp_ret. cbn [NULL Z.eqb]. apply (wp_idle_pick i q V _ _ Hs Hq). intros m' Hs'. split; [done | by apply good_idle]. }
  clear m Hs x Hx. intros p m [Hs Hp]. apply wp_bind, (wp_se_set_pick i p V v _ _ Hs Hv). clear m Hs. intros m Hs.
  assert (Hgo : forall oc m1, selecting (<[i := v <| cv_pick := p |>]> V) m1 -> wp (core_matches core k fi l oc) Q m1).
  { intros oc m1 Hs1. eapply IH; [exact Hs1 | rewrite lookup_insert_is_Some'; right; by eexists | |].
    - intros j Hj. destruct (Hl j) as (Hj' & w & Hw & Hon'); [by apply list_elem_of_further|]. split; [done|].
      destruct (decide (j = i)) as [->|Hn].
      + rewrite lookup_insert_eq. eexists. split; [done | apply Hp].
      + rewrite lookup_insert_ne by done. by exists w.
    - intros oc' V' m' Hs' HR HP. eapply (HQ oc' V'); [done | |].
      + eapply repicked_trans; [by apply repicked_set | exact HR].
      + intros j [->|Hj]%elem_of_cons; [|by apply HP]. eapply repicked_have; [exact HR | apply lookup_insert_eq | exact Hp]. }
  destruct (se_rq _ _ _ _ Hs Hq) as (q' & Hq' & _). apply wp_bind, wp_deref. exists q'. split; [done|].
  case_match; [|by apply Hgo]. apply wp_bind.
  assert (Hvc' : exists w, <[i := v <| cv_pick := p |>]> V !! core = Some w).
  { apply lookup_insert_is_Some'. right. by eexists. }
  destruct Hvc' as [w Hw]. unfold when at 1. case_match; [|by apply wp_ret, Hgo].
  apply wp_bind, (wp_se_stat core _ _ w _ _ Hs Hw); [done|]. clear m Hs q' Hq' H0 H1. intros m Hs.
  unfold when. case_match; [|by apply wp_ret, Hgo].
  apply (wp_se_stat core _ _ w _ _ Hs Hw); [done|]. intros m' Hs'. by apply Hgo.
Qed.

(** ** Rescheduling the siblings *)

(** A pick is forgotten on this CPU and where the task already runs. *)
Definition kicked (cpu j : Z) (v v' : cview) : Prop :=
  v' = v \/ (j ∈ S /\ v' = v <| cv_pick := NULL |> /\
    (j = cpu \/ exists q, m_rqs b !! j = Some q /\ rq_curr q = cv_pick v)).

Definition kicks (cpu : Z) (V V' : gmap Z cview) : Prop :=
  forall j v, V !! j = Some v -> exists v', V' !! j = Some v' /\ kicked cpu j v v'.

Lemma kicks_refl cpu V : kicks cpu V V.
Proof. intros j v Hv. exists v. by split; [|left]. Qed.

Lemma kicks_trans cpu V1 V2 V3 : kicks cpu V1 V2 -> kicks cpu V2 V3 -> kicks cpu V1 V3.
Proof.
  intros H1 H2 j v Hv. destruct (H1 j v Hv) as (v2 & Hv2 & E2). destruct (H2 j v2 Hv2) as (v3 & Hv3 & E3).
  exists v3. split; [done|]. destruct E2 as [->|(Hj & -> & Hw)]; [done|].
  right. split; [done|]. split; [|done]. by destruct E3 as [->|(_ & -> & _)].
Qed.

Lemma kicks_set cpu V j v : V !! j = Some v -> kicked cpu j v (v <| cv_pick := NULL |>) ->
  kicks cpu V (<[j := v <| cv_pick := NULL |>]> V).
Proof.
  intros Hv Hk i w Hw. destruct (decide (i = j)) as [->|Hn].
  - rewrite lookup_insert_eq. eexists. split; [done|]. congruence.
  - rewrite lookup_insert_ne by done. exists w. by split; [|left].
Qed.

Lemma wp_se_match p q tp tq V (Q : bool -> machine -> Prop) m :
  selecting V m -> m_tasks b !! p = Some tp -> m_tasks b !! q = Some tq -> (forall x, Q x m) -> wp (cookie_match p q) Q m.
Proof.
  intros Hs Hp Hq HQ. unfold cookie_match. apply wp_bind, (wp_se_idle p tp V _ _ Hs Hp). intros x _.
  apply wp_bind, (wp_se_idle q tq V _ _ Hs Hq). intros y _. destruct (x || y)%bool; [by apply wp_ret|].
  destruct (se_task _ _ _ _ Hs Hp) as (tp' & Hp' & _). destruct (se_task _ _ _ _ Hs Hq) as (tq' & Hq' & _).
  apply wp_bind, wp_rd. exists tp'. split; [done|]. apply wp_bind, wp_rd. exists tq'. split; [done|]. by apply wp_ret.
Qed.

Lemma selecting_occupation p occ V m : selecting V m ->
  selecting V (m <| m_smt := (m_smt m) <| sm_occupation := <[p := occ]> (sm_occupation (m_smt m)) |> |>).
Proof. intros [Hk F E Sh]. split; [by eapply kernel_ok_frame; [|exact Hk] | by etrans; [exact F|] | done | done]. Qed.

Lemma wp_se_resched i V (Q : unit -> machine -> Prop) m :
  selecting V m -> is_Some (m_rqs b !! i) -> (forall m', selecting V m' -> Q tt m') -> wp (resched_curr i) Q m.
Proof.
  intros Hs [q Hq] HQ. destruct (se_rq _ _ _ _ Hs Hq) as (q' & Hq' & _ & _).
  apply (wp_se_quiet _ V _ _ Hs); [|auto with preserve ..|intros []; apply HQ].
  apply resched_returns; [apply Hs | by eexists].
Qed.

Lemma wp_se_vruntime i p fi V (Q : unit -> machine -> Prop) m :
  selecting V m -> live b i p -> (forall m', selecting V m' -> Q tt m') -> wp (task_vruntime_update i p fi) Q m.
Proof.
  intros Hs Hl HQ. apply (wp_se_quiet _ V _ _ Hs); [|apply vruntime_frame|apply vruntime_view|intros []; apply HQ].
  apply vruntime_returns; [apply Hs|]. eapply live_frame; [apply (se_frame _ _ Hs) | exact Hl].
Qed.

Lemma wp_core_kicks cpu core next tn fi occ l V (Q : unit -> machine -> Prop) m :
  selecting V m -> is_Some (V !! core) -> m_tasks b !! next = Some tn ->
  (forall i, i ∈ l -> i ∈ m_cpu_possible b /\ i ∈ S /\
     exists v, V !! i = Some v /\ (cv_pick v = NULL \/ is_Some (m_tasks b !! cv_pick v))) ->
  (forall V' m', selecting V' m' -> kicks cpu V V' -> Q tt m') ->
  wp (core_kicks cpu core next fi occ l) Q m.
Proof.
  revert V m. induction l as [|i l IH]; intros V m Hs Hc Hn Hl HQ; cbn [core_kicks].
  { apply wp_ret, (HQ V); [done | apply kicks_refl]. }
  destruct (Hl i) as (Hi & HiS & v & Hv & Hp); [apply list_elem_of_here|].
  destruct (se_possible _ _ _ Hs Hi) as [[q Hq] _].
  apply wp_bind, (wp_se_rd i _ cv_pick V v _ _ (fun _ => eq_refl) Hs Hv), wp_bind.
  assert (Hgo : forall V1 m1, selecting V1 m1 -> kicks cpu V V1 -> wp (core_kicks cpu core next fi occ l) Q m1).
  { intros V1 m1 Hs1 HK. eapply (IH V1); [done | | done | |].
    - destruct Hc as [c Hc]. destruct (HK _ _ Hc) as (c' & Hc' & _). by eexists.
    - intros j Hj. destruct (Hl j) as (A1 & A2 & w & Hw & A3); [by apply list_elem_of_further|]. split; [done|]. split; [done|].
      destruct (HK _ _ Hw) as (w' & Hw' & [->|(_ & -> & _)]); [by exists w|]. eexists. split; [done | by left].
    - intros V' m' Hs' HK'. apply (HQ V'); [done | by eapply kicks_trans]. }
  destruct (Z.eqb_spec (cv_pick v) NULL) as [E|E]; [apply wp_ret, (Hgo V); [done | apply kicks_refl]|].
  destruct Hp as [?|[tp Htp]]; [done|]. destruct Hc as [vc Hvc].
  apply wp_bind, (wp_se_rd_any core _ V vc _ _ Hs Hvc). intros fc. apply wp_bind.
  eapply (wp_mono _ (fun _ => selecting V)).
  { unfold when. case_match; [|by apply wp_ret]. apply (wp_se_vruntime _ _ _ V _ _ Hs); [by split; eexists | done]. }
  clear m Hs. intros [] m Hs. apply wp_bind, wp_modify. apply (selecting_occupation (cv_pick v) occ) in Hs.
  revert Hs. generalize (m <| m_smt := (m_smt m) <| sm_occupation := <[cv_pick v := occ]> (sm_occupation (m_smt m)) |> |>).
  clear m. intros m Hs. destruct (Z.eqb_spec i cpu) as [->|Hne].
  { apply (wp_se_set_pick cpu NULL V v _ _ Hs Hv). intros m' Hs'. apply (Hgo _ _ Hs'), kicks_set; [done|].
    right. split; [done|]. split; [done | by left]. }
  apply wp_bind, (wp_se_match _ _ _ _ V _ _ Hs Hn Htp). intros x. apply wp_bind.
  eapply (wp_mono _ (fun _ => selecting V)).
  { unfold when. case_match; [by apply (wp_se_emit _ _ V _ _ Hs) | by apply wp_ret]. }
  clear m Hs. intros [] m Hs. destruct (se_rq _ _ _ _ Hs Hq) as (q' & Hq' & _ & Ecur).
  apply wp_bind, wp_rd. exists q'. split; [done|]. rewrite Ecur.
  destruct (Z.eqb_spec (rq_curr q) (cv_pick v)) as [Eq|Eq].
  - apply (wp_se_set_pick i NULL V v _ _ Hs Hv). intros m' Hs'. apply (Hgo _ _ Hs'), kicks_set; [done|].
    right. split; [done|]. split; [done|]. right. by exists q.
  - apply (wp_se_resched i V _ _ Hs); [by eexists|]. intros m' Hs'. apply (Hgo _ _ Hs'), kicks_refl.
Qed.

(** ** The whole selection *)
Definition unpick (v : cview) : cview := v <| cv_pick := NULL |>.

Lemma repicked_fields P V V' j v : repicked P V V' -> V !! j = Some v ->
  exists v', V' !! j = Some v' /\ unpick v' = unpick v.
Proof. intros HR Hv. destruct (HR j v Hv) as (v' & Hv' & [->|(p & _ & ->)]); eauto. Qed.

Lemma kicks_fields cpu V V' j v : kicks cpu V V' -> V !! j = Some v -> exists v', V' !! j = Some v' /\ unpick v' = unpick v.
Proof. intros HK Hv. destruct (HK j v Hv) as (v' & Hv' & [->|(_ & -> & _)]); eauto. Qed.

Lemma wp_core_reset r core cu V vc (Q : bool * bool -> machine -> Prop) m :
  selecting V m -> V !! core = Some vc -> core ∈ m_cpu_possible b -> r ∈ m_cpu_possible b ->
  (forall x m', selecting (<[core := vc <| cv_cookie := 0 |>]> V) m' -> Q x m') -> wp (core_reset r core cu) Q m.
Proof.
  intros Hs Hc Hcp Hrp HQ. unfold core_reset.
  apply wp_bind, (wp_se_upd core _ (fun v => v <| cv_cookie := 0 |>) V vc _ _ Hs Hc); [done..|]. clear m Hs. intros m Hs.
  set (V1 := <[core := vc <| cv_cookie := 0 |>]> V) in *.
  assert (Hc1 : V1 !! core = Some (vc <| cv_cookie := 0 |>)) by apply lookup_insert_eq.
  apply wp_bind, (wp_se_rd_any core _ V1 _ _ _ Hs Hc1). intros n. destruct (truthy n); [|by apply wp_ret, HQ].
  apply wp_bind. eapply (wp_mono _ (fun _ => selecting V1)).
  { unfold when. case_match; [by apply (wp_se_clock core V1 _ _ Hs Hcp) | by apply wp_ret]. }
  clear m Hs. intros [] m Hs. destruct (se_possible _ _ _ Hs Hrp) as [[q Hq] _]. destruct (se_rq _ _ _ _ Hs Hq) as (q' & Hq' & _).
  apply wp_bind, (wp_se_quiet _ V1 _ _ Hs);
    [apply forceidle_returns; [apply Hs | by eexists] | apply forceidle_frame | apply forceidle_view |].
  clear m Hs q' Hq'. intros [] m Hs.
  apply wp_bind, (wp_se_stat core _ V1 _ _ _ Hs Hc1); [done|]. clear m Hs. intros m Hs.
  apply wp_bind, (wp_se_stat core _ V1 _ _ _ Hs Hc1); [done|]. clear m Hs. intros m Hs.
  apply wp_bind, (wp_se_stat core _ V1 _ _ _ Hs Hc1); [done|]. clear m Hs. intros m Hs. by apply wp_ret, HQ.
Qed.

(** The result of a selection for CPU [cpu]: the cookie [k] of the core, the task
    [next], and what the siblings have. *)
Record selected (cpu core k next : Z) (V V' : gmap Z cview) : Prop := Mk_selected {
  sd_next : good k cpu next;
  sd_core : exists v', V' !! core = Some v' /\ cv_cookie v' = k /\ cv_pick_seq v' = cv_task_seq v';
  sd_siblings j : j ∈ S -> exists v', V' !! j = Some v' /\ (cv_pick v' = NULL \/ good k j (cv_pick v')) /\
    (j <> cpu -> good k j (cv_pick v') \/
       cv_pick v' = NULL /\ exists q, m_rqs b !! j = Some q /\ good k j (rq_curr q));
  sd_others j : j ∉ S -> V' !! j = V !! j;
}.

Lemma elem_of_for_each_cpu_wrap mask n c : c ∈ for_each_cpu_wrap mask n <-> c ∈ mask.
Proof.
  unfold for_each_cpu_wrap. rewrite elem_of_app, !list_elem_of_In, !filter_In, <- !list_elem_of_In, elem_of_for_each_cpu.
  rewrite Z.leb_le, Z.ltb_lt. split; [tauto|]. intros Hc. destruct (Z.le_gt_cases n c); [left | right]; done.
Qed.

(** Views outside the siblings are as before. *)
Lemma repicked_others P V V' j v : (forall i p, P i p -> i ∈ S) -> repicked P V V' -> V !! j = Some v -> j ∉ S ->
  V' !! j = Some v.
Proof. intros HP HR Hv Hj. destruct (HR j v Hv) as (v' & Hv' & [->|(p & Hp & _)]); [done | by apply HP in Hp]. Qed.

Lemma kicks_others cpu V V' j v : kicks cpu V V' -> V !! j = Some v -> j ∉ S -> V' !! j = Some v.
Proof. intros HK Hv Hj. destruct (HK j v Hv) as (v' & Hv' & [->|(Hp & _)]); done. Qed.

Lemma se_dom V V' m' j : vfix <$> V = vfix <$> views b -> selecting V' m' -> V !! j = None -> V' !! j = None.
Proof.
  intros Hs Hs' Hn. assert (E : (vfix <$> V') !! j = (vfix <$> V) !! j) by (by rewrite Hs, (se_shape _ _ Hs')).
  rewrite !lookup_fmap, Hn in E. by destruct (V' !! j).
Qed.

Context (cpu core : Z) (ES : S = cpu_smt_mask cpu b) (Hcpu : cpu ∈ S) (Hcore : core ∈ S) (Hpos : S ⊆ m_cpu_possible b).

(** The cookie is chosen and every sibling has a matching pick. *)
Record chosen (k : Z) (V V' : gmap Z cview) : Prop := Mk_chosen {
  ch_core v : V !! core = Some v -> exists v', V' !! core = Some v' /\ unpick v' = unpick (v <| cv_cookie := k |>);
  ch_picks i : i ∈ S -> exists v, V' !! i = Some v /\ good k i (cv_pick v);
  ch_others j v : j ∉ S -> V !! j = Some v -> V' !! j = Some v;
}.

Lemma wp_core_choose V vc (Q : Z -> machine -> Prop) fi cu m :
  selecting V m -> V !! core = Some vc ->
  (forall occ k V' m', selecting V' m' -> chosen k V V' -> Q occ m') -> wp (core_choose cpu core fi cu S) Q m.
Proof.
  intros Hs Hvc HQ. unfold core_choose. apply wp_bind, (wp_core_picks cpu core fi cu _ NULL V _ _ Hs).
  { intros i Hi%elem_of_for_each_cpu_wrap. split; [by apply Hpos | done]. }
  { by left. }
  clear m Hs. intros max V1 m Hs R1 P1 Hmax.
  destruct Hmax as [tm Htm].
  { left. intros E. assert (Hin : cpu ∈ for_each_cpu_wrap S cpu) by by apply elem_of_for_each_cpu_wrap.
    rewrite E in Hin. by apply elem_of_nil in Hin. }
  destruct (se_task _ _ _ _ Hs Htm) as (tm' & Htm' & _). apply wp_bind, wp_rd. exists tm'. split; [done|].
  set (k := ts_core_cookie tm'). destruct (repicked_fields _ _ _ _ _ R1 Hvc) as (v1 & Hv1 & E1).
  apply wp_bind, (wp_se_upd core _ (fun v => v <| cv_cookie := k |>) V1 v1 _ _ Hs Hv1); [done..|]. clear m Hs Htm'. intros m Hs.
  set (V2 := <[core := v1 <| cv_cookie := k |>]> V1) in *.
  assert (Hv2 : V2 !! core = Some (v1 <| cv_cookie := k |>)) by apply lookup_insert_eq.
  apply (wp_core_matches core k fi _ 0 V2 _ _ Hs); [by eexists | |].
  { intros i Hi%elem_of_for_each_cpu. split; [by apply Hpos|].
    destruct (P1 i) as (w & Hw & Hl); [by apply elem_of_for_each_cpu_wrap|].
    destruct (decide (i = core)) as [->|Hn]; [|exists w; by unfold V2; rewrite lookup_insert_ne by done].
    rewrite Hv2. eexists. split; [done|]. assert (w = v1) as -> by congruence. exact Hl. }
  clear m Hs. intros occ V3 m Hs R3 P3. apply (HQ occ k V3 m Hs). split.
  - intros v Hv. assert (v = vc) as -> by congruence. destruct (repicked_fields _ _ _ _ _ R3 Hv2) as (v3 & Hv3 & E3).
    exists v3. split; [done|]. rewrite E3. exact (f_equal (fun x => x <| cv_cookie := k |>) E1).
  - intros i Hi. apply P3. by apply elem_of_for_each_cpu.
  - intros j v Hj Hv. eapply (repicked_others (good k)); [by intros i p [[? _] _] | exact R3 | | done].
    unfold V2. rewrite lookup_insert_ne by (intros <-; done).
    by eapply (repicked_others local); [intros i p [? _] | exact R1 | |].
Qed.

(** The selection is marked as made. *)
Record marked (k : Z) (V V' : gmap Z cview) : Prop := Mk_marked {
  mk_core : exists v', V' !! core = Some v' /\ cv_cookie v' = k /\ cv_pick_seq v' = cv_task_seq v';
  mk_picks i : i ∈ S -> exists v, V' !! i = Some v /\ good k i (cv_pick v);
  mk_others j v : j ∉ S -> V !! j = Some v -> V' !! j = Some v;
}.

Lemma marked_seq k V V' v : chosen k V V' -> V' !! core = Some v -> is_Some (V !! core) ->
  marked k V (<[core := v <| cv_pick_seq := cv_task_seq v |>]> V').
Proof.
  intros [C1 C2 C3] Hv [v0 Hv0]. split.
  - rewrite lookup_insert_eq. eexists. split; [done|]. split; [|done].
    destruct (C1 _ Hv0) as (v' & Hv' & E). assert (v' = v) as -> by congruence. exact (f_equal cv_cookie E).
  - intros i Hi. destruct (C2 i Hi) as (w & Hw & Hg).
    destruct (decide (i = core)) as [->|Hn]; [|exists w; by rewrite lookup_insert_ne by done].
    rewrite lookup_insert_eq. eexists. split; [done|]. assert (w = v) as -> by congruence. exact Hg.
  - intros j w Hj Hw. rewrite lookup_insert_ne by (intros <-; done). by apply C3.
Qed.

Lemma marked_sched k V V' v n : marked k V V' -> V' !! cpu = Some v ->
  marked k V (<[cpu := v <| cv_sched_seq := n |>]> V').
Proof.
  intros [(vc & Hvc & E1 & E2) C2 C3] Hv. split.
  - destruct (decide (core = cpu)) as [Ec|Hn].
    + rewrite Ec, lookup_insert_eq in *. eexists. split; [done|]. assert (v = vc) as -> by congruence. done.
    + rewrite lookup_insert_ne by done. by exists vc.
  - intros i Hi. destruct (C2 i Hi) as (w & Hw & Hg).
    destruct (decide (i = cpu)) as [->|Hn]; [|exists w; by rewrite lookup_insert_ne by done].
    rewrite lookup_insert_eq. eexists. split; [done|]. assert (w = v) as -> by congruence. exact Hg.
  - intros j w Hj Hw. rewrite lookup_insert_ne by (intros <-; done). by apply C3.
Qed.

Lemma kicks_selected k next V V5 V6 m :
  vfix <$> V = vfix <$> views b -> selecting V6 m -> marked k V V5 -> kicks cpu V5 V6 -> good k cpu next ->
  selected cpu core k next V V6.
Proof.
  intros Hsh Hs [(vc & Hvc & E1 & E2) C2 C3] HK Hn. split; [done | | |].
  - destruct (kicks_fields _ _ _ _ _ HK Hvc) as (v' & Hv' & E). exists v'. split; [done|].
    pose proof (f_equal cv_cookie E). pose proof (f_equal cv_pick_seq E). pose proof (f_equal cv_task_seq E). cbn in *. split; congruence.
  - intros j Hj. destruct (C2 j Hj) as (w & Hw & Hg). destruct (HK _ _ Hw) as (w' & Hw' & Hk). exists w'. split; [done|].
    destruct Hk as [->|(_ & -> & Hk)]; [split; [by right | by left]|]. split; [by left|]. intros Hne. right. split; [done|].
    destruct Hk as [?|(q & Hq & Eq)]; [done|]. exists q. by rewrite Eq.
  - intros j Hj. destruct (V !! j) as [v|] eqn:Ev; [|by eapply se_dom].
    eapply kicks_others; [exact HK | by apply C3 | done].
Qed.

Lemma wp_core_select V vc (Q : Z -> machine -> Prop) fi cu m :
  selecting V m -> V !! core = Some vc ->
  (forall next k V' m', selecting V' m' -> selected cpu core k next V V' -> Q next m') ->
  wp (core_select cpu cpu core fi cu) Q m.
Proof.
  intros Hs Hvc HQ. unfold core_select. apply wp_bind, wp_gets.
  assert (cpu_smt_mask cpu m = S) as ->.
  { rewrite ES. apply smt_mask_stable. pose proof (se_frame _ _ Hs) as (_ & _ & Eg). unfold globals in Eg. congruence. }
  pose proof (se_shape _ _ Hs) as Hshape.
  apply wp_bind, (wp_core_choose V vc _ _ _ _ Hs Hvc). clear m Hs. intros occ k V3 m Hs Hch.
  destruct (ch_core _ _ _ Hch _ Hvc) as (v3 & Hv3 & _).
  apply wp_bind, (wp_se_rd_any core _ V3 v3 _ _ Hs Hv3). intros fc. apply wp_bind.
  eapply (wp_mono _ (fun _ => selecting V3)).
  { unfold when. case_match; [|by apply wp_ret]. destruct (se_possible _ _ _ Hs (Hpos _ Hcore)) as [[q Hq] _].
    destruct (se_rq _ _ _ _ Hs Hq) as (q' & Hq' & _). apply wp_bind, wp_rd. exists q'. split; [done|].
    apply wp_bind, (wp_se_stat core _ V3 v3 _ _ Hs Hv3); [done|]. intros m' Hs'.
    by apply (wp_se_stat core _ V3 v3 _ _ Hs' Hv3). }
  clear m Hs. intros [] m Hs.
  apply wp_bind, (wp_se_rd core _ cv_task_seq V3 v3 _ _ (fun _ => eq_refl) Hs Hv3).
  apply wp_bind, (wp_se_upd core _ (fun v => v <| cv_pick_seq := cv_task_seq v3 |>) V3 v3 _ _ Hs Hv3); [done..|].
  clear m Hs. intros m Hs. set (V4 := <[core := v3 <| cv_pick_seq := cv_task_seq v3 |>]> V3) in *.
  pose proof (marked_seq _ _ _ _ Hch Hv3 (ex_intro _ vc Hvc)) as Hmk. destruct (mk_picks _ _ _ Hmk cpu Hcpu) as (vr & Hvr & Hgr). set (next := cv_pick vr) in *.
  apply wp_bind, (wp_se_rd cpu _ cv_pick V4 vr _ _ (fun _ => eq_refl) Hs Hvr). fold next.
  apply wp_bind, (wp_se_upd cpu _ (fun v => v <| cv_sched_seq := cv_task_seq v3 |>) V4 vr _ _ Hs Hvr); [done..|].
  clear m Hs. intros m Hs. set (V5 := <[cpu := vr <| cv_sched_seq := cv_task_seq v3 |>]> V4) in *.
  apply wp_bind. eapply (wp_mono _ (fun _ => selecting V5)).
  { unfold when. case_match; [by apply (wp_se_emit _ _ V5 _ _ Hs) | by apply wp_ret]. }
  clear m Hs. intros [] m Hs. apply (marked_sched _ _ _ vr (cv_task_seq v3)) in Hmk as Hm5; [|done]. fold V5 in Hm5.
  destruct (Hgr) as [[_ (tn & Htn & _)] _]. destruct (mk_core _ _ _ Hm5) as (v5 & Hv5 & _).
  apply wp_bind, (wp_core_kicks cpu core next tn fi occ _ V5 _ _ Hs); [by eexists | done | |].
  { intros i Hi%elem_of_for_each_cpu. split; [by apply Hpos|]. split; [done|].
    destruct (mk_picks _ _ _ Hm5 i Hi) as (w & Hw & [[_ (tw & Htw & _)] _]). exists w. split; [done|]. right. by eexists. }
  clear m Hs. intros V6 m Hs HK. apply wp_ret, (HQ next k V6 m Hs). by eapply kicks_selected.
Qed.

(** ** Well-formedness after the selection *)
Lemma se_vfix V m i v : selecting V m -> V !! i = Some v -> exists w, views b !! i = Some w /\ vfix w = vfix v.
Proof.
  intros Hs Hv. assert (E : (vfix <$> views b) !! i = Some (vfix v)) by (by rewrite <- (se_shape _ _ Hs), lookup_fmap, Hv).
  rewrite lookup_fmap in E. destruct (views b !! i) as [w|]; [|done]. exists w. cbn in E. split; congruence.
Qed.

Lemma se_smt V m i : selecting V m -> m_cpu_online m = m_cpu_online b /\ cpu_smt_mask i m = cpu_smt_mask i b.
Proof.
  intros Hs. pose proof (se_frame _ _ Hs) as (_ & _ & Eg).
  assert (E : m_cpu_online m = m_cpu_online b) by (unfold globals in Eg; congruence). split; [done | by apply smt_mask_stable].
Qed.

Lemma selecting_wf V m : selecting V m -> core_wf m.
Proof.
  intros Hs. assert (Ep : m_cpu_possible m = m_cpu_possible b) by (pose proof (se_view _ _ Hs) as E; unfold smt_view in E; congruence).
  split; rewrite ?Ep, ?(se_views _ _ Hs).
  - intros i Hi. destruct (se_possible _ _ _ Hs Hi) as [[q Hq] [v Hv]]. destruct (se_rq _ _ _ _ Hs Hq) as (q' & Hq' & _).
    split; by eexists.
  - intros i v Hv. destruct (se_vfix _ _ _ _ Hs Hv) as (w & Hw & E). injection E as <- _ _. by apply (cw_dom _ Hwf i w).
  - intros i v l Hv Hl. destruct (se_vfix _ _ _ _ Hs Hv) as (w & Hw & E). destruct (se_vfix _ _ _ _ Hs Hl) as (wl & Hwl & El).
    injection E as E _ _. injection El as El _ _. rewrite <- E in *. rewrite <- El. by apply (cw_lead _ Hwf i w).
  - intros i v p Hv Hp. destruct (se_vfix _ _ _ _ Hs Hv) as (w & Hw & E). injection E as _ _ E. rewrite <- E in Hp.
    eapply se_task_on; [done | by eapply cw_tree].
  - intros i. destruct (se_smt _ _ i Hs) as [-> ->]. apply (cw_smt _ Hwf).
  - intros i v j w. destruct (se_smt _ _ i Hs) as [-> ->]. intros Hi Hv Hw.
    destruct (se_vfix _ _ _ _ Hs Hv) as (v0 & Hv0 & E). destruct (se_vfix _ _ _ _ Hs Hw) as (w0 & Hw0 & Ew).
    injection E as <- _ _. injection Ew as <- _ _. by apply (cw_core _ Hwf i v0 j w0).
Qed.

(** Pending picks, seen from the machine the selection started from. *)
Definition picks_in (V : gmap Z cview) : Prop :=
  forall i v l, V !! i = Some v -> V !! cv_core v = Some l -> cv_pick_seq l = cv_task_seq l -> cv_pick v <> NULL ->
    task_on b i (cv_pick v) /\ matches b (cv_pick v) (cv_cookie l).

Lemma picks_in_ok V m : selecting V m -> picks_in V -> picks_ok m.
Proof.
  intros Hs Hp i v l Hv Hl Es Hn. rewrite (se_views _ _ Hs) in *. destruct (Hp i v l Hv Hl Es Hn) as [H1 H2].
  split; [by eapply se_task_on | by eapply se_matches].
Qed.

(** The siblings are the CPUs with the same leader. *)
Context (v0 : cview) (Honl : cpu ∈ m_cpu_online b) (Hv0 : views b !! cpu = Some v0) (Ecore : cv_core v0 = core).
Context (Hpicks : picks_ok b).

Lemma sibling V m j v : selecting V m -> V !! j = Some v -> cv_core v = core <-> j ∈ S.
Proof.
  intros Hs Hv. destruct (se_vfix _ _ _ _ Hs Hv) as (w & Hw & E). injection E as <- _ _.
  rewrite ES, <- Ecore. by apply (cw_core _ Hwf cpu v0 j w).
Qed.

Lemma stranger V m j v l : selecting V m -> V !! j = Some v -> V !! cv_core v = Some l -> j ∉ S -> cv_core v ∉ S.
Proof.
  intros Hs Hv Hl Hj Hin. apply (sibling _ _ _ _ Hs Hl) in Hin. apply Hj, (sibling _ _ _ _ Hs Hv).
  pose proof (cw_lead _ (selecting_wf _ _ Hs) j v l) as E. rewrite (se_views _ _ Hs) in E. by rewrite <- E.
Qed.

(** Picks of other cores are those of before. *)
Lemma picks_outside V m i v l : selecting V m -> (forall j, j ∉ S -> V !! j = views b !! j) -> i ∉ S ->
  V !! i = Some v -> V !! cv_core v = Some l -> cv_pick_seq l = cv_task_seq l -> cv_pick v <> NULL ->
  task_on b i (cv_pick v) /\ matches b (cv_pick v) (cv_cookie l).
Proof.
  intros Hs Ho Hi Hv Hl. pose proof (stranger _ _ _ _ _ Hs Hv Hl Hi) as Hc. rewrite Ho in Hv, Hl by done. by apply Hpicks.
Qed.

Lemma selected_picks V V' m k next : selecting V' m -> (forall j, j ∉ S -> V !! j = views b !! j) ->
  selected cpu core k next V V' -> picks_in V'.
Proof.
  intros Hs Ho Hd i v l Hv Hl Es Hn. destruct (decide (i ∈ S)) as [Hi|Hi].
  - assert (cv_core v = core) as E by by apply (sibling _ _ _ _ Hs Hv).
    destruct (sd_core _ _ _ _ _ _ Hd) as (l' & Hl' & Ek & _). assert (l' = l) as -> by congruence.
    destruct (sd_siblings _ _ _ _ _ _ Hd i Hi) as (v' & Hv' & Hp & _). assert (v' = v) as -> by congruence.
    rewrite Ek. destruct Hp as [?|[[_ Hon] Hm]]; done.
  - eapply picks_outside; eauto. intros j Hj. rewrite (sd_others _ _ _ _ _ _ Hd j Hj). by apply Ho.
Qed.

(** ** The tail of the function *)
Lemma wp_se_set_next p V (Q : unit -> machine -> Prop) m :
  selecting V m -> task_on b cpu p -> (forall m', selecting V m' -> Q tt m') -> wp (set_next_task cpu p) Q m.
Proof.
  intros Hs Hp HQ. assert (Hl : live m cpu p).
  { apply task_on_live; [apply Hs | by eapply se_task_on]. }
  apply (wp_se_quiet _ V _ _ Hs); [|unfold set_next_task; framed | auto with preserve | intros []; apply HQ].
  apply wp_set_next_task; [apply Hs | done | done].
Qed.

Lemma wp_se_put_prev p V (Q : unit -> machine -> Prop) m :
  selecting V m -> live b cpu p -> (forall m', selecting V m' -> Q tt m') -> wp (put_prev_task cpu p) Q m.
Proof.
  intros Hs Hp HQ. assert (Hl : live m cpu p) by (eapply live_frame; [apply (se_frame _ _ Hs) | done]).
  apply (wp_se_quiet _ V _ _ Hs); [|unfold put_prev_task; framed | auto with preserve | intros []; apply HQ].
  apply wp_put_prev_task; [apply Hs | done | done].
Qed.

Lemma wp_core_out next V (Q : Z -> machine -> Prop) m :
  selecting V m -> (forall m', selecting V m' -> Q next m') -> wp (core_out cpu core next) Q m.
Proof.
  intros Hs HQ. unfold core_out. destruct (se_possible _ _ _ Hs (Hpos _ Hcpu)) as [[q Hq] [v Hv]].
  destruct (se_possible _ _ _ Hs (Hpos _ Hcore)) as [_ [l Hl]]. destruct (se_rq _ _ _ _ Hs Hq) as (q' & Hq' & _).
  apply wp_bind, (wp_se_rd_any core _ V l _ _ Hs Hl). intros fi.
  apply wp_bind, wp_rd. exists q'. split; [done|]. apply wp_bind. unfold when. case_match; [|by apply wp_ret, wp_ret, HQ].
  unfold queue_core_balance. apply wp_bind. unfold sched_core_enabled. apply wp_bind, wp_gets, wp_bind.
  apply (wp_se_rd_any cpu _ V v _ _ Hs Hv). intros e. apply wp_ret.
  destruct (negb _); [by apply wp_ret, wp_ret, HQ|].
  apply wp_bind, (wp_se_rd cpu _ cv_core V v _ _ (fun _ => eq_refl) Hs Hv).
  assert (cv_core v = core) as -> by by apply (sibling _ _ _ _ Hs Hv).
  apply wp_bind, (wp_se_rd_any core _ V l _ _ Hs Hl). intros k. destruct (negb (truthy k)); [by apply wp_ret, wp_ret, HQ|].
  apply wp_bind, wp_rd. exists q'. split; [done|]. destruct (negb _); [by apply wp_ret, wp_ret, HQ|].
  apply (wp_se_quiet _ V _ _ Hs); [apply queue_cb_returns; [apply Hs | by eexists] | apply queue_cb_frame | apply queue_cb_view|].
  intros [] m' Hs'. by apply wp_ret, HQ.
Qed.


(** ** The two paths *)
Lemma selected_picked V V' m k next k0 : selecting V' m -> (forall j, j ∉ S -> V !! j = views b !! j) ->
  selected cpu core k next V V' -> exists l, views m !! core = Some l /\ pick_outcome cpu core k0 next m l.
Proof.
  intros Hs Ho Hd. destruct (sd_core _ _ _ _ _ _ Hd) as (l & Hl & <- & _). exists l. rewrite (se_views _ _ Hs). split; [done|].
  destruct (sd_next _ _ _ _ _ _ Hd) as [[_ Hon] Hm]. split.
  - apply Hs.
  - by eapply selecting_wf.
  - split; [by eapply se_task_on | by eapply se_matches].
  - left. split; [eapply picks_in_ok, selected_picks; eauto|]. right. intros j Hj Hn.
    destruct (se_smt _ _ cpu Hs) as [_ E]. rewrite E, <- ES in Hj.
    destruct (sd_siblings _ _ _ _ _ _ Hd j Hj) as (v & Hv & _ & Hp). exists v. rewrite (se_views _ _ Hs). split; [done|].
    destruct (Hp Hn) as [[[_ Hj1] Hj2]|(En & q & Hq & _ & Hc)].
    + left. split; [|split; [by eapply se_task_on | by eapply se_matches]].
      destruct Hj1 as (t & Ht & _). intros En. by rewrite En, (ok_null _ Hok) in Ht.
    + right. split; [done|]. destruct (se_rq _ _ _ _ Hs Hq) as (q' & Hq' & _ & Ec). exists q'. split; [done|].
      rewrite Ec. by eapply se_matches.
Qed.

(** A pick that is still valid is used as it is. *)
Lemma wp_core_fast prev l (Q : Z -> machine -> Prop) n :
  views b !! core = Some l -> cv_pick_seq l = cv_task_seq l -> cv_pick v0 <> NULL -> live b cpu prev ->
  (forall l' m', views m' !! core = Some l' -> pick_outcome cpu core (cv_cookie l) (cv_pick v0) m' l' -> Q (cv_pick v0) m') ->
  wp (set! cpu ⇝ cr_sched_seq := n ;;
      when (negb (cv_pick v0 =? prev)) (put_prev_task cpu prev ;; set_next_task cpu (cv_pick v0)) ;;
      set! cpu ⇝ cr_pick := NULL ;;
      core_out cpu core (cv_pick v0)) Q b.
Proof.
  intros Hl Eseq Hn Hlive HQ. pose proof (selecting_start Hok) as Hs.
  destruct (Hpicks cpu v0 l Hv0) as [Hon Hm]; [by rewrite Ecore | done | done |].
  apply wp_bind, (wp_se_upd cpu _ (fun v => v <| cv_sched_seq := n |>) _ v0 _ _ Hs Hv0); [done..|].
  clear Hs. intros m Hs. set (V1 := <[cpu := v0 <| cv_sched_seq := n |>]> (views b)) in *.
  apply wp_bind. eapply (wp_mono _ (fun _ => selecting V1)).
  { unfold when. case_match; [|by apply wp_ret]. apply wp_bind, (wp_se_put_prev prev V1 _ _ Hs Hlive).
    intros m' Hs'. by apply (wp_se_set_next _ V1 _ _ Hs' Hon). }
  clear m Hs. intros [] m Hs. apply wp_bind, (wp_se_set_pick cpu NULL V1 (v0 <| cv_sched_seq := n |>) _ _ Hs); [apply lookup_insert_eq|].
  clear m Hs. unfold V1. rewrite insert_insert_eq. set (w := v0 <| cv_sched_seq := n |> <| cv_pick := NULL |>). intros m Hs.
  apply (wp_core_out _ _ _ _ Hs). clear m Hs. intros m Hs. clear V1.
  assert (Hsame : forall j v, <[cpu := w]> (views b) !! j = Some v -> exists v', views b !! j = Some v' /\
    cv_core v = cv_core v' /\ cv_pick_seq v = cv_pick_seq v' /\ cv_task_seq v = cv_task_seq v' /\ cv_cookie v = cv_cookie v' /\
    (cv_pick v <> NULL -> cv_pick v = cv_pick v')).
  { intros j v Hj. destruct (decide (j = cpu)) as [->|Hne].
    - rewrite lookup_insert_eq in Hj. injection Hj as <-. by exists v0.
    - rewrite lookup_insert_ne in Hj by done. by exists v. }
  destruct (se_possible _ _ _ Hs (Hpos _ Hcore)) as [_ [l' Hl']].
  destruct (Hsame _ _ Hl') as (l0 & Hl0 & _ & E1 & E2 & E3 & _). assert (l0 = l) as -> by congruence.
  apply (HQ l' m); [by rewrite (se_views _ _ Hs)|]. split.
  - apply Hs.
  - by eapply selecting_wf.
  - rewrite E3. split; [by eapply se_task_on | by eapply se_matches].
  - left. split; [|by left]. eapply picks_in_ok; [done|]. intros i v lv Hv Hlv Es Hp.
    destruct (Hsame _ _ Hv) as (v' & Hv' & F1 & _ & _ & _ & F5). destruct (Hsame _ _ Hlv) as (lv' & Hlv' & _ & G2 & G3 & G4 & _).
    rewrite F5, G4 by done. apply (Hpicks i v' lv' Hv'); [by rewrite <- F1 | congruence | by rewrite <- F5].
Qed.


(** The quick pick of an untagged task when the core is untagged. *)
Lemma quick_picked next tn m V2 l2 w : selecting (<[cpu := w <| cv_pick := NULL |>]> V2) m ->
  (forall j, j ∉ S -> V2 !! j = views b !! j) -> V2 !! core = Some l2 -> V2 !! cpu = Some w -> cv_cookie l2 = 0 ->
  task_on b cpu next -> m_tasks b !! next = Some tn -> ts_core_cookie tn = 0 ->
  exists l', views m !! core = Some l' /\ pick_outcome cpu core 0 next m l'.
Proof.
  intros Hs Ho Hl Hw Ek Hon Ht Htk. set (V := <[cpu := _]> V2) in *. rewrite (se_views _ _ Hs).
  assert (Hl' : exists l', V !! core = Some l' /\ cv_cookie l' = 0).
  { unfold V. destruct (decide (core = cpu)) as [E|Hne].
    - rewrite E, lookup_insert_eq in *. eexists. split; [done|]. assert (w = l2) as -> by congruence. done.
    - rewrite lookup_insert_ne by done. by exists l2. }
  destruct Hl' as (l' & Hl' & Ek'). exists l'. split; [done|]. split.
  - apply Hs.
  - by eapply selecting_wf.
  - split; [by eapply se_task_on|]. eapply se_matches; [done|]. exists tn. split; [done|]. right. congruence.
  - destruct (decide (cv_pick_seq l' = cv_task_seq l')) as [Es|Es]; [by right|]. left. split; [|by left].
    eapply picks_in_ok; [done|]. intros i v lv Hv Hlv Esv Hn. destruct (decide (i ∈ S)) as [Hi|Hi].
    + assert (cv_core v = core) as E by by apply (sibling _ _ _ _ Hs Hv). assert (lv = l') as -> by congruence. done.
    + eapply picks_outside; eauto. intros j Hj. unfold V. rewrite lookup_insert_ne by (intros <-; done). by apply Ho.
Qed.

Lemma wp_core_slow l (Q : Z -> machine -> Prop) m :
  views b !! core = Some l -> selecting (views b) m ->
  (forall next l' m', views m' !! core = Some l' -> pick_outcome cpu core (cv_cookie l) next m' l' -> Q next m') ->
  wp (c ← deref (R := core_rq) core;
      let need_sync := truthy (cr_cookie c) in
      b ← core_reset cpu core (cpu =? core);
      let '(fi_before, core_clock_updated) := b in
      bump_task_seq cpu ;;
      quick ← (if (need_sync || fi_before)%bool then mret NULL
               else
                 next ← pick_task cpu;
                 k ← next ⇝ ts_core_cookie;
                 mret (if truthy k then NULL else next));
      next ← (if negb (quick =? NULL) then
                set! cpu ⇝ cr_pick := NULL ;;
                task_vruntime_update cpu quick false ;;
                mret quick
              else core_select cpu cpu core fi_before core_clock_updated);
      set_next_task cpu next ;;
      core_out cpu core next) Q m.
Proof.
  intros Hl Hs HQ. apply wp_bind, (wp_se_core core _ l _ _ Hs Hl). intros c Ec. cbv zeta.
  assert (cr_cookie c = cv_cookie l) as -> by by rewrite <- Ec. clear c Ec.
  apply wp_bind, (wp_core_reset cpu core _ _ l _ _ Hs Hl); [by apply Hpos | by apply Hpos |]. clear m Hs.
  intros [fi cu] m Hs. set (V1 := <[core := l <| cv_cookie := 0 |>]> (views b)) in *.
  destruct (se_possible _ _ _ Hs (Hpos _ Hcpu)) as [_ [w1 Hw1]].
  apply wp_bind. unfold bump_task_seq. apply wp_bind, (wp_se_rd cpu _ cv_core V1 w1 _ _ (fun _ => eq_refl) Hs Hw1).
  assert (cv_core w1 = core) as -> by by apply (sibling _ _ _ _ Hs Hw1).
  apply (wp_se_upd core _ (fun v => v <| cv_task_seq := u32 (cv_task_seq v + 1) |>) V1 (l <| cv_cookie := 0 |>) _ _ Hs);
    [apply lookup_insert_eq | done | done |].
  clear m Hs w1 Hw1. unfold V1. rewrite insert_insert_eq. clear V1. intros m Hs.
  set (l2 := _ : cview) in Hs. set (V2 := <[core := l2]> (views b)) in *.
  assert (Ho : forall j, j ∉ S -> V2 !! j = views b !! j) by (intros j Hj; apply lookup_insert_ne; by intros <-).
  assert (Hl2 : V2 !! core = Some l2) by apply lookup_insert_eq.
  destruct (se_possible _ _ _ Hs (Hpos _ Hcpu)) as [_ [w Hw]].
  assert (Hslow : forall m, selecting V2 m ->
    wp (next ← core_select cpu cpu core fi cu; set_next_task cpu next ;; core_out cpu core next) Q m).
  { clear m Hs. intros m Hs. apply wp_bind, (wp_core_select V2 l2 _ _ _ _ Hs Hl2). clear m Hs. intros next k V' m Hs Hd.
    destruct (sd_next _ _ _ _ _ _ Hd) as [[_ Hon] _]. apply wp_bind, (wp_se_set_next _ _ _ _ Hs Hon).
    clear m Hs. intros m Hs. apply (wp_core_out _ _ _ _ Hs). clear m Hs. intros m Hs.
    destruct (selected_picked V2 V' m k next (cv_cookie l) Hs Ho Hd) as (l' & Hl' & Hoc). by eapply HQ. }
  apply wp_bind. destruct (truthy (cv_cookie l) || fi)%bool eqn:Esync.
  { apply wp_ret. rewrite Z.eqb_refl. cbn [negb]. by apply Hslow. }
  apply wp_bind, (wp_pick_task cpu V2 _ _ Hs (Hpos _ Hcpu)). clear m Hs. intros p m Hs Hon Hn. destruct (Hon) as (t & Ht & _).
  destruct (se_task _ _ _ _ Hs Ht) as (t' & Ht' & _ & Ek & _). apply wp_bind, wp_rd. exists t'. split; [done|]. apply wp_ret.
  rewrite Ek. unfold truthy in *. destruct (Z.eqb_spec (ts_core_cookie t) 0) as [Etk|Etk]; cbn [negb];
    [|rewrite Z.eqb_refl; cbn [negb]; by apply Hslow].
  apply Z.eqb_neq in Hn as Hn'. rewrite Hn'. cbn [negb].
  apply wp_bind, wp_bind, (wp_se_set_pick cpu NULL V2 w _ _ Hs Hw). clear m Hs t' Ht' Ek. intros m Hs.
  apply wp_bind, (wp_se_vruntime _ _ _ _ _ _ Hs); [by apply task_on_live|]. clear m Hs. intros m Hs. apply wp_ret.
  apply wp_bind, (wp_se_set_next _ _ _ _ Hs Hon). clear m Hs. intros m Hs. apply (wp_core_out _ _ _ _ Hs). clear m Hs. intros m Hs.
  assert (cv_cookie l = 0) as E0 by lia. rewrite E0 in HQ.
  destruct (quick_picked p t m V2 l2 w Hs Ho Hl2 Hw eq_refl Hon Ht Etk) as (l' & Hl' & Hoc). by eapply HQ.
Qed.

End Steps.
