(* ===== verification/CorePick.v ===== *)
(** Safety of core scheduling: what pick_next_task() of CONFIG_SCHED_CORE
    promises about the task it returns and about the siblings of its CPU. *)
From S2P Require Import Prelude Headers Proc Kernel Extern RqClock Uclamp Prio SchedOK.
From S2P Require Import Affinity AffinityProofs Migrate MigrateProofs.
From S2P Require Import Wakeup WakeProofs Schedule ScheduleProofs CoreSched CoreSchedProofs.

Section Pick.
Context {H : Headers} {X : Extern} {Mg : MigrateExtern} {CX : CoreExtern}.
Context {HOK : HeadersOK H} {XOK : ExternOK X} {XS : ExternSafe X} {COK : CoreExternOK CX} {TOK : TopologyOK CX}.

(** Balancing may move tasks, but not the cores and their cookies. *)
Lemma wp_balance_core r prev classes m (Q : unit -> machine -> Prop) :
  kernel_ok m -> live m r prev -> core_ok m ->
  (forall m', kernel_ok m' -> core_ok m' -> class_frame m m' -> cookies m = cookies m' -> Q tt m') ->
  wp (balance_pass r prev classes) Q m.
Proof.
  revert m. induction classes as [|c cs IH]; intros m Hok Hl Hc HQ; cbn; [by apply wp_ret, HQ|].
  apply wp_bind. eapply wp_mono; [by apply balance_core|]. intros b m1 (Hok1 & Hc1 & F1 & E1). destruct b; [by apply wp_ret, HQ|].
  apply IH; [done | by eapply live_frame | done |]. intros m2 Hok2 Hc2 F2 E2. apply HQ; [done | done | by etrans | by etrans].
Qed.

Lemma cookies_view m m' i v : cookies m = cookies m' -> views m !! i = Some v ->
  exists v', views m' !! i = Some v' /\ cv_core v' = cv_core v /\ cv_enabled v' = cv_enabled v /\ cv_cookie v' = cv_cookie v.
Proof.
  unfold cookies. intros E Hv. injection E as _ _ E. apply (f_equal (.!! i)) in E. rewrite !lookup_fmap, Hv in E.
  destruct (views m' !! i) as [v'|]; [|done]. exists v'. cbn in E. injection E as -> -> ->. done.
Qed.

(** The siblings of an online CPU. *)
Lemma core_siblings m r v : core_wf m -> r ∈ m_cpu_online m -> views m !! r = Some v ->
  r ∈ cpu_smt_mask r m /\ cv_core v ∈ cpu_smt_mask r m /\ cpu_smt_mask r m ⊆ m_cpu_possible m /\ is_Some (views m !! cv_core v).
Proof.
  intros Hwf Hr Hv. destruct (cw_smt _ Hwf r Hr) as [Hp Hin].
  destruct (cw_rq _ Hwf (cv_core v)) as [_ [l Hl]]; [by eapply cw_dom|].
  split_and!; [done | | done | by eexists]. apply (cw_core _ Hwf r v (cv_core v) l Hr Hv Hl). by apply (cw_lead _ Hwf r v l).
Qed.

Lemma wp_rd_view {E} i (f : core_rq -> E) (g : cview -> E) v (Q : E -> machine -> Prop) m :
  (forall c, f c = g (view_of c)) -> views m !! i = Some v -> Q (g v) m -> wp (i ⇝ f) Q m.
Proof.
  intros Hf Hv HQ. unfold views in Hv. rewrite lookup_fmap in Hv. destruct (sm_rqs (m_smt m) !! i) as [c|] eqn:Ec; [|done].
  cbn in Hv. injection Hv as <-. apply wp_rd. exists c. split; [exact Ec|]. by rewrite Hf.
Qed.

Lemma wp_deref_view i v (Q : core_rq -> machine -> Prop) m :
  views m !! i = Some v -> (forall c, view_of c = v -> Q c m) -> wp (deref (R := core_rq) i) Q m.
Proof.
  intros Hv HQ. unfold views in Hv. rewrite lookup_fmap in Hv. destruct (sm_rqs (m_smt m) !! i) as [c|] eqn:Ec; [|done].
  cbn in Hv. injection Hv as Hv. apply wp_deref. exists c. split; [exact Ec | by apply HQ].
Qed.

(** C10: When core scheduling is enabled on an online CPU r, pick_next_task() of
    core.c returns, and the task it returns is a task of r whose cookie is the
    cookie of the core (or the idle task). If the cookie of the core is not the
    one it had on entry, then every other sibling has a matching task picked for
    it, or already runs a matching one and has nothing picked. The structure of
    the cores and the validity of every pending pick are preserved. The only
    exception is a quick pick of an untagged task at the moment the 32-bit
    task sequence has come round to the sequence of the last selection. *)
Theorem core_pick_next_task_matches r prev m v l :
  kernel_ok m -> core_ok m -> live m r prev -> r ∈ m_cpu_online m ->
  views m !! r = Some v -> views m !! cv_core v = Some l -> (sm_core_on (m_smt m) && cv_enabled v)%bool = true ->
  wp (core_pick_next_task r prev) (fun next m' =>
    exists l', views m' !! cv_core v = Some l' /\ pick_outcome r (cv_core v) (cv_cookie l) next m' l') m.
Proof.
  intros Hok Hc Hlive Hr Hv Hl Hon. destruct (Hc) as [Hwf Hpk]. unfold core_pick_next_task.
  apply wp_bind, (wp_rd_view r _ cv_core v _ _ (fun _ => eq_refl) Hv), wp_bind. unfold sched_core_enabled.
  apply wp_bind, wp_gets, wp_bind, (wp_rd_view r _ cv_enabled v _ _ (fun _ => eq_refl) Hv), wp_ret. rewrite Hon. clear Hon. cbn [negb].
  destruct (Hlive) as [[q Hq] [tp Htp]]. destruct (ok_rqs _ Hok r q Hq) as (Ecpu & _).
  apply wp_bind, wp_rd. exists q. split; [done|]. rewrite Ecpu. apply wp_bind, wp_gets.
  rewrite bool_decide_true by done. cbn [negb].
  apply wp_bind, (wp_deref_view _ _ _ _ Hl). intros c Ec. apply wp_bind, (wp_deref_view _ _ _ _ Hv). intros cq Eq.
  destruct (core_siblings m r v Hwf Hr Hv) as (S1 & S2 & S3 & _).
  destruct (_ && _)%bool eqn:Efast.
  - assert (cr_pick cq = cv_pick v) as E3 by by rewrite <- Eq. rewrite E3 in *. assert (cr_pick_seq c = cv_pick_seq l) as E1 by by rewrite <- Ec.
    assert (cr_task_seq c = cv_task_seq l) as E2 by by rewrite <- Ec.
    rewrite !andb_true_iff, !negb_true_iff, Z.eqb_eq, !Z.eqb_neq, E1, E2 in Efast. destruct Efast as ((Es & _) & Hn). cbv zeta.
    eapply (wp_core_fast m Hok Hwf _ r (cv_core v) eq_refl S1 S2 S3 v); [done | done | done | done | exact Hl | done | done | done |].
    intros l' m' Hl' Hoc. by exists l'.
  - clear c Ec cq Eq Efast. unfold put_prev_task_balance. apply wp_bind, wp_bind, wp_rd. exists tp. split; [done|].
    apply wp_bind, wp_balance_core; [done..|]. intros b Hokb [Hwfb Hpb] F Ecs.
    destruct (cookies_view _ _ _ _ Ecs Hv) as (vb & Hvb & Evb & _). destruct (cookies_view _ _ _ _ Ecs Hl) as (lb & Hlb & _ & _ & Elb).
    assert (Hrb : r ∈ m_cpu_online b) by (destruct F as (_ & _ & Eg); unfold globals in Eg; congruence).
    destruct (core_siblings b r vb Hwfb Hrb Hvb) as (B1 & B2 & B3 & _). rewrite Evb in B2.
    apply (wp_se_put_prev b r prev _ _ _ (selecting_start b Hokb)).
    { by eapply live_frame. }
    intros m1 Hs1. rewrite <- Elb.
    eapply (wp_core_slow b Hokb Hwfb _ r (cv_core v) eq_refl B1 B2 B3 vb); [done | done | done | done | exact Hlb | done |].
    intros next l' m' Hl' Hoc. by exists l'.
Qed.
End Pick.
