(* ===== verification/CoreSample.v ===== *)
(** Core scheduling run on a concrete machine: two hardware threads of one core,
    two tagged tasks on the first and nothing on the second. *)
From S2P Require Import Prelude Headers Proc Kernel Extern RqClock Uclamp UclampProofs Prio.
From S2P Require Import SchedOK Affinity AffinityProofs Migrate MigrateProofs.
From S2P Require Import Mm Wakeup WakeProofs Schedule ScheduleProofs Sample CoreSched.
From S2P Require Import CoreSchedProofs CoreToggle CorePick.

Module CoreDemo.
#[local] Existing Instance linux_headers.
#[local] Existing Instance Demo.extern.

(** The tree as a sorted list; the idle class only offers rq->idle. *)
Fixpoint add (less : Z -> Z -> bool) (p : Z) (l : list Z) : list Z :=
  match l with
  | [] => [p]
  | q :: l => if less p q then p :: q :: l else q :: add less p l
  end.

Fixpoint next (p : Z) (l : list Z) : option Z :=
  match l with
  | [] => None
  | q :: rest => if q =? p then head rest else next p rest
  end.

Definition pick (c : sched_class) (r : Z) : K Z :=
  if class_eqb c idle_sched_class then r ⇝ rq_idle else Demo.pick c r.

Definition core_extern : CoreExtern := {|
  rb_add := add; rb_erase p := List.filter (fun x => negb (x =? p));
  rb_find_first cmp := List.find (fun p => match cmp p with Eq => true | _ => false end);
  rb_next := next;
  cl_pick_task := pick; cfs_prio_less a b _ := ts_pid b <? ts_pid a;
  task_vruntime_update _ _ _ := mret tt; sched_core_account_forceidle _ := mret tt;
  queue_balance_callback r b := upd! r ⇝ rq_balance_callback := cons b;
  schedstat_enabled := true;
  cpu_smt_mask c m := {[c]} ∪ (if bool_decide (c ∈ ({[0; 1]} : gset Z)) then {[0; 1]} ∩ m_cpu_online m else ∅);
  sched_domain_spans _ _ := [];
|}.

#[export] Instance topology_ok : TopologyOK core_extern.
Proof. split. intros c m m' E. cbn. by rewrite E. Qed.

Lemma pick_frame c r : preserves quiet_frame (pick c r).
Proof. unfold pick. case_match; [framed | apply Demo.demo_pick_frame]. Qed.

Lemma pick_view c r : preserves view_frame (pick c r).
Proof. unfold pick, Demo.pick. case_match; keep. Qed.

#[local] Hint Resolve pick_frame pick_view : preserve.

#[export] Instance core_extern_ok : CoreExternOK core_extern.
Proof.
  split; intros; simpl; auto with preserve; try (by apply wp_ret); try (by framed).
  - apply find_some in H as [Hin E]. split; [by apply list_elem_of_In|]. by destruct (cmp p).
  - unfold pick. destruct (class_eqb c idle_sched_class) eqn:E.
    + apply wp_rd. exists q. split; [done|]. split; [right | done]. by destruct (ok_rqs _ H r q H0) as (_ & _ & ?).
    + eapply wp_mono; [apply demo_pick_spec; [done | by eexists]|]. intros p m' Hp. split; [naive_solver|].
      intros ->. by cbv in E.
  - destruct H0 as [q Hq]. unfold returns. apply wp_upd_obj. by exists q.
  - unfold Demo.put_prev. framed.
Qed.

(** Thread [c] of the core led by CPU 0. *)
Definition thread (on : bool) (tree : list Z) : core_rq := Mk_core_rq 0 on NULL 0 5 4 0 0 0 0 0 tree true true true 0.

Definition smt_core (on : bool) (count : Z) (tree : list Z) : smt_state :=
  Mk_smt (<[0 := thread on tree]> (<[1 := thread on []]> ∅)) ∅ count on false 1 0 {[0; 1]} 0.

(** Tasks 11 and 12 of CPU 0 have different cookies. *)
Definition machine_core (on : bool) (count : Z) : machine :=
  machine0 <| m_tasks := <[11 := (user_task 11) <| ts_on_cpu := 1 |> <| ts_core_cookie := 7 |>]>
                         (<[12 := (user_task 12) <| ts_core_cookie := 9 |>]> (m_tasks machine0)) |>
           <| m_smt := smt_core on count [11; 12] |>.

#[local] Existing Instance core_extern.

Lemma kernel_ok_core on n : kernel_ok (machine_core on n).
Proof.
  split.
  - reflexivity.
  - intros c q Hq. which_obj Hq; (split; [done|]); split; eexists; (split; [reflexivity | done]).
  - intros p t Hp. which_obj Hp; by split; eexists.
  - by eexists.
  - apply uclamp_inv_idle; [intros p t Hp; by which_obj Hp | intros c q Hq; by which_obj Hq].
  - split; [|split].
    + intros p t id Hp. which_obj Hp; apply clamp_none_wf.
    + intros a g id Hg. which_obj Hg. apply clamp_none_wf.
    + intros id. apply clamp_none_wf.
  - intros p t Hp. by which_obj Hp.
Qed.

Lemma which_view on n i v : views (machine_core on n) !! i = Some v ->
  (i = 0 /\ v = view_of (thread on [11; 12])) \/ (i = 1 /\ v = view_of (thread on [])).
Proof.
  unfold views. cbn [m_smt machine_core]. rewrite lookup_fmap. destruct (sm_rqs _ !! i) as [c|] eqn:Ec; [|done].
  intros [= <-]. which_obj Ec; tauto.
Qed.

Lemma core_ok_core on n : core_ok (machine_core on n).
Proof.
  split; [split|].
  - intros i Hi. assert (i = 0 \/ i = 1) as [->| ->] by (change (i ∈ ({[0; 1]} : gset Z)) in Hi; set_solver); split; by eexists.
  - intros i v [[_ ->]|[_ ->]]%which_view; by apply (bool_decide_unpack _).
  - intros i v l [[_ ->]|[_ ->]]%which_view [[_ ->]|[_ ->]]%which_view; done.
  - intros i v p [[-> ->]|[-> ->]]%which_view Hp; cbn in Hp; [|by apply elem_of_nil in Hp].
    apply elem_of_cons in Hp as [->|[->|?%elem_of_nil]%elem_of_cons]; [..|done]; eexists; by split.
  - intros i Hi. assert (i = 0 \/ i = 1) as [->| ->] by (change (i ∈ ({[0; 1]} : gset Z)) in Hi; set_solver);
      (split; [by apply (bool_decide_unpack _) | by apply (bool_decide_unpack _)]).
  - intros i v j w Hi [[-> ->]|[-> ->]]%which_view [[-> ->]|[-> ->]]%which_view;
      (split; [intros _; by apply (bool_decide_unpack _) | done]).
  - intros i v l [[-> ->]|[-> ->]]%which_view [[_ ->]|[_ ->]]%which_view; done.
Qed.

(** CPU 0 picks again while task 11 runs. *)
Lemma core_pick_next_task_matches_witness :
  wp (core_pick_next_task 0 11) (fun next m' =>
    exists l', views m' !! 0 = Some l' /\ pick_outcome 0 0 0 next m' l') (machine_core true 1).
Proof.
  apply (core_pick_next_task_matches 0 11 (machine_core true 1) (view_of (thread true [11; 12])) (view_of (thread true [11; 12])));
    try done; [apply kernel_ok_core | apply core_ok_core].
Defined.

(** Task 12 is next on CPU 0 and gives the core its cookie; the sibling, which
    has no such task and runs its idle task, stays idle. *)
Lemma core_pick_runs :
  exists m', core_pick_next_task 0 11 (machine_core true 1) = Ret 12 m' /\
    cv_cookie <$> views m' !! 0 = Some 9 /\ cv_pick <$> views m' !! 1 = Some NULL.
Proof. eexists. split; [vm_compute; reflexivity | split; vm_compute; reflexivity]. Qed.

Lemma toggle_ok_core : toggle_ok 0 (machine_core false 0).
Proof.
  split; [|done..|].
  - split.
    + intros c Hc. assert (c = 0 \/ c = 1) as [->| ->] by (change (c ∈ ({[0; 1]} : gset Z)) in Hc; set_solver);
        eexists; (split; [reflexivity | by eexists]).
    + intros c Hc. by apply (cw_smt _ (proj1 (core_ok_core false 0))).
    + done.
  - intros c q _ Hq. by which_obj Hq.
Qed.

(** The first user turns core scheduling on. *)
Lemma core_sched_toggling_witness :
  exists m, rtc toggle_step (0, machine_core false 0) (1, m) /\
    (forall c, c ∈ m_cpu_possible m -> exists q, sm_rqs (m_smt m) !! c = Some q /\ cr_enabled q = sm_core_on (m_smt m)) /\
    (sm_core_on (m_smt m) = true <-> 0 < 1 \/ sm_core_work (m_smt m) = true) /\
    returns_ok sched_core_get m /\ (0 < 1 -> returns_ok sched_core_put m) /\
    (sm_core_work (m_smt m) = true -> returns_ok __sched_core_put m).
Proof.
  pose proof (get_ok _ _ toggle_ok_core) as Hg. apply wp_run in Hg as ([] & m & E & _).
  assert (Hs : rtc toggle_step (0, machine_core false 0) (1, m)) by (apply rtc_once; by apply (user_gets 0)).
  exists m. split; [exact Hs|]. exact (core_sched_toggling 0 (machine_core false 0) 1 m toggle_ok_core Hs).
Defined.
End CoreDemo.
