(* ===== verification/PreemptMode.v ===== *)
(** The preemption model chosen at boot (core.c, CONFIG_PREEMPT_DYNAMIC) and the
    notifiers of preemption (CONFIG_PREEMPT_NOTIFIERS).

    The preemption model is a set of static calls, each patched on its own while
    the system runs; the updates are therefore kept as the sequence of writes
    they are. *)
From S2P Require Import Prelude Headers.

Module Dynamic.
(** What a static call does. *)
Inductive target : Type := RET0 | NOP | resched.
#[export] Instance target_eq_dec : EqDecision target.
Proof. solve_decision. Defined.

Inductive site : Type := cond_resched | might_resched | preempt_schedule | preempt_schedule_notrace | irqentry_exit_cond_resched.
#[export] Instance site_eq_dec : EqDecision site.
Proof. solve_decision. Defined.

Definition sites : list site :=
  [cond_resched; might_resched; preempt_schedule; preempt_schedule_notrace; irqentry_exit_cond_resched].

(** The static calls and preempt_dynamic_mode. *)
Record calls : Type := Mk_calls { call : site -> target; mode : Z }.

Definition preempt_dynamic_undefined : Z := -1.
Definition preempt_dynamic_none : Z := 0.
Definition preempt_dynamic_voluntary : Z := 1.
Definition preempt_dynamic_full : Z := 2.

Definition sched_dynamic_mode (str : string) : cres Z :=
  if String.eqb str "none" then Ok preempt_dynamic_none
  else if String.eqb str "voluntary" then Ok preempt_dynamic_voluntary
  else if String.eqb str "full" then Ok preempt_dynamic_full
  else Err EINVAL.

(** static_call_update() of one call site *)
Definition write : Type := site * target.

Definition static_call_update (w : write) (c : calls) : calls :=
  Mk_calls (fun s => if decide (s = w.1) then w.2 else call c s) (mode c).

(** The writes of sched_dynamic_update() in order. *)
Definition enable_all : list write := (fun s => (s, resched)) <$> sites.

Definition writes_of (m : Z) : list write :=
  if m =? preempt_dynamic_none then
    [(cond_resched, resched); (might_resched, RET0); (preempt_schedule, NOP);
     (preempt_schedule_notrace, NOP); (irqentry_exit_cond_resched, NOP)]
  else if m =? preempt_dynamic_voluntary then
    [(cond_resched, resched); (might_resched, resched); (preempt_schedule, NOP);
     (preempt_schedule_notrace, NOP); (irqentry_exit_cond_resched, NOP)]
  else if m =? preempt_dynamic_full then
    [(cond_resched, RET0); (might_resched, RET0); (preempt_schedule, resched);
     (preempt_schedule_notrace, resched); (irqentry_exit_cond_resched, resched)]
  else [].

Definition dynamic_writes (m : Z) : list write := enable_all ++ writes_of m.

Definition run (ws : list write) (c : calls) : calls := fold_left (fun c w => static_call_update w c) ws c.

Definition sched_dynamic_update (m : Z) (c : calls) : calls := Mk_calls (call (run (dynamic_writes m) c)) m.

Definition setup_preempt_mode (str : string) (c : calls) : Z * calls :=
  match sched_dynamic_mode str with
  | Err _ => (0, c)
  | Ok m => (1, sched_dynamic_update m c)
  end.

(** The build's CONFIG_PREEMPT_NONE and CONFIG_PREEMPT_VOLUNTARY. *)
Definition preempt_dynamic_init (cfg_none cfg_voluntary : bool) (c : calls) : calls :=
  if mode c =? preempt_dynamic_undefined then
    if cfg_none then sched_dynamic_update preempt_dynamic_none c
    else if cfg_voluntary then sched_dynamic_update preempt_dynamic_voluntary c
    else Mk_calls (call c) preempt_dynamic_full
  else c.

(** ** Never without a preemption point

    A system in which cond_resched() returns at once and in-kernel preemption is
    off has no preemption point in the kernel: the ZERO state. *)
Definition zero_state (c : calls) : bool :=
  bool_decide (call c cond_resched <> resched) && bool_decide (call c preempt_schedule <> resched).

(** The table in the comment of core.c. *)
Definition table (m : Z) (s : site) : target :=
  match s with
  | cond_resched => if m =? preempt_dynamic_full then RET0 else resched
  | might_resched => if m =? preempt_dynamic_voluntary then resched else RET0
  | _ => if m =? preempt_dynamic_full then resched else NOP
  end.

Definition valid_mode (m : Z) : Prop :=
  m = preempt_dynamic_none \/ m = preempt_dynamic_voluntary \/ m = preempt_dynamic_full.

Lemma run_app a b c : run (a ++ b) c = run b (run a c).
Proof. apply fold_left_app. Qed.

(** The first phase turns call sites on, one by one. *)
Lemma enabling_prefix c k : zero_state c = false -> zero_state (run (take k enable_all) c) = false.
Proof.
  intros Hz. unfold zero_state in *. do 6 (destruct k as [|k]; [cbn; revert Hz; repeat case_decide; try done; by repeat case_bool_decide|]).
  cbn. done.
Qed.

Lemma all_enabled c s : call (run enable_all c) s = resched.
Proof. by destruct s. Qed.

Lemma prefix_enabled_cond m c k : valid_mode m -> zero_state (run (take k (writes_of m)) (run enable_all c)) = false.
Proof.
  intros [-> | [-> | ->]]; do 6 (destruct k as [|k]; [reflexivity|]); reflexivity.
Qed.

(** C33: While sched_dynamic_update() patches the static calls one at a time, no
    intermediate state is one without any preemption point in the kernel,
    whatever the model before and after; at the end every call is the one the
    table in core.c gives for the mode. *)
Theorem dynamic_update_never_zero c m k :
  valid_mode m -> zero_state c = false ->
  zero_state (run (take k (dynamic_writes m)) c) = false /\
  (forall s, call (sched_dynamic_update m c) s = table m s) /\ mode (sched_dynamic_update m c) = m.
Proof.
  intros Hm Hz. split; [|split; [|done]].
  - unfold dynamic_writes. rewrite take_app, run_app. destruct (decide (k <= length enable_all)%nat) as [Hk|Hk].
    + replace (k - length enable_all)%nat with 0%nat by lia. cbn [take]. by apply enabling_prefix.
    + rewrite (take_ge enable_all k) by lia. by apply prefix_enabled_cond.
  - intros s. destruct Hm as [-> | [-> | ->]]; by destruct s.
Qed.

Lemma dynamic_update_never_zero_witness :
  let c := Mk_calls (table preempt_dynamic_voluntary) preempt_dynamic_voluntary in
  zero_state (run (take 7 (dynamic_writes preempt_dynamic_full)) c) = false /\
  (forall s, call (sched_dynamic_update preempt_dynamic_full c) s = table preempt_dynamic_full s) /\
  mode (sched_dynamic_update preempt_dynamic_full c) = preempt_dynamic_full.
Proof. cbv zeta. apply (dynamic_update_never_zero _ preempt_dynamic_full 7); [right; right; reflexivity | reflexivity]. Defined.
End Dynamic.

(** * Preemption notifiers *)
Module Notifiers.
(** preempt_notifier_key; the list of every task; what was called. *)
Inductive fired : Type := sched_in (notifier cpu : Z) | sched_out (notifier next : Z).

Record notif_state : Type := Mk_notif { nt_key : Z; nt_lists : gmap Z (list Z); nt_warns : Z; nt_log : list fired }.
#[export] Instance eta_notif : Eta notif_state := fun n => Mk_notif (nt_key n) (nt_lists n) (nt_warns n) (nt_log n).

Definition preempt_notifiers (n : notif_state) (p : Z) : list Z := default [] (nt_lists n !! p).

Definition preempt_notifier_inc (n : notif_state) : notif_state := n <| nt_key := nt_key n + 1 |>.
Definition preempt_notifier_dec (n : notif_state) : notif_state := n <| nt_key := nt_key n - 1 |>.

Definition preempt_notifier_register (current notifier : Z) (n : notif_state) : notif_state :=
  let n := if truthy (nt_key n) then n else n <| nt_warns := nt_warns n + 1 |> in
  n <| nt_lists := <[current := notifier :: preempt_notifiers n current]> (nt_lists n) |>.

(** hlist_del(): the list the notifier is on is not named. *)
Definition preempt_notifier_unregister (notifier : Z) (n : notif_state) : notif_state :=
  n <| nt_lists := List.filter (fun x => negb (x =? notifier)) <$> nt_lists n |>.

Definition __fire_sched_in_preempt_notifiers (cpu curr : Z) (n : notif_state) : notif_state :=
  n <| nt_log := nt_log n ++ ((fun x => sched_in x cpu) <$> preempt_notifiers n curr) |>.

Definition fire_sched_in_preempt_notifiers (cpu curr : Z) (n : notif_state) : notif_state :=
  if truthy (nt_key n) then __fire_sched_in_preempt_notifiers cpu curr n else n.

Definition __fire_sched_out_preempt_notifiers (curr next : Z) (n : notif_state) : notif_state :=
  n <| nt_log := nt_log n ++ ((fun x => sched_out x next) <$> preempt_notifiers n curr) |>.

Definition fire_sched_out_preempt_notifiers (curr next : Z) (n : notif_state) : notif_state :=
  if truthy (nt_key n) then __fire_sched_out_preempt_notifiers curr next n else n.

(** Unregistering undoes registering, on every task. *)
Lemma register_unregister current x n p :
  (forall q, x ∉ preempt_notifiers n q) ->
  preempt_notifiers (preempt_notifier_unregister x (preempt_notifier_register current x n)) p = preempt_notifiers n p.
Proof.
  intros Hx. assert (Hid : forall l, x ∉ l -> List.filter (fun y => negb (y =? x)) l = l).
  { induction l as [|y l IH]; intros Hl; cbn; [done|]. apply not_elem_of_cons in Hl as [Hy Hl].
    destruct (Z.eqb_spec y x); [done|]. cbn. by rewrite IH. }
  unfold preempt_notifier_unregister, preempt_notifier_register, preempt_notifiers. cbn.
  rewrite lookup_fmap. destruct (decide (p = current)) as [->|Hn].
  - rewrite lookup_insert_eq. cbn. rewrite Z.eqb_refl. cbn.
    assert (E : forall b : bool, nt_lists (if b then n else n <| nt_warns := nt_warns n + 1 |>) = nt_lists n) by by intros [].
    rewrite E. specialize (Hx current). unfold preempt_notifiers in Hx. by apply Hid.
  - rewrite lookup_insert_ne by done.
    assert (E : forall b : bool, nt_lists (if b then n else n <| nt_warns := nt_warns n + 1 |>) = nt_lists n) by by intros [].
    rewrite E. specialize (Hx p). unfold preempt_notifiers in Hx. destruct (nt_lists n !! p) as [l|]; cbn in *; [by apply Hid | done].
Qed.
End Notifiers.
