(* ===== verification/CpuUtil.v ===== *)
(** The utilization of a CPU for frequency selection and energy estimates (core.c:
    effective_cpu_util(), sched_cpu_util()).  The utilization signals and the
    clamp of kernel/sched/sched.h are parameters. *)
From S2P Require Import Prelude Headers Kernel Extern RqClock Uclamp Sample.

Class UtilExtern := {
  cpu_util_irq : Z -> K Z;
  cpu_util_rt : Z -> K Z;
  cpu_util_dl : Z -> K Z;
  cpu_util_cfs : Z -> K Z;
  cpu_bw_dl : Z -> K Z;
  rt_rq_is_runnable : Z -> K bool;
  uclamp_rq_util_with : Z -> Z -> Z -> K Z;
  scale_irq_capacity : Z -> Z -> Z -> Z;
}.

Inductive cpu_util_type : Type := FREQUENCY_UTIL | ENERGY_UTIL.

Definition is_freq (type : cpu_util_type) : bool := match type with FREQUENCY_UTIL => true | ENERGY_UTIL => false end.

Section CpuUtil.
Context {H : Headers} {X : Extern} {UX : UtilExtern}.

Definition effective_cpu_util (cpu util_cfs max : Z) (type : cpu_util_type) (p : Z) : K Z :=
  used ← gets m_uclamp_used;
  rt ← (if (negb used && is_freq type)%bool then rt_rq_is_runnable cpu else mret false);
  if (rt : bool) then mret max
  else
    irq ← cpu_util_irq cpu;
    if max <=? irq then mret max
    else
      rt_util ← cpu_util_rt cpu;
      let util := u64 (util_cfs + rt_util) in
      util ← (if is_freq type then uclamp_rq_util_with cpu util p else mret util);
      dl_util ← cpu_util_dl cpu;
      if max <=? u64 (util + dl_util) then mret max
      else
        let util := if is_freq type then util else u64 (util + dl_util) in
        let util := scale_irq_capacity util irq max in
        let util := u64 (util + irq) in
        util ← (if is_freq type then bw ← cpu_bw_dl cpu; mret (u64 (util + bw)) else mret util);
        mret (Z.min max util).

Definition sched_cpu_util (cpu max : Z) : K Z :=
  util ← cpu_util_cfs cpu;
  effective_cpu_util cpu util max ENERGY_UTIL NULL.

(** ** Bounds

    The signals of one CPU.  [clamp] is what uclamp_rq_util_with() makes of a
    utilization: the identity while clamping is not used, otherwise a value between two
    clamps.  All it has to keep is the range of the sum of two signals. *)
Record signals (cpu p : Z) (irq rt dl bw cfs : Z) (runnable : bool) (clamp : Z -> Z) (m : machine) : Prop := Mk_signals {
  sg_irq : cpu_util_irq cpu m = Ret irq m;
  sg_rt : cpu_util_rt cpu m = Ret rt m;
  sg_dl : cpu_util_dl cpu m = Ret dl m;
  sg_cfs : cpu_util_cfs cpu m = Ret cfs m;
  sg_bw : cpu_bw_dl cpu m = Ret bw m;
  sg_runnable : rt_rq_is_runnable cpu m = Ret runnable m;
  sg_clamp u : uclamp_rq_util_with cpu u p m = Ret (clamp u) m;
  sg_range : 0 <= irq < 2 ^ 32 /\ 0 <= rt < 2 ^ 32 /\ 0 <= dl < 2 ^ 32 /\ 0 <= bw < 2 ^ 32 /\ 0 <= cfs < 2 ^ 32;
  sg_clamped u : 0 <= u < 2 ^ 33 -> 0 <= clamp u < 2 ^ 33;
}.

(** The formula of the comment, and the demand it is applied to. *)
Definition scaled (max irq u : Z) : Z := irq + u * (max - irq) / max.

Definition demand (type : cpu_util_type) (clamp : Z -> Z) (rt dl cfs : Z) : Z :=
  match type with FREQUENCY_UTIL => clamp (cfs + rt) | ENERGY_UTIL => cfs + rt + dl end.

Definition reference (type : cpu_util_type) (used runnable : bool) (clamp : Z -> Z) (max irq rt dl bw cfs : Z) : Z :=
  if (is_freq type && negb used && runnable)%bool then max
  else if max <=? irq then max
  else if max <=? (match type with FREQUENCY_UTIL => clamp (cfs + rt) | ENERGY_UTIL => cfs + rt end) + dl then max
  else Z.min max (scaled max irq (demand type clamp rt dl cfs) + if is_freq type then bw else 0).

Lemma wp_get_signal {A} (op : K A) a (Q : A -> machine -> Prop) m : op m = Ret a m -> Q a m -> wp op Q m.
Proof. intros E HQ. unfold wp. by rewrite E. Qed.

Lemma scaled_range max irq u : 0 < max -> 0 <= irq < max -> 0 <= u < max -> irq <= scaled max irq u <= max.
Proof.
  intros Hm Hi Hu. unfold scaled.
  assert (0 <= u * (max - irq) / max) by (apply Z.div_pos; nia).
  assert (u * (max - irq) / max <= max - irq); [|lia]. apply Z.div_le_upper_bound; nia.
Qed.

Lemma u64_add a b : 0 <= a < 2 ^ 33 -> 0 <= b < 2 ^ 33 -> u64 (a + b) = a + b.
Proof. intros. unfold u64. apply Z.mod_small. lia. Qed.

Lemma demand_range type clamp rt dl cfs max :
  0 <= clamp (cfs + rt) -> 0 <= rt -> 0 <= dl -> 0 <= cfs ->
  (match type with FREQUENCY_UTIL => clamp (cfs + rt) | ENERGY_UTIL => cfs + rt end) + dl < max ->
  0 <= demand type clamp rt dl cfs < max.
Proof. destruct type; cbn; lia. Qed.

(** C38: effective_cpu_util() computes the formula of its comment, with no
    wrap-around for signals below 2^32, with clamping in use or not: the capacity when interrupts or the
    demand saturate the CPU (or a real-time task is runnable and clamping is not
    used), otherwise the interrupt time plus the demand scaled to what is left,
    and for frequency selection the deadline bandwidth on top; the result is
    never above the capacity and never below the interrupt time. *)
Theorem effective_cpu_util_spec cpu p type irq rt dl bw cfs runnable clamp max m :
  signals cpu p irq rt dl bw cfs runnable clamp m -> 0 < max < 2 ^ 32 ->
  (forall u, 0 <= u < max -> scale_irq_capacity u irq max = u * (max - irq) / max) ->
  exists u, effective_cpu_util cpu cfs max type p m = Ret u m /\
    u = reference type (m_uclamp_used m) runnable clamp max irq rt dl bw cfs /\ Z.min irq max <= u <= max.
Proof.
  intros [Hirq Hrt Hdl _ Hbw Hrun Hcl (R1 & R2 & R3 & R4 & R5) Rc] Hmax Hscale.
  set (v := reference _ _ _ _ _ _ _ _ _ _).
  assert (Hw : wp (effective_cpu_util cpu cfs max type p) (fun u m' => m' = m /\ u = v /\ Z.min irq max <= u <= max) m);
    [|apply wp_run in Hw as (u & m' & E & -> & ?); by exists u].
  unfold v, reference, effective_cpu_util. clear v. apply wp_bind, wp_gets, wp_bind.
  eapply (wp_mono _ (fun b m' => m' = m /\ b = (is_freq type && negb (m_uclamp_used m) && runnable)%bool)).
  { destruct (m_uclamp_used m), type; cbn; try (by apply wp_ret). by apply (wp_get_signal _ _ _ _ Hrun). }
  intros b m0 [-> ->]. destruct (_ && _ && _)%bool; [apply wp_ret; split_and!; [done | done | lia..]|].
  apply wp_bind, (wp_get_signal _ _ _ _ Hirq). destruct (Z.leb_spec max irq); [apply wp_ret; split_and!; [done | done | lia..]|].
  apply wp_bind, (wp_get_signal _ _ _ _ Hrt). rewrite (u64_add cfs rt) by lia. apply wp_bind.
  set (s := match type with FREQUENCY_UTIL => clamp (cfs + rt) | ENERGY_UTIL => cfs + rt end).
  eapply (wp_mono _ (fun u m' => m' = m /\ u = s)).
  { destruct type; cbn; [by apply (wp_get_signal _ _ _ _ (Hcl _)) | by apply wp_ret]. }
  intros u m0 [-> ->]. assert (Rs : 0 <= s < 2 ^ 33) by (pose proof (Rc (cfs + rt)); unfold s; destruct type; lia).
  apply wp_bind, (wp_get_signal _ _ _ _ Hdl). rewrite (u64_add s dl) by lia.
  destruct (Z.leb_spec max (s + dl)) as [Hs|Hs]; [apply wp_ret; split_and!; [done | done | lia..]|].
  assert (Hd : (if is_freq type then s else s + dl) = demand type clamp rt dl cfs) by by destruct type.
  rewrite Hd. assert (Rd : 0 <= demand type clamp rt dl cfs < max).
  { apply demand_range; [apply Rc; lia | lia | lia | lia | exact Hs]. }
  rewrite Hscale by lia. pose proof (scaled_range max irq (demand type clamp rt dl cfs)) as Rsc.
  assert (Es : u64 (demand type clamp rt dl cfs * (max - irq) / max + irq) = scaled max irq (demand type clamp rt dl cfs)).
  { unfold scaled in *. rewrite Z.add_comm. unfold u64. apply Z.mod_small. lia. }
  rewrite Es. set (w := scaled max irq _) in *. clearbody w. apply wp_bind.
  eapply (wp_mono _ (fun u m' => m' = m /\ u = w + if is_freq type then bw else 0)).
  { destruct type; cbn; [apply wp_bind, (wp_get_signal _ _ _ _ Hbw)|]; apply wp_ret; (split; [done|]); [|lia].
    apply u64_add; lia. }
  intros u m0 [-> ->]. apply wp_ret. split_and!; [done | done | destruct type; cbn; lia | lia].
Qed.
End CpuUtil.

(** ** A CPU with signals *)
Module UtilDemo.
#[local] Existing Instance linux_headers.

(** uclamp_rq_util_with() clamps to [0, 512] when clamping is used. *)
Definition util_extern : UtilExtern := {|
  cpu_util_irq _ := mret 100; cpu_util_rt _ := mret 50; cpu_util_dl _ := mret 20; cpu_util_cfs _ := mret 300; cpu_bw_dl _ := mret 30;
  rt_rq_is_runnable _ := mret false;
  uclamp_rq_util_with _ u _ := used ← gets m_uclamp_used; mret (if used : bool then Z.max 0 (Z.min u 512) else u);
  scale_irq_capacity u irq max := u64 (u * (max - irq)) / max;
|}.

Definition demo_clamp (m : machine) (u : Z) : Z := if m_uclamp_used m then Z.max 0 (Z.min u 512) else u.

Lemma signals_demo m : signals (UX := util_extern) 0 NULL 100 50 20 30 300 false (demo_clamp m) m.
Proof. split; try done; try lia. intros u. unfold demo_clamp. destruct (m_uclamp_used m); lia. Qed.

Lemma effective_cpu_util_spec_witness :
  exists u, effective_cpu_util (UX := util_extern) 0 300 1024 FREQUENCY_UTIL NULL machine0 = Ret u machine0 /\
    u = reference FREQUENCY_UTIL (m_uclamp_used machine0) false (demo_clamp machine0) 1024 100 50 20 30 300 /\
    Z.min 100 1024 <= u <= 1024.
Proof.
  apply (effective_cpu_util_spec (UX := util_extern) 0 NULL); [apply signals_demo | lia |].
  intros u Hu. cbn. unfold u64. rewrite Z.mod_small; [done | lia].
Defined.
End UtilDemo.
