(* ===== verification/StackCache.v ===== *)
(** The kernel stacks of tasks (fork.c, CONFIG_VMAP_STACK): each CPU keeps up to
    two freed stacks for the next task.  vmalloc and the memory controller are
    parameters.

    A stack is named by its vm_struct.  A function may move to another CPU
    between two accesses to the cache; [cpu_at i] is the CPU on which the access
    to slot [i] happens. *)
From S2P Require Import Prelude Headers.

Definition NR_CACHED_STACKS : Z := 2.

Record stack_state : Type := Mk_stacks {
  sk_live : gset Z;              (* the areas vmalloc has given out *)
  sk_cached : gmap (Z * Z) Z;    (* cached_stacks[i] of a CPU *)
  sk_tasks : gmap Z Z;           (* tsk->stack_vm_area *)
  sk_clean : gset Z;             (* areas whose contents are zero *)
  sk_charged : gmap Z (list bool);  (* the pages charged to the memory controller *)
  sk_stat : Z;                   (* NR_KERNEL_STACK_KB *)
}.
#[export] Instance eta_stacks : Eta stack_state := fun s =>
  Mk_stacks (sk_live s) (sk_cached s) (sk_tasks s) (sk_clean s) (sk_charged s) (sk_stat s).

Class StackExtern := {
  (** __vmalloc_node_range() with THREADINFO_GFP, which includes __GFP_ZERO *)
  vmalloc_stack : stack_state -> option Z;
  memcg_kmem_charge_page : stack_state -> Z -> nat -> bool;
  THREAD_PAGES : nat;            (* THREAD_SIZE / PAGE_SIZE *)
  PAGE_KB : Z;                   (* PAGE_SIZE / 1024 *)
}.

(** A fresh area is new. *)
Class StackExternOK (SX : StackExtern) : Prop := {
  vmalloc_fresh s a : vmalloc_stack s = Some a -> a <> NULL /\ a ∉ sk_live s;
}.

Section StackCache.
Context {SX : StackExtern}.
Abbreviation KS := (M stack_state).

Definition slot (s : stack_state) (cpu i : Z) : Z := default NULL (sk_cached s !! (cpu, i)).
Definition stack_vm_area (s : stack_state) (tsk : Z) : Z := default NULL (sk_tasks s !! tsk).

Definition set_slot (cpu i a : Z) : KS unit := modify (fun s => s <| sk_cached := <[(cpu, i) := a]> (sk_cached s) |>).
Definition set_stack (tsk a : Z) : KS unit := modify (fun s => s <| sk_tasks := <[tsk := a]> (sk_tasks s) |>).

(** vfree(): the area is gone. *)
Definition vfree (a : Z) : KS unit :=
  modify (fun s => s <| sk_live := sk_live s ∖ {[a]} |> <| sk_clean := sk_clean s ∖ {[a]} |>).

(** this_cpu_xchg(cached_stacks[i], NULL) *)
Definition this_cpu_xchg (cpu i : Z) : KS Z :=
  s ← get_state;
  set_slot cpu i NULL ;;
  mret (slot s cpu i).

(** this_cpu_cmpxchg(cached_stacks[i], NULL, a): the old value *)
Definition this_cpu_cmpxchg (cpu i a : Z) : KS Z :=
  s ← get_state;
  when (slot s cpu i =? NULL) (set_slot cpu i a) ;;
  mret (slot s cpu i).

Fixpoint free_cached (cpu : Z) (slots : list Z) : KS unit :=
  match slots with
  | [] => mret tt
  | i :: slots =>
      s ← get_state;
      let vm_stack := slot s cpu i in
      (if vm_stack =? NULL then mret tt
       else vfree vm_stack ;; set_slot cpu i NULL) ;;
      free_cached cpu slots
  end.

Definition all_slots : list Z := seqZ 0 NR_CACHED_STACKS.

Definition free_vm_stack_cache (cpu : Z) : KS Z := free_cached cpu all_slots ;; mret 0.

(** memset(s->addr, 0, THREAD_SIZE) *)
Definition clear_stack (a : Z) : KS unit := modify (fun s => s <| sk_clean := {[a]} ∪ sk_clean s |>).

Fixpoint reuse_stack (cpu_at : Z -> Z) (tsk : Z) (slots : list Z) : KS (option Z) :=
  match slots with
  | [] => mret None
  | i :: slots =>
      s ← this_cpu_xchg (cpu_at i) i;
      if s =? NULL then reuse_stack cpu_at tsk slots
      else
        clear_stack s ;;
        set_stack tsk s ;;
        mret (Some s)
  end.

(** Returns the stack, or NULL. *)
Definition alloc_thread_stack_node (cpu_at : Z -> Z) (tsk : Z) : KS Z :=
  r ← reuse_stack cpu_at tsk all_slots;
  match r with
  | Some stack => mret stack
  | None =>
      s ← get_state;
      match vmalloc_stack s with
      | None => mret NULL
      | Some stack =>
          modify (fun s => s <| sk_live := {[stack]} ∪ sk_live s |> <| sk_clean := {[stack]} ∪ sk_clean s |>
                             <| sk_charged := <[stack := replicate THREAD_PAGES false]> (sk_charged s) |>) ;;
          set_stack tsk stack ;;
          mret stack
      end
  end.

Definition uncharge (a : Z) : KS unit :=
  modify (fun s => s <| sk_charged := alter (fun l => replicate (length l) false) a (sk_charged s) |>).

Fixpoint cache_stack (cpu_at : Z -> Z) (a : Z) (slots : list Z) : KS bool :=
  match slots with
  | [] => mret false
  | i :: slots =>
      old ← this_cpu_cmpxchg (cpu_at i) i a;
      if negb (old =? NULL) then cache_stack cpu_at a slots else mret true
  end.

(** With CONFIG_VMAP_STACK every task has an area. *)
Definition free_thread_stack (cpu_at : Z -> Z) (tsk : Z) : KS unit :=
  s ← get_state;
  let vm := stack_vm_area s tsk in
  if negb (vm =? NULL) then
    uncharge vm ;;
    cached ← cache_stack cpu_at vm all_slots;
    when (negb cached) (vfree vm)
  else stuck BUG.

Definition account_kernel_stack (tsk account : Z) : KS unit :=
  modify (fun s => s <| sk_stat := sk_stat s + Z.of_nat THREAD_PAGES * (account * PAGE_KB) |>).

(** Charge the pages from the first on; the first failure ends it. *)
Fixpoint charge_pages (a : Z) (pages : list nat) : KS (cres unit) :=
  match pages with
  | [] => mret (Ok tt)
  | i :: pages =>
      s ← get_state;
      if memcg_kmem_charge_page s a i then
        modify (fun s => s <| sk_charged := alter (fun l => <[i := true]> l) a (sk_charged s) |>) ;;
        charge_pages a pages
      else mret (Err ENOMEM)
  end.

Definition memcg_charge_kernel_stack (tsk : Z) : KS (cres unit) :=
  s ← get_state;
  let vm := stack_vm_area s tsk in
  if negb (vm =? NULL) then charge_pages vm (seq 0 THREAD_PAGES) else mret (Ok tt).

(** release_task_stack() of a dead task. *)
Definition release_stack (cpu_at : Z -> Z) (tsk : Z) : KS unit :=
  account_kernel_stack tsk (-1) ;;
  free_thread_stack cpu_at tsk ;;
  set_stack tsk NULL.

(** ** Ownership

    Where a stack can be. *)
Inductive place : Type := Slot (cpu i : Z) | Task (tsk : Z).
#[export] Instance place_eq_dec : EqDecision place.
Proof. solve_decision. Defined.

Definition at_place (s : stack_state) (l : place) : Z :=
  match l with Slot cpu i => slot s cpu i | Task tsk => stack_vm_area s tsk end.

(** Every live stack is in exactly one place, and only live stacks are. *)
Record owned (f : place -> Z) (live : gset Z) : Prop := Mk_owned {
  ow_once l1 l2 : f l1 = f l2 -> f l1 <> NULL -> l1 = l2;
  ow_live a : a ∈ live <-> a <> NULL /\ exists l, f l = a;
}.

Definition stacks_ok (s : stack_state) : Prop := owned (at_place s) (sk_live s).

Definition put (f : place -> Z) (l : place) (a : Z) : place -> Z := fun l' => if decide (l' = l) then a else f l'.

Lemma owned_ext f g live : (forall l, f l = g l) -> owned f live -> owned g live.
Proof.
  intros E [H1 H2]. split.
  - intros l1 l2. rewrite <- !E. apply H1.
  - intros a. rewrite H2. split; intros [Ha [l Hl]]; (split; [done|]); exists l; [rewrite <- E | rewrite E]; done.
Qed.

Lemma owned_take f live l : owned f live -> f l <> NULL -> owned (put f l NULL) (live ∖ {[f l]}).
Proof.
  intros [H1 H2] Hl. split.
  - intros l1 l2. unfold put. repeat case_decide; subst; try done. apply H1.
  - intros a. unfold put. rewrite elem_of_difference, elem_of_singleton, H2. split.
    + intros [[Ha [l' Hl']] Hn]. split; [done|]. exists l'. case_decide; congruence.
    + intros [Ha [l' Hl']]. case_decide; [congruence|]. split; [by split; [|exists l']|]. intros E. subst a. apply H1 in E; [congruence | done].
Qed.

Lemma owned_put f live l a : owned f live -> f l = NULL -> a <> NULL -> a ∉ live -> owned (put f l a) ({[a]} ∪ live).
Proof.
  intros [H1 H2] Hl Ha Hn. assert (Hnot : forall l', f l' <> a).
  { intros l' E. apply Hn, H2. split; [done | by exists l']. }
  split.
  - intros l1 l2. unfold put. repeat case_decide; subst; try done.
    + intros E. symmetry in E. by destruct (Hnot l2).
    + intros E. by destruct (Hnot l1).
    + apply H1.
  - intros x. unfold put. rewrite elem_of_union, elem_of_singleton, H2. split.
    + intros [->|[Hx [l' Hl']]]; (split; [done|]); [exists l; by rewrite decide_True|]. exists l'. rewrite decide_False; [done|]. congruence.
    + intros [Hx [l' Hl']]. case_decide; [by left | right]. split; [done | by exists l'].
Qed.

Lemma at_set_slot s cpu i a l : at_place (s <| sk_cached := <[(cpu, i) := a]> (sk_cached s) |>) l = put (at_place s) (Slot cpu i) a l.
Proof.
  unfold put. destruct l as [cpu' i'|tsk]; cbn; [|by rewrite decide_False]. unfold slot. cbn. case_decide as E.
  - injection E as -> ->. by rewrite lookup_insert_eq.
  - rewrite lookup_insert_ne; [done | congruence].
Qed.

Lemma at_set_stack s tsk a l : at_place (s <| sk_tasks := <[tsk := a]> (sk_tasks s) |>) l = put (at_place s) (Task tsk) a l.
Proof.
  unfold put. destruct l as [cpu' i'|tsk']; cbn; [by rewrite decide_False|]. unfold stack_vm_area. cbn. case_decide as E.
  - injection E as ->. by rewrite lookup_insert_eq.
  - rewrite lookup_insert_ne; [done | congruence].
Qed.

(** ** The operations *)
Definition ok_with (f : place -> Z) (live : gset Z) (s : stack_state) : Prop := (forall l, at_place s l = f l) /\ sk_live s = live.

Lemma wp_set_slot cpu i a f live (Q : unit -> stack_state -> Prop) s :
  ok_with f live s -> (forall s', ok_with (put f (Slot cpu i) a) live s' -> sk_clean s' = sk_clean s -> Q tt s') -> wp (set_slot cpu i a) Q s.
Proof.
  intros [Hf Hl] HQ. apply wp_modify, HQ; [|done]. split; [|done]. intros l. rewrite at_set_slot. unfold put. by rewrite Hf.
Qed.

Lemma wp_set_stack tsk a f live (Q : unit -> stack_state -> Prop) s :
  ok_with f live s -> (forall s', ok_with (put f (Task tsk) a) live s' -> sk_clean s' = sk_clean s -> Q tt s') -> wp (set_stack tsk a) Q s.
Proof.
  intros [Hf Hl] HQ. apply wp_modify, HQ; [|done]. split; [|done]. intros l. rewrite at_set_stack. unfold put. by rewrite Hf.
Qed.

Lemma slot_at f live s cpu i : ok_with f live s -> slot s cpu i = f (Slot cpu i).
Proof. intros [Hf _]. apply (Hf (Slot cpu i)). Qed.

Lemma put_same f l a l' : f l = a -> put f l a l' = f l'.
Proof. intros E. unfold put. case_decide; congruence. Qed.

Lemma ok_with_ext f g live s : (forall l, f l = g l) -> ok_with f live s -> ok_with g live s.
Proof. intros E [Hf Hl]. split; [|done]. intros l. by rewrite <- E. Qed.

Lemma owned_state f live s : ok_with f live s -> owned f live -> stacks_ok s.
Proof. intros [Hf Hl] Ho. unfold stacks_ok. rewrite Hl. eapply owned_ext; [|exact Ho]. done. Qed.

(** A stack moves from one place to another. *)
Lemma owned_move f live l l' : owned f live -> f l <> NULL -> f l' = NULL -> owned (put (put f l NULL) l' (f l)) live.
Proof.
  intros Ho Hl Hl'. assert (Hin : f l ∈ live) by (apply (ow_live _ _ Ho); split; [done | by exists l]).
  replace live with ({[f l]} ∪ live ∖ {[f l]}) by (apply set_eq; intros x; destruct (decide (x = f l)); set_solver).
  apply owned_put; [by apply owned_take | | done | set_solver]. unfold put. by case_decide.
Qed.

Definition only_at (s : stack_state) (l : place) (a : Z) : Prop := at_place s l = a /\ forall l', at_place s l' = a -> l' = l.

Lemma only_at_owned f live s l a : ok_with f live s -> owned f live -> f l = a -> a <> NULL -> only_at s l a.
Proof.
  intros [Hf _] Ho E Ha. split; [by rewrite Hf|]. intros l'. rewrite Hf. intros E'. apply (ow_once _ _ Ho); congruence.
Qed.

(** What a task that asks for a stack gets. *)
Definition given (tsk : Z) (r : Z) (s : stack_state) : Prop :=
  stacks_ok s /\ (r = NULL /\ stack_vm_area s tsk = NULL \/ r <> NULL /\ r ∈ sk_clean s /\ only_at s (Task tsk) r).

Lemma wp_reuse cpu_at tsk slots f live (Q : option Z -> stack_state -> Prop) s :
  owned f live -> ok_with f live s -> f (Task tsk) = NULL ->
  (forall s', ok_with f live s' -> Q None s') -> (forall a s', given tsk a s' -> a <> NULL -> Q (Some a) s') ->
  wp (reuse_stack cpu_at tsk slots) Q s.
Proof.
  intros Ho Hs Ht HN HS. revert s Hs. induction slots as [|i slots IH]; intros s Hs; cbn; [by apply wp_ret, HN|].
  apply wp_bind. unfold this_cpu_xchg. apply wp_bind, wp_get_state. apply wp_bind, (wp_set_slot _ _ _ _ _ _ _ Hs). intros s1 Hs1 _.
  apply wp_ret. rewrite (slot_at _ _ _ _ _ Hs). destruct (Z.eqb_spec (f (Slot (cpu_at i) i)) NULL) as [E|E].
  - apply IH. eapply ok_with_ext; [|exact Hs1]. intros l. by apply put_same.
  - set (a := f (Slot (cpu_at i) i)) in *. apply wp_bind, wp_modify.
    set (s2 := s1 <| sk_clean := {[a]} ∪ sk_clean s1 |>).
    apply wp_bind, (wp_set_stack _ _ (put f (Slot (cpu_at i) i) NULL) live); [exact Hs1|]. intros s3 Hs3 Ec. apply wp_ret, HS; [|done].
    pose proof (owned_move f live (Slot (cpu_at i) i) (Task tsk) Ho E Ht) as Ho3. split; [by eapply owned_state|]. right.
    split; [done|]. split; [rewrite Ec; set_solver|]. eapply only_at_owned; [exact Hs3 | exact Ho3 | | done].
    unfold put. by rewrite decide_True.
Qed.

Context {SOK : StackExternOK SX}.

Lemma wp_alloc_stack cpu_at tsk s : stacks_ok s -> stack_vm_area s tsk = NULL -> wp (alloc_thread_stack_node cpu_at tsk) (given tsk) s.
Proof.
  intros Hok Ht. unfold alloc_thread_stack_node. apply wp_bind.
  eapply (wp_reuse cpu_at tsk _ (at_place s) (sk_live s)); [done | by split | done | | ].
  - intros s1 Hs1. apply wp_bind, wp_get_state. destruct (vmalloc_stack s1) as [a|] eqn:Ev.
    + apply vmalloc_fresh in Ev as [Ha Hfresh]. destruct Hs1 as [Hf1 Hl1]. apply wp_bind, wp_modify.
      set (s2 := _ <| sk_charged := _ |>).
      apply wp_bind, (wp_set_stack _ _ (at_place s) ({[a]} ∪ sk_live s)); [split; [done | cbn; by rewrite Hl1]|].
      intros s3 Hs3 Ec. apply wp_ret.
      assert (Ho : owned (put (at_place s) (Task tsk) a) ({[a]} ∪ sk_live s)) by (apply owned_put; [done | done | done | by rewrite <- Hl1]).
      split; [by eapply owned_state|]. right. split; [done|]. split; [rewrite Ec; cbn; set_solver|].
      eapply only_at_owned; [exact Hs3 | exact Ho | | done]. unfold put. by rewrite decide_True.
    + apply wp_ret. split; [by eapply owned_state|]. left. split; [done|]. destruct Hs1 as [Hf1 _]. rewrite <- Ht. apply (Hf1 (Task tsk)).
  - intros a s1 Hg Ha. by apply wp_ret.
Qed.

Lemma wp_cache cpu_at a slots f live (Q : bool -> stack_state -> Prop) s :
  ok_with f live s -> a <> NULL ->
  (forall s' cpu i, f (Slot cpu i) = NULL -> ok_with (put f (Slot cpu i) a) live s' -> Q true s') ->
  (forall s', ok_with f live s' -> Q false s') -> wp (cache_stack cpu_at a slots) Q s.
Proof.
  intros Hs Ha HT HF. revert s Hs. induction slots as [|i slots IH]; intros s Hs; cbn; [by apply wp_ret, HF|].
  apply wp_bind. unfold this_cpu_cmpxchg. apply wp_bind, wp_get_state. rewrite (slot_at _ _ _ _ _ Hs). apply wp_bind.
  destruct (Z.eqb_spec (f (Slot (cpu_at i) i)) NULL) as [E|E]; cbn [when].
  - apply (wp_set_slot _ _ _ _ _ _ _ Hs). intros s1 Hs1 _. apply wp_ret. rewrite E. cbn. by apply wp_ret, (HT _ (cpu_at i) i).
  - apply wp_ret, wp_ret. replace (f (Slot (cpu_at i) i) =? NULL) with false by (symmetry; by apply Z.eqb_neq). cbn. by apply IH.
Qed.

Lemma wp_release cpu_at tsk s : stacks_ok s -> stack_vm_area s tsk <> NULL ->
  wp (release_stack cpu_at tsk) (fun _ s' => stacks_ok s' /\ stack_vm_area s' tsk = NULL) s.
Proof.
  intros Hok Ht. unfold release_stack. apply wp_bind, wp_modify. set (s1 := _ <| sk_stat := _ |>).
  apply wp_bind. unfold free_thread_stack. apply wp_bind, wp_get_state. cbv zeta.
  change (stack_vm_area s1 tsk) with (stack_vm_area s tsk). set (f := at_place s). set (a := stack_vm_area s tsk) in *.
  change (f (Task tsk) <> NULL) in Ht. replace (a =? NULL) with false by (symmetry; by apply Z.eqb_neq). cbn [negb].
  apply wp_bind, wp_modify. set (s2 := s1 <| sk_charged := _ |>). apply wp_bind.
  assert (Hgone : forall g live s', ok_with (put g (Task tsk) NULL) live s' -> owned (put g (Task tsk) NULL) live ->
    stacks_ok s' /\ stack_vm_area s' tsk = NULL).
  { intros g live s' Hs' Ho'. split; [by eapply owned_state|]. destruct Hs' as [Hf' _]. rewrite (Hf' (Task tsk) : stack_vm_area s' tsk = _).
    unfold put. by rewrite decide_True. }
  apply (wp_cache cpu_at a _ f (sk_live s)); [by split | done | |].
  - intros s3 cpu i Hfree Hs3. apply wp_ret, (wp_set_stack _ _ _ _ _ _ Hs3). intros s4 Hs4 _. eapply Hgone; [exact Hs4|].
    eapply owned_ext; [|exact (owned_move f (sk_live s) (Task tsk) (Slot cpu i) Hok Ht Hfree)].
    intros l. unfold put. repeat case_decide; by subst.
  - intros s3 [Hf3 Hl3]. apply wp_modify. set (s4 := _ <| sk_clean := _ |>).
    apply (wp_set_stack tsk NULL f (sk_live s ∖ {[a]})); [split; [exact Hf3 | cbn; by rewrite Hl3]|]. intros s5 Hs5 _.
    eapply Hgone; [exact Hs5|]. exact (owned_take f (sk_live s) (Task tsk) Hok Ht).
Qed.

Lemma wp_free_cached cpu slots f live (Q : unit -> stack_state -> Prop) s :
  owned f live -> ok_with f live s ->
  (forall s' f' live', ok_with f' live' s' -> owned f' live' -> (forall t, f' (Task t) = f (Task t)) ->
     (forall i, i ∈ slots -> f' (Slot cpu i) = NULL) -> (forall i, f (Slot cpu i) = NULL -> f' (Slot cpu i) = NULL) -> Q tt s') ->
  wp (free_cached cpu slots) Q s.
Proof.
  revert f live s Q. induction slots as [|i slots IH]; intros f live s Q Ho Hs HQ; cbn.
  { apply wp_ret, (HQ s f live); [done | done | done | by intros i ?%elem_of_nil | done]. }
  apply wp_bind, wp_get_state. cbv zeta. rewrite (slot_at _ _ _ _ _ Hs). apply wp_bind.
  destruct (Z.eqb_spec (f (Slot cpu i)) NULL) as [E|E].
  - apply wp_ret, (IH f live); [done | done |]. intros s' f' live' Hs' Ho' Ht Hn Hk. apply (HQ s' f' live'); [done..| |done].
    intros j [->|Hj]%elem_of_cons; [by apply Hk | by apply Hn].
  - apply wp_bind, wp_modify. set (s1 := _ <| sk_clean := _ |>).
    apply (wp_set_slot cpu i NULL f (live ∖ {[f (Slot cpu i)]})); [destruct Hs as [Hf Hl]; split; [exact Hf | cbn; by rewrite Hl]|].
    intros s2 Hs2 _. eapply IH; [by apply owned_take | exact Hs2 |].
    assert (Hi : put f (Slot cpu i) NULL (Slot cpu i) = NULL) by (unfold put; by rewrite decide_True).
    intros s' f' live' Hs' Ho' Ht Hn Hk. apply (HQ s' f' live'); [done | done | | |].
    + intros t. rewrite Ht. unfold put. by rewrite decide_False.
    + intros j [->|Hj]%elem_of_cons; [by apply Hk | by apply Hn].
    + intros j Hj. apply Hk. unfold put. by case_decide.
Qed.

Lemma wp_free_cache cpu s : stacks_ok s ->
  wp (free_vm_stack_cache cpu) (fun r s' => r = 0 /\ stacks_ok s' /\ (forall i, i ∈ all_slots -> slot s' cpu i = NULL) /\
    forall t, stack_vm_area s' t = stack_vm_area s t) s.
Proof.
  intros Hok. unfold free_vm_stack_cache. apply wp_bind, (wp_free_cached cpu all_slots (at_place s) (sk_live s)); [done | by split |].
  intros s' f' live' Hs' Ho' Ht Hn _. apply wp_ret. split; [done|]. split; [by eapply owned_state|]. destruct (Hs') as [Hf' _]. split.
  - intros i Hi. rewrite (slot_at _ _ _ _ _ Hs'). by apply Hn.
  - intros t. rewrite (Hf' (Task t) : stack_vm_area s' t = _). apply Ht.
Qed.

(** ** All sequences of forks, exits and CPUs going away *)
Inductive stack_step (s : stack_state) : stack_state -> Prop :=
| task_made cpu_at tsk r s' : stack_vm_area s tsk = NULL -> alloc_thread_stack_node cpu_at tsk s = Ret r s' -> stack_step s s'
| task_gone cpu_at tsk s' : stack_vm_area s tsk <> NULL -> release_stack cpu_at tsk s = Ret tt s' -> stack_step s s'
| cpu_gone cpu r s' : free_vm_stack_cache cpu s = Ret r s' -> stack_step s s'
| stack_used a : stack_step s (s <| sk_clean := sk_clean s ∖ {[a]} |>).

Lemma stack_step_ok s s' : stack_step s s' -> stacks_ok s -> stacks_ok s'.
Proof.
  intros [cpu_at tsk r s1 Ht E|cpu_at tsk s1 Ht E|cpu r s1 E|a] Hok.
  - pose proof (wp_alloc_stack cpu_at tsk s Hok Ht) as Hw. unfold wp in Hw. rewrite E in Hw. apply Hw.
  - pose proof (wp_release cpu_at tsk s Hok Ht) as Hw. unfold wp in Hw. rewrite E in Hw. apply Hw.
  - pose proof (wp_free_cache cpu s Hok) as Hw. unfold wp in Hw. rewrite E in Hw. apply Hw.
  - exact Hok.
Qed.

(** C24: However tasks come and go, on whatever CPUs each access to the caches
    happens, every kernel stack is in exactly one place (a cache slot or a task)
    and is freed only then: no two tasks share a stack, no cached stack is in
    use, none is lost.  A new task gets a stack that nobody else has and whose
    contents are zero, or none; giving a stack back and emptying the cache of a
    CPU always succeed. *)
Theorem stack_cache_safe s0 s :
  stacks_ok s0 -> rtc stack_step s0 s ->
  (forall l1 l2, at_place s l1 = at_place s l2 -> at_place s l1 <> NULL -> l1 = l2) /\
  (forall a, a ∈ sk_live s <-> a <> NULL /\ exists l, at_place s l = a) /\
  (forall cpu_at tsk, stack_vm_area s tsk = NULL -> wp (alloc_thread_stack_node cpu_at tsk) (given tsk) s) /\
  (forall cpu_at tsk, stack_vm_area s tsk <> NULL ->
     wp (release_stack cpu_at tsk) (fun _ s' => stacks_ok s' /\ stack_vm_area s' tsk = NULL) s) /\
  (forall cpu, wp (free_vm_stack_cache cpu) (fun r s' => r = 0 /\ stacks_ok s' /\
     (forall i, i ∈ all_slots -> slot s' cpu i = NULL) /\ forall t, stack_vm_area s' t = stack_vm_area s t) s).
Proof.
  intros H0 Hs. assert (Hok : stacks_ok s) by (induction Hs as [|s1 s2 s3 Hs1 _ IH]; [done | by apply IH, (stack_step_ok s1)]).
  split_and!.
  - apply (ow_once _ _ Hok).
  - apply (ow_live _ _ Hok).
  - intros. by apply wp_alloc_stack.
  - intros. by apply wp_release.
  - intros. by apply wp_free_cache.
Qed.
End StackCache.

(** ** A run *)
Module StackDemo.
Definition top (s : stack_state) : Z := foldr Z.max 0 (elements (sk_live s)).

Definition stack_extern : StackExtern := {|
  vmalloc_stack s := Some (top s + 1); memcg_kmem_charge_page _ _ _ := true; THREAD_PAGES := 4; PAGE_KB := 4;
|}.

Lemma top_max (l : list Z) a : a ∈ l -> a <= foldr Z.max 0 l.
Proof. induction l as [|b l IH]; cbn; [by intros ?%elem_of_nil|]. intros [->|Ha]%elem_of_cons; [lia|]. specialize (IH Ha). lia. Qed.

Lemma top_pos (l : list Z) : 0 <= foldr Z.max 0 l.
Proof. induction l as [|b l IH]; cbn; lia. Qed.

#[export] Instance stack_extern_ok : StackExternOK stack_extern.
Proof.
  split. cbn. intros s a [= <-]. split; [pose proof (top_pos (elements (sk_live s))); unfold top, NULL; lia|].
  intros Hin. apply elem_of_elements, top_max in Hin. unfold top in Hin. lia.
Qed.

Definition none : stack_state := Mk_stacks ∅ ∅ ∅ ∅ ∅ 0.

Lemma none_ok : stacks_ok none.
Proof.
  split; [by intros [] []; cbn|]. intros a. split; [set_solver|]. intros [Ha [l Hl]]. by destruct l; cbn in Hl.
Qed.

#[local] Existing Instance stack_extern.

(** Task 7 is made on CPU 0. *)
Lemma stack_cache_safe_witness :
  exists s, rtc stack_step none s /\
  (forall l1 l2, at_place s l1 = at_place s l2 -> at_place s l1 <> NULL -> l1 = l2) /\
  (forall a, a ∈ sk_live s <-> a <> NULL /\ exists l, at_place s l = a) /\
  (forall cpu_at tsk, stack_vm_area s tsk = NULL -> wp (alloc_thread_stack_node cpu_at tsk) (given tsk) s) /\
  (forall cpu_at tsk, stack_vm_area s tsk <> NULL ->
     wp (release_stack cpu_at tsk) (fun _ s' => stacks_ok s' /\ stack_vm_area s' tsk = NULL) s) /\
  (forall cpu, wp (free_vm_stack_cache cpu) (fun r s' => r = 0 /\ stacks_ok s' /\
     (forall i, i ∈ all_slots -> slot s' cpu i = NULL) /\ forall t, stack_vm_area s' t = stack_vm_area s t) s).
Proof.
  pose proof (wp_alloc_stack (fun _ => 0) 7 none none_ok eq_refl) as Hw. apply wp_run in Hw as (r & s & E & _).
  assert (Hr : rtc stack_step none s) by (apply rtc_once; by eapply (task_made _ (fun _ => 0) 7)).
  exists s. split; [exact Hr|]. exact (stack_cache_safe none s none_ok Hr).
Defined.

(** A stack given back on CPU 0 is given to the next task there. *)
Lemma stack_reused :
  exists s1 s2 s3, alloc_thread_stack_node (fun _ => 0) 7 none = Ret 1 s1 /\ release_stack (fun _ => 0) 7 s1 = Ret tt s2 /\
    alloc_thread_stack_node (fun _ => 0) 8 s2 = Ret 1 s3.
Proof. do 3 eexists. split_and!; vm_compute; reflexivity. Qed.
End StackDemo.
