(* ===== verification/DupMmap.v ===== *)
(** The duplication of an address space at fork (fork.c: dup_mmap() and the
    executable-file operations around it): the list of VMAs with its links, the
    references to files, policies and accounted memory, and the error path.

    The page tables, the reverse mapping, userfaultfd, KSM and the security
    module are parameters: each is asked whether it succeeds. *)
From S2P Require Import Prelude Headers.

Record vm_area : Type := Mk_vma {
  vm_start : Z; vm_end : Z; vm_flags : Z; vm_file : Z; vm_mm : Z; vm_anon : Z;
  vm_next : Z; vm_prev : Z; vm_policy : Z;
}.
#[export] Instance eta_vma : Eta vm_area := fun v =>
  Mk_vma (vm_start v) (vm_end v) (vm_flags v) (vm_file v) (vm_mm v) (vm_anon v) (vm_next v) (vm_prev v) (vm_policy v).

(** The part of struct mm_struct that describes the mappings; the tree is its
    nodes in order. *)
Record mm_maps : Type := Mk_maps {
  mp_mmap : Z; mp_rb : list Z; mp_map_count : Z;
  mp_total_vm : Z; mp_data_vm : Z; mp_exec_vm : Z; mp_stack_vm : Z;
  mp_exe_file : Z;
}.
#[export] Instance eta_maps : Eta mm_maps := fun x =>
  Mk_maps (mp_mmap x) (mp_rb x) (mp_map_count x) (mp_total_vm x) (mp_data_vm x) (mp_exec_vm x) (mp_stack_vm x) (mp_exe_file x).

(** A file with its inode and mapping; [f_denied]: how often write access is
    denied. *)
Record mfile : Type := Mk_mfile { f_count : Z; f_denied : Z; f_path : Z; f_i_mmap : list Z; f_writable : Z }.
#[export] Instance eta_mfile : Eta mfile := fun f =>
  Mk_mfile (f_count f) (f_denied f) (f_path f) (f_i_mmap f) (f_writable f).

Record mpolicy : Type := Mk_mpol { pol_refs : Z }.

Record mm_world : Type := Mk_world {
  w_vmas : gmap Z vm_area;
  w_maps : gmap Z mm_maps;
  w_files : gmap Z mfile;
  w_pols : gmap Z mpolicy;
  w_committed : Z;               (* vm_committed_as *)
  w_log : list (string * list Z);
}.
#[export] Instance eta_world : Eta mm_world := fun w =>
  Mk_world (w_vmas w) (w_maps w) (w_files w) (w_pols w) (w_committed w) (w_log w).

#[export] Program Instance vma_store : Store mm_world vm_area :=
  {| store := w_vmas; set_store x w := w <| w_vmas := x |> |}.
Next Obligation. done. Qed.
#[export] Program Instance maps_store : Store mm_world mm_maps :=
  {| store := w_maps; set_store x w := w <| w_maps := x |> |}.
Next Obligation. done. Qed.
#[export] Program Instance mfile_store : Store mm_world mfile :=
  {| store := w_files; set_store x w := w <| w_files := x |> |}.
Next Obligation. done. Qed.
#[export] Program Instance pol_store : Store mm_world mpolicy :=
  {| store := w_pols; set_store x w := w <| w_pols := x |> |}.
Next Obligation. done. Qed.

Abbreviation KW := (M mm_world).

Class MmapExtern := {
  VM_DONTCOPY : Z; VM_ACCOUNT : Z; VM_WIPEONFORK : Z; VM_LOCKED : Z; VM_LOCKONFAULT : Z; VM_SHARED : Z;
  mmap_write_lock_killable : mm_world -> Z -> bool;       (* true: interrupted *)
  ksm_fork : mm_world -> Z -> option errno;
  khugepaged_fork : mm_world -> Z -> option errno;
  fatal_signal_pending : mm_world -> bool;
  security_vm_enough_memory : mm_world -> Z -> bool;
  vma_alloc : mm_world -> option Z;                        (* the slab cache *)
  mpol_dup : mm_world -> Z -> option Z;                    (* the copy of the VMA's policy, NULL for none *)
  dup_userfaultfd : mm_world -> Z -> option errno;
  anon_vma_fork : mm_world -> Z -> Z -> option Z;          (* the child's anon_vma *)
  copy_page_range : mm_world -> Z -> Z -> option errno;
  arch_dup_mmap : mm_world -> Z -> option errno;
  deny_write_access : mm_world -> Z -> bool;               (* true: refused *)
  get_file_rcu : mm_world -> Z -> bool;
  vma_interval_tree_insert_after : Z -> Z -> list Z -> list Z;
  vm_stat_account : mm_maps -> Z -> Z -> mm_maps;
  is_vm_hugetlb_page : Z -> bool;
  vm_ops_open : Z -> bool;                                 (* the VMA has an open() *)
}.

Section DupMmap.
Context {MX : MmapExtern}.

Definition wemit (name : string) (args : list Z) : KW unit := modify (fun w => w <| w_log := w_log w ++ [(name, args)] |>).

Definition PAGE_SHIFT : Z := 12.
Definition vma_pages (v : vm_area) : Z := Z.shiftr (vm_end v - vm_start v) PAGE_SHIFT.

Definition get_file (f : Z) : KW unit := upd! f ⇝ f_count := (fun n => n + 1).
Definition fput (f : Z) : KW unit := upd! f ⇝ f_count := (fun n => n - 1).
Definition allow_write_access (f : Z) : KW unit := upd! f ⇝ f_denied := (fun n => n - 1).
Definition vm_unacct_memory (pages : Z) : KW unit := modify (fun w => w <| w_committed := w_committed w - pages |>).

(** * The executable file *)
Definition deny_write (f : Z) : KW bool :=
  refused ← gets (fun w => deny_write_access w f);
  when (negb refused) (upd! f ⇝ f_denied := (fun n => n + 1)) ;;
  mret refused.

Definition get_mm_exe_file (mm : Z) : KW Z :=
  exe_file ← mm ⇝ mp_exe_file;
  if exe_file =? NULL then mret NULL
  else
    ok ← gets (fun w => get_file_rcu w exe_file);
    if (ok : bool) then get_file exe_file ;; mret exe_file else mret NULL.

(** [mm] and [flags] are the task's. *)
Definition get_task_exe_file (mm flags : Z) : KW Z :=
  if mm =? NULL then mret NULL
  else if has_flag flags PF_KTHREAD then mret NULL
  else get_mm_exe_file mm.

Definition dup_mm_exe_file (mm oldmm : Z) : KW unit :=
  exe_file ← get_mm_exe_file oldmm;
  set! mm ⇝ mp_exe_file := exe_file ;;
  if exe_file =? NULL then mret tt
  else
    refused ← deny_write exe_file;
    when refused (wemit "pr_warn_once deny_write_access() failed" [exe_file]).

Definition set_mm_exe_file (mm new_exe_file : Z) : KW (cres unit) :=
  old_exe_file ← mm ⇝ mp_exe_file;
  refused ← (if new_exe_file =? NULL then mret false
             else
               refused ← deny_write new_exe_file;
               when (negb refused) (get_file new_exe_file) ;;
               mret refused);
  if (refused : bool) then mret (Err EACCES)
  else
    set! mm ⇝ mp_exe_file := new_exe_file ;;
    when (negb (old_exe_file =? NULL)) (allow_write_access old_exe_file ;; fput old_exe_file) ;;
    mret (Ok tt).

(** The VMAs from [vma] on: does one map the path? *)
Fixpoint maps_path (fuel : nat) (vma path : Z) : KW bool :=
  if vma =? NULL then mret false
  else
    match fuel with
    | O => stuck NOFUEL
    | S fuel =>
        v ← deref (R := vm_area) vma;
        if vm_file v =? NULL then maps_path fuel (vm_next v) path
        else
          p ← (vm_file v) ⇝ f_path;
          if p =? path then mret true else maps_path fuel (vm_next v) path
    end.

Definition vma_fuel (w : mm_world) : nat := size (w_vmas w).

Definition replace_mm_exe_file (mm new_exe_file : Z) : KW (cres unit) :=
  old_exe_file ← get_mm_exe_file mm;
  mapped ← (if old_exe_file =? NULL then mret false
            else
              path ← old_exe_file ⇝ f_path;
              first ← mm ⇝ mp_mmap;
              fuel ← gets vma_fuel;
              b ← maps_path fuel first path;
              fput old_exe_file ;;
              mret b);
  if (mapped : bool) then mret (Err EBUSY)
  else
    refused ← deny_write new_exe_file;
    if (refused : bool) then mret (Err EACCES)
    else
      get_file new_exe_file ;;
      old_exe_file ← mm ⇝ mp_exe_file;
      set! mm ⇝ mp_exe_file := new_exe_file ;;
      when (negb (old_exe_file =? NULL)) (allow_write_access old_exe_file ;; fput old_exe_file) ;;
      mret (Ok tt).

(** * VMAs *)
Definition vm_area_dup (orig : Z) : KW Z :=
  a ← gets vma_alloc;
  match a with
  | None => mret NULL
  | Some new =>
      v ← deref (R := vm_area) orig;
      modify (fun w => w <| w_vmas := <[new := v <| vm_next := NULL |> <| vm_prev := NULL |>]> (w_vmas w) |>) ;;
      mret new
  end.

Definition vm_area_free (vma : Z) : KW unit := modify (fun w => w <| w_vmas := delete vma (w_vmas w) |>).

(** vma_dup_policy(): the new VMA gets its own copy of the policy; false when
    it cannot be made. *)
Definition vma_dup_policy (src dst : Z) : KW bool :=
  p ← gets (fun w => mpol_dup w src);
  match p with
  | None => mret false
  | Some pol =>
      when (negb (pol =? NULL)) (modify (fun w => w <| w_pols := <[pol := Mk_mpol 1]> (w_pols w) |>)) ;;
      set! dst ⇝ vm_policy := pol ;;
      mret true
  end.

(** mpol_put(): the last reference frees the policy. *)
Definition mpol_put (pol : Z) : KW unit :=
  if pol =? NULL then mret tt
  else
    p ← deref (R := mpolicy) pol;
    if pol_refs p =? 1 then modify (fun w => w <| w_pols := delete pol (w_pols w) |>)
    else upd_obj pol (fun p => Mk_mpol (pol_refs p - 1)).

(** * dup_mmap() *)
Definition vm_add (mm n : Z) : KW unit := upd! mm ⇝ mp_map_count := (fun c => c + n).

(** [*pprev = tmp]: pprev is [&mm->mmap] or [&prev->vm_next]. *)
Definition link_next (mm prev tmp : Z) : KW unit :=
  if prev =? NULL then set! mm ⇝ mp_mmap := tmp else set! prev ⇝ vm_next := tmp.

(** The new VMA enters the mapping of its file. *)
Definition dup_file (tmp mpnt : Z) : KW unit :=
  v ← deref (R := vm_area) tmp;
  let file := vm_file v in
  when (negb (file =? NULL))
    (get_file file ;;
     when (has_flag (vm_flags v) VM_SHARED) (upd! file ⇝ f_writable := (fun n => n + 1)) ;;
     upd! file ⇝ f_i_mmap := vma_interval_tree_insert_after tmp mpnt).

(** The end of a round: link the new VMA and copy the page tables. *)
Definition link_vma (mm mpnt tmp prev : Z) : KW (option errno) :=
  when (is_vm_hugetlb_page tmp) (wemit "reset_vma_resv_huge_pages" [tmp]) ;;
  link_next mm prev tmp ;;
  set! tmp ⇝ vm_prev := prev ;;
  upd! mm ⇝ mp_rb := (fun l => l ++ [tmp]) ;;
  vm_add mm 1 ;;
  v ← deref (R := vm_area) tmp;
  retval ← (if has_flag (vm_flags v) VM_WIPEONFORK then mret None else gets (fun w => copy_page_range w tmp mpnt));
  when (vm_ops_open tmp) (wemit "vm_ops->open" [tmp]) ;;
  mret retval.

(** fail_nomem_anon_vma_fork, fail_nomem_policy, fail_nomem *)
Definition fail_nomem (charge : Z) : KW (cres Z) := vm_unacct_memory charge ;; mret (Err ENOMEM).
Definition fail_nomem_policy (tmp charge : Z) : KW (cres Z) := vm_area_free tmp ;; fail_nomem charge.
Definition fail_nomem_anon_vma_fork (tmp charge : Z) : KW (cres Z) :=
  pol ← tmp ⇝ vm_policy;
  mpol_put pol ;;
  fail_nomem_policy tmp charge.

(** The anonymous mapping of the child's VMA; false when it cannot be made. *)
Definition dup_anon (tmp mpnt : Z) : KW bool :=
  v ← deref (R := vm_area) tmp;
  if has_flag (vm_flags v) VM_WIPEONFORK then set! tmp ⇝ vm_anon := NULL ;; mret true
  else
    a ← gets (fun w => anon_vma_fork w tmp mpnt);
    match a with
    | None => mret false
    | Some anon => set! tmp ⇝ vm_anon := anon ;; mret true
    end.

(** One VMA of the parent that is copied; the new one, or the error. *)
Definition dup_vma (mm mpnt prev : Z) : KW (cres Z) :=
  fatal ← gets fatal_signal_pending;
  if (fatal : bool) then mret (Err EINTR)
  else
    v ← deref (R := vm_area) mpnt;
    let len := vma_pages v in
    enough ← (if has_flag (vm_flags v) VM_ACCOUNT then gets (fun w => security_vm_enough_memory w len) else mret true);
    if negb enough then fail_nomem 0
    else
      let charge := if has_flag (vm_flags v) VM_ACCOUNT then len else 0 in
      modify (fun w => w <| w_committed := w_committed w + charge |>) ;;
      tmp ← vm_area_dup mpnt;
      if tmp =? NULL then fail_nomem charge
      else
        ok ← vma_dup_policy mpnt tmp;
        if negb ok then fail_nomem_policy tmp charge
        else
          set! tmp ⇝ vm_mm := mm ;;
          e ← gets (fun w => dup_userfaultfd w tmp);
          match e with
          | Some _ => fail_nomem_anon_vma_fork tmp charge
          | None =>
              ok ← dup_anon tmp mpnt;
              if negb ok then fail_nomem_anon_vma_fork tmp charge
              else
                upd! tmp ⇝ vm_flags := (fun f => Z.ldiff f (Z.lor VM_LOCKED VM_LOCKONFAULT)) ;;
                dup_file tmp mpnt ;;
                retval ← link_vma mm mpnt tmp prev;
                mret (match retval with Some e => Err e | None => Ok tmp end)
          end.

Fixpoint dup_loop (fuel : nat) (mm mpnt prev : Z) : KW (cres unit) :=
  if mpnt =? NULL then mret (Ok tt)
  else
    match fuel with
    | O => stuck NOFUEL
    | S fuel =>
        v ← deref (R := vm_area) mpnt;
        if has_flag (vm_flags v) VM_DONTCOPY then
          upd_obj mm (fun x => vm_stat_account x (vm_flags v) (- vma_pages v)) ;;
          dup_loop fuel mm (vm_next v) prev
        else
          r ← dup_vma mm mpnt prev;
          match r with
          | Err e => mret (Err e)
          | Ok tmp =>
              v ← deref (R := vm_area) mpnt;
              dup_loop fuel mm (vm_next v) tmp
          end
    end.

Definition copy_stats (mm oldmm : Z) : KW unit :=
  o ← deref (R := mm_maps) oldmm;
  upd_obj mm (fun x => Mk_maps (mp_mmap x) (mp_rb x) (mp_map_count x) (mp_total_vm o) (mp_data_vm o) (mp_exec_vm o)
                         (mp_stack_vm o) (mp_exe_file x)).

Definition dup_mmap (mm oldmm : Z) : KW (cres unit) :=
  wemit "uprobe_start_dup_mmap" [] ;;
  killed ← gets (fun w => mmap_write_lock_killable w oldmm);
  if (killed : bool) then wemit "uprobe_end_dup_mmap" [] ;; mret (Err EINTR)
  else
    wemit "uprobe_dup_mmap" [oldmm; mm] ;;
    dup_mm_exe_file mm oldmm ;;
    copy_stats mm oldmm ;;
    e ← gets (fun w => ksm_fork w mm);
    retval ← (match e with
     | Some e => mret (Err e)
     | None =>
         e ← gets (fun w => khugepaged_fork w mm);
         match e with
         | Some e => mret (Err e)
         | None =>
             first ← oldmm ⇝ mp_mmap;
             fuel ← gets vma_fuel;
             r ← dup_loop fuel mm first NULL;
             match r with
             | Err e => mret (Err e)
             | Ok _ =>
                 e ← gets (fun w => arch_dup_mmap w mm);
                 mret (match e with Some e => Err e | None => Ok tt end)
             end
         end
     end);
    wemit "flush_tlb_mm" [oldmm] ;;
    wemit "dup_userfaultfd_complete" [] ;;
    wemit "uprobe_end_dup_mmap" [] ;;
    mret retval.
End DupMmap.
