(* ===== verification/DupMmapProofs.v ===== *)
(** Correctness of dup_mmap(): the child gets, in order, a linked copy of every
    VMA of the parent that is to be copied, with one reference to each file and
    policy and its memory accounted; on an error it has a prefix of them and
    nothing of the VMA that failed is left; the parent is unchanged. *)
From S2P Require Import Prelude Headers DupMmap.

(** ** Lists of VMAs *)

(** The VMAs [cs] as a doubly linked list. *)
Definition head_of (cs : list (Z * vm_area)) : Z := match cs with [] => NULL | (a, _) :: _ => a end.
Fixpoint last_from (d : Z) (cs : list (Z * vm_area)) : Z := match cs with [] => d | (a, _) :: cs' => last_from a cs' end.

Definition link (prev next : Z) (v : vm_area) : vm_area := v <| vm_next := next |> <| vm_prev := prev |>.

Fixpoint linked (prev : Z) (cs : list (Z * vm_area)) : gmap Z vm_area :=
  match cs with
  | [] => ∅
  | (a, v) :: cs' => <[a := link prev (head_of cs') v]> (linked a cs')
  end.

(** [l] are the VMAs from [p] on, along vm_next. *)
Fixpoint chain (V : gmap Z vm_area) (p : Z) (l : list (Z * vm_area)) : Prop :=
  match l with
  | [] => p = NULL
  | (a, v) :: l' => p = a /\ a <> NULL /\ V !! a = Some v /\ chain V (vm_next v) l'
  end.

Lemma linked_none prev cs a : a ∉ cs.*1 -> linked prev cs !! a = None.
Proof.
  revert prev. induction cs as [|[b v] cs IH]; intros prev Ha; cbn; [done|]. cbn in Ha. apply not_elem_of_cons in Ha as [Hn Ha].
  rewrite lookup_insert_ne by done. by apply IH.
Qed.

Lemma linked_some prev cs a : a ∈ cs.*1 -> is_Some (linked prev cs !! a).
Proof.
  revert prev. induction cs as [|[b v] cs IH]; intros prev Ha; cbn in *; [by apply elem_of_nil in Ha|].
  apply lookup_insert_is_Some'. apply elem_of_cons in Ha as [->|Ha]; [by left | right; by apply IH].
Qed.

Lemma last_from_snoc d cs t v : last_from d (cs ++ [(t, v)]) = t.
Proof. revert d. induction cs as [|[a w] cs IH]; intros d; cbn; [done | apply IH]. Qed.

Lemma last_from_in d cs : last_from d cs = d /\ cs = [] \/ last_from d cs ∈ cs.*1.
Proof.
  revert d. induction cs as [|[a w] cs IH]; intros d; cbn; [by left|]. right. destruct (IH a) as [[-> _]|Hin]; [apply list_elem_of_here|].
  by apply list_elem_of_further.
Qed.

Lemma head_of_snoc cs t v : head_of (cs ++ [(t, v)]) = match cs with [] => t | _ => head_of cs end.
Proof. by destruct cs as [|[a w] cs]. Qed.

(** Linking a new VMA at the end: the last one points to it. *)
Lemma linked_snoc prev cs t v : NoDup (cs.*1 ++ [t]) ->
  linked prev (cs ++ [(t, v)]) =
  <[t := link (last_from prev cs) NULL v]> (alter (fun x => x <| vm_next := t |>) (last_from prev cs) (linked prev cs)).
Proof.
  revert prev. induction cs as [|[a w] cs IH]; intros prev Hnd; [done|]. cbn [app linked fmap list_fmap fst last_from] in *.
  apply list.NoDup_cons in Hnd as [Ha Hnd]. assert (Hat : a <> t) by (intros ->; apply Ha; set_solver).
  rewrite IH by done. rewrite head_of_snoc. rewrite insert_insert_ne by done. f_equal.
  destruct (last_from_in a cs) as [[El Ec]|Hin].
  - subst cs. cbn. by rewrite alter_insert_eq.
  - assert (last_from a cs <> a) by (intros E; rewrite E in Hin; apply Ha; set_solver).
    rewrite alter_insert_ne by done. destruct cs; [by apply elem_of_nil in Hin | done].
Qed.

(** ** What the copies account for *)
Section Counts.
Context {MX : MmapExtern}.

(** The VMAs of [cs] that map the file [f], and those that share it. *)
Definition users (f : Z) (cs : list (Z * vm_area)) : list Z := (List.filter (fun x => vm_file x.2 =? f) cs).*1.
Definition sharers (f : Z) (cs : list (Z * vm_area)) : Z :=
  Z.of_nat (length (List.filter (fun x => (vm_file x.2 =? f) && has_flag (vm_flags x.2) VM_SHARED)%bool cs)).

Definition charge_of (v : vm_area) : Z := if has_flag (vm_flags v) VM_ACCOUNT then vma_pages v else 0.
Definition charged (ps : list (Z * vm_area)) : Z := foldr (fun x n => charge_of x.2 + n) 0 ps.

(** The policies of the copies on top of [P]. *)
Definition add_policy (P : gmap Z mpolicy) (x : Z * vm_area) : gmap Z mpolicy :=
  if vm_policy x.2 =? NULL then P else <[vm_policy x.2 := Mk_mpol 1]> P.
Definition policies (P : gmap Z mpolicy) (cs : list (Z * vm_area)) : gmap Z mpolicy := foldl add_policy P cs.

Record file_used (f : Z) (cs : list (Z * vm_area)) (y0 y : mfile) : Prop := Mk_file_used {
  fu_count : f_count y = f_count y0 + Z.of_nat (length (users f cs));
  fu_mapped : f_i_mmap y ≡ₚ users f cs ++ f_i_mmap y0;
  fu_writable : f_writable y = f_writable y0 + sharers f cs;
  fu_same : f_denied y = f_denied y0 /\ f_path y = f_path y0;
}.

Definition files_used (cs : list (Z * vm_area)) (F0 F : gmap Z mfile) : Prop :=
  forall f, match F0 !! f with None => F !! f = None | Some y0 => exists y, F !! f = Some y /\ file_used f cs y0 y end.

(** [c] is the copy of [p] in the address space [mm]. *)
Record copy_of (mm : Z) (p c : Z * vm_area) : Prop := Mk_copy {
  co_range : vm_start c.2 = vm_start p.2 /\ vm_end c.2 = vm_end p.2;
  co_file : vm_file c.2 = vm_file p.2;
  co_flags : vm_flags c.2 = Z.ldiff (vm_flags p.2) (Z.lor VM_LOCKED VM_LOCKONFAULT);
  co_mm : vm_mm c.2 = mm;
  co_wipe : has_flag (vm_flags p.2) VM_WIPEONFORK = true -> vm_anon c.2 = NULL;
}.

Lemma users_snoc f cs t v : users f (cs ++ [(t, v)]) = users f cs ++ (if vm_file v =? f then [t] else []).
Proof. unfold users. rewrite filter_app, fmap_app. cbn. by destruct (vm_file v =? f). Qed.

Lemma sharers_snoc f cs t v :
  sharers f (cs ++ [(t, v)]) = sharers f cs + b2z ((vm_file v =? f) && has_flag (vm_flags v) VM_SHARED).
Proof. unfold sharers. rewrite filter_app, length_app. cbn. destruct (_ && _)%bool; cbn; lia. Qed.

Lemma charged_snoc ps p : charged (ps ++ [p]) = charged ps + charge_of p.2.
Proof. unfold charged. induction ps as [|q ps IH]; cbn in *; [lia|]. rewrite IH. lia. Qed.

Lemma files_used_nil F : files_used [] F F.
Proof. intros f. destruct (F !! f) as [y|]; [|done]. exists y. split; [done|]. split; unfold sharers; cbn; try lia; done. Qed.
End Counts.

(** ** What the parameters promise *)
Class MmapExternOK (MX : MmapExtern) : Prop := {
  vma_alloc_fresh w a : vma_alloc w = Some a -> a <> NULL /\ w_vmas w !! a = None;
  mpol_dup_fresh w v p : mpol_dup w v = Some p -> p <> NULL -> w_pols w !! p = None;
  interval_insert t p l : vma_interval_tree_insert_after t p l ≡ₚ t :: l;
  stat_account_keeps x f n : (mp_mmap (vm_stat_account x f n), mp_rb (vm_stat_account x f n), mp_map_count (vm_stat_account x f n),
    mp_exe_file (vm_stat_account x f n)) = (mp_mmap x, mp_rb x, mp_map_count x, mp_exe_file x);
}.

Section Dup.
Context {MX : MmapExtern} {MOK : MmapExternOK MX}.

(** [b] is the state in which the loop starts; [ps] the VMAs copied so far. *)
Context (b : mm_world) (mm : Z).

Record dup_inv (ps cs : list (Z * vm_area)) (w : mm_world) : Prop := Mk_dup_inv {
  di_vmas : w_vmas w = linked NULL cs ∪ w_vmas b;
  di_nodup : NoDup cs.*1;
  di_fresh a : a ∈ cs.*1 -> a <> NULL /\ w_vmas b !! a = None;
  di_mm : exists x x0, w_maps w !! mm = Some x /\ w_maps b !! mm = Some x0 /\
    mp_mmap x = head_of cs /\ mp_rb x = cs.*1 /\ mp_map_count x = Z.of_nat (length cs) /\ mp_exe_file x = mp_exe_file x0;
  di_maps i : i <> mm -> w_maps w !! i = w_maps b !! i;
  di_files : files_used cs (w_files b) (w_files w);
  di_pols : w_pols w = policies (w_pols b) cs;
  di_committed : w_committed w = w_committed b + charged ps;
  di_copies : Forall2 (copy_of mm) ps cs;
}.

(** A new VMA that is not linked yet. *)
Definition with_tmp (t : Z) (v : vm_area) (w : mm_world) : mm_world := w <| w_vmas := <[t := v]> (w_vmas w) |>.

Lemma wp_tmp_upd t v g (Q : unit -> mm_world -> Prop) w : Q tt (with_tmp t (g v) w) -> wp (upd_obj t g) Q (with_tmp t v w).
Proof.
  intros HQ. apply wp_upd_obj. exists v. split; [apply lookup_insert_eq|]. unfold with_tmp in *. cbn. by rewrite insert_insert_eq.
Qed.

Lemma wp_tmp_deref t v (Q : vm_area -> mm_world -> Prop) w :
  Q v (with_tmp t v w) -> wp (deref (R := vm_area) t) Q (with_tmp t v w).
Proof. intros HQ. apply wp_deref. exists v. split; [apply lookup_insert_eq | done]. Qed.

Lemma tmp_free t v w : w_vmas w !! t = None -> (with_tmp t v w) <| w_vmas := delete t (w_vmas (with_tmp t v w)) |> = w.
Proof. intros Ht. destruct w. unfold with_tmp. cbn in *. by rewrite delete_insert_id. Qed.

Definition with_charge (c : Z) (w : mm_world) : mm_world := w <| w_committed := w_committed w + c |>.

Definition with_policy (p : Z) (w : mm_world) : mm_world :=
  if p =? NULL then w else w <| w_pols := <[p := Mk_mpol 1]> (w_pols w) |>.

Lemma wp_fail_nomem c (Q : cres Z -> mm_world -> Prop) w : Q (Err ENOMEM) w -> wp (fail_nomem c) Q (with_charge c w).
Proof.
  intros HQ. unfold fail_nomem, vm_unacct_memory. apply wp_bind, wp_modify, wp_ret. unfold with_charge. cbn.
  replace (w_committed w + c - c) with (w_committed w) by lia. by destruct w.
Qed.

Lemma wp_fail_policy t v c (Q : cres Z -> mm_world -> Prop) w :
  w_vmas w !! t = None -> Q (Err ENOMEM) w -> wp (fail_nomem_policy t c) Q (with_tmp t v (with_charge c w)).
Proof.
  intros Ht HQ. unfold fail_nomem_policy, vm_area_free. apply wp_bind, wp_modify. rewrite tmp_free by done. by apply wp_fail_nomem.
Qed.

Lemma wp_fail_anon t v c (Q : cres Z -> mm_world -> Prop) w :
  w_vmas w !! t = None -> (vm_policy v <> NULL -> w_pols w !! vm_policy v = None) -> Q (Err ENOMEM) w ->
  wp (fail_nomem_anon_vma_fork t c) Q (with_tmp t v (with_policy (vm_policy v) (with_charge c w))).
Proof.
  intros Ht Hp HQ. unfold fail_nomem_anon_vma_fork, mpol_put, with_policy. apply wp_bind, wp_bind, wp_tmp_deref, wp_ret, wp_bind.
  destruct (Z.eqb_spec (vm_policy v) NULL) as [E|E]; [apply wp_ret; by apply wp_fail_policy|].
  apply wp_bind, wp_deref. exists (Mk_mpol 1). split; [apply lookup_insert_eq|]. cbn [pol_refs Z.eqb Pos.eqb]. apply wp_modify.
  match goal with |- wp _ _ ?s => replace s with (with_tmp t v (with_charge c w)); [by apply wp_fail_policy|] end.
  destruct w. unfold with_tmp, with_charge. cbn in *. by rewrite delete_insert_id by auto.
Qed.

(** ** Files *)
Context (Hnull : w_files b !! NULL = None).

Definition use_file (t mpnt : Z) (v : vm_area) (y : mfile) : mfile :=
  Mk_mfile (f_count y + 1) (f_denied y) (f_path y) (vma_interval_tree_insert_after t mpnt (f_i_mmap y))
    (f_writable y + b2z (has_flag (vm_flags v) VM_SHARED)).

Definition with_file (t mpnt : Z) (v : vm_area) (w : mm_world) : mm_world :=
  w <| w_files := alter (use_file t mpnt v) (vm_file v) (w_files w) |>.

Lemma wp_dup_file t mpnt v (Q : unit -> mm_world -> Prop) w :
  (vm_file v <> NULL -> is_Some (w_files w !! vm_file v)) -> (vm_file v = NULL -> w_files w !! NULL = None) ->
  Q tt (with_tmp t v (with_file t mpnt v w)) -> wp (dup_file t mpnt) Q (with_tmp t v w).
Proof.
  intros Hf Hn HQ. unfold dup_file. apply wp_bind, wp_tmp_deref. cbv zeta. unfold when at 1. unfold with_file in HQ.
  destruct (Z.eqb_spec (vm_file v) NULL) as [E|E]; cbn [negb].
  - apply wp_ret. rewrite E in HQ. destruct w. cbn in *. by rewrite alter_id' in HQ by auto.
  - destruct (Hf E) as [y Hy]. unfold get_file. apply wp_bind, wp_upd_obj. exists y. split; [exact Hy|]. apply wp_bind.
    assert (Ea : alter (use_file t mpnt v) (vm_file v) (w_files w) = <[vm_file v := use_file t mpnt v y]> (w_files w)).
    { apply map_eq. intros i. destruct (decide (i = vm_file v)) as [->|Hi].
      - by rewrite lookup_alter_eq, lookup_insert_eq, Hy.
      - by rewrite lookup_alter_ne, lookup_insert_ne by done. }
    rewrite Ea in HQ. unfold when. destruct (has_flag (vm_flags v) VM_SHARED) eqn:Es.
    + apply wp_upd_obj. eexists. split; [apply lookup_insert_eq|]. apply wp_upd_obj. eexists. split; [apply lookup_insert_eq|].
      cbn. rewrite !insert_insert_eq. revert HQ. unfold with_tmp, use_file. cbn. by rewrite Es.
    + apply wp_ret, wp_upd_obj. eexists. split; [apply lookup_insert_eq|]. cbn. rewrite !insert_insert_eq.
      revert HQ. unfold with_tmp, use_file. cbn. rewrite Es. cbn [b2z]. by rewrite Z.add_0_r.
Qed.

Lemma files_used_add cs t mpnt v F : files_used cs (w_files b) F ->
  files_used (cs ++ [(t, v)]) (w_files b) (alter (use_file t mpnt v) (vm_file v) F).
Proof.
  intros HF f. specialize (HF f). destruct (w_files b !! f) as [y0|] eqn:E0.
  - destruct HF as (y & Hy & [C1 C2 C3 C4]). destruct (Z.eqb_spec (vm_file v) f) as [E|E].
    + subst f. rewrite lookup_alter_eq, Hy. eexists. split; [done|]. split.
      * rewrite users_snoc, Z.eqb_refl, length_app. cbn. lia.
      * rewrite users_snoc, Z.eqb_refl. cbn. rewrite interval_insert, C2. by rewrite <- app_assoc, Permutation_middle.
      * rewrite sharers_snoc, Z.eqb_refl. cbn. lia.
      * done.
    + rewrite lookup_alter_ne by done. exists y. split; [done|]. apply Z.eqb_neq in E.
      split; rewrite ?users_snoc, ?sharers_snoc, ?E; cbn; rewrite ?app_nil_r, ?Z.add_0_r; try done; apply C4.
  - destruct (decide (vm_file v = f)) as [->|E]; [by rewrite lookup_alter_eq, HF | by rewrite lookup_alter_ne].
Qed.

(** ** Linking *)
Lemma linked_tmp cs t v prev : NoDup (cs.*1 ++ [t]) -> w_vmas b !! t = None -> prev = last_from NULL cs -> vm_next v = NULL ->
  linked NULL (cs ++ [(t, v)]) ∪ w_vmas b =
  <[t := v <| vm_prev := prev |>]> (alter (fun x => x <| vm_next := t |>) prev (linked NULL cs) ∪ w_vmas b).
Proof.
  intros Hnd Ht -> Hn. rewrite linked_snoc by done. rewrite insert_union_l. f_equal. unfold link. destruct v. cbn in *. by subst.
Qed.

Lemma wp_link_next cs t v (Q : unit -> mm_world -> Prop) w x :
  NoDup cs.*1 -> (forall a, a ∈ cs.*1 -> a <> NULL) -> t ∉ cs.*1 ->
  w_vmas w = linked NULL cs ∪ w_vmas b -> w_maps w !! mm = Some x -> mp_mmap x = head_of cs ->
  (forall w' x', w' = w <| w_vmas := <[t := v]> (alter (fun x => x <| vm_next := t |>) (last_from NULL cs) (linked NULL cs) ∪ w_vmas b) |>
       <| w_maps := <[mm := x']> (w_maps w) |> -> x' = x <| mp_mmap := head_of (cs ++ [(t, v)]) |> -> Q tt w') ->
  wp (link_next mm (last_from NULL cs) t) Q (with_tmp t v w).
Proof.
  intros Hnd Hnz Ht EV Hx Hh HQ. unfold link_next. destruct (last_from_in NULL cs) as [[-> ->]|Hin].
  - cbn [Z.eqb NULL]. apply wp_wr. exists x. split; [exact Hx|]. eapply HQ; [|done]. cbn. unfold with_tmp. rewrite EV. cbn. done.
  - pose proof (Hnz _ Hin) as Hz. apply Z.eqb_neq in Hz. rewrite Hz.
    assert (Hne : last_from NULL cs <> t) by (intros E; by rewrite E in Hin).
    destruct (linked_some NULL cs _ Hin) as [u Hu].
    apply wp_wr. exists u. split.
    { cbn. rewrite lookup_insert_ne by done. rewrite EV. by apply lookup_union_Some_l. }
    eapply HQ; [|done]. rewrite head_of_snoc. destruct cs as [|[a0 v0] cs0] eqn:Ecs; [by apply elem_of_nil in Hin|]. rewrite <- Ecs in *. rewrite <- Hh.
    assert (E1 : <[last_from NULL cs := u <| vm_next := t |>]> (<[t := v]> (linked NULL cs ∪ w_vmas b)) =
      <[t := v]> (alter (fun x => x <| vm_next := t |>) (last_from NULL cs) (linked NULL cs) ∪ w_vmas b)).
    { rewrite insert_insert_ne by done. f_equal. rewrite insert_union_l. f_equal.
      apply map_eq. intros i. destruct (decide (i = last_from NULL cs)) as [->|Hi].
      - by rewrite lookup_insert_eq, lookup_alter_eq, Hu.
      - by rewrite lookup_insert_ne, lookup_alter_ne by done. }
    assert (E2 : <[mm := x <| mp_mmap := mp_mmap x |>]> (w_maps w) = w_maps w).
    { rewrite insert_id; [done|]. rewrite Hx. by destruct x. }
    rewrite E2, <- E1, <- EV. by destruct w.
Qed.

(** The state in which the new VMA [t] of the parent's [p] is ready to be linked. *)
Record ready (ps cs : list (Z * vm_area)) (p : Z * vm_area) (t : Z) (v : vm_area) (w : mm_world) : Prop := Mk_ready {
  rd_vmas : w_vmas w = linked NULL cs ∪ w_vmas b;
  rd_nodup : NoDup (cs.*1 ++ [t]);
  rd_fresh a : a ∈ cs.*1 ++ [t] -> a <> NULL /\ w_vmas b !! a = None;
  rd_mm : exists x x0, w_maps w !! mm = Some x /\ w_maps b !! mm = Some x0 /\
    mp_mmap x = head_of cs /\ mp_rb x = cs.*1 /\ mp_map_count x = Z.of_nat (length cs) /\ mp_exe_file x = mp_exe_file x0;
  rd_maps i : i <> mm -> w_maps w !! i = w_maps b !! i;
  rd_files : files_used (cs ++ [(t, v)]) (w_files b) (w_files w);
  rd_pols : w_pols w = policies (w_pols b) (cs ++ [(t, v)]);
  rd_committed : w_committed w = w_committed b + charged (ps ++ [p]);
  rd_copies : Forall2 (copy_of mm) (ps ++ [p]) (cs ++ [(t, v)]);
  rd_next : vm_next v = NULL;
}.

Lemma wp_wemit n a (Q : unit -> mm_world -> Prop) w : Q tt (w <| w_log := w_log w ++ [(n, a)] |>) -> wp (wemit n a) Q w.
Proof. done. Qed.

Lemma ready_log ps cs p t v w l : ready ps cs p t v w -> ready ps cs p t v (w <| w_log := l |>).
Proof. intros []. by split. Qed.

Lemma dup_inv_log ps cs w l : dup_inv ps cs w -> dup_inv ps cs (w <| w_log := l |>).
Proof. intros []. by split. Qed.

Lemma wp_link_vma ps cs p t v (Q : option errno -> mm_world -> Prop) w :
  ready ps cs p t v w -> (forall e w', dup_inv (ps ++ [p]) (cs ++ [(t, v)]) w' -> Q e w') ->
  wp (link_vma mm p.1 t (last_from NULL cs)) Q (with_tmp t v w).
Proof.
  intros Hr HQ. unfold link_vma. apply wp_bind. apply (wp_mono _ (fun _ s => exists w1, s = with_tmp t v w1 /\ ready ps cs p t v w1)).
  { unfold when. destruct (is_vm_hugetlb_page t); [|apply wp_ret; by exists w].
    apply wp_wemit. exists (w <| w_log := w_log w ++ [("reset_vma_resv_huge_pages", [t])] |>). split; [by destruct w | by apply ready_log]. }
  clear w Hr. intros [] s (w & -> & Hr). destruct (rd_mm _ _ _ _ _ _ Hr) as (x & x0 & Hx & Hx0 & E1 & E2 & E3 & E4).
  pose proof (rd_nodup _ _ _ _ _ _ Hr) as Hnd. apply list.NoDup_app in Hnd as (Hnd & Hnt & _).
  assert (Ht : t ∉ cs.*1) by (intros Hin; by apply (Hnt _ Hin), list_elem_of_here).
  apply wp_bind, (wp_link_next cs t v _ w x Hnd); [| done | apply Hr | done | done |].
  { intros a Ha. apply (rd_fresh _ _ _ _ _ _ Hr). set_solver. }
  intros w1 x1 -> ->. apply wp_bind, wp_wr. exists v. split; [apply lookup_insert_eq|].
  apply wp_bind, wp_upd_obj. eexists. split; [apply lookup_insert_eq|].
  unfold vm_add. apply wp_bind, wp_upd_obj. eexists. split; [apply lookup_insert_eq|].
  apply wp_bind, wp_deref. eexists. split; [apply lookup_insert_eq|]. cbn. rewrite !insert_insert_eq.
  assert (Hfin : forall s, w_vmas s = <[t := v <| vm_prev := last_from NULL cs |>]>
      (alter (fun x => x <| vm_next := t |>) (last_from NULL cs) (linked NULL cs) ∪ w_vmas b) ->
    w_maps s = <[mm := x <| mp_mmap := head_of (cs ++ [(t, v)]) |> <| mp_rb := mp_rb x ++ [t] |> <| mp_map_count := mp_map_count x + 1 |>]> (w_maps w) ->
    w_files s = w_files w -> w_pols s = w_pols w -> w_committed s = w_committed w -> dup_inv (ps ++ [p]) (cs ++ [(t, v)]) s).
  { intros s S1 S2 S3 S4 S5. split.
    - rewrite S1. symmetry. apply linked_tmp; [apply Hr | apply (rd_fresh _ _ _ _ _ _ Hr); set_solver | done | apply Hr].
    - rewrite fmap_app. apply Hr.
    - intros a. rewrite fmap_app. apply (rd_fresh _ _ _ _ _ _ Hr).
    - exists (x <| mp_mmap := head_of (cs ++ [(t, v)]) |> <| mp_rb := mp_rb x ++ [t] |> <| mp_map_count := mp_map_count x + 1 |>), x0.
      rewrite S2, lookup_insert_eq, fmap_app, length_app. cbn. rewrite E2, E3. split_and!; try done. lia.
    - intros i Hi. rewrite S2, lookup_insert_ne by done. by apply (rd_maps _ _ _ _ _ _ Hr).
    - rewrite S3. apply Hr.
    - rewrite S4. apply Hr.
    - rewrite S5. apply Hr.
    - apply Hr. }
  apply wp_bind. eapply (wp_mono _ (fun _ => dup_inv (ps ++ [p]) (cs ++ [(t, v)]))).
  { destruct (has_flag _ _); [apply wp_ret | apply wp_gets]; by apply Hfin. }
  clear Hfin. intros e w2 Hi. apply wp_bind. unfold when. destruct (vm_ops_open t); [apply wp_wemit|]; apply wp_ret, HQ; [by apply dup_inv_log | done].
Qed.

(** ** One VMA *)
Lemma dup_inv_parent ps cs w a v : dup_inv ps cs w -> w_vmas b !! a = Some v -> w_vmas w !! a = Some v.
Proof.
  intros Hi Ha. rewrite (di_vmas _ _ _ Hi). rewrite lookup_union_r; [done|]. apply linked_none. intros Hin.
  apply (di_fresh _ _ _ Hi) in Hin as [_ Hn]. congruence.
Qed.

Lemma copy_made p a anon pol :
  (has_flag (vm_flags p.2) VM_WIPEONFORK = true -> anon = NULL) ->
  copy_of mm p (a, (Mk_vma (vm_start p.2) (vm_end p.2) (Z.ldiff (vm_flags p.2) (Z.lor VM_LOCKED VM_LOCKONFAULT)) (vm_file p.2) mm anon NULL NULL pol)).
Proof. intros Ha. by split. Qed.

Lemma made_ready ps cs p w t v pol :
  dup_inv ps cs w -> t <> NULL -> w_vmas w !! t = None -> vm_policy v = pol -> vm_file v = vm_file p.2 -> vm_next v = NULL ->
  copy_of mm p (t, v) ->
  ready ps cs p t v (with_file t p.1 v (with_policy pol (with_charge (charge_of p.2) w))).
Proof.
  intros Hi Ht Hv <- Hf Hn Hc. destruct Hi as [V ND FR MM MP FI PO CO CP].
  rewrite V in Hv. apply lookup_union_None in Hv as [Hv1 Hv2].
  assert (Hnt : t ∉ cs.*1) by (intros Hin; destruct (linked_some NULL cs t Hin); congruence).
  assert (Hsame : forall x, w_vmas (with_file t p.1 v (with_policy x (with_charge (charge_of p.2) w))) = w_vmas w /\
    w_maps (with_file t p.1 v (with_policy x (with_charge (charge_of p.2) w))) = w_maps w /\
    w_committed (with_file t p.1 v (with_policy x (with_charge (charge_of p.2) w))) = w_committed w + charge_of p.2 /\
    w_files (with_policy x (with_charge (charge_of p.2) w)) = w_files w).
  { intros x. unfold with_policy. by destruct (x =? NULL). }
  destruct (Hsame (vm_policy v)) as (S1 & S2 & S3 & S4). split.
  - by rewrite S1.
  - apply list.NoDup_app. split_and!; [done | intros a Ha Ha'; set_solver | apply list.NoDup_singleton].
  - intros a [Ha|Ha]%elem_of_app; [by apply FR|]. assert (a = t) as -> by set_solver. done.
  - by rewrite S2.
  - by rewrite S2.
  - unfold with_file. cbn. rewrite S4. by apply files_used_add.
  - unfold policies. rewrite foldl_app. cbn. unfold policies in PO. rewrite <- PO. unfold with_file, with_policy, add_policy. cbn. by destruct (_ =? NULL).
  - rewrite S3, CO, charged_snoc. lia.
  - by apply Forall2_app; [|constructor].
  - done.
Qed.

Lemma wp_dup_anon t v mpnt (Q : bool -> mm_world -> Prop) w :
  Q false (with_tmp t v w) ->
  (forall anon, (has_flag (vm_flags v) VM_WIPEONFORK = true -> anon = NULL) -> Q true (with_tmp t (v <| vm_anon := anon |>) w)) ->
  wp (dup_anon t mpnt) Q (with_tmp t v w).
Proof.
  intros HF HT. unfold dup_anon. apply wp_bind, wp_tmp_deref. destruct (has_flag (vm_flags v) VM_WIPEONFORK).
  - apply wp_bind, wp_tmp_upd, wp_ret. by apply HT.
  - apply wp_bind, wp_gets. destruct (anon_vma_fork _ _ _) as [anon|]; [|by apply wp_ret].
    apply wp_bind, wp_tmp_upd, wp_ret. by apply HT.
Qed.

Lemma wp_dup_vma ps cs p (Q : cres Z -> mm_world -> Prop) w :
  dup_inv ps cs w -> w_vmas b !! p.1 = Some p.2 -> (vm_file p.2 <> NULL -> is_Some (w_files b !! vm_file p.2)) ->
  (forall e, Q (Err e) w) ->
  (forall t v r w', dup_inv (ps ++ [p]) (cs ++ [(t, v)]) w' -> (r = Ok t \/ exists e, r = Err e) -> Q r w') ->
  wp (dup_vma mm p.1 (last_from NULL cs)) Q w.
Proof.
  intros Hi Hp Hf HErr HOk. unfold dup_vma. apply wp_bind, wp_gets. destruct (fatal_signal_pending w); [by apply wp_ret|].
  pose proof (dup_inv_parent _ _ _ _ _ Hi Hp) as Hpw. apply wp_bind, wp_deref. exists p.2. split; [exact Hpw|]. cbv zeta.
  apply wp_bind. eapply (wp_mono _ (fun _ s => s = w)); [by destruct (has_flag _ VM_ACCOUNT)|]. intros enough w0 ->.
  destruct enough; cbn [negb].
  2: { replace w with (with_charge 0 w) by (unfold with_charge; rewrite Z.add_0_r; by destruct w). by apply wp_fail_nomem. }
  apply wp_bind, wp_modify. fold (charge_of p.2). set (c := charge_of p.2). fold (with_charge c w).
  unfold vm_area_dup. apply wp_bind, wp_bind, wp_gets. destruct (vma_alloc (with_charge c w)) as [t|] eqn:Ea; [|apply wp_ret; by apply wp_fail_nomem].
  apply vma_alloc_fresh in Ea as [Ht Hv]. change (w_vmas w !! t = None) in Hv.
  apply wp_bind, wp_deref. exists p.2. split; [exact Hpw|]. apply wp_bind, wp_modify, wp_ret.
  set (v0 := p.2 <| vm_next := NULL |> <| vm_prev := NULL |>). fold (with_tmp t v0 (with_charge c w)).
  pose proof Ht as Ht'. apply Z.eqb_neq in Ht'. rewrite Ht'. apply wp_bind. unfold vma_dup_policy. apply wp_bind, wp_gets.
  destruct (mpol_dup _ _) as [pol|] eqn:Ep; [|apply wp_ret; by apply wp_fail_policy].
  pose proof (mpol_dup_fresh _ _ _ Ep) as Hpol. clear Ep. change (w_pols (with_tmp t v0 (with_charge c w))) with (w_pols w) in Hpol.
  apply wp_bind. eapply (wp_mono _ (fun _ s => s = with_tmp t v0 (with_policy pol (with_charge c w)))).
  { unfold when, with_policy. by destruct (pol =? NULL). }
  intros [] s ->. apply wp_bind, wp_tmp_upd, wp_ret. cbn [negb]. apply wp_bind, wp_tmp_upd, wp_bind, wp_gets.
  set (v2 := v0 <| vm_policy := pol |> <| vm_mm := mm |>).
  destruct (dup_userfaultfd _ _); [apply (wp_fail_anon t v2); [done | done | by apply HErr]|].
  apply wp_bind, wp_dup_anon.
  { apply (wp_fail_anon t v2); [done | done | by apply HErr]. }
  intros anon Hanon. cbn [negb]. apply wp_bind, wp_tmp_upd, wp_bind.
  set (v3 := v2 <| vm_anon := anon |> <| vm_flags := Z.ldiff (vm_flags (v2 <| vm_anon := anon |>)) (Z.lor VM_LOCKED VM_LOCKONFAULT) |>).
  pose proof (made_ready ps cs p w t v3 pol Hi Ht Hv eq_refl eq_refl eq_refl (copy_made p t anon pol Hanon)) as Hr.
  assert (Hfw : w_files (with_policy pol (with_charge c w)) = w_files w) by (unfold with_policy; by destruct (pol =? NULL)).
  apply wp_dup_file; rewrite ?Hfw.
  { intros Hn. destruct (Hf Hn) as [y Hy]. pose proof (di_files _ _ _ Hi (vm_file p.2)) as HF. rewrite Hy in HF.
    destruct HF as (y' & Hy' & _). exists y'. exact Hy'. }
  { intros _. pose proof (di_files _ _ _ Hi NULL) as HF. by rewrite Hnull in HF. }
  apply wp_bind, (wp_link_vma _ _ _ _ _ _ _ Hr). intros e w' Hi'. apply wp_ret. apply (HOk _ _ _ _ Hi').
  destruct e as [e|]; [right; by exists e | by left].
Qed.

(** ** The loop *)
Definition to_copy (l : list (Z * vm_area)) : list (Z * vm_area) :=
  List.filter (fun x => negb (has_flag (vm_flags x.2) VM_DONTCOPY)) l.

Lemma wp_stat_account ps cs f n (Q : unit -> mm_world -> Prop) w :
  dup_inv ps cs w -> (forall w', dup_inv ps cs w' -> Q tt w') -> wp (upd_obj mm (fun x => vm_stat_account x f n)) Q w.
Proof.
  intros Hi HQ. pose proof Hi as [V ND FR (x & x0 & Hx & Hx0 & E1 & E2 & E3 & E4) MP FI PO CO CP].
  apply wp_upd_obj. exists x. split; [exact Hx|]. apply HQ. pose proof (stat_account_keeps x f n) as E. injection E as K1 K2 K3 K4.
  split; try done; cbn.
  - exists (vm_stat_account x f n), x0. rewrite lookup_insert_eq. split_and!; congruence.
  - intros i Hne. rewrite lookup_insert_ne by done. by apply MP.
Qed.

Lemma wp_dup_loop fuel l mpnt ps cs (Q : cres unit -> mm_world -> Prop) w :
  dup_inv ps cs w -> chain (w_vmas b) mpnt l -> (length l <= fuel)%nat ->
  (forall x, x ∈ l -> vm_file x.2 <> NULL -> is_Some (w_files b !! vm_file x.2)) ->
  (forall r ps' cs' w', dup_inv (ps ++ ps') cs' w' -> ps' `prefix_of` to_copy l -> (r = Ok tt -> ps' = to_copy l) -> Q r w') ->
  wp (dup_loop fuel mm mpnt (last_from NULL cs)) Q w.
Proof.
  revert fuel mpnt ps cs w. induction l as [|[a v] l IH]; intros fuel mpnt ps cs w Hi Hc Hfu Hf HQ.
  { cbn in Hc. subst mpnt. destruct fuel; cbn; apply wp_ret, (HQ _ [] cs); rewrite ?app_nil_r; try done; by apply prefix_nil. }
  cbn in Hc. destruct Hc as (-> & Hn & Hv & Hc). destruct fuel as [|fuel]; [cbn in Hfu; lia|]. cbn in Hfu. cbn [dup_loop].
  apply Z.eqb_neq in Hn as Hn'. rewrite Hn'. pose proof (dup_inv_parent _ _ _ _ _ Hi Hv) as Hvw.
  apply wp_bind, wp_deref. exists v. split; [exact Hvw|].
  assert (Hf' : forall x, x ∈ l -> vm_file x.2 <> NULL -> is_Some (w_files b !! vm_file x.2)).
  { intros x Hx. apply Hf. by apply list_elem_of_further. }
  destruct (has_flag (vm_flags v) VM_DONTCOPY) eqn:Ed.
  - assert (Et : to_copy ((a, v) :: l) = to_copy l) by (unfold to_copy; cbn; by rewrite Ed). rewrite Et in HQ.
    apply wp_bind, (wp_stat_account _ _ _ _ _ _ Hi). intros w1 Hi1. apply (IH fuel _ ps cs w1 Hi1 Hc); [lia | done | done].
  - assert (Et : to_copy ((a, v) :: l) = (a, v) :: to_copy l) by (unfold to_copy; cbn; by rewrite Ed). rewrite Et in HQ.
    apply wp_bind, (wp_dup_vma ps cs (a, v) _ _ Hi Hv); [apply Hf, list_elem_of_here | |].
    + intros e. apply wp_ret, (HQ _ [] cs); [by rewrite app_nil_r | apply prefix_nil | done].
    + intros t u r w1 Hi1 [->|[e ->]].
      * apply wp_bind, wp_deref. exists v. split; [exact (dup_inv_parent _ _ _ _ _ Hi1 Hv)|].
        replace t with (last_from NULL (cs ++ [(t, u)])) by apply last_from_snoc.
        apply (IH fuel _ _ _ _ Hi1 Hc); [lia | done |]. intros r ps' cs' w2 Hi2 Hpre Hr.
        apply (HQ r ((a, v) :: ps') cs'); [by rewrite <- app_assoc in Hi2 | by apply prefix_cons | intros ->; by rewrite Hr].
      * apply wp_ret, (HQ _ [(a, v)] (cs ++ [(t, u)])); [done | apply prefix_cons, prefix_nil | done].
Qed.

Lemma dup_inv_start x : w_maps b !! mm = Some x -> mp_mmap x = NULL -> mp_rb x = [] -> mp_map_count x = 0 -> dup_inv [] [] b.
Proof.
  intros Hx E1 E2 E3. split; cbn; try done.
  - by rewrite (left_id_L ∅ (∪)).
  - apply NoDup_nil_2.
  - intros a Ha. by apply elem_of_nil in Ha.
  - exists x, x. split_and!; done.
  - apply files_used_nil.
  - lia.
Qed.
End Dup.

(** ** The whole function *)
Section Whole.
Context {MX : MmapExtern} {MOK : MmapExternOK MX}.

Definition memory (w : mm_world) := (w_vmas w, w_maps w, w_files w, w_pols w, w_committed w).

Definition hold_exe (k : Z) (y : mfile) : mfile := y <| f_count := f_count y + 1 |> <| f_denied := f_denied y + k |>.

(** The state the copying starts from: the child has the parent's sizes, and a
    reference of its own to the executable file, unless it is just going away;
    [k] is 0 when write access could not be denied. *)
Record exe_dup (w b : mm_world) (mm : Z) (o n : mm_maps) : Prop := Mk_exe_dup {
  ed_vmas : w_vmas b = w_vmas w;
  ed_pols : w_pols b = w_pols w;
  ed_committed : w_committed b = w_committed w;
  ed_maps i : i <> mm -> w_maps b !! i = w_maps w !! i;
  ed_files : exists e k, (e = mp_exe_file o \/ e = NULL) /\ 0 <= k <= 1 /\ w_maps b !! mm =
      Some (Mk_maps (mp_mmap n) (mp_rb n) (mp_map_count n) (mp_total_vm o) (mp_data_vm o) (mp_exec_vm o) (mp_stack_vm o) e) /\
    w_files b = if e =? NULL then w_files w else alter (hold_exe k) e (w_files w);
}.

Lemma alter_insert_some {A} (f : A -> A) i y (m : gmap Z A) : m !! i = Some y -> <[i := f y]> m = alter f i m.
Proof.
  intros Hy. apply map_eq. intros j. destruct (decide (j = i)) as [->|Hn].
  - by rewrite lookup_insert_eq, lookup_alter_eq, Hy.
  - by rewrite lookup_insert_ne, lookup_alter_ne by done.
Qed.

Lemma wp_copy_stats mm oldmm o x (Q : unit -> mm_world -> Prop) w :
  w_maps w !! oldmm = Some o -> w_maps w !! mm = Some x ->
  (forall w', memory w' = memory (w <| w_maps := <[mm := Mk_maps (mp_mmap x) (mp_rb x) (mp_map_count x) (mp_total_vm o) (mp_data_vm o)
     (mp_exec_vm o) (mp_stack_vm o) (mp_exe_file x)]> (w_maps w) |>) -> Q tt w') ->
  wp (copy_stats mm oldmm) Q w.
Proof.
  intros Ho Hx HQ. unfold copy_stats. apply wp_bind, wp_deref. exists o. split; [exact Ho|].
  apply wp_upd_obj. exists x. split; [exact Hx|]. by apply HQ.
Qed.

Lemma wp_exe_dup mm oldmm o n (Q : unit -> mm_world -> Prop) w :
  mm <> oldmm -> w_maps w !! oldmm = Some o -> w_maps w !! mm = Some n ->
  (mp_exe_file o <> NULL -> is_Some (w_files w !! mp_exe_file o)) ->
  (forall b, exe_dup w b mm o n -> Q tt b) -> wp (dup_mm_exe_file mm oldmm ;; copy_stats mm oldmm) Q w.
Proof.
  intros Hne Ho Hn Hexe HQ. apply wp_bind. unfold dup_mm_exe_file, get_mm_exe_file. apply wp_bind, wp_bind, wp_rd. exists o. split; [exact Ho|].
  assert (Hnone : forall w1 : mm_world, memory w1 = memory w ->
    wp (set! mm ⇝ mp_exe_file := NULL) (fun _ s => wp (mret tt) (fun _ s => wp (copy_stats mm oldmm) Q s) s) w1).
  { intros w1 E. injection E as E1 E2 E3 E4 E5. apply wp_wr. exists n. split; [unfold store; cbn; by rewrite E2|]. apply wp_ret.
    eapply wp_copy_stats; [cbn; rewrite lookup_insert_ne by done; by rewrite E2 | apply lookup_insert_eq |].
    intros b Eb. apply HQ. cbn in Eb. injection Eb as B1 B2 B3 B4 B5. rewrite insert_insert_eq in B2. split; try congruence.
    - intros i Hi. rewrite B2, lookup_insert_ne by done. by rewrite E2.
    - exists NULL, 0. split_and!; [by right | lia | lia | by rewrite B2, lookup_insert_eq | cbn; congruence]. }
  destruct (Z.eqb_spec (mp_exe_file o) NULL) as [E|E]; [apply wp_ret, wp_bind; rewrite Z.eqb_refl; by apply Hnone|].
  destruct (Hexe E) as [y Hy]. apply wp_bind, wp_gets. destruct (get_file_rcu w (mp_exe_file o)).
  2: { apply wp_ret, wp_bind. rewrite Z.eqb_refl. by apply Hnone. }
  unfold get_file. apply wp_bind, wp_upd_obj. exists y. split; [exact Hy|]. apply wp_ret. set (e := mp_exe_file o) in *.
  apply wp_bind, wp_wr. exists n. split; [exact Hn|]. apply Z.eqb_neq in E as E'. rewrite E'.
  assert (Hend : forall k w1, 0 <= k <= 1 -> memory w1 = memory (w <| w_files := alter (hold_exe k) e (w_files w) |>
     <| w_maps := <[mm := n <| mp_exe_file := e |>]> (w_maps w) |>) -> wp (copy_stats mm oldmm) Q w1).
  { intros k w1 Hk E1. cbn in E1. injection E1 as E1 E2 E3 E4 E5.
    eapply wp_copy_stats; [rewrite E2, lookup_insert_ne by done; exact Ho | rewrite E2; apply lookup_insert_eq |].
    intros b Eb. apply HQ. cbn in Eb. injection Eb as B1 B2 B3 B4 B5. rewrite E2, insert_insert_eq in B2. split; try congruence.
    - intros i Hi. by rewrite B2, lookup_insert_ne by done.
    - exists e, k. split_and!; [by left | lia | lia | by rewrite B2, lookup_insert_eq | rewrite E'; congruence]. }
  apply wp_bind. unfold deny_write. apply wp_bind, wp_gets. destruct (deny_write_access _ _); cbn [negb when].
  - apply wp_bind, wp_ret, wp_ret. apply wp_wemit, (Hend 0); [lia|]. unfold memory. cbn. rewrite <- (alter_insert_some _ _ _ _ Hy).
    unfold hold_exe. cbn. by rewrite Z.add_0_r.
  - apply wp_bind, wp_upd_obj. eexists. split; [apply lookup_insert_eq|]. apply wp_ret, wp_ret, (Hend 1); [lia|].
    unfold memory. cbn. rewrite insert_insert_eq. by rewrite <- (alter_insert_some _ _ _ _ Hy).
Qed.

Lemma chain_elem V p l x : chain V p l -> x ∈ l -> V !! x.1 = Some x.2.
Proof.
  revert p. induction l as [|[a v] l IH]; intros p Hc Hx; [by apply elem_of_nil in Hx|]. cbn in Hc. destruct Hc as (_ & _ & Hv & Hc).
  apply elem_of_cons in Hx as [->|Hx]; [done | by eapply IH].
Qed.

(** The list of VMAs ends before the fuel does. *)
Lemma chain_length V p l : chain V p l -> NoDup l.*1 -> (length l <= size V)%nat.
Proof.
  intros Hc Hnd. rewrite <- (length_fmap fst l). rewrite <- (size_list_to_set (C := gset Z)) by done. rewrite <- size_dom.
  apply subseteq_size. intros a Ha. apply elem_of_list_to_set, list_elem_of_fmap in Ha as (x & -> & Hx).
  apply elem_of_dom. rewrite (chain_elem _ _ _ _ Hc Hx). by eexists.
Qed.

Lemma exe_dup_log w b mm o n lg : exe_dup (w <| w_log := lg |>) b mm o n -> exe_dup w b mm o n.
Proof. intros [E1 E2 E3 E4 E5]. by split. Qed.

Lemma exe_dup_file w b mm o n f : exe_dup w b mm o n -> is_Some (w_files w !! f) <-> is_Some (w_files b !! f).
Proof.
  intros [_ _ _ _ (e & k & _ & _ & _ & ->)]. destruct (e =? NULL); [done|]. destruct (decide (f = e)) as [->|Hn].
  - rewrite lookup_alter_eq. by destruct (w_files w !! e).
  - by rewrite lookup_alter_ne.
Qed.

(** C11: dup_mmap() returns.  Interrupted while taking the lock it changes
    nothing.  Otherwise the child has, in the order of the parent and linked
    both ways and in its tree, a copy of VMAs of the parent, without those marked
    VM_DONTCOPY, unlocked and without the anonymous pages of those to be wiped:
    all of them when it succeeds, the first of them when it fails.  Every copy
    has its own policy, one reference to its file and a place in its mapping, and
    exactly the accounted pages of the copies are committed; no VMA, policy or
    charge of a VMA that failed is left.  The parent and every other address
    space are unchanged. *)
Theorem dup_mmap_spec mm oldmm o n l w :
  mm <> oldmm -> w_maps w !! oldmm = Some o -> w_maps w !! mm = Some n ->
  mp_mmap n = NULL -> mp_rb n = [] -> mp_map_count n = 0 ->
  chain (w_vmas w) (mp_mmap o) l -> NoDup l.*1 -> w_files w !! NULL = None ->
  (forall x, x ∈ l -> vm_file x.2 <> NULL -> is_Some (w_files w !! vm_file x.2)) ->
  (mp_exe_file o <> NULL -> is_Some (w_files w !! mp_exe_file o)) ->
  wp (dup_mmap mm oldmm) (fun r w' =>
    (r = Err EINTR /\ memory w' = memory w) \/
    exists b ps cs, exe_dup w b mm o n /\ dup_inv b mm ps cs w' /\
      ps `prefix_of` to_copy l /\ (r = Ok tt -> ps = to_copy l)) w.
Proof.
  intros Hne Ho Hn N1 N2 N3 Hc Hnd Hnull Hf Hexe. unfold dup_mmap. apply wp_bind, wp_wemit, wp_bind, wp_gets.
  destruct (mmap_write_lock_killable _ _); [apply wp_bind, wp_wemit, wp_ret; by left|].
  apply wp_bind, wp_wemit. apply (wp_bind (dup_mm_exe_file mm oldmm)). set (w1 := _ <| w_log := _ |>).
  assert (Hw : wp (dup_mm_exe_file mm oldmm ;; copy_stats mm oldmm) (fun _ b => exe_dup w b mm o n) w1).
  { apply (wp_exe_dup mm oldmm o n); [done.. |]. intros b Hb. by apply exe_dup_log, exe_dup_log in Hb. }
  apply wp_bind in Hw. eapply wp_mono; [exact Hw|]. cbv beta. intros [] w2 Hw2. apply wp_bind. eapply wp_mono; [exact Hw2|].
  cbv beta. intros [] b Hb. clear w1 w2 Hw Hw2. destruct (Hb) as [B1 B2 B3 B4 (e & k & _ & _ & B5 & _)].
  assert (Hbnull : w_files b !! NULL = None).
  { destruct (w_files b !! NULL) eqn:E; [|done]. assert (Hs : is_Some (w_files w !! NULL)) by (apply (exe_dup_file _ _ _ _ _ _ Hb); by eexists).
    rewrite Hnull in Hs. by destruct Hs. }
  assert (Hst : dup_inv b mm [] [] b) by (eapply dup_inv_start; [exact B5 | done..]).
  apply wp_bind, wp_gets, wp_bind.
  eapply (wp_mono _ (fun r w' => exists ps cs, dup_inv b mm ps cs w' /\ ps `prefix_of` to_copy l /\ (r = Ok tt -> ps = to_copy l))).
  - destruct (ksm_fork b mm); [apply wp_ret; exists [], []; split_and!; [done | apply prefix_nil | done]|].
    apply wp_bind, wp_gets. destruct (khugepaged_fork b mm); [apply wp_ret; exists [], []; split_and!; [done | apply prefix_nil | done]|].
    apply wp_bind, wp_rd. exists o. split; [unfold store; cbn; by rewrite B4 by done|]. apply wp_bind, wp_gets, wp_bind.
    apply (wp_dup_loop b mm Hbnull (vma_fuel b) l (mp_mmap o) [] [] _ _ Hst).
    + by rewrite B1.
    + unfold vma_fuel. rewrite B1. by eapply chain_length.
    + intros x Hx Hxf. apply (exe_dup_file _ _ _ _ _ _ Hb). by apply Hf.
    + intros r ps cs w' Hi Hpre Hr. cbn in Hi. destruct r as [[]|er]; [|apply wp_ret; by exists ps, cs].
      apply wp_bind, wp_gets, wp_ret. exists ps, cs. split_and!; [done | done | intros _; by apply Hr].
  - intros r w' (ps & cs & Hi & Hpre & Hr). apply wp_bind, wp_wemit, wp_bind, wp_wemit, wp_bind, wp_wemit, wp_ret. right.
    exists b, ps, cs. split_and!; [done | by repeat apply dup_inv_log | done | done].
Qed.
End Whole.
