(* ===== verification/DupMmapSample.v ===== *)
(** dup_mmap() run on a concrete address space of three VMAs. *)
From S2P Require Import Prelude Headers DupMmap DupMmapProofs.

Module MmapDemo.
(** Fresh addresses; [fail] is how many VMAs can be made. *)
Definition next_addr {A} (m : gmap Z A) : Z := 1 + foldr Z.max 0 (elements (dom m)).

Definition mmap_extern (room : nat) : MmapExtern := {|
  VM_DONTCOPY := 0x20000; VM_ACCOUNT := 0x100000; VM_WIPEONFORK := 0x2000000; VM_LOCKED := 0x2000; VM_LOCKONFAULT := 0x80000; VM_SHARED := 8;
  mmap_write_lock_killable _ _ := false; ksm_fork _ _ := None; khugepaged_fork _ _ := None; fatal_signal_pending _ := false;
  security_vm_enough_memory _ _ := true;
  vma_alloc w := if (size (w_vmas w) <? room)%nat then Some (next_addr (w_vmas w)) else None;
  mpol_dup w v := if bool_decide (v = 12) then Some (next_addr (w_pols w)) else Some NULL;
  dup_userfaultfd _ _ := None; anon_vma_fork _ _ _ := Some 70; copy_page_range _ _ _ := None; arch_dup_mmap _ _ := None;
  deny_write_access _ _ := false; get_file_rcu _ _ := true;
  vma_interval_tree_insert_after t _ l := t :: l; vm_stat_account x _ n := x <| mp_total_vm := mp_total_vm x + n |>;
  is_vm_hugetlb_page _ := false; vm_ops_open _ := false;
|}.

Lemma next_addr_fresh {A} (m : gmap Z A) : next_addr m <> NULL /\ m !! next_addr m = None.
Proof.
  assert (Hmax : forall (l : list Z) a, a ∈ l -> a <= foldr Z.max 0 l).
  { induction l as [|c l IH]; cbn; [by intros a ?%elem_of_nil|]. intros a [->|Ha]%elem_of_cons; [lia|]. specialize (IH a Ha). lia. }
  assert (Hpos : forall l : list Z, 0 <= foldr Z.max 0 l) by (induction l; cbn; lia).
  unfold next_addr, NULL. split; [specialize (Hpos (elements (dom m))); lia|]. apply not_elem_of_dom. intros Hin.
  apply elem_of_elements, Hmax in Hin. lia.
Qed.

#[export] Instance mmap_extern_ok n : MmapExternOK (mmap_extern n).
Proof.
  split; intros; cbn in *; try done.
  - case_match; [|done]. injection H as <-. apply next_addr_fresh.
  - case_bool_decide; injection H as <-; [apply next_addr_fresh | done].
Qed.

(** A private accounted VMA that is locked, one that is not copied, and a shared
    mapping of the executable with a policy. *)
Definition vma1 : vm_area := Mk_vma 0x1000 0x4000 (Z.lor 0x100000 0x2000) NULL 1 60 11 NULL NULL.
Definition vma2 : vm_area := Mk_vma 0x5000 0x6000 0x20000 NULL 1 NULL 12 10 NULL.
Definition vma3 : vm_area := Mk_vma 0x7000 0x8000 8 30 1 NULL NULL 11 40.

Definition parent : list (Z * vm_area) := [(10, vma1); (11, vma2); (12, vma3)].

Definition old_maps : mm_maps := Mk_maps 10 [10; 11; 12] 3 5 3 1 1 30.
Definition new_maps : mm_maps := Mk_maps NULL [] 0 0 0 0 0 NULL.

Definition world : mm_world :=
  Mk_world (<[10 := vma1]> (<[11 := vma2]> (<[12 := vma3]> ∅))) (<[1 := old_maps]> (<[2 := new_maps]> ∅))
    (<[30 := Mk_mfile 2 1 500 [12] 1]> ∅) (<[40 := Mk_mpol 1]> ∅) 3 [].

#[local] Existing Instance mmap_extern.

Lemma dup_mmap_spec_witness :
  wp (dup_mmap (MX := mmap_extern 10) 2 1) (fun r w' =>
    (r = Err EINTR /\ memory w' = memory world) \/
    exists b ps cs, exe_dup world b 2 old_maps new_maps /\ dup_inv (MX := mmap_extern 10) b 2 ps cs w' /\
      ps `prefix_of` to_copy (MX := mmap_extern 10) parent /\ (r = Ok tt -> ps = to_copy (MX := mmap_extern 10) parent)) world.
Proof.
  apply (dup_mmap_spec (MX := mmap_extern 10) 2 1 old_maps new_maps parent world); try done.
  - by apply (bool_decide_unpack _).
  - intros x [->|[->|[->|?%elem_of_nil]%elem_of_cons]%elem_of_cons]%elem_of_cons; [done | done | by eexists | done].
Defined.

(** What a run leaves: the result, the child's tree and count, and the references. *)
Definition summary (n : nat) : option (cres unit * list Z * Z * Z * Z * Z) :=
  match dup_mmap (MX := mmap_extern n) 2 1 world with
  | Ret r w => x ← w_maps w !! 2; f ← w_files w !! 30; Some (r, mp_rb x, mp_map_count x, f_count f, Z.of_nat (size (w_pols w)), w_committed w)
  | Stuck _ => None
  end.

Lemma dup_all : summary 10 = Some (Ok tt, [13; 14], 2, 4, 2, 6).
Proof. vm_compute. reflexivity. Qed.

(** No room for the second copy: the first one stays, nothing else. *)
Lemma dup_fails : summary 4 = Some (Err ENOMEM, [13], 1, 3, 1, 6).
Proof. vm_compute. reflexivity. Qed.
End MmapDemo.
