(* ===== verification/Tick.v ===== *)
(** The ticks of the scheduler (core.c): the periodic tick, the high-resolution
    tick, the remote tick of a CPU in full dynticks mode and the decisions for
    CPUs whose tick is stopped; the accounted runtime of a task and the counters
    of the whole system.

    Timers (kernel/time), work queues (kernel/workqueue.c) and the load averages
    (kernel/sched/loadavg.c) are parameters. *)
From S2P Require Import Prelude Headers Kernel Extern RqClock Prio Affinity Migrate Schedule.
From S2P Require Import CoreSched.

Class TickExtern := {
  cl_task_tick : sched_class -> Z -> Z -> Z -> K unit;
  cl_update_curr : sched_class -> Z -> K unit;
  (** kernel/time/hrtimer.c on [rq->hrtick_timer] *)
  hrtimer_active : Z -> K bool;
  hrtimer_cancel : Z -> K unit;
  hrtimer_start : Z -> Z -> K unit;
  hrtick_get_time : Z -> K Z;
  (** kernel/sched/loadavg.c, fair.c *)
  calc_global_load_tick : Z -> K unit;
  calc_load_nohz_remote : Z -> K unit;
  sched_core_tick : Z -> K unit;
  trigger_load_balance : Z -> K unit;
  (** the work of [tick_work_cpu] of a CPU *)
  queue_delayed_work : Z -> K unit;
  alloc_percpu_tick_work : K bool;
  (** kernel/time/tick-sched.c, kernel/sched/isolation.c *)
  tick_nohz_tick_stopped_cpu : Z -> K bool;
  tick_nohz_tick_stopped : K bool;
  tick_nohz_full_cpu : Z -> bool;
  housekeeping_cpu : Z -> Z -> bool;
  housekeeping_cpumask : Z -> gset Z;
  housekeeping_any_cpu : Z -> K Z;
  HK_FLAG_TICK : Z; HK_FLAG_TIMER : Z;
  NOHZ_KICK_MASK : Z; NOHZ_NEWILB_KICK : Z;
  sysctl_resched_latency_warn_once : bool;
  system_booting : bool;
  vcpu_is_preempted : Z -> bool;
}.

Definition nsec_per_sec : Z := 1000000000.
Definition nsec_per_msec : Z := 1000000.

Section Tick.
Context {H : Headers} {X : Extern} {Mg : MigrateExtern} {CX : CoreExtern} {TX : TickExtern}.

Definition settick (g : tick_state -> tick_state) : K unit := modify (fun m => m <| m_tick := g (m_tick m) |>).

Definition is_idle_task (t : task_struct) : bool := has_flag (ts_flags t) PF_IDLE.

Definition warn_on (b : bool) (args : list Z) : K unit := when b (emit "WARN_ON_ONCE" args).

(** * The high-resolution tick *)
Definition hrtick_clear (r : Z) : K unit :=
  a ← hrtimer_active r;
  when a (hrtimer_cancel r).

Definition hrtick (r : Z) : K unit :=
  cpu ← r ⇝ rq_cpu;
  this ← gets m_this_cpu;
  warn_on (negb (cpu =? this)) [r] ;;
  update_rq_clock r ;;
  curr ← r ⇝ rq_curr;
  c ← curr ⇝ ts_class;
  cl_task_tick c r curr 1.

Definition __hrtick_restart (r : Z) : K unit :=
  time ← r ⇝ tk_hrtick_time;
  hrtimer_start r time.

Definition __hrtick_start (r : Z) : K unit := __hrtick_restart r.

(** [delay] is a u64, compared as an s64. *)
Definition hrtick_start (r delay : Z) : K unit :=
  let delta := Z.max (s64 delay) 10000 in
  now ← hrtick_get_time r;
  set! r ⇝ tk_hrtick_time := s64 (now + delta) ;;
  this ← gets m_this_cpu;
  if r =? this then __hrtick_restart r
  else
    cpu ← r ⇝ rq_cpu;
    emit "smp_call_function_single_async hrtick_csd" [cpu].

(** * CPUs without a tick *)
Definition resched_cpu (cpu : Z) : K unit :=
  m ← get_state;
  when (bool_decide (cpu ∈ m_cpu_online m) || (cpu =? m_this_cpu m)) (resched_curr cpu).

(** The first CPU of the list that is busy. *)
Fixpoint first_busy (cpu : Z) (cpus : list Z) : K (option Z) :=
  match cpus with
  | [] => mret None
  | i :: cpus =>
      if cpu =? i then first_busy cpu cpus
      else
        idle ← idle_cpu i;
        if truthy idle then first_busy cpu cpus else mret (Some i)
  end.

Fixpoint busy_in_domains (cpu : Z) (hk_mask : gset Z) (spans : list (gset Z)) : K (option Z) :=
  match spans with
  | [] => mret None
  | sd :: spans =>
      b ← first_busy cpu (for_each_cpu (sd ∩ hk_mask));
      match b with Some i => mret (Some i) | None => busy_in_domains cpu hk_mask spans end
  end.

Definition nohz_search (cpu default_cpu : Z) : K Z :=
  spans ← gets (sched_domain_spans cpu);
  b ← busy_in_domains cpu (housekeeping_cpumask HK_FLAG_TIMER) spans;
  match b with
  | Some i => mret i
  | None => if default_cpu =? -1 then housekeeping_any_cpu HK_FLAG_TIMER else mret default_cpu
  end.

Definition get_nohz_timer_target : K Z :=
  cpu ← gets m_this_cpu;
  if housekeeping_cpu cpu HK_FLAG_TIMER then
    idle ← idle_cpu cpu;
    if negb (truthy idle) then mret cpu else nohz_search cpu cpu
  else nohz_search cpu (-1).

Definition wake_up_idle_cpu (cpu : Z) : K unit :=
  this ← gets m_this_cpu;
  if cpu =? this then mret tt
  else
    idle ← cpu ⇝ rq_idle;
    b ← set_nr_and_not_polling idle;
    if (b : bool) then emit "smp_send_reschedule" [cpu]
    else emit "trace_sched_wake_idle_without_ipi" [cpu].

Definition wake_up_full_nohz_cpu (cpu : Z) : K bool :=
  online ← gets m_cpu_online;
  if negb (bool_decide (cpu ∈ online)) then mret true
  else if tick_nohz_full_cpu cpu then
    this ← gets m_this_cpu;
    stopped ← (if negb (cpu =? this) then mret true else tick_nohz_tick_stopped);
    when stopped (emit "tick_nohz_full_kick_cpu" [cpu]) ;;
    mret true
  else mret false.

Definition wake_up_nohz_cpu (cpu : Z) : K unit :=
  b ← wake_up_full_nohz_cpu cpu;
  when (negb b) (wake_up_idle_cpu cpu).

Definition nohz_csd_func (r : Z) : K unit :=
  cpu ← r ⇝ rq_cpu;
  flags ← cpu ⇝ tk_nohz_flags;
  set! cpu ⇝ tk_nohz_flags := Z.ldiff flags (Z.lor NOHZ_KICK_MASK NOHZ_NEWILB_KICK) ;;
  when (Z.land flags NOHZ_KICK_MASK =? 0) (emit "WARN_ON" [cpu]) ;;
  idle ← idle_cpu cpu;
  set! r ⇝ tk_idle_balance := truthy idle ;;
  stop ← (if truthy idle then need_resched else mret true);
  when (negb stop)
    (set! r ⇝ tk_nohz_idle_balance := flags ;;
     emit "raise_softirq_irqoff" [cpu]).

Definition sched_can_stop_tick (r : Z) : K bool :=
  t ← deref (R := tick_rq) r;
  if truthy (tk_dl_nr_running t) then mret false
  else if truthy (tk_rr_nr_running t) then mret (tk_rr_nr_running t =? 1)
  else if truthy (tk_rt_nr_running t - tk_rr_nr_running t) then mret true
  else
    n ← r ⇝ rq_nr_running;
    mret (negb (1 <? n)).

(** * The accounted runtime *)
Definition task_sched_runtime (p : Z) : K Z :=
  t ← deref (R := task_struct) p;
  if (negb (truthy (ts_on_cpu t)) || negb (task_on_rq_queued t))%bool then mret (se_sum_exec_runtime (ts_se t))
  else
    let r := ts_cpu t in
    curr ← r ⇝ rq_curr;
    when ((curr =? p) && task_on_rq_queued t)
      (update_rq_clock r ;;
       c ← p ⇝ ts_class;
       cl_update_curr c r) ;;
    t ← deref (R := task_struct) p;
    mret (se_sum_exec_runtime (ts_se t)).

(** * The periodic tick *)
Definition cpu_resched_latency (r : Z) : K Z :=
  latency_warn_ms ← gets (fun m => ti_latency_warn_ms (m_tick m));
  now ← r ⇝ rq_clock;
  warned_once ← gets (fun m => ti_warned_once (m_tick m));
  if (sysctl_resched_latency_warn_once && warned_once)%bool then mret 0
  else
    nr ← need_resched;
    if (negb nr || negb (truthy latency_warn_ms))%bool then mret 0
    else if system_booting then mret 0
    else
      last ← r ⇝ rq_last_seen_need_resched_ns;
      if negb (truthy last) then
        set! r ⇝ rq_last_seen_need_resched_ns := now ;;
        set! r ⇝ tk_ticks_without_resched := 0 ;;
        mret 0
      else
        upd! r ⇝ tk_ticks_without_resched := (fun n => u32 (n + 1)) ;;
        let resched_latency := u64 (now - last) in
        if resched_latency <=? u64 (latency_warn_ms * nsec_per_msec) then mret 0
        else
          settick (fun t => t <| ti_warned_once := true |>) ;;
          mret resched_latency.

Definition scheduler_tick : K unit :=
  cpu ← gets m_this_cpu;
  curr ← cpu ⇝ rq_curr;
  emit "arch_scale_freq_tick" [] ;;
  emit "sched_clock_tick" [] ;;
  update_rq_clock cpu ;;
  emit "update_thermal_load_avg" [cpu] ;;
  c ← curr ⇝ ts_class;
  cl_task_tick c cpu curr 0 ;;
  resched_latency ← (if sched_feat "LATENCY_WARN" then cpu_resched_latency cpu else mret 0);
  calc_global_load_tick cpu ;;
  sched_core_tick cpu ;;
  when (sched_feat "LATENCY_WARN" && truthy resched_latency) (emit "resched_latency_warn" [cpu; resched_latency]) ;;
  emit "perf_event_task_tick" [] ;;
  idle ← idle_cpu cpu;
  set! cpu ⇝ tk_idle_balance := truthy idle ;;
  trigger_load_balance cpu.

(** * The remote tick *)
Definition TICK_SCHED_REMOTE_OFFLINE : Z := 0.
Definition TICK_SCHED_REMOTE_OFFLINING : Z := 1.
Definition TICK_SCHED_REMOTE_RUNNING : Z := 2.

(** The tick itself. *)
Definition remote_tick (cpu : Z) : K unit :=
  stopped ← tick_nohz_tick_stopped_cpu cpu;
  if negb stopped then mret tt
  else
    curr ← cpu ⇝ rq_curr;
    online ← gets m_cpu_online;
    when (bool_decide (cpu ∈ online))
      (update_rq_clock cpu ;;
       t ← deref (R := task_struct) curr;
       now ← cpu ⇝ rq_clock_task;
       warn_on (negb (is_idle_task t) && (nsec_per_sec * 3 <? u64 (now - se_exec_start (ts_se t)))) [cpu] ;;
       cl_task_tick (ts_class t) cpu curr 0 ;;
       calc_load_nohz_remote cpu).

(** out_requeue: atomic_fetch_add_unless(&twork->state, -1, RUNNING) *)
Definition remote_requeue (work cpu : Z) : K unit :=
  os ← work ⇝ tk_work_state;
  when (negb (os =? TICK_SCHED_REMOTE_RUNNING)) (set! work ⇝ tk_work_state := os - 1) ;;
  warn_on (os =? TICK_SCHED_REMOTE_OFFLINE) [cpu] ;;
  when (os =? TICK_SCHED_REMOTE_RUNNING) (queue_delayed_work work).

(** [work] is the CPU whose tick_work holds the work. *)
Definition sched_tick_remote (work : Z) : K unit :=
  cpu ← work ⇝ tk_work_cpu;
  remote_tick cpu ;;
  remote_requeue work cpu.

Definition sched_tick_start (cpu : Z) : K unit :=
  if housekeeping_cpu cpu HK_FLAG_TICK then mret tt
  else
    a ← gets (fun m => ti_work_alloc (m_tick m));
    warn_on (negb a) [cpu] ;;
    os ← cpu ⇝ tk_work_state;
    set! cpu ⇝ tk_work_state := TICK_SCHED_REMOTE_RUNNING ;;
    warn_on (os =? TICK_SCHED_REMOTE_RUNNING) [cpu] ;;
    when (os =? TICK_SCHED_REMOTE_OFFLINE)
      (set! cpu ⇝ tk_work_cpu := cpu ;;
       queue_delayed_work cpu).

Definition sched_tick_stop (cpu : Z) : K unit :=
  if housekeeping_cpu cpu HK_FLAG_TICK then mret tt
  else
    a ← gets (fun m => ti_work_alloc (m_tick m));
    warn_on (negb a) [cpu] ;;
    os ← cpu ⇝ tk_work_state;
    set! cpu ⇝ tk_work_state := TICK_SCHED_REMOTE_OFFLINING ;;
    warn_on (negb (os =? TICK_SCHED_REMOTE_RUNNING)) [cpu].

Definition sched_tick_offload_init : K Z :=
  ok ← alloc_percpu_tick_work;
  settick (fun t => t <| ti_work_alloc := ok |>) ;;
  if negb ok then stuck BUG else mret 0.

(** * Counters of the system *)
Fixpoint sum_cpus (wrap : Z -> Z) (f : rq -> Z) (cpus : list Z) (sum : Z) : K Z :=
  match cpus with
  | [] => mret sum
  | i :: cpus => n ← i ⇝ f; sum_cpus wrap f cpus (wrap (sum + n))
  end.

Definition nr_running : K Z :=
  online ← gets m_cpu_online; sum_cpus u32 rq_nr_running (for_each_cpu online) 0.

Definition single_task_running : K bool :=
  this ← gets m_this_cpu; n ← this ⇝ rq_nr_running; mret (n =? 1).

Definition nr_context_switches : K Z :=
  possible ← gets m_cpu_possible; sum_cpus u64 rq_nr_switches (for_each_cpu possible) 0.

Definition nr_iowait_cpu (cpu : Z) : K Z := n ← cpu ⇝ rq_nr_iowait; mret (u32 n).

Definition nr_iowait : K Z :=
  possible ← gets m_cpu_possible; sum_cpus u32 (fun q => u32 (rq_nr_iowait q)) (for_each_cpu possible) 0.

Definition available_idle_cpu (cpu : Z) : K Z :=
  idle ← idle_cpu cpu;
  if negb (truthy idle) then mret 0
  else if vcpu_is_preempted cpu then mret 0
  else mret 1.
End Tick.
