(* ===== verification/TickProofs.v ===== *)
(** Correctness of the ticks: the state machine of the remote tick under every
    interleaving with CPU hotplug, and the choice of a CPU for timers. *)
From S2P Require Import Prelude Headers Kernel Extern RqClock Prio SchedOK Affinity.
From S2P Require Import AffinityProofs Migrate Schedule CoreSched Tick.

(** ** The work of the remote tick

    For each CPU: tick_work->cpu, tick_work->state, and whether it is queued. *)
Definition work_of (t : tick_rq) : Z * Z * Z := (tk_work_cpu t, tk_work_state t, tk_work_queued t).
Definition works (m : machine) : gmap Z (Z * Z * Z) := work_of <$> ti_cpus (m_tick m).
Definition tick_view (m : machine) := (works m, ti_work_alloc (m_tick m)).
Abbreviation tick_frame := (frame (fun _ : task_struct => tt) (fun _ : rq => tt) tick_view).

Class TickExternOK {H : Headers} {X : Extern} (TX : TickExtern) : Prop := {
  (** workqueue.c: the work is on the queue afterwards, at most once *)
  queue_work_spec c cpu st q m : works m !! c = Some (cpu, st, q) ->
    wp (queue_delayed_work c) (fun _ m' => tick_view m' = (<[c := (cpu, st, 1)]> (works m), ti_work_alloc (m_tick m)) /\
      m_log m' = m_log m) m;
  task_tick_works c r p n : preserves tick_frame (cl_task_tick c r p n);
  load_remote_works r : preserves tick_frame (calc_load_nohz_remote r);
  stopped_works c : preserves tick_frame (tick_nohz_tick_stopped_cpu c);
  clock_works c : preserves tick_frame (sched_clock_cpu c);
  irq_works c : preserves tick_frame (irq_time_read c);
  steal_works c : preserves tick_frame (paravirt_steal_clock c);
}.
#[export] Hint Resolve task_tick_works load_remote_works stopped_works clock_works irq_works steal_works : preserve.

Section Remote.
Context {H : Headers} {X : Extern} {Mg : MigrateExtern} {CX : CoreExtern} {TX : TickExtern} {TOK : TickExternOK TX}.

Lemma works_emit n a : preserves tick_frame (emit n a).
Proof. by apply frame_emit. Qed.
#[local] Hint Resolve works_emit : preserve.

Lemma works_update_rq_clock r : preserves tick_frame (update_rq_clock r).
Proof. unfold update_rq_clock, update_rq_clock_task. framed. Qed.
#[local] Hint Resolve works_update_rq_clock : preserve.

Lemma works_remote_tick c : preserves tick_frame (remote_tick c).
Proof. unfold remote_tick, warn_on. framed. Qed.

(** ** Interleavings

    [up]: the CPU has been started and not stopped since; [running]: the work
    function runs. *)
Context (c : Z) (Hk : housekeeping_cpu c HK_FLAG_TICK = false).

Record remote_state : Type := Mk_remote { up : bool; running : bool; mach : machine }.

Definition dequeue_work (m : machine) : machine :=
  match ti_cpus (m_tick m) !! c with
  | Some t => m <| m_tick := (m_tick m) <| ti_cpus := <[c := t <| tk_work_queued := 0 |>]> (ti_cpus (m_tick m)) |> |>
  | None => m
  end.

Inductive remote_step : remote_state -> remote_state -> Prop :=
| cpu_starts b m m' : sched_tick_start c m = Ret tt m' -> remote_step (Mk_remote false b m) (Mk_remote true b m')
| cpu_stops b m m' : sched_tick_stop c m = Ret tt m' -> remote_step (Mk_remote true b m) (Mk_remote false b m')
| work_starts u m cpu st : works m !! c = Some (cpu, st, 1) ->
    remote_step (Mk_remote u false m) (Mk_remote u true (dequeue_work m))
| work_ticks u m m' cpu st q : works m !! c = Some (cpu, st, q) -> remote_tick cpu m = Ret tt m' ->
    remote_step (Mk_remote u true m) (Mk_remote u true m')
| work_ends u m m' cpu st q : works m !! c = Some (cpu, st, q) -> remote_requeue c cpu m = Ret tt m' ->
    remote_step (Mk_remote u true m) (Mk_remote u false m')
| others u b m m' : tick_frame m m' -> remote_step (Mk_remote u b m) (Mk_remote u b m').

(** ** The invariant

    RUNNING exactly while the CPU is up; the work is queued or running, and
    never both, exactly while the state is not OFFLINE. *)
Record work_ok (u b : bool) (w : Z * Z * Z) : Prop := Mk_work_ok {
  wo_state : w.1.2 = TICK_SCHED_REMOTE_OFFLINE \/ w.1.2 = TICK_SCHED_REMOTE_OFFLINING \/ w.1.2 = TICK_SCHED_REMOTE_RUNNING;
  wo_up : w.1.2 = TICK_SCHED_REMOTE_RUNNING <-> u = true;
  wo_queued : w.2 = 0 \/ w.2 = 1;
  wo_once : w.2 + b2z b = b2z (negb (w.1.2 =? TICK_SCHED_REMOTE_OFFLINE));
  wo_cpu : w.1.2 <> TICK_SCHED_REMOTE_OFFLINE -> w.1.1 = c;
}.

Definition remote_ok (s : remote_state) : Prop :=
  ti_work_alloc (m_tick (mach s)) = true /\ exists w, works (mach s) !! c = Some w /\ work_ok (up s) (running s) w.

Lemma remote_ok_frame u b m m' : tick_frame m m' -> remote_ok (Mk_remote u b m) -> remote_ok (Mk_remote u b m').
Proof.
  intros (_ & _ & E) (Ha & w & Hw & Hok). unfold tick_view in E. split; cbn in *; [congruence|]. exists w. split; [congruence | done].
Qed.

(** ** Access to the work *)
Lemma works_lookup m w : works m !! c = Some w -> exists t, ti_cpus (m_tick m) !! c = Some t /\ work_of t = w.
Proof.
  unfold works. rewrite lookup_fmap. destruct (ti_cpus (m_tick m) !! c) as [t|]; [|done]. intros [= <-]. by exists t.
Qed.

Lemma wp_rd_work {E} (f : tick_rq -> E) (g : Z * Z * Z -> E) w (Q : E -> machine -> Prop) m :
  (forall t, f t = g (work_of t)) -> works m !! c = Some w -> Q (g w) m -> wp (c ⇝ f) Q m.
Proof. intros Hf Hw HQ. apply works_lookup in Hw as (t & Ht & <-). apply wp_rd. exists t. split; [exact Ht | by rewrite Hf]. Qed.

Lemma wp_wr_work (g : tick_rq -> tick_rq) (h : Z * Z * Z -> Z * Z * Z) w (Q : unit -> machine -> Prop) m :
  works m !! c = Some w -> (forall t, work_of (g t) = h (work_of t)) ->
  (forall m', tick_view m' = (<[c := h w]> (works m), ti_work_alloc (m_tick m)) -> m_log m' = m_log m -> Q tt m') ->
  wp (upd_obj c g) Q m.
Proof.
  intros Hw Hg HQ. apply works_lookup in Hw as (t & Ht & <-). apply wp_upd_obj. exists t. split; [exact Ht|]. apply HQ; [|done].
  unfold tick_view, works. cbn. by rewrite fmap_insert, Hg.
Qed.

Lemma tick_view_work m m' w al : tick_view m' = (<[c := w]> (works m), al) -> works m' !! c = Some w /\ ti_work_alloc (m_tick m') = al.
Proof. unfold tick_view. intros E. injection E as E1 E2. split; [by rewrite E1, lookup_insert_eq | done]. Qed.

(** What a hotplug callback or the end of the work does: it returns, warns of
    nothing, and the result is as described. *)
Definition quietly (u b : bool) (op : K unit) (m : machine) : Prop :=
  wp op (fun _ m' => remote_ok (Mk_remote u b m') /\ m_log m' = m_log m) m.

Ltac state_cases Ho :=
  destruct Ho as [Hst Hup Hq Honce Hcpu]; cbn in *;
  unfold TICK_SCHED_REMOTE_OFFLINE, TICK_SCHED_REMOTE_OFFLINING, TICK_SCHED_REMOTE_RUNNING in *;
  destruct Hst as [->|[->| ->]]; cbn in *.

(** [set! c ⇝ tk_work_state := n] *)
Lemma wp_set_state n cpu st q (Q : unit -> machine -> Prop) m :
  works m !! c = Some (cpu, st, q) ->
  (forall m', works m' !! c = Some (cpu, n, q) -> ti_work_alloc (m_tick m') = ti_work_alloc (m_tick m) -> m_log m' = m_log m -> Q tt m') ->
  wp (set! c ⇝ tk_work_state := n) Q m.
Proof.
  intros Hw HQ. apply (wp_wr_work (fun t => t <| tk_work_state := n |>) (fun w => (w.1.1, n, w.2)) _ _ _ Hw); [done|].
  intros m' E El. apply tick_view_work in E as [E1 E2]. by apply HQ.
Qed.

Lemma start_ok b m : remote_ok (Mk_remote false b m) -> quietly true b (sched_tick_start c) m.
Proof.
  intros (Ha & [[cpu st] q] & Hw & Ho). cbn in *. unfold quietly, sched_tick_start, warn_on. rewrite Hk.
  apply wp_bind, wp_gets. rewrite Ha. cbn [negb when]. apply wp_bind, wp_ret.
  apply wp_bind, (wp_rd_work _ (fun w => w.1.2) _ _ _ (fun _ => eq_refl) Hw). cbn.
  apply wp_bind, (wp_set_state _ _ _ _ _ _ Hw). intros m1 Hw1 Ha1 El1.
  state_cases Ho; apply wp_bind, wp_ret; [| |by destruct Hup as [? _]; discriminate (H0 eq_refl)].
  - apply wp_bind, (wp_wr_work (fun t => t <| tk_work_cpu := c |>) (fun w => (c, w.1.2, w.2)) _ _ _ Hw1); [done|].
    intros m2 E2 El2. apply tick_view_work in E2 as [Hw2 Ha2].
    eapply wp_mono; [by apply (queue_work_spec c c 2 q)|]. cbn. intros _ m3 [E3 El3]. apply tick_view_work in E3 as [Hw3 Ha3].
    split; [|congruence]. split; cbn; [congruence|]. exists (c, 2, 1). split; [done|]. split; cbn; auto; [done|]. unfold b2z in *. destruct b; lia.
  - apply wp_ret. split; [|done]. split; cbn; [congruence|]. exists (cpu, 2, q). split; [done|]. split; cbn; auto; done.
Qed.

Lemma stop_ok b m : remote_ok (Mk_remote true b m) -> quietly false b (sched_tick_stop c) m.
Proof.
  intros (Ha & [[cpu st] q] & Hw & Ho). cbn in *. unfold quietly, sched_tick_stop, warn_on. rewrite Hk.
  apply wp_bind, wp_gets. rewrite Ha. cbn [negb when]. apply wp_bind, wp_ret.
  apply wp_bind, (wp_rd_work _ (fun w => w.1.2) _ _ _ (fun _ => eq_refl) Hw). cbn.
  apply wp_bind, (wp_set_state _ _ _ _ _ _ Hw). intros m1 Hw1 Ha1 El1.
  state_cases Ho; [by destruct Hup as [_ ?]; discriminate (H0 eq_refl).. |].
  apply wp_ret. split; [|done]. split; cbn; [congruence|]. exists (cpu, 1, q). split; [done|]. split; cbn; auto; try done.
Qed.

Lemma requeue_ok u m cpu st q : works m !! c = Some (cpu, st, q) -> remote_ok (Mk_remote u true m) ->
  wp (remote_requeue c cpu) (fun _ m' => remote_ok (Mk_remote u false m') /\ m_log m' = m_log m /\
    works m' !! c = Some (c, if u then TICK_SCHED_REMOTE_RUNNING else TICK_SCHED_REMOTE_OFFLINE, b2z u)) m.
Proof.
  intros Hw (Ha & w & Hw' & Ho). cbn in *. assert (w = (cpu, st, q)) as -> by congruence.
  unfold remote_requeue, warn_on. apply wp_bind, (wp_rd_work _ (fun w => w.1.2) _ _ _ (fun _ => eq_refl) Hw). cbn.
  state_cases Ho.
  - lia.
  - assert (cpu = c) as -> by auto. destruct u; [by destruct Hup as [_ ?]; discriminate (H0 eq_refl)|].
    apply wp_bind, (wp_set_state _ _ _ _ _ _ Hw). intros m1 Hw1 Ha1 El1. apply wp_bind, wp_ret, wp_ret.
    assert (q = 0) as -> by lia. split; [|done]. split; cbn; [congruence|]. eexists. split; [exact Hw1|]. split; cbn; auto; done.
  - assert (cpu = c) as -> by auto. destruct u; [|by destruct Hup as [? _]; discriminate (H0 eq_refl)].
    apply wp_bind, wp_ret, wp_bind, wp_ret. eapply wp_mono; [by apply (queue_work_spec c c 2 q)|].
    intros _ m1 [E El]. apply tick_view_work in E as [Hw1 Ha1]. split; [|done]. split; cbn; [congruence|].
    eexists. split; [exact Hw1|]. split; cbn; auto; done.
Qed.

Lemma dequeue_work_view m cpu st q : works m !! c = Some (cpu, st, q) ->
  works (dequeue_work m) !! c = Some (cpu, st, 0) /\ ti_work_alloc (m_tick (dequeue_work m)) = ti_work_alloc (m_tick m).
Proof.
  intros Hw. apply works_lookup in Hw as (t & Ht & E). unfold dequeue_work, works. rewrite Ht. cbn.
  rewrite fmap_insert, lookup_insert_eq. split; [|done]. unfold work_of in *. cbn. congruence.
Qed.

Lemma remote_step_ok s s' : remote_step s s' -> remote_ok s -> remote_ok s'.
Proof.
  intros [b m m' E|b m m' E|u m cpu st Hw|u m m' cpu st q Hw E|u m m' cpu st q Hw E|u b m m' F] Hok.
  - pose proof (start_ok b m Hok) as Hs. unfold quietly, wp in Hs. rewrite E in Hs. apply Hs.
  - pose proof (stop_ok b m Hok) as Hs. unfold quietly, wp in Hs. rewrite E in Hs. apply Hs.
  - destruct Hok as (Ha & w & Hw' & Ho). cbn in *. assert (w = (cpu, st, 1)) as -> by congruence.
    destruct (dequeue_work_view _ _ _ _ Hw) as [Hw1 Ha1]. split; cbn; [congruence|]. exists (cpu, st, 0). split; [done|].
    destruct Ho as [Hst Hup Hq Honce Hcpu]. split; cbn in *; auto; lia.
  - eapply remote_ok_frame; [eapply works_remote_tick; exact E | done].
  - pose proof (requeue_ok u m cpu st q Hw Hok) as Hs. unfold wp in Hs. rewrite E in Hs. apply Hs.
  - by eapply remote_ok_frame.
Qed.

(** C22: The remote tick of a CPU in full dynticks mode, under every interleaving
    of hotplug callbacks, runs of the work and other code: the state is RUNNING
    exactly while the CPU is up; while the state is not OFFLINE the work is
    queued or running and never both, and in OFFLINE there is none.  No warning
    fires in sched_tick_start(), sched_tick_stop() or at the end of
    sched_tick_remote(), which queues the work again while the CPU is up and
    otherwise ends in OFFLINE. *)
Theorem remote_tick_state_machine s0 s :
  remote_ok s0 -> rtc remote_step s0 s ->
  exists cpu st q, works (mach s) !! c = Some (cpu, st, q) /\
    (st = TICK_SCHED_REMOTE_RUNNING <-> up s = true) /\
    q + b2z (running s) = b2z (negb (st =? TICK_SCHED_REMOTE_OFFLINE)) /\
    (up s = false -> quietly true (running s) (sched_tick_start c) (mach s)) /\
    (up s = true -> quietly false (running s) (sched_tick_stop c) (mach s)) /\
    (running s = true -> wp (remote_requeue c cpu) (fun _ m' => m_log m' = m_log (mach s) /\
       works m' !! c = Some (c, if up s then TICK_SCHED_REMOTE_RUNNING else TICK_SCHED_REMOTE_OFFLINE, b2z (up s))) (mach s)).
Proof.
  intros H0 Hs. assert (Hok : remote_ok s) by (induction Hs as [|s1 s2 s3 Hs1 _ IH]; [done | by apply IH, (remote_step_ok s1)]).
  destruct s as [u b m]. destruct (Hok) as (_ & [[cpu st] q] & Hw & [_ Hup _ Honce _]). cbn in *. exists cpu, st, q.
  split_and!; [done | done | done | | |].
  - intros ->. by apply start_ok.
  - intros ->. by apply stop_ok.
  - intros ->. eapply wp_mono; [by apply (requeue_ok u m cpu st q)|]. by intros _ m' (_ & ? & ?).
Qed.
End Remote.

(** ** The CPU for a timer *)
Definition idle_rq (q : rq) : bool :=
  ((rq_curr q =? rq_idle q) && negb (truthy (rq_nr_running q)) && negb (truthy (rq_ttwu_pending q)))%bool.

(** [i] runs something or is about to. *)
Definition busy (m : machine) (i : Z) : Prop := exists q, m_rqs m !! i = Some q /\ idle_rq q = false.

Section TimerTarget.
Context {H : Headers} {X : Extern} {Mg : MigrateExtern} {CX : CoreExtern} {TX : TickExtern}.

Lemma wp_idle_cpu i q (Q : Z -> machine -> Prop) m :
  m_rqs m !! i = Some q -> Q (b2z (idle_rq q)) m -> wp (idle_cpu i) Q m.
Proof.
  intros Hq HQ. unfold idle_cpu, idle_rq in *. apply wp_bind, wp_deref. exists q. split; [done|].
  destruct (rq_curr q =? rq_idle q); cbn [negb andb] in *; [|by apply wp_ret].
  destruct (truthy (rq_nr_running q)); cbn [negb andb] in *; [by apply wp_ret|].
  destruct (truthy (rq_ttwu_pending q)); by apply wp_ret.
Qed.

(** The CPU found is busy; when none is found, none is. *)
Definition found (m : machine) (this : Z) (D : Z -> Prop) (o : option Z) : Prop :=
  match o with
  | Some i => D i /\ i <> this /\ busy m i
  | None => forall i, D i -> i <> this -> ~ busy m i
  end.

Lemma wp_first_busy this l (Q : option Z -> machine -> Prop) m :
  (forall i, i ∈ l -> is_Some (m_rqs m !! i)) -> (forall o, found m this (.∈ l) o -> Q o m) -> wp (first_busy this l) Q m.
Proof.
  revert Q. induction l as [|i l IH]; intros Q Hl HQ; cbn; [apply wp_ret, HQ; by intros i ?%elem_of_nil|].
  assert (Hrest : ~ busy m i \/ i = this -> forall o, found m this (.∈ l) o -> found m this (.∈ i :: l) o).
  { intros Hi [j|]; cbn.
    - intros (Hj & Hn & Hb). split; [by apply list_elem_of_further | done].
    - intros Hno j [->|Hj]%elem_of_cons Hn; [by destruct Hi | by apply Hno]. }
  assert (Hl' : forall j, j ∈ l -> is_Some (m_rqs m !! j)) by (intros j Hj; by apply Hl, list_elem_of_further).
  destruct (Z.eqb_spec this i) as [->|Hn]; [apply IH; auto|].
  destruct (Hl i) as [q Hq]; [apply list_elem_of_here|]. apply wp_bind, (wp_idle_cpu i q _ _ Hq).
  destruct (idle_rq q) eqn:E; cbn.
  - apply IH; [done|]. intros o Ho. apply HQ, Hrest; [|done]. left. intros (q' & Hq' & E'). congruence.
  - apply wp_ret, HQ. cbn. split; [apply list_elem_of_here|]. split; [done | by exists q].
Qed.

Lemma wp_busy_in_domains this hk spans (Q : option Z -> machine -> Prop) m :
  (forall i, i ∈ hk -> is_Some (m_rqs m !! i)) ->
  (forall o, found m this (fun i => i ∈ hk /\ exists sd, sd ∈ spans /\ i ∈ sd) o -> Q o m) ->
  wp (busy_in_domains this hk spans) Q m.
Proof.
  intros Hhk. revert Q. induction spans as [|sd spans IH]; intros Q HQ; cbn.
  { apply wp_ret, HQ. intros i (_ & sd & ?%elem_of_nil & _). done. }
  apply wp_bind, wp_first_busy.
  { intros i Hi%elem_of_for_each_cpu. apply Hhk. set_solver. }
  intros [i|] Ho; cbn in Ho.
  - apply wp_ret, HQ. destruct Ho as (Hi%elem_of_for_each_cpu & Hn & Hb). cbn. split; [|done]. split; [set_solver|].
    exists sd. split; [apply list_elem_of_here | set_solver].
  - apply IH. intros o Ho'. apply HQ. destruct o as [j|]; cbn in *.
    + destruct Ho' as ((Hj & sd' & Hin & Hjs) & Hn & Hb). split; [|done]. split; [done|]. exists sd'. split; [by apply list_elem_of_further | done].
    + intros j (Hj & sd' & [->|Hin]%elem_of_cons & Hjs) Hn; [|apply Ho'; [by split; [|exists sd'] | done]].
      apply Ho; [apply elem_of_for_each_cpu; set_solver | done].
Qed.

(** get_nohz_timer_target() keeps the timer on this CPU when it is a
    housekeeping CPU and busy; otherwise it returns a busy housekeeping CPU of
    the scheduling domains of this CPU, or, when all of these are idle, this CPU
    if it is a housekeeping one and any housekeeping CPU if not.  It changes no
    state. *)
Theorem nohz_timer_target m :
  (forall i, i ∈ housekeeping_cpumask HK_FLAG_TIMER -> is_Some (m_rqs m !! i)) -> is_Some (m_rqs m !! m_this_cpu m) -> 0 <= m_this_cpu m ->
  wp (housekeeping_any_cpu HK_FLAG_TIMER) (fun t m' => m' = m /\ t ∈ housekeeping_cpumask HK_FLAG_TIMER) m ->
  wp get_nohz_timer_target (fun t m' => m' = m /\
    let this := m_this_cpu m in
    let near i := i ∈ housekeeping_cpumask HK_FLAG_TIMER /\ exists sd, sd ∈ sched_domain_spans this m /\ i ∈ sd in
    (housekeeping_cpu this HK_FLAG_TIMER = true /\ busy m this /\ t = this) \/
    (~ (housekeeping_cpu this HK_FLAG_TIMER = true /\ busy m this) /\ near t /\ t <> this /\ busy m t) \/
    ((forall i, near i -> i <> this -> ~ busy m i) /\
      if housekeeping_cpu this HK_FLAG_TIMER then ~ busy m this /\ t = this
      else t ∈ housekeeping_cpumask HK_FLAG_TIMER)) m.
Proof.
  intros Hhk [q Hq] H0 Hany. unfold get_nohz_timer_target. apply wp_bind, wp_gets. cbv zeta. set (this := m_this_cpu m) in *.
  set (near := fun i => i ∈ housekeeping_cpumask HK_FLAG_TIMER /\ exists sd, sd ∈ sched_domain_spans this m /\ i ∈ sd).
  assert (Hgo : forall d (Q : Z -> machine -> Prop), (forall t, near t -> t <> this -> busy m t -> Q t m) ->
    ((forall i, near i -> i <> this -> ~ busy m i) -> if d =? -1 then wp (housekeeping_any_cpu HK_FLAG_TIMER) Q m else Q d m) ->
    wp (nohz_search this d) Q m).
  { intros d Q H1 H2. unfold nohz_search. apply wp_bind, wp_gets, wp_bind, wp_busy_in_domains; [done|].
    intros [i|] Ho; cbn in Ho; [apply wp_ret; by apply H1; destruct_and? Ho|].
    specialize (H2 Ho). destruct (d =? -1); [done | by apply wp_ret]. }
  destruct (housekeeping_cpu this HK_FLAG_TIMER) eqn:Ehk.
  - apply wp_bind, (wp_idle_cpu this q _ _ Hq). destruct (idle_rq q) eqn:Ei; cbn.
    + assert (Hnb : ~ busy m this) by (intros (q' & Hq' & E'); congruence).
      apply Hgo; [intros t Ht Hn Hb; split; [done|]; right; left; split; [by intros [_ ?] | done]|]. intros Hno.
      destruct (Z.eqb_spec this (-1)) as [E|_]; [lia|]. split; [done|]. right. right. done.
    + apply wp_ret. split; [done|]. left. split; [done|]. split; [by exists q | done].
  - apply Hgo; [intros t Ht Hn Hb; split; [done|]; right; left; split; [by intros [? _] | done]|]. intros Hno. cbn.
    eapply wp_mono; [exact Hany|]. cbn. intros t m' [-> Ht]. split; [done|]. right. right. by split.
Qed.
End TimerTarget.
