(* ===== verification/Hotplug.v ===== *)
(** CPU hotplug in the scheduler (core.c): the callbacks that take a CPU out of
    service and bring it back, and pushing the tasks off a CPU that goes away.

    The control of hotplug (kernel/cpu.c), the scheduling domains (topology.c),
    cpusets and the class callbacks are parameters. *)
From S2P Require Import Prelude Headers Kernel Extern RqClock Uclamp Prio Affinity Migrate.
From S2P Require Import Wakeup Schedule CoreSched Tick.

Class HotplugExtern := {
  cl_rq_online : sched_class -> Z -> K unit;     (* skip when the class has none *)
  cl_rq_offline : sched_class -> Z -> K unit;
  cpuhp_tasks_frozen : bool;
  partition_sched_domains : K unit;
  cpuset_force_rebuild : K unit;
  cpuset_update_active_cpus : K unit;
  dl_cpu_busy : Z -> K bool;
  sched_smp_initialized : bool;
  sched_domains_numa_masks_set : Z -> K unit;
  sched_domains_numa_masks_clear : Z -> K unit;
  nohz_balance_exit_idle : Z -> K unit;
  rcuwait_active : Z -> K bool;
  rcuwait_wait_event : K bool -> K unit;
  calc_load_update : machine -> Z;
  calc_load_fold_active : Z -> Z -> K Z;
}.

Section Hotplug.
Context {H : Headers} {X : Extern} {Mg : MigrateExtern} {CX : CoreExtern} {TX : TickExtern} {HX : HotplugExtern}.

Definition set_cpu_active (cpu : Z) (active : bool) : K unit :=
  modify (fun m => m <| m_cpu_active := if active then {[cpu]} ∪ m_cpu_active m else m_cpu_active m ∖ {[cpu]} |>).

(** * Pushing tasks away *)
Definition idle_task_exit : K unit :=
  current ← gets m_current;
  mm ← current ⇝ ts_active_mm;
  m ← get_state;
  let this := m_this_cpu m in
  (if bool_decide (this ∈ m_cpu_online m) then stuck BUG else mret tt) ;;
  idle ← this ⇝ rq_idle;
  (if negb (current =? idle) then stuck BUG else mret tt) ;;
  when (negb (mm =? m_init_mm m))
    (emit "switch_mm" [mm; m_init_mm m; current] ;;
     emit "finish_arch_post_lock_switch" []).

Definition __balance_push_cpu_stop (p : Z) : K Z :=
  r ← gets m_this_cpu;
  update_rq_clock r ;;
  t ← deref (R := task_struct) p;
  when ((ts_cpu t =? r) && task_on_rq_queued t)
    (c ← r ⇝ rq_cpu;
     cpu ← select_fallback_rq c p;
     __migrate_task r p cpu ;;
     mret tt) ;;
  put_task_struct p ;;
  mret 0.

Definition balance_push (r : Z) : K unit :=
  push_task ← r ⇝ rq_curr;
  set! r ⇝ rq_balance_callback := [balance_push_cb] ;;
  cpu ← r ⇝ rq_cpu;
  m ← get_state;
  if (negb (bool_decide (cpu ∈ m_cpu_dying m)) || negb (r =? m_this_cpu m))%bool then mret tt
  else
    t ← deref (R := task_struct) push_task;
    if (kthread_is_per_cpu m push_task || is_migration_disabled t)%bool then
      n ← r ⇝ rq_nr_running;
      pinned ← rq_has_pinned_tasks r;
      wake ← (if (negb (truthy n) && negb pinned)%bool then rcuwait_active r else mret false);
      when wake (emit "rcuwait_wake_up" [r])
    else
      get_task_struct push_task ;;
      stop_one_cpu_nowait cpu "__balance_push_cpu_stop" push_task.

(** rq->balance_callback == &balance_push_callback *)
Definition is_balance_push (cbs : list callback) : bool :=
  match cbs with balance_push_cb :: _ => true | _ => false end.

Definition balance_push_set (cpu : Z) (on : bool) : K unit :=
  cbs ← cpu ⇝ rq_balance_callback;
  if on then
    warn_on (match cbs with [] => false | _ => true end) [cpu] ;;
    set! cpu ⇝ rq_balance_callback := [balance_push_cb]
  else when (is_balance_push cbs) (set! cpu ⇝ rq_balance_callback := []).

Definition balance_hotplug_wait : K unit :=
  r ← gets m_this_cpu;
  rcuwait_wait_event
    (n ← r ⇝ rq_nr_running;
     pinned ← rq_has_pinned_tasks r;
     mret ((n =? 1) && negb pinned)%bool).

(** * The run queue of a CPU in its root domain *)
Definition set_rq_online (r : Z) : K unit :=
  on ← r ⇝ cr_online;
  when (negb on)
    (set! r ⇝ cr_rd_online := true ;;
     set! r ⇝ cr_online := true ;;
     mapM_ (fun class => cl_rq_online class r) all_classes).

Definition set_rq_offline (r : Z) : K unit :=
  on ← r ⇝ cr_online;
  when on
    (mapM_ (fun class => cl_rq_offline class r) all_classes ;;
     set! r ⇝ cr_rd_online := false ;;
     set! r ⇝ cr_online := false).

(** * The callbacks *)
Definition cpuset_cpu_active : K unit :=
  let frozen := cpuhp_tasks_frozen in
  last ← (if negb frozen then mret true
          else
            partition_sched_domains ;;
            setsmt (fun s => s <| sm_frozen := sm_frozen s - 1 |>) ;;
            n ← gets (fun m => sm_frozen (m_smt m));
            if truthy n then mret false
            else cpuset_force_rebuild ;; mret true);
  when last cpuset_update_active_cpus.

Definition cpuset_cpu_inactive (cpu : Z) : K (cres unit) :=
  let frozen := cpuhp_tasks_frozen in
  if negb frozen then
    b ← dl_cpu_busy cpu;
    if (b : bool) then mret (Err EBUSY)
    else cpuset_update_active_cpus ;; mret (Ok tt)
  else
    setsmt (fun s => s <| sm_frozen := sm_frozen s + 1 |>) ;;
    partition_sched_domains ;;
    mret (Ok tt).

Definition smt_present_add (cpu n : Z) : K unit :=
  mask ← gets (cpu_smt_mask cpu);
  when (size mask =? 2)%nat (setsmt (fun s => s <| sm_smt_present := sm_smt_present s + n |>)).

(** BUG_ON(!cpumask_test_cpu(cpu, rq->rd->span)) *)
Definition check_span (cpu : Z) : K unit :=
  span ← cpu ⇝ rq_span;
  if bool_decide (cpu ∈ span) then mret tt else stuck BUG.

Definition sched_cpu_activate (cpu : Z) : K Z :=
  balance_push_set cpu false ;;
  smt_present_add cpu 1 ;;
  set_cpu_active cpu true ;;
  when sched_smp_initialized
    (sched_domains_numa_masks_set cpu ;;
     cpuset_cpu_active) ;;
  rd ← cpu ⇝ cr_rd;
  when rd (check_span cpu ;; set_rq_online cpu) ;;
  mret 0.

Definition sched_cpu_deactivate (cpu : Z) : K (cres unit) :=
  nohz_balance_exit_idle cpu ;;
  set_cpu_active cpu false ;;
  balance_push_set cpu true ;;
  emit "synchronize_rcu" [] ;;
  rd ← cpu ⇝ cr_rd;
  when rd (update_rq_clock cpu ;; check_span cpu ;; set_rq_offline cpu) ;;
  smt_present_add cpu (-1) ;;
  sched_core_cpu_deactivate cpu ;;
  if negb sched_smp_initialized then mret (Ok tt)
  else
    ret ← cpuset_cpu_inactive cpu;
    match ret with
    | Err _ =>
        balance_push_set cpu false ;;
        set_cpu_active cpu true ;;
        mret ret
    | Ok _ =>
        sched_domains_numa_masks_clear cpu ;;
        mret (Ok tt)
    end.

Definition sched_rq_cpu_starting (cpu : Z) : K unit :=
  u ← gets calc_load_update;
  set! cpu ⇝ cr_calc_load_update := u ;;
  emit "update_max_interval" [].

Definition sched_cpu_starting (cpu : Z) : K Z :=
  sched_core_cpu_starting cpu ;;
  sched_rq_cpu_starting cpu ;;
  sched_tick_start cpu ;;
  mret 0.

Definition sched_cpu_wait_empty (cpu : Z) : K Z := balance_hotplug_wait ;; mret 0.

Definition calc_load_migrate (r : Z) : K unit :=
  delta ← calc_load_fold_active r 1;
  when (truthy delta)
    (setsmt (fun s => s <| sm_calc_load_tasks := s64 (sm_calc_load_tasks s + delta) |>)).

Definition sched_cpu_dying (cpu : Z) : K Z :=
  sched_tick_stop cpu ;;
  n ← cpu ⇝ rq_nr_running;
  pinned ← rq_has_pinned_tasks cpu;
  when (negb (n =? 1) || pinned)
    (emit "WARN Dying CPU not properly vacated!" [cpu] ;;
     emit "dump_rq_tasks" [cpu]) ;;
  calc_load_migrate cpu ;;
  emit "update_max_interval" [] ;;
  hrtick_clear cpu ;;
  sched_core_cpu_dying cpu ;;
  mret 0.
End Hotplug.
