(* ===== verification/HotplugProofs.v ===== *)
(** Correctness of the hotplug callbacks: taking a CPU out of service and
    bringing it back restores its state, and what is left undone when taking it
    out is refused. *)
From S2P Require Import Prelude Headers Kernel Extern RqClock Uclamp Prio SchedOK Affinity.
From S2P Require Import AffinityProofs Migrate MigrateProofs.
From S2P Require Import Wakeup WakeProofs Schedule CoreSched Tick Hotplug.

(** ** The state the callbacks keep *)
Definition hot_rq (q : rq) := (rq_balance_callback q, rq_span q).
Definition hot_core (c : core_rq) := (cr_rd c, cr_online c, cr_rd_online c).
Definition hot_rest (m : machine) :=
  (hot_core <$> sm_rqs (m_smt m), m_cpu_online m, m_cpu_active m,
   (sm_smt_present (m_smt m), sm_frozen (m_smt m), sm_numa_masks (m_smt m))).
Abbreviation hot_frame := (frame (fun _ : task_struct => tt) hot_rq hot_rest).

Definition with_numa (g : gset Z -> gset Z) (m : machine) : machine :=
  m <| m_smt := (m_smt m) <| sm_numa_masks := g (sm_numa_masks (m_smt m)) |> |>.

Class HotplugExternOK {H : Headers} {X : Extern} (HX : HotplugExtern) : Prop := {
  rq_online_spec c r m : kernel_ok m -> is_Some (m_rqs m !! r) ->
    wp (cl_rq_online c r) (fun _ m' => kernel_ok m' /\ hot_frame m m') m;
  rq_offline_spec c r m : kernel_ok m -> is_Some (m_rqs m !! r) ->
    wp (cl_rq_offline c r) (fun _ m' => kernel_ok m' /\ hot_frame m m') m;
  (** the rebuild of the domains is left to a work item *)
  update_active_spec m : kernel_ok m -> wp cpuset_update_active_cpus (fun _ m' => kernel_ok m' /\ hot_frame m m') m;
  dl_cpu_busy_spec c m : kernel_ok m -> is_Some (m_rqs m !! c) ->
    wp (dl_cpu_busy c) (fun _ m' => kernel_ok m' /\ hot_frame m m') m;
  exit_idle_spec r m : kernel_ok m -> is_Some (m_rqs m !! r) ->
    wp (nohz_balance_exit_idle r) (fun _ m' => kernel_ok m' /\ hot_frame m m') m;
  numa_set_spec c m : kernel_ok m ->
    wp (sched_domains_numa_masks_set c) (fun _ m' => kernel_ok m' /\ hot_frame (with_numa ({[c]} ∪.) m) m') m;
  numa_clear_spec c m : kernel_ok m ->
    wp (sched_domains_numa_masks_clear c) (fun _ m' => kernel_ok m' /\ hot_frame (with_numa (.∖ {[c]}) m) m') m;
  clock_hot c : preserves hot_frame (sched_clock_cpu c);
  irq_hot c : preserves hot_frame (irq_time_read c);
  steal_hot c : preserves hot_frame (paravirt_steal_clock c);
}.
#[export] Hint Resolve clock_hot irq_hot steal_hot : preserve.

Section Hotplug.
Context {H : Headers} {X : Extern} {Mg : MigrateExtern} {CX : CoreExtern} {TX : TickExtern} {HX : HotplugExtern}.
Context {HOK : HeadersOK H} {XOK : ExternOK X} {XS : ExternSafe X} {TOK : TopologyOK CX} {HXOK : HotplugExternOK HX}.
Context (cpu : Z).

(** The state of [cpu]; [hv_smt] and the masks are the global ones. *)
Record hview : Type := Mk_hview {
  hv_cpus : gset Z;
  hv_active : gset Z;
  hv_cb : list callback;
  hv_online : bool;
  hv_rd_online : bool;
  hv_smt : Z;
  hv_frozen : Z;
  hv_numa : gset Z;
}.
#[export] Instance eta_hview : Eta hview := fun v =>
  Mk_hview (hv_cpus v) (hv_active v) (hv_cb v) (hv_online v) (hv_rd_online v) (hv_smt v) (hv_frozen v) (hv_numa v).

Lemma hview_ext V W : hv_cpus V = hv_cpus W -> hv_active V = hv_active W -> hv_cb V = hv_cb W -> hv_online V = hv_online W ->
  hv_rd_online V = hv_rd_online W -> hv_smt V = hv_smt W -> hv_frozen V = hv_frozen W -> hv_numa V = hv_numa W -> V = W.
Proof. destruct V, W. cbn. by intros -> -> -> -> -> -> -> ->. Qed.

Record hot (V : hview) (m : machine) : Prop := Mk_hot {
  ho_ok : kernel_ok m;
  ho_rq : exists q, m_rqs m !! cpu = Some q /\ rq_balance_callback q = hv_cb V /\ cpu ∈ rq_span q;
  ho_core : exists c, sm_rqs (m_smt m) !! cpu = Some c /\ hot_core c = (true, hv_online V, hv_rd_online V);
  ho_siblings t : t ∈ cpu_smt_mask cpu m -> is_Some (sm_rqs (m_smt m) !! t);
  ho_glob : (m_cpu_online m, m_cpu_active m, (sm_smt_present (m_smt m), sm_frozen (m_smt m), sm_numa_masks (m_smt m))) =
    (hv_cpus V, hv_active V, (hv_smt V, hv_frozen V, hv_numa V));
}.

Lemma hot_core_lookup m m' i c : hot_core <$> sm_rqs (m_smt m) = hot_core <$> sm_rqs (m_smt m') ->
  sm_rqs (m_smt m) !! i = Some c -> exists c', sm_rqs (m_smt m') !! i = Some c' /\ hot_core c' = hot_core c.
Proof.
  intros E Hc. apply (f_equal (.!! i)) in E. rewrite !lookup_fmap, Hc in E.
  destruct (sm_rqs (m_smt m') !! i) as [c'|]; [|done]. exists c'. cbn in E. split; congruence.
Qed.

Lemma hot_env V m m' : hot V m -> kernel_ok m' -> hot_frame m m' -> hot V m'.
Proof.
  intros [Hok (q & Hq & Ecb & Hsp) (c & Hc & Ec) Hs Hg] Hok' F. pose proof F as (_ & _ & E). unfold hot_rest in E. split.
  - done.
  - destruct (frame_rq _ _ _ _ _ _ _ F Hq) as (q' & Hq' & Eq). exists q'. unfold hot_rq in Eq.
    split; [done|]. split; [congruence|]. assert (rq_span q' = rq_span q) as -> by congruence. done.
  - destruct (hot_core_lookup m m' cpu c) as (c' & Hc' & Ec'); [congruence | done |]. exists c'. split; [done | congruence].
  - intros t. rewrite <- (smt_mask_stable cpu m m') by congruence. intros Ht. destruct (Hs t Ht) as [ct Hct].
    destruct (hot_core_lookup m m' t ct) as (ct' & Hct' & _); [congruence | done |]. by eexists.
  - injection E as _ <- <- <- <- <-. done.
Qed.

Lemma wp_hot {A} (op : K A) V (Q : A -> machine -> Prop) m :
  hot V m -> wp op (fun _ m' => kernel_ok m' /\ hot_frame m m') m -> (forall a m', hot V m' -> Q a m') -> wp op Q m.
Proof. intros Hh Hw HQ. eapply wp_mono; [exact Hw|]. intros a m' [Hok F]. apply HQ. by eapply hot_env. Qed.

Lemma hot_is_rq V m : hot V m -> is_Some (m_rqs m !! cpu).
Proof. intros Hh. destruct (ho_rq _ _ Hh) as (q & Hq & _). by eexists. Qed.

Lemma hot_update_rq_clock r : preserves hot_frame (update_rq_clock r).
Proof. unfold update_rq_clock, update_rq_clock_task. framed. all: by apply frame_emit. Qed.

Lemma wp_hot_clock V (Q : unit -> machine -> Prop) m :
  hot V m -> (forall m', hot V m' -> Q tt m') -> wp (update_rq_clock cpu) Q m.
Proof.
  intros Hh HQ. apply (wp_hot _ V); [done | | by intros []].
  assert (Hr : returns (update_rq_clock cpu) m) by (apply clock_update_returns; [apply Hh | by eapply hot_is_rq]).
  apply wp_run in Hr as (a & m' & E & _). apply wp_run. exists a, m'. split; [done|].
  split; [|by eapply hot_update_rq_clock]. eapply kernel_ok_quiet; [|apply Hh].
  assert (Hp : preserves quiet_frame (update_rq_clock cpu)) by auto with preserve. by eapply Hp.
Qed.

(** ** Updates of the state *)
Lemma wp_hot_emit n a V (Q : unit -> machine -> Prop) m :
  hot V m -> (forall m', hot V m' -> Q tt m') -> wp (emit n a) Q m.
Proof.
  intros Hh HQ. apply (wp_hot _ V); [done | | by intros []]. apply wp_emit. split; [|done].
  eapply kernel_ok_frame; [|apply Hh]. done.
Qed.

Lemma wp_hot_active (b : bool) V (Q : unit -> machine -> Prop) m :
  hot V m -> (forall m', hot (V <| hv_active := if b then {[cpu]} ∪ hv_active V else hv_active V ∖ {[cpu]} |>) m' -> Q tt m') ->
  wp (set_cpu_active cpu b) Q m.
Proof.
  intros [Hok Hq Hc Hs Hg] HQ. apply wp_modify, HQ. split; try done.
  - eapply kernel_ok_frame; [|exact Hok]. done.
  - intros t. rewrite (smt_mask_stable cpu _ m) by done. apply Hs.
  - cbn. injection Hg as -> -> -> -> ->. done.
Qed.

Lemma wp_hot_smt (g : smt_state -> smt_state) (f n : Z -> Z) (a : gset Z -> gset Z) V (Q : unit -> machine -> Prop) m :
  hot V m -> (forall s, sm_rqs (g s) = sm_rqs s) ->
  (forall s, (sm_smt_present (g s), sm_frozen (g s), sm_numa_masks (g s)) = (f (sm_smt_present s), n (sm_frozen s), a (sm_numa_masks s))) ->
  (forall m', hot (V <| hv_smt := f (hv_smt V) |> <| hv_frozen := n (hv_frozen V) |> <| hv_numa := a (hv_numa V) |>) m' -> Q tt m') ->
  wp (setsmt g) Q m.
Proof.
  intros [Hok Hq Hc Hs Hg] Hr Hf HQ. apply wp_modify, HQ. split; try done; cbn; rewrite ?Hr; try done.
  - eapply kernel_ok_frame; [|exact Hok]. done.
  - intros t. rewrite (smt_mask_stable cpu _ m) by done. apply Hs.
  - rewrite Hf. injection Hg as -> -> -> -> ->. done.
Qed.

Lemma wp_hot_cb l V (Q : unit -> machine -> Prop) m :
  hot V m -> (forall m', hot (V <| hv_cb := l |>) m' -> Q tt m') -> wp (set! cpu ⇝ rq_balance_callback := l) Q m.
Proof.
  intros [Hok (q & Hq & Ecb & Hsp) Hc Hs Hg] HQ. apply wp_wr. exists q. split; [done|]. apply HQ. split; try done.
  - eapply kernel_ok_frame; [|exact Hok]. by eapply frame_set_rq.
  - exists (q <| rq_balance_callback := l |>). cbn. by rewrite lookup_insert_eq.
  - intros t. rewrite (smt_mask_stable cpu _ m) by done. apply Hs.
Qed.

(** The per-CPU record of [i]; only the one of [cpu] is in the view. *)
Lemma wp_hot_upd i g h V (Q : unit -> machine -> Prop) m :
  hot V m -> is_Some (sm_rqs (m_smt m) !! i) -> (forall c, hot_core (g c) = h (hot_core c)) ->
  (forall m', hot (if decide (i = cpu) then
       V <| hv_online := (h (true, hv_online V, hv_rd_online V)).1.2 |> <| hv_rd_online := (h (true, hv_online V, hv_rd_online V)).2 |>
     else V) m' -> Q tt m') ->
  (forall x, (h x).1.1 = x.1.1) -> wp (upd_obj i g) Q m.
Proof.
  intros [Hok Hq (c & Hc & Ec) Hs Hg] [ci Hi] Hh HQ Hrd. apply wp_upd_obj. exists ci. split; [exact Hi|]. apply HQ. split.
  - eapply kernel_ok_frame; [|exact Hok]. done.
  - destruct Hq as (q & Hq & Ecb & Hsp). exists q. split; [exact Hq|]. by case_decide.
  - cbn. case_decide as E.
    + subst i. exists (g ci). rewrite lookup_insert_eq. split; [done|]. assert (ci = c) as -> by congruence. rewrite Hh, Ec.
      pose proof (Hrd (true, hv_online V, hv_rd_online V)) as E. cbn in E. destruct (h _) as [[x y] z]. cbn in *. by subst x.
    + exists c. by rewrite lookup_insert_ne by done.
  - intros t. rewrite (smt_mask_stable cpu _ m) by done. cbn. intros Ht. rewrite lookup_insert_is_Some'. right. by apply Hs.
  - cbn. rewrite Hg. by case_decide.
Qed.

Lemma hot_is_core V m : hot V m -> is_Some (sm_rqs (m_smt m) !! cpu).
Proof. intros Hh. destruct (ho_core _ _ Hh) as (c & Hc & _). by eexists. Qed.

Lemma wp_hot_other i g V (Q : unit -> machine -> Prop) m :
  hot V m -> is_Some (sm_rqs (m_smt m) !! i) -> (forall c, hot_core (g c) = hot_core c) ->
  (forall m', hot V m' -> Q tt m') -> wp (upd_obj i g) Q m.
Proof. intros Hh Hi Hg HQ. apply (wp_hot_upd i g (fun x => x) V); [done.. | | done]. intros m'. case_decide; [|apply HQ]. destruct V. apply HQ. Qed.

Lemma wp_hot_rd_online b V (Q : unit -> machine -> Prop) m :
  hot V m -> (forall m', hot (V <| hv_rd_online := b |>) m' -> Q tt m') -> wp (set! cpu ⇝ cr_rd_online := b) Q m.
Proof.
  intros Hh HQ. apply (wp_hot_upd cpu (fun c => c <| cr_rd_online := b |>) (fun x => (x.1.1, x.1.2, b)) V); [done | by eapply hot_is_core | done | | done].
  intros m'. case_decide; [apply HQ | done].
Qed.

Lemma wp_hot_online b V (Q : unit -> machine -> Prop) m :
  hot V m -> (forall m', hot (V <| hv_online := b |>) m' -> Q tt m') -> wp (set! cpu ⇝ cr_online := b) Q m.
Proof.
  intros Hh HQ. apply (wp_hot_upd cpu (fun c => c <| cr_online := b |>) (fun x => (x.1.1, b, x.2)) V); [done | by eapply hot_is_core | done | | done].
  intros m'. case_decide; [apply HQ | done].
Qed.

Lemma wp_hot_rd {E} (f : core_rq -> E) (g : bool * bool * bool -> E) V (Q : E -> machine -> Prop) m :
  (forall c, f c = g (hot_core c)) -> hot V m -> Q (g (true, hv_online V, hv_rd_online V)) m -> wp (cpu ⇝ f) Q m.
Proof. intros Hf Hh HQ. destruct (ho_core _ _ Hh) as (c & Hc & Ec). apply wp_rd. exists c. split; [exact Hc|]. by rewrite Hf, Ec. Qed.

(** ** The parts of the callbacks *)
Lemma wp_set_rq_online V (Q : unit -> machine -> Prop) m :
  hot V m -> hv_online V = hv_rd_online V ->
  (forall m', hot (V <| hv_online := true |> <| hv_rd_online := true |>) m' -> Q tt m') -> wp (set_rq_online cpu) Q m.
Proof.
  intros Hh E HQ. unfold set_rq_online. apply wp_bind, (wp_hot_rd _ (fun x => x.1.2) V _ _ (fun _ => eq_refl) Hh). cbn [fst snd].
  destruct (hv_online V) eqn:Eo; cbn [negb when].
  - apply wp_ret, HQ. destruct V. cbn in *. by subst.
  - apply wp_bind, (wp_hot_rd_online true V); [done|]. clear m Hh. intros m Hh.
    apply wp_bind, (wp_hot_online true _ _ _ Hh). clear m Hh. intros m Hh.
    eapply wp_mapM_inv; [|exact Hh | by destruct V]. intros c m' _ Hh'.
    apply (wp_hot _ _ _ _ Hh'); [|done]. apply rq_online_spec; [apply Hh' | by eapply hot_is_rq].
Qed.

Lemma wp_set_rq_offline V (Q : unit -> machine -> Prop) m :
  hot V m -> hv_online V = hv_rd_online V ->
  (forall m', hot (V <| hv_online := false |> <| hv_rd_online := false |>) m' -> Q tt m') -> wp (set_rq_offline cpu) Q m.
Proof.
  intros Hh E HQ. unfold set_rq_offline. apply wp_bind, (wp_hot_rd _ (fun x => x.1.2) V _ _ (fun _ => eq_refl) Hh). cbn [fst snd].
  destruct (hv_online V) eqn:Eo; cbn [when].
  - apply wp_bind. eapply wp_mapM_inv; [|exact Hh|].
    + intros c m' _ Hh'. apply (wp_hot _ _ _ _ Hh'); [|done]. apply rq_offline_spec; [apply Hh' | by eapply hot_is_rq].
    + clear m Hh. intros m Hh. apply wp_bind, (wp_hot_rd_online false _ _ _ Hh). clear m Hh. intros m Hh.
      apply (wp_hot_online false _ _ _ Hh). by destruct V.
  - apply wp_ret, HQ. destruct V. cbn in *. by subst.
Qed.

Lemma wp_check_span V (Q : unit -> machine -> Prop) m : hot V m -> Q tt m -> wp (check_span cpu) Q m.
Proof.
  intros Hh HQ. destruct (ho_rq _ _ Hh) as (q & Hq & _ & Hsp). unfold check_span. apply wp_bind, wp_rd. exists q. split; [done|].
  rewrite bool_decide_true by done. by apply wp_ret.
Qed.

Lemma wp_balance_push_set (b : bool) V (Q : unit -> machine -> Prop) m :
  hot V m -> hv_cb V = (if b then [] else [balance_push_cb]) ->
  (forall m', hot (V <| hv_cb := if b then [balance_push_cb] else [] |>) m' -> Q tt m') -> wp (balance_push_set cpu b) Q m.
Proof.
  intros Hh E HQ. destruct (ho_rq _ _ Hh) as (q & Hq & Ecb & _). unfold balance_push_set, warn_on. apply wp_bind, wp_rd. exists q.
  split; [done|]. rewrite Ecb, E. destruct b; cbn [when is_balance_push]; [apply wp_bind, wp_ret|]; by apply (wp_hot_cb _ V).
Qed.

(** Two threads per core: the core counts. *)
Definition smt_core (m : machine) : Z := b2z (size (cpu_smt_mask cpu m) =? 2)%nat.

Lemma wp_smt_present_add n V (Q : unit -> machine -> Prop) m :
  hot V m -> (forall m', hot (V <| hv_smt := hv_smt V + n * smt_core m |>) m' -> Q tt m') ->
  wp (smt_present_add cpu n) Q m.
Proof.
  intros Hh HQ. unfold smt_present_add, smt_core in *. apply wp_bind, wp_gets. destruct (_ =? 2)%nat; cbn [when b2z] in *.
  - replace (n * 1) with n in HQ by lia. unfold setsmt. apply wp_modify, HQ.
    assert (Hw : wp (setsmt (fun s => s <| sm_smt_present := sm_smt_present s + n |>))
      (fun _ m' => hot (V <| hv_smt := hv_smt V + n |>) m') m); [|exact Hw].
    apply (wp_hot_smt _ (fun x => x + n) (fun x => x) (fun x => x) V); [done..|]. by destruct V.
  - apply wp_ret, HQ. replace (hv_smt V + n * 0) with (hv_smt V) by lia. by destruct V.
Qed.

Lemma wp_sched_core_cpu_deactivate V (Q : unit -> machine -> Prop) m :
  hot V m -> (forall m', hot V m' -> Q tt m') -> wp (sched_core_cpu_deactivate cpu) Q m.
Proof.
  intros Hh HQ. unfold sched_core_cpu_deactivate. apply wp_bind, wp_gets. destruct (ho_core _ _ Hh) as (c & Hc & _).
  apply wp_bind, wp_rd. exists c. split; [exact Hc|]. set (S := cpu_smt_mask cpu m).
  assert (Hsib : forall t m', t ∈ for_each_cpu S -> hot V m' -> is_Some (sm_rqs (m_smt m') !! t)).
  { intros t m' Ht%elem_of_for_each_cpu Hh'. apply (ho_siblings _ _ Hh'). rewrite (smt_mask_stable cpu m' m); [done|].
    pose proof (ho_glob _ _ Hh). pose proof (ho_glob _ _ Hh'). congruence. }
  destruct (size S =? 1)%nat.
  { unfold when. case_match; [by apply (wp_hot_emit _ _ V) | by apply wp_ret, HQ]. }
  destruct (negb _); [by apply wp_ret, HQ|].
  destruct (List.filter _ _) as [|leader l] eqn:El; [by apply (wp_hot_emit _ _ V)|].
  assert (Hl : leader ∈ for_each_cpu S).
  { apply list_elem_of_In. assert (Hin : In leader (leader :: l)) by by left. rewrite <- El in Hin. by apply filter_In in Hin as [? _]. }
  apply wp_bind, wp_deref. exists c. split; [exact Hc|]. apply wp_bind.
  apply (wp_hot_other leader _ V); [done | by apply Hsib | done |]. intros m1 Hh1.
  eapply (wp_mapM_inv (hot V)); [|exact Hh1 | exact HQ]. intros t m' Ht Hh'.
  apply (wp_hot_other t _ V); [done | | done | done]. by apply Hsib.
Qed.

(** ** The callbacks *)
Context (Hsmp : sched_smp_initialized = true) (Hthaw : cpuhp_tasks_frozen = false).

Lemma hot_numa g V m m' : hot V m -> kernel_ok m' -> hot_frame (with_numa g m) m' -> hot (V <| hv_numa := g (hv_numa V) |>) m'.
Proof.
  intros [Hok Hq Hc Hs Hg] Hok' F. eapply (hot_env _ (with_numa g m)); [|done|done]. split; try done.
  - eapply kernel_ok_frame; [|exact Hok]. done.
  - intros t. rewrite (smt_mask_stable cpu _ m) by done. apply Hs.
  - cbn. injection Hg as -> -> -> -> ->. done.
Qed.

(** The state of a CPU in service, and what sched_cpu_deactivate() makes of it. *)
Record in_service (V : hview) : Prop := Mk_in_service {
  is_active : cpu ∈ hv_active V;
  is_cb : hv_cb V = [];
  is_on : hv_online V = true /\ hv_rd_online V = true;
  is_numa : cpu ∈ hv_numa V;
}.

Definition out_of_service (smt : Z) (V : hview) : hview :=
  Mk_hview (hv_cpus V) (hv_active V ∖ {[cpu]}) [balance_push_cb] false false (hv_smt V - smt) (hv_frozen V) (hv_numa V ∖ {[cpu]}).

(** What is left when it is refused. *)
Definition refused (smt : Z) (V : hview) : hview :=
  V <| hv_online := false |> <| hv_rd_online := false |> <| hv_smt := hv_smt V - smt |>.

Lemma hot_eq V W m : V = W -> hot V m -> hot W m.
Proof. by intros ->. Qed.

Lemma readd (A : gset Z) : cpu ∈ A -> {[cpu]} ∪ A ∖ {[cpu]} = A.
Proof. intros Hc. apply set_eq. intros x. destruct (decide (x = cpu)); set_solver. Qed.

Lemma hot_smt_core V V' m m' : hot V m -> hot V' m' -> hv_cpus V = hv_cpus V' -> smt_core m = smt_core m'.
Proof.
  intros Hh Hh' E. unfold smt_core. rewrite (smt_mask_stable cpu m m'); [done|].
  pose proof (ho_glob _ _ Hh). pose proof (ho_glob _ _ Hh'). congruence.
Qed.

Lemma wp_cpu_deactivate V m (Q : cres unit -> machine -> Prop) :
  hot V m -> in_service V ->
  (forall m1 m2, dl_cpu_busy cpu m1 = Ret false m2 -> forall m', hot (out_of_service (smt_core m) V) m' -> Q (Ok tt) m') ->
  (forall m1 m2, dl_cpu_busy cpu m1 = Ret true m2 -> forall m', hot (refused (smt_core m) V) m' -> Q (Err EBUSY) m') ->
  wp (sched_cpu_deactivate cpu) Q m.
Proof.
  intros Hh [Hact Hcb [Hon Hrd] Hnuma] HOk HErr. unfold sched_cpu_deactivate. pose proof Hh as Hh0.
  apply wp_bind, (wp_hot _ V _ _ Hh); [apply exit_idle_spec; [apply Hh | by eapply hot_is_rq]|]. intros [] m1 Hh1. clear Hh.
  apply wp_bind, (wp_hot_active false _ _ _ Hh1). intros m2 Hh2. clear m1 Hh1.
  apply wp_bind, (wp_balance_push_set true _ _ _ Hh2 Hcb). intros m3 Hh3. clear m2 Hh2.
  apply wp_bind, (wp_hot_emit _ _ _ _ _ Hh3). intros m4 Hh4. clear m3 Hh3.
  apply wp_bind, (wp_hot_rd _ (fun x => x.1.1) _ _ _ (fun _ => eq_refl) Hh4). cbn [fst snd when].
  apply wp_bind, wp_bind, (wp_hot_clock _ _ _ Hh4). intros m5 Hh5. clear m4 Hh4.
  apply wp_bind, (wp_check_span _ _ _ Hh5), (wp_set_rq_offline _ _ _ Hh5); [cbn; congruence|]. intros m6 Hh6. clear m5 Hh5.
  apply wp_bind, (wp_smt_present_add _ _ _ _ Hh6). intros m7 Hh7.
  rewrite (hot_smt_core _ _ _ _ Hh6 Hh0 eq_refl) in Hh7. clear m6 Hh6.
  apply wp_bind, (wp_sched_core_cpu_deactivate _ _ _ Hh7). intros m8 Hh8. clear m7 Hh7.
  rewrite Hsmp. cbn [negb]. unfold cpuset_cpu_inactive. rewrite Hthaw. cbv zeta. cbn [negb]. apply wp_bind.
  set (V8 := _ <| hv_smt := _ |>) in Hh8.
  pose proof (dl_cpu_busy_spec cpu m8 (ho_ok _ _ Hh8) (hot_is_rq _ _ Hh8)) as Hb. apply wp_run in Hb as (busy & m9 & E & Hok9 & F9).
  apply wp_bind, wp_run. exists busy, m9. split; [exact E|]. assert (Hh9 : hot V8 m9) by by eapply hot_env.
  destruct busy.
  - apply wp_ret, wp_bind, (wp_balance_push_set false _ _ _ Hh9 eq_refl). intros m10 Hh10.
    apply wp_bind, (wp_hot_active true _ _ _ Hh10). intros m11 Hh11. apply wp_ret, (HErr _ _ E).
    replace (refused (smt_core m) V) with
      (V8 <| hv_cb := [] |> <| hv_active := {[cpu]} ∪ hv_active (V8 <| hv_cb := [] |>) |>); [done|].
    apply hview_ext; cbn; try done; try lia. by apply readd.
  - apply wp_bind, (wp_hot _ _ _ _ Hh9); [apply update_active_spec, Hh9|]. intros [] m10 Hh10. apply wp_ret.
    apply wp_bind. eapply wp_mono; [apply numa_clear_spec, Hh10|]. intros [] m11 [Hok11 F11]. apply wp_ret, (HOk _ _ E).
    pose proof (hot_numa _ _ _ _ Hh10 Hok11 F11) as Hh11.
    replace (out_of_service (smt_core m) V) with (V8 <| hv_numa := hv_numa V8 ∖ {[cpu]} |>); [done|].
    apply hview_ext; cbn; try done; lia.
Qed.

Lemma wp_cpu_activate V m (Q : Z -> machine -> Prop) :
  hot V m -> hv_cb V = [balance_push_cb] -> hv_online V = hv_rd_online V ->
  (forall m', hot (Mk_hview (hv_cpus V) ({[cpu]} ∪ hv_active V) [] true true (hv_smt V + smt_core m) (hv_frozen V) ({[cpu]} ∪ hv_numa V)) m' -> Q 0 m') ->
  wp (sched_cpu_activate cpu) Q m.
Proof.
  intros Hh Hcb Hon HQ. unfold sched_cpu_activate. pose proof Hh as Hh0.
  apply wp_bind, (wp_balance_push_set false _ _ _ Hh Hcb). intros m1 Hh1. clear Hh.
  apply wp_bind, (wp_smt_present_add _ _ _ _ Hh1). intros m2 Hh2. rewrite (hot_smt_core _ _ _ _ Hh1 Hh0 eq_refl) in Hh2. clear m1 Hh1.
  apply wp_bind, (wp_hot_active true _ _ _ Hh2). intros m3 Hh3. clear m2 Hh2.
  rewrite Hsmp. cbn [when]. apply wp_bind, wp_bind. eapply wp_mono; [apply numa_set_spec, Hh3|]. intros [] m4 [Hok4 F4].
  pose proof (hot_numa _ _ _ _ Hh3 Hok4 F4) as Hh4. clear m3 Hh3 Hok4 F4.
  unfold cpuset_cpu_active. rewrite Hthaw. cbv zeta. cbn [negb]. apply wp_bind, wp_ret. cbn [when].
  apply (wp_hot _ _ _ _ Hh4); [apply update_active_spec, Hh4|]. intros [] m5 Hh5. clear m4 Hh4.
  apply wp_bind, (wp_hot_rd _ (fun x => x.1.1) _ _ _ (fun _ => eq_refl) Hh5). cbn [fst snd when].
  apply wp_bind, wp_bind, (wp_check_span _ _ _ Hh5), (wp_set_rq_online _ _ _ Hh5); [done|]. intros m6 Hh6. apply wp_ret, HQ.
  eapply hot_eq; [|exact Hh6]. apply hview_ext; cbn; try done; lia.
Qed.

(** C23: A CPU that is taken out of service and brought back again is as before:
    it is active, its run queue is online in its root domain, no push callback
    is left, and the count of cores with SMT and the NUMA masks are those of
    before. *)
Theorem cpu_deactivate_activate V m :
  hot V m -> in_service V ->
  wp (sched_cpu_deactivate cpu) (fun ret m1 => ret = Ok tt ->
    hv_active V ∖ {[cpu]} = m_cpu_active m1 /\
    wp (sched_cpu_activate cpu) (fun ret' m2 => ret' = 0 /\ hot V m2) m1) m.
Proof.
  intros Hh Hs. apply (wp_cpu_deactivate V m _ Hh Hs); [|done]. intros _ _ _ m1 Hh1 _.
  split; [pose proof (ho_glob _ _ Hh1); cbn in *; congruence|].
  apply (wp_cpu_activate _ _ _ Hh1); [done | done |]. intros m2 Hh2. split; [done|].
  eapply hot_eq; [|exact Hh2]. rewrite (hot_smt_core _ _ _ _ Hh1 Hh eq_refl).
  destruct Hs as [Ha Hcb [Hon Hrd] Hn]. apply hview_ext; cbn; rewrite ?readd; try done; lia.
Qed.

(** C25: When the deadline bandwidth of the CPU is still needed,
    sched_cpu_deactivate() refuses with EBUSY.  The CPU is active and without a
    push callback again, but its run queue stays offline, in itself and in the
    root domain, and a core with two threads is no longer counted in
    sched_smt_present: the state is not the one of before. *)
Theorem cpu_deactivate_refused V m :
  hot V m -> in_service V -> (forall m1 b m2, dl_cpu_busy cpu m1 = Ret b m2 -> b = true) ->
  wp (sched_cpu_deactivate cpu) (fun ret m' => ret = Err EBUSY /\ hot (refused (smt_core m) V) m' /\
    m_cpu_active m' = m_cpu_active m /\ exists c, sm_rqs (m_smt m') !! cpu = Some c /\
      cr_online c = false /\ cr_rd_online c = false /\ sm_smt_present (m_smt m') = sm_smt_present (m_smt m) - smt_core m) m.
Proof.
  intros Hh Hs Hb. apply (wp_cpu_deactivate V m _ Hh Hs); intros m1 m2 E; apply Hb in E; [done|]. intros m' Hh'.
  split; [done|]. split; [done|]. pose proof (ho_glob _ _ Hh) as G. pose proof (ho_glob _ _ Hh') as G'. cbn in G'.
  split; [congruence|]. destruct (ho_core _ _ Hh') as (c & Hc & Ec). exists c. unfold hot_core in Ec. cbn in Ec.
  split; [done|]. split; [congruence|]. split; congruence.
Qed.

End Hotplug.
