(* ===== verification/TickSample.v ===== *)
(** The ticks and the hotplug callbacks run on a concrete machine: two CPUs, of
    which the second is in full dynticks mode. *)
From S2P Require Import Prelude Headers Proc Kernel Extern RqClock Uclamp UclampProofs Prio.
From S2P Require Import SchedOK Affinity AffinityProofs Migrate MigrateProofs.
From S2P Require Import Mm Wakeup WakeProofs WakeSample Schedule ScheduleProofs Sample.
From S2P Require Import CoreSched CoreSchedProofs CoreSample.
From S2P Require Import Tick TickProofs Hotplug HotplugProofs.

Module TickDemo.
#[local] Existing Instance linux_headers.
#[local] Existing Instance Demo.extern.
#[local] Existing Instance CoreDemo.core_extern.

Definition tick_extern : TickExtern := {|
  cl_task_tick _ _ _ _ := mret tt; cl_update_curr _ _ := mret tt;
  hrtimer_active r := a ← r ⇝ tk_hrtick_active; mret a;
  hrtimer_cancel r := set! r ⇝ tk_hrtick_active := false;
  hrtimer_start r t := set! r ⇝ tk_hrtick_expires := t ;; set! r ⇝ tk_hrtick_active := true;
  hrtick_get_time _ := mret 1000;
  calc_global_load_tick _ := mret tt; calc_load_nohz_remote _ := mret tt;
  sched_core_tick _ := mret tt; trigger_load_balance _ := mret tt;
  queue_delayed_work c := set! c ⇝ tk_work_queued := 1;
  alloc_percpu_tick_work := mret true;
  tick_nohz_tick_stopped_cpu _ := mret true; tick_nohz_tick_stopped := mret false;
  tick_nohz_full_cpu c := c =? 1;
  housekeeping_cpu c _ := c =? 0; housekeeping_cpumask _ := {[0]}; housekeeping_any_cpu _ := mret 0;
  HK_FLAG_TICK := 4; HK_FLAG_TIMER := 1; NOHZ_KICK_MASK := 3; NOHZ_NEWILB_KICK := 4;
  sysctl_resched_latency_warn_once := true; system_booting := false; vcpu_is_preempted _ := false;
|}.

Definition tick_cpu : tick_rq := Mk_tick_rq false 0 0 0 false 0 0 0 0 0 0 0 0.

(** The core of CoreSample with its ticks. *)
Definition machine_tick : machine :=
  (CoreDemo.machine_core true 1) <| m_tick := tick0 <| ti_cpus := <[0 := tick_cpu]> (<[1 := tick_cpu]> ∅) |> |>.

#[local] Existing Instance tick_extern.

#[export] Instance tick_extern_ok : TickExternOK tick_extern.
Proof.
  split; intros; simpl; try (by framed); try (by apply preserves_ret).
  unfold works in H. rewrite lookup_fmap in H. destruct (ti_cpus (m_tick m) !! c) as [t|] eqn:E; [|done].
  apply wp_wr. exists t. split; [exact E|]. split; [|done]. unfold tick_view, works. cbn. rewrite fmap_insert. cbn in H.
  injection H as <- <- <-. done.
Qed.

(** The CPU starts: its work is queued. *)
Lemma remote_tick_state_machine_witness :
  exists m, rtc (remote_step 1) (Mk_remote false false machine_tick) (Mk_remote true false m) /\
    exists cpu st q, works m !! 1 = Some (cpu, st, q) /\
    (st = TICK_SCHED_REMOTE_RUNNING <-> true = true) /\ q + 0 = b2z (negb (st =? TICK_SCHED_REMOTE_OFFLINE)) /\
    (true = false -> quietly 1 true false (sched_tick_start 1) m) /\
    (true = true -> quietly 1 false false (sched_tick_stop 1) m) /\
    (false = true -> wp (remote_requeue 1 cpu) (fun _ m' => m_log m' = m_log m /\
       works m' !! 1 = Some (1, TICK_SCHED_REMOTE_RUNNING, 1)) m).
Proof.
  assert (H0 : remote_ok 1 (Mk_remote false false machine_tick)).
  { split; [done|]. exists (0, 0, 0). split; [reflexivity|]. split; cbn; auto; done. }
  pose proof (start_ok 1 eq_refl false machine_tick H0) as Hs. apply wp_run in Hs as ([] & m & E & _).
  assert (Hr : rtc (remote_step 1) (Mk_remote false false machine_tick) (Mk_remote true false m)) by (apply rtc_once; by constructor).
  exists m. split; [exact Hr|]. exact (remote_tick_state_machine 1 eq_refl _ _ H0 Hr).
Defined.

(** CPU 0 is a housekeeping CPU and busy. *)
Lemma nohz_timer_target_witness :
  wp get_nohz_timer_target (fun t m' => m' = machine_tick /\
    let near i := i ∈ housekeeping_cpumask HK_FLAG_TIMER /\ exists sd, sd ∈ sched_domain_spans 0 machine_tick /\ i ∈ sd in
    (housekeeping_cpu 0 HK_FLAG_TIMER = true /\ busy machine_tick 0 /\ t = 0) \/
    (~ (housekeeping_cpu 0 HK_FLAG_TIMER = true /\ busy machine_tick 0) /\ near t /\ t <> 0 /\ busy machine_tick t) \/
    ((forall i, near i -> i <> 0 -> ~ busy machine_tick i) /\
      if housekeeping_cpu 0 HK_FLAG_TIMER then ~ busy machine_tick 0 /\ t = 0
      else t ∈ housekeeping_cpumask HK_FLAG_TIMER)) machine_tick.
Proof.
  apply (nohz_timer_target machine_tick); [|by eexists|done|].
  - intros i Hi. assert (i = 0) as -> by (cbn in Hi; set_solver). by eexists.
  - apply wp_ret. split; [done|]. by apply (bool_decide_unpack _).
Defined.
End TickDemo.

Module HotDemo.
#[local] Existing Instance linux_headers.
#[local] Existing Instance Demo.extern.
#[local] Existing Instance DemoMigrate.migrate_extern.
#[local] Existing Instance CoreDemo.core_extern.
#[local] Existing Instance TickDemo.tick_extern.
#[local] Existing Instance CoreDemo.topology_ok.

(** [busy]: the deadline bandwidth of every CPU is needed. *)
Definition hotplug_extern (busy : bool) : HotplugExtern := {|
  cl_rq_online _ _ := mret tt; cl_rq_offline _ _ := mret tt;
  cpuhp_tasks_frozen := false; partition_sched_domains := mret tt; cpuset_force_rebuild := mret tt;
  cpuset_update_active_cpus := mret tt; dl_cpu_busy _ := mret busy; sched_smp_initialized := true;
  sched_domains_numa_masks_set c := modify (with_numa ({[c]} ∪.));
  sched_domains_numa_masks_clear c := modify (with_numa (.∖ {[c]}));
  nohz_balance_exit_idle _ := mret tt; rcuwait_active _ := mret false; rcuwait_wait_event _ := mret tt;
  calc_load_update _ := 5000; calc_load_fold_active _ _ := mret 0;
|}.

#[export] Instance hotplug_extern_ok b : HotplugExternOK (hotplug_extern b).
Proof.
  split; intros; simpl; try (by apply preserves_ret); try (by apply wp_ret);
    try (by framed); apply wp_modify; (split; [eapply kernel_ok_frame; [|exact H]; done | done]).
Qed.

(** CPU 1 in service. *)
Definition view1 : hview := Mk_hview {[0; 1]} {[0; 1]} [] true true 1 0 {[0; 1]}.

Lemma hot1 : hot 1 view1 TickDemo.machine_tick.
Proof.
  split.
  - eapply (kernel_ok_frame (CoreDemo.machine_core true 1)); [done | apply CoreDemo.kernel_ok_core].
  - eexists. split; [reflexivity|]. split; [reflexivity | by apply (bool_decide_unpack _)].
  - eexists. split; reflexivity.
  - intros t Ht. assert (t = 0 \/ t = 1) as [->| ->]; [|by eexists..].
    cbn in Ht. apply elem_of_union in Ht as [Ht|Ht]; [set_solver|]. change (t ∈ ({[0; 1]} ∩ {[0; 1]} : gset Z)) in Ht. set_solver.
  - reflexivity.
Qed.

Lemma in_service1 : in_service 1 view1.
Proof. split; try done; by apply (bool_decide_unpack _). Qed.

Lemma cpu_deactivate_activate_witness :
  wp (sched_cpu_deactivate (HX := hotplug_extern false) 1) (fun ret m1 => ret = Ok tt ->
    hv_active view1 ∖ {[1]} = m_cpu_active m1 /\
    wp (sched_cpu_activate (HX := hotplug_extern false) 1) (fun ret' m2 => ret' = 0 /\ hot 1 view1 m2) m1) TickDemo.machine_tick.
Proof. apply (cpu_deactivate_activate (HX := hotplug_extern false) 1 eq_refl eq_refl view1 _ hot1 in_service1). Defined.

Lemma cpu_deactivate_refused_witness :
  wp (sched_cpu_deactivate (HX := hotplug_extern true) 1) (fun ret m' => ret = Err EBUSY /\
    hot 1 (refused (smt_core 1 TickDemo.machine_tick) view1) m' /\
    m_cpu_active m' = m_cpu_active TickDemo.machine_tick /\ exists c, sm_rqs (m_smt m') !! 1 = Some c /\
      cr_online c = false /\ cr_rd_online c = false /\
      sm_smt_present (m_smt m') = sm_smt_present (m_smt TickDemo.machine_tick) - smt_core 1 TickDemo.machine_tick) TickDemo.machine_tick.
Proof.
  apply (cpu_deactivate_refused (HX := hotplug_extern true) 1 eq_refl eq_refl view1 _ hot1 in_service1).
  intros m1 b m2 [= <- _]. reflexivity.
Defined.

(** Both threads are one core, so one core less is counted. *)
Lemma smt_core1 : smt_core 1 TickDemo.machine_tick = 1.
Proof. reflexivity. Qed.
End HotDemo.
