(* ===== verification/RqLocks.v ===== *)
(** The locks of the run queues (core.c: raw_spin_rq_lock_nested(),
    raw_spin_rq_trylock(), raw_spin_rq_unlock(), double_rq_lock()), while core
    scheduling is turned on and off under them (sched_core_lock(),
    __sched_core_flip(), __sched_core_enable(), __sched_core_disable()).

    With core scheduling the run queues of a core share the lock of the leading
    one, so the lock that protects a run queue changes over time.  Here the code
    runs concurrently: a thread is at one instruction of the function it is in,
    any thread may take the next step, and the steps access memory one at a time,
    in program order.  The other files treat what happens under a lock as one
    step, which is what this file justifies.

    Which CPUs are online, and the leaders of the cores, do not change: turning
    core scheduling on and off holds cpus_read_lock(). *)
From S2P Require Import Prelude Headers Kernel.

(** ** kernel/sched/sched.h and the topology

    A run queue and its own lock [__lock] are named by the CPU. *)
Class RqTopology := {
  cpu_online : gset Z;
  cpu_possible : gset Z;
  smt_mask_of : Z -> gset Z;                  (* cpu_smt_mask() *)
  rq_core : Z -> Z;                           (* rq->core *)
  __rq_lockp : gset Z -> Z -> Z;              (* with the run queues that have core_enabled *)
  rq_lockp : bool -> gset Z -> Z -> Z;        (* with the static key, too *)
  rq_order_less : Z -> Z -> bool;
}.

Class RqTopologyOK (T : RqTopology) : Prop := {
  online_possible : cpu_online ⊆ cpu_possible;
  smt_self c : c ∈ cpu_online -> c ∈ smt_mask_of c;
  smt_online c t : c ∈ cpu_online -> t ∈ smt_mask_of c -> t ∈ cpu_online;
  smt_shared c t : c ∈ cpu_online -> t ∈ smt_mask_of c -> smt_mask_of t = smt_mask_of c;
  core_sibling c : c ∈ cpu_online -> rq_core c ∈ smt_mask_of c;
  core_shared c t : c ∈ cpu_online -> t ∈ smt_mask_of c -> rq_core t = rq_core c;
  core_offline c : c ∉ cpu_online -> rq_core c = c;
  lockp_eq en r : __rq_lockp en r = if bool_decide (r ∈ en) then rq_core r else r;
  rq_lockp_eq key en r : rq_lockp key en r = if (key && bool_decide (r ∈ en))%bool then rq_core r else r;
  order_less_eq a b : rq_order_less a b =
    if rq_core a <? rq_core b then true else if rq_core b <? rq_core a then false else a <? b;
}.

(** ** State *)

(** The instructions of the two locking functions. *)
Inductive lpc : Type :=
  | Enter                 (* preemption is disabled; sched_core_disabled() is read next *)
  | Fast                  (* raw_spin_lock(&rq->__lock) *)
  | Load                  (* lock = __rq_lockp(rq) *)
  | Acquire (lock : Z)    (* raw_spin_lock(lock) *)
  | Recheck (lock : Z)    (* lock == __rq_lockp(rq) ? *)
  | Drop (lock : Z)       (* raw_spin_unlock(lock) *)
  | Leave (lock : Z).     (* preempt_enable() and return, with the lock *)

Inductive pc : Type :=
  | Idle                               (* in none of the functions *)
  | In_lock (rq : Z) (p : lpc)
  | In_trylock (rq : Z) (p : lpc)
  | In_unlock (rq lock : Z)            (* raw_spin_unlock(lock) *)
  | In_double (rq1 rq2 : Z).           (* __rq_lockp(rq1) == __rq_lockp(rq2) ? *)

#[export] Instance lpc_eq_dec : EqDecision lpc.
Proof. solve_decision. Defined.
#[export] Instance pc_eq_dec : EqDecision pc.
Proof. solve_decision. Defined.

(** [th_mine] are the run queues the thread has locked, each with the lock that
    was taken for it; [th_cont] is what double_rq_lock() still has to do. *)
Record thread : Type := Mk_thread {
  th_pc : pc;
  th_mine : list (Z * Z);
  th_cont : option (Z * Z);
  th_ret : bool;
}.
Definition idle_thread : thread := Mk_thread Idle [] None false.

Inductive owner : Type := Thr (t : Z) | Mgr.

(** The instructions of turning core scheduling on ([true]) or off. *)
Inductive mpc : Type :=
  | MIdle
  | MSync                                            (* synchronize_rcu() *)
  | MCores (b : bool) (mask : gset Z)                (* the next core of sched_core_mask *)
  | MLock (b : bool) (cpu : Z) (ts : list Z) (mask : gset Z)      (* sched_core_lock() *)
  | MFlip (b : bool) (cpu : Z) (ts : list Z) (mask : gset Z)      (* core_enabled = enabled *)
  | MUnlock (b : bool) (cpu : Z) (ts : list Z) (mask : gset Z)    (* sched_core_unlock() *)
  | MOffline (b : bool) (ts : list Z)
  | MKey.                                            (* static_branch_disable() *)

Record lstate : Type := Mk_lstate {
  l_lock : gmap Z owner;        (* who holds rq->__lock *)
  l_en : gset Z;                (* the run queues with core_enabled *)
  l_key : bool;                 (* __sched_core_enabled *)
  l_thr : gmap Z thread;
  l_mgr : mpc;
  l_rcu : gset Z;               (* the threads a grace period still waits for *)
}.

Section RqLocks.
Context {T : RqTopology}.

Definition thr (s : lstate) (t : Z) : thread := default idle_thread (l_thr s !! t).

Definition put (t : Z) (th : thread) (s : lstate) : lstate :=
  Mk_lstate (l_lock s) (l_en s) (l_key s) (<[t := th]> (l_thr s)) (l_mgr s) (l_rcu s).
Definition goto (t : Z) (p : pc) (s : lstate) : lstate :=
  put t (Mk_thread p (th_mine (thr s t)) (th_cont (thr s t)) (th_ret (thr s t))) s.
Definition set_lock (f : gmap Z owner -> gmap Z owner) (s : lstate) : lstate :=
  Mk_lstate (f (l_lock s)) (l_en s) (l_key s) (l_thr s) (l_mgr s) (l_rcu s).

(** preempt_enable(): an RCU reader ends. *)
Definition leave_section (t : Z) (s : lstate) : lstate :=
  Mk_lstate (l_lock s) (l_en s) (l_key s) (l_thr s) (l_mgr s) (l_rcu s ∖ {[t]}).

(** raw_spin_trylock() *)
Definition try_acquire (o : owner) (lock : Z) (s : lstate) : option lstate :=
  match l_lock s !! lock with
  | None => Some (set_lock <[lock := o]> s)
  | Some _ => None
  end.
Definition release (lock : Z) (s : lstate) : lstate := set_lock (delete lock) s.

(** Returning with [rq] locked: to double_rq_lock(), or to the caller. *)
Definition returned (t rq lock : Z) (s : lstate) : lstate :=
  let th := thr s t in
  put t (Mk_thread match th_cont th with Some (rq1, rq2) => In_double rq1 rq2 | None => Idle end
                   ((rq, lock) :: th_mine th) None true) s.
Definition try_failed (t : Z) (s : lstate) : lstate :=
  leave_section t (put t (Mk_thread Idle (th_mine (thr s t)) None false) s).

(** One instruction of raw_spin_rq_lock_nested(); [None] while the lock is taken. *)
Definition raw_spin_rq_lock_nested (t rq : Z) (p : lpc) (s : lstate) : option lstate :=
  match p with
  | Enter => Some (goto t (In_lock rq (if negb (l_key s) then Fast else Load)) s)
  | Fast => goto t (In_lock rq (Leave rq)) <$> try_acquire (Thr t) rq s
  | Load => Some (goto t (In_lock rq (Acquire (__rq_lockp (l_en s) rq))) s)
  | Acquire lock => goto t (In_lock rq (Recheck lock)) <$> try_acquire (Thr t) lock s
  | Recheck lock =>
      Some (goto t (In_lock rq (if lock =? __rq_lockp (l_en s) rq then Leave lock else Drop lock)) s)
  | Drop lock => Some (goto t (In_lock rq Load) (release lock s))
  | Leave lock => Some (leave_section t (returned t rq lock s))
  end.

Definition raw_spin_rq_trylock (t rq : Z) (p : lpc) (s : lstate) : option lstate :=
  match p with
  | Enter => Some (goto t (In_trylock rq (if negb (l_key s) then Fast else Load)) s)
  | Fast =>
      Some match try_acquire (Thr t) rq s with
           | Some s' => goto t (In_trylock rq (Leave rq)) s'
           | None => try_failed t s
           end
  | Load => Some (goto t (In_trylock rq (Acquire (__rq_lockp (l_en s) rq))) s)
  | Acquire lock =>
      Some match try_acquire (Thr t) lock s with
           | Some s' => goto t (In_trylock rq (Recheck lock)) s'
           | None => try_failed t s
           end
  | Recheck lock =>
      Some (goto t (In_trylock rq (if lock =? __rq_lockp (l_en s) rq then Leave lock else Drop lock)) s)
  | Drop lock => Some (goto t (In_trylock rq Load) (release lock s))
  | Leave lock => Some (leave_section t (returned t rq lock s))
  end.

(** The lock is found with rq_lockp() when the call starts. *)
Definition raw_spin_rq_unlock (t rq lock : Z) (s : lstate) : lstate :=
  let th := thr s t in
  put t (Mk_thread Idle (List.filter (fun x => negb (x.1 =? rq)) (th_mine th)) None (th_ret th)) (release lock s).

(** double_rq_lock(): which one comes first, and whether the second has a lock of
    its own. *)
Definition double_rq_order (rq1 rq2 : Z) : Z * Z := if rq_order_less rq2 rq1 then (rq2, rq1) else (rq1, rq2).
Definition double_rq_second (t rq1 rq2 : Z) (s : lstate) : lstate :=
  goto t (if __rq_lockp (l_en s) rq1 =? __rq_lockp (l_en s) rq2 then Idle else In_lock rq2 Enter) s.

(** The next instruction of thread [t]. *)
Definition advance (t : Z) (s : lstate) : option lstate :=
  match th_pc (thr s t) with
  | Idle => None
  | In_lock rq p => raw_spin_rq_lock_nested t rq p s
  | In_trylock rq p => raw_spin_rq_trylock t rq p s
  | In_unlock rq lock => Some (raw_spin_rq_unlock t rq lock s)
  | In_double rq1 rq2 => Some (double_rq_second t rq1 rq2 s)
  end.

(** A call from code that keeps the rules: the blocking functions are called with
    no run queue locked, and what is unlocked was locked. *)
Inductive call : Type := CLock (rq : Z) | CTry (rq : Z) | CDouble (rq1 rq2 : Z) | CUnlock (rq : Z).

Definition start (t : Z) (c : call) (s : lstate) : option lstate :=
  let th := thr s t in
  match th_pc th, c with
  | Idle, CLock rq =>
      if bool_decide (rq ∈ cpu_possible /\ th_mine th = []) then Some (goto t (In_lock rq Enter) s) else None
  | Idle, CTry rq => if bool_decide (rq ∈ cpu_possible) then Some (goto t (In_trylock rq Enter) s) else None
  | Idle, CDouble rq1 rq2 =>
      if bool_decide (rq1 ∈ cpu_possible /\ rq2 ∈ cpu_possible /\ rq1 <> rq2 /\ th_mine th = [])
      then let '(a, b) := double_rq_order rq1 rq2 in
           Some (put t (Mk_thread (In_lock a Enter) [] (Some (a, b)) (th_ret th)) s)
      else None
  | Idle, CUnlock rq =>
      if bool_decide (rq ∈ (th_mine th).*1)
      then Some (goto t (In_unlock rq (rq_lockp (l_key s) (l_en s) rq)) s) else None
  | _, _ => None
  end.

(** ** Turning core scheduling on and off, under sched_core_mutex *)
Definition section_pc (p : pc) : bool := match p with In_lock _ _ | In_trylock _ _ => true | _ => false end.
Definition in_section (th : thread) : bool := section_pc (th_pc th).
Definition readers (s : lstate) : gset Z := dom (filter (fun x => in_section x.2 = true) (l_thr s)).

Definition mgoto (p : mpc) (s : lstate) : lstate :=
  Mk_lstate (l_lock s) (l_en s) (l_key s) (l_thr s) p (l_rcu s).
Definition set_enabled (b : bool) (t : Z) (s : lstate) : lstate :=
  Mk_lstate (l_lock s) (if b then {[t]} ∪ l_en s else l_en s ∖ {[t]}) (l_key s) (l_thr s) (l_mgr s) (l_rcu s).
Definition set_key (b : bool) (s : lstate) : lstate :=
  Mk_lstate (l_lock s) (l_en s) b (l_thr s) (l_mgr s) (l_rcu s).

(** __sched_core_enable() up to synchronize_rcu(), which waits for the readers
    there are now; __sched_core_disable() up to the first core. *)
Definition toggle (b : bool) (s : lstate) : option lstate :=
  match l_mgr s with
  | MIdle =>
      if eqb (l_key s) b then None
      else Some (if b then Mk_lstate (l_lock s) (l_en s) true (l_thr s) MSync (readers s)
                 else mgoto (MCores false cpu_online) s)
  | _ => None
  end.

(** sched_core_lock() and sched_core_unlock(), lock by lock. *)
Definition core_lock (b : bool) (cpu : Z) (ts : list Z) (mask : gset Z) (s : lstate) : option lstate :=
  match ts with
  | t :: ts => mgoto (MLock b cpu ts mask) <$> try_acquire Mgr t s
  | [] => Some (mgoto (MFlip b cpu (for_each_cpu (smt_mask_of cpu)) mask) s)
  end.
Definition core_unlock (b : bool) (cpu : Z) (ts : list Z) (mask : gset Z) (s : lstate) : lstate :=
  match ts with
  | t :: ts => mgoto (MUnlock b cpu ts mask) (release t s)
  | [] => mgoto (MCores b (mask ∖ smt_mask_of cpu)) s
  end.

(** The next instruction of turning core scheduling on or off.  The reset of
    core_forceidle_start, which no lock depends on, is in
    [CoreSched.__sched_core_flip]. *)
Definition core_flip (s : lstate) : option lstate :=
  match l_mgr s with
  | MIdle => None
  | MSync => if bool_decide (l_rcu s = ∅) then Some (mgoto (MCores true cpu_online) s) else None
  | MCores b mask =>
      Some (mgoto match for_each_cpu mask with
                  | cpu :: _ => MLock b cpu (for_each_cpu (smt_mask_of cpu)) mask
                  | [] => MOffline b (for_each_cpu (cpu_possible ∖ cpu_online))
                  end s)
  | MLock b cpu ts mask => core_lock b cpu ts mask s
  | MFlip b cpu (t :: ts) mask => Some (mgoto (MFlip b cpu ts mask) (set_enabled b t s))
  | MFlip b cpu [] mask => Some (mgoto (MUnlock b cpu (for_each_cpu (smt_mask_of cpu)) mask) s)
  | MUnlock b cpu ts mask => Some (core_unlock b cpu ts mask s)
  | MOffline b (t :: ts) => Some (mgoto (MOffline b ts) (set_enabled b t s))
  | MOffline b [] => Some (mgoto (if b then MIdle else MKey) s)
  | MKey => Some (mgoto MIdle (set_key false s))
  end.

(** One step of the system. *)
Inductive lock_step (s s' : lstate) : Prop :=
  | step_start t c : start t c s = Some s' -> lock_step s s'
  | step_advance t : advance t s = Some s' -> lock_step s s'
  | step_toggle b : toggle b s = Some s' -> lock_step s s'
  | step_flip : core_flip s = Some s' -> lock_step s s'.

(** A schedule: who takes the next step. *)
Inductive event : Type := EStart (t : Z) (c : call) | EStep (t : Z) | EToggle (b : bool) | EFlip.
Definition do_event (e : event) (s : lstate) : option lstate :=
  match e with
  | EStart t c => start t c s
  | EStep t => advance t s
  | EToggle b => toggle b s
  | EFlip => core_flip s
  end.
Fixpoint run_events (es : list event) (s : lstate) : option lstate :=
  match es with
  | [] => Some s
  | e :: es => do_event e s ≫= run_events es
  end.

(** Nothing is locked and core scheduling is off. *)
Definition unlocked : lstate := Mk_lstate ∅ ∅ false ∅ MIdle ∅.
End RqLocks.
