(* ===== verification/RqLocksProofs.v ===== *)
(** Correctness of the locks of the run queues: while core scheduling is turned
    on and off, every thread that has locked a run queue holds the lock that
    protects it, releases the lock it took, and no set of calls blocks for good. *)
From stdpp Require Import sorting.
From S2P Require Import Prelude Headers Kernel RqLocks.

Section Locks.
Context {T : RqTopology} {TOK : RqTopologyOK T}.

(** ** What a thread holds *)
Definition lpc_lock (p : lpc) : list Z := match p with Recheck l | Drop l | Leave l => [l] | _ => [] end.
Definition pc_lock (p : pc) : list Z := match p with In_lock _ p | In_trylock _ p => lpc_lock p | _ => [] end.
Definition owned (th : thread) : list Z := (th_mine th).*2 ++ pc_lock (th_pc th).

(** The order in which the locks of two run queues are taken. *)
Definition before (a b : Z) : Prop := rq_core a < rq_core b \/ (rq_core a = rq_core b /\ a < b).

(** What the locking functions know at each instruction about the lock they take
    for [r]. *)
Definition lpc_ok (s : lstate) (t r : Z) (p : lpc) : Prop :=
  match p with
  | Enter | Load => True
  | Fast => l_key s = false \/ (l_mgr s = MSync /\ t ∈ l_rcu s)
  | Acquire l | Recheck l | Drop l => l = r \/ l = rq_core r
  | Leave l => l = __rq_lockp (l_en s) r
  end.

(** The second run queue of double_rq_lock() comes after the first, and when they
    are of one core the locks are not shared. *)
Definition second_ok (s : lstate) (r : Z) (p : lpc) (mine : list (Z * Z)) : Prop :=
  match mine with
  | [] => True
  | [(r1, _)] => before r1 r /\
      (rq_core r1 = rq_core r -> r1 ∉ l_en s /\ forall l, p = Acquire l -> l = r)
  | _ => False
  end.

Definition pc_ok (s : lstate) (t : Z) (th : thread) : Prop :=
  match th_pc th with
  | Idle => th_cont th = None
  | In_lock r p => lpc_ok s t r p /\ second_ok s r p (th_mine th) /\
      (th_cont th = None \/ exists b, th_cont th = Some (r, b) /\ th_mine th = [] /\ before r b)
  | In_trylock r p => lpc_ok s t r p /\ th_cont th = None
  | In_unlock r l => (r, l) ∈ th_mine th /\ th_cont th = None
  | In_double r1 r2 => th_cont th = None /\ before r1 r2 /\ exists l, th_mine th = [(r1, l)]
  end.

Record thread_ok (s : lstate) (t : Z) (th : thread) : Prop := {
  tk_owned l : l_lock s !! l = Some (Thr t) <-> l ∈ owned th;
  tk_nodup : NoDup (owned th);
  tk_mine r l : (r, l) ∈ th_mine th -> l = __rq_lockp (l_en s) r;
  tk_pc : pc_ok s t th;
  tk_rcu : t ∈ l_rcu s -> in_section th = true;
}.

(** ** What turning core scheduling on and off holds *)
Definition offline (c : Z) : Prop := c ∉ cpu_online.
Definition siblings (c : Z) : list Z := for_each_cpu (smt_mask_of c).

Definition mgr_has (p : mpc) (l : Z) : Prop :=
  match p with
  | MLock _ cpu ts _ => l ∈ smt_mask_of cpu /\ l ∉ ts
  | MFlip _ cpu _ _ => l ∈ smt_mask_of cpu
  | MUnlock _ _ ts _ => l ∈ ts
  | _ => False
  end.

(** When turning off, only run queues of [mask] and offline ones are left on. *)
Definition left_on (b : bool) (mask : gset Z) (en : gset Z) : Prop :=
  b = false -> forall c, c ∈ en -> c ∈ mask \/ offline c.

Definition mgr_ok (en : gset Z) (p : mpc) : Prop :=
  match p with
  | MIdle => True
  | MSync | MKey => en = ∅
  | MCores b mask => mask ⊆ cpu_online /\ left_on b mask en
  | MLock b cpu ts mask => mask ⊆ cpu_online /\ left_on b mask en /\ cpu ∈ cpu_online /\ exists pre, siblings cpu = pre ++ ts
  | MFlip b cpu ts mask => mask ⊆ cpu_online /\ left_on b mask en /\ cpu ∈ cpu_online /\
      exists pre, siblings cpu = pre ++ ts /\ forall c, c ∈ pre -> c ∈ en <-> b = true
  | MUnlock b cpu ts mask => mask ⊆ cpu_online /\ left_on b (mask ∖ smt_mask_of cpu) en /\ cpu ∈ cpu_online /\
      exists pre, siblings cpu = pre ++ ts
  | MOffline b ts => (forall c, c ∈ ts -> offline c /\ c ∈ cpu_possible) /\ (b = false -> forall c, c ∈ en -> c ∈ ts)
  end.

Definition flipping (p : mpc) (c : Z) : Prop := match p with MFlip _ cpu _ _ => c ∈ smt_mask_of cpu | _ => False end.

Record locks_ok (s : lstate) : Prop := {
  lo_threads t : thread_ok s t (thr s t);
  lo_mgr_has l : l_lock s !! l = Some Mgr <-> mgr_has (l_mgr s) l;
  lo_mgr : mgr_ok (l_en s) (l_mgr s);
  lo_key : l_key s = false -> l_en s = ∅ /\ l_mgr s = MIdle;
  lo_possible : l_en s ⊆ cpu_possible;
  lo_uniform c t : c ∈ cpu_online -> t ∈ smt_mask_of c -> ~ flipping (l_mgr s) c -> c ∈ l_en s <-> t ∈ l_en s;
}.

(** ** The topology *)
Lemma nodup_for_each m : NoDup (for_each_cpu m).
Proof. unfold for_each_cpu. rewrite merge_sort_Permutation. apply NoDup_elements. Qed.

Lemma siblings_elem c t : t ∈ siblings c <-> t ∈ smt_mask_of c.
Proof. apply elem_of_for_each_cpu. Qed.

Lemma before_irrefl a : ~ before a a.
Proof. unfold before. lia. Qed.

(** Two different run queues with one leader are online, and siblings. *)
Lemma same_core a b : rq_core a = rq_core b -> a <> b -> a ∈ cpu_online /\ b ∈ cpu_online /\ b ∈ smt_mask_of a.
Proof.
  intros Hc Hn.
  destruct (decide (a ∈ cpu_online)) as [Ha|Ha]; [|destruct (decide (b ∈ cpu_online)) as [Hb|Hb]].
  - destruct (decide (b ∈ cpu_online)) as [Hb|Hb].
    + split; [done|split; [done|]].
      rewrite <- (smt_shared a (rq_core a)), Hc, (smt_shared b (rq_core b)) by (done || by apply core_sibling).
      by apply smt_self.
    + exfalso. rewrite (core_offline b Hb) in Hc. apply Hb. rewrite <- Hc.
      apply (smt_online a); [done|by apply core_sibling].
  - exfalso. rewrite (core_offline a Ha) in Hc. apply Ha. rewrite Hc.
    apply (smt_online b); [done|by apply core_sibling].
  - rewrite !core_offline in Hc by done. done.
Qed.

Lemma lockp_cases en r : __rq_lockp en r = r \/ __rq_lockp en r = rq_core r.
Proof. rewrite lockp_eq. case_bool_decide; auto. Qed.

(** The lock of an online run queue is one of its core, that of an offline one its own. *)
Lemma lockp_core en r : r ∈ cpu_online -> __rq_lockp en r ∈ smt_mask_of r.
Proof. intros Hr. destruct (lockp_cases en r) as [-> | ->]; [by apply smt_self|by apply core_sibling]. Qed.
Lemma lockp_offline en r : offline r -> __rq_lockp en r = r.
Proof. intros Hr. destruct (lockp_cases en r) as [-> | ->]; [done|by apply core_offline]. Qed.

(** raw_spin_rq_unlock() finds the lock that is in use. *)
Lemma lockp_agree s r : locks_ok s -> rq_lockp (l_key s) (l_en s) r = __rq_lockp (l_en s) r.
Proof.
  intros K. rewrite rq_lockp_eq, lockp_eq. destruct (l_key s) eqn:E; [done|].
  destruct (lo_key s K E) as [-> _]. by rewrite bool_decide_false by set_solver.
Qed.

(** ** Steps of a thread

    A step of thread [t] changes nothing of the others: it takes a free lock, or
    releases one it has. *)
Lemma thr_put s t th u : thr (put t th s) u = if decide (u = t) then th else thr s u.
Proof. unfold thr, put; cbn. case_decide as E; [subst; by rewrite lookup_insert_eq|by rewrite lookup_insert_ne]. Qed.

Definition only_mine (t : Z) (lk lk' : gmap Z owner) : Prop :=
  forall l, lk' !! l = lk !! l \/
    ((lk !! l = None \/ lk !! l = Some (Thr t)) /\ (lk' !! l = None \/ lk' !! l = Some (Thr t))).

Lemma only_mine_other t lk lk' l o : only_mine t lk lk' -> o <> Thr t -> lk' !! l = Some o <-> lk !! l = Some o.
Proof.
  intros Hm Ho. destruct (Hm l) as [-> | [[E|E] [E'|E']]]; [done|..]; rewrite E, E'; split; intros F; simplify_eq.
Qed.

Lemma thread_ok_other s t u th lk rcu thm :
  u <> t -> only_mine t (l_lock s) lk -> (u ∈ l_rcu s <-> u ∈ rcu) -> thread_ok s u th ->
  thread_ok (Mk_lstate lk (l_en s) (l_key s) thm (l_mgr s) rcu) u th.
Proof.
  intros Hu Hm Hr K. constructor.
  - intros l. cbn. rewrite (only_mine_other t) by (done || congruence). apply (tk_owned _ _ _ K).
  - apply (tk_nodup _ _ _ K).
  - apply (tk_mine _ _ _ K).
  - pose proof (tk_pc _ _ _ K) as Hp. unfold pc_ok in *. destruct (th_pc th) as [|r []|r []| |]; cbn in *; naive_solver.
  - cbn. rewrite <- Hr. apply (tk_rcu _ _ _ K).
Qed.

Lemma locks_ok_thread s t th lk rcu :
  locks_ok s -> only_mine t (l_lock s) lk -> (forall u, u <> t -> u ∈ l_rcu s <-> u ∈ rcu) ->
  let s' := Mk_lstate lk (l_en s) (l_key s) (<[t := th]> (l_thr s)) (l_mgr s) rcu in
  thread_ok s' t th -> locks_ok s'.
Proof.
  intros K Hm Hr s' Ht. constructor; cbn.
  - intros u. change (thr s' u) with (thr (put t th s) u). rewrite thr_put. case_decide as E; [by subst|].
    apply (thread_ok_other s t); [done|done|by apply Hr|apply (lo_threads _ K)].
  - intros l. rewrite (only_mine_other t) by done. apply (lo_mgr_has _ K).
  - apply (lo_mgr _ K).
  - apply (lo_key _ K).
  - apply (lo_possible _ K).
  - apply (lo_uniform _ K).
Qed.

Lemma only_mine_refl t lk : only_mine t lk lk.
Proof. intros l. by left. Qed.
Lemma only_mine_insert t lk l : lk !! l = None -> only_mine t lk (<[l := Thr t]> lk).
Proof. intros Hl k. destruct (decide (k = l)) as [->|]; [rewrite lookup_insert_eq; naive_solver|rewrite lookup_insert_ne by done; by left]. Qed.
Lemma only_mine_delete t lk l : lk !! l = Some (Thr t) -> only_mine t lk (delete l lk).
Proof. intros Hl k. destruct (decide (k = l)) as [->|]; [rewrite lookup_delete_eq; naive_solver|rewrite lookup_delete_ne by done; by left]. Qed.

(** The moves of a thread: on, to a lock it takes, from a lock it gives back. *)
Lemma ok_goto s t p :
  locks_ok s -> pc_lock p = pc_lock (th_pc (thr s t)) ->
  (in_section (thr s t) = true -> section_pc p = true) ->
  pc_ok s t (Mk_thread p (th_mine (thr s t)) (th_cont (thr s t)) (th_ret (thr s t))) -> locks_ok (goto t p s).
Proof.
  intros K Hp Hsec Hok. apply locks_ok_thread; [done|apply only_mine_refl|done|].
  destruct (lo_threads _ K t) as [Ko Kn Km Kp Kr]. unfold owned in *.
  constructor; cbn; unfold owned; cbn; rewrite ?Hp; auto.
Qed.

Lemma ok_acquire s t p l :
  locks_ok s -> l_lock s !! l = None -> pc_lock p = [l] -> pc_lock (th_pc (thr s t)) = [] ->
  section_pc p = true ->
  pc_ok s t (Mk_thread p (th_mine (thr s t)) (th_cont (thr s t)) (th_ret (thr s t))) ->
  locks_ok (goto t p (set_lock <[l := Thr t]> s)).
Proof.
  intros K Hl Hp Hold Hsec Hok. apply (locks_ok_thread s); [done|by apply only_mine_insert|done|].
  destruct (lo_threads _ K t) as [Ko Kn Km Kp Kr]. unfold owned in *. rewrite Hold, app_nil_r in *.
  assert (Hnl : l ∉ (th_mine (thr s t)).*2) by (intros Hin; apply Ko in Hin; congruence).
  constructor; cbn; unfold owned; cbn; rewrite ?Hp; auto.
  - intros k. rewrite elem_of_app, list_elem_of_singleton. destruct (decide (k = l)) as [->|].
    + rewrite lookup_insert_eq. naive_solver.
    + rewrite lookup_insert_ne by done. rewrite Ko. naive_solver.
  - apply list.NoDup_app. split; [done|split; [|apply NoDup_singleton]].
    intros k Hk ->%list_elem_of_singleton. done.
Qed.

Lemma ok_release s t p l :
  locks_ok s -> pc_lock (th_pc (thr s t)) = [l] -> pc_lock p = [] -> section_pc p = true ->
  pc_ok s t (Mk_thread p (th_mine (thr s t)) (th_cont (thr s t)) (th_ret (thr s t))) ->
  locks_ok (goto t p (release l s)).
Proof.
  intros K Hold Hp Hsec Hok. destruct (lo_threads _ K t) as [Ko Kn Km Kp Kr]. unfold owned in *. rewrite Hold in *.
  assert (Hl : l_lock s !! l = Some (Thr t)) by (apply Ko; set_solver).
  apply list.NoDup_app in Kn as (Kn & Kd & _).
  apply (locks_ok_thread s); [done|by apply only_mine_delete|done|].
  constructor; cbn; unfold owned; cbn; rewrite ?Hp, ?app_nil_r; auto.
  intros k. destruct (decide (k = l)) as [->|].
  - rewrite lookup_delete_eq. split; [done|]. intros Hin. destruct (Kd _ Hin). set_solver.
  - rewrite lookup_delete_ne by done. rewrite Ko. set_solver.
Qed.

(** Returning with the lock, or without. *)
Lemma ok_returned s t r l :
  locks_ok s -> pc_lock (th_pc (thr s t)) = [l] -> l = __rq_lockp (l_en s) r ->
  (th_cont (thr s t) = None \/ exists b, th_cont (thr s t) = Some (r, b) /\ th_mine (thr s t) = [] /\ before r b) ->
  locks_ok (leave_section t (returned t r l s)).
Proof.
  intros K Hold Hl Hc. destruct (lo_threads _ K t) as [Ko Kn Km Kp Kr]. unfold owned in *. rewrite Hold in *.
  apply (locks_ok_thread s t _ (l_lock s) (l_rcu s ∖ {[t]})); [done|apply only_mine_refl|set_solver|].
  assert (Hp : pc_lock match th_cont (thr s t) with Some (rq1, rq2) => In_double rq1 rq2 | None => Idle end = [])
    by (destruct (th_cont (thr s t)) as [[]|]; done).
  constructor; cbn; unfold owned; cbn; rewrite ?Hp, ?app_nil_r; auto.
  - intros k. rewrite Ko. set_solver.
  - by rewrite (Permutation_app_comm _ [l]) in Kn.
  - intros r' l' [[= -> ->]|Hin]%elem_of_cons; [done|by apply Km].
  - unfold pc_ok; cbn. destruct Hc as [-> |(b & -> & -> & Hb)]; [done|]. split; [done|split; [done|by eexists]].
  - set_solver.
Qed.

Lemma ok_try_failed s t r p :
  locks_ok s -> th_pc (thr s t) = In_trylock r p -> lpc_lock p = [] -> locks_ok (try_failed t s).
Proof.
  intros K Hp Hl. destruct (lo_threads _ K t) as [Ko Kn Km _ Kr]. unfold owned in *. rewrite Hp in *. cbn in *.
  rewrite Hl, app_nil_r in *.
  apply (locks_ok_thread s t _ (l_lock s) (l_rcu s ∖ {[t]})); [done|apply only_mine_refl|set_solver|].
  constructor; cbn; unfold owned; cbn; rewrite ?app_nil_r; done || set_solver.
Qed.

(** The locks of other run queues are others. *)
Lemma mine_others (mine : list (Z * Z)) r l :
  NoDup mine.*2 -> (r, l) ∈ mine -> (forall l', (r, l') ∈ mine -> l' = l) ->
  forall k, k ∈ (List.filter (fun x => negb (x.1 =? r)) mine).*2 <-> k ∈ mine.*2 /\ k <> l.
Proof.
  intros Hn Hin Hr k. rewrite !list_elem_of_fmap. split.
  - intros ([r' l'] & -> & Hf). apply list_elem_of_In, filter_In in Hf as [Hf He]. apply list_elem_of_In in Hf.
    cbn in *. split; [by exists (r', l')|]. intros ->. cbn in *.
    apply list_elem_of_lookup in Hf as [i Hi], Hin as [j Hj].
    assert (i = j) as <- by (eapply (NoDup_lookup mine.*2); [done|by rewrite list_lookup_fmap, Hi|by rewrite list_lookup_fmap, Hj]).
    simplify_eq. lia.
  - intros [([r' l'] & -> & Hf) Hne]. exists (r', l'). split; [done|].
    apply list_elem_of_In, filter_In. split; [by apply list_elem_of_In|]. cbn in *.
    destruct (Z.eqb_spec r' r) as [->|]; [|done]. by destruct Hne, (Hr l').
Qed.

Lemma ok_unlock s t r l :
  locks_ok s -> th_pc (thr s t) = In_unlock r l -> locks_ok (raw_spin_rq_unlock t r l s).
Proof.
  intros K Hp. destruct (lo_threads _ K t) as [Ko Kn Km Kp Kr]. unfold owned, pc_ok in *. rewrite Hp in *. cbn in *.
  rewrite app_nil_r in *. destruct Kp as [Hin Hc].
  assert (Hl : l_lock s !! l = Some (Thr t)) by (apply Ko, (list_elem_of_fmap_2 snd _ _ Hin)).
  assert (Hoth := mine_others _ r l Kn Hin (fun l' Hl' => eq_trans (Km _ _ Hl') (eq_sym (Km _ _ Hin)))).
  apply (locks_ok_thread s); [done|by apply only_mine_delete|done|].
  constructor; cbn; unfold owned; cbn; rewrite ?app_nil_r; auto.
  - intros k. rewrite Hoth. destruct (decide (k = l)) as [->|].
    + rewrite lookup_delete_eq. naive_solver.
    + rewrite lookup_delete_ne by done. rewrite Ko. naive_solver.
  - clear - Kn. induction (th_mine (thr s t)) as [|[a b] mine IH]; cbn in *; [done|].
    apply list.NoDup_cons in Kn as [Hb Kn]. destruct (negb _); [|by apply IH]. cbn. constructor; [|by apply IH].
    intros ([r' l'] & -> & Hf)%list_elem_of_fmap. apply list_elem_of_In, filter_In in Hf as [Hf _]. apply Hb.
    apply list_elem_of_fmap. exists (r', l'). split; [done|by apply list_elem_of_In].
  - intros r' l' Hf. apply list_elem_of_In, filter_In in Hf as [Hf _]. apply Km. by apply list_elem_of_In.
  - intros Hin'. apply Kr in Hin'. unfold in_section in Hin'. by rewrite Hp in Hin'.
Qed.

(** ** The functions *)

Lemma mine_held s t r l : locks_ok s -> (r, l) ∈ th_mine (thr s t) -> l_lock s !! l = Some (Thr t) /\ l = __rq_lockp (l_en s) r.
Proof.
  intros K Hin. split; [|by apply (tk_mine _ _ _ (lo_threads _ K t))].
  apply (tk_owned _ _ _ (lo_threads _ K t)). unfold owned. apply elem_of_app. left.
  apply (list_elem_of_fmap_2 snd _ _ Hin).
Qed.

(** No flip is under way in a core of which a thread has a run queue locked. *)
Lemma not_flipping s t r l : locks_ok s -> (r, l) ∈ th_mine (thr s t) -> r ∈ cpu_online -> ~ flipping (l_mgr s) r.
Proof.
  intros K Hin Hr Hf. destruct (mine_held _ _ _ _ K Hin) as [Hl ->].
  pose proof (proj2 (lo_mgr_has _ K (__rq_lockp (l_en s) r))) as Hm. pose proof (lo_mgr _ K) as Hok.
  destruct (l_mgr s) as [| | |b cpu ts mask|b cpu ts mask|b cpu ts mask| |] eqn:E; cbn in *; try done.
  destruct Hok as (_ & _ & Hcpu & _).
  rewrite Hm in Hl; [done|]. rewrite <- (smt_shared cpu r) by done. by apply lockp_core.
Qed.

(** While the first of two run queues of one core is locked and not shared, the
    second has its own lock. *)
Lemma second_lock s t r1 l1 r : locks_ok s -> (r1, l1) ∈ th_mine (thr s t) -> rq_core r1 = rq_core r -> r1 <> r ->
  (r1 ∈ l_en s <-> r ∈ l_en s).
Proof.
  intros K Hin Hc Hn. destruct (same_core _ _ Hc Hn) as (H1 & H2 & Hs).
  apply (lo_uniform _ K); [done|done|]. by apply (not_flipping _ t r1 l1).
Qed.

Lemma lock_nested_ok s s' t r p :
  locks_ok s -> th_pc (thr s t) = In_lock r p -> raw_spin_rq_lock_nested t r p s = Some s' -> locks_ok s'.
Proof.
  intros K Hp E. pose proof (tk_pc _ _ _ (lo_threads _ K t)) as Hok. unfold pc_ok in Hok. rewrite Hp in Hok.
  destruct Hok as (Hl & Hs & Hc).
  assert (Hs' : forall q, (forall l, q <> Acquire l) -> second_ok s r q (th_mine (thr s t))).
  { intros q Hq. destruct (th_mine (thr s t)) as [|[r1 l1] []]; cbn in *; [done| |done].
    destruct Hs as [Hb Hs]. split; [done|]. intros Hr. split; [by apply Hs|]. intros l ->. by destruct (Hq l). }
  destruct p as [| | |l|l|l|l]; cbn in E.
  - simplify_eq. apply ok_goto; [done|rewrite Hp; by destruct (l_key s)|done|].
    unfold pc_ok; cbn. split; [destruct (l_key s) eqn:Hk; cbn; auto|split; [|done]].
    apply Hs'. by destruct (l_key s).
  - unfold try_acquire in E. destruct (l_lock s !! r) eqn:Hlk; cbn in E; simplify_eq.
    apply ok_acquire; [done|done|done|by rewrite Hp|done|]. unfold pc_ok; cbn. split; [|split; [by apply Hs'|done]].
    assert (l_en s = ∅) as ->.
    { destruct Hl as [Hk|[Hm _]]; [by apply (lo_key _ K)|]. pose proof (lo_mgr _ K) as Hg. by rewrite Hm in Hg. }
    by rewrite lockp_eq, bool_decide_false by set_solver.
  - simplify_eq. apply ok_goto; [done|by rewrite Hp|unfold in_section; by rewrite Hp|]. unfold pc_ok; cbn.
    split; [apply lockp_cases|split; [|done]].
    destruct (th_mine (thr s t)) as [|[r1 l1] []] eqn:Hmine; cbn in *; [done| |done].
    destruct Hs as [Hb Hs]. split; [done|]. intros Hr. destruct (Hs Hr) as [Hen _]. split; [done|].
    intros l [= <-]. rewrite lockp_eq, bool_decide_false; [done|].
    rewrite <- (second_lock s t r1 l1 r); [done|done|rewrite Hmine; set_solver|done|].
    intros ->. by apply before_irrefl in Hb.
  - unfold try_acquire in E. destruct (l_lock s !! l) eqn:Hlk; cbn in E; simplify_eq.
    apply ok_acquire; [done|done|done|by rewrite Hp|done|]. unfold pc_ok; cbn. split; [done|split; [by apply Hs'|done]].
  - simplify_eq. destruct (Z.eqb_spec l (__rq_lockp (l_en s) r)) as [He|He];
      (apply ok_goto; [done|by rewrite Hp|unfold in_section; by rewrite Hp|]; unfold pc_ok; cbn; split; [done|split; [by apply Hs'|done]]).
  - simplify_eq. apply ok_release; [done|by rewrite Hp|done|done|].
    unfold pc_ok; cbn. split; [done|split; [by apply Hs'|done]].
  - simplify_eq. apply ok_returned; [done|by rewrite Hp|done|done].
Qed.

Lemma trylock_ok s s' t r p :
  locks_ok s -> th_pc (thr s t) = In_trylock r p -> raw_spin_rq_trylock t r p s = Some s' -> locks_ok s'.
Proof.
  intros K Hp E. pose proof (tk_pc _ _ _ (lo_threads _ K t)) as Hok. unfold pc_ok in Hok. rewrite Hp in Hok.
  destruct Hok as (Hl & Hc).
  destruct p as [| | |l|l|l|l]; cbn in E; injection E as <-.
  - apply ok_goto; [done|rewrite Hp; by destruct (l_key s)|done|].
    unfold pc_ok; cbn. split; [destruct (l_key s) eqn:Hk; cbn; auto|done].
  - unfold try_acquire. destruct (l_lock s !! r) eqn:Hlk; [by eapply ok_try_failed|].
    apply ok_acquire; [done|done|done|by rewrite Hp|done|]. unfold pc_ok; cbn. split; [|done].
    assert (l_en s = ∅) as ->.
    { destruct Hl as [Hk|[Hm _]]; [by apply (lo_key _ K)|]. pose proof (lo_mgr _ K) as Hg. by rewrite Hm in Hg. }
    by rewrite lockp_eq, bool_decide_false by set_solver.
  - apply ok_goto; [done|by rewrite Hp|unfold in_section; by rewrite Hp|]. unfold pc_ok; cbn. split; [apply lockp_cases|done].
  - unfold try_acquire. destruct (l_lock s !! l) eqn:Hlk; [by eapply ok_try_failed|].
    apply ok_acquire; [done|done|done|by rewrite Hp|done|]. done.
  - destruct (Z.eqb_spec l (__rq_lockp (l_en s) r)) as [He|He]; (apply ok_goto; [done|by rewrite Hp|unfold in_section; by rewrite Hp|done]).
  - apply ok_release; [done|by rewrite Hp|done|done|done].
  - apply ok_returned; [done|by rewrite Hp|done|by left].
Qed.

Lemma double_second_ok s t r1 r2 :
  locks_ok s -> th_pc (thr s t) = In_double r1 r2 -> locks_ok (double_rq_second t r1 r2 s).
Proof.
  intros K Hp. pose proof (tk_pc _ _ _ (lo_threads _ K t)) as Hok. unfold pc_ok in Hok. rewrite Hp in Hok.
  destruct Hok as (Hc & Hb & l & Hm). unfold double_rq_second.
  destruct (Z.eqb_spec (__rq_lockp (l_en s) r1) (__rq_lockp (l_en s) r2)) as [He|He];
    (apply ok_goto; [done|by rewrite Hp|unfold in_section; by rewrite Hp|]); unfold pc_ok; cbn; [done|].
  split; [done|split; [|by left]]. rewrite Hm. cbn. split; [done|]. intros Hr. split; [|done].
  intros Hen. apply He. rewrite !lockp_eq.
  assert (r2 ∈ l_en s).
  { apply (second_lock s t r1 l r2); [done|rewrite Hm; set_solver|done| |done].
    intros ->. by apply before_irrefl in Hb. }
  by rewrite !bool_decide_true.
Qed.

Lemma order_before a b : a <> b -> let '(x, y) := double_rq_order a b in before x y.
Proof.
  intros Hn. unfold double_rq_order. rewrite order_less_eq. unfold before.
  destruct (Z.ltb_spec (rq_core b) (rq_core a)); [lia|].
  destruct (Z.ltb_spec (rq_core a) (rq_core b)); [lia|].
  destruct (Z.ltb_spec b a); lia.
Qed.

Lemma advance_ok s s' t : locks_ok s -> advance t s = Some s' -> locks_ok s'.
Proof.
  intros K E. unfold advance in E. destruct (th_pc (thr s t)) as [|r p|r p|r l|r1 r2] eqn:Hp; [done|..].
  - by apply (lock_nested_ok s s' t r p).
  - by apply (trylock_ok s s' t r p).
  - injection E as <-. by apply ok_unlock.
  - injection E as <-. by apply double_second_ok.
Qed.

Lemma start_call_ok s s' t c : locks_ok s -> start t c s = Some s' -> locks_ok s'.
Proof.
  intros K E. unfold start in E. destruct (th_pc (thr s t)) eqn:Hp; [|done..].
  pose proof (tk_pc _ _ _ (lo_threads _ K t)) as Hok. unfold pc_ok in Hok. rewrite Hp in Hok.
  destruct c as [r|r|r1 r2|r]; case_bool_decide as Hc; try done.
  - injection E as <-. apply ok_goto; [done|by rewrite Hp|unfold in_section; by rewrite Hp|]. unfold pc_ok; cbn. destruct Hc as [_ ->]. cbn. auto.
  - injection E as <-. apply ok_goto; [done|by rewrite Hp|unfold in_section; by rewrite Hp|]. done.
  - destruct Hc as (_ & _ & Hn & Hm). pose proof (order_before r1 r2 Hn) as Hb.
    destruct (double_rq_order r1 r2) as [a b]. injection E as <-.
    destruct (lo_threads _ K t) as [Ko Kn Km _ Kr]. unfold owned in Ko. rewrite Hp, Hm in Ko.
    apply (locks_ok_thread s t _ (l_lock s)); [done|apply only_mine_refl|done|].
    constructor; cbn; [done|by constructor|set_solver| |done].
    unfold pc_ok; cbn. split; [done|split; [done|]]. right. by exists b.
  - injection E as <-. apply ok_goto; [done|by rewrite Hp|unfold in_section; by rewrite Hp|]. unfold pc_ok; cbn. split; [|done].
    apply list_elem_of_fmap in Hc as ([r' l] & -> & Hin). cbn.
    rewrite (lockp_agree s _ K). destruct (mine_held _ _ _ _ K Hin) as [_ <-]. done.
Qed.

(** ** Turning core scheduling on and off *)
Definition fast_ok (s : lstate) (t : Z) : Prop := l_key s = false \/ (l_mgr s = MSync /\ t ∈ l_rcu s).

(** A thread is not affected when the run queues it has locked keep their lock. *)
Lemma thread_ok_mgr s s' t th :
  (forall l, l_lock s' !! l = Some (Thr t) <-> l_lock s !! l = Some (Thr t)) ->
  (forall r, r ∈ cpu_online -> l_lock s !! __rq_lockp (l_en s) r = Some (Thr t) -> r ∈ l_en s' <-> r ∈ l_en s) ->
  (forall r p, th_pc th = In_lock r p \/ th_pc th = In_trylock r p -> fast_ok s t -> fast_ok s' t) ->
  (t ∈ l_rcu s' -> in_section th = true) ->
  thread_ok s t th -> thread_ok s' t th.
Proof.
  intros Hl Hen Hf Hrcu [Ko Kn Km Kp Kr].
  assert (Hlp : forall r, l_lock s !! __rq_lockp (l_en s) r = Some (Thr t) -> __rq_lockp (l_en s') r = __rq_lockp (l_en s) r).
  { intros r Hr. destruct (decide (r ∈ cpu_online)) as [Ho|Ho]; [|by rewrite !lockp_offline].
    rewrite !lockp_eq. apply Hen in Hr; [|done]. by rewrite (bool_decide_ext _ _ Hr). }
  assert (Hm : forall r l, (r, l) ∈ th_mine th -> l_lock s !! __rq_lockp (l_en s) r = Some (Thr t)).
  { intros r l Hin. apply Ko. unfold owned. rewrite <- (Km _ _ Hin). apply elem_of_app. left.
    apply (list_elem_of_fmap_2 snd _ _ Hin). }
  assert (Hp : forall r p, th_pc th = In_lock r p \/ th_pc th = In_trylock r p -> lpc_ok s t r p -> lpc_ok s' t r p).
  { intros r p Hpc. destruct p as [| | |l|l|l|l]; cbn; [done|by eapply Hf|done..|].
    intros ->. symmetry. apply Hlp, Ko. unfold owned. apply elem_of_app. right.
    destruct Hpc as [-> | ->]; cbn; set_solver. }
  constructor; [intros l; by rewrite Hl|done| | |done].
  - intros r l Hin. rewrite (Hlp r); [by apply Km|by eapply Hm].
  - unfold pc_ok in *. destruct (th_pc th) as [|r p|r p|r l|r1 r2] eqn:E; [done| | |done|done].
    + destruct Kp as (K1 & K2 & K3). split; [apply Hp; auto|split; [|done]].
      destruct (th_mine th) as [|[r1 l1] []]; cbn in *; [done| |done]. destruct K2 as [Hb K2]. split; [done|].
      intros Hc. destruct (K2 Hc) as [Hn Hq]. split; [|done].
      destruct (same_core r1 r Hc) as (Ho & _); [intros ->; by apply before_irrefl in Hb|].
      rewrite Hen; [done|done|]. apply (Hm r1 l1). set_solver.
    + destruct Kp as (K1 & K2). split; [apply Hp; auto|done].
Qed.

Lemma elem_of_readers s t : t ∈ readers s <-> in_section (thr s t) = true.
Proof.
  unfold thr, readers. rewrite elem_of_dom. split.
  - intros [th Hth]. apply map_lookup_filter_Some in Hth as [-> Hs]. done.
  - destruct (l_thr s !! t) as [th|] eqn:E; [|done]. intros Hs. exists th. by apply map_lookup_filter_Some.
Qed.

Lemma toggle_ok_step s s' b : locks_ok s -> toggle b s = Some s' -> locks_ok s'.
Proof.
  intros K E. unfold toggle in E. destruct (l_mgr s) eqn:Hm; [|done..].
  pose proof (lo_mgr_has _ K) as Hh. rewrite Hm in Hh. pose proof (lo_uniform _ K) as Hu. rewrite Hm in Hu.
  destruct (l_key s) eqn:Hk, b; cbn in E; try done; injection E as <-.
  - constructor; cbn; [|done| |by rewrite Hk|apply (lo_possible _ K)|done].
    + intros t. apply (thread_ok_mgr s); [done|done| |apply (tk_rcu _ _ _ (lo_threads _ K t))|apply (lo_threads _ K)].
      intros r p _. unfold fast_ok; cbn. rewrite Hk, Hm. naive_solver.
    + split; [done|]. intros _ c _. unfold offline. destruct (decide (c ∈ cpu_online)); auto.
  - destruct (lo_key _ K Hk) as [Hen _]. constructor; cbn; [|done|done|done|apply (lo_possible _ K)|done].
    intros t. apply (thread_ok_mgr s); [done|done| |exact (proj1 (elem_of_readers s t))|apply (lo_threads _ K)].
    intros r p Hp _. right. split; [done|]. cbn. apply elem_of_readers. unfold in_section. change (thr _ t) with (thr s t) in Hp. by destruct Hp as [-> | ->].
Qed.

(** Once the grace period is over, no thread is on the fast path. *)
Lemma no_fast s t : locks_ok s -> l_mgr s <> MIdle -> (l_mgr s = MSync -> l_rcu s = ∅) -> ~ fast_ok s t.
Proof.
  intros K Hn Hr [Hk|[Hm Hin]]; [by apply Hn, (lo_key _ K)|]. rewrite Hr in Hin by done. set_solver.
Qed.

(** A step of the flip that takes or releases locks, or moves on. *)
Lemma flip_move_ok s lk p :
  locks_ok s -> l_mgr s <> MIdle -> (l_mgr s = MSync -> l_rcu s = ∅) ->
  (forall l t, lk !! l = Some (Thr t) <-> l_lock s !! l = Some (Thr t)) ->
  (forall l, lk !! l = Some Mgr <-> mgr_has p l) -> mgr_ok (l_en s) p ->
  (forall c t, c ∈ cpu_online -> t ∈ smt_mask_of c -> ~ flipping p c -> c ∈ l_en s <-> t ∈ l_en s) ->
  locks_ok (Mk_lstate lk (l_en s) (l_key s) (l_thr s) p (l_rcu s)).
Proof.
  intros K Hn Hr Hl Hh Hok Hu. constructor; cbn; [|done|done| |apply (lo_possible _ K)|done].
  - intros t. apply (thread_ok_mgr s); [intros l; apply Hl|done| |apply (tk_rcu _ _ _ (lo_threads _ K t))|apply (lo_threads _ K)].
    intros r q _ Hf. by apply no_fast in Hf.
  - intros Hkey. by destruct Hn, (lo_key _ K Hkey).
Qed.

(** A step that sets core_enabled of a run queue of which no thread has the lock. *)
Lemma flip_set_ok s b c p :
  locks_ok s -> l_mgr s <> MIdle -> l_mgr s <> MSync -> c ∈ cpu_possible ->
  (c ∈ cpu_online -> l_lock s !! __rq_lockp (l_en s) c = Some Mgr) ->
  let en : gset Z := if (b : bool) then {[c]} ∪ l_en s else l_en s ∖ {[c]} in
  (forall l, mgr_has p l <-> mgr_has (l_mgr s) l) -> mgr_ok en p ->
  (forall a t, a ∈ cpu_online -> t ∈ smt_mask_of a -> ~ flipping p a -> a ∈ en <-> t ∈ en) ->
  locks_ok (Mk_lstate (l_lock s) en (l_key s) (l_thr s) p (l_rcu s)).
Proof.
  intros K Hn Hs Hc Hlk en Hh Hok Hu. constructor; cbn; [| |done| | |done].
  - intros t. apply (thread_ok_mgr s); [done| | |apply (tk_rcu _ _ _ (lo_threads _ K t))|apply (lo_threads _ K)].
    + intros r Hr Ht. cbn. assert (r <> c) by (intros ->; rewrite Hlk in Ht; done). subst en. destruct b; set_solver.
    + intros r q _ Hf. by apply no_fast in Hf.
  - intros l. rewrite Hh. apply (lo_mgr_has _ K).
  - intros Hkey. by destruct Hn, (lo_key _ K Hkey).
  - pose proof (lo_possible _ K). subst en. destruct b; set_solver.
Qed.

Lemma siblings_suffix cpu pre c ts : siblings cpu = pre ++ c :: ts ->
  c ∈ smt_mask_of cpu /\ c ∉ pre /\ c ∉ ts /\ siblings cpu = (pre ++ [c]) ++ ts.
Proof.
  intros Hs. pose proof (nodup_for_each (smt_mask_of cpu)) as Hn. unfold siblings in *. rewrite Hs in Hn.
  apply list.NoDup_app in Hn as (_ & Hd & Hn). apply list.NoDup_cons in Hn as [Hn _].
  split; [apply elem_of_for_each_cpu; rewrite Hs; set_solver|split; [intros Hin; by apply (Hd c Hin); left|]].
  split; [done|]. by rewrite <- app_assoc.
Qed.

Lemma core_lock_ok s s' b cpu ts mask :
  locks_ok s -> l_mgr s = MLock b cpu ts mask -> core_lock b cpu ts mask s = Some s' -> locks_ok s'.
Proof.
  intros K Hm E. pose proof (lo_mgr _ K) as Hg. pose proof (lo_mgr_has _ K) as Hh. pose proof (lo_uniform _ K) as Hu.
  rewrite Hm in Hg, Hh, Hu. destruct Hg as (Hmask & Hleft & Hcpu & pre & Hs). destruct ts as [|c ts]; cbn in E.
  - injection E as <-. apply flip_move_ok; [done|by rewrite Hm|by rewrite Hm|done| | |].
    + intros l. rewrite Hh. cbn. set_solver.
    + cbn. split; [done|split; [done|split; [done|]]]. exists []. split; [done|set_solver].
    + intros a t Ha Ht Hf. apply Hu; [done|done|by intros []].
  - unfold try_acquire in E. destruct (l_lock s !! c) eqn:Hlk; cbn in E; simplify_eq.
    destruct (siblings_suffix _ _ _ _ Hs) as (Hc & _ & Hn & Hs').
    apply (flip_move_ok s); [done|by rewrite Hm|by rewrite Hm| | | |done].
    + intros l t. cbn. destruct (decide (l = c)) as [->|]; [rewrite lookup_insert_eq, Hlk; done|by rewrite lookup_insert_ne].
    + intros l. cbn. destruct (decide (l = c)) as [->|]; [rewrite lookup_insert_eq; naive_solver|].
      rewrite lookup_insert_ne by done. rewrite Hh. cbn. set_solver.
    + cbn. split; [done|split; [done|split; [done|by eexists]]].
Qed.

Lemma core_unlock_ok s b cpu ts mask :
  locks_ok s -> l_mgr s = MUnlock b cpu ts mask -> locks_ok (core_unlock b cpu ts mask s).
Proof.
  intros K Hm. pose proof (lo_mgr _ K) as Hg. pose proof (lo_mgr_has _ K) as Hh. pose proof (lo_uniform _ K) as Hu.
  rewrite Hm in Hg, Hh, Hu. destruct Hg as (Hmask & Hleft & Hcpu & pre & Hs). destruct ts as [|c ts]; cbn.
  - apply flip_move_ok; [done|by rewrite Hm|by rewrite Hm|done| | |done].
    + intros l. rewrite Hh. cbn. set_solver.
    + cbn. split; [set_solver|done].
  - destruct (siblings_suffix _ _ _ _ Hs) as (Hc & _ & Hn & Hs').
    assert (Hlk : l_lock s !! c = Some Mgr) by (apply Hh; cbn; set_solver).
    apply (flip_move_ok s); [done|by rewrite Hm|by rewrite Hm| | | |done].
    + intros l t. cbn. destruct (decide (l = c)) as [->|]; [rewrite lookup_delete_eq, Hlk; done|by rewrite lookup_delete_ne].
    + intros l. cbn. destruct (decide (l = c)) as [->|]; [rewrite lookup_delete_eq; naive_solver|].
      rewrite lookup_delete_ne by done. rewrite Hh. cbn. set_solver.
    + cbn. split; [done|split; [done|split; [done|by eexists]]].
Qed.

(** The next core, and setting core_enabled of its run queues. *)
Lemma cores_ok s b mask : locks_ok s -> l_mgr s = MCores b mask ->
  locks_ok (mgoto match for_each_cpu mask with
                  | cpu :: _ => MLock b cpu (for_each_cpu (smt_mask_of cpu)) mask
                  | [] => MOffline b (for_each_cpu (cpu_possible ∖ cpu_online))
                  end s).
Proof.
  intros K Hm. pose proof (lo_mgr _ K) as Hg. pose proof (lo_mgr_has _ K) as Hh. pose proof (lo_uniform _ K) as Hu.
  rewrite Hm in Hg, Hh, Hu. destruct Hg as (Hmask & Hleft).
  assert (Hel : forall c, c ∈ for_each_cpu mask <-> c ∈ mask) by (intros; apply elem_of_for_each_cpu).
  destruct (for_each_cpu mask) as [|cpu rest] eqn:E;
    (apply (flip_move_ok s); [done|by rewrite Hm|by rewrite Hm|done| | |done]).
  - done.
  - cbn. split; [intros c Hc%elem_of_for_each_cpu; unfold offline; set_solver|].
    intros -> c Hc. apply elem_of_for_each_cpu. pose proof (lo_possible _ K c Hc) as Hp.
    destruct (Hleft eq_refl c Hc) as [Hin|Ho]; [apply Hel in Hin; set_solver|]. unfold offline in Ho. set_solver.
  - intros l. rewrite Hh. cbn. rewrite elem_of_for_each_cpu. naive_solver.
  - cbn. split; [done|split; [done|split; [apply Hmask, Hel; set_solver|by exists []]]].
Qed.

Lemma flip_step_ok s b cpu c ts mask : locks_ok s -> l_mgr s = MFlip b cpu (c :: ts) mask ->
  locks_ok (mgoto (MFlip b cpu ts mask) (set_enabled b c s)).
Proof.
  intros K Hm. pose proof (lo_mgr _ K) as Hg. pose proof (lo_mgr_has _ K) as Hh. pose proof (lo_uniform _ K) as Hu.
  rewrite Hm in Hg, Hh, Hu. destruct Hg as (Hmask & Hleft & Hcpu & pre & Hs & Hpre).
  destruct (siblings_suffix _ _ _ _ Hs) as (Hc & Hn & _ & Hs').
  assert (Ho : c ∈ cpu_online) by by apply (smt_online cpu).
  apply (flip_set_ok s); [done|by rewrite Hm|by rewrite Hm|by apply online_possible| | | |].
  - intros _. apply Hh. cbn. rewrite <- (smt_shared cpu c) by done. by apply lockp_core.
  - by rewrite Hm.
  - cbn. split; [done|split; [|split; [done|]]].
    + intros -> a Ha. apply Hleft; [done|set_solver].
    + exists (pre ++ [c]). split; [done|]. intros a Ha.
      apply elem_of_app in Ha as [Ha| ->%list_elem_of_singleton]; [|destruct b; set_solver].
      assert (a <> c) by (intros ->; done). specialize (Hpre a Ha). destruct b; set_solver.
  - intros a t Ha Ht Hf. cbn in Hf.
    assert (a <> c) by (intros ->; done).
    assert (t <> c).
    { intros ->. apply Hf. rewrite <- (smt_shared cpu c), (smt_shared a c) by done. by apply smt_self. }
    pose proof (Hu a t Ha Ht Hf). destruct b; set_solver.
Qed.

Lemma flip_end_ok s b cpu mask : locks_ok s -> l_mgr s = MFlip b cpu [] mask ->
  locks_ok (mgoto (MUnlock b cpu (for_each_cpu (smt_mask_of cpu)) mask) s).
Proof.
  intros K Hm. pose proof (lo_mgr _ K) as Hg. pose proof (lo_mgr_has _ K) as Hh. pose proof (lo_uniform _ K) as Hu.
  rewrite Hm in Hg, Hh, Hu. destruct Hg as (Hmask & Hleft & Hcpu & pre & Hs & Hpre). rewrite app_nil_r in Hs.
  assert (Hall : forall c, c ∈ smt_mask_of cpu -> c ∈ l_en s <-> b = true) by (intros c Hc; apply Hpre; rewrite <- Hs; by apply siblings_elem).
  apply (flip_move_ok s); [done|by rewrite Hm|by rewrite Hm|done| | |].
  - intros l. rewrite Hh. cbn. by rewrite elem_of_for_each_cpu.
  - cbn. split; [done|split; [|split; [done|by exists []]]].
    intros -> c Hc. destruct (Hleft eq_refl c Hc) as [Hin|]; [|auto]. left. apply elem_of_difference. split; [done|].
    intros Hsib. by apply Hall in Hc.
  - intros a t Ha Ht _. destruct (decide (a ∈ smt_mask_of cpu)) as [Hin|Hin]; [|by apply Hu].
    rewrite (Hall a Hin). symmetry. apply Hall. by rewrite <- (smt_shared cpu a) by done.
Qed.

Lemma offline_step_ok s b c ts : locks_ok s -> l_mgr s = MOffline b (c :: ts) ->
  locks_ok (mgoto (MOffline b ts) (set_enabled b c s)).
Proof.
  intros K Hm. pose proof (lo_mgr _ K) as Hg. pose proof (lo_uniform _ K) as Hu. rewrite Hm in Hg, Hu.
  destruct Hg as (Hoff & Hleft). destruct (Hoff c) as [Hc Hp]; [set_solver|].
  apply (flip_set_ok s); [done|by rewrite Hm|by rewrite Hm|done|done|by rewrite Hm| |].
  - cbn. split; [set_solver|]. intros -> a Ha. apply elem_of_difference in Ha as [Ha Hne].
    specialize (Hleft eq_refl a Ha). set_solver.
  - intros a t Ha Ht _. assert (a <> c) by (intros ->; done).
    assert (t <> c) by (intros ->; apply Hc; by apply (smt_online a)).
    pose proof (Hu a t Ha Ht ltac:(by intros [])). destruct b; set_solver.
Qed.

Lemma core_flip_ok s s' : locks_ok s -> core_flip s = Some s' -> locks_ok s'.
Proof.
  intros K E. unfold core_flip in E. pose proof (lo_mgr _ K) as Hg. pose proof (lo_mgr_has _ K) as Hh.
  pose proof (lo_uniform _ K) as Hu.
  destruct (l_mgr s) as [| |b mask|b cpu ts mask|b cpu [|c ts] mask|b cpu ts mask|b [|c ts]|] eqn:Hm; simplify_eq/=.
  - case_bool_decide as Hr; simplify_eq. apply flip_move_ok; [done|by rewrite Hm|done|done|done| |done].
    cbn. rewrite Hg. split; [done|]. intros ? c Hc. set_solver.
  - by apply cores_ok.
  - by apply (core_lock_ok s s' b cpu ts mask).
  - by apply flip_end_ok.
  - by apply flip_step_ok.
  - by apply core_unlock_ok.
  - destruct Hg as [_ Hl]. apply (flip_move_ok s); [done|by rewrite Hm|by rewrite Hm|done| | |].
    + destruct b; apply Hh.
    + destruct b; cbn; [done|]. apply elem_of_equiv_empty_L. intros c Hc. by apply Hl, elem_of_nil in Hc.
    + intros a t Ha Ht _. apply Hu; [done|done|by intros []].
  - by apply offline_step_ok.
  - constructor; cbn; [|done|done|done|apply (lo_possible _ K)|done].
    intros t. apply (thread_ok_mgr s); [done|done| |apply (tk_rcu _ _ _ (lo_threads _ K t))|apply (lo_threads _ K)].
    intros r p _ Hf. by left.
Qed.

Lemma lock_step_ok s s' : locks_ok s -> lock_step s s' -> locks_ok s'.
Proof.
  intros K [t c E|t E|b E|E]; [by eapply start_call_ok|by eapply advance_ok|by eapply toggle_ok_step|by eapply core_flip_ok].
Qed.

Lemma unlocked_ok : locks_ok unlocked.
Proof.
  constructor; cbn; [|done|done|done|set_solver|set_solver].
  intros t. constructor; cbn; [set_solver|constructor|set_solver|done|set_solver].
Qed.

Lemma lock_steps_ok s s' : rtc lock_step s s' -> locks_ok s -> locks_ok s'.
Proof. induction 1; [done|]. eauto using lock_step_ok. Qed.

(** ** No deadlock *)

Lemma before_trans a b c : before a b -> before b c -> before a c.
Proof. unfold before. lia. Qed.

Lemma core_idem r : rq_core (rq_core r) = rq_core r.
Proof.
  destruct (decide (r ∈ cpu_online)) as [Ho|Ho]; [|by rewrite !core_offline by (rewrite ?core_offline by done; done)].
  apply core_shared; [done|by apply core_sibling].
Qed.

(** The lock for the second run queue comes after the lock held for the first. *)
Lemma second_before s t r p l1 l : locks_ok s -> second_ok s r p (th_mine (thr s t)) ->
  l1 ∈ (th_mine (thr s t)).*2 -> l = r \/ l = rq_core r -> p = Fast /\ l = r \/ p = Acquire l -> before l1 l.
Proof.
  intros K Hs Hin Hl Hp. destruct (th_mine (thr s t)) as [|[r1 l'] []] eqn:Hm; cbn in *; [set_solver| |done].
  apply list_elem_of_singleton in Hin as ->. destruct Hs as [Hb Hs].
  destruct (mine_held s t r1 l') as [_ Hl']; [done|rewrite Hm; set_solver|].
  assert (Hc1 : rq_core l' = rq_core r1) by (destruct (lockp_cases (l_en s) r1) as [E|E]; rewrite E in Hl'; subst l'; [done|apply core_idem]).
  assert (Hc : rq_core l = rq_core r) by (destruct Hl as [-> | ->]; [done|apply core_idem]).
  destruct (decide (rq_core r1 = rq_core r)) as [Heq|Hne]; [|unfold before in *; rewrite Hc1, Hc; lia].
  destruct (Hs Heq) as [Hen Ha]. rewrite lockp_eq, bool_decide_false in Hl' by done. subst l'.
  assert (l = r) as -> by (destruct Hp as [[_ ->]| ->]; [done|by apply Ha]). done.
Qed.

(** sched_core_lock() takes the locks of a core in their order. *)
Lemma siblings_before cpu c ts pre l : cpu ∈ cpu_online -> siblings cpu = pre ++ c :: ts ->
  l ∈ smt_mask_of cpu -> l ∉ c :: ts -> before l c.
Proof.
  intros Hcpu Hs Hl Hn. destruct (siblings_suffix _ _ _ _ Hs) as (Hc & _).
  right. split; [by rewrite (core_shared cpu l), (core_shared cpu c)|].
  assert (Hin : l ∈ pre) by (apply siblings_elem in Hl; rewrite Hs in Hl; set_solver).
  assert (Hso : StronglySorted Z.le (siblings cpu)).
  { apply Sorted_StronglySorted; [intros ???; lia|]. unfold siblings, for_each_cpu. apply (Sorted_merge_sort Z.le). }
  rewrite Hs in Hso. apply (StronglySorted_app_1_elem_of _ _ _ l c) in Hso; [|done|set_solver].
  assert (l <> c) by (intros ->; set_solver). lia.
Qed.

(** Some step is possible, or a thread is between its calls and has a run queue
    locked. *)
Definition can_run (s : lstate) : Prop :=
  (exists t s', advance t s = Some s') \/ (exists s', core_flip s = Some s') \/
  (exists t, th_pc (thr s t) = Idle /\ th_mine (thr s t) <> []).

(** A thread in a call goes on, unless the lock it waits for is taken. *)
Lemma thread_waits s t : th_pc (thr s t) <> Idle -> can_run s \/
  exists r p l o, th_pc (thr s t) = In_lock r p /\ (p = Fast /\ l = r \/ p = Acquire l) /\ l_lock s !! l = Some o.
Proof.
  intros Hp. destruct (advance t s) as [s'|] eqn:E; [left; left; by exists t, s'|].
  unfold advance in E. destruct (th_pc (thr s t)) as [|r p|r p|r l|r1 r2]; [done| |by destruct p|done|done].
  right. destruct p as [| | |l|l|l|l]; cbn in E; try done; unfold try_acquire in E.
  - destruct (l_lock s !! r) as [o|] eqn:Hl; [|done]. by exists r, Fast, r, o; auto.
  - destruct (l_lock s !! l) as [o|] eqn:Hl; [|done]. by exists r, (Acquire l), l, o; auto.
Qed.

(** So does turning core scheduling on and off. *)
Lemma mgr_waits s : l_mgr s <> MIdle -> can_run s \/ (l_mgr s = MSync /\ exists t, t ∈ l_rcu s) \/
  exists b cpu c ts mask o, l_mgr s = MLock b cpu (c :: ts) mask /\ l_lock s !! c = Some o.
Proof.
  intros Hp. destruct (core_flip s) as [s'|] eqn:E; [left; right; left; by exists s'|].
  unfold core_flip in E. right.
  destruct (l_mgr s) as [| |b mask|b cpu [|c ts] mask|b cpu [] mask|b cpu ts mask|b []|] eqn:Hm; try done.
  - left. split; [done|]. case_bool_decide as Hr; [done|]. by apply set_choose_L.
  - right. cbn in E. unfold try_acquire in E. destruct (l_lock s !! c) as [o|] eqn:Hl; [|done]. naive_solver.
Qed.

(** When a lock is held, the holder of the last one in the order is not waiting. *)
Lemma held_can_run s l o : locks_ok s -> l_lock s !! l = Some o -> (forall k, is_Some (l_lock s !! k) -> ~ before l k) -> can_run s.
Proof.
  intros K Hl Hlast. destruct o as [t|].
  - destruct (lo_threads _ K t) as [Ko _ _ Kp _]. apply Ko in Hl. unfold owned in Hl.
    destruct (decide (th_pc (thr s t) = Idle)) as [Hp|Hp].
    { right; right. exists t. split; [done|]. intros Hm. rewrite Hp, Hm in Hl. set_solver. }
    destruct (thread_waits s t Hp) as [|(r & p & k & o & Hpc & Hk & Hlk)]; [done|].
    unfold pc_ok in Kp. rewrite Hpc in *. destruct Kp as (Kl & Ks & _).
    exfalso. apply (Hlast k); [by eexists|]. eapply (second_before s t r p); [done|done| | |done].
    + destruct Hk as [[-> ->]| ->]; cbn in Hl; by rewrite app_nil_r in Hl.
    + destruct Hk as [[-> ->]| ->]; [by left|exact Kl].
  - apply (lo_mgr_has _ K) in Hl. pose proof (lo_mgr _ K) as Hg.
    destruct (mgr_waits s) as [|[[Hm _]|(b & cpu & c & ts & mask & o & Hm & Hc)]]; [|done|by rewrite Hm in Hl|].
    { intros Hm. by rewrite Hm in Hl. }
    rewrite Hm in *. destruct Hg as (_ & _ & Hcpu & pre & Hs). destruct Hl as [Hl Hn].
    exfalso. apply (Hlast c); [by eexists|]. by eapply siblings_before.
Qed.

Lemma locks_can_run s : locks_ok s -> (exists t, th_pc (thr s t) <> Idle) \/ l_mgr s <> MIdle -> can_run s.
Proof.
  intros K Hbusy. destruct (decide (dom (l_lock s) = ∅)) as [He|Hne].
  - assert (Hfree : forall l o, l_lock s !! l <> Some o).
    { intros l o Hl. apply (not_elem_of_empty (C := gset Z) l). rewrite <- He. by apply elem_of_dom_2 in Hl. }
    assert (Hthr : forall t, th_pc (thr s t) <> Idle -> can_run s).
    { intros t Hp. destruct (thread_waits s t Hp) as [|(r & p & l & o & _ & _ & Hl)]; [done|by apply Hfree in Hl]. }
    destruct Hbusy as [[t Hp]|Hm]; [by apply (Hthr t)|].
    destruct (mgr_waits s Hm) as [|[[_ [t Ht]]|(b & cpu & c & ts & mask & o & _ & Hl)]]; [done| |by apply Hfree in Hl].
    apply (Hthr t). apply (tk_rcu _ _ _ (lo_threads _ K t)) in Ht. unfold in_section in Ht. by destruct (th_pc (thr s t)).
  - pose (R := fun a b => before b a).
    assert (Hdec : forall x y, Decision (R x y)) by (intros x y; unfold R, before; apply _).
    assert (Htr : Transitive R) by (intros x y z Hxy Hyz; by apply (before_trans z y x)).
    destruct (minimal_exists_elem_of_L R (dom (l_lock s)) Hne) as (l & Hin & Hmin).
    apply elem_of_dom in Hin as [o Hl]. apply (held_can_run s l o K Hl).
    intros k Hk Hb. apply elem_of_dom in Hk. specialize (Hmin k Hk Hb). apply (before_irrefl l). by apply (before_trans l k l).
Qed.

Lemma run_events_steps es s s' : run_events es s = Some s' -> rtc lock_step s s'.
Proof.
  revert s. induction es as [|e es IH]; intros s E; cbn in E; [by simplify_eq|].
  apply bind_Some in E as (x & Ex & E). eapply rtc_l; [|by apply IH].
  destruct e; cbn in Ex; [by eapply step_start|by eapply step_advance|by eapply step_toggle|by eapply step_flip].
Qed.

(** ** What is locked stays locked with the same lock *)
Definition kept (mine mine' : list (Z * Z)) : Prop := forall r l, (r, l) ∈ mine -> (r, l) ∈ mine' \/ r ∉ mine'.*1.

Lemma kept_refl mine : kept mine mine.
Proof. intros r l Hin. by left. Qed.
Lemma kept_cons mine x : kept mine (x :: mine).
Proof. intros r l Hin. left. set_solver. Qed.

Lemma kept_unlock mine rq : kept mine (List.filter (fun x => negb (x.1 =? rq)) mine).
Proof.
  intros r l Hin. destruct (decide (r = rq)) as [->|Hn].
  - right. intros ([r' l'] & -> & Hf)%list_elem_of_fmap. apply list_elem_of_In, filter_In in Hf as [_ Hf].
    cbn in Hf. by rewrite Z.eqb_refl in Hf.
  - left. apply list_elem_of_In, filter_In. split; [by apply list_elem_of_In|]. cbn. by destruct (Z.eqb_spec r rq).
Qed.

(** A step that only writes thread [t] and gives it a [mine] that keeps. *)
Lemma kept_put s s' t th : l_thr s' = <[t := th]> (l_thr s) -> kept (th_mine (thr s t)) (th_mine th) ->
  forall u, kept (th_mine (thr s u)) (th_mine (thr s' u)).
Proof.
  intros E Hk u. change (thr s' u) with (default idle_thread (l_thr s' !! u)). rewrite E.
  change (kept (th_mine (thr s u)) (th_mine (thr (put t th s) u))). rewrite thr_put.
  case_decide; [by subst|apply kept_refl].
Qed.

Lemma advance_kept s s' t u : advance t s = Some s' -> kept (th_mine (thr s u)) (th_mine (thr s' u)).
Proof.
  intros E. unfold advance in E.
  destruct (th_pc (thr s t)) as [|r p|r p|r l|r1 r2]; [done|destruct p; cbn in E|destruct p; cbn in E|..];
    unfold try_acquire in E; repeat case_match; simplify_eq/=;
    (eapply kept_put; [reflexivity|]; cbn; apply kept_refl || apply kept_cons || apply kept_unlock).
Qed.

Lemma step_kept s s' u : lock_step s s' -> kept (th_mine (thr s u)) (th_mine (thr s' u)).
Proof.
  intros [t c E|t E|b E|E]; [|by eapply advance_kept| |].
  - unfold start in E. destruct (th_pc (thr s t)), c as [r|r|r1 r2|r]; try done; case_bool_decide as Hc; try done;
      [..|destruct (double_rq_order r1 r2)|]; simplify_eq; (eapply kept_put; [reflexivity|]; cbn); try apply kept_refl.
    destruct Hc as (_ & _ & _ & ->). apply kept_refl.
  - unfold toggle in E. destruct (l_mgr s), (eqb (l_key s) b), b; simplify_eq; apply kept_refl.
  - unfold core_flip, core_lock, try_acquire in E. repeat case_match; simplify_eq/=; try apply kept_refl.
    all: unfold core_unlock; repeat case_match; apply kept_refl.
Qed.

(** ** The properties *)

(** C6: In every state that threads locking run queues, and core scheduling being
    turned on and off, can reach: a thread that has locked a run queue holds the
    lock that protects it now, rq_lockp() and __rq_lockp() agree on it; no two
    threads have the same run queue locked; raw_spin_rq_unlock() releases exactly
    the lock that was taken; when double_rq_lock() returns with one lock, that
    lock protects both run queues; and no step changes the lock that protects a
    run queue while a thread keeps it locked. *)
Theorem rq_locks_protect s :
  rtc lock_step unlocked s ->
  (forall t r l, (r, l) ∈ th_mine (thr s t) ->
    l_lock s !! l = Some (Thr t) /\ __rq_lockp (l_en s) r = l /\ rq_lockp (l_key s) (l_en s) r = l) /\
  (forall t u r, r ∈ (th_mine (thr s t)).*1 -> r ∈ (th_mine (thr s u)).*1 -> t = u) /\
  (forall t r l, th_pc (thr s t) = In_unlock r l -> (r, l) ∈ th_mine (thr s t)) /\
  (forall t r1 r2 s', th_pc (thr s t) = In_double r1 r2 -> advance t s = Some s' -> th_pc (thr s' t) = Idle ->
    l_lock s' !! __rq_lockp (l_en s') r1 = Some (Thr t) /\ l_lock s' !! __rq_lockp (l_en s') r2 = Some (Thr t)) /\
  (forall s' t r, lock_step s s' -> r ∈ (th_mine (thr s t)).*1 -> r ∈ (th_mine (thr s' t)).*1 ->
    __rq_lockp (l_en s') r = __rq_lockp (l_en s) r).
Proof.
  intros Hs. pose proof (lock_steps_ok _ _ Hs unlocked_ok) as K.
  split; [|split; [|split; [|split]]].
  - intros t r l Hin. destruct (mine_held _ _ _ _ K Hin) as [Hl ->]. by rewrite (lockp_agree s r K).
  - intros t u r ([r' l] & -> & Hl)%list_elem_of_fmap ([r'' k] & E & Hk)%list_elem_of_fmap. cbn in E; subst r''.
    destruct (mine_held _ _ _ _ K Hl) as [H1 ->], (mine_held _ _ _ _ K Hk) as [H2 ->]. congruence.
  - intros t r l Hp. pose proof (tk_pc _ _ _ (lo_threads _ K t)) as Hok. unfold pc_ok in Hok. rewrite Hp in Hok. apply Hok.
  - intros t r1 r2 s' Hp E Hi. pose proof (tk_pc _ _ _ (lo_threads _ K t)) as Hok. unfold pc_ok in Hok. rewrite Hp in Hok.
    destruct Hok as (_ & _ & l & Hm). unfold advance in E. rewrite Hp in E. injection E as <-.
    destruct (mine_held s t r1 l) as [Hl ->]; [done|rewrite Hm; set_solver|].
    unfold double_rq_second in *. destruct (Z.eqb_spec (__rq_lockp (l_en s) r1) (__rq_lockp (l_en s) r2)) as [He|He].
    + cbn. rewrite <- He. done.
    + exfalso. revert Hi. unfold goto. rewrite thr_put, decide_True by done. done.
  - intros s' t r Hst ([r' l] & -> & Hl)%list_elem_of_fmap Hin. cbn in *.
    destruct (step_kept _ _ t Hst r' l Hl) as [Hl'|Hn]; [|done].
    pose proof (lock_step_ok _ _ K Hst) as K'.
    destruct (mine_held _ _ _ _ K Hl) as [_ <-], (mine_held _ _ _ _ K' Hl') as [_ <-]. done.
Qed.

(** C9: The locks of the run queues do not deadlock: in every reachable state in
    which a thread is inside a locking function, or core scheduling is being
    turned on or off, some thread or the toggling can take a step, unless a thread
    that has returned still has a run queue locked.  This covers two threads in
    double_rq_lock() on the same run queues in opposite order, sched_core_lock()
    taking all locks of a core against them, and the grace period. *)
Theorem rq_locks_no_deadlock s :
  rtc lock_step unlocked s -> (exists t, th_pc (thr s t) <> Idle) \/ l_mgr s <> MIdle ->
  (exists t s', advance t s = Some s') \/ (exists s', core_flip s = Some s') \/
  (exists t, th_pc (thr s t) = Idle /\ th_mine (thr s t) <> []).
Proof. intros Hs. apply locks_can_run. exact (lock_steps_ok _ _ Hs unlocked_ok). Qed.
End Locks.

(** ** Examples: the threads 0 and 1 of a core, an offline CPU 2 *)
Module LockDemo.
Definition topology : RqTopology := {|
  cpu_online := {[0; 1]}; cpu_possible := {[0; 1; 2]};
  smt_mask_of c := if c =? 2 then {[2]} else {[0; 1]};
  rq_core c := if c =? 1 then 0 else c;
  __rq_lockp en r := if bool_decide (r ∈ en) then if r =? 1 then 0 else r else r;
  rq_lockp key en r := if (key && bool_decide (r ∈ en))%bool then if r =? 1 then 0 else r else r;
  rq_order_less a b :=
    let core c := if c =? 1 then 0 else c in
    if core a <? core b then true else if core b <? core a then false else a <? b;
|}.
#[local] Existing Instance topology.

Lemma topology_ok : RqTopologyOK topology.
Proof.
  assert (Hon : forall c, c ∈ ({[0; 1]} : gset Z) -> c = 0 \/ c = 1) by set_solver.
  assert (Hsmt : forall c, c ∈ ({[0; 1]} : gset Z) -> (if c =? 2 then {[2]} else {[0; 1]} : gset Z) = {[0; 1]})
    by (intros c [-> | ->]%Hon; done).
  constructor; cbn; [set_solver| | | | | | |done|done|done].
  - intros c Hc. by rewrite Hsmt.
  - intros c t Hc. by rewrite Hsmt.
  - intros c t Hc. rewrite (Hsmt c Hc). intros Ht. by rewrite Hsmt.
  - intros c [-> | ->]%Hon; cbn; set_solver.
  - intros c t Hc. rewrite Hsmt by done. apply Hon in Hc as [-> | ->]; intros [-> | ->]%Hon; done.
  - intros c Hc. destruct (Z.eqb_spec c 1) as [->|]; [set_solver|done].
Qed.

(** Thread 7 locks run queue 1 on the fast path and reads no key after; core
    scheduling is turned on meanwhile, waits for it, and stops at its lock. *)
Definition before_flip : list event :=
  [EStart 7 (CLock 1); EStep 7; EToggle true; EStep 7; EStep 7; EFlip; EFlip; EFlip].
(** Thread 7 unlocks, the core is flipped, and thread 7 locks run queue 1 again:
    with the lock of run queue 0. *)
Definition after_flip : list event :=
  before_flip ++ [EStart 7 (CUnlock 1); EStep 7; EFlip; EFlip; EFlip; EFlip; EFlip; EFlip; EFlip; EFlip;
                  EStart 7 (CLock 1); EStep 7; EStep 7; EStep 7; EStep 7; EStep 7].

Definition state_after (es : list event) : lstate := default unlocked (run_events es unlocked).

Lemma reach_events es : is_Some (run_events es unlocked) -> rtc lock_step unlocked (state_after es).
Proof. intros [s Es]. unfold state_after. rewrite Es. by eapply run_events_steps. Qed.

Example locks_while_toggling :
  th_mine (thr (state_after before_flip) 7) = [(1, 1)] /\ core_flip (state_after before_flip) = None /\
  th_mine (thr (state_after after_flip) 7) = [(1, 0)] /\ l_lock (state_after after_flip) !! 0 = Some (Thr 7).
Proof. vm_compute. done. Qed.

Lemma rq_locks_protect_witness :
  l_lock (state_after before_flip) !! 1 = Some (Thr 7) /\ l_lock (state_after after_flip) !! 0 = Some (Thr 7).
Proof.
  split.
  - apply (@rq_locks_protect topology topology_ok (state_after before_flip) (reach_events before_flip ltac:(vm_compute; by eexists))) with (r := 1).
    apply (bool_decide_unpack _). vm_compute. exact I.
  - apply (@rq_locks_protect topology topology_ok (state_after after_flip) (reach_events after_flip ltac:(vm_compute; by eexists))) with (r := 1).
    apply (bool_decide_unpack _). vm_compute. exact I.
Defined.

(** Turning core scheduling on waits for thread 7, which can go on. *)
Lemma rq_locks_no_deadlock_witness :
  core_flip (state_after before_flip) = None /\
  ((exists t s', advance t (state_after before_flip) = Some s') \/ (exists s', core_flip (state_after before_flip) = Some s') \/
   (exists t, th_pc (thr (state_after before_flip) t) = Idle /\ th_mine (thr (state_after before_flip) t) <> [])).
Proof.
  split; [vm_compute; reflexivity|].
  apply (@rq_locks_no_deadlock topology topology_ok (state_after before_flip) (reach_events before_flip ltac:(vm_compute; by eexists))).
  right. vm_compute. discriminate.
Defined.
End LockDemo.
