(* ===== verification/TaskPin.v ===== *)
(** Locking the run queue of a task that may move (core.c: task_rq_lock(),
    __task_rq_lock()), and task_call_func(), which calls a function on a task
    whose state is fixed meanwhile.

    The code runs concurrently with everything else that changes where the task
    [p] is: __schedule() on the CPUs, move_queued_task(), try_to_wake_up() and
    sched_ttwu_pending().  Each of them is a sequence of instructions that takes
    and releases p->pi_lock and run-queue locks; any of them may take the next
    step.  Memory is accessed one instruction at a time, in program order; a
    run-queue lock is one lock (the file on run-queue locks justifies this). *)
From S2P Require Import Prelude Headers.

Module Pin.
(** p->on_rq, and what of p->__state matters here. *)
Inductive onrq : Type := OFF | QUEUED | MIGRATING.
Inductive tstate : Type := RUNNING | WAKING | BLOCKED.
#[export] Instance onrq_eq_dec : EqDecision onrq.
Proof. solve_decision. Defined.
#[export] Instance tstate_eq_dec : EqDecision tstate.
Proof. solve_decision. Defined.

(** The state of [p]; [c_curr]: it is rq->curr of its run queue; [c_list]: the
    CPU on whose wake list it is. *)
Record core : Type := Mk_core {
  c_cpu : Z; c_onrq : onrq; c_state : tstate; c_curr : bool; c_oncpu : bool; c_list : option Z;
}.

(** Who takes a step: a caller of the locking functions, a CPU in __schedule(),
    the task itself, the mover, the waker, a CPU that empties its wake list, and
    other code that locks a run queue. *)
Inductive actor : Type := Caller (t : Z) | Sched (c : Z) | Self | Mover | Waker | Pending | Other (c : Z).
#[export] Instance actor_eq_dec : EqDecision actor.
Proof. solve_decision. Defined.

(** Which function takes the run-queue lock: task_rq_lock(), task_call_func(), or
    ttwu_runnable() of the waker. *)
Inductive user : Type := Task_rq_lock | Call_func | Runnable.
#[export] Instance user_eq_dec : EqDecision user.
Proof. solve_decision. Defined.

Inductive pc : Type :=
  | Idle
  (* task_rq_lock() and __task_rq_lock() *)
  | L_pi (u : user)                  (* raw_spin_lock_irqsave(&p->pi_lock) *)
  | L_read (u : user)                (* rq = task_rq(p) *)
  | L_lock (u : user) (rq : Z)       (* raw_spin_rq_lock(rq) *)
  | L_check (u : user) (rq : Z)      (* rq == task_rq(p) && !task_on_rq_migrating(p) ? *)
  | L_drop (u : user) (rq : Z)       (* raw_spin_rq_unlock(rq) *)
  | L_drop_pi                        (* raw_spin_unlock_irqrestore(&p->pi_lock) *)
  | L_spin (u : user)                (* while (task_on_rq_migrating(p)) *)
  | L_has (rq : Z)                   (* task_rq_lock() has returned *)
  | L_unlock_pi                      (* the end of task_rq_unlock() *)
  (* task_call_func() *)
  | F_state                          (* state = p->__state *)
  | F_onrq (s : tstate)              (* p->on_rq *)
  | F_func (rq : option Z)           (* func(p, arg) *)
  | F_unlock_pi
  (* __schedule() *)
  | S_held (c : Z)                   (* prev is p: prev->__state *)
  | S_pick (c : Z)                   (* next *)
  | S_finish (c : Z)                 (* finish_task(p) *)
  | S_unlock (c : Z)
  | S_in (c : Z)                     (* next is p *)
  (* move_queued_task() *)
  | M_deactivate (c n : Z)
  | M_set_cpu (c n : Z)
  | M_unlock (c n : Z)
  | M_lock (n : Z)
  | M_activate (n : Z)
  | M_end (n : Z)
  (* try_to_wake_up() *)
  | W_match
  | W_onrq
  | W_runnable (rq : Z)              (* task_on_rq_queued(p), in ttwu_runnable() *)
  | W_runnable_end (rq : Z) (ret : bool)
  | W_waking
  | W_oncpu
  | W_select
  | W_queue
  | W_activate (c : Z)
  | W_activate_end (c : Z)
  | W_unlock_pi
  (* sched_ttwu_pending() *)
  | P_activate (c : Z)
  | P_end (c : Z)
  (* other holders of a run-queue lock *)
  | O_has (c : Z).

Definition is_idle (p : pc) : bool := match p with Idle => true | _ => false end.

Record pin : Type := Mk_pin {
  n_core : core;
  n_pi : option actor;          (* p->pi_lock *)
  n_rq : gmap Z actor;          (* the run-queue locks *)
  n_pc : actor -> pc;
}.

Definition at_pc (a : actor) (p : pc) (s : pin) : pin :=
  Mk_pin (n_core s) (n_pi s) (n_rq s) (fun b => if decide (b = a) then p else n_pc s b).
Definition with_core (f : core -> core) (s : pin) : pin := Mk_pin (f (n_core s)) (n_pi s) (n_rq s) (n_pc s).

Definition lock_pi (a : actor) (p : pc) (s : pin) : option pin :=
  match n_pi s with
  | None => Some (at_pc a p (Mk_pin (n_core s) (Some a) (n_rq s) (n_pc s)))
  | Some _ => None
  end.
Definition unlock_pi (a : actor) (p : pc) (s : pin) : option pin :=
  Some (at_pc a p (Mk_pin (n_core s) None (n_rq s) (n_pc s))).
Definition lock_rq (a : actor) (c : Z) (p : pc) (s : pin) : option pin :=
  match n_rq s !! c with
  | None => Some (at_pc a p (Mk_pin (n_core s) (n_pi s) (<[c := a]> (n_rq s)) (n_pc s)))
  | Some _ => None
  end.
Definition unlock_rq (a : actor) (c : Z) (p : pc) (s : pin) : option pin :=
  Some (at_pc a p (Mk_pin (n_core s) (n_pi s) (delete c (n_rq s)) (n_pc s))).
Definition write (a : actor) (f : core -> core) (p : pc) (s : pin) : option pin := Some (at_pc a p (with_core f s)).

Definition set_cpu (n : Z) (k : core) := Mk_core n (c_onrq k) (c_state k) (c_curr k) (c_oncpu k) (c_list k).
Definition set_onrq (x : onrq) (k : core) := Mk_core (c_cpu k) x (c_state k) (c_curr k) (c_oncpu k) (c_list k).
Definition set_state (x : tstate) (k : core) := Mk_core (c_cpu k) (c_onrq k) x (c_curr k) (c_oncpu k) (c_list k).
Definition set_curr (x : bool) (k : core) := Mk_core (c_cpu k) (c_onrq k) (c_state k) x (c_oncpu k) (c_list k).
Definition set_oncpu (x : bool) (k : core) := Mk_core (c_cpu k) (c_onrq k) (c_state k) (c_curr k) x (c_list k).
Definition set_list (x : option Z) (k : core) := Mk_core (c_cpu k) (c_onrq k) (c_state k) (c_curr k) (c_oncpu k) x.

(** Where the caller of __task_rq_lock() goes on. *)
Definition locked_pc (u : user) (rq : Z) : pc :=
  match u with Task_rq_lock => L_has rq | Call_func => F_func (Some rq) | Runnable => W_runnable rq end.

(** The loop of __task_rq_lock(), with p->pi_lock held. *)
Definition __task_rq_lock (a : actor) (u : user) (p : pc) (s : pin) : option pin :=
  match p with
  | L_read _ => Some (at_pc a (L_lock u (c_cpu (n_core s))) s)
  | L_lock _ rq => lock_rq a rq (L_check u rq) s
  | L_check _ rq =>
      Some (at_pc a (if bool_decide (rq = c_cpu (n_core s) /\ c_onrq (n_core s) <> MIGRATING)
                     then locked_pc u rq else L_drop u rq) s)
  | L_drop _ rq => unlock_rq a rq (L_spin u) s
  | L_spin _ => if bool_decide (c_onrq (n_core s) = MIGRATING) then None else Some (at_pc a (L_read u) s)
  | _ => None
  end.

(** task_rq_lock() also takes p->pi_lock, and drops it before it waits. *)
Definition task_rq_lock (a : actor) (p : pc) (s : pin) : option pin :=
  match p with
  | L_pi _ => lock_pi a (L_read Task_rq_lock) s
  | L_drop _ rq => unlock_rq a rq L_drop_pi s
  | L_drop_pi => unlock_pi a (L_spin Task_rq_lock) s
  | L_spin _ => if bool_decide (c_onrq (n_core s) = MIGRATING) then None else Some (at_pc a (L_pi Task_rq_lock) s)
  | _ => __task_rq_lock a Task_rq_lock p s
  end.

Definition task_call_func (a : actor) (p : pc) (s : pin) : option pin :=
  match p with
  | L_pi _ => lock_pi a F_state s
  | F_state => Some (at_pc a (F_onrq (c_state (n_core s))) s)
  | F_onrq st =>
      Some (at_pc a (if bool_decide (st = RUNNING \/ st = WAKING \/ c_onrq (n_core s) <> OFF)
                     then L_read Call_func else F_func None) s)
  | F_func (Some rq) => unlock_rq a rq F_unlock_pi s
  | F_func None => Some (at_pc a F_unlock_pi s)
  | F_unlock_pi => unlock_pi a Idle s
  | _ => __task_rq_lock a Call_func p s
  end.

(** A caller starts with either function; [x] chooses. *)
Definition caller (t x : Z) (s : pin) : option pin :=
  let a := Caller t in
  match n_pc s a with
  | Idle => Some (at_pc a (L_pi (if x =? 0 then Task_rq_lock else Call_func)) s)
  | L_has rq => unlock_rq a rq L_unlock_pi s
  | L_unlock_pi => unlock_pi a Idle s
  | (L_pi Task_rq_lock | L_read Task_rq_lock | L_lock Task_rq_lock _ | L_check Task_rq_lock _
    | L_drop Task_rq_lock _ | L_drop_pi | L_spin Task_rq_lock) as p => task_rq_lock a p s
  | p => task_call_func a p s
  end.

(** __schedule() on CPU [c], as far as [p] is concerned: away from [p] when it runs
    there, to [p] when it is queued there.  [x] chooses whether it is a preemption
    (0), a signal is pending (1), or neither; and whether [p] is picked again. *)
Definition schedule_on (c x : Z) (s : pin) : option pin :=
  let a := Sched c in
  let k := n_core s in
  match n_pc s a with
  | Idle =>
      if bool_decide (c_cpu k = c /\ c_curr k = true) then lock_rq a c (S_held c) s
      else if bool_decide (c_cpu k = c) then lock_rq a c (S_in c) s else None
  | S_held _ =>
      if bool_decide (c_state k = RUNNING \/ x = 0) then Some (at_pc a (S_pick c) s)
      else if x =? 1 then write a (set_state RUNNING) (S_pick c) s
      else write a (set_onrq OFF) (S_pick c) s
  | S_pick _ =>
      if bool_decide (c_onrq k = QUEUED /\ x = 0) then Some (at_pc a (S_unlock c) s)
      else write a (set_curr false) (S_finish c) s
  | S_finish _ => write a (set_oncpu false) (S_unlock c) s
  | S_unlock _ => unlock_rq a c Idle s
  | S_in _ =>
      if bool_decide (c_cpu k = c /\ c_onrq k = QUEUED /\ c_curr k = false /\ c_oncpu k = false)
      then write a (fun k => set_oncpu true (set_curr true k)) (S_unlock c) s
      else Some (at_pc a (S_unlock c) s)
  | _ => None
  end.

(** The running task changes its own state (set_current_state(), and
    try_to_wake_up() of current). *)
Definition self_step (x : Z) (s : pin) : option pin :=
  let k := n_core s in
  if bool_decide (c_curr k = true /\ c_onrq k = QUEUED /\ is_idle (n_pc s (Sched (c_cpu k))) = true)
  then write Self (set_state (if x =? 0 then RUNNING else BLOCKED)) Idle s else None.

(** move_queued_task() to CPU [x], of a task that does not run. *)
Definition move_queued_task (x : Z) (s : pin) : option pin :=
  let a := Mover in
  let k := n_core s in
  match n_pc s a with
  | Idle =>
      if bool_decide (c_onrq k = QUEUED /\ c_curr k = false /\ c_oncpu k = false)
      then lock_rq a (c_cpu k) (M_deactivate (c_cpu k) x) s else None
  | M_deactivate c n => write a (set_onrq MIGRATING) (M_set_cpu c n) s
  | M_set_cpu c n => write a (set_cpu n) (M_unlock c n) s
  | M_unlock c n => unlock_rq a c (M_lock n) s
  | M_lock n => lock_rq a n (M_activate n) s
  | M_activate n => write a (set_onrq QUEUED) (M_end n) s
  | M_end n => unlock_rq a n Idle s
  | _ => None
  end.

(** try_to_wake_up() of [p] by another task.  [x] chooses whether the state does not
    match (-1), whether a wake list is used (-2), and the CPU. *)
Definition try_to_wake_up (x : Z) (s : pin) : option pin :=
  let a := Waker in
  let k := n_core s in
  match n_pc s a with
  | Idle => lock_pi a W_match s
  | W_match => Some (at_pc a (if bool_decide (c_state k = BLOCKED /\ x <> -1) then W_onrq else W_unlock_pi) s)
  | W_onrq => Some (at_pc a (if bool_decide (c_onrq k = OFF) then W_waking else L_read Runnable) s)
  | W_runnable rq =>
      if bool_decide (c_onrq k = QUEUED) then write a (set_state RUNNING) (W_runnable_end rq true) s
      else Some (at_pc a (W_runnable_end rq false) s)
  | W_runnable_end rq ret => unlock_rq a rq (if (ret : bool) then W_unlock_pi else W_waking) s
  | W_waking => write a (set_state WAKING) W_oncpu s
  | W_oncpu =>
      if bool_decide (c_oncpu k = true) then
        if x =? -2 then write a (set_list (Some (c_cpu k))) W_unlock_pi s else None
      else Some (at_pc a W_select s)
  | W_select => write a (set_cpu x) W_queue s
  | W_queue =>
      if x =? -2 then write a (set_list (Some (c_cpu k))) W_unlock_pi s
      else lock_rq a (c_cpu k) (W_activate (c_cpu k)) s
  | W_activate c => write a (fun k => set_state RUNNING (set_onrq QUEUED k)) (W_activate_end c) s
  | W_activate_end c => unlock_rq a c W_unlock_pi s
  | W_unlock_pi => unlock_pi a Idle s
  | p => __task_rq_lock a Runnable p s
  end.

(** sched_ttwu_pending(), after p->on_cpu is cleared. *)
Definition sched_ttwu_pending (s : pin) : option pin :=
  let a := Pending in
  let k := n_core s in
  match n_pc s a, c_list k with
  | Idle, Some c => lock_rq a c (P_activate c) s
  | P_activate c, _ =>
      if bool_decide (c_oncpu k = true) then None
      else write a (fun k => set_list None (set_state RUNNING (set_onrq QUEUED (set_cpu c k)))) (P_end c) s
  | P_end c, _ => unlock_rq a c Idle s
  | _, _ => None
  end.

Definition other_step (c : Z) (s : pin) : option pin :=
  match n_pc s (Other c) with
  | Idle => lock_rq (Other c) c (O_has c) s
  | _ => unlock_rq (Other c) c Idle s
  end.

Definition act (a : actor) (x : Z) (s : pin) : option pin :=
  match a with
  | Caller t => caller t x s
  | Sched c => schedule_on c x s
  | Self => self_step x s
  | Mover => move_queued_task x s
  | Waker => try_to_wake_up x s
  | Pending => sched_ttwu_pending s
  | Other c => other_step c s
  end.

Definition pin_step (s s' : pin) : Prop := exists a x, act a x s = Some s'.
Fixpoint run_acts (es : list (actor * Z)) (s : pin) : option pin :=
  match es with
  | [] => Some s
  | (a, x) :: es => act a x s ≫= run_acts es
  end.

(** [p] sleeps on CPU [c], and nobody is in any of the functions. *)
Definition asleep (c : Z) : pin := Mk_pin (Mk_core c OFF BLOCKED false false None) None ∅ (fun _ => Idle).
End Pin.
