(* ===== verification/TaskPinProofs.v ===== *)
(** What task_rq_lock() and task_call_func() guarantee: the run queue returned is
    the task's and stays so; the task is pinned while the function is called, but
    for a task that is just being switched away from. *)
From S2P Require Import Prelude Headers TaskPin.
Import Pin.

(** ** The locks an instruction is executed under *)
Definition has_pi (p : pc) : bool :=
  match p with
  | L_read _ | L_lock _ _ | L_check _ _ | L_drop _ _ | L_drop_pi | L_has _ | L_unlock_pi
  | F_state | F_onrq _ | F_func _ | F_unlock_pi
  | W_match | W_onrq | W_runnable _ | W_runnable_end _ _ | W_waking | W_oncpu | W_select | W_queue
  | W_activate _ | W_activate_end _ | W_unlock_pi => true
  | L_spin u => bool_decide (u <> Task_rq_lock)
  | _ => false
  end.

Definition has_rq (p : pc) : option Z :=
  match p with
  | L_check _ c | L_drop _ c | L_has c | F_func (Some c) | S_held c | S_pick c | S_finish c | S_unlock c | S_in c
  | M_deactivate c _ | M_set_cpu c _ | M_unlock c _ | M_activate c | M_end c
  | W_runnable c | W_runnable_end c _ | W_activate c | W_activate_end c | P_activate c | P_end c | O_has c => Some c
  | _ => None
  end.

(** The instructions each actor executes. *)
Definition legal (a : actor) (p : pc) : Prop :=
  match p with
  | Idle => True
  | L_pi u | L_read u | L_lock u _ | L_check u _ | L_drop u _ | L_spin u =>
      match a with Caller _ => u <> Runnable | Waker => u = Runnable | _ => False end
  | L_drop_pi | L_has _ | L_unlock_pi | F_state | F_onrq _ | F_func _ | F_unlock_pi =>
      match a with Caller _ => True | _ => False end
  | S_held c | S_pick c | S_finish c | S_unlock c | S_in c => a = Sched c
  | M_deactivate _ _ | M_set_cpu _ _ | M_unlock _ _ | M_lock _ | M_activate _ | M_end _ => a = Mover
  | W_match | W_onrq | W_runnable _ | W_runnable_end _ _ | W_waking | W_oncpu | W_select | W_queue
  | W_activate _ | W_activate_end _ | W_unlock_pi => a = Waker
  | P_activate _ | P_end _ => a = Pending
  | O_has c => a = Other c
  end.

(** What is known of the task at an instruction. *)
Definition facts (p : pc) (k : core) : Prop :=
  match p with
  | L_has rq | F_func (Some rq) => c_cpu k = rq /\ c_onrq k <> MIGRATING
  | F_onrq st => st = BLOCKED -> c_state k <> WAKING
  | F_func None => c_onrq k = OFF /\ c_state k = BLOCKED
  | S_held c => c_cpu k = c /\ c_curr k = true /\ c_onrq k = QUEUED
  | S_pick c => c_cpu k = c /\ c_curr k = true
  | S_finish c => c_cpu k = c /\ c_curr k = false /\ c_oncpu k = true
  | M_deactivate c _ => c_cpu k = c /\ c_onrq k = QUEUED /\ c_curr k = false /\ c_oncpu k = false
  | M_set_cpu c _ => c_cpu k = c /\ c_onrq k = MIGRATING
  | M_unlock _ n | M_lock n | M_activate n => c_cpu k = n /\ c_onrq k = MIGRATING
  | W_onrq | L_read Runnable | L_lock Runnable _ | L_check Runnable _ | L_drop Runnable _ | L_spin Runnable =>
      c_state k <> WAKING
  | W_runnable rq => c_state k <> WAKING /\ c_cpu k = rq /\ c_onrq k <> MIGRATING
  | W_runnable_end rq ret => ret = false -> c_state k = BLOCKED /\ c_onrq k = OFF
  | W_waking => c_state k = BLOCKED /\ c_onrq k = OFF
  | W_oncpu => c_state k = WAKING /\ c_list k = None
  | W_select | W_queue => c_state k = WAKING /\ c_list k = None /\ c_oncpu k = false
  | W_activate c => c_state k = WAKING /\ c_list k = None /\ c_oncpu k = false /\ c_cpu k = c
  | P_activate c => c_list k = Some c
  | _ => True
  end.

Record core_ok (k : core) : Prop := {
  co_curr : c_curr k = true -> c_oncpu k = true;
  co_off : c_onrq k = OFF -> c_state k <> RUNNING;
  co_waking : c_state k = WAKING -> c_onrq k = OFF;
  co_list c : c_list k = Some c -> c_state k = WAKING /\ c_cpu k = c;
  co_moving : c_onrq k = MIGRATING -> c_oncpu k = false;
}.

Record actor_ok (s : pin) (a : actor) : Prop := {
  ao_legal : legal a (n_pc s a);
  ao_pi : has_pi (n_pc s a) = true -> n_pi s = Some a;
  ao_rq c : has_rq (n_pc s a) = Some c -> n_rq s !! c = Some a;
  ao_facts : facts (n_pc s a) (n_core s);
}.

Record pin_ok (s : pin) : Prop := {
  po_core : core_ok (n_core s);
  po_actor a : actor_ok s a;
  po_curr : c_curr (n_core s) = true -> c_onrq (n_core s) <> QUEUED -> n_pc s (Sched (c_cpu (n_core s))) = S_pick (c_cpu (n_core s));
}.

(** ** Frames

    A step of [a] leaves the locks of the others and what they know. *)
Definition facts_kept (s : pin) (a : actor) (k : core) : Prop :=
  forall b, b <> a -> actor_ok s b -> facts (n_pc s b) k.

Lemma pin_ok_step s a p k pi rq :
  pin_ok s ->
  (forall b, b <> a -> n_pi s = Some b -> pi = Some b) ->
  (forall b c, b <> a -> n_rq s !! c = Some b -> rq !! c = Some b) ->
  core_ok k -> facts_kept s a k ->
  legal a p -> (has_pi p = true -> pi = Some a) -> (forall c, has_rq p = Some c -> rq !! c = Some a) -> facts p k ->
  (c_curr k = true -> c_onrq k <> QUEUED ->
   (if decide (Sched (c_cpu k) = a) then p else n_pc s (Sched (c_cpu k))) = S_pick (c_cpu k)) ->
  pin_ok (at_pc a p (Mk_pin k pi rq (n_pc s))).
Proof.
  intros K Hpi Hrq Hk Hf Hl Hp Hr Hfa Hc. constructor; [done| |done]. intros b.
  destruct (decide (b = a)) as [->|Hn].
  - constructor; cbn; rewrite decide_True by done; done.
  - destruct (po_actor _ K b) as [Al Ap Ar Af] eqn:E. constructor; cbn; rewrite decide_False by done; [done| | |].
    + intros Hh. apply Hpi; [done|by apply Ap].
    + intros c Hh. apply Hrq; [done|by apply Ar].
    + by apply Hf.
Qed.

(** Steps that leave [p] alone: only a lock, or nothing, changes. *)
Lemma pin_ok_move s a p pi rq :
  pin_ok s ->
  (forall b, b <> a -> n_pi s = Some b -> pi = Some b) ->
  (forall b c, b <> a -> n_rq s !! c = Some b -> rq !! c = Some b) ->
  legal a p -> (has_pi p = true -> pi = Some a) -> (forall c, has_rq p = Some c -> rq !! c = Some a) -> facts p (n_core s) ->
  (forall c, n_pc s a = S_pick c -> c_curr (n_core s) = true -> c_onrq (n_core s) = QUEUED) ->
  pin_ok (at_pc a p (Mk_pin (n_core s) pi rq (n_pc s))).
Proof.
  intros K Hpi Hrq Hl Hp Hr Hf Hs. apply pin_ok_step; auto using po_core.
  - intros b _ Hb. apply (ao_facts _ _ Hb).
  - intros Hcu Hon. case_decide as E; [|by apply (po_curr _ K)].
    exfalso. apply Hon. eapply Hs; [|done]. rewrite <- E. by apply (po_curr _ K).
Qed.

Section Moves.
Context (s : pin) (a : actor) (p : pc) (K : pin_ok s).
Context (Hl : legal a p) (Hf : facts p (n_core s)).
Context (Hs : forall c, n_pc s a = S_pick c -> c_curr (n_core s) = true -> c_onrq (n_core s) = QUEUED).

Lemma ok_at : (has_pi p = true -> has_pi (n_pc s a) = true) ->
  (forall c, has_rq p = Some c -> has_rq (n_pc s a) = Some c) -> pin_ok (at_pc a p s).
Proof.
  intros Hp Hr. destruct s as [k pi rq pcs]. apply (pin_ok_move (Mk_pin k pi rq pcs)); auto.
  - intros Hh. apply (ao_pi _ _ (po_actor _ K a)); auto.
  - intros c Hh. apply (ao_rq _ _ (po_actor _ K a)); auto.
Qed.

Lemma ok_lock_pi s' : lock_pi a p s = Some s' -> (forall c, has_rq p = Some c -> has_rq (n_pc s a) = Some c) -> pin_ok s'.
Proof.
  unfold lock_pi. destruct (n_pi s) eqn:E; [done|]. intros [= <-] Hr. apply pin_ok_move; auto.
  - intros b _ Hb. congruence.
  - intros c Hh. apply (ao_rq _ _ (po_actor _ K a)); auto.
Qed.

Lemma ok_unlock_pi s' : unlock_pi a p s = Some s' -> has_pi (n_pc s a) = true -> has_pi p = false ->
  (forall c, has_rq p = Some c -> has_rq (n_pc s a) = Some c) -> pin_ok s'.
Proof.
  unfold unlock_pi. intros [= <-] Hh Hp Hr. apply pin_ok_move; auto.
  - intros b Hb E. rewrite (ao_pi _ _ (po_actor _ K a) Hh) in E. congruence.
  - congruence.
  - intros c Hc. apply (ao_rq _ _ (po_actor _ K a)); auto.
Qed.

Lemma ok_lock_rq c s' : lock_rq a c p s = Some s' -> (has_pi p = true -> has_pi (n_pc s a) = true) ->
  has_rq p = Some c -> pin_ok s'.
Proof.
  unfold lock_rq. destruct (n_rq s !! c) eqn:E; [done|]. intros [= <-] Hp Hr. apply pin_ok_move; auto.
  - intros b d _ Hb. rewrite lookup_insert_ne; congruence.
  - intros Hh. apply (ao_pi _ _ (po_actor _ K a)); auto.
  - intros d Hd. assert (d = c) as -> by congruence. by rewrite lookup_insert_eq.
Qed.

Lemma ok_unlock_rq c s' : unlock_rq a c p s = Some s' -> has_rq (n_pc s a) = Some c -> has_rq p = None ->
  (has_pi p = true -> has_pi (n_pc s a) = true) -> pin_ok s'.
Proof.
  unfold unlock_rq. intros [= <-] Hh Hr Hp. apply pin_ok_move; auto.
  - intros b d Hb E. rewrite lookup_delete_ne; [done|]. intros ->. rewrite (ao_rq _ _ (po_actor _ K a) _ Hh) in E. congruence.
  - intros Hc. apply (ao_pi _ _ (po_actor _ K a)); auto.
  - congruence.
Qed.
End Moves.

(** ** Steps that change where the task is *)
Lemma ok_write s a f p s' :
  pin_ok s -> write a f p s = Some s' ->
  core_ok (f (n_core s)) -> facts_kept s a (f (n_core s)) -> legal a p -> facts p (f (n_core s)) ->
  (has_pi p = true -> has_pi (n_pc s a) = true) -> (forall c, has_rq p = Some c -> has_rq (n_pc s a) = Some c) ->
  (c_curr (f (n_core s)) = true -> c_onrq (f (n_core s)) <> QUEUED ->
   (if decide (Sched (c_cpu (f (n_core s))) = a) then p else n_pc s (Sched (c_cpu (f (n_core s))))) = S_pick (c_cpu (f (n_core s)))) ->
  pin_ok s'.
Proof.
  intros K E Hk Hf Hl Hfa Hp Hr Hc. injection E as <-. apply pin_ok_step; auto.
  - intros Hh. apply (ao_pi _ _ (po_actor _ K a)); auto.
  - intros c Hh. apply (ao_rq _ _ (po_actor _ K a)); auto.
Qed.

(** What [a] knows and holds, and what it cannot share with another actor. *)
Ltac known K a Hp :=
  let Al := fresh "Al" in let Ap := fresh "Ap" in let Ar := fresh "Ar" in let Af := fresh "Af" in
  destruct (po_actor _ K a) as [Al Ap Ar Af]; rewrite Hp in Al, Ap, Ar, Af; cbn in Al, Ap, Ar, Af;
  try specialize (Ap eq_refl); try specialize (Ar _ eq_refl);
  let C1 := fresh "C1" in let C2 := fresh "C2" in let C3 := fresh "C3" in let C4 := fresh "C4" in let C5 := fresh "C5" in
  destruct (po_core _ K) as [C1 C2 C3 C4 C5]; pose proof (po_curr _ K) as CC.

(** Forward reasoning about the state of the task. *)
Ltac fwd :=
  repeat match goal with
  | H : _ /\ _ |- _ => destruct H
  | H : ?P -> ?Q, H' : ?P |- _ => specialize (H H')
  | C : forall c, c_list _ = Some c -> _, H : c_list _ = Some ?c |- _ => specialize (C c H)
  | H : ?x = ?x -> _ |- _ => specialize (H eq_refl)
  | |- _ /\ _ => split
  | |- _ -> _ => intro
  | |- ~ _ => intro
  | |- forall _, _ => intro
  end; try done; try congruence.

Ltac keep :=
  let b := fresh "b" in let Hb := fresh "Hb" in let E := fresh "E" in
  let Bl := fresh "Bl" in let Bp := fresh "Bp" in let Br := fresh "Br" in let Bf := fresh "Bf" in
  intros b Hb [Bl Bp Br Bf];
  destruct (n_pc _ b) as [|[]|[]|[] ?|[] ?|[] ?| |[]| | | | |[]| | | | | | | | | | | | | | | | | | | | | | | | | |] eqn:E;
  cbn in *; try done;
  try specialize (Bp eq_refl); try specialize (Br _ eq_refl); fwd.

(** The side conditions of the lemmas on steps, at the instruction [Hp]. *)
Ltac side Hp :=
  match goal with
  | |- core_ok _ => constructor; cbn; fwd
  | |- facts_kept _ _ _ => keep
  | |- _ => try done; rewrite ?Hp; cbn; fwd
  end.

Lemma sched_ok c x s s' : pin_ok s -> schedule_on c x s = Some s' -> pin_ok s'.
Proof.
  intros K E. unfold schedule_on in E. destruct (n_pc s (Sched c)) eqn:Hp; try done; known K (Sched c) Hp.
  - case_bool_decide as H1; [|case_bool_decide as H2; [|done]].
    + destruct H1 as [<- Hcu]. assert (Hq : c_onrq (n_core s) = QUEUED).
      { destruct (decide (c_onrq (n_core s) = QUEUED)) as [|Hn]; [done|]. rewrite (CC Hcu Hn) in Hp. done. }
      eapply ok_lock_rq; eauto; side Hp.
    + eapply ok_lock_rq; eauto; side Hp.
  - assert (c0 = c) as -> by congruence. destruct Af as (A1 & A2 & A3).
    case_bool_decide as H1; [|destruct (x =? 1)].
    + injection E as <-. apply ok_at; side Hp.
    + eapply ok_write; eauto; side Hp.
    + apply Decidable.not_or in H1 as [H1 _]. eapply ok_write; eauto; side Hp.
      rewrite decide_True by congruence. congruence.
  - assert (c0 = c) as -> by congruence. destruct Af as (A1 & A2).
    case_bool_decide as H1.
    + injection E as <-. apply ok_at; side Hp.
    + eapply ok_write; eauto; side Hp.
  - assert (c0 = c) as -> by congruence. eapply ok_write; eauto; side Hp.
  - assert (c0 = c) as -> by congruence. eapply ok_unlock_rq; eauto; side Hp.
  - assert (c0 = c) as -> by congruence. case_bool_decide as H1.
    + eapply ok_write; eauto; side Hp.
    + injection E as <-. apply ok_at; side Hp.
Qed.

Lemma self_ok x s s' : pin_ok s -> self_step x s = Some s' -> pin_ok s'.
Proof.
  intros K E. unfold self_step in E. case_bool_decide as H1; [|done]. destruct H1 as (H1 & H2 & H3).
  assert (Hi : n_pc s (Sched (c_cpu (n_core s))) = Idle) by (by destruct (n_pc s _)).
  destruct (po_core _ K) as [C1 C2 C3 C4 C5].
  eapply ok_write; eauto; try done; cbn.
  - constructor; cbn; destruct (x =? 0); fwd.
  - destruct (x =? 0); keep.
Qed.

Lemma mover_ok x s s' : pin_ok s -> move_queued_task x s = Some s' -> pin_ok s'.
Proof.
  intros K E. unfold move_queued_task in E. destruct (n_pc s Mover) eqn:Hp; try done; known K Mover Hp.
  - case_bool_decide as H1; [|done]. eapply ok_lock_rq; eauto; side Hp.
  - destruct Af as (A1 & A2 & A3 & A4). eapply ok_write; eauto; side Hp.
  - destruct Af as (A1 & A2). eapply ok_write; eauto; side Hp.
  - eapply ok_unlock_rq; eauto; side Hp.
  - eapply ok_lock_rq; eauto; side Hp.
  - destruct Af as (A1 & A2). eapply ok_write; eauto; side Hp.
  - eapply ok_unlock_rq; eauto; side Hp.
Qed.

Lemma pending_ok s s' : pin_ok s -> sched_ttwu_pending s = Some s' -> pin_ok s'.
Proof.
  intros K E. unfold sched_ttwu_pending in E. destruct (n_pc s Pending) eqn:Hp; try done; known K Pending Hp.
  - destruct (c_list (n_core s)) as [c|] eqn:Hl; [|done]. eapply ok_lock_rq; eauto; side Hp.
  - case_bool_decide as H1; [done|]. apply not_true_is_false in H1. destruct (C4 _ Af) as [A1 A2]. specialize (C3 A1).
    eapply ok_write; eauto; side Hp.
  - eapply ok_unlock_rq; eauto; side Hp.
Qed.

Lemma other_ok c s s' : pin_ok s -> other_step c s = Some s' -> pin_ok s'.
Proof.
  intros K E. unfold other_step in E.
  destruct (n_pc s (Other c)) eqn:Hp; known K (Other c) Hp; simplify_eq; try done.
  - eapply ok_lock_rq; eauto; side Hp.
  - eapply ok_unlock_rq; eauto; side Hp.
Qed.

(** The loop of __task_rq_lock() for [u], with what its user knows meanwhile. *)
Lemma __task_rq_lock_ok a u p s s' :
  pin_ok s -> n_pc s a = p -> __task_rq_lock a u p s = Some s' ->
  match p with L_read v | L_lock v _ | L_check v _ | L_drop v _ | L_spin v => v = u | _ => True end ->
  (p = L_spin u \/ (exists rq, p = L_drop u rq) -> u <> Task_rq_lock) -> pin_ok s'.
Proof.
  intros K Hp E Hu Hn. known K a Hp. destruct p; try done; cbn in E; subst u0; cbn in Al, Ap, Ar, Af.
  - injection E as <-. apply ok_at; [done|..]; destruct u; side Hp.
  - eapply ok_lock_rq; eauto; destruct u; side Hp.
  - injection E as <-. case_bool_decide as H1; apply ok_at; try done; destruct u; side Hp; destruct a; side Hp.
  - eapply ok_unlock_rq; eauto; destruct u; side Hp.
  - destruct (bool_decide (c_onrq (n_core s) = MIGRATING)); [done|]. injection E as <-. apply ok_at; [done|..]; destruct u; side Hp. by destruct Hn; auto.
Qed.

Lemma waker_ok x s s' : pin_ok s -> try_to_wake_up x s = Some s' -> pin_ok s'.
Proof.
  intros K E. unfold try_to_wake_up in E.
  destruct (n_pc s Waker) eqn:Hp; known K Waker Hp; try done;
    try (by (subst; eapply (__task_rq_lock_ok Waker Runnable); [exact K|exact Hp|exact E|reflexivity|intros _; discriminate])).
  - eapply ok_lock_pi; eauto; side Hp.
  - injection E as <-. case_bool_decide as H1; apply ok_at; side Hp.
  - injection E as <-. case_bool_decide as H1; apply ok_at; side Hp. destruct (c_state (n_core s)) eqn:?; fwd.
  - destruct Af as (A1 & A2 & A3). case_bool_decide as H1.
    + eapply ok_write; eauto; side Hp.
    + injection E as <-. apply ok_at; side Hp; destruct (c_onrq (n_core s)) eqn:?, (c_state (n_core s)) eqn:?; fwd.
  - eapply ok_unlock_rq; eauto; destruct ret; side Hp.
  - destruct Af as (A1 & A2). eapply ok_write; eauto; side Hp.
    destruct (c_list (n_core s)) as [z|]; [|done]. destruct (C4 z eq_refl). congruence.
  - case_bool_decide as H1; [destruct (x =? -2); [|done]|].
    + specialize (C3 (proj1 Af)). eapply ok_write; eauto; side Hp.
    + injection E as <-. apply not_true_is_false in H1. apply ok_at; side Hp.
  - specialize (C3 (proj1 Af)). eapply ok_write; eauto; side Hp.
  - specialize (C3 (proj1 Af)). destruct (x =? -2).
    + eapply ok_write; eauto; side Hp.
    + eapply ok_lock_rq; eauto; side Hp.
  - specialize (C3 (proj1 Af)). eapply ok_write; eauto; side Hp.
  - eapply ok_unlock_rq; eauto; side Hp.
  - eapply ok_unlock_pi; eauto; side Hp.
Qed.

Lemma caller_ok t x s s' : pin_ok s -> caller t x s = Some s' -> pin_ok s'.
Proof.
  intros K E. unfold caller in E.
  destruct (n_pc s (Caller t)) as [|[]|[]|[] ?|[] ?|[] ?| |[]| | | | |[]| | | | | | | | | | | | | | | | | | | | | | | | | |] eqn:Hp;
    known K (Caller t) Hp; try done; cbn [task_rq_lock task_call_func] in E;
    try (by (eapply (__task_rq_lock_ok (Caller t) Task_rq_lock); [exact K|exact Hp|exact E|reflexivity|intros [?|[? ?]]; discriminate]));
    try (by (eapply (__task_rq_lock_ok (Caller t) Call_func); [exact K|exact Hp|exact E|reflexivity|intros _; discriminate])).
  - injection E as <-. apply ok_at; destruct (x =? 0); side Hp.
  - eapply ok_lock_pi; eauto; side Hp.
  - eapply ok_lock_pi; eauto; side Hp.
  - eapply ok_unlock_rq; eauto; side Hp.
  - eapply ok_unlock_pi; eauto; side Hp.
  - destruct (bool_decide (c_onrq (n_core s) = MIGRATING)); [done|]. injection E as <-. apply ok_at; side Hp.
  - eapply ok_unlock_rq; eauto; side Hp.
  - eapply ok_unlock_pi; eauto; side Hp.
  - injection E as <-. apply ok_at; side Hp.
  - injection E as <-. case_bool_decide as H1; apply ok_at; side Hp.
    all: destruct (c_onrq (n_core s)) eqn:?, (c_state (n_core s)) eqn:?, s0; naive_solver.
  - eapply ok_unlock_rq; eauto; side Hp.
  - injection E as <-. apply ok_at; side Hp.
  - eapply ok_unlock_pi; eauto; side Hp.
Qed.

Lemma act_ok a x s s' : pin_ok s -> act a x s = Some s' -> pin_ok s'.
Proof.
  intros K. destruct a; cbn; intros E.
  - by eapply caller_ok.
  - by eapply sched_ok.
  - by eapply self_ok.
  - by eapply mover_ok.
  - by eapply waker_ok.
  - by eapply pending_ok.
  - by eapply other_ok.
Qed.

Lemma asleep_ok c : pin_ok (asleep c).
Proof. constructor; [by constructor| |done]. intros a. by constructor. Qed.

Lemma pin_steps_ok s s' : rtc pin_step s s' -> pin_ok s -> pin_ok s'.
Proof. induction 1 as [|x y z [a [v Hs]] _ IH]; [done|]. intros K. apply IH. by eapply act_ok. Qed.

(** ** Who may change where the task is *)
Definition where_ (k : core) := (c_cpu k, c_onrq k, c_curr k).

(** It takes p->pi_lock or the lock of the task's run queue. *)
Lemma act_where a x s s' : pin_ok s -> act a x s = Some s' ->
  where_ (n_core s') = where_ (n_core s) \/ n_pi s = Some a \/ n_rq s !! c_cpu (n_core s) = Some a.
Proof.
  intros K E. destruct (po_actor _ K a) as [Al Ap Ar Af].
  destruct a; cbn in E; unfold caller, schedule_on, self_step, move_queued_task, try_to_wake_up, sched_ttwu_pending, other_step,
    task_rq_lock, task_call_func, __task_rq_lock, lock_rq, unlock_rq, lock_pi, unlock_pi, write in E;
    repeat (case_match; cbn in Al, Ap, Ar, Af; simplify_eq/=; auto).
  all: try (destruct (co_list _ (po_core _ K) _ Af) as [_ <-]).
  all: repeat case_bool_decide; repeat case_match; simplify_eq/=; auto; fwd; subst; auto.
Qed.

(** While p->pi_lock is held and the task sleeps, nothing but the end of its last
    __schedule() happens to it. *)
Lemma act_blocked a x s s' : pin_ok s -> act a x s = Some s' -> n_pi s <> Some a ->
  c_onrq (n_core s) = OFF -> c_state (n_core s) = BLOCKED ->
  let k := n_core s in let k' := n_core s' in
  c_cpu k' = c_cpu k /\ c_onrq k' = OFF /\ c_state k' = BLOCKED /\
  (c_oncpu k = false -> c_curr k' = false /\ c_oncpu k' = false).
Proof.
  intros K E Hpi Ho Hst. destruct (po_actor _ K a) as [Al Ap Ar Af]. destruct (po_core _ K) as [C1 C2 C3 C4 C5].
  assert (Hcu : c_oncpu (n_core s) = false -> c_curr (n_core s) = false) by (destruct (c_curr (n_core s)); intuition congruence).
  destruct a; cbn in E; unfold caller, schedule_on, self_step, move_queued_task, try_to_wake_up, sched_ttwu_pending, other_step,
    task_rq_lock, task_call_func, __task_rq_lock, lock_rq, unlock_rq, lock_pi, unlock_pi, write in E;
    repeat (case_match; cbn in Al, Ap, Ar, Af; simplify_eq/=; auto).
  all: repeat case_bool_decide; repeat case_match; simplify_eq/=; auto; fwd; subst; auto.
Qed.

(** ** The properties *)

(** C7: Whenever task_rq_lock() has returned [rq], or task_call_func() calls its
    function with a run queue locked, the task is on that run queue and not being
    migrated, and no step of anybody else (schedule(), a migration, a wake-up)
    changes its CPU, its on_rq or whether it is current; when task_call_func()
    calls its function without a run-queue lock, the task is blocked and off the
    run queue, nobody else changes its CPU, its on_rq or its state, and a task
    that is no longer on a CPU stays so. *)
Theorem task_pinned c s t :
  rtc pin_step (asleep c) s ->
  (forall rq, n_pc s (Caller t) = L_has rq \/ n_pc s (Caller t) = F_func (Some rq) ->
    c_cpu (n_core s) = rq /\ c_onrq (n_core s) <> MIGRATING /\
    forall a x s', a <> Caller t -> act a x s = Some s' -> where_ (n_core s') = where_ (n_core s)) /\
  (n_pc s (Caller t) = F_func None ->
    c_onrq (n_core s) = OFF /\ c_state (n_core s) = BLOCKED /\
    forall a x s', a <> Caller t -> act a x s = Some s' ->
      c_cpu (n_core s') = c_cpu (n_core s) /\ c_onrq (n_core s') = OFF /\ c_state (n_core s') = BLOCKED /\
      (c_oncpu (n_core s) = false -> c_curr (n_core s') = false /\ c_oncpu (n_core s') = false)).
Proof.
  intros Hs. pose proof (pin_steps_ok _ _ Hs (asleep_ok c)) as K. destruct (po_actor _ K (Caller t)) as [_ Ap Ar Af].
  split.
  - intros rq Hp.
    assert (Hf : c_cpu (n_core s) = rq /\ c_onrq (n_core s) <> MIGRATING) by (by destruct Hp as [E|E]; rewrite E in Af).
    assert (Hpi : n_pi s = Some (Caller t)) by (destruct Hp as [E|E]; rewrite E in Ap; by apply Ap).
    assert (Hrq : n_rq s !! rq = Some (Caller t)) by (destruct Hp as [E|E]; rewrite E in Ar; by apply Ar).
    destruct Hf as [Hc Hm]. split; [done|split; [done|]]. intros a x s' Hn E.
    destruct (act_where a x s s' K E) as [|[Ha|Ha]]; [done|congruence|]. rewrite Hc in Ha. congruence.
  - intros Hp. rewrite Hp in Ap, Af. cbn in Ap, Af. specialize (Ap eq_refl). destruct Af as [Ho Hst].
    split; [done|split; [done|]]. intros a x s' Hn E. apply (act_blocked a x s s' K E); congruence.
Qed.

(** ** Examples on two CPUs *)
Module PinDemo.
Lemma run_acts_steps es s s' : run_acts es s = Some s' -> rtc pin_step s s'.
Proof.
  revert s. induction es as [|[a x] es IH]; intros s E; cbn in E; [by simplify_eq|].
  apply bind_Some in E as (y & Ey & E). eapply rtc_l; [by exists a, x|by apply IH].
Qed.

(** The task sleeps on CPU 0, is woken on CPU 1, runs there, and goes to sleep; its
    __schedule() has just dequeued it. *)
Definition falling_asleep : list (actor * Z) :=
  [(Waker, 0); (Waker, 0); (Waker, 0); (Waker, 0); (Waker, 0); (Waker, 1); (Waker, 0); (Waker, 0); (Waker, 0); (Waker, 0);
   (Sched 1, 0); (Sched 1, 0); (Sched 1, 0); (Self, 1); (Sched 1, 0); (Sched 1, 2)].
(** task_call_func() gets as far as calling its function. *)
Definition calling : list (actor * Z) :=
  falling_asleep ++ [(Caller 7, 1); (Caller 7, 0); (Caller 7, 0); (Caller 7, 0)].
(** task_rq_lock() meets a migration, and succeeds when it is over. *)
Definition locking : list (actor * Z) :=
  [(Waker, 0); (Waker, 0); (Waker, 0); (Waker, 0); (Waker, 0); (Waker, 0); (Waker, 0); (Waker, 0); (Waker, 0); (Waker, 0);
   (Caller 7, 0); (Caller 7, 0); (Caller 7, 0); (Mover, 1); (Mover, 0); (Mover, 0); (Mover, 0);
   (Caller 7, 0); (Caller 7, 0); (Caller 7, 0); (Caller 7, 0); (Mover, 0); (Mover, 0); (Mover, 0);
   (Caller 7, 0); (Caller 7, 0); (Caller 7, 0); (Caller 7, 0); (Caller 7, 0)].

Definition after (es : list (actor * Z)) : pin := default (asleep 0) (run_acts es (asleep 0)).
Definition runs {A} (o : option A) : bool := match o with Some _ => true | None => false end.
Lemma runs_some {A} (o : option A) d : runs o = true -> o = Some (default d o).
Proof. by destruct o. Qed.
Lemma reach_acts es : runs (run_acts es (asleep 0)) = true -> rtc pin_step (asleep 0) (after es).
Proof. intros Es. apply (run_acts_steps es). by apply runs_some. Qed.

Lemma task_pinned_witness :
  n_pc (after locking) (Caller 7) = L_has 1 /\ c_cpu (n_core (after locking)) = 1 /\
  n_pc (after calling) (Caller 7) = F_func None /\ c_onrq (n_core (after calling)) = OFF.
Proof.
  split; [vm_compute; reflexivity|split; [|split; [vm_compute; reflexivity|]]].
  - apply (task_pinned 0 (after locking) 7 (reach_acts locking eq_refl)). left. vm_compute. reflexivity.
  - apply (task_pinned 0 (after calling) 7 (reach_acts calling eq_refl)). vm_compute. reflexivity.
Defined.

(** C37: task_call_func() does not fix whether the task is current: it may call its
    function, without a run-queue lock, while __schedule() has taken the task off
    the run queue but not yet switched away from it; task_curr(p) is then true
    when the function starts and changes while it runs. *)
Theorem task_call_func_races :
  exists s s', rtc pin_step (asleep 0) s /\ n_pc s (Caller 7) = F_func None /\ c_curr (n_core s) = true /\
    act (Sched 1) 0 s = Some s' /\ n_pc s' (Caller 7) = F_func None /\ c_curr (n_core s') = false.
Proof.
  exists (after calling), (default (after calling) (act (Sched 1) 0 (after calling))).
  split; [apply reach_acts; vm_compute; reflexivity|].
  split; [vm_compute; reflexivity|split; [vm_compute; reflexivity|]].
  split; [apply runs_some; vm_compute; reflexivity|split; vm_compute; reflexivity].
Qed.
End PinDemo.
