(* ===== verification/Boot.v ===== *)
(** Starting the scheduler (core.c): sched_init() sets up the root task group, the
    run queues and the boot task, init_idle() makes a task the idle task of a
    CPU, and sched_init_smp() moves the boot task to a housekeeping CPU.

    What the classes, the topology code and the memory controller initialise is
    a parameter.  The checks of the linker's order of the classes and the
    allocation of per-CPU masks have no counterpart. *)
From S2P Require Import Prelude Headers Proc Kernel Extern RqClock Uclamp Prio Mm Affinity.
From S2P Require Import Migrate.
From S2P Require Import ForkExtern SchedFork Wakeup Schedule CoreSched Tick Hotplug.

Class BootExtern := {
  sched_clock : K Z;
  jiffies : Z;
  LOAD_FREQ : Z;
  ROOT_TASK_GROUP_LOAD : Z;
  sysctl_sched_migration_cost : Z;
  HK_FLAG_DOMAIN : Z;
  (** kernel/sched/fair.c, rt.c, deadline.c *)
  init_cfs_bandwidth : Z -> K unit;
  init_class_rqs : Z -> K unit;        (* init_cfs_rq(), init_rt_rq(), init_dl_rq() *)
  init_tg_cfs_entry : Z -> Z -> K unit;
  (** kernel/sched/topology.c, autogroup.c *)
  rq_attach_root : Z -> K unit;
  autogroup_init : Z -> K unit;
  (** arch/x86/kernel/cpu/common.c: run by the idle task of a CPU that starts *)
  cpu_init : Z -> K unit;
}.

Section Boot.
Context {H : Headers} {X : Extern} {FH : ForkHeaders} {F : ForkExtern} {Mg : MigrateExtern} {CX : CoreExtern}.
Context {TX : TickExtern} {HX : HotplugExtern} {BX : BootExtern}.

(** Make [idle] the idle task of [cpu]. *)
Definition init_idle (idle cpu : Z) : K unit :=
  __sched_fork 0 idle ;;
  set! idle ⇝ ts_state := TASK_RUNNING ;;
  now ← sched_clock;
  upd! idle ⇝ ts_se := (fun s => s <| se_exec_start := now |>) ;;
  upd! idle ⇝ ts_flags := (fun f => Z.lor f (Z.lor PF_IDLE (Z.lor PF_KTHREAD PF_NO_SETAFFINITY))) ;;
  emit "kthread_set_per_cpu" [idle; cpu] ;;
  set_cpus_allowed_common idle (cpumask_of cpu) 0 ;;
  upd_obj idle (task_set_cpu cpu) ;;
  set! cpu ⇝ rq_idle := idle ;;
  set! cpu ⇝ rq_curr := idle ;;
  set! idle ⇝ ts_on_rq := TASK_ON_RQ_QUEUED ;;
  set! idle ⇝ ts_on_cpu := 1 ;;
  emit "init_idle_preempt_count" [idle; cpu] ;;
  set! idle ⇝ ts_class := idle_sched_class ;;
  emit "ftrace_graph_init_idle_task" [idle; cpu] ;;
  emit "vtime_init_idle" [idle; cpu].

(** The root task group. *)
Definition sched_init_root : K unit :=
  root ← gets m_root_task_group;
  set! root ⇝ tg_shares := ROOT_TASK_GROUP_LOAD ;;
  init_cfs_bandwidth root ;;
  emit "init_rt_bandwidth" [] ;;
  emit "init_dl_bandwidth" [] ;;
  emit "init_defrootdomain" [] ;;
  l ← gets m_task_groups;
  setg m_task_groups (root :: l) ;;
  set! root ⇝ tg_children := [].

(** The part of the run queue for core scheduling. *)
Definition sched_init_core_rq (i : Z) : K unit :=
  set! i ⇝ cr_core := i ;;
  set! i ⇝ cr_pick := NULL ;;
  set! i ⇝ cr_enabled := false ;;
  set! i ⇝ cr_tree := [] ;;
  set! i ⇝ cr_fi_count := 0 ;;
  set! i ⇝ cr_fi_occupation := 0 ;;
  set! i ⇝ cr_fi_start := 0 ;;
  set! i ⇝ cr_cookie := 0.

(** The fields of a run queue for load balancing, up to its root domain. *)
Definition sched_init_smp_rq (i : Z) : K unit :=
  set! i ⇝ cr_rd := false ;;
  set! i ⇝ rq_balance_callback := [balance_push_cb] ;;
  set! i ⇝ rq_cpu := i ;;
  set! i ⇝ cr_online := false ;;
  set! i ⇝ rq_idle_stamp := 0 ;;
  set! i ⇝ rq_avg_idle := 2 * sysctl_sched_migration_cost ;;
  set! i ⇝ rq_wake_stamp := jiffies ;;
  avg ← i ⇝ rq_avg_idle;
  set! i ⇝ rq_wake_avg_idle := avg ;;
  set! i ⇝ rq_max_idle_balance_cost := sysctl_sched_migration_cost ;;
  rq_attach_root i ;;
  set! i ⇝ tk_nohz_flags := 0.

Definition hrtick_rq_init (i : Z) : K unit := emit "hrtimer_init" [i].

(** One round of the loop over the possible CPUs. *)
Definition sched_init_rq (i : Z) : K unit :=
  root ← gets m_root_task_group;
  set! i ⇝ rq_nr_running := 0 ;;
  emit "calc_load_active" [i; 0] ;;
  set! i ⇝ cr_calc_load_update := jiffies + LOAD_FREQ ;;
  init_class_rqs i ;;
  init_tg_cfs_entry root i ;;
  sched_init_smp_rq i ;;
  hrtick_rq_init i ;;
  set! i ⇝ rq_nr_iowait := 0 ;;
  sched_init_core_rq i.

(** [init_task] is the boot task, current on the boot CPU. *)
Definition sched_init (init_task : Z) : K unit :=
  sched_init_root ;;
  autogroup_init init_task ;;
  possible ← gets m_cpu_possible;
  mapM_ sched_init_rq (for_each_cpu possible) ;;
  set_load_weight init_task false ;;
  init_mm ← gets m_init_mm;
  mmgrab init_mm ;;
  current ← gets m_current;
  emit "enter_lazy_tlb" [init_mm; current] ;;
  emit "set_kthread_struct" [current] ;;
  cpu ← gets m_this_cpu;
  init_idle current cpu ;;
  emit "idle_thread_set_boot_cpu" [] ;;
  balance_push_set cpu false ;;
  emit "init_sched_fair_class" [] ;;
  emit "psi_init" [] ;;
  init_uclamp init_task ;;
  emit "preempt_dynamic_init" [] ;;
  emit "scheduler_running" [1].

(** The other CPUs get their idle tasks (kernel/smpboot.c) and start. *)
Definition boot (init_task : Z) (idles : list (Z * Z)) : K unit :=
  sched_init init_task ;;
  mapM_ (fun x => init_idle x.1 x.2 ;; cpu_init x.1) idles.

(** [false]: the boot task cannot be moved, BUG(). *)
Definition sched_init_smp : K bool :=
  emit "sched_init_numa" [] ;;
  emit "sched_init_domains" [] ;;
  current ← gets m_current;
  ret ← set_cpus_allowed_ptr current (mask_at (housekeeping_cpumask HK_FLAG_DOMAIN));
  match ret with
  | affine_done (Err _) => mret false
  | _ =>
      upd! current ⇝ ts_flags := (fun f => Z.ldiff f PF_NO_SETAFFINITY) ;;
      emit "sched_init_granularity" [] ;;
      emit "init_sched_rt_class" [] ;;
      emit "init_sched_dl_class" [] ;;
      mret true
  end.

Definition migration_init : K Z :=
  cpu ← gets m_this_cpu;
  sched_cpu_starting cpu ;;
  mret 0.
End Boot.
