(* ===== verification/BootProofs.v ===== *)
(** Starting the scheduler establishes the well-formedness of its objects, which
    every operation of core.c then preserves. *)
From S2P Require Import Prelude Headers Proc Kernel Extern RqClock Uclamp UclampProofs Prio.
From S2P Require Import SchedOK.
From S2P Require Import Mm Affinity AffinityProofs Migrate ForkExtern SchedFork Wakeup.
From S2P Require Import Schedule LazyMm ScheduleProofs MyPriority CoreSched Tick Hotplug.
From S2P Require Import Boot.

(** ** The part of the machine that is set up *)
Definition vrq : Type := Z * Z * Z * per_clamp uclamp_rq * Z.
Definition vtask : Type := Z * Z * per_clamp uclamp_se * per_clamp uclamp_se * sched_class * Z * Z.
Definition btask (t : task_struct) : vtask := (task_okp t, ts_static_prio t, ts_policy t).
Definition brq (q : rq) : vrq := rq_okp q.

Record bview : Type := Mk_bview {
  bv_tasks : gmap Z vtask;
  bv_rqs : gmap Z vrq;
  bv_tgs : gmap Z (per_clamp uclamp_se);
  bv_this : Z; bv_current : Z; bv_root : Z; bv_init_mm : Z;
  bv_possible : gset Z;
  bv_default : per_clamp uclamp_se;
  bv_core : gset Z; bv_tick : gset Z; bv_mms : gset Z;
}.

Definition bproj (m : machine) : bview :=
  Mk_bview (btask <$> m_tasks m) (brq <$> m_rqs m) (tg_uclamp <$> m_tgs m)
    (m_this_cpu m) (m_current m) (m_root_task_group m) (m_init_mm m) (m_cpu_possible m) (m_uclamp_default m)
    (dom (sm_rqs (m_smt m))) (dom (ti_cpus (m_tick m))) (dom (m_mms m)).

(** A call that returns and changes nothing of it. *)
Definition quiet_boot {A} (c : K A) (m : machine) : Prop := wp c (fun _ m' => bproj m' = bproj m) m.

(** What stays as it is but for the steps that take a reference on [init_mm]. *)
Definition boot_task (t : task_struct) := (task_mmp t, ts_my_fixed_priority t).
Abbreviation boot_frame := (frame boot_task rq_prev_mm globals_mmp).

Class BootExternOK {H : Headers} (BX : BootExtern) : Prop := {
  (** An idle task borrows the address space of the kernel, and counts it. *)
  cpu_init_ok p t x m : m_tasks m !! p = Some t -> ts_mm t = NULL -> m_mms m !! m_init_mm m = Some x ->
    exists l, cpu_init p m = Ret tt (m <| m_tasks := <[p := t <| ts_active_mm := m_init_mm m |>]> (m_tasks m) |>
      <| m_mms := <[m_init_mm m := x <| mm_count := mm_count x + 1 |>]> (m_mms m) |> <| m_log := l |>);
  sched_clock_mm : preserves boot_frame sched_clock;
  init_cfs_bandwidth_mm g : preserves boot_frame (init_cfs_bandwidth g);
  init_class_rqs_mm c : preserves boot_frame (init_class_rqs c);
  init_tg_cfs_entry_mm g c : preserves boot_frame (init_tg_cfs_entry g c);
  rq_attach_root_mm c : preserves boot_frame (rq_attach_root c);
  autogroup_init_mm p : preserves boot_frame (autogroup_init p);
  sched_clock_boot m : quiet_boot sched_clock m;
  init_cfs_bandwidth_boot g m : quiet_boot (init_cfs_bandwidth g) m;
  init_class_rqs_boot c m : quiet_boot (init_class_rqs c) m;
  init_tg_cfs_entry_boot g c m : quiet_boot (init_tg_cfs_entry g c) m;
  rq_attach_root_boot c m : quiet_boot (rq_attach_root c) m;
  autogroup_init_boot p m : quiet_boot (autogroup_init p) m;
}.

Section Quiet.
Context {H : Headers}.

Lemma fmap_quiet {A B} (f : A -> B) (m : gmap Z A) i a b : m !! i = Some a -> f b = f a -> f <$> <[i := b]> m = f <$> m.
Proof.
  intros Hi E. rewrite fmap_insert, E. apply insert_id. by rewrite lookup_fmap, Hi.
Qed.

Lemma dom_quiet {A} (m : gmap Z A) i a b : m !! i = Some a -> dom (<[i := b]> m) = dom m.
Proof. intros Hi. rewrite dom_insert_L. apply elem_of_dom_2 in Hi. set_solver. Qed.

Lemma alter_alter {A} (f g h : A -> A) i (m : gmap Z A) : (forall x, f (g x) = h x) -> alter f i (alter g i m) = alter h i m.
Proof.
  intros E. apply map_eq. intros k. destruct (decide (k = i)) as [->|]; [|by rewrite !lookup_alter_ne].
  rewrite !lookup_alter_eq. destruct (m !! i); cbn; by rewrite ?E.
Qed.

Lemma quiet_emit n a m : quiet_boot (emit n a) m.
Proof. done. Qed.

Lemma quiet_task p g m : is_Some (bv_tasks (bproj m) !! p) -> (forall t, btask (g t) = btask t) ->
  quiet_boot (upd_obj (R := task_struct) p g) m.
Proof.
  cbn. rewrite lookup_fmap, fmap_is_Some. intros [t Ht] Hg. apply wp_upd_obj. exists t. split; [done|].
  unfold bproj; cbn. by rewrite (fmap_quiet _ _ _ t).
Qed.

Lemma quiet_rq c g m : is_Some (bv_rqs (bproj m) !! c) -> (forall q, brq (g q) = brq q) ->
  quiet_boot (upd_obj (R := rq) c g) m.
Proof.
  cbn. rewrite lookup_fmap, fmap_is_Some. intros [q Hq] Hg. apply wp_upd_obj. exists q. split; [done|].
  unfold bproj; cbn. by rewrite (fmap_quiet _ _ _ q).
Qed.

Lemma quiet_tg c g m : is_Some (bv_tgs (bproj m) !! c) -> (forall q, tg_uclamp (g q) = tg_uclamp q) ->
  quiet_boot (upd_obj (R := task_group) c g) m.
Proof.
  cbn. rewrite lookup_fmap, fmap_is_Some. intros [q Hq] Hg. apply wp_upd_obj. exists q. split; [done|].
  unfold bproj; cbn. by rewrite (fmap_quiet _ _ _ q).
Qed.

Lemma quiet_core c g m : c ∈ bv_core (bproj m) -> quiet_boot (upd_obj (R := core_rq) c g) m.
Proof.
  cbn. rewrite elem_of_dom. intros [q Hq]. apply wp_upd_obj. exists q. split; [done|].
  unfold bproj; cbn. by rewrite (dom_quiet _ _ q).
Qed.

Lemma quiet_tick c g m : c ∈ bv_tick (bproj m) -> quiet_boot (upd_obj (R := tick_rq) c g) m.
Proof.
  cbn. rewrite elem_of_dom. intros [q Hq]. apply wp_upd_obj. exists q. split; [done|].
  unfold bproj; cbn. by rewrite (dom_quiet _ _ q).
Qed.

Lemma quiet_mm c g m : c ∈ bv_mms (bproj m) -> quiet_boot (upd_obj (R := mm_struct) c g) m.
Proof.
  cbn. rewrite elem_of_dom. intros [q Hq]. apply wp_upd_obj. exists q. split; [done|].
  unfold bproj; cbn. by rewrite (dom_quiet _ _ q).
Qed.

(** Going past a call that changes nothing. *)
Lemma wp_quiet_boot {A B} (c : K A) (k : A -> K B) Q m V :
  bproj m = V -> quiet_boot c m -> (forall a m', bproj m' = V -> wp (k a) Q m') -> wp (c ≫= k) Q m.
Proof.
  intros E Hc Hk. apply wp_bind. eapply wp_mono; [exact Hc|]. cbn. intros a m' E'. apply Hk. by rewrite E'.
Qed.
Lemma wp_quiet_end {A} (c : K A) (Q : A -> machine -> Prop) m V :
  bproj m = V -> quiet_boot c m -> (forall a m', bproj m' = V -> Q a m') -> wp c Q m.
Proof. intros E Hc HQ. eapply wp_mono; [exact Hc|]. cbn. intros a m' E'. apply HQ. by rewrite E'. Qed.
End Quiet.

(** ** What holds while the scheduler starts

    The run queues of [cp] know their CPU; [ids] are the idle tasks so far. *)
Definition vr_cpu (r : vrq) : Z := r.1.1.1.1.
Definition vr_curr (r : vrq) : Z := r.1.1.1.2.
Definition vr_idle (r : vrq) : Z := r.1.1.2.
Definition vr_uclamp (r : vrq) := r.1.2.
Definition vr_flags (r : vrq) : Z := r.2.
Definition vt_cpu (t : vtask) : Z := t.1.1.1.1.1.1.
Definition vt_tg (t : vtask) : Z := t.1.1.1.1.1.2.
Definition vt_uclamp (t : vtask) := t.1.1.1.1.2.
Definition vt_req (t : vtask) := t.1.1.1.2.
Definition vt_prio (t : vtask) : Z := t.1.2.

Record bok {H : Headers} (cp : gset Z) (ids : gmap Z Z) (V : bview) : Prop := Mk_bok {
  k_null : bv_tasks V !! NULL = None;
  k_rqs c : is_Some (bv_rqs V !! c) <-> c ∈ bv_possible V;
  k_core : bv_possible V ⊆ bv_core V;
  k_tick : bv_possible V ⊆ bv_tick V;
  k_mm : bv_init_mm V ∈ bv_mms V;
  k_this : bv_this V ∈ bv_possible V;
  k_root : is_Some (bv_tgs V !! bv_root V);
  k_cpus c r : c ∈ cp -> bv_rqs V !! c = Some r -> vr_cpu r = c;
  k_ids c p : ids !! c = Some p -> exists r t, bv_rqs V !! c = Some r /\ vr_curr r = p /\ vr_idle r = p /\
    bv_tasks V !! p = Some t /\ vt_cpu t = c;
  k_tasks p t : bv_tasks V !! p = Some t -> vt_cpu t ∈ bv_possible V /\ is_Some (bv_tgs V !! vt_tg t) /\
    forall id, uc_active (pc_get id (vt_uclamp t)) = false /\ wf_se (pc_get id (vt_req t));
  k_tgs a g id : bv_tgs V !! a = Some g -> wf_se (pc_get id g);
  k_default id : wf_se (pc_get id (bv_default V));
}.

Definition set_rqs (f : gmap Z vrq -> gmap Z vrq) (V : bview) : bview :=
  Mk_bview (bv_tasks V) (f (bv_rqs V)) (bv_tgs V) (bv_this V) (bv_current V) (bv_root V) (bv_init_mm V)
    (bv_possible V) (bv_default V) (bv_core V) (bv_tick V) (bv_mms V).
Definition set_tasks (f : gmap Z vtask -> gmap Z vtask) (V : bview) : bview :=
  Mk_bview (f (bv_tasks V)) (bv_rqs V) (bv_tgs V) (bv_this V) (bv_current V) (bv_root V) (bv_init_mm V)
    (bv_possible V) (bv_default V) (bv_core V) (bv_tick V) (bv_mms V).

Definition with_cpu (i : Z) (r : vrq) : vrq := let '(_, a, b, u, f) := r in (i, a, b, u, f).
Definition with_idle (p : Z) (r : vrq) : vrq := let '(c, a, b, u, f) := r in (c, p, p, u, f).
Definition as_idle (c : Z) (t : vtask) : vtask := let '(_, g, u, q, _, s, o) := t in (c, g, u, q, idle_sched_class, s, o).

Section Stages.
Context {H : Headers}.

Lemma bok_set_cpu cp ids V i : bok cp ids V -> bok ({[i]} ∪ cp) ids (set_rqs (alter (with_cpu i) i) V).
Proof.
  intros [K1 K2 K3 K4 K5 K6 K7 K8 K9 K10 K11 K12]. constructor; cbn; auto.
  - intros c. rewrite lookup_alter_is_Some. apply K2.
  - intros c r Hc. destruct (decide (c = i)) as [->|Hn].
    + rewrite lookup_alter_eq. intros (r0 & _ & ->)%fmap_Some. by destruct r0 as [[[[] ?] ?] ?].
    + rewrite lookup_alter_ne by done. apply K8. set_solver.
  - intros c p Hc. destruct (K9 c p Hc) as (r & t & Hr & E1 & E2 & Ht). destruct (decide (c = i)) as [->|Hn].
    + exists (with_cpu i r), t. rewrite lookup_alter_eq, Hr. destruct r as [[[[] ?] ?] ?]. done.
    + exists r, t. by rewrite lookup_alter_ne.
Qed.

Lemma bok_as_idle cp ids V p c :
  bok cp ids V -> c ∈ bv_possible V -> is_Some (bv_tasks V !! p) -> (forall c', ids !! c' = Some p -> c' = c) ->
  bok cp (<[c := p]> ids) (set_tasks (alter (as_idle c) p) (set_rqs (alter (with_idle p) c) V)).
Proof.
  intros [K1 K2 K3 K4 K5 K6 K7 K8 K9 K10 K11 K12] Hc [t Ht] Hu. constructor; cbn; auto.
  - rewrite lookup_alter_None. done.
  - intros a. rewrite lookup_alter_is_Some. apply K2.
  - intros a r Ha. destruct (decide (a = c)) as [->|Hn]; [|by rewrite lookup_alter_ne; [apply K8|]].
    rewrite lookup_alter_eq. intros (r0 & Hr0 & ->)%fmap_Some. specialize (K8 c r0 Ha Hr0). by destruct r0 as [[[[] ?] ?] ?].
  - intros a q. destruct (decide (a = c)) as [->|Hn].
    + rewrite lookup_insert_eq. intros [= <-]. destruct (proj2 (K2 c) Hc) as [r Hr].
      exists (with_idle p r), (as_idle c t). rewrite !lookup_alter_eq, Hr, Ht.
      destruct r as [[[[] ?] ?] ?], t as [[[[[[] ?] ?] ?] ?] ?]. done.
    + rewrite lookup_insert_ne by done. intros Ha. destruct (K9 a q Ha) as (r & t' & Hr & E1 & E2 & Ht' & Ec).
      exists r, t'. rewrite (lookup_alter_ne _ _ c a) by done. rewrite (lookup_alter_ne _ _ p q); [done|].
      intros ->. apply Hn, Hu, Ha.
  - intros q t'. destruct (decide (q = p)) as [->|Hn]; [|rewrite lookup_alter_ne by done; apply K10].
    rewrite lookup_alter_eq, Ht. intros [= <-]. specialize (K10 p t Ht). destruct t as [[[[[[] ?] ?] ?] ?] ?]. cbn in *.
    by destruct K10.
Qed.
End Stages.

(** ** The functions *)
Section Functions.
Context {H : Headers} {X : Extern} {FH : ForkHeaders} {F : ForkExtern} {Mg : MigrateExtern} {CX : CoreExtern}.
Context {TX : TickExtern} {HX : HotplugExtern} {BX : BootExtern}.
Context {HOK : HeadersOK H} {XOK : ExternOK X} {BOK : BootExternOK BX}.

(** [quiet] disposes of one instruction that changes nothing; the context has
    the memberships of the objects it works on. *)
Ltac quiet_call :=
  first
  [ apply quiet_emit
  | apply sched_clock_boot | apply init_cfs_bandwidth_boot | apply init_class_rqs_boot | apply init_tg_cfs_entry_boot
  | apply rq_attach_root_boot | apply autogroup_init_boot
  | match goal with E : bproj ?m = _ |- quiet_boot _ ?m =>
      first [ apply quiet_rq; [rewrite E; cbn; assumption | reflexivity]
            | apply quiet_core; rewrite E; cbn; assumption
            | apply quiet_tick; rewrite E; cbn; assumption
            | apply quiet_mm; rewrite E; cbn; assumption
            | apply quiet_tg; [rewrite E; cbn; assumption | reflexivity]
            | apply quiet_task; [rewrite E; cbn; assumption | reflexivity] ] end ].
Ltac quiet :=
  match goal with E : bproj ?m = ?V |- wp (_ ≫= _) _ ?m =>
    eapply (wp_quiet_boot _ _ _ m V E); [quiet_call | clear E; let m' := fresh "n" in intros ? m' E; cbv beta] end.
Ltac quiet_end :=
  match goal with E : bproj ?m = ?V |- wp _ _ ?m =>
    eapply (wp_quiet_end _ _ m V E); [quiet_call | clear E; let m' := fresh "n" in intros ? m' E; cbv beta] end.

Lemma wp_rd_rq {A} c (f : rq -> A) m (Q : A -> machine -> Prop) :
  is_Some (bv_rqs (bproj m) !! c) -> (forall a, Q a m) -> wp (c ⇝ f) Q m.
Proof. cbn. rewrite lookup_fmap, fmap_is_Some. intros [q Hq] HQ. apply wp_rd. eauto. Qed.

(** The CPU of a run queue. *)
Lemma wp_set_cpu i m (Q : unit -> machine -> Prop) : is_Some (bv_rqs (bproj m) !! i) ->
  (forall m', bproj m' = set_rqs (alter (with_cpu i) i) (bproj m) -> Q tt m') -> wp (set! i ⇝ rq_cpu := i) Q m.
Proof.
  cbn. rewrite lookup_fmap, fmap_is_Some. intros [q Hq] HQ. apply wp_wr. exists q. split; [done|]. apply HQ.
  unfold bproj, set_rqs; cbn. f_equal. rewrite fmap_insert. apply map_eq. intros c.
  destruct (decide (c = i)) as [->|]; [rewrite lookup_insert_eq, lookup_alter_eq, lookup_fmap, Hq; done|].
  by rewrite lookup_insert_ne, lookup_alter_ne.
Qed.

Lemma wp_sched_init_core_rq i m V : bproj m = V -> i ∈ bv_core V ->
  wp (sched_init_core_rq i) (fun _ m' => bproj m' = V) m.
Proof. intros E Hc. unfold sched_init_core_rq. repeat quiet. by quiet_end. Qed.

Lemma wp_sched_init_smp_rq i m V :
  bproj m = V -> is_Some (bv_rqs V !! i) -> i ∈ bv_core V -> i ∈ bv_tick V ->
  wp (sched_init_smp_rq i) (fun _ m' => bproj m' = set_rqs (alter (with_cpu i) i) V) m.
Proof.
  intros E Hr Hc Ht. unfold sched_init_smp_rq. quiet. quiet.
  apply wp_bind, wp_set_cpu; [by rewrite E|]. intros m2 E2. rewrite E in E2. clear E. rename E2 into E.
  assert (Hr' : is_Some (alter (with_cpu i) i (bv_rqs V) !! i)) by by rewrite lookup_alter_is_Some.
  quiet. quiet. quiet. quiet.
  apply wp_bind, wp_rd_rq; [by rewrite E|]. intros avg. repeat quiet. by quiet_end.
Qed.

Lemma wp_sched_init_rq i m V :
  bproj m = V -> is_Some (bv_rqs V !! i) -> i ∈ bv_core V -> i ∈ bv_tick V ->
  wp (sched_init_rq i) (fun _ m' => bproj m' = set_rqs (alter (with_cpu i) i) V) m.
Proof.
  intros E Hr Hc Ht. unfold sched_init_rq. apply wp_bind, wp_gets. repeat quiet.
  apply wp_bind. eapply wp_mono; [by apply wp_sched_init_smp_rq|]. intros [] m2 E2. clear E. rename E2 into E. cbn in E.
  assert (Hr' : is_Some (alter (with_cpu i) i (bv_rqs V) !! i)) by by rewrite lookup_alter_is_Some.
  unfold hrtick_rq_init. repeat quiet. by apply wp_sched_init_core_rq.
Qed.

(** The loop over the possible CPUs. *)
Lemma wp_init_rqs l cp ids V m : bok cp ids V -> bproj m = V -> (forall c, c ∈ l -> c ∈ bv_possible V) ->
  wp (mapM_ sched_init_rq l) (fun _ m' => exists V', bproj m' = V' /\ bok (list_to_set l ∪ cp) ids V' /\
    bv_possible V' = bv_possible V /\ bv_this V' = bv_this V /\ bv_current V' = bv_current V /\ bv_root V' = bv_root V /\
    bv_init_mm V' = bv_init_mm V /\ bv_tasks V' = bv_tasks V) m.
Proof.
  revert cp V m. induction l as [|i l IH]; intros cp V m K E Hl; cbn [mapM_].
  { apply wp_ret. exists V. split; [done|]. split; [|done]. by rewrite list_to_set_nil, (left_id_L ∅ (∪)). }
  assert (Hi : i ∈ bv_possible V) by (apply Hl; set_solver).
  apply wp_bind. eapply wp_mono;
    [apply (wp_sched_init_rq i m V E); [by apply (k_rqs _ _ _ K)|by apply (k_core _ _ _ K)|by apply (k_tick _ _ _ K)]|].
  cbv beta. intros [] m' E'. eapply wp_mono; [apply (IH ({[i]} ∪ cp) _ m' (bok_set_cpu _ _ _ i K) E')|].
  { intros c Hc. cbn. apply Hl. set_solver. }
  cbv beta. intros [] m2 (V' & E2 & K2 & R). exists V'. split; [done|]. split; [|done].
  assert (Es : (list_to_set (i :: l) ∪ cp : gset Z) = list_to_set l ∪ ({[i]} ∪ cp)) by set_solver.
  rewrite Es. exact K2.
Qed.

(** Writes that matter. *)
Lemma wp_task_view p (g : task_struct -> task_struct) (f : vtask -> vtask) m (Q : unit -> machine -> Prop) :
  is_Some (bv_tasks (bproj m) !! p) -> (forall t, btask (g t) = f (btask t)) ->
  (forall m', bproj m' = set_tasks (alter f p) (bproj m) -> Q tt m') -> wp (upd_obj p g) Q m.
Proof.
  cbn. rewrite lookup_fmap, fmap_is_Some. intros [t Ht] Hg HQ. apply wp_upd_obj. exists t. split; [done|]. apply HQ.
  unfold bproj, set_tasks; cbn. f_equal. rewrite fmap_insert. apply map_eq. intros c.
  destruct (decide (c = p)) as [->|]; [rewrite lookup_insert_eq, lookup_alter_eq, lookup_fmap, Ht, Hg; done|].
  by rewrite lookup_insert_ne, lookup_alter_ne.
Qed.

Lemma wp_rq_view c (g : rq -> rq) (f : vrq -> vrq) m (Q : unit -> machine -> Prop) :
  is_Some (bv_rqs (bproj m) !! c) -> (forall t, brq (g t) = f (brq t)) ->
  (forall m', bproj m' = set_rqs (alter f c) (bproj m) -> Q tt m') -> wp (upd_obj c g) Q m.
Proof.
  cbn. rewrite lookup_fmap, fmap_is_Some. intros [t Ht] Hg HQ. apply wp_upd_obj. exists t. split; [done|]. apply HQ.
  unfold bproj, set_rqs; cbn. f_equal. rewrite fmap_insert. apply map_eq. intros k.
  destruct (decide (k = c)) as [->|]; [rewrite lookup_insert_eq, lookup_alter_eq, lookup_fmap, Ht, Hg; done|].
  by rewrite lookup_insert_ne, lookup_alter_ne.
Qed.

Lemma quiet_sched_fork f p m : is_Some (bv_tasks (bproj m) !! p) -> quiet_boot (__sched_fork f p) m.
Proof.
  intros Hp. unfold __sched_fork, quiet_boot. set (V := bproj m) in *. assert (E : bproj m = V) by done. clearbody V.
  repeat quiet. by quiet_end.
Qed.

Lemma quiet_allowed p k m : is_Some (bv_tasks (bproj m) !! p) -> quiet_boot (set_cpus_allowed_common p k 0) m.
Proof.
  cbn. rewrite lookup_fmap, fmap_is_Some. intros [t Ht]. unfold quiet_boot.
  eapply wp_set_cpus_allowed_common; [exact Ht|]. intros t' _ Et'. unfold bproj; cbn.
  rewrite (fmap_quiet _ _ _ t); [done|done|]. by rewrite <- Et'.
Qed.

Lemma wp_init_idle p c m V : bproj m = V -> is_Some (bv_tasks V !! p) -> is_Some (bv_rqs V !! c) ->
  wp (init_idle p c) (fun _ m' => bproj m' = set_tasks (alter (as_idle c) p) (set_rqs (alter (with_idle p) c) V)) m.
Proof.
  intros E Hp Hc. unfold init_idle.
  eapply wp_quiet_boot; [exact E|apply quiet_sched_fork; by rewrite E|]. clear E m. intros _ m E.
  quiet. quiet. quiet. quiet. quiet.
  eapply wp_quiet_boot; [exact E|apply quiet_allowed; by rewrite E|]. clear E. intros _ m1 E.
  apply wp_bind. apply (wp_task_view _ _ (fun t => let '(_, g, u, q, k, s, o) := t in (c, g, u, q, k, s, o)));
    [by rewrite E|intros t; by rewrite task_set_cpu_val|]. intros m2 E2. rewrite E in E2. clear E. rename E2 into E.
  apply wp_bind. apply (wp_rq_view _ _ (fun r => let '(k, a, _, u, f) := r in (k, a, p, u, f)));
    [by rewrite E|done|]. intros m3 E3. rewrite E in E3. clear E. rename E3 into E.
  apply wp_bind. apply (wp_rq_view _ _ (fun r => let '(k, _, b, u, f) := r in (k, p, b, u, f)));
    [rewrite E; cbn; by rewrite lookup_alter_is_Some|done|]. intros m4 E4. rewrite E in E4. clear E. rename E4 into E.
  assert (Hp' : is_Some (alter (fun t : vtask => let '(_, g, u, q, k, s, o) := t in (c, g, u, q, k, s, o)) p (bv_tasks V) !! p))
    by by rewrite lookup_alter_is_Some.
  quiet. quiet. quiet.
  apply wp_bind. apply (wp_task_view _ _ (fun t => let '(n, g, u, q, _, s, o) := t in (n, g, u, q, idle_sched_class, s, o)));
    [by rewrite E|done|]. intros m5 E5. rewrite E in E5. clear E. rename E5 into E.
  quiet. quiet_end. rewrite E. unfold set_tasks, set_rqs; cbn. f_equal.
  - apply alter_alter. by intros [[[[[[] ?] ?] ?] ?] ?].
  - apply alter_alter. by intros [[[[] ?] ?] ?].
Qed.

Lemma quiet_load_weight p m t : bv_tasks (bproj m) !! p = Some t -> MAX_RT_PRIO <= vt_prio t < MAX_RT_PRIO + 40 ->
  quiet_boot (set_load_weight p false) m.
Proof.
  cbn. rewrite lookup_fmap. intros (t0 & Ht & ->)%fmap_Some Hr. cbn in Hr.
  assert (Hp : is_Some (bv_tasks (bproj m) !! p)) by (cbn; rewrite lookup_fmap, Ht; by eexists).
  unfold quiet_boot, set_load_weight. apply wp_bind, wp_deref. exists t0. split; [done|]. cbv zeta.
  destruct (task_has_idle_policy t0); [by apply quiet_task|]. cbn [andb].
  assert (Hi : (Z.to_nat (ts_static_prio t0 - MAX_RT_PRIO) < 40)%nat) by lia.
  unfold table_get. destruct (Z.ltb_spec (ts_static_prio t0 - MAX_RT_PRIO) 0); [lia|].
  destruct (lookup_lt_is_Some_2 sched_prio_to_weight _ Hi) as [w Hw].
  destruct (lookup_lt_is_Some_2 sched_prio_to_wmult _ Hi) as [v Hv].
  apply wp_bind. rewrite Hw. apply wp_ret. apply wp_bind. rewrite Hv. apply wp_ret. by apply quiet_task.
Qed.

Lemma quiet_push_set c m : is_Some (bv_rqs (bproj m) !! c) -> quiet_boot (balance_push_set c false) m.
Proof.
  intros Hc. unfold quiet_boot, balance_push_set. apply wp_bind, wp_rd_rq; [done|]. intros cbs.
  apply wp_when. destruct (is_balance_push cbs); [|done]. by apply quiet_rq.
Qed.

(** ** Utilization clamps *)
Definition u0 : per_clamp uclamp_rq :=
  let bks := replicate (Z.to_nat UCLAMP_BUCKETS) (Mk_uclamp_bucket 0 0) in
  PerClamp (Mk_uclamp_rq (uclamp_none UCLAMP_MIN) bks) (Mk_uclamp_rq (uclamp_none UCLAMP_MAX) bks).
Definition no_clamps (r : vrq) : vrq := let '(c, a, b, _, _) := r in (c, a, b, u0, UCLAMP_FLAG_IDLE).
Definition clamps_reset (U : gset Z) (V : bview) : Prop :=
  forall c r, c ∈ U -> bv_rqs V !! c = Some r -> vr_uclamp r = u0 /\ vr_flags r = UCLAMP_FLAG_IDLE.

(** What stays the same. *)
Definition stat (V : bview) := (bv_this V, bv_current V, bv_root V, bv_possible V, bv_init_mm V, dom (bv_tasks V)).

Lemma bok_no_clamps cp ids V i : bok cp ids V -> bok cp ids (set_rqs (alter no_clamps i) V).
Proof.
  intros [K1 K2 K3 K4 K5 K6 K7 K8 K9 K10 K11 K12]. constructor; cbn; auto.
  - intros c. rewrite lookup_alter_is_Some. apply K2.
  - intros c r Hc. destruct (decide (c = i)) as [->|Hn]; [|rewrite lookup_alter_ne by done; by apply K8].
    rewrite lookup_alter_eq. intros (r0 & Hr0 & ->)%fmap_Some. specialize (K8 i r0 Hc Hr0). by destruct r0 as [[[[] ?] ?] ?].
  - intros c p Hc. destruct (K9 c p Hc) as (r & t & Hr & E1 & E2 & Ht). destruct (decide (c = i)) as [->|Hn].
    + exists (no_clamps r), t. rewrite lookup_alter_eq, Hr. destruct r as [[[[] ?] ?] ?]. done.
    + exists r, t. by rewrite lookup_alter_ne.
Qed.

Lemma wp_init_uclamp_rq i m V : bproj m = V -> is_Some (bv_rqs V !! i) ->
  wp (init_uclamp_rq i) (fun _ m' => bproj m' = set_rqs (alter no_clamps i) V) m.
Proof.
  intros E Hi. unfold init_uclamp_rq, for_each_clamp_id, upd_rq_uclamp. cbn [mapM_].
  apply wp_bind, wp_bind.
  apply (wp_rq_view _ _ (fun r => let '(c, a, b, u, f) := r in (c, a, b, PerClamp (pc_min u0) (pc_max u), f)));
    [by rewrite E|done|]. intros m1 E1. rewrite E in E1.
  apply wp_bind.
  apply (wp_rq_view _ _ (fun r => let '(c, a, b, u, f) := r in (c, a, b, PerClamp (pc_min u) (pc_max u0), f)));
    [rewrite E1; cbn; by rewrite lookup_alter_is_Some|done|]. intros m2 E2. rewrite E1 in E2. apply wp_ret.
  apply (wp_rq_view _ _ (fun r => let '(c, a, b, u, f) := r in (c, a, b, u, UCLAMP_FLAG_IDLE)));
    [rewrite E2; cbn; by rewrite !lookup_alter_is_Some|done|]. intros m3 E3. rewrite E3, E2.
  unfold set_rqs; cbn. f_equal. etransitivity; [apply (alter_alter _ _ (fun r : vrq => let '(c, a, b, u, f) := r in (c, a, b, PerClamp (pc_min u) (pc_max u0), UCLAMP_FLAG_IDLE)))|apply alter_alter];
    by intros [[[[] ?] ?] ?].
Qed.

Lemma wp_init_uclamp_rqs l cp ids U V m : bok cp ids V -> clamps_reset U V -> bproj m = V -> (forall c, c ∈ l -> c ∈ bv_possible V) ->
  wp (mapM_ init_uclamp_rq l) (fun _ m' => bok cp ids (bproj m') /\ clamps_reset (list_to_set l ∪ U) (bproj m') /\
    stat (bproj m') = stat V) m.
Proof.
  revert U V m. induction l as [|i l IH]; intros U V m K HU E Hl; cbn [mapM_].
  { apply wp_ret. rewrite E. split; [done|]. split; [|done]. by rewrite list_to_set_nil, (left_id_L ∅ (∪)). }
  assert (Hi : i ∈ bv_possible V) by (apply Hl; set_solver).
  apply wp_bind. eapply wp_mono; [apply (wp_init_uclamp_rq i m V E); by apply (k_rqs _ _ _ K)|].
  cbv beta. intros [] m' E'. eapply wp_mono; [apply (IH ({[i]} ∪ U) _ m' (bok_no_clamps _ _ _ i K)); [|exact E'|]|].
  - intros c r Hc. cbn. destruct (decide (c = i)) as [->|Hn].
    + rewrite lookup_alter_eq. intros (r0 & _ & ->)%fmap_Some. by destruct r0 as [[[[] ?] ?] ?].
    + rewrite lookup_alter_ne by done. apply HU. set_solver.
  - intros c Hc. cbn. apply Hl. set_solver.
  - cbv beta. intros [] m2 (K2 & R2 & S2). split; [done|]. split; [|done].
    assert (Es : (list_to_set (i :: l) ∪ U : gset Z) = list_to_set l ∪ ({[i]} ∪ U)) by set_solver.
    rewrite Es. exact R2.
Qed.

(** Everything is set up but the clamps of the boot task, the root group and the
    system: these may change as long as they stay well formed. *)
Definition clamped cp ids (S : machine) (m : machine) : Prop :=
  bok cp ids (bproj m) /\ clamps_reset (bv_possible (bproj m)) (bproj m) /\ stat (bproj m) = stat (bproj S).

Lemma wf_none u id b : wf_se (uclamp_se_set u (uclamp_none id) b).
Proof. apply wf_se_set. rewrite capacity_scale. destruct id; cbn; unfold uclamp_none; cbn; rewrite ?capacity_scale; lia. Qed.

Lemma pc_set_wf {id} {c : per_clamp uclamp_se} {u} : (forall i, wf_se (pc_get i c)) -> wf_se u -> forall i, wf_se (pc_get i (pc_set id u c)).
Proof. intros Hc Hu i. destruct (decide (i = id)) as [->|Hn]; [by rewrite pc_get_set_eq|by rewrite pc_get_set_ne]. Qed.

Lemma wp_clamp_req cp ids S p id m : clamped cp ids S m -> is_Some (bv_tasks (bproj m) !! p) ->
  wp (upd_uclamp_req p id (fun u => uclamp_se_set u (uclamp_none id) false)) (fun _ m' => clamped cp ids S m') m.
Proof.
  intros (K & R & E) Hp. unfold upd_uclamp_req.
  apply (wp_task_view _ _ (fun t => let '(c, g, u, q, k, s, o) := t in
    (c, g, u, pc_set id (uclamp_se_set (pc_get id q) (uclamp_none id) false) q, k, s, o))); [done|done|].
  intros m' E'. unfold clamped. rewrite E'. set (V := bproj m) in *. clearbody V. destruct Hp as [t0 Ht0].
  split; [|split; [done|rewrite <- E; unfold stat; cbn; by rewrite dom_alter_L]].
  destruct K as [K1 K2 K3 K4 K5 K6 K7 K8 K9 K10 K11 K12]. constructor; cbn; auto.
  - by rewrite lookup_alter_None.
  - intros c q Hc. destruct (K9 c q Hc) as (r & t & Hr & E1 & E2 & Ht & Ec). destruct (decide (q = p)) as [->|Hn].
    + eexists r, _. rewrite lookup_alter_eq, Ht. split; [done|split; [done|split; [done|split; [reflexivity|]]]].
      by destruct t as [[[[[[] ?] ?] ?] ?] ?].
    + exists r, t. by rewrite lookup_alter_ne.
  - intros q t. destruct (decide (q = p)) as [->|Hn]; [|rewrite lookup_alter_ne by done; apply K10].
    rewrite lookup_alter_eq, Ht0. intros [= <-]. destruct (K10 p t0 Ht0) as (A1 & A2 & A3).
    destruct t0 as [[[[[[] ?] ?] ?] ?] ?]. cbn in *. split; [done|split; [done|]].
    intros i. split; [apply A3|]. apply pc_set_wf; [intros; apply A3|apply wf_none].
Qed.

Lemma wp_clamp_root cp ids S id u m : clamped cp ids S m -> wf_se u ->
  wp (d ← gets m_uclamp_default;
      setg m_uclamp_default (pc_set id u d) ;;
      upd! (bv_root (bproj S)) ⇝ tg_uclamp_req := (fun c => pc_set id u c) ;;
      upd! (bv_root (bproj S)) ⇝ tg_uclamp := (fun c => pc_set id u c)) (fun _ m' => clamped cp ids S m') m.
Proof.
  intros (K & R & E) Hu. assert (Er : bv_root (bproj S) = bv_root (bproj m)) by (unfold stat in E; congruence). rewrite Er.
  destruct (k_root _ _ _ K) as [g0 Hg0]. cbn in Hg0. rewrite lookup_fmap in Hg0. apply fmap_Some in Hg0 as (g & Hg & ->).
  apply wp_bind, wp_gets, wp_bind, wp_setg, wp_bind, wp_upd_obj. exists g. split; [done|].
  apply wp_upd_obj. cbn. rewrite lookup_insert_eq. eexists. split; [reflexivity|].
  rewrite insert_insert_eq. cbn.
  set (g' := upd tg_uclamp (pc_set id u) (upd tg_uclamp_req (pc_set id u) g)).
  unfold clamped. set (m' := upd m_tgs _ _).
  assert (Ep : bproj m' = Mk_bview (bv_tasks (bproj m)) (bv_rqs (bproj m)) (<[m_root_task_group m := pc_set id u (tg_uclamp g)]> (bv_tgs (bproj m)))
    (bv_this (bproj m)) (bv_current (bproj m)) (bv_root (bproj m)) (bv_init_mm (bproj m)) (bv_possible (bproj m))
    (pc_set id u (bv_default (bproj m))) (bv_core (bproj m)) (bv_tick (bproj m)) (bv_mms (bproj m))).
  { unfold bproj, m'; cbn. by rewrite fmap_insert. }
  assert (Hwf : forall i, wf_se (pc_get i (tg_uclamp g))).
  { intros i. apply (k_tgs _ _ _ K (m_root_task_group m)). cbn. by rewrite lookup_fmap, Hg. }
  rewrite Ep. clearbody m'. split; [|split; [done|by rewrite <- E]].
  set (V := bproj m) in *. assert (Hroot : m_root_task_group m = bv_root V) by done. rewrite Hroot. clearbody V.
  destruct K as [K1 K2 K3 K4 K5 K6 K7 K8 K9 K10 K11 K12]. constructor; cbn; auto.
  - rewrite lookup_insert_eq. by eexists.
  - intros p t Ht. destruct (K10 p t Ht) as (A1 & A2 & A3). split; [done|split; [|done]].
    apply lookup_insert_is_Some'. by right.
  - intros a c i. destruct (decide (a = bv_root V)) as [->|Hn]; [|rewrite lookup_insert_ne by done; apply K11].
    rewrite lookup_insert_eq. intros [= <-]. by apply pc_set_wf.
  - intros i. by apply pc_set_wf.
Qed.

Lemma wp_init_uclamp cp ids p m : bok cp ids (bproj m) -> is_Some (bv_tasks (bproj m) !! p) ->
  wp (init_uclamp p) (fun _ m' => clamped cp ids m m') m.
Proof.
  intros K Hp. unfold init_uclamp. apply wp_bind, wp_get_state, wp_bind.
  assert (Hl : forall c, c ∈ (map_to_list (m_rqs m)).*1 <-> c ∈ bv_possible (bproj m)).
  { intros c. rewrite <- (k_rqs _ _ _ K c). cbn. rewrite lookup_fmap, fmap_is_Some, list_elem_of_fmap. split.
    - intros ([k q] & -> & Hin%elem_of_map_to_list). cbn. rewrite Hin. by eexists.
    - intros [q Hq]. exists (c, q). split; [done|by apply elem_of_map_to_list]. }
  eapply wp_mono; [apply (wp_init_uclamp_rqs _ cp ids ∅ _ m K); [by intros ? ? ?%not_elem_of_empty|done|by intros c ?%Hl]|].
  cbv beta. intros [] m1 (K1 & R1 & S1).
  assert (C1 : clamped cp ids m m1).
  { split; [done|split; [|done]]. intros c r Hc. apply R1. apply elem_of_union. left. apply elem_of_list_to_set, Hl.
    unfold stat in S1. by replace (bv_possible (bproj m)) with (bv_possible (bproj m1)) by congruence. }
  assert (Hdom : forall m', clamped cp ids m m' -> is_Some (bv_tasks (bproj m') !! p)).
  { intros m' (_ & _ & Es). apply elem_of_dom. unfold stat in Es. replace (dom (bv_tasks (bproj m'))) with (dom (bv_tasks (bproj m))) by congruence.
    by apply elem_of_dom. }
  cbn [mapM_ for_each_clamp_id]. unfold for_each_clamp_id. cbn [mapM_].
  apply wp_bind, wp_bind. eapply wp_mono; [apply (wp_clamp_req cp ids m p UCLAMP_MIN m1 C1); by apply Hdom|].
  intros [] m2 C2. apply wp_bind. eapply wp_mono; [apply (wp_clamp_req cp ids m p UCLAMP_MAX m2 C2); by apply Hdom|].
  intros [] m3 C3. apply wp_ret. apply wp_bind, wp_gets. cbv zeta.
  assert (Er : m_root_task_group m3 = bv_root (bproj m)).
  { destruct C3 as (_ & _ & E3). unfold stat in E3. cbn in *. congruence. }
  rewrite Er. apply wp_bind. eapply wp_mono; [apply (wp_clamp_root cp ids m UCLAMP_MIN _ m3 C3), wf_none|].
  intros [] m4 C4. apply wp_bind. eapply wp_mono; [apply (wp_clamp_root cp ids m UCLAMP_MAX _ m4 C4), wf_none|].
  intros [] m5 C5. by apply wp_ret.
Qed.

(** ** What leaves the address spaces alone *)
#[local] Hint Extern 2 (preserves (frame boot_task _ _) (emit _ _)) => solve [apply frame_emit; done] : preserve.
#[local] Hint Extern 2 (preserves (frame boot_task _ _) (upd_obj _ _)) =>
  solve [apply frame_upd_task; done | apply frame_upd_rq; done | apply preserves_upd_obj; [typeclasses eauto | done]] : preserve.
#[local] Hint Extern 2 (preserves (frame boot_task _ _) (wr _ _ _)) =>
  solve [apply frame_upd_task; done | apply frame_upd_rq; done | apply preserves_upd_obj; [typeclasses eauto | done]] : preserve.
#[local] Hint Extern 2 (preserves (frame boot_task _ _) (modify _)) => solve [by apply preserves_modify] : preserve.
#[local] Hint Resolve sched_clock_mm init_cfs_bandwidth_mm init_class_rqs_mm init_tg_cfs_entry_mm rq_attach_root_mm
  autogroup_init_mm : preserve.

Lemma init_idle_mm p c : preserves boot_frame (init_idle p c).
Proof.
  unfold init_idle, __sched_fork, set_cpus_allowed_common. keep.
  apply frame_upd_task; [|done]. intros t. by rewrite task_set_cpu_val.
Qed.

Lemma sched_init_root_mm : preserves boot_frame sched_init_root.
Proof. unfold sched_init_root, setg. keep. Qed.

Lemma sched_init_rq_mm i : preserves boot_frame (sched_init_rq i).
Proof. unfold sched_init_rq, sched_init_smp_rq, sched_init_core_rq, hrtick_rq_init. keep. Qed.

Lemma init_uclamp_mm p : preserves boot_frame (init_uclamp p).
Proof. unfold init_uclamp, init_uclamp_rq, upd_rq_uclamp, upd_uclamp_req, setg. keep. Qed.

(** ** sched_init() and the idle tasks *)
Lemma wp_sched_init_root m V : bproj m = V -> is_Some (bv_tgs V !! bv_root V) -> wp sched_init_root (fun _ m' => bproj m' = V) m.
Proof.
  intros E Hr. unfold sched_init_root. apply wp_bind, wp_gets.
  assert (Er : m_root_task_group m = bv_root V) by by rewrite <- E. rewrite Er. repeat quiet.
  apply wp_bind, wp_gets. eapply wp_quiet_boot; [exact E|done|]. intros [] m2 E2. clear E. rename E2 into E. by quiet_end.
Qed.

Lemma wp_sched_init p m V t :
  bproj m = V -> bok ∅ ∅ V -> p = bv_current V -> bv_tasks V !! p = Some t -> MAX_RT_PRIO <= vt_prio t < MAX_RT_PRIO + 40 ->
  wp (sched_init p) (fun _ m' => bok (bv_possible V) {[bv_this V := p]} (bproj m') /\
    clamps_reset (bv_possible V) (bproj m') /\ stat (bproj m') = stat V) m.
Proof.
  intros E K Hp Ht Hprio. unfold sched_init.
  apply wp_bind. eapply wp_mono; [apply (wp_sched_init_root m V E), (k_root _ _ _ K)|]. cbv beta. clear E. intros [] m1 E.
  quiet. apply wp_bind, wp_gets.
  assert (Epo : m_cpu_possible n = bv_possible V) by by rewrite <- E. rewrite Epo.
  apply wp_bind. eapply wp_mono; [apply (wp_init_rqs _ ∅ ∅ V n K E); intros c; apply elem_of_for_each_cpu|].
  cbv beta. clear E. intros [] m2 (V2 & E & K2 & G1 & G2 & G3 & G4 & G5 & G6).
  assert (Hcp : list_to_set (for_each_cpu (bv_possible V)) ∪ ∅ = bv_possible V)
    by (apply set_eq; intros c; rewrite elem_of_union, elem_of_list_to_set, elem_of_for_each_cpu; set_solver).
  rewrite Hcp in K2.
  eapply wp_quiet_boot; [exact E|apply (quiet_load_weight p m2 t); [by rewrite E, G6|done]|]. clear E. intros [] m3 E.
  assert (Hmm : bv_init_mm V2 ∈ bv_mms V2) by apply (k_mm _ _ _ K2).
  assert (Hthis : bv_this V2 ∈ bv_possible V2) by apply (k_this _ _ _ K2).
  apply wp_bind, wp_gets. replace (m_init_mm m3) with (bv_init_mm V2) by by rewrite <- E.
  quiet. apply wp_bind, wp_gets. replace (m_current _) with (bv_current V2) by by rewrite <- E.
  quiet. quiet. apply wp_bind, wp_gets. replace (m_this_cpu _) with (bv_this V2) by by rewrite <- E.
  apply wp_bind. eapply wp_mono; [apply (wp_init_idle _ _ _ V2 E); [by rewrite G3, <- Hp, G6, Ht|by apply (k_rqs _ _ _ K2)]|].
  cbv beta. clear E. intros [] m4 E. rewrite G3, <- Hp in E.
  assert (K4 : bok (bv_possible V) {[bv_this V := p]} (bproj m4)).
  { rewrite E, <- insert_empty, <- G2. apply bok_as_idle; [done|done|by rewrite G6, Ht|done]. }
  assert (S4 : stat (bproj m4) = stat V).
  { rewrite E. unfold stat; cbn. rewrite dom_alter_L. congruence. }
  assert (Hrq : is_Some (bv_rqs (bproj m4) !! bv_this V2)).
  { apply (k_rqs _ _ _ K4). rewrite E. cbn. done. }
  clear E. remember (bproj m4) as V4 eqn:E. symmetry in E.
  quiet. eapply wp_quiet_boot; [exact E|apply quiet_push_set; by rewrite E|]. clear E. intros [] m5 E. quiet. quiet.
  apply wp_bind. eapply wp_mono; [apply (wp_init_uclamp (bv_possible V) {[bv_this V := p]} p); rewrite E; [done|]|].
  { apply elem_of_dom. unfold stat in S4. replace (dom (bv_tasks V4)) with (dom (bv_tasks V)) by congruence. apply elem_of_dom. by eexists. }
  cbv beta. intros [] m6 (K6 & R6 & S6). rewrite E, S4 in S6. clear E. remember (bproj m6) as V6 eqn:E. symmetry in E.
  quiet. quiet_end. rewrite E. split; [done|split; [|done]].
  unfold stat in S6. by replace (bv_possible V) with (bv_possible V6) by congruence.
Qed.

(** The idle tasks [idles] of the other CPUs, added to those in [ids]. *)
Fixpoint add_idles (idles : list (Z * Z)) (ids : gmap Z Z) : gmap Z Z :=
  match idles with [] => ids | (p, c) :: l => add_idles l (<[c := p]> ids) end.

(** The tasks that become idle tasks have no address space of their own. *)
Definition kthreads (l : list Z) (m : machine) : Prop :=
  forall p, p ∈ l -> exists t, m_tasks m !! p = Some t /\ ts_mm t = NULL.

Lemma kthreads_frame l m m' : boot_frame m m' -> kthreads l m -> kthreads l m'.
Proof.
  intros Fr Hk p Hp. destruct (Hk p Hp) as (t & Ht & Hm). destruct (frame_task _ _ _ _ _ _ _ Fr Ht) as (t' & Ht' & E).
  exists t'. split; [done|]. unfold boot_task, task_mmp in E. congruence.
Qed.

Lemma wp_cpu_init p t m V :
  bproj m = V -> bv_init_mm V ∈ bv_mms V -> m_tasks m !! p = Some t -> ts_mm t = NULL ->
  wp (cpu_init p) (fun _ m' => bproj m' = V /\ forall l, kthreads l m -> kthreads l m') m.
Proof.
  intros E Hin Ht Hm.
  rewrite <- E in Hin. cbn in Hin. apply elem_of_dom in Hin as [x Hx]. destruct (cpu_init_ok p t x m Ht Hm Hx) as [l El].
  unfold wp. rewrite El. split.
  - rewrite <- E. unfold bproj. cbn. f_equal; [by eapply fmap_quiet | by eapply dom_quiet].
  - intros k Hk' q Hq. destruct (Hk' q Hq) as (t' & Ht' & Hm'). cbn. destruct (decide (q = p)) as [->|Hne].
    + rewrite lookup_insert_eq. eexists. split; [done|]. cbn. done.
    + rewrite lookup_insert_ne by done. by exists t'.
Qed.

Lemma wp_init_idles idles ids cp V m :
  bproj m = V -> bok cp ids V -> clamps_reset (bv_possible V) V -> kthreads idles.*1 m ->
  NoDup idles.*1 -> (forall p c, (p, c) ∈ idles -> c ∈ bv_possible V /\ p ∈ dom (bv_tasks V) /\ forall c', ids !! c' <> Some p) ->
  wp (mapM_ (fun x => init_idle x.1 x.2 ;; cpu_init x.1) idles) (fun _ m' => bok cp (add_idles idles ids) (bproj m') /\
    clamps_reset (bv_possible V) (bproj m') /\ stat (bproj m') = stat V) m.
Proof.
  revert ids V m. induction idles as [|[p c] idles IH]; intros ids V m E K R Hkt Hn Hi; cbn [mapM_ add_idles].
  { apply wp_ret. by rewrite E. }
  destruct (Hi p c (list_elem_of_here _ _)) as (Hc & Hp & Hu). apply elem_of_dom in Hp.
  apply list.NoDup_cons in Hn as [Hnp Hn].
  apply wp_bind, wp_bind. eapply (wp_call boot_frame); [apply (wp_init_idle p c m V E Hp); by apply (k_rqs _ _ _ K) | apply init_idle_mm |].
  cbv beta. intros [] m1 E1 F1. pose proof (kthreads_frame _ _ _ F1 Hkt) as Hkt1. cbn [fst snd] in *.
  assert (K' := bok_as_idle cp ids V p c K Hc Hp (fun c' Hc' => False_ind _ (Hu c' Hc'))).
  destruct (Hkt1 p (list_elem_of_here _ _)) as (t & Ht & Hm).
  eapply wp_mono; [apply (wp_cpu_init p t m1 _ E1); [apply (k_mm _ _ _ K') | done | done]|].
  cbv beta. intros [] m' [E' Hkt'].
  eapply wp_mono; [apply (IH _ _ m' E' K'); [| | done |]|].
  - intros a r Ha. cbn. destruct (decide (a = c)) as [->|Hne]; [|rewrite lookup_alter_ne by done; by apply R].
    rewrite lookup_alter_eq. intros (r0 & Hr0 & ->)%fmap_Some. specialize (R c r0 Hc Hr0). by destruct r0 as [[[[] ?] ?] ?].
  - intros q Hq. apply (Hkt' _ Hkt1). by apply list_elem_of_further.
  - intros q d Hin. cbn. rewrite dom_alter_L. destruct (Hi q d (list_elem_of_further _ _ _ Hin)) as (A1 & A2 & A3).
    split; [done|split; [done|]]. intros c'. destruct (decide (c' = c)) as [->|Hne]; [|by rewrite lookup_insert_ne].
    rewrite lookup_insert_eq. intros [= ->]. apply Hnp. by apply (list_elem_of_fmap_2 fst _ _ Hin).
  - cbv beta. intros [] m2 (A & B & C). split; [done|split; [done|]]. rewrite C. unfold stat; cbn. by rewrite dom_alter_L.
Qed.

Lemma add_idles_lookup idles ids c :
  c ∈ idles.*2 \/ is_Some (ids !! c) -> is_Some (add_idles idles ids !! c).
Proof.
  revert ids. induction idles as [|[p d] idles IH]; intros ids Hc; cbn in *; [set_solver|].
  apply IH. destruct (decide (c = d)) as [->|Hn]; [right; rewrite lookup_insert_eq; by eexists|].
  rewrite lookup_insert_ne by done. set_solver.
Qed.

(** ** A machine that is set up is well formed *)
Lemma active_clamps_none ts c id : (forall p t, ts !! p = Some t -> uc_active (pc_get id (ts_uclamp t)) = false) ->
  active_clamps ts c id = [].
Proof.
  intros Ha. unfold active_clamps. assert (Hl : forall x, x ∈ map_to_list ts -> uc_active (pc_get id (ts_uclamp x.2)) = false)
    by (intros [p t] Hin%elem_of_map_to_list; by eapply Ha).
  induction (map_to_list ts) as [|x l IH]; [done|]. cbn. rewrite IH by (intros y Hy; apply Hl; by apply list_elem_of_further).
  unfold contrib. rewrite (Hl x) by apply list_elem_of_here. by rewrite andb_false_r.
Qed.

Lemma clamps_none_ok q : rq_uclamp q = u0 -> rq_uclamp_flags q = UCLAMP_FLAG_IDLE -> rq_clamps_ok (fun _ => []) q.
Proof.
  intros Hu Hf.
  assert (Hb : buckets_ok [] (replicate (Z.to_nat UCLAMP_BUCKETS) (Mk_uclamp_bucket 0 0))).
  { split; [by rewrite length_replicate|]. intros i b [-> _]%lookup_replicate. split; [done|]. split; [done|set_solver]. }
  unfold rq_clamps_ok. rewrite Hu. split; [intros []; by apply clamp_inv_nil|split].
  - intros _ Hi. unfold uclamp_idle in Hi. by rewrite Hf in Hi.
  - unfold uclamp_idle. rewrite Hf, uclamp_flag_idle_val. by split.
Qed.

Lemma bok_kernel_ok ids m : bok (bv_possible (bproj m)) ids (bproj m) -> clamps_reset (bv_possible (bproj m)) (bproj m) ->
  (forall c, c ∈ bv_possible (bproj m) -> is_Some (ids !! c)) -> kernel_ok m.
Proof.
  intros K R Hids. assert (Hrq : forall c q, m_rqs m !! c = Some q -> bv_rqs (bproj m) !! c = Some (brq q) /\ c ∈ bv_possible (bproj m)).
  { intros c q Hq. assert (Hv : bv_rqs (bproj m) !! c = Some (brq q)) by (cbn; by rewrite lookup_fmap, Hq).
    split; [done|]. apply (k_rqs _ _ _ K). by eexists. }
  assert (Hin : forall c, c ∈ bv_possible (bproj m) -> is_Some (m_rqs m !! c)).
  { intros c Hc. apply (k_rqs _ _ _ K) in Hc. cbn in Hc. by rewrite lookup_fmap, fmap_is_Some in Hc. }
  assert (Htask : forall p t, m_tasks m !! p = Some t -> bv_tasks (bproj m) !! p = Some (btask t)) by (intros p t Ht; cbn; by rewrite lookup_fmap, Ht).
  assert (Hoff : forall id p t, m_tasks m !! p = Some t -> uc_active (pc_get id (ts_uclamp t)) = false).
  { intros id p t Ht. apply (k_tasks _ _ _ K p (btask t) (Htask p t Ht)). }
  constructor.
  - pose proof (k_null _ _ _ K) as Hn. cbn in Hn. rewrite lookup_fmap in Hn. by destruct (m_tasks m !! NULL).
  - intros c q Hq. destruct (Hrq c q Hq) as [Hv Hc]. split; [by apply (k_cpus _ _ _ K c (brq q))|].
    destruct (Hids c Hc) as [p Hp]. destruct (k_ids _ _ _ K c p Hp) as (r & t & Hr & E1 & E2 & Ht & Ec).
    assert (r = brq q) as -> by congruence. cbn in Ht. rewrite lookup_fmap in Ht. apply fmap_Some in Ht as (t0 & Ht0 & ->).
    cbn in E1, E2, Ec. rewrite E1, E2. split; by exists t0.
  - intros p t Ht. destruct (k_tasks _ _ _ K p _ (Htask p t Ht)) as (A1 & A2 & _). split; [by apply Hin|].
    cbn in A2. by rewrite lookup_fmap, fmap_is_Some in A2.
  - apply Hin, (k_this _ _ _ K).
  - split.
    + intros c q Hq. destruct (Hrq c q Hq) as [Hv Hc]. destruct (R c _ Hc Hv) as [Hu Hf].
      eapply rq_clamps_ok_perm; [|apply clamps_none_ok; [exact Hu|exact Hf]]. intros id. by rewrite active_clamps_none; [|apply Hoff].
    + intros p t Ht. unfold paired. by rewrite !(Hoff _ p t Ht).
  - split; [|split].
    + intros p t id Ht. apply (k_tasks _ _ _ K p _ (Htask p t Ht)).
    + intros a g id Hg. apply (k_tgs _ _ _ K a). cbn. by rewrite lookup_fmap, Hg.
    + apply (k_default _ _ _ K).
  - intros p t Ht. by rewrite (Hoff _ p t Ht).
Qed.

(** ** The address space of the kernel is counted for every idle task *)

(** A kernel thread that is not running yet starts to run in [init_mm]. *)
Definition borrow_init (q : Z) (t : task_struct) (x : mm_struct) (m : machine) : machine :=
  m <| m_tasks := <[q := t <| ts_active_mm := m_init_mm m |>]> (m_tasks m) |>
    <| m_mms := <[m_init_mm m := x <| mm_count := mm_count x + 1 |>]> (m_mms m) |>.

Lemma mm_inv_borrow runs m q t x :
  mm_inv runs NULL m -> m_tasks m !! q = Some t -> ts_mm t = NULL -> ~ runs q -> m_mms m !! m_init_mm m = Some x ->
  mm_inv (fun p => runs p \/ p = q) NULL (borrow_init q t x m).
Proof.
  intros [Hu Hl He Hc (y & Hy & Hyu & Hnn)] Ht Hmm Hr Hx. assert (y = x) as -> by congruence.
  pose proof (proj2 (Hl q t Ht Hmm) Hr) as Ha.
  assert (Hrefs : forall a, a <> NULL -> mm_refs NULL (borrow_init q t x m) a = mm_refs NULL m a + b2z (m_init_mm m =? a)).
  { intros a Hna. unfold mm_refs, borrow_init; cbn. rewrite (count_in_change _ _ q t) by done. unfold borrows; cbn.
    rewrite Hmm, Ha. unfold NULL in *. repeat match goal with |- context [?u =? ?v] => destruct (Z.eqb_spec u v) end; cbn; lia. }
  assert (Huser : forall a, (exists z, m_mms m !! a = Some z /\ 0 < mm_users z) ->
    exists z, m_mms (borrow_init q t x m) !! a = Some z /\ 0 < mm_users z).
  { intros a (z & Hz & Huz). cbn. destruct (decide (a = m_init_mm m)) as [->|Hne];
      [rewrite lookup_insert_eq; by eexists | rewrite lookup_insert_ne by done; by exists z]. }
  split; cbn [borrow_init].
  - intros p u. cbn. destruct (decide (p = q)) as [->|Hne]; [rewrite lookup_insert_eq; by intros [= <-]|].
    rewrite lookup_insert_ne by done. intros Hp Hm. destruct (Hu p u Hp Hm) as [E Ez]. split; [done|by apply Huser].
  - intros p u. cbn. destruct (decide (p = q)) as [->|Hne].
    + rewrite lookup_insert_eq. intros [= <-] _. cbn. split; [done|]. intros []. by right.
    + rewrite lookup_insert_ne by done. intros Hp Hm. destruct (Hl p u Hp Hm) as [L1 L2]. split; [naive_solver|].
      intros Hn. apply L2. naive_solver.
  - intros a Hna. rewrite Hrefs by done. intros Hpos. cbn. apply lookup_insert_is_Some'.
    destruct (Z.eqb_spec (m_init_mm m) a) as [->|]; [by left|right]. cbn in Hpos. apply He; [done|lia].
  - intros a z Hz Hna. rewrite Hrefs by done. cbn in Hz. destruct (Z.eqb_spec (m_init_mm m) a) as [<-|Hne].
    + rewrite lookup_insert_eq in Hz. injection Hz as <-. cbn. pose proof (Hc _ x Hx Hnn). lia.
    + rewrite lookup_insert_ne in Hz by done. pose proof (Hc a z Hz Hna). cbn. lia.
  - destruct (Huser (m_init_mm m)) as (z & ? & ?); [by exists x|]. by exists z.
Qed.

(** What holds of the address spaces and the fixed priorities while the
    scheduler starts; the tasks in [runs] are current on some CPU. *)
Record boot_inv (runs : Z -> Prop) (m : machine) : Prop := Mk_boot_inv {
  bi_mm : mm_inv runs NULL m;
  bi_fixed : forall p t, m_tasks m !! p = Some t -> ts_my_fixed_priority t = 0;
  bi_parked : forall c q, m_rqs m !! c = Some q -> rq_prev_mm q = NULL;
}.

Lemma boot_inv_frame runs m m' : boot_frame m m' -> boot_inv runs m -> boot_inv runs m'.
Proof.
  intros Fr [A B C]. split.
  - eapply mm_inv_frame; [|exact A]. revert Fr. apply frame_weaken; [unfold boot_task; congruence | done | done].
  - intros p t' Ht'. symmetry in Fr. destruct (frame_task _ _ _ _ _ _ _ Fr Ht') as (t & Ht & E).
    unfold boot_task in E. replace (ts_my_fixed_priority t') with (ts_my_fixed_priority t) by congruence. by apply (B p).
  - intros c q' Hq'. symmetry in Fr. destruct (frame_rq _ _ _ _ _ _ _ Fr Hq') as (q & Hq & E).
    replace (rq_prev_mm q') with (rq_prev_mm q) by congruence. by apply (C c).
Qed.

Lemma boot_inv_borrow runs m q t x l :
  boot_inv runs m -> m_tasks m !! q = Some t -> ts_mm t = NULL -> ~ runs q -> m_mms m !! m_init_mm m = Some x ->
  boot_inv (fun p => runs p \/ p = q) (borrow_init q t x m <| m_log := l |>).
Proof.
  intros [A B C] Ht Hm Hr Hx. apply (boot_inv_frame _ (borrow_init q t x m)); [done|].
  split; [by apply mm_inv_borrow | | done].
  intros p u. cbn. destruct (decide (p = q)) as [->|Hne]; [|rewrite lookup_insert_ne by done; apply B].
  rewrite lookup_insert_eq. intros [= <-]. cbn. by apply (B q).
Qed.

(** One reference is taken on [init_mm], nothing else of [boot_frame] changes. *)
Definition grabbed (m m' : machine) : Prop := exists x : mm_struct, m_mms m !! m_init_mm m = Some x /\
  boot_frame (m <| m_mms := <[m_init_mm m := x <| mm_count := mm_count x + 1 |>]> (m_mms m) |>) m'.

Lemma grabbed_before {A B} (c : K A) (k : A -> K B) :
  preserves boot_frame c -> (forall a, preserves grabbed (k a)) -> preserves grabbed (c ≫= k).
Proof.
  intros Hc Hk m b m' E. unfold mbind, M_bind in E. destruct (c m) as [a m1|] eqn:E1; [|done].
  pose proof (Hc _ _ _ E1) as F1. destruct (Hk a _ _ _ E) as (x & Hx & F2). pose proof F1 as (Ft & Fq & Fg).
  unfold globals_mmp in Fg. injection Fg as Em Ei. rewrite <- Em, <- Ei in Hx. exists x. split; [done|].
  etransitivity; [|exact F2]. split; [exact Ft|split; [exact Fq|]]. unfold globals_mmp; cbn. by rewrite Em, Ei.
Qed.

Lemma grabbed_grab {A} (k : Z -> K A) :
  (forall a, preserves boot_frame (k a)) -> preserves grabbed (init_mm ← gets m_init_mm; mmgrab init_mm ;; k init_mm).
Proof.
  intros Hk m b m' E.
  assert (Hw : wp (init_mm ← gets m_init_mm; mmgrab init_mm ;; k init_mm) (fun _ s => s = m') m) by (apply wp_run; eauto).
  unfold mmgrab in Hw. rewrite wp_bind, wp_gets, wp_bind, wp_upd_obj in Hw. destruct Hw as (x & Hx & Hw).
  apply wp_run in Hw as (b' & s & E' & ->). exists x. split; [done|]. by apply Hk in E'.
Qed.

#[local] Hint Extern 2 (preserves (frame boot_task _ _) (balance_push_set _ _)) => unfold balance_push_set, warn_on; keep : preserve.
#[local] Hint Resolve sched_init_root_mm sched_init_rq_mm init_idle_mm init_uclamp_mm : preserve.

Lemma table_get_keeps tbl i : preserves boot_frame (table_get tbl i).
Proof. unfold table_get. destruct (i <? 0); [|destruct (tbl !! Z.to_nat i)]; keep. Qed.
#[local] Hint Resolve table_get_keeps : preserve.

Lemma set_load_weight_mm p : preserves boot_frame (set_load_weight p false).
Proof. unfold set_load_weight. cbn [andb]. keep. Qed.

Lemma sched_init_grabs p : preserves grabbed (sched_init p).
Proof.
  unfold sched_init. do 4 (apply grabbed_before; [keep | intros ?]).
  apply grabbed_before; [apply set_load_weight_mm | intros ?]. apply grabbed_grab; intros ?. keep.
Qed.

(** Before the scheduler starts the boot task already runs in [init_mm], and
    nothing counts that yet. *)
Definition lazy_boot (p : Z) (m : machine) : Prop :=
  exists t, m_tasks m !! p = Some t /\ ts_mm t = NULL /\ ts_active_mm t = m_init_mm m /\
    boot_inv (fun _ => False) (m <| m_tasks := <[p := t <| ts_active_mm := NULL |>]> (m_tasks m) |>).

Lemma sched_init_inv p m m' : sched_init p m = Ret tt m' -> lazy_boot p m -> boot_inv (fun q => q = p) m'.
Proof.
  intros E (t & Ht & Hm & Ha & B). apply sched_init_grabs in E as (x & Hx & Fr).
  eapply boot_inv_frame; [exact Fr|].
  pose proof (boot_inv_borrow _ _ p (t <| ts_active_mm := NULL |>) x (m_log m) B (lookup_insert_eq _ _ _) Hm (fun f => f) Hx) as B'.
  match type of B' with boot_inv _ ?m1 => replace m1 with
    (m <| m_mms := <[m_init_mm m := x <| mm_count := mm_count x + 1 |>]> (m_mms m) |>) in B' end.
  - destruct B' as [A1 A2 A3]. split; [|done|done]. revert A1. apply mm_inv_runs. naive_solver.
  - unfold borrow_init; cbn. rewrite insert_insert_eq. cbn.
    replace (t <| ts_active_mm := NULL |> <| ts_active_mm := m_init_mm m |>) with t by (rewrite <- Ha; by destruct t).
    rewrite (insert_id (m_tasks m) p t) by done. by destruct m.
Qed.

Lemma sched_init_kthreads p l m m' : sched_init p m = Ret tt m' -> kthreads l m -> kthreads l m'.
Proof. intros E Hk. apply sched_init_grabs in E as (x & _ & Fr). by eapply kthreads_frame. Qed.

Lemma init_idles_inv idles runs m m' :
  mapM_ (fun x => init_idle x.1 x.2 ;; cpu_init x.1) idles m = Ret tt m' ->
  boot_inv runs m -> kthreads idles.*1 m -> NoDup idles.*1 -> (forall q, q ∈ idles.*1 -> ~ runs q) ->
  boot_inv (fun q => runs q \/ q ∈ idles.*1) m'.
Proof.
  revert runs m. induction idles as [|[p c] idles IH]; intros runs m E B Hk Hn Hr; cbn [mapM_ fst snd] in E.
  { injection E as <-. destruct B as [A1 A2 A3]. split; [|done|done]. revert A1. apply mm_inv_runs. cbn. set_solver. }
  apply list.NoDup_cons in Hn as [Hnp Hn]. unfold mbind, M_bind in E.
  destruct (init_idle p c m) as [[] m1|] eqn:E1; [|done]. apply init_idle_mm in E1.
  pose proof (boot_inv_frame _ _ _ E1 B) as B1. pose proof (kthreads_frame _ _ _ E1 Hk) as Hk1.
  destruct (Hk1 p (list_elem_of_here _ _)) as (t & Ht & Hm). destruct (mm_init _ _ _ (bi_mm _ _ B1)) as (x & Hx & _).
  destruct (cpu_init_ok p t x m1 Ht Hm Hx) as [l El]. rewrite El in E.
  pose proof (boot_inv_borrow runs m1 p t x l B1 Ht Hm (Hr p (list_elem_of_here _ _)) Hx) as B2.
  destruct (IH _ _ E B2) as [A1 A2 A3]; [| done | |].
  - intros q Hq. destruct (Hk1 q (list_elem_of_further _ _ _ Hq)) as (t' & Ht' & Hm'). cbn.
    destruct (decide (q = p)) as [->|Hne].
    + rewrite lookup_insert_eq. eexists. split; [reflexivity|]. by cbn.
    + rewrite lookup_insert_ne by done. by exists t'.
  - intros q Hq [Hq'| ->]; [|done]. by apply (Hr q (list_elem_of_further _ _ _ Hq)).
  - split; [|done|done]. revert A1. apply mm_inv_runs. intros q _. cbn. rewrite elem_of_cons. tauto.
Qed.

(** The idle task of every CPU, and the CPU of every idle task. *)
Lemma add_idles_new idles ids c p :
  NoDup idles.*2 -> (c, p) ∈ (fun x => (x.2, x.1)) <$> idles \/ (c ∉ idles.*2 /\ ids !! c = Some p) <-> add_idles idles ids !! c = Some p.
Proof.
  revert ids. induction idles as [|[q d] idles IH]; intros ids Hn; cbn in *; [set_solver|].
  apply list.NoDup_cons in Hn as [Hnd Hn]. rewrite <- IH by done. rewrite elem_of_cons.
  destruct (decide (c = d)) as [->|Hne].
  - rewrite lookup_insert_eq. split.
    + intros [[[= ->]|Hin]|[Hc _]]; [by right | by left |]. exfalso. apply Hc, list_elem_of_here.
    + intros [Hin|[_ [= ->]]]; [left; by right | left; by left].
  - rewrite lookup_insert_ne by done. rewrite not_elem_of_cons. naive_solver.
Qed.

(** The idle tasks, one for every possible CPU, the boot task for the boot CPU:
    every run queue is allocated and none is used. *)
Record before_boot (p : Z) (idles : list (Z * Z)) (m : machine) : Prop := Mk_before_boot {
  bb_objects : bok ∅ ∅ (bproj m);
  bb_current : p = m_current m;
  bb_prio : forall t, m_tasks m !! p = Some t -> MAX_RT_PRIO <= ts_static_prio t < MAX_RT_PRIO + 40;
  bb_lazy : lazy_boot p m;
  bb_kthreads : kthreads idles.*1 m;
  bb_tasks : NoDup (p :: idles.*1);
  bb_cpus : NoDup (m_this_cpu m :: idles.*2);
  bb_all c : c ∈ m_cpu_possible m <-> c = m_this_cpu m \/ c ∈ idles.*2;
}.

(** The tasks that run once all CPUs have started. *)
Lemma booted_running p c0 idles m :
  NoDup (c0 :: idles.*2) -> bok (bv_possible (bproj m)) (add_idles idles {[c0 := p]}) (bproj m) ->
  (forall c, c ∈ bv_possible (bproj m) -> is_Some (add_idles idles {[c0 := p]} !! c)) ->
  forall q, running m q <-> q = p \/ q ∈ idles.*1.
Proof.
  intros [Hc0 Hn]%list.NoDup_cons K Hall q.
  assert (Hid : forall c a, add_idles idles {[c0 := p]} !! c = Some a -> running m a).
  { intros c a Ha. destruct (k_ids _ _ _ K c a Ha) as (r & t & Hr & Ec & _). cbn in Hr. rewrite lookup_fmap in Hr.
    apply fmap_Some in Hr as (r0 & Hr0 & ->). by exists c, r0. }
  split.
  - intros (c & r & Hr & <-). destruct (Hall c) as [a Ha].
    { apply (k_rqs _ _ _ K). cbn. rewrite lookup_fmap, Hr. by eexists. }
    destruct (k_ids _ _ _ K c a Ha) as (r' & t & Hr' & Ec & _). cbn in Hr'. rewrite lookup_fmap, Hr in Hr'.
    injection Hr' as <-. cbn in Ec. rewrite Ec. apply add_idles_new in Ha as [Hin|[_ Hs]]; [| |done].
    + right. apply list_elem_of_fmap in Hin as ([a' c'] & [= -> ->] & Hin). by apply (list_elem_of_fmap_2 fst _ _ Hin).
    + left. by apply lookup_singleton_Some in Hs as [_ ->].
  - intros [->|Hq].
    + apply (Hid c0), add_idles_new; [done|]. right. split; [done|]. apply lookup_singleton_eq.
    + apply list_elem_of_fmap in Hq as ([a c] & -> & Hin). apply (Hid c), add_idles_new; [done|]. left.
      by apply (list_elem_of_fmap_2 (fun x => (x.2, x.1)) _ _ Hin).
Qed.

Lemma booted_in_force runs m : boot_inv runs m -> all_in_force m.
Proof. intros B p _ t Ht _ Hv. by rewrite (bi_fixed _ _ B p t Ht) in Hv. Qed.

(** C8: Starting the scheduler establishes the invariant [sched_ok] that the
    theorems on scheduling assume, and no running task has a priority other than
    its fixed one: on a machine whose run queues, groups and tasks are allocated
    and not used yet, sched_init() followed by init_idle() and cpu_init() for
    the other possible CPUs returns; afterwards every run queue knows its CPU
    and has its idle task as current task, the boot task is current on the boot
    CPU, every task is on the run queue of a CPU, the clamp buckets are exact,
    and every idle task holds a counted reference on the address space of the
    kernel. *)
Theorem boot_establishes_sched_ok p idles m :
  before_boot p idles m -> wp (boot p idles) (fun _ m' => sched_ok m' /\ all_in_force m') m.
Proof.
  intros [K Hp Hprio Hlazy Hkt Htasks Hcpus Hall]. pose proof Hlazy as (t & Ht & _). specialize (Hprio t Ht).
  pose proof (proj1 (list.NoDup_cons _ _) Htasks) as [Hnp Hn]. pose proof (proj1 (list.NoDup_cons _ _) Hcpus) as [Hnc Hn2].
  assert (Hw := wp_sched_init p m (bproj m) (btask t) eq_refl K Hp).
  rewrite wp_run in Hw. destruct Hw as ([] & m1 & E1 & K1 & R1 & S1); [cbn; by rewrite lookup_fmap, Ht | done |]. cbn in K1, R1.
  unfold boot. apply wp_bind, wp_run. exists tt, m1. split; [done|].
  pose proof (sched_init_inv p m m1 E1 Hlazy) as B1.
  assert (Hkt1 : kthreads idles.*1 m1) by by eapply sched_init_kthreads.
  assert (Epo : bv_possible (bproj m1) = m_cpu_possible m) by (unfold stat in S1; cbn in *; congruence).
  assert (Hw := wp_init_idles idles _ _ (bproj m1) m1 eq_refl K1). rewrite Epo in Hw.
  apply wp_run in Hw as ([] & m2 & E2 & K2 & R2 & S2); [| done | done | done |].
  - apply wp_run. exists tt, m2. split; [done|].
    assert (Epo2 : bv_possible (bproj m2) = m_cpu_possible m) by (unfold stat in S2; congruence).
    assert (Hids : forall c, c ∈ bv_possible (bproj m2) -> is_Some (add_idles idles {[m_this_cpu m := p]} !! c)).
    { intros c Hc. apply add_idles_lookup. rewrite Epo2 in Hc. apply Hall in Hc as [->|Hin]; [|by left].
      right. rewrite lookup_singleton_eq. by eexists. }
    pose proof (init_idles_inv idles _ m1 m2 E2 B1 Hkt1 Hn) as B2. specialize (B2 ltac:(by intros q Hq ->)).
    split; [|by eapply booted_in_force].
    rewrite <- Epo2 in K2. split.
    + apply (bok_kernel_ok (add_idles idles {[m_this_cpu m := p]})); [done|by rewrite Epo2|done].
    + eapply mm_inv_runs; [|apply B2]. intros q _. symmetry. by apply (booted_running p (m_this_cpu m)).
    + apply (bi_parked _ _ B2).
    + destruct (k_ids _ _ _ K2 (m_this_cpu m) p) as (r & u & Hr & Ec & _).
      { apply add_idles_new; [done|]. right. split; [done|]. apply lookup_insert_eq. }
      cbn in Hr. rewrite lookup_fmap in Hr. apply fmap_Some in Hr as (r0 & Hr0 & ->).
      assert (Est : stat (bproj m2) = stat (bproj m)) by congruence. unfold stat in Est. cbn in Est.
      replace (m_this_cpu m2) with (m_this_cpu m) by congruence. replace (m_current m2) with p by congruence. by exists r0.
  - intros q c Hin. split; [apply Hall; right; by apply (list_elem_of_fmap_2 snd _ _ Hin)|split].
    + destruct (Hkt1 q) as (u & Hu & _); [by apply (list_elem_of_fmap_2 fst _ _ Hin)|]. cbn. rewrite dom_fmap_L. by apply elem_of_dom_2 in Hu.
    + intros c' Hc'. apply lookup_singleton_Some in Hc' as [_ ->]. apply Hnp. by apply (list_elem_of_fmap_2 fst _ _ Hin).
Qed.
End Functions.
