(* ===== verification/BootSample.v ===== *)
(** Starting the scheduler on a concrete machine: two possible CPUs, the boot task
    and the idle task of the second CPU, everything else still zero. *)
From S2P Require Import Prelude Headers Proc Kernel Extern RqClock Uclamp UclampProofs Prio.
From S2P Require Import SchedOK Affinity Migrate Mm Wakeup WakeProofs WakeSample Schedule.
From S2P Require Import LazyMm ScheduleProofs Sample CoreSched CoreSample Tick TickSample.
From S2P Require Import Hotplug MyPriority.
From S2P Require Import ForkExtern SchedFork Boot BootProofs.

Module BootDemo.
#[local] Existing Instance linux_headers.
#[local] Existing Instance linux_fork_headers.
#[local] Existing Instance Demo.extern.
#[local] Existing Instance DemoMigrate.migrate_extern.
#[local] Existing Instance CoreDemo.core_extern.
#[local] Existing Instance TickDemo.tick_extern.

#[local] Instance fork_ext : ForkExtern := DemoFork.fork_extern false.
#[local] Instance hotplug_ext : HotplugExtern := HotDemo.hotplug_extern false.

Definition boot_extern : BootExtern := {|
  sched_clock := mret 1000; jiffies := 300; LOAD_FREQ := 1251; ROOT_TASK_GROUP_LOAD := 1048576;
  sysctl_sched_migration_cost := 500000; HK_FLAG_DOMAIN := 8;
  init_cfs_bandwidth _ := mret tt; init_class_rqs _ := mret tt; init_tg_cfs_entry _ _ := mret tt;
  rq_attach_root c := emit "rq_attach_root" [c]; autogroup_init _ := mret tt;
  cpu_init p := a ← gets m_init_mm; mmgrab a ;; set! p ⇝ ts_active_mm := a ;; emit "initialize_tlbstate_and_flush" [];
|}.
#[local] Existing Instance boot_extern.

#[export] Instance boot_extern_ok : BootExternOK boot_extern.
Proof.
  constructor; try by (intros; cbn; first [apply frame_emit | keep]).
  intros p t x m Ht Hm Hx. cbn. unfold mmgrab.
  match goal with |- exists l, ?c m = _ => assert (Hw : exists l, wp c (fun a m' => a = tt /\ m' =
    borrow_init p t x m <| m_log := l |>) m) end.
  { eexists. apply wp_bind, wp_gets, wp_bind, wp_upd_obj. exists x. split; [done|].
    apply wp_bind, wp_wr. exists t. split; [done|]. apply wp_emit. split; [done|]. reflexivity. }
  destruct Hw as [l Hw]. exists l. by apply wp_eq.
Qed.

Definition core_rq_zero : core_rq := Mk_core_rq 0 false 0 0 0 0 0 0 0 0 0 [] false false false 0.
Definition tick_rq_zero : tick_rq := Mk_tick_rq false 0 0 0 false 0 0 0 0 0 0 0 0.
Definition rq_zero : rq := rq0 0 0 0 [].

(** The boot task is 1, the idle task for CPU 1 is 2; init_mm has two users and
    the one reference they share. *)
Definition machine_boot : machine :=
  machine0 <| m_tasks := <[1 := task0 <| ts_active_mm := 60 |>]> (<[2 := task0]> ∅) |>
    <| m_mms := <[60 := Mk_mm 2 1]> ∅ |> <| m_rqs := <[0 := rq_zero]> (<[1 := rq_zero]> ∅) |>
    <| m_current := 1 |> <| m_task_groups := [] |>
    <| m_smt := smt0 <| sm_rqs := <[0 := core_rq_zero]> (<[1 := core_rq_zero]> ∅) |> |>
    <| m_tick := tick0 <| ti_cpus := <[0 := tick_rq_zero]> (<[1 := tick_rq_zero]> ∅) |> |>.

Lemma machine_boot_ok : bok ∅ ∅ (bproj machine_boot).
Proof.
  constructor; cbn.
  - reflexivity.
  - intros c. rewrite !lookup_fmap, fmap_is_Some, !lookup_insert_is_Some', lookup_empty. split.
    + intros [<-|[<-|[]%is_Some_None]]; set_solver.
    + set_solver.
  - set_solver.
  - set_solver.
  - set_solver.
  - set_solver.
  - by eexists.
  - set_solver.
  - intros c p Hc. by rewrite lookup_empty in Hc.
  - intros p t. rewrite lookup_fmap. intros (t0 & Ht & ->)%fmap_Some. which_obj Ht; cbn;
      (split; [set_solver|split; [by eexists|]]; intros id; split; [by destruct id|apply clamp_none_wf]).
  - intros a g id. rewrite lookup_fmap. intros (g0 & Hg & ->)%fmap_Some. which_obj Hg. apply clamp_none_wf.
  - apply clamp_none_wf.
Qed.

(** Nothing refers to init_mm but its users. *)
Lemma machine_boot_lazy : lazy_boot 1 machine_boot.
Proof.
  exists (task0 <| ts_active_mm := 60 |>). split; [done|split; [done|split; [done|]]].
  match goal with |- boot_inv _ ?x => assert (Et : m_tasks x = <[1 := task0]> (<[2 := task0]> ∅)) by (vm_compute; reflexivity);
    assert (Er : m_rqs x = <[0 := rq_zero]> (<[1 := rq_zero]> ∅)) by done;
    assert (Em : m_mms x = <[60 := Mk_mm 2 1]> ∅) by done; assert (Ei : m_init_mm x = 60) by done;
    generalize dependent x; intros m Et Er Em Ei end.
  assert (Hrefs : forall a, a <> NULL -> mm_refs NULL m a = 0).
  { intros a Ha. unfold mm_refs, NULL in *. rewrite Et, Er. apply Z.eqb_neq in Ha. rewrite Z.eqb_sym in Ha.
    rewrite (count_in_false (borrows a)), (count_in_false (parked a)); [by rewrite Ha| |];
      intros i x Hx; by which_obj Hx. }
  split; [split| |]; rewrite ?Et, ?Er, ?Em, ?Ei.
  - intros p t Ht Hm. by which_obj Ht.
  - intros p t Ht _. split; [done|]. by which_obj Ht.
  - intros a Ha. rewrite Hrefs by done. lia.
  - intros a x Hx Ha. rewrite Hrefs by done. by which_obj Hx.
  - eexists. split; [done|]. by vm_compute.
  - intros p t Ht. by which_obj Ht.
  - intros c q Hq. by which_obj Hq.
Qed.

Lemma boot_establishes_sched_ok_witness :
  wp (boot 1 [(2, 1)]) (fun _ m' => sched_ok m' /\ all_in_force m') machine_boot.
Proof.
  apply (boot_establishes_sched_ok 1 [(2, 1)] machine_boot). constructor.
  - apply machine_boot_ok.
  - reflexivity.
  - intros t [= <-]. vm_compute. split; [discriminate|reflexivity].
  - apply machine_boot_lazy.
  - intros q Hq. apply list_elem_of_singleton in Hq as ->. by eexists.
  - apply (bool_decide_unpack _). vm_compute. exact I.
  - apply (bool_decide_unpack _). vm_compute. exact I.
  - cbn. set_solver.
Defined.

(** The idle tasks run, the boot CPU no longer pushes its tasks away. *)
Example boots :
  match boot 1 [(2, 1)] machine_boot with
  | Ret _ m => ((fun q => (rq_cpu q, rq_curr q, rq_idle q, rq_balance_callback q)) <$> m_rqs m !! 0,
                (fun q => (rq_cpu q, rq_curr q, rq_idle q, rq_balance_callback q)) <$> m_rqs m !! 1,
                (fun c => cr_core c) <$> sm_rqs (m_smt m) !! 1, mm_count <$> m_mms m !! 60)
  | Stuck _ => (None, None, None, None)
  end = (Some (0, 1, 1, []), Some (1, 2, 2, [balance_push_cb]), Some 1, Some 3).
Proof. vm_compute. reflexivity. Qed.
End BootDemo.
