(* ===== verification/SchedMisc.v ===== *)
(** Smaller services of core.c: waiting until a task is off its CPU
    (wait_task_inactive()), the stop task of a CPU, attaching a task to a cpuset,
    the static keys for NUMA balancing and scheduler statistics, lock breaking,
    I/O waits, and the checks of CONFIG_DEBUG_ATOMIC_SLEEP. *)
From S2P Require Import Prelude Headers Proc Kernel Extern RqClock Uclamp Prio Affinity.
From S2P Require Import Migrate.
From S2P Require Import SchedOK PrioProofs Schedule Setscheduler SchedSyscalls WakeSample SetschedSample Sample.

(** * Static keys that are set by sysctl files and boot parameters *)
Module Keys.
Record keys : Type := Mk_keys { sched_numa_balancing : bool; sched_schedstats : bool }.

Definition set_numabalancing_state (enabled : bool) (k : keys) : keys := Mk_keys enabled (sched_schedstats k).
Definition set_schedstats (enabled : bool) (k : keys) : keys := Mk_keys (sched_numa_balancing k) enabled.
Definition force_schedstat_enabled (k : keys) : keys := if sched_schedstats k then k else set_schedstats true k.

(** [capable] is capable(CAP_SYS_ADMIN); [proc_dointvec_minmax] gets the state and,
    when it is a write, returns the new one. *)
Definition sysctl_key (get : keys -> bool) (set : bool -> keys -> keys) (capable : bool)
  (proc_dointvec_minmax : bool -> Z -> cres Z) (write : bool) (k : keys) : cres unit * keys :=
  let state := b2z (get k) in
  if (write && negb capable)%bool then (Err EPERM, k)
  else match proc_dointvec_minmax write state with
       | Err e => (Err e, k)
       | Ok state' => (Ok tt, if write then set (truthy state') k else k)
       end.

Definition sysctl_numa_balancing := sysctl_key sched_numa_balancing set_numabalancing_state.
Definition sysctl_schedstats := sysctl_key sched_schedstats set_schedstats.

Definition setup_schedstats (str : option string) (k : keys) : Z * keys :=
  match str with
  | None => (0, k)
  | Some s => if String.eqb s "enable" then (1, set_schedstats true k)
              else if String.eqb s "disable" then (1, set_schedstats false k) else (0, k)
  end.

(** Only a privileged write of a valid number changes a key, and each file only
    its own. *)
Lemma sysctl_keys_guarded capable proc write k r k' :
  (sysctl_numa_balancing capable proc write k = (r, k') ->
    sched_schedstats k' = sched_schedstats k /\
    (k' <> k -> write = true /\ capable = true /\ r = Ok tt /\
      exists v, proc true (b2z (sched_numa_balancing k)) = Ok v /\ sched_numa_balancing k' = truthy v)) /\
  (sysctl_schedstats capable proc write k = (r, k') ->
    sched_numa_balancing k' = sched_numa_balancing k /\
    (k' <> k -> write = true /\ capable = true /\ r = Ok tt /\
      exists v, proc true (b2z (sched_schedstats k)) = Ok v /\ sched_schedstats k' = truthy v)).
Proof.
  unfold sysctl_numa_balancing, sysctl_schedstats, sysctl_key.
  split; destruct write, capable; cbn; intros E; destruct (proc _ _) as [v|e] eqn:Ep; simplify_eq/=; try done;
    (split; [done|]; intros _; eauto 6).
Qed.
End Keys.

(** * Waiting for a task to leave its CPU *)
Section Waiting.
Context {H : Headers} {X : Extern} {Mg : MigrateExtern} {Sx : SetschedExtern}.

(** task_running() of kernel/sched/sched.h; [relax] is whatever the rest of the
    system does while this one spins or sleeps. *)
Context (task_running : Z -> Z -> machine -> bool) (relax : K unit).

Definition LONG_MIN : Z := 2 ^ 63.

(** The loop of wait_task_inactive(), at the test of its inner loop; [None] when it
    is still waiting after [fuel] rounds. *)
Fixpoint wait_loop (fuel : nat) (p match_state rq : Z) : K (option Z) :=
  m ← get_state;
  t ← deref (R := task_struct) p;
  if task_running rq p m then
    if (truthy match_state && negb (ts_state t =? match_state))%bool then mret (Some 0)
    else match fuel with O => mret None | S fuel => relax ;; wait_loop fuel p match_state rq end
  else
    let running := task_running (ts_cpu t) p m in
    let queued := task_on_rq_queued t in
    let ncsw := if (negb (truthy match_state) || (ts_state t =? match_state))%bool
                then u64 (Z.lor (ts_nvcsw t) LONG_MIN) else 0 in
    if negb (truthy ncsw) then mret (Some 0)
    else if (running || queued)%bool then
      match fuel with O => mret None | S fuel => relax ;; rq ← p ⇝ ts_cpu; wait_loop fuel p match_state rq end
    else mret (Some ncsw).

Definition wait_task_inactive (fuel : nat) (p match_state : Z) : K (option Z) :=
  rq ← p ⇝ ts_cpu; wait_loop fuel p match_state rq.

(** * The stop task of a CPU *)
Definition sched_set_stop_task (cpu stop : Z) : K unit :=
  old_stop ← cpu ⇝ rq_stop;
  when (negb (stop =? NULL))
    (sched_setscheduler_nocheck stop SCHED_FIFO (MAX_RT_PRIO - 1) ;;
     set! stop ⇝ ts_class := stop_sched_class) ;;
  set! cpu ⇝ rq_stop := stop ;;
  when (negb (old_stop =? NULL)) (set! old_stop ⇝ ts_class := rt_sched_class).

(** * Cpusets and NUMA placement; the deadline class decides for its tasks *)
Context (dl_cpuset_cpumask_can_shrink : gset Z -> gset Z -> K Z) (dl_task_can_attach : Z -> gset Z -> K (cres unit)).

Definition cpuset_cpumask_can_shrink (cur trial : gset Z) : K Z :=
  if (size cur =? 0)%nat then mret 1 else dl_cpuset_cpumask_can_shrink cur trial.

Definition task_can_attach (p : Z) (cs_cpus_allowed : gset Z) : K (cres unit) :=
  t ← deref (R := task_struct) p;
  if has_flag (ts_flags t) PF_NO_SETAFFINITY then mret (Err EINVAL)
  else
    span ← ts_cpu t ⇝ rq_span;
    if (dl_task t && bool_decide (span ∩ cs_cpus_allowed = ∅))%bool
    then dl_task_can_attach p cs_cpus_allowed else mret (Ok tt).

(** stop_one_cpu(): the function named runs on the CPU, and its result is returned. *)
Context (stop_one_cpu : Z -> string -> Z -> Z -> K (cres Z)).

Definition migrate_task_to (p target_cpu : Z) : K (cres Z) :=
  t ← deref (R := task_struct) p;
  if ts_cpu t =? target_cpu then mret (Ok 0)
  else if negb (bool_decide (target_cpu ∈ cpus_allowed t)) then mret (Err EINVAL)
  else
    emit "trace_sched_move_numa" [p; ts_cpu t; target_cpu] ;;
    stop_one_cpu (ts_cpu t) "migration_cpu_stop" p target_cpu.

(** * Back to normal: SysRq makes every user task an ordinary one

    [threads] is the list for_each_process_thread() goes through. *)
Definition normalize_rt_task (p : Z) : K unit :=
  t ← deref (R := task_struct) p;
  if has_flag (ts_flags t) PF_KTHREAD then mret tt
  else
    upd! p ⇝ ts_se := (fun s => s <| se_exec_start := 0 |>) ;;
    if (negb (dl_task t) && negb (rt_task t))%bool then
      when (task_nice t <? 0) (set_user_nice p 0)
    else
      __sched_setscheduler p (attr0 <| sa_policy := u32 SCHED_NORMAL |>) false false ;; mret tt.

Definition normalize_rt_tasks (threads : list Z) : K unit := mapM_ normalize_rt_task threads.

(** * Breaking a lock, waiting for I/O *)
Context (should_resched : Z -> K bool) (PREEMPT_LOCK_OFFSET : Z) (needbreak : Z -> K bool) (schedule_timeout : Z -> K Z).

(** The three variants, for the lock operations given by their name. *)
Definition cond_resched_lock (lockname unlockname : string) (fuel : nat) (lock : Z) : K Z :=
  resched ← should_resched PREEMPT_LOCK_OFFSET;
  nb ← needbreak lock;
  if (nb || resched)%bool then
    emit unlockname [lock] ;;
    r ← __cond_resched fuel;
    when (r =? 0) (emit "cpu_relax" []) ;;
    emit lockname [lock] ;;
    mret 1
  else mret 0.
Definition __cond_resched_lock := cond_resched_lock "spin_lock" "spin_unlock".
Definition __cond_resched_rwlock_read := cond_resched_lock "read_lock" "read_unlock".
Definition __cond_resched_rwlock_write := cond_resched_lock "write_lock" "write_unlock".

Definition io_schedule_timeout (timeout : Z) : K Z :=
  token ← io_schedule_prepare;
  ret ← schedule_timeout timeout;
  io_schedule_finish token ;;
  mret ret.

Definition io_schedule (fuel : nat) : K unit :=
  token ← io_schedule_prepare;
  schedule fuel ;;
  io_schedule_finish token.

(** * Wait channels, balancing at execve(), NUMA nodes *)
Context (__get_wchan : Z -> K Z).

Definition sched_task_on_rq (p : Z) : K bool := t ← deref (R := task_struct) p; mret (task_on_rq_queued t).

(** Only a task that is blocked has a wait channel. *)
Definition get_wchan (p : Z) : K Z :=
  current ← gets m_current;
  if ((p =? NULL) || (p =? current))%bool then mret 0
  else
    t ← deref (R := task_struct) p;
    if (negb (ts_state t =? TASK_RUNNING) && negb (ts_state t =? TASK_WAKING) && negb (truthy (ts_on_rq t)))%bool
    then __get_wchan p else mret 0.

(** The stopper of the task's CPU moves it, with the task running there until then. *)
Definition sched_exec : K unit :=
  p ← gets m_current;
  t ← deref (R := task_struct) p;
  dest_cpu ← cl_select_task_rq (ts_class t) p (ts_cpu t) WF_EXEC;
  this ← gets m_this_cpu;
  if dest_cpu =? this then mret tt
  else
    active ← gets m_cpu_active;
    if bool_decide (dest_cpu ∈ active) then
      cpu ← p ⇝ ts_cpu;
      stop_one_cpu cpu "migration_cpu_stop" p dest_cpu ;; mret tt
    else mret tt.

(** The preferred node, like the other fields of NUMA balancing, is fair.c's. *)
Definition sched_setnuma (p nid : Z) : K unit :=
  t ← deref (R := task_struct) p;
  let r := ts_cpu t in
  let queued := task_on_rq_queued t in
  running ← task_current r p;
  when queued (dequeue_task r p DEQUEUE_SAVE) ;;
  when running (put_prev_task r p) ;;
  emit "numa_preferred_nid" [p; nid] ;;
  when queued (enqueue_task r p (Z.lor ENQUEUE_RESTORE ENQUEUE_NOCLOCK)) ;;
  when running (set_next_task r p) ;;
  mret tt.
End Waiting.

(** Taking a task off its queue to set its node and putting it back changes none of
    its scheduling attributes, nor those of any other task. *)
Lemma sched_setnuma_keeps {H : Headers} {X : Extern} {HOK : HeadersOK H} {XOK : ExternOK X} {XS : ExternSafe X} p nid m t :
  kernel_ok m -> m_tasks m !! p = Some t ->
  wp (sched_setnuma p nid) (fun _ m' => kernel_ok m' /\ now_is m p t m') m.
Proof.
  intros Hok Ht. destruct (ok_tasks m Hok p t Ht) as [[q Hq] _]. unfold sched_setnuma. wp_go. unfold task_current.
  do 3 wp_step. apply wp_au_unqueue with (m := m) (u := t).
  { split; [done | by apply now_is_refl | by exists t | done]. }
  intros m1 Hau. apply wp_bind, wp_emit. apply wp_au_queue_back with (m := m) (u := t).
  { eapply au_quiet; [|exact Hau]. by apply (quiet_frame_emit "numa_preferred_nid" [p; nid] m1 tt). }
  intros m3 Hau3. apply wp_ret. split; apply Hau3.
Qed.

(** ** What wait_task_inactive() reports *)
Lemma lor_msb v : in_u64 v -> in_u64 (Z.lor v LONG_MIN) /\ 0 < Z.lor v LONG_MIN.
Proof.
  unfold in_u64, LONG_MIN. intros Hv.
  assert (Hpos : 0 < Z.lor v (2 ^ 63)).
  { assert (0 <= Z.lor v (2 ^ 63)) by (apply Z.lor_nonneg; lia).
    assert (Z.lor v (2 ^ 63) <> 0) by (intros E; apply Z.lor_eq_0_iff in E; lia). lia. }
  split; [|done]. split; [lia|].
  assert (Hlog : Z.log2 (Z.lor v (2 ^ 63)) < 64).
  { rewrite Z.log2_lor by lia. rewrite Z.log2_pow2 by lia.
    destruct (decide (v = 0)) as [->|]; [cbn; lia|]. pose proof (proj1 (Z.log2_lt_pow2 v 64 ltac:(lia)) ltac:(lia)). lia. }
  apply Z.log2_lt_pow2; lia.
Qed.

Section WaitSpec.
Context {H : Headers} {X : Extern} {Mg : MigrateExtern} {Sx : SetschedExtern}.
Context (task_running : Z -> Z -> machine -> bool) (relax : K unit) (env : machine -> machine).
Context (Hrelax : forall m, relax m = Ret tt (env m)).
Context (p match_state : Z).

(** The states the waiting task can see are those after so many rounds of the rest
    of the system. *)
Definition later (k : nat) (m : machine) : machine := Nat.iter k env m.

Definition inactive (m : machine) : Prop :=
  (forall rq, task_running rq p m = false) /\ exists t, m_tasks m !! p = Some t /\ task_on_rq_queued t = false.

Definition wait_result (fuel : nat) (m : machine) (r : option Z) (m' : machine) : Prop :=
  exists k t, (k <= fuel)%nat /\ m' = later k m /\ m_tasks m' !! p = Some t /\
  match r with
  | None => k = fuel /\ forall j, (j <= fuel)%nat -> ~ inactive (later j m)
  | Some n =>
      if n =? 0 then match_state <> 0 /\ ts_state t <> match_state
      else n = Z.lor (ts_nvcsw t) LONG_MIN /\ (match_state = 0 \/ ts_state t = match_state) /\
           task_running (ts_cpu t) p m' = false /\ task_on_rq_queued t = false
  end.

Lemma later_env k m : later k (env m) = later (S k) m.
Proof. unfold later. by rewrite Nat.iter_succ_r. Qed.

(** One more round: nothing was seen in this one. *)
Lemma wait_result_later fuel m r m' :
  wait_result fuel (env m) r m' -> ~ inactive m -> wait_result (S fuel) m r m'.
Proof.
  intros (k & t & Hk & -> & Ht & Hr) Hn. exists (S k), t. rewrite later_env in *. split; [lia|]. split; [done|]. split; [done|].
  destruct r as [n|]; [done|]. destruct Hr as [-> Hj]. split; [done|]. intros [|j] Hle; [done|].
  rewrite <- later_env. apply Hj. lia.
Qed.

Lemma wp_wait_loop fuel rq m :
  (forall k, exists t, m_tasks (later k m) !! p = Some t /\ in_u64 (ts_nvcsw t)) ->
  wp (wait_loop task_running relax fuel p match_state rq) (wait_result fuel m) m.
Proof.
  revert rq m. induction fuel as [|fuel IH]; intros rq m Hall; destruct (Hall 0%nat) as (t & Ht & Hv); cbn in Ht;
    cbn [wait_loop]; apply wp_bind, wp_get_state, wp_bind, wp_deref; exists t; (split; [done|]); cbv zeta.
  all: destruct (lor_msb _ Hv) as [Hu Hpos]; rewrite (u64_small _ Hu).
  all: assert (Hstop : forall fuel n, (if n =? 0 then match_state <> 0 /\ ts_state t <> match_state
      else n = Z.lor (ts_nvcsw t) LONG_MIN /\ (match_state = 0 \/ ts_state t = match_state) /\
           task_running (ts_cpu t) p m = false /\ task_on_rq_queued t = false) -> wait_result fuel m (Some n) m)
    by (intros f n Hn; exists 0%nat, t; split; [lia|done]).
  all: assert (Hnone : ~ inactive m -> wait_result 0 m None m)
    by (intros Hn; exists 0%nat, t; split; [lia|split; [done|split; [done|split; [done|]]]]; intros j Hj; assert (j = 0%nat) as -> by lia; done).
  all: assert (Hbit : truthy (Z.lor (ts_nvcsw t) LONG_MIN) = true) by (unfold truthy; destruct (Z.eqb_spec (Z.lor (ts_nvcsw t) LONG_MIN) 0); [lia|done]).
  all: assert (Hms : truthy match_state = negb (match_state =? 0)) by done.
  all: destruct (task_running rq p m) eqn:Hrun.
  all: try assert (Hact : ~ inactive m) by (intros [Hi _]; by rewrite Hi in Hrun).
  all: rewrite Hms; destruct (Z.eqb_spec match_state 0) as [E0|E0], (Z.eqb_spec (ts_state t) match_state) as [Es|Es]; cbn [negb andb orb];
    rewrite ?Hbit; cbn [negb].
  all: try (apply wp_ret; apply Hstop; cbn; tauto).
  all: try (apply wp_ret; by apply Hnone).
  all: try (apply wp_bind, wp_run; exists tt, (env m); split; [apply Hrelax|];
            (eapply wp_mono; [apply IH; intros k; rewrite later_env; apply (Hall (S k))|]; intros r m' Hr; by apply wait_result_later)).
  all: destruct (task_running (ts_cpu t) p m || task_on_rq_queued t)%bool eqn:Hbusy.
  all: try (apply wp_ret; apply Hstop; apply orb_false_iff in Hbusy as [? ?];
            destruct (Z.eqb_spec (Z.lor (ts_nvcsw t) LONG_MIN) 0); [lia|]; tauto).
  all: assert (Hact : ~ inactive m)
    by (intros [Hi (t' & Ht' & Hq)]; assert (t' = t) as -> by congruence; rewrite Hi, Hq in Hbusy; done).
  all: try (apply wp_ret; by apply Hnone).
  all: apply wp_bind, wp_run; exists tt, (env m); (split; [apply Hrelax|]).
  all: destruct (Hall 1%nat) as (t1 & Ht1 & _); cbn in Ht1.
  all: apply wp_bind, wp_rd; exists t1; (split; [done|]).
  all: eapply wp_mono; [apply IH; intros k; rewrite later_env; apply (Hall (S k))|]; intros r m' Hr; by apply wait_result_later.
Qed.

(** C36: wait_task_inactive() reports the truth and does return: a non-zero result is
    the number of voluntary switches with the top bit set, and the task was then
    in the state asked for, on no CPU and off the run queue; zero means that the
    task was in another state than the one asked for; and when the task is
    inactive after some number of rounds, the call returns within as many. *)
Theorem wait_task_inactive_spec fuel m :
  (forall k, exists t, m_tasks (later k m) !! p = Some t /\ in_u64 (ts_nvcsw t)) ->
  wp (wait_task_inactive task_running relax fuel p match_state) (fun r m' =>
    wait_result fuel m r m' /\ ((exists k, (k <= fuel)%nat /\ inactive (later k m)) -> r <> None)) m.
Proof.
  intros Hall. unfold wait_task_inactive. destruct (Hall 0%nat) as (t & Ht & _). cbn in Ht.
  apply wp_bind, wp_rd. exists t. split; [done|]. eapply wp_mono; [by apply wp_wait_loop|].
  intros r m' Hr. split; [done|]. intros (k & Hk & Hi) ->. destruct Hr as (? & ? & _ & _ & _ & _ & Hno). by apply (Hno k).
Qed.
End WaitSpec.

(** * Sleeping in atomic context (CONFIG_DEBUG_ATOMIC_SLEEP) *)
Module AtomicSleep.
(** What the checks look at. *)
Record ctx : Type := Mk_ctx {
  x_preempt_count : Z; x_rcu_preempt_depth : Z; x_irqs_disabled : bool; x_is_idle : bool; x_non_block_count : Z;
  x_migration_disabled : bool; x_booting : bool; x_past_running : bool; x_oops : bool;
}.
Section Checks.
Context (MIGHT_RESCHED_RCU_SHIFT HZ : Z).

Definition time_before (a b : Z) : bool := s64 (a - b) <? 0.

(** At most one report per second: [None] when there is none. *)
Definition ratelimit (jiffies prev_jiffy : Z) : option Z :=
  if (time_before jiffies (u64 (prev_jiffy + HZ)) && truthy prev_jiffy)%bool then None else Some jiffies.

Definition resched_offsets_ok (x : ctx) (offsets : Z) : bool :=
  u32 (x_preempt_count x + Z.shiftl (x_rcu_preempt_depth x) MIGHT_RESCHED_RCU_SHIFT) =? offsets.

Definition may_resched (x : ctx) (offsets : Z) : bool :=
  ((resched_offsets_ok x offsets && negb (x_irqs_disabled x) && negb (x_is_idle x) && negb (truthy (x_non_block_count x)))
   || x_booting x || x_past_running x || x_oops x)%bool.

(** Each returns whether it reports, and the time of the last report. *)
Definition report (quiet : bool) (jiffies prev_jiffy : Z) : bool * Z :=
  if quiet then (false, prev_jiffy)
  else match ratelimit jiffies prev_jiffy with Some j => (true, j) | None => (false, prev_jiffy) end.

Definition __might_resched (x : ctx) (offsets jiffies prev_jiffy : Z) : bool * Z :=
  report (may_resched x offsets) jiffies prev_jiffy.
Definition __cant_sleep (x : ctx) (preempt_offset jiffies prev_jiffy : Z) : bool * Z :=
  report (x_irqs_disabled x || (preempt_offset <? x_preempt_count x)) jiffies prev_jiffy.
Definition __cant_migrate (x : ctx) (jiffies prev_jiffy : Z) : bool * Z :=
  report (x_irqs_disabled x || x_migration_disabled x || (0 <? x_preempt_count x)) jiffies prev_jiffy.

(** __might_sleep() also warns when the state would be lost; [once] tells whether
    WARN_ONCE() has warned before. *)
Definition __might_sleep (x : ctx) (state task_state_change : Z) (once : bool) (jiffies prev_jiffy : Z) : bool * bool * Z :=
  let warn := (negb (state =? 0) && truthy task_state_change && negb once)%bool in
  let '(r, prev) := __might_resched x 0 jiffies prev_jiffy in (warn, r, prev).

Context (HHZ : 0 < HZ < 2 ^ 62).

(** Reports are exact up to the rate limit: one is made only in a context in which
    sleeping is a mistake, and two reports are at least HZ ticks apart, also
    across a wrap of the tick counter (within half its range). *)
Lemma might_resched_exact x offsets jiffies prev r prev' :
  in_u64 prev -> in_u64 jiffies -> u64 (jiffies - prev) < 2 ^ 62 ->
  __might_resched x offsets jiffies prev = (r, prev') ->
  (r = true -> may_resched x offsets = false /\ prev' = jiffies /\ (prev <> 0 -> HZ <= u64 (jiffies - prev))) /\
  (r = false -> prev' = prev /\ (may_resched x offsets = true \/ (prev <> 0 /\ u64 (jiffies - prev) < HZ))).
Proof.
  intros Hp Hj Hd. unfold __might_resched, report, ratelimit. destruct (may_resched x offsets); [intros [= <- <-]; split; [done|auto]|].
  assert (E : time_before jiffies (u64 (prev + HZ)) = (u64 (jiffies - prev) <? HZ)).
  { unfold time_before. set (d := u64 (jiffies - prev)) in *.
    assert (Es : s64 (jiffies - u64 (prev + HZ)) = s64 (d - HZ)).
    { unfold s64, d, u64. f_equal. rewrite <- (Zplus_mod_idemp_l (jiffies - _)), <- (Zplus_mod_idemp_l (_ - HZ)).
      rewrite Zminus_mod_idemp_r, Zminus_mod_idemp_l. f_equal. f_equal. f_equal. lia. }
    rewrite Es. assert (0 <= d) by apply u64_range. rewrite (s64_small (d - HZ)) by (unfold in_s64; lia).
    destruct (Z.ltb_spec (d - HZ) 0), (Z.ltb_spec d HZ); lia || done. }
  rewrite E. unfold truthy.
  destruct (Z.ltb_spec (u64 (jiffies - prev)) HZ), (Z.eqb_spec prev 0); cbn; intros [= <- <-]; split; intros; auto; try done; repeat split; auto; lia.
Qed.
End Checks.
End AtomicSleep.

(** ** An example: task 12 waits for its CPU; meanwhile it goes to sleep *)
Module WaitDemo.
#[local] Existing Instance linux_headers.
#[local] Existing Instance Demo.extern.

Definition on_cpu (_ p : Z) (m : machine) : bool :=
  match m_tasks m !! p with Some t => truthy (ts_on_cpu t) | None => false end.
Definition sleeps (m : machine) : machine := m <| m_tasks := alter (fun t => t <| ts_on_rq := 0 |>) 12 (m_tasks m) |>.

Lemma sleeps_task m t : m_tasks m !! 12 = Some t -> m_tasks (sleeps m) !! 12 = Some (t <| ts_on_rq := 0 |>).
Proof. intros Ht. unfold sleeps; cbn. by rewrite lookup_alter_eq, Ht. Qed.

Lemma wait_task_inactive_spec_witness :
  wp (wait_task_inactive on_cpu (modify sleeps) 1 12 0) (fun r m' =>
    wait_result on_cpu sleeps 12 0 1 machine0 r m' /\ r <> None) machine0.
Proof.
  assert (Hall : forall k, exists t, m_tasks (later sleeps k machine0) !! 12 = Some t /\ in_u64 (ts_nvcsw t)).
  { intros [|k]; [eexists; split; [reflexivity|vm_compute; split; [discriminate|reflexivity]]|].
    exists ((user_task 12) <| ts_on_rq := 0 |>). split; [|vm_compute; split; [discriminate|reflexivity]].
    induction k as [|k IH]; [reflexivity|]. change (later sleeps (S (S k)) machine0) with (sleeps (later sleeps (S k) machine0)).
    by rewrite (sleeps_task _ _ IH). }
  eapply wp_mono; [apply (wait_task_inactive_spec on_cpu (modify sleeps) sleeps (fun _ => eq_refl) 12 0 1 machine0 Hall)|].
  intros r m' [Hr Ht]. split; [done|]. apply Ht. exists 1%nat. split; [lia|].
  split; [intros rq; vm_compute; reflexivity|]. eexists. split; [reflexivity|]. vm_compute. reflexivity.
Defined.
End WaitDemo.
