(* ===== verification/TaskState.v ===== *)
(** The state words of a task (Project 2/sched.h): the state that is saved while a
    task waits for a sleeping lock of PREEMPT_RT, with the matching rule of
    try_to_wake_up() (core.c), the letter under which a state is reported, the
    per-process flags, and the bookkeeping of restartable sequences. *)
From Stdlib Require Import Ascii.
From S2P Require Import Prelude Headers.

(** * Waiting for a sleeping lock on PREEMPT_RT *)
Module RtLock.

(** p->__state and p->saved_state. *)
Record states : Type := Mk_states { st_state : Z; st_saved : Z }.

Definition __set_current_state (v : Z) (s : states) : states := Mk_states v (st_saved s).
Definition current_save_and_set_rtlock_wait_state (s : states) : states := Mk_states TASK_RTLOCK_WAIT (st_state s).
Definition current_restore_rtlock_saved_state (s : states) : states := Mk_states (st_saved s) TASK_RUNNING.

(** ttwu_state_match() with CONFIG_PREEMPT_RT: (match, success) and the new states. *)
Definition ttwu_state_match (state : Z) (s : states) : bool * bool * states :=
  if has_flag (st_state s) state then (true, true, s)
  else if has_flag (st_saved s) state then (false, true, Mk_states (st_state s) TASK_RUNNING)
  else (false, false, s).

(** A wake-up: a task that matches becomes runnable. *)
Definition wake (state : Z) (s : states) : bool * states :=
  let '(m, success, s) := ttwu_state_match state s in
  (success, if (m : bool) then __set_current_state TASK_RUNNING s else s).

(** What happens to the task: its own steps and wake-ups.  [Lock] starts to wait
    for a lock, [Again] is the next round of the loop, [Unlock] ends it; a regular
    wake-up never has the bit of lock wake-ups. *)
Inductive op : Type :=
  | Set_state (v : Z)        (* set_current_state(), by the task itself *)
  | Lock | Again | Unlock
  | Wake (state : Z)         (* a regular wake-up *)
  | Lock_wake.               (* the wake-up by the owner of the lock *)

Definition run_op (o : op) (s : states) : option bool * states :=
  match o with
  | Set_state v => (None, __set_current_state v s)
  | Lock => (None, current_save_and_set_rtlock_wait_state s)
  | Again => (None, __set_current_state TASK_RTLOCK_WAIT s)
  | Unlock => (None, current_restore_rtlock_saved_state s)
  | Wake state => let '(b, s) := wake state s in (Some b, s)
  | Lock_wake => let '(_, s) := wake TASK_RTLOCK_WAIT s in (None, s)
  end.

Fixpoint run_ops (os : list op) (s : states) : list (option bool) * states :=
  match os with
  | [] => ([], s)
  | o :: os => let '(r, s) := run_op o s in let '(rs, s) := run_ops os s in (r :: rs, s)
  end.

(** The specification: there are no locks, a task has one state. *)
Definition spec_op (o : op) (a : Z) : option bool * Z :=
  match o with
  | Set_state v => (None, v)
  | Wake state => if has_flag a state then (Some true, TASK_RUNNING) else (Some false, a)
  | _ => (None, a)
  end.
Fixpoint spec_ops (os : list op) (a : Z) : list (option bool) * Z :=
  match os with
  | [] => ([], a)
  | o :: os => let '(r, a) := spec_op o a in let '(rs, a) := spec_ops os a in (r :: rs, a)
  end.

(** Programs that use the operations as the locks do: [waiting] tells whether the
    task waits for a lock. *)
Definition regular (state : Z) : Prop := Z.land state TASK_RTLOCK_WAIT = 0.
Fixpoint proper (waiting : bool) (os : list op) : Prop :=
  match os with
  | [] => waiting = false
  | Set_state v :: os => waiting = false /\ regular v /\ proper false os
  | Lock :: os => waiting = false /\ proper true os
  | Again :: os => waiting = true /\ proper true os
  | Unlock :: os => waiting = true /\ proper false os
  | Wake state :: os => regular state /\ proper waiting os
  | Lock_wake :: os => proper waiting os
  end.

(** The state of the specification is in __state, or saved. *)
Definition shows (waiting : bool) (a : Z) (s : states) : Prop :=
  regular a /\
  if waiting then st_saved s = a /\ (st_state s = TASK_RTLOCK_WAIT \/ st_state s = TASK_RUNNING)
  else st_state s = a /\ st_saved s = TASK_RUNNING.

Lemma no_state_flags x : has_flag 0 x = false.
Proof. done. Qed.
Lemma regular_no_flag v : regular v -> has_flag v TASK_RTLOCK_WAIT = false /\ has_flag TASK_RTLOCK_WAIT v = false.
Proof. unfold regular, has_flag. intros E. split; [by rewrite E|by rewrite Z.land_comm, E]. Qed.

Lemma op_refines waiting o os a s : shows waiting a s -> proper waiting (o :: os) ->
  exists waiting', proper waiting' os /\ (run_op o s).1 = (spec_op o a).1 /\ shows waiting' (spec_op o a).2 (run_op o s).2.
Proof.
  intros [Ha Hs] Hp. destruct s as [st sv]. cbn in Hs.
  destruct o as [v| | | |state|]; cbn in Hp.
  - destruct Hp as (-> & Hv & Hp). exists false. destruct Hs as [-> ->]. done.
  - destruct Hp as [-> Hp]. exists true. destruct Hs as [-> ->]. split; [done|split; [done|]]. split; [done|]. cbn. auto.
  - destruct Hp as [-> Hp]. exists true. split; [done|split; [done|]]. split; [done|]. cbn. destruct Hs. auto.
  - destruct Hp as [-> Hp]. exists false. destruct Hs as [-> _]. done.
  - destruct Hp as [Hr Hp]. destruct (regular_no_flag _ Hr) as [_ Hw]. exists waiting. split; [done|].
    unfold run_op, wake, ttwu_state_match, spec_op. cbn [st_state st_saved].
    destruct waiting.
    + destruct Hs as [-> Hst]. assert (has_flag st state = false) as -> by (destruct Hst as [-> | ->]; [done|apply no_state_flags]).
      destruct (has_flag a state); (split; [done|]); split; cbn; auto; done.
    + destruct Hs as [-> ->]. unfold TASK_RUNNING at 1. rewrite no_state_flags.
      destruct (has_flag a state); (split; [done|]); split; cbn; auto; done.
  - exists waiting. split; [done|]. unfold run_op, wake, ttwu_state_match, spec_op. cbn [st_state st_saved].
    destruct (regular_no_flag _ Ha) as [Hf _]. destruct waiting.
    + destruct Hs as [-> [-> | ->]].
      * change (has_flag TASK_RTLOCK_WAIT TASK_RTLOCK_WAIT) with true. split; [done|]. split; [done|]. cbn. auto.
      * change (has_flag TASK_RUNNING TASK_RTLOCK_WAIT) with false. rewrite Hf. split; [done|]. split; [done|]. cbn. auto.
    + destruct Hs as [-> ->]. rewrite Hf. change (has_flag TASK_RUNNING TASK_RTLOCK_WAIT) with false. done.
Qed.

(** C35: Waiting for a sleeping lock is invisible to the task and to its regular
    wakers: for every interleaving of state changes, waits for locks, lock
    wake-ups and regular wake-ups, each regular wake-up reports success exactly
    when it would have without any lock, and when no lock is waited for any more
    the task is in the state it would have had; in particular a wake-up that
    arrives while the task waits for a lock is not lost. *)
Theorem rtlock_wait_transparent os a :
  regular a -> proper false os ->
  (run_ops os (Mk_states a TASK_RUNNING)).1 = (spec_ops os a).1 /\
  (run_ops os (Mk_states a TASK_RUNNING)).2 = Mk_states (spec_ops os a).2 TASK_RUNNING.
Proof.
  intros Ha Hp. assert (Hs : shows false a (Mk_states a TASK_RUNNING)) by done.
  revert Hs Hp. generalize (Mk_states a TASK_RUNNING) as s. generalize false as waiting. clear Ha.
  revert a. induction os as [|o os IH]; intros a waiting s Hs Hp.
  - cbn in *. subst waiting. destruct Hs as [_ [E1 E2]]. destruct s. cbn in *. by subst.
  - destruct (op_refines waiting o os a s Hs Hp) as (w & Hp' & E1 & Hs').
    cbn. destruct (run_op o s) as [r s1], (spec_op o a) as [r' a1]. cbn in E1, Hs'. subst r'.
    destruct (IH a1 w s1 Hs' Hp') as [E2 E3].
    destruct (run_ops os s1), (spec_ops os a1). cbn in *. by subst.
Qed.

(** A wake-up during the wait: the task is runnable after the lock is taken. *)
Definition woken_in_wait : list op :=
  [Set_state TASK_INTERRUPTIBLE; Lock; Wake TASK_NORMAL; Lock_wake; Again; Wake TASK_NORMAL; Lock_wake; Unlock].
Lemma rtlock_wait_transparent_witness :
  regular TASK_RUNNING /\ proper false woken_in_wait /\
  (run_ops woken_in_wait (Mk_states TASK_RUNNING TASK_RUNNING)).1 = (spec_ops woken_in_wait TASK_RUNNING).1 /\
  (run_ops woken_in_wait (Mk_states TASK_RUNNING TASK_RUNNING)).2 = Mk_states (spec_ops woken_in_wait TASK_RUNNING).2 TASK_RUNNING.
Proof.
  assert (Hp : proper false woken_in_wait) by (cbn; repeat split).
  split; [reflexivity|split; [exact Hp|]]. exact (rtlock_wait_transparent woken_in_wait TASK_RUNNING eq_refl Hp).
Defined.
End RtLock.

(** * The letter of a state *)
Module Report.
Definition TASK_REPORT_IDLE : Z := TASK_REPORT + 1.
Definition TASK_REPORT_MAX : Z := Z.shiftl TASK_REPORT_IDLE 1.

(** fls(): the position of the highest bit, from 1; 0 for 0. *)
Definition fls (x : Z) : Z := if x =? 0 then 0 else Z.log2 x + 1.

Definition task_state_index (tsk_state exit_state : Z) : Z :=
  let state := Z.land (Z.lor tsk_state exit_state) TASK_REPORT in
  let state := if tsk_state =? TASK_IDLE then TASK_REPORT_IDLE else state in
  let state := if tsk_state =? TASK_RTLOCK_WAIT then TASK_UNINTERRUPTIBLE else state in
  fls state.

Definition state_char : string := "RSDTtXZPI".
Definition task_index_to_char (state : Z) : option Ascii.ascii :=
  if state <? 0 then None else String.get (Z.to_nat state) state_char.
Definition task_state_to_char (tsk_state exit_state : Z) : option Ascii.ascii :=
  task_index_to_char (task_state_index tsk_state exit_state).

(** The letter for each index the table has. *)
Definition letters : list (Z * Ascii.ascii) :=
  [(0, "R"%char); (1, "S"%char); (2, "D"%char); (3, "T"%char); (4, "t"%char); (5, "X"%char); (6, "Z"%char); (7, "P"%char); (8, "I"%char)].

Lemma report_range x : 0 <= Z.land x TASK_REPORT <= 127.
Proof.
  change TASK_REPORT with (Z.ones 7). rewrite Z.land_ones by lia. pose proof (Z.mod_pos_bound x (2 ^ 7)). lia.
Qed.

Lemma fls_range x : 0 <= x <= 128 -> 0 <= fls x <= 8 /\ (x <= 127 -> fls x <= 7).
Proof.
  intros Hx. unfold fls. destruct (Z.eqb_spec x 0); [lia|].
  pose proof (Z.log2_nonneg x). pose proof (Z.log2_le_mono x 128 ltac:(lia)). change (Z.log2 128) with 7 in *.
  split; [lia|]. intros H7. pose proof (Z.log2_le_mono x 127 ltac:(lia)). change (Z.log2 127) with 6 in *. lia.
Qed.

(** Whatever the two state words hold, the index of the state is inside the
    table of letters, so a letter is always found; the letter is I for an idle
    kernel task, D for a task that waits for a sleeping lock, and otherwise the
    one of the highest state bit that is reported, R when there is none. *)
Theorem task_state_to_char_total tsk_state exit_state :
  0 <= task_state_index tsk_state exit_state < Z.of_nat (String.length state_char) /\
  exists c, task_state_to_char tsk_state exit_state = Some c /\
    (task_state_index tsk_state exit_state, c) ∈ letters /\
    (tsk_state = TASK_IDLE -> c = "I"%char) /\ (tsk_state = TASK_RTLOCK_WAIT -> c = "D"%char) /\
    (Z.land (Z.lor tsk_state exit_state) TASK_REPORT = 0 -> tsk_state <> TASK_RTLOCK_WAIT -> c = "R"%char).
Proof.
  assert (Hr : 0 <= task_state_index tsk_state exit_state <= 8).
  { unfold task_state_index. pose proof (report_range (Z.lor tsk_state exit_state)).
    destruct (tsk_state =? TASK_RTLOCK_WAIT), (tsk_state =? TASK_IDLE); apply fls_range;
      unfold TASK_REPORT_IDLE; change TASK_REPORT with 127 in *; change TASK_UNINTERRUPTIBLE with 2; lia. }
  split; [change (Z.of_nat (String.length state_char)) with 9; lia|].
  assert (Hl : exists c, task_index_to_char (task_state_index tsk_state exit_state) = Some c /\
    (task_state_index tsk_state exit_state, c) ∈ letters).
  { generalize dependent (task_state_index tsk_state exit_state). intros i Hi.
    assert (Hc : i = 0 \/ i = 1 \/ i = 2 \/ i = 3 \/ i = 4 \/ i = 5 \/ i = 6 \/ i = 7 \/ i = 8) by lia.
    repeat destruct Hc as [-> | Hc]; [..|rewrite Hc]; (eexists; split; [reflexivity|apply (bool_decide_unpack _); vm_compute; exact I]). }
  destruct Hl as (c & Hc & Hin). exists c. split; [exact Hc|split; [exact Hin|]].
  unfold task_state_index in Hc. repeat split.
  - intros ->. change (TASK_IDLE =? TASK_IDLE) with true in Hc. change (TASK_IDLE =? TASK_RTLOCK_WAIT) with false in Hc.
    vm_compute in Hc. by simplify_eq.
  - intros ->. change (TASK_RTLOCK_WAIT =? TASK_RTLOCK_WAIT) with true in Hc. cbv zeta iota in Hc. vm_compute in Hc. by simplify_eq.
  - intros E Hn. destruct (Z.eqb_spec tsk_state TASK_RTLOCK_WAIT); [done|]. destruct (Z.eqb_spec tsk_state TASK_IDLE) as [->|].
    + exfalso. change TASK_IDLE with 1026 in E. change TASK_REPORT with 127 in E.
      apply (f_equal (fun z => Z.testbit z 1)) in E. rewrite Z.land_spec, Z.lor_spec in E. cbn in E. done.
    + rewrite E in Hc. vm_compute in Hc. by simplify_eq.
Qed.
End Report.

(** * Per-process flags *)
Module Pfa.
Definition PFA_NO_NEW_PRIVS : Z := 0.
Definition PFA_SPREAD_PAGE : Z := 1.
Definition PFA_SPREAD_SLAB : Z := 2.
Definition PFA_SPEC_SSB_DISABLE : Z := 3.
Definition PFA_SPEC_SSB_FORCE_DISABLE : Z := 4.
Definition PFA_SPEC_IB_DISABLE : Z := 5.
Definition PFA_SPEC_IB_FORCE_DISABLE : Z := 6.
Definition PFA_SPEC_SSB_NOEXEC : Z := 7.

Definition TASK_PFA_TEST (flag atomic_flags : Z) : bool := Z.testbit atomic_flags flag.
Definition TASK_PFA_SET (flag atomic_flags : Z) : Z := Z.setbit atomic_flags flag.
Definition TASK_PFA_CLEAR (flag atomic_flags : Z) : Z := Z.clearbit atomic_flags flag.

(** The functions the header declares with these macros. *)
Inductive pfa_op : Type :=
  | set_no_new_privs
  | set_spread_page | clear_spread_page
  | set_spread_slab | clear_spread_slab
  | set_spec_ssb_disable | clear_spec_ssb_disable
  | set_spec_ssb_noexec | clear_spec_ssb_noexec
  | set_spec_ssb_force_disable
  | set_spec_ib_disable | clear_spec_ib_disable
  | set_spec_ib_force_disable.

Definition run_pfa (o : pfa_op) (f : Z) : Z :=
  match o with
  | set_no_new_privs => TASK_PFA_SET PFA_NO_NEW_PRIVS f
  | set_spread_page => TASK_PFA_SET PFA_SPREAD_PAGE f
  | clear_spread_page => TASK_PFA_CLEAR PFA_SPREAD_PAGE f
  | set_spread_slab => TASK_PFA_SET PFA_SPREAD_SLAB f
  | clear_spread_slab => TASK_PFA_CLEAR PFA_SPREAD_SLAB f
  | set_spec_ssb_disable => TASK_PFA_SET PFA_SPEC_SSB_DISABLE f
  | clear_spec_ssb_disable => TASK_PFA_CLEAR PFA_SPEC_SSB_DISABLE f
  | set_spec_ssb_noexec => TASK_PFA_SET PFA_SPEC_SSB_NOEXEC f
  | clear_spec_ssb_noexec => TASK_PFA_CLEAR PFA_SPEC_SSB_NOEXEC f
  | set_spec_ssb_force_disable => TASK_PFA_SET PFA_SPEC_SSB_FORCE_DISABLE f
  | set_spec_ib_disable => TASK_PFA_SET PFA_SPEC_IB_DISABLE f
  | clear_spec_ib_disable => TASK_PFA_CLEAR PFA_SPEC_IB_DISABLE f
  | set_spec_ib_force_disable => TASK_PFA_SET PFA_SPEC_IB_FORCE_DISABLE f
  end.

(** The restrictions a process can never shed. *)
Definition permanent (flag : Z) : Prop :=
  flag = PFA_NO_NEW_PRIVS \/ flag = PFA_SPEC_SSB_FORCE_DISABLE \/ flag = PFA_SPEC_IB_FORCE_DISABLE.

Lemma permanent_flags os flag f : permanent flag -> TASK_PFA_TEST flag f = true ->
  TASK_PFA_TEST flag (fold_left (fun f o => run_pfa o f) os f) = true.
Proof.
  intros Hp. revert f. induction os as [|o os IH]; intros f Hf; [done|]. cbn. apply IH.
  unfold TASK_PFA_TEST in *.
  assert (0 <= flag) by (destruct Hp as [-> |[-> | ->]]; vm_compute; discriminate).
  destruct o; cbn; unfold TASK_PFA_SET, TASK_PFA_CLEAR;
    rewrite ?Z.setbit_eqb, ?Z.clearbit_eqb, Hf by (vm_compute; discriminate);
    rewrite ?orb_true_r; try done; destruct Hp as [-> |[-> | ->]]; done.
Qed.

(** current_restore_flags(): the flags of [mask] come back, the others stay. *)
Definition current_restore_flags (orig_flags mask flags : Z) : Z := Z.lor (Z.ldiff flags mask) (Z.land orig_flags mask).

Lemma current_restore_flags_bits orig_flags mask flags i :
  Z.testbit (current_restore_flags orig_flags mask flags) i =
  if Z.testbit mask i then Z.testbit orig_flags i else Z.testbit flags i.
Proof.
  unfold current_restore_flags. rewrite Z.lor_spec, Z.ldiff_spec, Z.land_spec.
  destruct (Z.testbit mask i); cbn; by rewrite ?andb_false_r, ?andb_true_r, ?orb_false_r.
Qed.

Definition is_percpu_thread (flags nr_cpus_allowed : Z) : bool :=
  (has_flag flags PF_NO_SETAFFINITY && (nr_cpus_allowed =? 1))%bool.
End Pfa.

(** * Restartable sequences *)
Module Rseq.
Record rseq : Type := Mk_rseq { rs_ptr : Z; rs_sig : Z; rs_event_mask : Z; rs_notify_resume : bool }.
Section Rseq.
Context (RSEQ_EVENT_PREEMPT_BIT RSEQ_EVENT_SIGNAL_BIT RSEQ_EVENT_MIGRATE_BIT CLONE_VM : Z).

Definition rseq_set_notify_resume (t : rseq) : rseq :=
  if negb (rs_ptr t =? NULL) then Mk_rseq (rs_ptr t) (rs_sig t) (rs_event_mask t) true else t.
Definition set_event (bit : Z) (t : rseq) : rseq :=
  Mk_rseq (rs_ptr t) (rs_sig t) (Z.setbit (rs_event_mask t) bit) (rs_notify_resume t).
Definition rseq_preempt (t : rseq) : rseq := rseq_set_notify_resume (set_event RSEQ_EVENT_PREEMPT_BIT t).
Definition rseq_migrate (t : rseq) : rseq := rseq_set_notify_resume (set_event RSEQ_EVENT_MIGRATE_BIT t).

(** The second component: __rseq_handle_notify_resume() is called. *)
Definition rseq_handle_notify_resume (t : rseq) : bool := negb (rs_ptr t =? NULL).
Definition rseq_signal_deliver (t : rseq) : rseq * bool :=
  let t := set_event RSEQ_EVENT_SIGNAL_BIT t in (t, rseq_handle_notify_resume t).

Definition rseq_fork (current t : rseq) (clone_flags : Z) : rseq :=
  if has_flag clone_flags CLONE_VM then Mk_rseq NULL 0 0 (rs_notify_resume t)
  else Mk_rseq (rs_ptr current) (rs_sig current) (rs_event_mask current) (rs_notify_resume t).
Definition rseq_execve (t : rseq) : rseq := Mk_rseq NULL 0 0 (rs_notify_resume t).

(** A registered task that is preempted or migrated has the event noted and is
    stopped on its way back to user space; a new process that shares the address
    space is not registered. *)
Lemma rseq_events (t current : rseq) flags :
  0 <= RSEQ_EVENT_PREEMPT_BIT -> 0 <= RSEQ_EVENT_MIGRATE_BIT -> rs_ptr t <> NULL ->
  Z.testbit (rs_event_mask (rseq_preempt t)) RSEQ_EVENT_PREEMPT_BIT = true /\ rs_notify_resume (rseq_preempt t) = true /\
  Z.testbit (rs_event_mask (rseq_migrate t)) RSEQ_EVENT_MIGRATE_BIT = true /\ rs_notify_resume (rseq_migrate t) = true /\
  (has_flag flags CLONE_VM = true -> rseq_handle_notify_resume (rseq_fork current t flags) = false).
Proof.
  intros H1 H2 Hp. unfold rseq_preempt, rseq_migrate, rseq_set_notify_resume, set_event, rseq_fork; cbn.
  destruct (Z.eqb_spec (rs_ptr t) NULL); [done|]. cbn. rewrite !Z.setbit_eq by done. repeat split. by intros ->.
Qed.
End Rseq.
End Rseq.
