(* ===== verification/ProcTree.v ===== *)
(** walk_process_tree() of fork.c: the walk over the descendants of a process.

    The C function has two labels, one of them inside the body of a nested loop
    over the threads of a process and the children of a thread; the place to go on
    after a subtree is found from the links of its root alone.  The links do not
    change during the walk, which holds the task-list lock.  [walk_step] is the
    control flow, one label per step; [visit] is the recursion over the tree of
    processes.  The visitor's result decides whether the walk enters a child (> 0),
    passes it (0) or ends (< 0). *)
From S2P Require Import Prelude TgTree.

(** The links of a task.  [tl_threads] is the list at signal->thread_head, read for
    group leaders. *)
Record task_links : Type := Mk_links {
  tl_group_leader : Z;
  tl_real_parent : Z;
  tl_threads : list Z;
  tl_children : list Z;
}.

Definition no_links : task_links := Mk_links NULL NULL [] [].

(** The code that runs next, with the variables live there. *)
Inductive proc_label : Type :=
| proc_down (leader : Z)
| proc_child (leader parent : Z) (child : option Z)
| proc_up (leader parent child : Z).

Section WalkTree.
Context {D : Type} (tasks : gmap Z task_links) (visitor : Z -> D -> Z * D).

Definition links_of (p : Z) : task_links := default no_links (tasks !! p).
Definition group_leader (p : Z) : Z := tl_group_leader (links_of p).
Definition real_parent (p : Z) : Z := tl_real_parent (links_of p).
Definition threads (p : Z) : list Z := tl_threads (links_of p).
Definition children (p : Z) : list Z := tl_children (links_of p).

(** The head of the loop over the threads, and the code after it: [None] is [out]. *)
Definition walk_threads (top leader : Z) (parent : option Z) : option proc_label :=
  match parent with
  | Some parent => Some (proc_child leader parent (head (children parent)))
  | None =>
      if leader =? top then None
      else
        let child := leader in
        let parent := real_parent child in
        Some (proc_up (group_leader parent) parent child)
  end.

Definition proc_step (top : Z) (l : proc_label) (data : D) : option proc_label * D :=
  match l with
  | proc_down leader => (walk_threads top leader (head (threads leader)), data)
  | proc_child leader parent (Some child) =>
      let '(res, data) := visitor child data in
      if negb (res =? 0) then
        if res <? 0 then (None, data) else (Some (proc_down child), data)
      else (Some (proc_up leader parent child), data)
  | proc_child leader parent None => (walk_threads top leader (list_next parent (threads leader)), data)
  | proc_up leader parent child => (Some (proc_child leader parent (list_next child (children parent))), data)
  end.

Fixpoint proc_loop (fuel : nat) (top : Z) (l : option proc_label) (data : D) : option D :=
  match l, fuel with
  | None, _ => Some data
  | Some _, O => None
  | Some l, S fuel' => let '(l', data') := proc_step top l data in proc_loop fuel' top l' data'
  end.

(** A task is entered, visited and left at most once, and its children are looked
    through once. *)
Definition walk_process_tree (top : Z) (data : D) : option D :=
  let top := group_leader top in
  proc_loop (4 * size tasks) top (Some (proc_down top)) data.
End WalkTree.

(** * The tree of processes *)
Inductive proc_tree : Type := PNode (leader : Z) (kids : list proc_tree).
Definition proc_root (t : proc_tree) : Z := match t with PNode l _ => l end.

Section ProcInd.
Context (P : proc_tree -> Prop) (HN : forall l kids, Forall P kids -> P (PNode l kids)).

Fixpoint proc_tree_rect' (t : proc_tree) : P t :=
  match t with
  | PNode l kids =>
      HN l kids ((fix go ts : Forall P ts :=
                    match ts with
                    | [] => List.Forall_nil P
                    | k :: ts' => Forall_cons_2 P k ts' (proc_tree_rect' k) (go ts')
                    end) kids)
  end.
End ProcInd.

Fixpoint procs (t : proc_tree) : list Z := match t with PNode l kids => l :: flat_map procs kids end.

Section Equivalence.
Context {D : Type} (tasks : gmap Z task_links) (visitor : Z -> D -> Z * D).
#[local] Abbreviation threads_of := (threads tasks).
#[local] Abbreviation children_of := (children tasks).

(** The threads of [l] are tasks of its group, a child's parent is the thread that
    has it, and the children of all the threads are the roots of [kids]. *)
Inductive proc_links : proc_tree -> Prop :=
| proc_links_node l kids :
    flat_map children_of (threads_of l) = map proc_root kids ->
    NoDup (threads_of l) ->
    Forall (fun t => is_Some (tasks !! t) /\ group_leader tasks t = l /\
                     Forall (fun c => real_parent tasks c = t) (children_of t)) (threads_of l) ->
    is_Some (tasks !! l) ->
    Forall proc_links kids ->
    proc_links (PNode l kids).

Record is_proc_tree (t : proc_tree) : Prop := {
  proc_tree_links : proc_links t;
  proc_tree_nodup : NoDup (procs t);
}.

(** * The reference: the recursion over the tree; [false] when the visitor ended it *)
Fixpoint visit_proc (t : proc_tree) (data : D) : bool * D :=
  match t with
  | PNode _ kids =>
      (fix go ks data :=
         match ks with
         | [] => (true, data)
         | k :: ks' =>
             let '(res, data) := visitor (proc_root k) data in
             if res <? 0 then (false, data)
             else if res =? 0 then go ks' data
             else
               let '(goon, data) := visit_proc k data in
               if goon : bool then go ks' data else (false, data)
         end) kids data
  end.

Definition visit_kids (kids : list proc_tree) (data : D) : bool * D := visit_proc (PNode NULL kids) data.

(** * Proof of the equivalence *)
Fixpoint proc_cost (t : proc_tree) : nat :=
  match t with
  | PNode l kids => S (length (threads_of l) + foldr (fun k n => S (S (proc_cost k)) + n) O kids)
  end%nat.
Definition kids_cost (kids : list proc_tree) : nat := foldr (fun k n => S (S (proc_cost k)) + n)%nat O kids.

(** After at most [c] steps from [l] the walk is where [r] says: at the end of the
    subtree of [leader], or over. *)
Definition reaches (top leader : Z) (c : nat) (l : option proc_label) (data : D) (r : bool * D) : Prop :=
  exists k, (k <= c)%nat /\ forall n,
    proc_loop tasks visitor (k + n) top l data =
    if r.1 then proc_loop tasks visitor n top (walk_threads tasks top leader None) r.2 else Some r.2.

Definition enters_proc (top : Z) (t : proc_tree) : Prop := forall data,
  proc_links t -> NoDup (procs t) -> top ∉ flat_map procs (match t with PNode _ kids => kids end) ->
  reaches top (proc_root t) (proc_cost t) (Some (proc_down (proc_root t))) data (visit_proc t data).

Lemma proc_root_in t : proc_root t ∈ procs t.
Proof. destruct t. apply list_elem_of_here. Qed.

Lemma proc_roots_in kids x : x ∈ map proc_root kids -> x ∈ flat_map procs kids.
Proof.
  induction kids as [|k kids IH]; cbn; [done|]. intros Hx. apply elem_of_app.
  apply elem_of_cons in Hx as [-> | Hx]; [left; apply proc_root_in | right; auto].
Qed.

Lemma proc_roots_nodup kids : NoDup (flat_map procs kids) -> NoDup (map proc_root kids).
Proof.
  induction kids as [|k kids IH]; cbn; intros H; [constructor|]. apply list.NoDup_app in H as (_ & Hd & H).
  constructor; [|auto]. intros Hx. apply (Hd (proc_root k)); [apply proc_root_in | by apply proc_roots_in].
Qed.

Lemma reaches_step top leader c l l' data data' r :
  proc_step tasks visitor top l data = (l', data') -> reaches top leader c l' data' r ->
  reaches top leader (S c) (Some l) data r.
Proof.
  intros E (k & Hk & H). exists (S k). split; [lia|]. intros n. cbn [Nat.add proc_loop]. rewrite E. apply H.
Qed.

Lemma reaches_goon top leader a c c' l data d r :
  reaches top a c l data (true, d) -> reaches top leader c' (walk_threads tasks top a None) d r ->
  reaches top leader (c + c') l data r.
Proof.
  intros (k & Hk & H) (k' & Hk' & H'). exists (k + k')%nat. split; [lia|]. intros n.
  rewrite <- Nat.add_assoc, H. apply H'.
Qed.

Lemma reaches_mono top leader c c' l data r :
  reaches top leader c l data r -> (c <= c')%nat -> reaches top leader c' l data r.
Proof. intros (k & Hk & H) Hc. exists k. split; [lia | done]. Qed.

Lemma reaches_here top leader c data : reaches top leader c (walk_threads tasks top leader None) data (true, data).
Proof. exists O. split; [lia | done]. Qed.

Lemma reaches_out top leader c data : reaches top leader c None data (false, data).
Proof. exists O. split; [lia|]. by intros [|n]. Qed.

Lemma visit_kids_cons k kids data :
  visit_kids (k :: kids) data =
  let '(res, data) := visitor (proc_root k) data in
  if res <? 0 then (false, data)
  else if res =? 0 then visit_kids kids data
  else let '(goon, data) := visit_proc k data in if goon : bool then visit_kids kids data else (false, data).
Proof. reflexivity. Qed.

(** What is left of the node [l] when its thread [t] has looked through [cs1]. *)
Record node_rest (top l t : Z) (ts1 ts2 cs1 cs : list Z) (kids : list proc_tree) : Prop := {
  rest_threads : threads_of l = ts1 ++ t :: ts2;
  rest_children : children_of t = cs1 ++ cs;
  rest_kids : map proc_root kids = cs ++ flat_map children_of ts2;
  rest_nodup : NoDup (threads_of l);
  rest_nodup_children : Forall (fun t => NoDup (children_of t)) (threads_of l);
  rest_facts : Forall (fun t => group_leader tasks t = l /\
                                Forall (fun c => real_parent tasks c = t) (children_of t)) (threads_of l);
  rest_links : Forall proc_links kids;
  rest_procs : NoDup (flat_map procs kids);
  rest_top : top ∉ flat_map procs kids;
}.

Lemma rest_next_thread top l t ts1 t2 ts2 cs1 kids :
  node_rest top l t ts1 (t2 :: ts2) cs1 [] kids -> node_rest top l t2 (ts1 ++ [t]) ts2 [] (children_of t2) kids.
Proof. intros []. split; try done. by rewrite <- app_assoc. Qed.

Lemma rest_next_child top l t ts1 ts2 cs1 c cs k kids :
  node_rest top l t ts1 ts2 cs1 (c :: cs) (k :: kids) ->
  node_rest top l t ts1 ts2 (cs1 ++ [c]) cs kids /\
  proc_root k = c /\ c <> top /\ proc_links k /\ NoDup (procs k) /\ top ∉ flat_map procs (match k with PNode _ ks => ks end) /\
  real_parent tasks c = t /\ group_leader tasks t = l /\
  list_next c (children_of t) = head cs.
Proof.
  intros [Ht Hc Hk Hn Hnc Hf Hl Hp Htop]. cbn in Hk, Hp, Htop. injection Hk as <- Hk.
  apply list.NoDup_app in Hp as (Hpk & _ & Hp). apply list.Forall_cons in Hl as [Hlk Hl].
  assert (Hin : t ∈ threads_of l) by (rewrite Ht; set_solver).
  destruct (proj1 (list.Forall_forall _ _) Hf t Hin) as [Hg Hr].
  pose proof (proj1 (list.Forall_forall _ _) Hnc t Hin) as Hnt.
  pose proof (proc_root_in k) as Hroot. split_and!; try done.
  - split; try done; [by rewrite <- app_assoc | set_solver].
  - set_solver.
  - destruct k; cbn in Htop. set_solver.
  - apply (proj1 (list.Forall_forall _ _) Hr). rewrite Hc. set_solver.
  - rewrite Hc. apply list_next_middle. by rewrite <- Hc.
Qed.

Lemma walk_kids top l t ts1 ts2 cs1 cs kids data :
  Forall (enters_proc top) kids -> node_rest top l t ts1 ts2 cs1 cs kids ->
  reaches top l (S (length ts2) + kids_cost kids) (Some (proc_child l t (head cs))) data (visit_kids kids data).
Proof.
  remember (length ts2 + length kids)%nat as n eqn:Hn. revert t ts1 ts2 cs1 cs kids data Hn.
  induction n as [n IH] using lt_wf_ind. intros t ts1 ts2 cs1 cs kids data -> HF HR.
  destruct cs as [|c cs]; cbn [head].
  - eapply reaches_step; [done|].
    assert (list_next t (threads_of l) = head ts2) as ->.
    { rewrite (rest_threads _ _ _ _ _ _ _ _ HR). apply list_next_middle. rewrite <- (rest_threads _ _ _ _ _ _ _ _ HR). apply HR. }
    destruct ts2 as [|t2 ts2]; cbn [head walk_threads].
    + pose proof (rest_kids _ _ _ _ _ _ _ _ HR) as Hk. destruct kids; [|done]. apply reaches_here.
    + eapply reaches_mono; [eapply (IH (length ts2 + length kids)%nat ltac:(cbn; lia)); [reflexivity|done|by eapply rest_next_thread]|exact (le_n _)].
  - pose proof (rest_kids _ _ _ _ _ _ _ _ HR) as Hk. destruct kids as [|k kids]; [done|]. clear Hk.
    apply rest_next_child in HR as (HR & <- & Hne & Hl & Hp & Ht & Hpar & Hgl & Hnext).
    apply list.Forall_cons in HF as [Hk HF]. rewrite visit_kids_cons.
    assert (Hrest : forall data, reaches top l (S (length ts2 + kids_cost kids) + 1) (Some (proc_up l t (proc_root k))) data (visit_kids kids data)).
    { intros d. rewrite Nat.add_comm. eapply reaches_step; [done|]. rewrite Hnext.
      eapply reaches_mono; [eapply (IH (length ts2 + length kids)%nat ltac:(cbn; lia)); [reflexivity|done|done]|lia]. }
    destruct (visitor (proc_root k) data) as [res d] eqn:Ev.
    eapply reaches_mono with (c := S (proc_cost k + (S (length ts2 + kids_cost kids) + 1))); [|change (kids_cost (k :: kids)) with (S (S (proc_cost k)) + kids_cost kids)%nat; lia].
    destruct (Z.ltb_spec res 0) as [Hneg|Hpos]; [|destruct (Z.eqb_spec res 0) as [->|Hnz]].
    + eapply reaches_step; [cbn; rewrite Ev, (proj2 (Z.eqb_neq _ _)), (proj2 (Z.ltb_lt _ _)) by lia; done|]. apply reaches_out.
    + eapply reaches_step; [cbn; rewrite Ev; done|]. eapply reaches_mono; [apply Hrest|lia].
    + eapply reaches_step; [cbn; rewrite Ev, (proj2 (Z.eqb_neq _ _)), (proj2 (Z.ltb_ge _ _)) by lia; done|].
      pose proof (Hk d Hl Hp Ht) as He. destruct (visit_proc k d) as [[] d']; [|eapply reaches_mono; [exact He | lia]].
      eapply reaches_goon; [exact He|]. cbn [walk_threads]. rewrite (proj2 (Z.eqb_neq _ _)) by done. rewrite Hpar, Hgl. apply Hrest.
Qed.
Lemma nodup_flat_map_in (f : Z -> list Z) l x : NoDup (flat_map f l) -> x ∈ l -> NoDup (f x).
Proof.
  induction l as [|y l IH]; cbn; intros H Hx; [by apply elem_of_nil in Hx|].
  apply list.NoDup_app in H as (Hy & _ & H). apply elem_of_cons in Hx as [-> | Hx]; auto.
Qed.

Lemma walk_enters_proc top t : enters_proc top t.
Proof.
  induction t as [l kids IH] using proc_tree_rect'. intros data HL Hn Htop. cbn [proc_root procs proc_cost] in *.
  inversion HL as [? ? Hk Hnt Hf Hin HLk]; subst. apply list.NoDup_cons in Hn as [_ Hn].
  change (visit_proc (PNode l kids) data) with (visit_kids kids data). eapply reaches_step; [done|].
  destruct (threads_of l) as [|t ts] eqn:Et; cbn [head walk_threads].
  - destruct kids; [apply reaches_here | done].
  - eapply reaches_mono; [eapply (walk_kids top l t [] ts [] (children_of t)); [exact IH|]|exact (le_n _)].
    split; rewrite ?Et; try done.
    + apply proc_roots_nodup in Hn. rewrite <- Hk in Hn. apply list.Forall_forall. intros x Hx. by eapply nodup_flat_map_in.
    + eapply list.Forall_impl; [exact Hf|]. by intros x (_ & ? & ?).
Qed.

(** * The bound on the number of steps *)
Lemma proc_links_threads t l : proc_links t -> l ∈ procs t ->
  is_Some (tasks !! l) /\ NoDup (threads_of l) /\
  Forall (fun x => is_Some (tasks !! x) /\ group_leader tasks x = l) (threads_of l).
Proof.
  induction t as [l' kids IH] using proc_tree_rect'. inversion 1 as [? ? _ Hn Hf Hin HL]; subst. cbn.
  intros Hl. apply elem_of_cons in Hl as [-> | Hl].
  - split_and!; [done | done |]. eapply list.Forall_impl; [exact Hf|]. by intros x (? & ? & _).
  - clear -IH HL Hl. induction IH as [|k kids Hk _ IH]; cbn in Hl; [by apply elem_of_nil in Hl|].
    apply list.Forall_cons in HL as [HL HLs]. apply elem_of_app in Hl as [Hl|Hl]; auto.
Qed.

Lemma proc_cost_count t :
  (S (S (proc_cost t)) = 3 * length (procs t) + length (flat_map threads_of (procs t)))%nat.
Proof.
  induction t as [l kids IH] using proc_tree_rect'. cbn [proc_cost procs flat_map length].
  rewrite length_app. induction IH as [|k kids Hk _ IH]; cbn [foldr flat_map length] in *; [lia|].
  rewrite flat_map_app, !length_app. lia.
Qed.

Lemma nodup_size (l : list Z) : NoDup l -> Forall (fun x => is_Some (tasks !! x)) l -> (length l <= size tasks)%nat.
Proof.
  intros Hn HF. rewrite <- size_dom, <- (size_list_to_set (C := gset Z) l) by done.
  apply subseteq_size. intros x Hx. apply elem_of_list_to_set in Hx. apply elem_of_dom.
  by apply (proj1 (list.Forall_forall _ _) HF).
Qed.

Lemma nodup_threads (ls : list Z) :
  NoDup ls ->
  Forall (fun l => NoDup (threads_of l) /\ Forall (fun x => is_Some (tasks !! x) /\ group_leader tasks x = l) (threads_of l)) ls ->
  NoDup (flat_map threads_of ls).
Proof.
  intros Hn HF. induction HF as [|l ls [Hl Hg] HF IH]; cbn; [constructor|].
  apply list.NoDup_cons in Hn as [Hx Hn]. apply list.NoDup_app. split_and!; [done | | auto].
  intros x Hxl Hxs. apply Hx. apply (proj1 (list.Forall_forall _ _) Hg) in Hxl as [_ <-].
  apply list_elem_of_In, in_flat_map in Hxs as (l' & Hl' & Hx'). apply list_elem_of_In in Hl', Hx'.
  destruct (proj1 (list.Forall_forall _ _) HF l' Hl') as [_ Hg'].
  by apply (proj1 (list.Forall_forall _ _) Hg') in Hx' as [_ ->].
Qed.

Lemma proc_cost_bound t : is_proc_tree t -> (S (S (proc_cost t)) <= 4 * size tasks)%nat.
Proof.
  intros [HL Hn]. rewrite proc_cost_count.
  assert (HF : Forall (fun l => is_Some (tasks !! l) /\ NoDup (threads_of l) /\
    Forall (fun x => is_Some (tasks !! x) /\ group_leader tasks x = l) (threads_of l)) (procs t)).
  { apply list.Forall_forall. intros l Hl. by apply (proc_links_threads t). }
  pose proof (nodup_size (procs t) Hn) as H1. pose proof (nodup_size (flat_map threads_of (procs t))) as H2.
  cut (length (procs t) <= size tasks /\ length (flat_map threads_of (procs t)) <= size tasks)%nat; [lia|]. split.
  - apply H1. eapply list.Forall_impl; [exact HF|]. by intros x [? _].
  - apply H2.
    + apply nodup_threads; [done|]. eapply list.Forall_impl; [exact HF|]. by intros x [_ ?].
    + apply list.Forall_forall. intros x Hx. apply list_elem_of_In, in_flat_map in Hx as (l & Hl & Hx).
      apply list_elem_of_In in Hl, Hx. destruct (proj1 (list.Forall_forall _ _) HF l Hl) as (_ & _ & Hg).
      by apply (proj1 (list.Forall_forall _ _) Hg).
Qed.

(** C34: walk_process_tree() from any thread of the process at the root of a tree of
    processes returns, within the step bound, and has done the recursion over the
    tree: the visitor is called on the children of each thread in order, the
    descendants of a child are visited right after it when the visitor returns a
    positive number and passed over when it returns 0, and the first negative result
    ends the walk.  In particular the [goto] into the loops finds its way back to
    the right thread and the right sibling. *)
Theorem walk_process_tree_visits (t : proc_tree) (task : Z) (data : D)
  (Htree : is_proc_tree t) (Htask : group_leader tasks task = proc_root t) :
  walk_process_tree tasks visitor task data = Some (visit_proc t data).2.
Proof.
  pose proof (proc_cost_bound t Htree) as Hb. destruct Htree as [HL Hn].
  unfold walk_process_tree. rewrite Htask.
  destruct (walk_enters_proc (proc_root t) t data HL Hn) as (k & Hk & H).
  { destruct t as [l kids]. cbn in *. by apply list.NoDup_cons in Hn as [? _]. }
  replace (4 * size tasks)%nat with (k + (4 * size tasks - k))%nat by lia. rewrite H.
  destruct (visit_proc t data) as [[] d]; cbn [fst snd walk_threads]; [|done].
  rewrite Z.eqb_refl. by destruct (4 * size tasks - k)%nat.
Qed.
End Equivalence.

Module ProcDemo.
(** Process 1 has the threads 1 and 2; thread 1 has the children 3 and 4, thread 2
    the child 5; 3 has the thread 7, which has the child 6.  The visitor keeps a log
    and passes over the descendants of 4. *)
Definition tasks : gmap Z task_links := list_to_map [
  (1, Mk_links 1 NULL [1; 2] [3; 4]); (2, Mk_links 1 NULL [] [5]);
  (3, Mk_links 3 1 [3; 7] []); (7, Mk_links 3 1 [] [6]); (6, Mk_links 6 7 [6] []);
  (4, Mk_links 4 1 [4] [8]); (8, Mk_links 8 4 [8] []); (5, Mk_links 5 2 [5] [])].
Definition log (c : Z) (l : list Z) : Z * list Z := (if c =? 4 then 0 else 1, l ++ [c]).
Definition find (c : Z) (l : list Z) : Z * list Z := (if c =? 6 then -1 else 1, l ++ [c]).
Definition tree : proc_tree :=
  PNode 1 [PNode 3 [PNode 6 []]; PNode 4 [PNode 8 []]; PNode 5 []].

Lemma is_tree_ok : is_proc_tree tasks tree.
Proof.
  split; [|apply (bool_decide_unpack _); vm_compute; exact I].
  repeat match goal with
  | |- proc_links _ _ => constructor
  | |- Forall _ [] => constructor
  | |- Forall _ (_ :: _) => constructor
  | |- NoDup _ => apply (bool_decide_unpack _); vm_compute; exact I
  | |- _ /\ _ => split
  | |- is_Some _ => eexists; vm_compute; reflexivity
  | |- _ = _ => vm_compute; reflexivity
  | |- Forall _ _ => progress vm_compute
  | |- exists _, _ => by eexists
  end.
Qed.

Lemma walk_process_tree_visits_witness :
  walk_process_tree tasks log 2 [] = Some [3; 6; 4; 5] /\ walk_process_tree tasks find 1 [] = Some [3; 6].
Proof.
  split.
  - rewrite (walk_process_tree_visits tasks log tree 2 [] is_tree_ok eq_refl). reflexivity.
  - rewrite (walk_process_tree_visits tasks find tree 1 [] is_tree_ok eq_refl). reflexivity.
Defined.
End ProcDemo.
