(* ===== verification/Pids.v ===== *)
(** Process identifiers: the helpers of sched.h that report a task's numbers, and
    the operations of a pidfd in fork.c, with the text of its fdinfo file.

    A pid has one number per namespace from the initial one down to its own
    (kernel/pid.c, outside the repository); looking a number up in a namespace is a
    parameter. *)
From Stdlib Require Import Ascii String.
From S2P Require Import Prelude Headers Kernel Text.

#[local] Open Scope string_scope.
#[local] Open Scope Z_scope.

Inductive pid_type : Type := PIDTYPE_PID | PIDTYPE_TGID | PIDTYPE_PGID | PIDTYPE_SID.

(** * The numbers of a task *)
Module TaskPid.
Record ptask : Type := Mk_ptask {
  pt_pid : Z; pt_tgid : Z; pt_thread_pid : Z; pt_real_parent : Z;
}.

Section TaskPid.
Context (tasks : gmap Z ptask) (__task_pid_nr_ns : Z -> pid_type -> Z -> Z) (init_pid_ns : Z).
Definition task_of (p : Z) : ptask := default (Mk_ptask 0 0 NULL NULL) (tasks !! p).

Definition task_pid (p : Z) : Z := pt_thread_pid (task_of p).
Definition task_pid_nr (p : Z) : Z := pt_pid (task_of p).
Definition task_pid_nr_ns (p ns : Z) : Z := __task_pid_nr_ns p PIDTYPE_PID ns.
Definition task_pid_vnr (p : Z) : Z := __task_pid_nr_ns p PIDTYPE_PID NULL.
Definition task_tgid_nr (p : Z) : Z := pt_tgid (task_of p).
Definition pid_alive (p : Z) : bool := negb (task_pid p =? NULL).
Definition task_pgrp_nr_ns (p ns : Z) : Z := __task_pid_nr_ns p PIDTYPE_PGID ns.
Definition task_pgrp_vnr (p : Z) : Z := __task_pid_nr_ns p PIDTYPE_PGID NULL.
Definition task_session_nr_ns (p ns : Z) : Z := __task_pid_nr_ns p PIDTYPE_SID ns.
Definition task_session_vnr (p : Z) : Z := __task_pid_nr_ns p PIDTYPE_SID NULL.
Definition task_tgid_nr_ns (p ns : Z) : Z := __task_pid_nr_ns p PIDTYPE_TGID ns.
Definition task_tgid_vnr (p : Z) : Z := __task_pid_nr_ns p PIDTYPE_TGID NULL.
Definition task_ppid_nr_ns (p ns : Z) : Z :=
  if pid_alive p then task_tgid_nr_ns (pt_real_parent (task_of p)) ns else 0.
Definition task_ppid_nr (p : Z) : Z := task_ppid_nr_ns p init_pid_ns.
Definition task_pgrp_nr (p : Z) : Z := task_pgrp_nr_ns p init_pid_ns.
Definition is_global_init (p : Z) : bool := task_tgid_nr p =? 1.
End TaskPid.
End TaskPid.

(** * Pidfds *)
Module Pidfd.
(** struct pid: [numbers] has the number at every level up to the pid's own. *)
Record pid : Type := Mk_pid { p_level : Z; p_numbers : list Z }.
Record file : Type := Mk_file { f_is_pidfd : bool; f_private_data : Z }.

Section Pidfd.
Context (pid_at : Z -> pid) (pid_has_task : Z -> bool) (thread_group_exited : Z -> bool).
(** The namespace of the procfs instance, and the number of a pid in it. *)
Context (ns_level : Z) (pid_nr_ns : Z -> Z) (EPOLLIN EPOLLRDNORM : Z).

(** [None]: -EBADF. *)
Definition pidfd_pid (f : file) : option Z := if f_is_pidfd f then Some (f_private_data f) else None.

(** The pid to put, and the file without it. *)
Definition pidfd_release (f : file) : Z * file := (f_private_data f, Mk_file (f_is_pidfd f) NULL).

Definition tab : ascii := ascii_of_nat 9.
Definition seq_put_decimal_ll (delimiter : string) (n : Z) : string := delimiter +:+ show_ld n.

(** The loop over the levels [i] to pid->level; [numbers] is what is left of
    pid->numbers[] at [i]. *)
Fixpoint show_levels (numbers : list Z) : string :=
  match numbers with
  | [] => ""
  | nr :: numbers => seq_put_decimal_ll (String tab "") nr +:+ show_levels numbers
  end.

Definition pidfd_show_fdinfo (f : file) : string :=
  let pid := f_private_data f in
  let nr := if pid_has_task pid then pid_nr_ns pid else -1 in
  seq_put_decimal_ll ("Pid:" +:+ String tab "") nr +:+
  seq_put_decimal_ll (newline +:+ "NSpid:" +:+ String tab "") nr +:+
  (if 0 <? nr then
     show_levels (firstn (Z.to_nat (p_level (pid_at pid) - ns_level)) (skipn (Z.to_nat (ns_level + 1)) (p_numbers (pid_at pid))))
   else "") +:+
  newline.

(** A waiter is told when the whole thread group has exited. *)
Definition pidfd_poll (f : file) : Z :=
  if thread_group_exited (f_private_data f) then Z.lor EPOLLIN EPOLLRDNORM else 0.

(** ** What the fdinfo file shows *)

(** The pid has a number at each of its levels, and the one in the namespace of the
    procfs instance is that of the namespace's level, or 0 when the pid is not
    visible there. *)
Record pid_ok (p : Z) : Prop := {
  pid_levels : Z.of_nat (length (p_numbers (pid_at p))) = p_level (pid_at p) + 1;
  pid_ns_level : 0 <= ns_level;
  pid_nr : 0 < pid_nr_ns p -> ns_level <= p_level (pid_at p) /\ p_numbers (pid_at p) !! Z.to_nat ns_level = Some (pid_nr_ns p);
}.

Definition fdinfo (nr : Z) (nspid : list Z) : string :=
  "Pid:" +:+ String tab "" +:+ show_ld nr +:+ newline +:+
  "NSpid:" +:+ String tab "" +:+ String.concat (String tab "") (map show_ld nspid) +:+ newline.

Lemma string_app_nil_r s : s +:+ "" = s.
Proof. induction s as [|c s IH]; [done|]. by rewrite string_app_cons, IH. Qed.
Lemma string_app_assoc a b c : (a +:+ b) +:+ c = a +:+ (b +:+ c).
Proof. induction a as [|x a IH]; [done|]. by rewrite !string_app_cons, IH. Qed.

Lemma show_levels_concat nr numbers :
  show_ld nr +:+ show_levels numbers = String.concat (String tab "") (map show_ld (nr :: numbers)).
Proof.
  revert nr. induction numbers as [|n numbers IH]; intros nr; [apply string_app_nil_r|].
  cbn [show_levels]. unfold seq_put_decimal_ll. rewrite string_app_assoc, IH. reflexivity.
Qed.

(** A live pid that is visible is shown with its numbers in the namespace of the
    procfs instance and in all its descendants down to the pid's own, the first of
    them under Pid as well; one that is not visible is shown as 0, and one without a
    task as -1. *)
Lemma pidfd_show_fdinfo_spec f :
  pid_ok (f_private_data f) ->
  0 <= pid_nr_ns (f_private_data f) ->
  pidfd_show_fdinfo f =
  let p := f_private_data f in
  if negb (pid_has_task p) then fdinfo (-1) [-1]
  else if pid_nr_ns p =? 0 then fdinfo 0 [0]
  else fdinfo (pid_nr_ns p) (skipn (Z.to_nat ns_level) (p_numbers (pid_at p))).
Proof.
  intros [Hlen Hns Hnr] H0. unfold pidfd_show_fdinfo, fdinfo, seq_put_decimal_ll. cbv zeta.
  destruct (pid_has_task _) eqn:Ht; cbn [negb]; [|reflexivity].
  destruct (Z.eqb_spec (pid_nr_ns (f_private_data f)) 0) as [->|Hne]; [reflexivity|].
  destruct (Hnr ltac:(lia)) as [Hlv Hl]. rewrite (proj2 (Z.ltb_lt _ _)) by lia.
  set (nums := p_numbers _) in *. set (n := pid_nr_ns _) in *.
  assert (Es : skipn (Z.to_nat ns_level) nums = n :: skipn (Z.to_nat (ns_level + 1)) nums).
  { replace (Z.to_nat (ns_level + 1)) with (S (Z.to_nat ns_level)) by lia. by apply drop_S. }
  rewrite firstn_all2 by (rewrite length_skipn; lia). rewrite Es, <- show_levels_concat.
  rewrite !string_app_assoc. reflexivity.
Qed.
End Pidfd.

(** A process in two nested namespaces, seen from the outer one: the comment at
    pidfd_show_fdinfo() in numbers. *)
Example fdinfo_nested :
  pidfd_show_fdinfo (fun _ => Mk_pid 2 [420; 42; 4]) (fun _ => true) 1 (fun _ => 42) (Mk_file true 5)
  = fdinfo 42 [42; 4].
Proof. reflexivity. Qed.
End Pidfd.
