(* ===== verification/ForkBoot.v ===== *)
(** Limits and counts of fork.c: what fork_init() allows a user at boot, the number
    of processes summed over per-CPU counters, the check of an address space before
    it is freed, the dump filter and the canary of a stack. *)
From S2P Require Import Prelude Headers Proc Kernel Extern Migrate Mm ForkExtern Fork Clone.

(** * fork_init() *)
Record init_limits : Type := Mk_limits {
  rlim_nproc : Z * Z;          (* init_task's RLIMIT_NPROC: rlim_cur, rlim_max *)
  rlim_sigpending : Z * Z;
  ucount_max : Z;              (* every entry of init_user_ns.ucount_max[] *)
  ucount_rlimits : list (string * Z);
}.

Section ForkInit.
Context {H : Headers} {X : Extern} {FH : ForkHeaders} {F : ForkExtern} {CE : CloneExtern}.
Context {XM : MigrateExtern}.
Context (RLIM_INFINITY : Z).

Definition fork_init : K init_limits :=
  emit "kmem_cache_create_usercopy" [] ;;
  emit "arch_task_cache_init" [] ;;
  set_max_threads MAX_THREADS ;;
  max_threads ← gets (fun m => fk_max_threads (m_fork m));
  let nproc := (max_threads ÷ 2, max_threads ÷ 2) in
  emit "cpuhp_setup_state(free_vm_stack_cache)" [] ;;
  emit "scs_init" [] ;;
  emit "lockdep_init_task" [] ;;
  emit "uprobes_init" [] ;;
  mret (Mk_limits nproc nproc (max_threads ÷ 2)
    [("UCOUNT_RLIMIT_NPROC", RLIM_INFINITY); ("UCOUNT_RLIMIT_MSGQUEUE", RLIM_INFINITY);
     ("UCOUNT_RLIMIT_SIGPENDING", RLIM_INFINITY); ("UCOUNT_RLIMIT_MEMLOCK", RLIM_INFINITY)]).

(** Whatever the size of the memory, the boot task may have at least ten and at most
    half the largest number of processes, the limits are those of the same number of
    pending signals, and a process limit never exceeds half the thread limit, so one
    user cannot use up the threads of the system. *)
Lemma fork_init_limits m :
  MIN_THREADS <= MAX_THREADS ->
  wp fork_init (fun l m' =>
    let max := fk_max_threads (m_fork m') in
    MIN_THREADS <= max <= MAX_THREADS /\
    rlim_nproc l = rlim_sigpending l /\ rlim_nproc l = (ucount_max l, ucount_max l) /\
    10 <= ucount_max l /\ 2 * ucount_max l <= max) m.
Proof.
  intros HM. unfold fork_init, set_max_threads. do 2 apply wp_bind, wp_emit.
  apply wp_bind, wp_modify. apply wp_bind, wp_gets. do 4 apply wp_bind, wp_emit. apply wp_ret. cbn -[Z.mul].
  match goal with |- context [clamp ?v ?lo ?hi] => set (mx := clamp v lo hi) end.
  assert (Hmx : MIN_THREADS <= mx <= MAX_THREADS) by (unfold mx, clamp; lia).
  clearbody mx. unfold MIN_THREADS in *. rewrite Z.quot_div_nonneg by lia.
  pose proof (Z.div_mod mx 2 ltac:(lia)). pose proof (Z.mod_pos_bound mx 2 ltac:(lia)). split_and!; lia || done.
Qed.
End ForkInit.

(** * nr_processes()

    The counters are unsigned long and are incremented on the CPU that forks and
    decremented (kernel/exit.c) on the CPU that releases; the sum is an int. *)
Module Counts.
Definition nr_processes (possible : list Z) (counts : Z -> Z) : Z :=
  fold_left (fun total cpu => s32 (total + counts cpu)) possible 0.

Definition bump (n cpu : Z) (counts : Z -> Z) : Z -> Z :=
  fun c => if c =? cpu then u64 (counts c + n) else counts c.

(** A fork or an exit, with the CPU it happens on. *)
Definition event : Type := bool * Z.
Definition run (es : list event) (counts : Z -> Z) : Z -> Z :=
  fold_left (fun k e => bump (if e.1 : bool then 1 else -1) e.2 k) es counts.
Definition live (es : list event) : Z := foldr (fun e n => n + if e.1 : bool then 1 else -1) 0 es.

Definition total (possible : list Z) (counts : Z -> Z) : Z := foldr (fun c n => counts c + n) 0 possible.

Lemma s32_cong a b : s32 a mod 2 ^ 32 = b mod 2 ^ 32 -> in_s32 b -> s32 a = b.
Proof.
  unfold s32, in_s32. intros E Hb.
  rewrite Zminus_mod, Zmod_mod, <- Zminus_mod in E. replace (a + 2 ^ 31 - 2 ^ 31) with a in E by lia.
  replace (a + 2 ^ 31) with (b + 2 ^ 31 + (a - b)) by lia.
  rewrite Zplus_mod. assert (Hab : (a - b) mod 2 ^ 32 = 0) by (rewrite Zminus_mod, E, Z.sub_diag; done).
  rewrite Hab, Z.add_0_r, Zmod_mod, Z.mod_small; lia.
Qed.

Lemma s32_mod a : s32 a mod 2 ^ 32 = a mod 2 ^ 32.
Proof. unfold s32. rewrite Zminus_mod, Zmod_mod, <- Zminus_mod. f_equal. lia. Qed.

Lemma sum_mod possible counts t :
  fold_left (fun total cpu => s32 (total + counts cpu)) possible t mod 2 ^ 32 =
  (t + total possible counts) mod 2 ^ 32.
Proof.
  revert t. induction possible as [|c cs IH]; intros t; cbn [fold_left total foldr]; [by rewrite Z.add_0_r|].
  rewrite IH, Z.add_mod, s32_mod, <- Z.add_mod by lia. f_equal. unfold total. lia.
Qed.

Lemma u64_mod32 a : u64 a mod 2 ^ 32 = a mod 2 ^ 32.
Proof. unfold u64. change (2 ^ 64) with (2 ^ 32 * 2 ^ 32). symmetry. apply Znumtheory.Zmod_div_mod; [lia | lia | by exists (2 ^ 32)]. Qed.

Lemma total_bump possible n cpu counts : NoDup possible -> cpu ∈ possible ->
  total possible (bump n cpu counts) mod 2 ^ 32 = (total possible counts + n) mod 2 ^ 32.
Proof.
  intros Hn Hc. induction possible as [|c cs IH]; [by apply elem_of_nil in Hc|].
  apply list.NoDup_cons in Hn as [Hx Hn]. cbn [total foldr].
  assert (Hout : forall l, cpu ∉ l -> total l (bump n cpu counts) = total l counts).
  { induction l as [|y l IHl]; [done|]. intros Hy. cbn [total foldr]. unfold total in IHl. rewrite IHl by set_solver.
    unfold bump. rewrite (proj2 (Z.eqb_neq _ _)); [done | set_solver]. }
  apply elem_of_cons in Hc as [-> | Hc].
  - unfold bump at 1. rewrite Z.eqb_refl. unfold total in Hout. rewrite (Hout cs Hx).
    rewrite Z.add_mod, u64_mod32, <- Z.add_mod by lia. f_equal. lia.
  - unfold bump at 1. rewrite (proj2 (Z.eqb_neq _ _)) by set_solver.
    rewrite Z.add_mod by lia. unfold total in IH. rewrite (IH Hn Hc), <- Z.add_mod by lia. f_equal. lia.
Qed.

Lemma total_run possible es counts : NoDup possible -> Forall (fun e => e.2 ∈ possible) es ->
  total possible (run es counts) mod 2 ^ 32 = (total possible counts + live es) mod 2 ^ 32.
Proof.
  intros Hn HF. revert counts. induction HF as [|e es He _ IH]; intros counts; cbn [run fold_left live foldr]; [by rewrite Z.add_0_r|].
  unfold run in IH. rewrite IH, Z.add_mod, total_bump, <- Z.add_mod by (done || lia). f_equal. unfold live. lia.
Qed.

(** However forks and exits are spread over the CPUs, nr_processes() is their
    difference, although a single counter can have wrapped below zero. *)
Lemma nr_processes_exact possible es :
  NoDup possible -> possible <> [] -> Forall (fun e => e.2 ∈ possible) es -> in_s32 (live es) ->
  nr_processes possible (run es (fun _ => 0)) = live es.
Proof.
  intros Hn Hne HF Hl.
  assert (E : nr_processes possible (run es (fun _ => 0)) mod 2 ^ 32 = live es mod 2 ^ 32).
  { unfold nr_processes. rewrite sum_mod, Z.add_0_l, total_run by done. f_equal.
    enough (total possible (fun _ => 0) = 0) by lia. clear. induction possible; cbn [total foldr]; [done|]. unfold total in *. lia. }
  unfold nr_processes in *. destruct possible as [|c cs] using rev_ind; [done|]. rewrite fold_left_app in *. cbn [fold_left] in *.
  by apply s32_cong.
Qed.
End Counts.

(** * check_mm() and smaller functions *)
Module MmCheck.
Definition resident_page_types : list string := ["MM_FILEPAGES"; "MM_ANONPAGES"; "MM_SWAPENTS"; "MM_SHMEMPAGES"].

(** The alerts: the counters of resident pages that are not zero, with their names,
    and whether page-table memory is left. *)
Definition check_mm (rss_stat : list Z) (pgtables_bytes : Z) : list (string * Z) * bool :=
  (filter (fun x => x.2 <> 0) (zip resident_page_types rss_stat), truthy pgtables_bytes).

(** No alert is exactly an address space that holds nothing. *)
Lemma check_mm_silent rss_stat pgtables_bytes : length rss_stat = 4%nat ->
  check_mm rss_stat pgtables_bytes = ([], false) <-> Forall (fun x => x = 0) rss_stat /\ pgtables_bytes = 0.
Proof.
  destruct rss_stat as [|a [|b [|c [|d [|? ?]]]]]; try done. intros _. unfold check_mm. cbn [zip zip_with resident_page_types].
  rewrite !filter_cons, filter_nil. cbn [snd]. rewrite !list.Forall_cons, list.Forall_nil.
  unfold truthy. destruct (Z.eqb_spec pgtables_bytes 0); cbn [negb];
    repeat match goal with |- context [decide (?x <> 0)] => destruct (decide (x <> 0)) end; split; intros; destruct_and?; simplify_eq; try done; split_and!; lia || done.
Qed.

(** coredump_filter=: [simple_strtoul] is lib/vsprintf.c's. *)
Definition coredump_filter_setup (simple_strtoul : string -> Z) (MMF_DUMP_FILTER_SHIFT MMF_DUMP_FILTER_MASK : Z) (s : string) : Z :=
  Z.land (u64 (Z.shiftl (simple_strtoul s) MMF_DUMP_FILTER_SHIFT)) MMF_DUMP_FILTER_MASK.
End MmCheck.
