(* ===== verification/Experiment.v ===== *)
(** testProject2.c: the program that measures a computation under each fixed
    priority, running as the task [p] on the kernel of the other files.

    The program and the kernel take steps in turn: [p] executes an instruction or a
    system call when a CPU runs it, and in between any CPU may enter the scheduler,
    another task may set its own priority, or code outside the model may run.  The
    system call suspends the program when it switches away from it; its tail runs
    when the task is back.  The computation that is measured (calls of rand()) has no
    effect on the kernel, and the clock may show anything. *)
From S2P Require Import Prelude Headers Proc Kernel Extern RqClock Uclamp Prio SchedOK Schedule.
From S2P Require Import LazyMm ScheduleProofs Sample MyPriority.

Definition NUM_OF_PRIORITIES_TESTED : Z := 40.

(** The place in main(), with the variables [index] and [priority] (which is not set
    before the loop). *)
Inductive upc : Type :=
| Begin (index priority : Z)      (* gettimeofday(&start[index]) *)
| Work (index priority : Z)       (* the computation, then gettimeofday(&end[index]) *)
| Test (index priority : Z)       (* priority <= 139 *)
| Call (index priority : Z)       (* my_set_process_priority(priority) *)
| Blocked (index priority : Z)    (* inside it, switched away from *)
| Print.                          (* the lines printed at the end *)

(** The arrays hold times in microseconds; [u_cannot] are the priorities of the lines
    "Cannot set priority". *)
Record prog : Type := Mk_prog {
  u_pc : upc;
  u_start : list (option Z);
  u_end : list (option Z);
  u_cannot : list Z;
}.

Definition prog0 : prog :=
  Mk_prog (Begin 0 0) (repeat None (Z.to_nat NUM_OF_PRIORITIES_TESTED)) (repeat None (Z.to_nat NUM_OF_PRIORITIES_TESTED)) [].

(** An assignment to an array; [None] when the index is out of its bounds. *)
Definition assign (i v : Z) (a : list (option Z)) : option (list (option Z)) :=
  if ((0 <=? i) && (i <? Z.of_nat (length a)))%bool then Some (<[Z.to_nat i := Some v]> a) else None.

(** The instructions of main() outside the system call; [now] is the time the clock
    shows.  [None] when there is nothing more to execute, or an array is
    overrun. *)
Definition user_step (now : Z) (u : prog) : option prog :=
  match u_pc u with
  | Begin index priority =>
      a ← assign index now (u_start u); Some (Mk_prog (Work index priority) a (u_end u) (u_cannot u))
  | Work index priority =>
      a ← assign index now (u_end u);
      Some (Mk_prog (if index =? 0 then Test 1 101 else Test (index + 1) (priority + 1)) (u_start u) a (u_cannot u))
  | Test index priority =>
      Some (Mk_prog (if priority <=? 139 then Call index priority else Print) (u_start u) (u_end u) (u_cannot u))
  | Call _ _ | Blocked _ _ | Print => None
  end.

(** After the system call: a line is printed when it returns 0. *)
Definition after_call (index priority : Z) (res : syscall_result) (u : prog) : prog :=
  match res with
  | returned r =>
      Mk_prog (Begin index priority) (u_start u) (u_end u) (if r =? 0 then u_cannot u ++ [priority] else u_cannot u)
  | suspended => Mk_prog (Blocked index priority) (u_start u) (u_end u) (u_cannot u)
  end.

(** The lines of the last loop: the priority named, and the time spent. *)
Definition elapsed (u : prog) (i : Z) : option Z :=
  s ← (u_start u !! Z.to_nat i) ≫= id; e ← (u_end u !! Z.to_nat i) ≫= id; Some (e - s).
(** The line before them, for the measurement without a fixed priority. *)
Definition unadjusted (u : prog) : option Z := elapsed u 0.
Definition lines (u : prog) : list (Z * option Z) :=
  (fun i => (i + 100, elapsed u i)) <$> (Z.of_nat <$> seq 1 (Z.to_nat (NUM_OF_PRIORITIES_TESTED - 1))).

Section Experiment.
Context {H : Headers} {X : Extern} {HOK : HeadersOK H} {XOK : ExternOK X} {XS : ExternSafe X}.
Context (p : Z).

(** CPU [c] runs the program. *)
Definition on_cpu (c : Z) (m : machine) : Prop := exists q, m_rqs m !! c = Some q /\ rq_curr q = p.

(** A step of the kernel that is not a system call of the program. *)
Inductive other_step : machine -> machine -> Prop :=
| other_schedule c mode m m' :
    is_Some (m_rqs m !! c) -> __schedule mode (enter c 1 m) = Ret tt m' -> other_step m m'
| other_set_priority c fuel priority res m m' :
    is_Some (m_rqs m !! c) -> ~ on_cpu c m ->
    my_set_process_priority fuel priority (enter c 0 m) = Ret res m' -> other_step m m'
| other_env m m' : class_frame m m' -> kernel_ok m' -> other_step m m'.

Inductive test_step : prog * machine -> prog * machine -> Prop :=
| test_user c now u u' m : on_cpu c m -> user_step now u = Some u' -> test_step (u, m) (u', m)
| test_call c fuel index priority res u m m' :
    on_cpu c m -> u_pc u = Call index priority ->
    my_set_process_priority fuel priority (enter c 0 m) = Ret res m' ->
    test_step (u, m) (after_call index priority res u, m')
| test_resume c index priority res u m m' :
    on_cpu c m -> u_pc u = Blocked index priority ->
    my_set_process_priority_tail p (enter c 0 m) = Ret res m' ->
    test_step (u, m) (after_call index priority res u, m')
| test_other u m m' : other_step m m' -> test_step (u, m) (u, m').

(** * The invariant *)

(** The first [n] entries of an array are filled. *)
Definition filled (n : Z) (a : list (option Z)) : Prop :=
  length a = 40%nat /\ forall i, (Z.of_nat i < n) -> exists v, a !! i = Some (Some v).

Definition round_ok (index priority : Z) : Prop := 1 <= index <= 39 /\ priority = index + 100.

Definition pc_ok (u : prog) (t : task_struct) : Prop :=
  match u_pc u with
  | Begin i pr => (i = 0 \/ (round_ok i pr /\ ts_my_fixed_priority t = pr)) /\ filled i (u_start u) /\ filled i (u_end u)
  | Work i pr => (i = 0 \/ (round_ok i pr /\ ts_my_fixed_priority t = pr)) /\ filled (i + 1) (u_start u) /\ filled i (u_end u)
  | Test i pr => (1 <= i <= 40 /\ pr = i + 100) /\ filled i (u_start u) /\ filled i (u_end u)
  | Call i pr => round_ok i pr /\ filled i (u_start u) /\ filled i (u_end u)
  | Blocked i pr => (round_ok i pr /\ ts_my_fixed_priority t = pr) /\ filled i (u_start u) /\ filled i (u_end u)
  | Print => filled 40 (u_start u) /\ filled 40 (u_end u)
  end.

Record test_ok (u : prog) (m : machine) : Prop := {
  te_sched : sched_ok m;
  te_force : all_in_force m;
  te_task : exists t, m_tasks m !! p = Some t /\ ts_static_prio t <> 0 /\ pc_ok u t;
  te_cannot : u_cannot u = [];
}.

Lemma pc_ok_task u t t' : ts_my_fixed_priority t' = ts_my_fixed_priority t -> pc_ok u t -> pc_ok u t'.
Proof. intros E. unfold pc_ok. by rewrite E. Qed.

(** What a step of the kernel does to the program's task. *)
Definition task_kept (m m' : machine) : Prop := forall t, m_tasks m !! p = Some t -> ts_static_prio t <> 0 ->
  exists t', m_tasks m' !! p = Some t' /\ ts_my_fixed_priority t' = ts_my_fixed_priority t /\ ts_static_prio t' <> 0.

Lemma sched_rel_kept r m m' : sched_rel r m m' -> task_kept m m'.
Proof.
  intros R t Ht Hs. destruct (sr_prios _ _ _ R p t Ht) as (t' & Ht' & Ea & Es). unfold prio_attrs in Ea.
  exists t'. split_and!; [done | congruence |]. unfold fixed_static, fixed_prio_valid in Es.
  destruct Es as [-> | ->]; [done|]. case_match; lia.
Qed.

Lemma other_cpu_step m m' : other_step m m' -> cpu_step m m'.
Proof. intros [c mode x y Hc E | c fuel pr res x y Hc _ E | x y F Hok]; [by eapply step_schedule | by eapply step_set_priority | by apply step_env]. Qed.

Lemma other_kept m m' : sched_ok m -> other_step m m' -> task_kept m m'.
Proof.
  intros Hso Hst. destruct Hst as [c mode m m' Hc E | c fuel pr res m m' Hc Hn E | m m' F Hok].
  - pose proof (enter_sched_ok c 1 m Hc Hso) as Hso1.
    assert (Hs : wp (__schedule mode) (fun _ m1 => sched_rel c (enter c 1 m) m1) (enter c 1 m)).
    { apply wp___schedule; [done | done |]. intros m1 Hso1' _ Hth Hp Ho. by apply prios_sched_rel. }
    apply wp_run in Hs as (? & m1 & E1 & Hrel). rewrite E in E1. injection E1 as <- <-. exact (sched_rel_kept _ _ _ Hrel).
  - pose proof (enter_sched_ok c 0 m Hc Hso) as Hso1. destruct Hc as [q Hq].
    destruct (set_priority_rel _ _ _ _ _ Hso1 eq_refl E) as [(_ & _ & ->) | (_ & _ & t0 & l & Ht0 & Hrel)].
    { intros t Ht Hs. by exists t. }
    intros t Ht Hs. apply (sched_rel_kept _ _ _ Hrel t); [|done]. cbn. rewrite Hq.
    rewrite lookup_insert_ne; [done|]. intros Ec. apply Hn. by exists q.
  - intros t Ht Hs. destruct (frame_task _ _ _ _ _ _ _ (class_head_frame _ _ F) Ht) as (t' & Ht' & Et).
    unfold task_head, prio_attrs in Et. exists t'. split_and!; [done | congruence | congruence].
Qed.

Lemma filled_assign n i v a a' : filled n a -> assign i v a = Some a' -> n = i -> filled (i + 1) a'.
Proof.
  intros [Hl Hf] E ->. unfold assign in E. destruct (_ && _)%bool eqn:Hb; [|done]. injection E as <-. split.
  - by rewrite length_insert.
  - intros j Hj. destruct (decide (j = Z.to_nat i)) as [->|Hne].
    + exists v. apply list_lookup_insert_eq. lia.
    + rewrite list_lookup_insert_ne by done. apply Hf. lia.
Qed.

Lemma assign_in_bounds i v a n : filled n a -> 0 <= i < 40 -> is_Some (assign i v a).
Proof.
  intros [Hl _] Hi. unfold assign. rewrite Hl. change (Z.of_nat 40) with 40.
  rewrite (proj2 (Z.leb_le 0 i)), (proj2 (Z.ltb_lt i 40)) by lia. by eexists.
Qed.

Lemma user_step_ok now u u' t : pc_ok u t -> u_cannot u = [] -> user_step now u = Some u' -> pc_ok u' t /\ u_cannot u' = [].
Proof.
  unfold user_step, pc_ok. destruct u as [[i pr|i pr|i pr|i pr|i pr|] st en ca]; cbn; intros HP -> E; try done.
  - destruct (assign i now st) as [a|] eqn:Ea; [|done]. injection E as <-. cbn. destruct HP as (Hr & Hs & He).
    split; [|done]. split; [done|split]; [exact (filled_assign _ _ _ _ _ Hs Ea eq_refl) | done].
  - destruct (assign i now en) as [a|] eqn:Ea; [|done]. injection E as <-. cbn. destruct HP as (Hr & Hs & He).
    pose proof (filled_assign _ _ _ _ _ He Ea eq_refl) as He'. split; [|done].
    destruct (Z.eqb_spec i 0) as [->|Hi]; cbn; [split; [lia | by split]|].
    destruct Hr as [?|[[Hb ->] _]]; [lia|]. split; [lia | by split].
  - injection E as <-. destruct HP as ([Hb ->] & Hs & He). split; [|done].
    destruct (Z.leb_spec (i + 100) 139) as [Hle|Hgt]; cbn; [unfold round_ok; split; [lia | by split]|].
    assert (i = 40) as -> by lia. by split.
Qed.

Lemma test_step_ok u m u' m' : test_step (u, m) (u', m') -> test_ok u m -> test_ok u' m'.
Proof.
  intros Hst [Hso Hall (t & Ht & Hs & HP) Hca].
  remember (u, m) as x eqn:Ex. remember (u', m') as y eqn:Ey. revert Ex Ey.
  destruct Hst as [c now u0 u1 m0 _ E | c fuel i pr res u0 m0 m1 (q & Hq & Hc) Epc E | c i pr res u0 m0 m1 (q & Hq & Hc) Epc E
    | u0 m0 m1 Ho]; intros [= -> ->] [= <- <-].
  - destruct (user_step_ok _ _ _ t HP Hca E) as [HP' Hca']. split; [done | done | by exists t | done].
  - unfold pc_ok in HP. rewrite Epc in HP. destruct HP as ([Hb ->] & Hf1 & Hf2).
    assert (Hcs : cpu_step m m1) by (eapply step_set_priority; [by eexists | exact E]).
    destruct (cpu_step_preserves m m1 Hcs (conj Hso Hall)) as [Hso' Hall'].
    pose proof (enter_sched_ok c 0 m (ex_intro _ q Hq) Hso) as Hso1.
    destruct (set_priority_rel _ _ _ _ _ Hso1 eq_refl E) as [(Hv & _) | (Hv & Hres & t0 & l & Ht0 & Hrel)].
    { unfold fixed_prio_valid in Hv. lia. }
    cbn in Ht0, Hrel. rewrite Hq, Hc in Ht0, Hrel. rewrite Ht in Ht0. injection Ht0 as <-.
    destruct (sched_rel_kept _ _ _ Hrel (t <| ts_my_fixed_priority := i + 100 |>)) as (t' & Ht' & Ef & Hs');
      [cbn; apply lookup_insert_eq | done |]. cbn in Ht', Ef.
    split; [done | done | |].
    + exists t'. split_and!; [done | done |].
      unfold pc_ok. destruct Hres as [-> | ->]; cbn; unfold round_ok; (split; [|done]); [right|]; split_and!; done || lia.
    + destruct Hres as [-> | ->]; done.
  - unfold pc_ok in HP. rewrite Epc in HP. destruct HP as ((Hr & Hfix) & Hf1 & Hf2).
    unfold my_set_process_priority_tail, mbind, M_bind, deref, emit, modify, mret, M_ret in E.
    destruct (store (enter c 0 m) !! p); [|done]. injection E as <- <-.
    split; [| exact Hall | | done].
    + by apply sched_ok_log, enter_sched_ok; [eexists|].
    + exists t. split_and!; [done | done |]. cbn. split; [by right | done].
  - destruct (cpu_step_preserves m m1 (other_cpu_step _ _ Ho) (conj Hso Hall)) as [Hso' Hall'].
    destruct (other_kept m m1 Hso Ho t Ht Hs) as (t' & Ht' & Ef & Hs'). split; [done | done | | done].
    exists t'. split_and!; [done | done | by eapply pc_ok_task].
Qed.

Lemma test_reachable_ok m u m1 :
  sched_ok m -> all_in_force m -> (exists t, m_tasks m !! p = Some t /\ ts_static_prio t <> 0) ->
  rtc test_step (prog0, m) (u, m1) -> test_ok u m1.
Proof.
  intros Hso Hall (t & Ht & Hs) Hr.
  assert (H0 : test_ok prog0 m).
  { split; [done | done | | done]. exists t. split_and!; [done | done |]. cbn.
    split; [by left|]. split; (split; [done | intros; lia]). }
  remember (prog0, m) as x eqn:Ex. remember (u, m1) as y eqn:Ey.
  assert (Hx : test_ok x.1 x.2) by (by subst x). assert (Hy : test_ok y.1 y.2); [|by subst y].
  clear -Hr Hx HOK XOK XS. induction Hr as [|[u0 m0] [u1 m1] y Hst _ IH]; [done|]. apply IH. by eapply test_step_ok.
Qed.

Lemma running_in_force u m i pr : test_ok u m -> u_pc u = Begin i pr \/ u_pc u = Work i pr -> 0 < i ->
  pr = i + 100 /\ (running m p -> ts_static_prio <$> m_tasks m !! p = Some pr).
Proof.
  intros [Hso Hall (t & Ht & Hs & HP) _] Hpc Hi.
  assert (HR : round_ok i pr /\ ts_my_fixed_priority t = pr).
  { unfold pc_ok in HP. destruct Hpc as [E|E]; rewrite E in HP; destruct HP as ([?|HR] & _); first [lia | exact HR]. }
  destruct HR as [[Hb ->] Hf]. split; [done|]. intros Hrun. rewrite Ht. cbn. f_equal.
  rewrite (Hall p Hrun t Ht Hs); [done|]. rewrite Hf. unfold fixed_prio_valid. lia.
Qed.

Lemma lines_filled u : filled 40 (u_start u) -> filled 40 (u_end u) ->
  (lines u).*1 = Z.of_nat <$> seq 101 39 /\ Forall (fun x => is_Some x.2) (lines u).
Proof.
  intros [_ Hs] [_ He]. split; [reflexivity|]. apply list.Forall_forall. intros x Hx. unfold lines in Hx.
  apply list_elem_of_fmap in Hx as (i & -> & Hi). apply list_elem_of_fmap in Hi as (k & -> & Hk).
  apply elem_of_seq in Hk. change (Z.to_nat (NUM_OF_PRIORITIES_TESTED - 1)) with 39%nat in Hk. unfold elapsed. rewrite Nat2Z.id. cbn.
  destruct (Hs k ltac:(lia)) as (a & ->), (He k ltac:(lia)) as (b & ->). by eexists.
Qed.

(** C4: The experiment of testProject2.c measures what it prints.  However the CPUs
    schedule, whatever other tasks set for themselves, and whether or not the system
    call suspends the program: no call is refused; at the start of each measured
    computation, and whenever the program runs during it, its static priority is the
    one the call asked for, 100 plus the index of the measurement; no measurement
    writes outside the arrays; and when the program prints, there is one line
    without a priority and one for each priority from 101 to 139, and both times of
    each have been taken. *)
Theorem experiment_measures_priority m u m1
  (Hso : sched_ok m) (Hall : all_in_force m) (Hp : exists t, m_tasks m !! p = Some t /\ ts_static_prio t <> 0)
  (Hreach : rtc test_step (prog0, m) (u, m1)) :
  u_cannot u = [] /\
  (forall i pr, u_pc u = Begin i pr \/ u_pc u = Work i pr ->
     (forall now, is_Some (user_step now u)) /\
     (0 < i -> pr = i + 100 /\ (running m1 p -> ts_static_prio <$> m_tasks m1 !! p = Some pr))) /\
  (u_pc u = Print -> is_Some (unadjusted u) /\
     (lines u).*1 = Z.of_nat <$> seq 101 39 /\ Forall (fun x => is_Some x.2) (lines u)).
Proof.
  pose proof (test_reachable_ok m u m1 Hso Hall Hp Hreach) as Hok. split; [apply Hok|]. split.
  - intros i pr Hpc. split; [|by apply (running_in_force u)].
    destruct Hok as [_ _ (t & _ & _ & HP) _]. intros now. unfold pc_ok in HP. unfold user_step.
    destruct Hpc as [E|E]; rewrite E in HP |- *; destruct HP as (Hr & Hf1 & Hf2);
      assert (0 <= i < 40) by (unfold round_ok in Hr; lia).
    + destruct (assign_in_bounds i now (u_start u) i) as [a Ea]; [done | done |]. rewrite Ea. by eexists.
    + destruct (assign_in_bounds i now (u_end u) i) as [a Ea]; [done | done |]. rewrite Ea. by eexists.
  - intros E. destruct Hok as [_ _ (t & _ & _ & HP) _]. unfold pc_ok in HP. rewrite E in HP. destruct HP as [Hs He]; split; [|by apply lines_filled].
    destruct Hs as [_ Hs], He as [_ He]. unfold unadjusted, elapsed.
    destruct (Hs 0%nat ltac:(lia)) as (a & Ea), (He 0%nat ltac:(lia)) as (b & Eb). change (Z.to_nat 0) with 0%nat. rewrite Ea, Eb. by eexists.
Qed.
End Experiment.

(** * A run on the sample machine *)
Module ExperimentDemo.
#[local] Existing Instance linux_headers.
#[local] Existing Instance Demo.extern.

(** Task 11 takes its first measurement and calls for priority 101; the CPU switches
    to task 12 and, at its next scheduler entry, back. *)
Definition m_call : machine := after (my_set_process_priority 1 101) (enter 0 0 machine0).
Definition m_back : machine := after (__schedule SM_NONE) (enter 0 1 m_call).
Definition m_tail : machine := after (my_set_process_priority_tail 11) (enter 0 0 m_back).

Definition u_steps (nows : list Z) (u : prog) : prog := fold_left (fun u now => default u (user_step now u)) nows u.
Definition u_call : prog := u_steps [1000; 1850; 1850] prog0.
Definition u_back : prog := after_call 1 101 suspended u_call.
Definition u_tail : prog := after_call 1 101 (returned 1) u_back.

Lemma demo_reach : rtc (test_step 11) (prog0, machine0) (u_tail, m_tail).
Proof.
  assert (H0 : on_cpu 11 0 machine0) by (by eexists).
  eapply rtc_l; [by apply (test_user 11 0 1000); [exact H0 | vm_compute; reflexivity]|].
  eapply rtc_l; [by apply (test_user 11 0 1850); [exact H0 | vm_compute; reflexivity]|].
  eapply rtc_l; [by apply (test_user 11 0 1850); [exact H0 | vm_compute; reflexivity]|].
  eapply rtc_l; [apply (test_call 11 0 1%nat 1 101 suspended u_call machine0 m_call); [exact H0 | reflexivity | vm_compute; reflexivity]|].
  eapply rtc_l; [apply (test_other 11 _ m_call m_back); apply (other_schedule 11 0 SM_NONE); [by vm_compute; eexists | vm_compute; reflexivity]|].
  apply rtc_once. apply (test_resume 11 0 1 101 (returned 1) u_back m_back m_tail);
    [by vm_compute; eexists | reflexivity | vm_compute; reflexivity].
Qed.

Lemma experiment_measures_priority_witness :
  u_cannot u_tail = [] /\ ts_static_prio <$> m_tasks m_tail !! 11 = Some 101.
Proof.
  destruct (experiment_measures_priority 11 machine0 u_tail m_tail) as (Hc & Hm & _).
  - apply sched_ok0.
  - intros p (c & q & Hq & <-) t Ht. which_obj Hq; vm_compute in Ht; injection Ht as <-; discriminate.
  - eexists. split; [reflexivity | discriminate].
  - apply demo_reach.
  - split; [exact Hc|]. apply (Hm 1 101); [by left | lia |]. exists 0. eexists. split; vm_compute; reflexivity.
Defined.
End ExperimentDemo.
