(* ===== verification/PhysPrograms.v ===== *)
(** The programs of Project 1 that call my_get_physical_addresses(): multithread.c,
    which shows the memory areas that threads share, and the checkers test1.c and
    test2.c.

    All threads of a program run in one address space: [ps_user] is its memory, with
    the stacks of the threads, and [ps_mem] the page tables.  The page tables do not
    change while a program runs: its pages have been touched and stay in place.  The
    threads of multithread.c sleep for 2, 4, 6 and 8 seconds, so they report one
    after the other. *)
From S2P Require Import Prelude AddrXlate.

(** A line of the table a program prints: the segment, the virtual and the physical
    address. *)
Definition row : Type := string * Z * Z.

(** Where a thread has its two arrays; [b_room] is what the kernel has left on its
    stack, [b_slot] the address of the system call's own argument, which is no user
    address. *)
Record buffers : Type := Mk_buffers {
  b_virtual : Z;
  b_physical : Z;
  b_room : Z;
  b_slot : Z;
}.

(** The words of an array. *)
Definition read_array (base : Z) (n : nat) (u : gmap Z Z) : list Z := (copy_from_user u base n).1.

Section Programs.
Context {A : Paging}.

(** The initialiser of virtual_address[] and the system call with both lengths. *)
Definition translate (b : buffers) (addresses : list Z) : P Z :=
  modify (fun s => s <| ps_user := (copy_to_user (ps_user s) (b_virtual b) addresses).1 |>) ;;
  let len := Z.of_nat (length addresses) in
  my_get_physical_addresses (b_room b) (b_slot b) (b_virtual b) len (b_physical b) len.

(** The lines printed from the two arrays of [n] words. *)
Definition address_table (b : buffers) (segments : list string) (n : nat) : P (list row) :=
  user ← gets ps_user;
  mret (zip (zip segments (read_array (b_virtual b) n user)) (read_array (b_physical b) n user)).

(** [None]: the result is negative, the program prints an error and exits. *)
Definition address_report (b : buffers) (segments : list string) (addresses : list Z) : P (option (list row)) :=
  copy ← translate b addresses;
  if copy <? 0 then mret None else t ← address_table b segments (length addresses); mret (Some t).

(** ** multithread.c *)

(** What each thread has for itself, and what is the same for all. *)
Record areas : Type := Mk_areas { a_TLS : Z; a_stack : Z; a_heap : Z }.
Record image : Type := Mk_image { i_lib : Z; i_bss : Z; i_data : Z; i_code : Z }.

Definition segments : list string := ["TLS"; "stack"; "lib"; "heap"; "bss"; "data"; "code"].
Definition virtual_address (i : image) (a : areas) : list Z :=
  [a_TLS a; a_stack a; i_lib i; a_heap a; i_bss i; i_data i; i_code i].

(** thread1(), thread2(), thread3() and the end of main() are this code. *)
Definition thread_report (i : image) (ba : buffers * areas) : P (option (list row)) :=
  address_report ba.1 segments (virtual_address i ba.2).

(** The tables in the order of the sleeps; exit() ends the whole program. *)
Fixpoint multithread (i : image) (threads : list (buffers * areas)) : P (list (list row)) :=
  match threads with
  | [] => mret []
  | ba :: threads' =>
      r ← thread_report i ba;
      match r with
      | None => mret []
      | Some t => ts ← multithread i threads'; mret (t :: ts)
      end
  end.

(** ** test2.c: the table again and again until the input is 0

    The column with the values of the variables has no counterpart. *)
Definition test2_segments : list string := ["stack"; "getpid"; "heap"; "bss"; "data"; "code"].
Fixpoint test2_loop (table : list row) (inputs : list Z) : list (list row) :=
  match inputs with
  | [] => [table]            (* waiting for input *)
  | block_input :: inputs' => table :: (if block_input =? 0 then [] else test2_loop table inputs')
  end.
Definition test2 (b : buffers) (addresses : list Z) (inputs : list Z) : P (list (list row)) :=
  r ← address_report b test2_segments addresses;
  match r with None => mret [] | Some table => mret (test2_loop table inputs) end.

(** ** test1.c: the result of the system call is not looked at *)
Definition test1 (b : buffers) (addresses : list Z) : P (list row) :=
  translate b addresses ;;
  address_table b ["i = 0"; "i = 1"; "i = 2"] (length addresses).
End Programs.

(** * What the programs show *)

(** The table a thread should print. *)
Definition shown (mem : gmap Z Z) (mm : Z) (segs : list string) (addresses : list Z) : list row :=
  zip (zip segs addresses) ((fun va => default 0 (mmu_translate mem mm va)) <$> addresses).

(** The arrays of a thread lie in its memory, apart from each other, and fit. *)
Record buffers_ok (u : gmap Z Z) (n : nat) (b : buffers) : Prop := {
  bo_virtual : user_room u (b_virtual b) n;
  bo_physical : user_room u (b_physical b) n;
  bo_apart : forall i j, (i < n)%nat -> (j < n)%nat -> b_virtual b + 8 * Z.of_nat i <> b_physical b + 8 * Z.of_nat j;
  bo_room : 16 * Z.of_nat n <= b_room b;
  bo_slot : u !! b_slot b = None;
}.

(** The same words exist. *)
Definition same_words (u u' : gmap Z Z) : Prop := forall a, is_Some (u !! a) <-> is_Some (u' !! a).

#[export] Instance same_words_equiv : Equivalence same_words.
Proof. unfold same_words. split; [done | by intros u u' E a | intros u1 u2 u3 E1 E2 a; by rewrite E1]. Qed.

Lemma written_words base l u u' :
  user_room u base (length l) -> user_array u' base l -> outside base (length l) u u' -> same_words u u'.
Proof.
  intros Hr Ha Ho a. destruct (decide (Exists (fun i => a = base + 8 * Z.of_nat i) (seq 0 (length l)))) as [Hin|Hout].
  - apply list.Exists_exists in Hin as (i & Hi & ->). apply elem_of_seq in Hi.
    destruct (lookup_lt_is_Some_2 l i) as [v Hv]; [lia|]. rewrite (Ha i v Hv). split; intros _; [by eexists | apply Hr; lia].
  - rewrite Ho; [done|]. intros i Hi ->. apply Hout, list.Exists_exists. exists i. split; [apply elem_of_seq; lia | done].
Qed.

Lemma buffers_ok_words u u' n b : same_words u u' -> buffers_ok u n b -> buffers_ok u' n b.
Proof.
  intros E [Hv Hp Ha Hr Hs]. split; [intros i Hi; apply E, Hv; done | intros i Hi; apply E, Hp; done | done | done |].
  destruct (u' !! b_slot b) eqn:E'; [|done]. assert (is_Some (u !! b_slot b)) as [? ?] by (apply E; by eexists). congruence.
Qed.

Lemma read_array_user u base l : user_array u base l -> read_array base (length l) u = l.
Proof. intros Ha. unfold read_array. by rewrite copy_from_user_array. Qed.

Lemma walk_all mem mm addresses : Forall (mapped_4k mem mm) addresses ->
  exists ws, Forall2 (fun va w => walk mem mm va = Some w) addresses ws /\
    zip_with walk_addr addresses ws = (fun va => default 0 (mmu_translate mem mm va)) <$> addresses.
Proof.
  induction 1 as [|va l Hva _ (ws & HF & IH)]; [by exists []|].
  destruct (walk_mapped mem mm va Hva) as (pte & Hw & Ht). exists (found pte :: ws). split; [by constructor|].
  cbn [zip_with fmap list_fmap]. rewrite walk_addr_found, x86_frame, Ht, IH. reflexivity.
Qed.

(** One report: the table is the hardware's translation, and memory but for the two
    arrays is as before. *)
Lemma wp_report b segs addresses s :
  buffers_ok (ps_user s) (length addresses) b -> Forall (mapped_4k (ps_mem s) (ps_mm s)) addresses ->
  wp (address_report b segs addresses) (fun r s' =>
    r = Some (shown (ps_mem s) (ps_mm s) segs addresses) /\
    ps_mem s' = ps_mem s /\ ps_mm s' = ps_mm s /\ same_words (ps_user s) (ps_user s')) s.
Proof.
  intros HB HM. destruct (walk_all _ _ _ HM) as (ws & HF & Hws). unfold address_report, translate, address_table. apply wp_bind, wp_bind, wp_modify.
  destruct (copy_to_user_room (ps_user s) (b_virtual b) addresses (bo_virtual _ _ _ HB)) as [Ha Ho].
  set (u1 := (copy_to_user (ps_user s) (b_virtual b) addresses).1) in *.
  pose proof (written_words _ _ _ _ (bo_virtual _ _ _ HB) Ha Ho) as E1.
  pose proof (buffers_ok_words _ _ _ _ E1 HB) as HB1.
  set (s1 := s <| ps_user := u1 |>).
  eapply wp_mono; [apply (wp_my_get_physical_addresses s1 (b_room b) (b_slot b) (b_virtual b) (b_physical b) _ addresses ws);
    [apply HB1 | apply HB1 | exact Ha | apply HB1 | exact HF]|].
  cbv beta. intros r s2 (-> & Hp & Ho2 & Em & Emm). cbn [Z.ltb Z.compare]. apply wp_bind, wp_bind, wp_gets, wp_ret, wp_ret.
  rewrite Hws in Hp. assert (Hv : user_array (ps_user s2) (b_virtual b) addresses).
  { intros i v Hi. rewrite Ho2; [by apply Ha|]. intros j Hj. apply (bo_apart _ _ _ HB1); [|done]. by eapply lookup_lt_Some. }
  split_and!; [| done | done |].
  - rewrite (read_array_user _ _ _ Hv). f_equal. unfold shown. f_equal.
    rewrite <- (read_array_user _ _ _ Hp), length_fmap. reflexivity.
  - etransitivity; [exact E1|]. eapply (written_words (b_physical b) (zip_with walk_addr addresses ws)); rewrite Hws.
    + rewrite length_fmap. apply HB1.
    + exact Hp.
    + by rewrite length_fmap.
Qed.

Lemma wp_multithread i threads s :
  Forall (fun ba => buffers_ok (ps_user s) 7 ba.1 /\ Forall (mapped_4k (ps_mem s) (ps_mm s)) (virtual_address i ba.2)) threads ->
  wp (multithread i threads) (fun ts s' =>
    ts = (fun ba => shown (ps_mem s) (ps_mm s) segments (virtual_address i ba.2)) <$> threads /\
    ps_mem s' = ps_mem s) s.
Proof.
  intros HF. revert s HF. induction threads as [|ba threads IH]; intros s HF; [by apply wp_ret|].
  apply list.Forall_cons in HF as [[HB HM] HF]. cbn [multithread]. apply wp_bind.
  eapply wp_mono; [apply (wp_report ba.1 segments (virtual_address i ba.2)); [exact HB | exact HM]|].
  cbv beta. intros r s1 (-> & Em & Emm & Ew). apply wp_bind. eapply wp_mono; [apply (IH s1)|].
  - rewrite Em, Emm. eapply list.Forall_impl; [exact HF|]. intros x [Hb Hm]. split; [by eapply buffers_ok_words | done].
  - cbv beta. intros ts s2 (-> & Em2). apply wp_ret. rewrite Em, Emm in *. split; [done | congruence].
Qed.

(** C19: multithread.c shows what threads share.  With every address in a mapped 4 KB
    page, each thread prints its table and no thread fails; every line has the
    physical address the hardware uses; the lines of the library, the bss, the data
    and the code are the same in all the tables; and a line of a thread's own areas is
    the same as another thread's only if the two addresses are. *)
Theorem multithread_shows_sharing i threads s
  (Hok : Forall (fun ba => buffers_ok (ps_user s) 7 ba.1 /\
                           Forall (mapped_4k (ps_mem s) (ps_mm s)) (virtual_address i ba.2)) threads) :
  wp (multithread i threads) (fun ts s' =>
    length ts = length threads /\ ps_mem s' = ps_mem s /\
    (forall t seg va pa, t ∈ ts -> (seg, va, pa) ∈ t -> mmu_translate (ps_mem s) (ps_mm s) va = Some pa) /\
    (forall t t' k, t ∈ ts -> t' ∈ ts -> k ∈ [2; 4; 5; 6]%nat -> is_Some (t !! k) /\ t !! k = t' !! k) /\
    (forall j j' t t' ba ba', ts !! j = Some t -> ts !! j' = Some t' ->
       threads !! j = Some ba -> threads !! j' = Some ba' ->
       (t !! 0%nat = t' !! 0%nat -> a_TLS ba.2 = a_TLS ba'.2) /\
       (t !! 1%nat = t' !! 1%nat -> a_stack ba.2 = a_stack ba'.2) /\
       (t !! 3%nat = t' !! 3%nat -> a_heap ba.2 = a_heap ba'.2))) s.
Proof.
  eapply wp_mono; [by apply wp_multithread|]. cbv beta. intros ts s' (-> & Em).
  split; [by rewrite length_fmap|]. split; [done|]. split_and!.
  - intros t seg va pa Ht Hin. apply list_elem_of_fmap in Ht as (ba & -> & Hba).
    destruct (proj1 (list.Forall_forall _ _) Hok ba Hba) as [_ HM]. rewrite list.Forall_forall in HM.
    apply elem_of_lookup_zip_with in Hin as (k & x & y & E & Hx & Hy). injection E as <- <-.
    apply lookup_zip_with_Some in Hx as (sg & v & E & _ & Hv). injection E as _ <-.
    rewrite list_lookup_fmap, Hv in Hy. injection Hy as <-. specialize (HM va (list_elem_of_lookup_2 _ _ _ Hv)).
    destruct (walk_mapped _ _ _ HM) as (pte & _ & Et). by rewrite Et.
  - intros t t' k Ht Ht' Hk. apply list_elem_of_fmap in Ht as (ba & -> & _), Ht' as (ba' & -> & _).
    repeat (apply elem_of_cons in Hk as [-> | Hk]; [by split; [eexists|]|]). by apply elem_of_nil in Hk.
  - intros j j' t t' ba ba' Ht Ht' Hb Hb'. rewrite list_lookup_fmap, Hb in Ht. rewrite list_lookup_fmap, Hb' in Ht'.
    injection Ht as <-. injection Ht' as <-. cbn. split_and!; intros E; congruence.
Qed.

(** * The program on the sample address space

    The program's image is in the page at 0x7000, the threads' own areas are in the
    page at 0x8000. *)
Module ThreadsDemo.
Definition img : image := Mk_image 28672 28680 28688 28696.
Definition buf (k : Z) : buffers := Mk_buffers (100000 + 1000 * k) (100500 + 1000 * k) 8192 (-8).
Definition own (k : Z) : areas := Mk_areas (32768 + 64 * k) (32776 + 64 * k) (32784 + 64 * k).
Definition threads : list (buffers * areas) := (fun k => (buf k, own k)) <$> [1; 2; 3; 0].
Definition user : gmap Z Z :=
  list_to_map (flat_map (fun k => flat_map (fun j => [(100000 + 1000 * k + 8 * Z.of_nat j, 0); (100500 + 1000 * k + 8 * Z.of_nat j, 0)]) (seq 0 7)) [0; 1; 2; 3]).
Definition state : pstate := Mk_pstate 4096 sample_mem user [].

Ltac mapped_page pte := exists 8193, 12289, 16385, 20481, pte; repeat split; vm_compute; reflexivity.

Lemma threads_ok :
  Forall (fun ba => buffers_ok user 7 ba.1 /\ Forall (mapped_4k sample_mem 4096) (virtual_address img ba.2)) threads.
Proof.
  repeat constructor;
    first
      [ intros i Hi; do 7 (destruct i as [|i]; [eexists; vm_compute; reflexivity|]); lia
      | intros i j Hi Hj; cbn; lia
      | mapped_page 36865 | mapped_page 40961
      | vm_compute; congruence ].
Qed.

Lemma multithread_shows_sharing_witness :
  wp (multithread img threads) (fun ts s' => length ts = 4%nat /\
    forall t t', t ∈ ts -> t' ∈ ts -> t !! 5%nat = t' !! 5%nat) state.
Proof.
  eapply wp_mono; [exact (multithread_shows_sharing img threads state threads_ok)|].
  cbv beta. intros ts s' (Hl & _ & _ & Hs & _). split; [exact Hl|].
  intros t t' Ht Ht'. apply (Hs t t' 5%nat Ht Ht'). set_solver.
Defined.

(** The tables of the first two threads. *)
Example tables :
  match multithread img (take 2 threads) state with
  | Ret ts _ => map (map (fun x : row => x.2)) ts
  | Stuck _ => []
  end = [[41024; 41032; 36864; 41040; 36872; 36880; 36888]; [41088; 41096; 36864; 41104; 36872; 36880; 36888]].
Proof. vm_compute. reflexivity. Qed.
End ThreadsDemo.
