(* ===== verification/TaskReport.v ===== *)
(** Reports on tasks (core.c): sched_show_task(), show_state_filter(),
    dump_rq_tasks() and dump_cpu_task(), as the sequence of the lines they print; and
    the small inline functions of sched.h on the words of a task: state tests, thread
    flags, PF_USED_MATH and the owner of a lock.

    A line is an event with the numbers it shows; the name of a task and its stack
    trace have no counterpart. *)
From Stdlib Require Import Ascii.
From S2P Require Import Prelude Headers Proc Kernel Extern Prio Affinity Migrate Schedule Setscheduler SchedSyscalls.
From S2P Require Import ForkExtern Fork TaskState.

#[local] Open Scope Z_scope.

(** * Reports *)
Section Report.
Context {H : Headers}.
(** Of other files: whether the stack of a task can be held, its unused part, the
    words exit_state and thread_info.flags. *)
Context (try_get_task_stack : machine -> Z -> bool) (stack_not_used exit_state read_task_thread_flags : machine -> Z -> Z).

Definition code (c : option ascii) : Z := match c with Some a => Z.of_nat (nat_of_ascii a) | None => 0 end.

Definition sched_show_task (p : Z) : K unit :=
  held ← gets (fun m => try_get_task_stack m p);
  if negb held then mret tt
  else
    t ← deref (R := task_struct) p;
    es ← gets (fun m => exit_state m p);
    emit "task state" [p; code (Report.task_state_to_char (ts_state t) es)] ;;
    when (task_is_running t) (emit "running task" [p]) ;;
    free ← gets (fun m => stack_not_used m p);
    x ← proc p;
    ppid ← (if negb (pi_thread_pid x =? NULL)
            then pi_real_parent x ⇝ ts_pid else mret 0);
    flags ← gets (fun m => read_task_thread_flags m p);
    emit "stack pid ppid flags" [free; ts_pid t; ppid; flags] ;;
    emit "print_worker_info" [p] ;;
    emit "print_stop_info" [p] ;;
    emit "show_stack" [p] ;;
    emit "put_task_stack" [p].

(** [threads] is the list for_each_process_thread() goes through. *)
Definition show_state_filter (threads : list Z) (state_filter : Z) : K unit :=
  mapM_ (fun p =>
    emit "touch_nmi_watchdog" [] ;;
    emit "touch_all_softlockup_watchdogs" [] ;;
    t ← deref (R := task_struct) p;
    when (state_filter_match state_filter t) (sched_show_task p)) threads ;;
  when (state_filter =? 0) (emit "sysrq_sched_debug_show" []) ;;
  when (state_filter =? 0) (emit "debug_show_all_locks" []).

Definition dump_rq_tasks (threads : list Z) (r : Z) : K unit :=
  q ← deref (R := rq) r;
  emit "enqueued tasks" [rq_cpu q; rq_nr_running q] ;;
  mapM_ (fun p =>
    t ← deref (R := task_struct) p;
    if negb (ts_cpu t =? rq_cpu q) then mret tt
    else if negb (task_on_rq_queued t) then mret tt
    else emit "enqueued" [ts_pid t]) threads.

Definition dump_cpu_task (cpu : Z) : K unit :=
  emit "Task dump for CPU" [cpu] ;;
  curr ← cpu ⇝ rq_curr;
  sched_show_task curr.

Definition idle_task (cpu : Z) : K Z := cpu ⇝ rq_idle.
Definition curr_task (cpu : Z) : K Z := cpu ⇝ rq_curr.

(** ** What is shown *)

(** The line of a task that is queued on CPU [cpu]. *)
Definition queued_line (m : machine) (cpu p : Z) : option event :=
  t ← m_tasks m !! p;
  if ((ts_cpu t =? cpu) && task_on_rq_queued t)%bool then Some (Ev "enqueued" [ts_pid t]) else None.

Lemma wp_dump_lines threads cpu m l0 :
  Forall (fun p => is_Some (m_tasks m !! p)) threads ->
  wp (mapM_ (fun p =>
      t ← deref (R := task_struct) p;
      if negb (ts_cpu t =? cpu) then mret tt
      else if negb (task_on_rq_queued t) then mret tt
      else emit "enqueued" [ts_pid t]) threads)
    (fun _ m' => m' = m <| m_log := l0 ++ omap (queued_line m cpu) threads |>) (m <| m_log := l0 |>).
Proof.
  intros HF. revert l0. induction HF as [|p threads [t Ht] _ IH]; intros l0.
  - apply wp_ret. cbn. by rewrite app_nil_r.
  - cbn [mapM_]. apply wp_bind, wp_bind, wp_deref. exists t. split; [done|].
    assert (Ef : queued_line m cpu p =
      if ((ts_cpu t =? cpu) && task_on_rq_queued t)%bool then Some (Ev "enqueued" [ts_pid t]) else None)
      by (unfold queued_line; by rewrite Ht).
    cbn [omap list_omap]. rewrite Ef. destruct (ts_cpu t =? cpu); cbn [negb andb]; [|by apply wp_ret, IH].
    destruct (task_on_rq_queued t); cbn [negb]; [|by apply wp_ret, IH]. apply wp_emit.
    specialize (IH (l0 ++ [Ev "enqueued" [ts_pid t]])). rewrite <- app_assoc in IH. exact IH.
Qed.

(** dump_rq_tasks() prints the number of tasks of the run queue and then, in the
    order of the task list, exactly those that are queued on its CPU. *)
Lemma dump_rq_tasks_lists threads r q m :
  m_rqs m !! r = Some q -> Forall (fun p => is_Some (m_tasks m !! p)) threads ->
  wp (dump_rq_tasks threads r) (fun _ m' => m' = m <| m_log :=
    (m_log m ++ [Ev "enqueued tasks" [rq_cpu q; rq_nr_running q]]) ++ omap (queued_line m (rq_cpu q)) threads |>) m.
Proof.
  intros Hq HF. unfold dump_rq_tasks. apply wp_bind, wp_deref. exists q. split; [done|].
  apply wp_bind, wp_emit. by apply wp_dump_lines.
Qed.

(** The filter for hung tasks (SysRq-w) passes over idle kernel threads and finds
    killable waits. *)
Lemma filter_uninterruptible t :
  state_filter_match TASK_UNINTERRUPTIBLE t = (has_flag (ts_state t) TASK_UNINTERRUPTIBLE && negb (ts_state t =? TASK_IDLE))%bool.
Proof. unfold state_filter_match. cbn. by destruct (has_flag _ _), (_ =? TASK_IDLE). Qed.

(** No task found by it is shown as running, sleeping or idle. *)
Lemma filter_letter t es c :
  state_filter_match TASK_UNINTERRUPTIBLE t = true ->
  Report.task_state_to_char (ts_state t) es = Some c -> c <> "R"%char /\ c <> "S"%char /\ c <> "I"%char.
Proof.
  rewrite filter_uninterruptible. intros [Hb Hi]%andb_true_iff. apply negb_true_iff in Hi.
  unfold Report.task_state_to_char, Report.task_state_index. rewrite Hi. cbv zeta.
  set (w := if _ =? TASK_RTLOCK_WAIT then _ else _).
  assert (Hw : 2 <= w <= 127).
  { unfold w. destruct (_ =? TASK_RTLOCK_WAIT); [done|]. split; [|apply Report.report_range].
    pose proof (Report.report_range (Z.lor (ts_state t) es)) as Hr.
    assert (Ht : Z.testbit (Z.land (Z.lor (ts_state t) es) TASK_REPORT) 1 = true).
    { rewrite Z.land_spec, Z.lor_spec. unfold has_flag in Hb. apply truthy_true in Hb.
      assert (Z.testbit (ts_state t) 1 = true) as ->; [|done].
      destruct (Z.testbit (ts_state t) 1) eqn:E; [done|]. exfalso. apply Hb. apply Z.bits_inj'. intros n Hn.
      rewrite Z.land_spec, Z.bits_0. change TASK_UNINTERRUPTIBLE with (2 ^ 1). rewrite Z.pow2_bits_eqb by lia.
      destruct (Z.eqb_spec 1 n) as [<-|]; [by rewrite E | by rewrite andb_false_r]. }
    destruct (Z.le_gt_cases 2 (Z.land (Z.lor (ts_state t) es) TASK_REPORT)) as [?|Hlt]; [done|].
    exfalso. assert (Hc : Z.land (Z.lor (ts_state t) es) TASK_REPORT = 0 \/ Z.land (Z.lor (ts_state t) es) TASK_REPORT = 1) by lia.
    destruct Hc as [E|E]; rewrite E in Ht; done. }
  clearbody w. assert (Hf : 2 <= Report.fls w <= 7).
  { split; [|apply Report.fls_range; lia]. unfold Report.fls. destruct (Z.eqb_spec w 0); [lia|].
    pose proof (Z.log2_le_mono 2 w ltac:(lia)). change (Z.log2 2) with 1 in *. lia. }
  assert (Hc : Report.fls w = 2 \/ Report.fls w = 3 \/ Report.fls w = 4 \/ Report.fls w = 5 \/ Report.fls w = 6 \/ Report.fls w = 7) by lia.
  repeat destruct Hc as [-> | Hc]; [..|rewrite Hc]; vm_compute; intros [= <-]; split_and!; done.
Qed.
End Report.

(** * Words of a task (sched.h) *)
Module Words.
(** ** States *)
Definition task_is_traced (state : Z) : bool := has_flag state __TASK_TRACED.
Definition task_is_stopped (state : Z) : bool := has_flag state __TASK_STOPPED.
Definition task_is_stopped_or_traced (state : Z) : bool := has_flag state (Z.lor __TASK_STOPPED __TASK_TRACED).

Lemma stopped_or_traced state : task_is_stopped_or_traced state = (task_is_stopped state || task_is_traced state)%bool.
Proof.
  unfold task_is_stopped_or_traced, task_is_stopped, task_is_traced, has_flag. rewrite Z.land_lor_distr_r.
  destruct (truthy (Z.lor _ _)) eqn:E.
  - destruct (truthy (Z.land state __TASK_STOPPED)) eqn:E1; [done|].
    destruct (truthy (Z.land state __TASK_TRACED)) eqn:E2; [done|].
    apply truthy_false in E1, E2. rewrite E1, E2 in E. done.
  - apply truthy_false, Z.lor_eq_0_iff in E as [-> ->]. done.
Qed.

(** The checks at the two kinds of state change under CONFIG_DEBUG_ATOMIC_SLEEP:
    the warning, and the instruction recorded. *)
Definition debug_normal_state_change (ip state_value : Z) : bool * Z := (is_special_task_state state_value, ip).
Definition debug_special_state_change (ip state_value : Z) : bool * Z := (negb (is_special_task_state state_value), ip).

(** set_current_state() and set_special_state(), with the word task_state_change;
    the barrier and the lock order them against wake-ups. *)
Definition set_current_state (ip state_value : Z) (st : Z * Z) : bool * (Z * Z) :=
  let '(warn, change) := debug_normal_state_change ip state_value in (warn, (state_value, change)).
Definition set_special_state (ip state_value : Z) (st : Z * Z) : bool * (Z * Z) :=
  let '(warn, change) := debug_special_state_change ip state_value in (warn, (state_value, change)).

(** Every state is set without a warning by exactly one of the two. *)
Lemma one_way_to_set ip v st : (set_current_state ip v st).1 = negb (set_special_state ip v st).1.
Proof. cbn. by rewrite negb_involutive. Qed.

(** ** Thread flags *)
Definition set_tsk_thread_flag (flag w : Z) : Z := Z.setbit w flag.
Definition clear_tsk_thread_flag (flag w : Z) : Z := Z.clearbit w flag.
Definition test_tsk_thread_flag (flag w : Z) : bool := Z.testbit w flag.
Definition update_tsk_thread_flag (flag : Z) (value : bool) (w : Z) : Z :=
  if value then set_tsk_thread_flag flag w else clear_tsk_thread_flag flag w.
Definition test_and_set_tsk_thread_flag (flag w : Z) : bool * Z := (Z.testbit w flag, Z.setbit w flag).
Definition test_and_clear_tsk_thread_flag (flag w : Z) : bool * Z := (Z.testbit w flag, Z.clearbit w flag).

(** Every update sets its flag to the value asked for and no other flag. *)
Lemma update_flag_spec flag value w n : 0 <= flag -> 0 <= n ->
  test_tsk_thread_flag n (update_tsk_thread_flag flag value w) = if n =? flag then value else test_tsk_thread_flag n w.
Proof.
  intros Hf Hn. unfold test_tsk_thread_flag, update_tsk_thread_flag, set_tsk_thread_flag, clear_tsk_thread_flag.
  destruct value, (Z.eqb_spec n flag) as [->|Hne].
  - by apply Z.setbit_eq.
  - by apply Z.setbit_neq.
  - apply Z.clearbit_eq.
  - by apply Z.clearbit_neq.
Qed.

(** Taking a flag and giving it back: only the first of two takers gets it. *)
Lemma test_and_set_once flag w : 0 <= flag ->
  (test_and_set_tsk_thread_flag flag (test_and_set_tsk_thread_flag flag w).2).1 = true /\
  (test_tsk_thread_flag flag w = false ->
   (test_and_clear_tsk_thread_flag flag (test_and_set_tsk_thread_flag flag w).2).2 = w).
Proof.
  intros Hf. cbn. split; [by apply Z.setbit_eq|]. unfold test_tsk_thread_flag. intros E. apply Z.bits_inj'. intros n Hn.
  destruct (decide (n = flag)) as [->|Hne]; [by rewrite Z.clearbit_eq, E|].
  rewrite Z.clearbit_neq, Z.setbit_neq; done.
Qed.

(** ** PF_USED_MATH *)
Definition PF_USED_MATH : Z := 0x00002000.
Definition clear_stopped_child_used_math (flags : Z) : Z := Z.ldiff flags PF_USED_MATH.
Definition set_stopped_child_used_math (flags : Z) : Z := Z.lor flags PF_USED_MATH.
Definition conditional_stopped_child_used_math (condition : bool) (flags : Z) : Z :=
  Z.lor (Z.ldiff flags PF_USED_MATH) (if condition then PF_USED_MATH else 0).
Definition copy_to_stopped_child_used_math (current_flags flags : Z) : Z :=
  Z.lor (Z.ldiff flags PF_USED_MATH) (Z.land current_flags PF_USED_MATH).
Definition tsk_used_math (flags : Z) : Z := Z.land flags PF_USED_MATH.

Lemma copy_used_math current_flags flags :
  tsk_used_math (copy_to_stopped_child_used_math current_flags flags) = tsk_used_math current_flags /\
  clear_stopped_child_used_math (copy_to_stopped_child_used_math current_flags flags) = clear_stopped_child_used_math flags.
Proof.
  unfold tsk_used_math, copy_to_stopped_child_used_math, clear_stopped_child_used_math.
  split; apply Z.bits_inj'; intros n Hn; rewrite ?Z.land_spec, ?Z.ldiff_spec, ?Z.lor_spec, ?Z.ldiff_spec, ?Z.land_spec;
    destruct (Z.testbit PF_USED_MATH n), (Z.testbit current_flags n), (Z.testbit flags n); done.
Qed.

(** ** The owner of a lock *)
Definition vcpu_is_preempted (cpu : Z) : bool := false.
Definition owner_on_cpu (vcpu_is_preempted : Z -> bool) (t : task_struct) : bool :=
  (truthy (ts_on_cpu t) && negb (vcpu_is_preempted (ts_cpu t)))%bool.
Definition spin_needbreak (CONFIG_PREEMPTION : bool) (contended : bool) : bool := if CONFIG_PREEMPTION then contended else false.
Definition rwlock_needbreak (CONFIG_PREEMPTION : bool) (contended : bool) : bool := if CONFIG_PREEMPTION then contended else false.
End Words.
