(* ===== verification/System.v ===== *)
(** The scheduler as a whole: scheduler entries, the system call of the project,
    nice values, NUMA placement, wake-ups and whatever else leaves priorities and
    current tasks alone, on any CPU in any order. *)
From S2P Require Import Prelude Headers Proc Kernel Extern RqClock Uclamp Prio SchedOK Mm Affinity AffinityProofs.
From S2P Require Import Schedule LazyMm ScheduleProofs Sample PrioProofs MyPriority Migrate MigrateProofs Wakeup WakeProofs.
From S2P Require Import WakeSample Setscheduler SchedSyscalls SchedMisc.

(** What the code outside the repository leaves alone, whatever the state: cpuset.c
    changes the CPU mask of the task, and the class method for a woken task moves
    tasks; neither touches priorities or address spaces.  A wake-up that waits for
    another CPU is interleaved with the steps of that CPU; the last field is about
    the wake-ups that do not, for which [meanwhile] may as well be stuck. *)
Class WakeFrames {H : Headers} (X : Extern) (Mg : MigrateExtern) : Prop := {
  cpuset_head p : preserves head_frame (cpuset_cpus_allowed_fallback p);
  woken_head c r p : preserves head_frame (cl_task_woken c r p);
  meanwhile_head p : preserves head_frame (meanwhile p);
}.

(** * What a wake-up leaves alone *)
Section Frames.
Context {H : Headers} {X : Extern} {Mg : MigrateExtern}.
Context {HOK : HeadersOK H} {XOK : ExternOK X} {MOK : MigrateExternOK Mg} {WF : WakeFrames X Mg}.

Lemma quiet_head {A} (c : K A) : preserves quiet_frame c -> preserves head_frame c.
Proof. intros Hc m a m' E. apply class_head_frame, quiet_class_frame. by eapply Hc. Qed.

#[local] Hint Extern 2 (preserves (frame task_head _ _) (emit _ _)) => solve [apply frame_emit; done] : preserve.
#[local] Hint Extern 2 (preserves (frame task_head _ _) (upd_obj _ _)) =>
  solve [apply frame_upd_task; done | apply frame_upd_rq; done] : preserve.
#[local] Hint Extern 2 (preserves (frame task_head _ _) (wr _ _ _)) =>
  solve [apply frame_upd_task; done | apply frame_upd_rq; done] : preserve.
#[local] Hint Extern 4 (preserves (frame task_head _ _) _) => solve [apply quiet_head; eauto 3 with preserve] : preserve.
#[local] Hint Resolve cpuset_head woken_head meanwhile_head : preserve.

Lemma wait_head b p : preserves head_frame (wait_while b p).
Proof. unfold wait_while. keep. Qed.
#[local] Hint Resolve wait_head : preserve.

Lemma inc_id_head r p id : preserves head_frame (uclamp_rq_inc_id r p id).
Proof.
  unfold uclamp_rq_inc_id, uclamp_eff_get, uclamp_tg_restrict, rd_bucket, wr_bucket, upd_uclamp,
    uclamp_idle_reset, upd_rq_uclamp. keep.
Qed.
#[local] Hint Resolve inc_id_head : preserve.

Lemma dec_id_head r p id : preserves head_frame (uclamp_rq_dec_id r p id).
Proof.
  unfold uclamp_rq_dec_id, rd_bucket, wr_bucket, upd_uclamp, uclamp_rq_max_value, upd_rq_uclamp, uclamp_idle_value. keep.
Qed.
#[local] Hint Resolve dec_id_head : preserve.

Lemma enqueue_head r p f : preserves head_frame (enqueue_task r p f).
Proof. unfold enqueue_task, uclamp_rq_inc, clear_idle_flag. keep. Qed.
Lemma dequeue_head r p f : preserves head_frame (dequeue_task r p f).
Proof. unfold dequeue_task, uclamp_rq_dec. keep. Qed.
#[local] Hint Resolve enqueue_head dequeue_head : preserve.

Lemma resched_head r : preserves head_frame (resched_curr r).
Proof. unfold resched_curr, set_tsk_need_resched, set_nr_and_not_polling. keep. Qed.
Lemma clock_head r : preserves head_frame (update_rq_clock r).
Proof. unfold update_rq_clock, update_rq_clock_task. keep. Qed.
#[local] Hint Resolve resched_head clock_head : preserve.

Lemma check_preempt_head r p f : preserves head_frame (check_preempt_curr r p f).
Proof. unfold check_preempt_curr, rq_clock_skip_update. keep. Qed.
Lemma idle_stamp_head r : preserves head_frame (ttwu_idle_stamp r).
Proof. unfold ttwu_idle_stamp. keep. Qed.
#[local] Hint Resolve check_preempt_head idle_stamp_head : preserve.

Lemma do_wakeup_head r p f : preserves head_frame (ttwu_do_wakeup r p f).
Proof. unfold ttwu_do_wakeup. keep. Qed.
#[local] Hint Resolve do_wakeup_head : preserve.

Lemma do_activate_head r p f : preserves head_frame (ttwu_do_activate r p f).
Proof. unfold ttwu_do_activate, end_iowait, activate_task. keep. Qed.
Lemma set_task_cpu_head p c : preserves head_frame (set_task_cpu p c).
Proof. unfold set_task_cpu. keep. apply frame_upd_task; [|done]. intros t. by rewrite task_set_cpu_val. Qed.
#[local] Hint Resolve do_activate_head set_task_cpu_head : preserve.

Lemma pending_head l : preserves head_frame (sched_ttwu_pending l).
Proof. unfold sched_ttwu_pending, ttwu_pending_one. keep. Qed.
#[local] Hint Resolve pending_head : preserve.

Lemma wake_list_head : preserves head_frame wake_list_ipi.
Proof. unfold wake_list_ipi. keep. Qed.

Lemma class_mask_head c p k f : preserves head_frame (cl_set_cpus_allowed c p k f).
Proof. unfold cl_set_cpus_allowed, set_cpus_allowed_common. keep. Qed.
#[local] Hint Resolve class_mask_head : preserve.

Lemma do_set_cpus_head p k : preserves head_frame (do_set_cpus_allowed p k).
Proof. unfold do_set_cpus_allowed, __do_set_cpus_allowed, task_current, put_prev_task, set_next_task. keep. Qed.
#[local] Hint Resolve do_set_cpus_head : preserve.

(** Looking for a CPU changes at most the mask of the task. *)
Lemma is_cpu_allowed_head p c : preserves head_frame (is_cpu_allowed p c).
Proof. unfold is_cpu_allowed. keep. Qed.
#[local] Hint Resolve is_cpu_allowed_head : preserve.

Lemma first_allowed_head p l : preserves head_frame (first_allowed p l).
Proof. induction l; cbn [first_allowed]; keep. Qed.
#[local] Hint Resolve first_allowed_head : preserve.

Lemma fallback_loop_head n p s : preserves head_frame (fallback_loop n p s).
Proof. revert s. induction n as [|n IH]; intros s; cbn [fallback_loop]; keep. Qed.
#[local] Hint Resolve fallback_loop_head : preserve.

Lemma select_rq_head p c f : preserves head_frame (select_task_rq p c f).
Proof. unfold select_task_rq, select_fallback_rq. keep. Qed.
#[local] Hint Resolve select_rq_head : preserve.

Lemma wakelist_head p c f : preserves head_frame (ttwu_queue_wakelist p c f).
Proof. unfold ttwu_queue_wakelist, ttwu_queue_cond, __ttwu_queue_wakelist, send_call_function_single_ipi,
    set_nr_if_polling. keep. Qed.
#[local] Hint Resolve wakelist_head : preserve.

Lemma try_to_wake_up_head p st f : preserves head_frame (try_to_wake_up p st f).
Proof.
  unfold try_to_wake_up, ttwu_state_match, ttwu_runnable, ttwu_enqueue, ttwu_queue, ttwu_stat, end_iowait. keep.
Qed.
End Frames.

(** * The steps of the system *)
Section System.
Context {H : Headers} {X : Extern}.
Context {HOK : HeadersOK H} {XOK : ExternOK X} {XS : ExternSafe X}.

(** The machine, and the tasks that were given a nice value since a CPU last
    scheduled them in.  A CPU enters the scheduler, or calls
    my_set_process_priority(), sets the nice value of any task, sets the NUMA node
    of a task, or does something else that leaves the priorities, the address
    spaces and the current tasks alone and the machine well formed. *)
Inductive sys_step : machine * gset Z -> machine * gset Z -> Prop :=
| sys_schedule c mode m m' N :
    is_Some (m_rqs m !! c) -> __schedule mode (enter c 1 m) = Ret tt m' ->
    sys_step (m, N) (m', N ∖ {[m_current m']})
| sys_set_priority c fuel priority res m m' N :
    is_Some (m_rqs m !! c) -> my_set_process_priority fuel priority (enter c 0 m) = Ret res m' ->
    sys_step (m, N) (m', if fixed_prio_valid priority then N ∖ {[m_current m']} else N)
| sys_nice c p nice m m' N :
    is_Some (m_rqs m !! c) -> is_Some (m_tasks m !! p) -> set_user_nice p nice (enter c 0 m) = Ret tt m' ->
    sys_step (m, N) (m', N ∪ {[p]})
| sys_setnuma c p nid m m' N :
    is_Some (m_rqs m !! c) -> is_Some (m_tasks m !! p) -> sched_setnuma p nid (enter c 0 m) = Ret tt m' ->
    sys_step (m, N) (m', N)
| sys_other c m m' N :
    is_Some (m_rqs m !! c) -> head_frame (enter c 0 m) m' -> kernel_ok m' -> sys_step (m, N) (m', N).

(** What every step keeps. *)
Definition sys_ok (s : machine * gset Z) : Prop :=
  sched_ok s.1 /\ forall p, running s.1 p -> p ∉ s.2 -> in_force s.1 p.

Lemma enter_sys_ok c n m N : is_Some (m_rqs m !! c) -> sys_ok (m, N) -> sys_ok (enter c n m, N).
Proof. intros Hc [Hso Hall]. split; [by apply enter_sched_ok | exact Hall]. Qed.

Lemma in_force_head m m' p : head_frame m m' -> in_force m p -> in_force m' p.
Proof.
  intros F Hf t' Ht'. symmetry in F. destruct (frame_task _ _ _ _ _ _ _ F Ht') as (t & Ht & Et).
  unfold task_head, prio_attrs in Et. specialize (Hf t Ht).
  assert (ts_static_prio t' = ts_static_prio t) as -> by congruence.
  by assert (ts_my_fixed_priority t' = ts_my_fixed_priority t) as -> by congruence.
Qed.

Lemma running_head m m' p : head_frame m m' -> running m' p -> running m p.
Proof. intros F. apply running_so, head_so_frame. by symmetry. Qed.

Lemma sys_ok_head m m' N : head_frame m m' -> kernel_ok m' -> sys_ok (m, N) -> sys_ok (m', N).
Proof.
  intros F Hok [Hso Hall]. split; [by eapply sched_ok_head|]. intros p Hr Hp.
  eapply in_force_head; [exact F|]. apply Hall; [by eapply running_head | done].
Qed.

(** The scheduler puts in force the priority of the task it leaves running on [c]. *)
Lemma sched_rel_sys_ok c m m' N :
  sched_rel c m m' -> (forall k q, m_rqs m !! k = Some q -> k <> c -> rq_curr q ∉ N -> in_force m (rq_curr q)) ->
  sys_ok (m', N ∖ {[m_current m']}).
Proof.
  intros Hrel Hall. split; [apply Hrel|]. cbn. intros p Hr Hp.
  destruct (decide (p = m_current m')) as [->|Hne]; [apply Hrel|].
  eapply sched_rel_in_force_at; [exact Hrel | done |]. intros k q Hq Hk <-. apply (Hall k q Hq Hk). set_solver.
Qed.

(** A nice value reaches the task it is for only. *)
Lemma nice_sys_ok p nice m m' N :
  sys_ok (m, N) -> is_Some (m_tasks m !! p) -> set_user_nice p nice m = Ret tt m' -> sys_ok (m', N ∪ {[p]}).
Proof.
  intros [Hso Hall] [t Ht] E. cbn in Hso, Hall.
  assert (Hwp : wp (set_user_nice p nice)
    (fun _ m1 => m1 = m \/ kernel_ok m1 /\ now_is m p (nice_task t nice) m1) m).
  { destruct (decide (task_nice t <> nice /\ -20 <= nice <= 19)) as [[Hne Hn]|Hno].
    - eapply wp_set_user_nice; [apply Hso | done.. |]. intros m1 Hok1 Hnow. by right.
    - unfold set_user_nice. wp_go. rewrite MIN_NICE_val, MAX_NICE_val.
      replace ((task_nice t =? nice) || (nice <? -20) || (19 <? nice))%bool with true by lia. apply wp_ret. by left. }
  unfold wp in Hwp. rewrite E in Hwp.
  destruct Hwp as [-> | [Hok1 Hnow]]; [split; [done|]; intros q Hq Hn; apply Hall; set_solver|].
  set (u := nice_task t nice) in *.
  assert (Emm : task_mmp u = task_mmp t) by (unfold u, nice_task; by destruct (_ || _)%bool).
  assert (Fso : so_frame m (set_task p u m)) by (by apply frame_set_task with t).
  apply class_head_frame in Hnow. split.
  { eapply sched_ok_so; [etransitivity; [exact Fso | by apply head_so_frame] | done | done]. }
  intros q Hq Hn. cbn in Hq, Hn. eapply in_force_head; [exact Hnow|]. intros t' Ht'. cbn in Ht'.
  rewrite lookup_insert_ne in Ht' by set_solver. revert t' Ht'. apply (Hall q); [|set_solver].
  by apply (running_head _ _ _ Hnow) in Hq.
Qed.

Lemma now_same_sys_ok p t m m' N :
  sys_ok (m, N) -> m_tasks m !! p = Some t -> kernel_ok m' -> now_is m p t m' -> sys_ok (m', N).
Proof.
  intros Hok Ht Hok' Hnow. eapply sys_ok_head; [|done | exact Hok].
  apply class_head_frame. unfold now_is, set_task in Hnow. rewrite insert_id in Hnow by done. by destruct m.
Qed.

Lemma schedule_sys_ok c mode m m' N :
  sys_ok (m, N) -> is_Some (m_rqs m !! c) -> __schedule mode (enter c 1 m) = Ret tt m' ->
  sys_ok (m', N ∖ {[m_current m']}).
Proof.
  intros [Hso Hall] Hc E. cbn in Hso, Hall.
  assert (Hs : wp (__schedule mode) (fun _ m1 => sched_rel c (enter c 1 m) m1) (enter c 1 m)).
  { apply wp___schedule; [by apply enter_sched_ok | done |]. intros m1 Hso1 _ Hth Hp Ho. by apply prios_sched_rel. }
  unfold wp in Hs. rewrite E in Hs. eapply sched_rel_sys_ok; [exact Hs|].
  intros k q Hq _ Hn. apply (Hall (rq_curr q)); [by exists k, q | done].
Qed.

Lemma set_priority_sys_ok c fuel priority res m m' N :
  sys_ok (m, N) -> is_Some (m_rqs m !! c) -> my_set_process_priority fuel priority (enter c 0 m) = Ret res m' ->
  sys_ok (m', if fixed_prio_valid priority then N ∖ {[m_current m']} else N).
Proof.
  intros Hok Hc E. pose proof (enter_sys_ok c 0 m N Hc Hok) as Hok1. destruct Hok as [Hso Hall]. cbn in Hso, Hall.
  destruct (set_priority_rel _ _ _ _ _ (proj1 Hok1) eq_refl E) as [(-> & _ & ->) | (-> & _ & t & l & Ht & Hrel)]; [done|].
  destruct (sched_rel_sys_ok _ _ _ N Hrel) as [Hso' Hall']; [|split; [by eapply sched_ok_of_log | exact Hall']].
  intros k q Hq Hk Hn tk Htk. cbn in Hq, Htk.
  rewrite lookup_insert_ne in Htk by by apply (enter_current_ne c k q m Hso Hc).
  apply (Hall (rq_curr q)); [by exists k, q | done | done].
Qed.

Lemma sys_step_keeps s s' : sys_step s s' -> sys_ok s -> sys_ok s'.
Proof.
  intros Hs Hok. destruct Hs as [c mode m m' N Hc E | c fuel priority res m m' N Hc E | c p nice m m' N Hc Hp E
    | c p nid m m' N Hc [t Ht] E | c m m' N Hc F Hk].
  - by eapply schedule_sys_ok.
  - by eapply set_priority_sys_ok.
  - eapply nice_sys_ok; [by apply enter_sys_ok | exact Hp | exact E].
  - pose proof (enter_sys_ok c 0 m N Hc Hok) as Hok0.
    assert (Hwp : wp (sched_setnuma p nid) (fun _ m1 => kernel_ok m1 /\ now_is (enter c 0 m) p t m1) (enter c 0 m)).
    { apply sched_setnuma_keeps; [apply Hok0 | done]. }
    unfold wp in Hwp. rewrite E in Hwp. destruct Hwp as [Hok1 Hnow]. by eapply now_same_sys_ok.
  - eapply sys_ok_head; [exact F | done | by apply enter_sys_ok].
Qed.

(** C3: On every machine reachable from a well-formed one in which no running task
    violates it, by scheduler entries, my_set_process_priority() calls, nice values
    for any task, running or not, NUMA placements and any activity that leaves
    priorities, address spaces and current tasks alone and the run queues, clamps and
    task groups well formed ([kernel_ok]), on any CPU in any order, the machine is well
    formed ([sched_ok]) and every running task of every CPU has its fixed priority in
    force, unless it was given a nice value since a CPU last scheduled it in. *)
Theorem fixed_priority_always m m' N' :
  sched_ok m -> all_in_force m -> rtc sys_step (m, ∅) (m', N') ->
  sched_ok m' /\ forall p, running m' p -> p ∉ N' -> in_force m' p.
Proof.
  intros Hso Hall Hsteps. assert (Hok : sys_ok (m, ∅)) by (split; [done | by intros p Hp _; apply Hall]).
  enough (sys_ok (m', N')) by done. clear Hso Hall. revert Hok.
  induction Hsteps as [s|s s1 s' Hs _ IH]; [done|]. intros Hok. by eapply IH, sys_step_keeps.
Qed.

(** ** Wake-ups are such an activity *)
Section Wakes.
Context {Mg : MigrateExtern} {MOK : MigrateExternOK Mg} {WF : WakeFrames X Mg}.

Lemma wake_up_step c p state f r m m' N :
  is_Some (m_rqs m !! c) -> try_to_wake_up p state f (enter c 0 m) = Ret r m' -> kernel_ok m' -> sys_step (m, N) (m', N).
Proof. intros Hc E Hk. apply (sys_other c); [done | by eapply try_to_wake_up_head | done]. Qed.

Lemma wake_list_step c m m' N :
  is_Some (m_rqs m !! c) -> wake_list_ipi (enter c 0 m) = Ret tt m' -> kernel_ok m' -> sys_step (m, N) (m', N).
Proof. intros Hc E Hk. apply (sys_other c); [done | by eapply wake_list_head | done]. Qed.
End Wakes.
End System.

(** * The theorem at a concrete machine *)
Section Witness.
#[local] Existing Instance linux_headers.
#[local] Existing Instance Demo.extern.

(** CPU 0 wakes the kernel thread 13, and the scheduler switches to task 12, which
    gets the nice value 5 while it runs; the scheduler switches to tasks 13 and 11, and
    puts the fixed priority of task 12 back when that runs again. *)
Definition woken1 : machine :=
  after (try_to_wake_up (Mg := DemoMigrate.no_wait_extern) 13 TASK_NORMAL 0) (enter 0 0 machine1).
Definition sched1 (m : machine) : machine := after (__schedule SM_NONE) (enter 0 1 m).
Definition twelve1 : machine := sched1 woken1.
Definition niced1 : machine := after (set_user_nice 12 5) (enter 0 0 twelve1).
Definition again1 : machine := sched1 (sched1 (sched1 niced1)).

(** The wake-up does not wait, so that it leaves a well-formed machine. *)
Section Woken.
#[local] Existing Instance DemoMigrate.migrate_extern.
#[local] Existing Instance demo_migrate_ok.
#[local] Existing Instance demo_meanwhile_ok.

Lemma placeable_enter : placeable 13 (enter 0 0 machine1).
Proof.
  split.
  - split; [done | by apply disjoint_empty_r |].
    intros c Hc. cbn in Hc. assert (c = 0 \/ c = 1) as [-> | ->] by set_solver; by eexists.
  - exists kthread13, 0. do 3 (split; [reflexivity|]). split; cbn; set_solver.
Qed.

Lemma woken1_ok : kernel_ok woken1.
Proof.
  assert (Hw : wp (try_to_wake_up 13 TASK_NORMAL 0) (fun _ m' => kernel_ok m') (enter 0 0 machine1)).
  { eapply wp_try_to_wake_up; [| | reflexivity | done | reflexivity | | by intros].
    - apply enter_sched_ok; [by eexists | apply sched_ok1].
    - intros c q Hq. which_obj Hq; (split; [constructor|]); (split; [done|]); intros p Hp; by apply elem_of_nil in Hp.
    - split; [left; apply placeable_enter|]. exists kthread13. split; [reflexivity|]. right; right.
      split; [by exists kthread13|]. exists kthread13, (rq0 0 11 10 [11; 12]). by split_and!. }
  assert (E : exists r, try_to_wake_up 13 TASK_NORMAL 0 (enter 0 0 machine1) = Ret r woken1) by (vm_compute; by eexists).
  destruct E as [r E]. unfold wp in Hw. by rewrite E in Hw.
Qed.
End Woken.

#[local] Existing Instance DemoMigrate.no_wait_extern.
#[local] Instance no_wait_ok : MigrateExternOK DemoMigrate.no_wait_extern := with_meanwhile_ok _.
#[local] Instance no_wait_frames : WakeFrames Demo.extern DemoMigrate.no_wait_extern.
Proof. split; intros; cbn; first [by apply preserves_ret; typeclasses eauto | by intros ? ? ?]. Qed.

Example system_runs :
  (m_current twelve1, ts_static_prio <$> (m_tasks twelve1 !! 12)) = (12, Some 105) /\
  (m_current niced1, ts_static_prio <$> (m_tasks niced1 !! 12)) = (12, Some 125) /\
  (m_current again1, ts_static_prio <$> (m_tasks again1 !! 12)) = (12, Some 105).
Proof. vm_compute. done. Qed.

Lemma sched_step m N : is_Some (m_rqs m !! 0) -> __schedule SM_NONE (enter 0 1 m) = Ret tt (sched1 m) ->
  sys_step (m, N) (sched1 m, N ∖ {[m_current (sched1 m)]}).
Proof. by apply sys_schedule. Qed.

(** A nice value for the running task, forgotten once the scheduler has run it again. *)
Lemma system_steps : rtc sys_step (machine1, ∅) (niced1, {[12]}) /\ rtc sys_step (niced1, {[12]}) (again1, ∅).
Proof.
  split.
  - apply (rtc_l _ _ (woken1, ∅)); [|apply (rtc_l _ _ (twelve1, ∅ ∖ {[m_current twelve1]}))].
    + eapply (wake_up_step 0 13 TASK_NORMAL 0); [by eexists | vm_compute; reflexivity | apply woken1_ok].
    + apply sched_step; [vm_compute; by eexists | vm_compute; reflexivity].
    + apply rtc_once. replace ({[12]} : gset Z) with ((∅ ∖ {[m_current twelve1]}) ∪ {[12]} : gset Z) by set_solver.
      apply (sys_nice 0 12 5); [vm_compute; by eexists | vm_compute; by eexists | vm_compute; reflexivity].
  - replace (∅ : gset Z) with ((({[12]} ∖ {[m_current (sched1 niced1)]}) ∖ {[m_current (sched1 (sched1 niced1))]})
      ∖ {[m_current again1]} : gset Z).
    + eapply rtc_l; [apply sched_step | eapply rtc_l; [apply sched_step | apply rtc_once, sched_step]];
        first [vm_compute; reflexivity | vm_compute; by eexists].
    + assert (E : m_current again1 = 12) by (vm_compute; reflexivity). rewrite E. set_solver.
Qed.

Lemma fixed_priority_always_witness :
  rtc sys_step (machine1, ∅) (again1, ∅) /\ sched_ok again1 /\
  forall p, running again1 p -> p ∉ (∅ : gset Z) -> in_force again1 p.
Proof.
  assert (Hs : rtc sys_step (machine1, ∅) (again1, ∅)) by (etransitivity; apply system_steps).
  split; [exact Hs|]. apply (fixed_priority_always machine1); [apply sched_ok1 | | exact Hs].
  intros p (c & q & Hq & <-) t Ht. which_obj Hq; vm_compute in Ht; injection Ht as <-; discriminate.
Defined.
End Witness.
